(* ===== verification/_CoqProject ===== *)
-Q . S2P
Prelude.v
Prog.v
Kube.v
Lens.v
SessionEnv.v
GoTime.v
GoText.v
NetAddr.v
LoadBalancer.v
Failover.v
Orchestrator.v
Controller.v
Samples.v
Claim.v
Rules.v
Lifecycle.v
Pool.v
Expose.v
Runs.v
Approvals.v
Sha256.v
Os.v
LayerStore.v
Snapshot.v
Connect.v
Signed.v
Hash.v
RateLimit.v
ApiKey.v
Gateway.v
E2bKeys.v
E2bState.v
E2bLaws.v
E2bControl.v
E2bFiles.v
E2bStream.v
Isolation.v
E2bReaper.v
Auth.v
E2bFacts.v
Access.v
Terminal.v
E2bFs.v
E2bProcess.v
SecretsEncrypt.v
SecretsSafety.v
JoinToken.v
Passwd.v
NodeAuth.v
EtcdStore.v
BootstrapData.v
ClusterBoot.v
ClusterOnce.v
SnapshotFile.v
S3Store.v
EtcdSnapshot.v
SnapshotController.v
SnapshotLaws.v
SnapshotRecords.v
EtcdMembers.v
EtcdServer.v
EtcdNodes.v
EtcdLaws.v
EtcdJoin.v
ConfigArgs.v
NodeConfig.v
Tunnel.v
ApiProxy.v
NodeHosts.v
Deploy.v
DeployLaws.v
GatewayCert.v
CertLaws.v
Client.v
CliSession.v
CliRun.v
CliLaws.v
CliProfile.v
