(* ===== verification/Prelude.v ===== *)
(** * K8E: the sandbox control plane and the supervisor, verified

    K8E is a Kubernetes distribution with a built-in service that hands out
    sandboxes: pods in which agents run untrusted commands.  This library
    models from the Go source that service with its command line, and of the
    distribution itself the way servers and agents find, trust, join and reach
    each other, keep their state in the embedded etcd and save it, and read
    their configuration; it proves what they promise.  It is meant to be read
    beside [pkg/sandboxmatrix], [pkg/sandboxlayer], [pkg/sandbox],
    [pkg/sandboxcli], [pkg/cluster], [pkg/bootstrap], [pkg/clientaccess],
    [pkg/passwd], [pkg/nodepassword], [pkg/secretsencrypt], [pkg/etcd],
    [pkg/agent/loadbalancer], [pkg/agent/tunnel], [pkg/agent/proxy],
    [pkg/daemons/control/tunnel.go], [pkg/configfilearg], [pkg/nodeconfig],
    [pkg/node], [pkg/deploy] and the handlers of [pkg/server].

    ** The program

    - The _gateway_ ([sandboxmatrix/grpc/server.go], [cert.go], [terminal.go])
      is a gRPC server.  It makes the certificates it serves with and those of
      its clients, authenticates callers by client certificate or API key,
      rate-limits them, resolves a session to the address of its pod, and
      forwards commands, files and terminals to the [sandboxd] process there.
    - The _orchestrator_ ([orchestrator.go], [expose.go], [env.go]) owns the
      life of a session: it validates the request, claims a warm pod or starts
      one, writes the session object and its network policy, pauses, resumes
      and destroys, keeps background runs, approvals and exposed ports.
    - The _controller_ ([controller.go]) keeps the pools of warm pods at their
      target, recycles released pods, reaps idle ones and expires sessions.
    - The _layer store_ ([layerstore.go]) keeps workspace snapshots as
      content-addressed layers leased by manifests.
    - The _E2B server_ ([pkg/sandbox/e2b], [server/e2b_embedded.go]) speaks the
      protocol of the E2B SDK over HTTP and is a client of the gateway: it
      keeps a deadline per sandbox, in memory or in an annotation of the
      session object, and a scanner that ends sandboxes past it; it serves
      files, processes and exposed ports of a sandbox, partly by requests of
      its own to the [sandboxd] of the pod.
    - The _command line_ ([pkg/sandboxcli]) keeps one session per tenant in a
      state file that its processes share under a lock, creates it with a
      workspace, replaces it when it is gone, saves and restores snapshots,
      and remembers in profiles which gateway to dial.  The _client library_
      ([sandbox/client]) below it logs in for a client certificate, keeps and
      renews it.
    - The _supervisor_ of a server ([pkg/server], [pkg/cluster]) elects the
      certificates of the cluster through the datastore, keeps them there
      under a key and a cipher made from the join token, lets agents and
      servers in by password, bootstrap token or certificate, binds node names
      to node passwords, rotates the token and the keys that encrypt secrets.
    - The _etcd part_ of a server ([pkg/etcd]) joins, promotes, evicts and
      removes members, resets and restores a cluster, and takes snapshots on
      disk and in S3 whose records it keeps in the API server.
    - The _load balancer_, the _API proxy_ and the _tunnels_ of an agent send
      its connections to a server that is there, and those of the server to
      the agent that has the node or pod.
    - _Configuration_ ([configfilearg], [nodeconfig]) turns files into
      arguments and publishes them, without the secrets, on the node;
      _deployment_ ([deploy]) applies the manifests of the server's
      directories as add-ons; the _node controller_ ([node]) keeps the hosts
      file of the cluster DNS.

    But for the E2B server and the gateway, which the model lets call each
    other directly, the parts of the sandbox service share no memory but
    through the orchestrator; they meet in the objects of the Kubernetes API
    server, where the only guard between them is the resource version of an
    update.  [controller.go] makes an orchestrator of its own, apart from the
    gateway's.  Servers meet in the datastore, in the records of members,
    snapshots and add-ons and in the annotations of nodes; processes of the
    command line meet in the files below its directory.

    ** How the code is modelled

    A Go function that has effects is a finite tree of them ([Prog.prog]), one
    node per API call, sandboxd request, clock reading, file-system call or
    locked access to memory, in source order.  The same tree is run on a
    concrete server (examples, witnesses, counterexamples), cut off after [n]
    effects (crashes), interleaved with others effect by effect (races), and
    reasoned about against a contract of its environment that allows every
    documented behaviour, refusals included ([Prog.wp], [Prog.awp],
    [Prog.rgwp]).  Functions without effects are plain functions.  The weakest
    preconditions are total: a panic is an outcome of its own, which [Q] has to
    admit, and every tree is finite.

    The contracts stand for code outside the repository.  [Kube.kube_contract]
    is the API server, with optimistic concurrency, status subresources and
    arbitrary refusals unless [faults = false]; [Kube.mem_handler] is an
    executable server that keeps it ([Kube.mem_handler_respects]).
    [LayerStore.fs_contract] is the file system of the layer store; data not
    synced may be lost ([LayerStore.power_loss]) and [LayerStore.live_fs]
    keeps the contract.  The other parts have the files, clock and random
    bytes of [Os.os_contract] and what they ask for besides:
    [NodeAuth.na_contract] the API server and its cache,
    [ClusterOnce.cl_contract] etcd with the transactions of [EtcdStore],
    [JoinToken.any_network] a network that may answer anything,
    [SecretsSafety.sec_step] an API server that reloads its encryption
    configuration; [EtcdLaws.cluster_contract], [EtcdLaws.stall_contract],
    [EtcdJoin.join_contract] and [EtcdJoin.removal_contract] the members of an
    etcd cluster, [EtcdJoin.boot_contract] its start;
    [SnapshotLaws.disk_contract] and [SnapshotRecords.record_contract] the
    disk and the records of snapshots; [ConfigArgs.cfg_contract] the
    configuration files; [Tunnel.dial_contract] the tunnels;
    [NodeHosts.hosts_contract] the config map of the DNS;
    [DeployLaws.dep_contract] the add-ons; [CertLaws.cert_contract] keys and
    certificates; [CliLaws.cli_contract] the gateway, the lock and the state
    file of the command line, [CliProfile.conn_contract] its profiles.
    Executable worlds keep them.  The answers of sandboxd, and those of the
    gateway to the command line, are arbitrary.

    What the standard library of Go does not define simply, and what comes
    from packages outside the repository, is a class of functions with their
    documented laws, with an instance where a witness needs one: JSON, YAML
    and CSV texts ([ApiKey.JsonValues], [Connect.JSON], [E2bState.StateJSON],
    [E2bStream.FrameJSON], [BootstrapData.BootJSON],
    [SecretsEncrypt.ConfigJSON], [SnapshotFile.MetaJSON],
    [ConfigArgs.Yaml], [NodeConfig.ArgsJSON], [Deploy.Manifests],
    [CliSession.CliJSON], [CliProfile.ConnText], [Passwd.CSV]), certificates in PEM
    ([Client.PemCerts]), URLs and
    addresses ([JoinToken.UrlText], [LoadBalancer.UrlParser],
    [EtcdMembers.UrlHost], [NetAddr.IPText], [NetAddr.Ranger],
    [SnapshotFile.DNS1123]), cryptography ([Hash.ScryptKey],
    [EtcdStore.Cipher], [JoinToken.X509], [GatewayCert.PKI]), compression
    ([LayerStore.LayerCodec]), the order of maps and sorts
    ([Prelude.MapOrder], [Os.SortSlice], [LoadBalancer.Shuffle]), resource
    quantities and the local time zone.

    A program over a part of a server's memory runs in the whole of it through
    a lens ([Lens.zoom]): the orchestrator in the gateway, the gateway and the
    bookkeeping store in the E2B server, that server beside its process table.
    The two bookkeeping stores are instances of one class
    ([E2bState.StateStore]); the theorems about the handlers and the scanner
    are proved from its laws ([E2bLaws.StoreLaws]), which both stores fulfil.

    ** The files

    - [Prelude], [Prog], [Rules]: results, lists and strings; effect trees with
      their rules; rules for programs over the cluster and their automation.
    - [Kube]: the API objects ([api/v1alpha1/types.go]) and the contract.
    - [Lens]: programs over a part of the state.
    - [GoTime], [GoText], [NetAddr], [Sha256], [Os]: the parts of Go's
      library the code depends on.
    - [SessionEnv] ([env.go], [buildSessionCNP] and its rules): pure
      functions of a session.
    - [Orchestrator], [Expose], [Runs], [Approvals]: [orchestrator.go] and
      [expose.go]; [Controller]: [controller.go].
    - [Claim], [Lifecycle], [Pool]: theorems about those two.
    - [LayerStore], [Snapshot]: [layerstore.go] and the store side of
      [snapshot.go].
    - [RateLimit], [ApiKey], [Terminal]: the files of these names.
    - [Gateway]: [server.go] and the certificate ledger of [cert.go];
      [Auth], [Access]: theorems about it.
    - [GatewayCert]: the authority and the certificates of [cert.go];
      [CertLaws]: theorems about them, and a gateway run.
    - [Connect] ([protocol.go], [gwerror.go]), [Signed] (tokens, signed URLs
      and Base64), [E2bKeys] ([apikey.go] of the E2B server and the reloads of
      [e2b_embedded.go]), [E2bState] ([registry.go], [state_store.go],
      [crd_state.go]), [E2bControl] ([control.go], the listing and the
      scanner of [registry.go]), [E2bFiles] and [E2bFs] ([files.go],
      [sandboxd.go], [expose.go], the file handlers of [envd.go]), [E2bStream]
      (the output of a process) and [E2bProcess] ([process.go], [pty.go], the
      process handlers of [envd.go]).
    - [E2bLaws]: the laws of a bookkeeping store; [E2bReaper], [E2bFacts]:
      theorems about the scanner and the control plane; [Isolation]: that a
      call on one session keeps off the others.
    - [CliSession] ([sandboxcli/session.go]), [CliRun] ([commands.go],
      [manifest.go], the dialogue of [snapshot.go]), [CliProfile]
      ([profile.go], [config.go], [connect.go], [login.go]); [CliLaws]:
      theorems about them and runs.  [Client] ([sandbox/client/client.go]).
    - [LoadBalancer] ([loadbalancer.go], [servers.go], [utility.go],
      [config.go]); [Failover]: theorems about it.
    - [SecretsEncrypt] ([secretsencrypt/config.go],
      [server/secrets-encrypt.go]); [SecretsSafety]: theorems about it.
    - [Hash] ([pkg/authenticator/hash]); [JoinToken]
      ([clientaccess/token.go], [util/token.go]); [Passwd] ([passwd.go],
      [passwordfile.go], [basicauth.go], [server/auth], the users of
      [deps.go]); [NodeAuth] ([nodepassword.go], the node side of
      [server/router.go]).
    - [EtcdStore] ([etcdstorage/client.go], [cluster/encrypt.go]),
      [BootstrapData] ([pkg/bootstrap], the comparison in
      [cluster/bootstrap.go]), [ClusterBoot] ([cluster/storage.go],
      [cluster/bootstrap.go], [server/token.go]); [ClusterOnce]:
      theorems about it.
    - [EtcdMembers] and [EtcdServer] ([etcd/etcd.go], [cluster/managed.go]),
      [EtcdNodes] ([member_controller.go], [metadata_controller.go]);
      [EtcdLaws], [EtcdJoin]: theorems about them.
    - [SnapshotFile] ([etcd/snapshot/types.go]), [S3Store] ([etcd/s3]),
      [EtcdSnapshot] ([etcd/snapshot.go]), [SnapshotController]
      ([snapshot_controller.go], [snapshot_handler.go]); [SnapshotLaws],
      [SnapshotRecords]: theorems and runs.
    - [ConfigArgs] ([pkg/configfilearg]); [NodeConfig]
      ([pkg/nodeconfig]).
    - [Tunnel] ([agent/tunnel], [daemons/control/tunnel.go]);
      [ApiProxy] ([agent/proxy]).
    - [NodeHosts] ([node/controller.go]); [Deploy] ([deploy/controller.go]),
      [DeployLaws].
    - [Samples]: small worlds for examples.

    ** What is shown

    - Claims ([Claim], [Lifecycle]): two returned claims never hold the same pod, in any
      interleaving with promotion and refill; what a claim returns fits the
      session; the idle reaper can still delete a claimed pod.
    - Session life ([Lifecycle], [Access]): destroy, pause,
      resume and sub-agents do what they promise and nothing else; the
      refusals; a lost status write, and a destroy that was cut off.
    - Network ([SessionEnv], [Expose]): the policy of a session admits exactly the
      intended traffic, and exposing a port is all or nothing.
    - Pool ([Pool]): a reconcile reaches its target, within the
      capacity; idle pods are reaped exactly when due.
    - Snapshots ([LayerStore], [Snapshot]): saving is atomic at every crash
      point, reading gives back what was saved, the collector keeps exactly
      the leased layers; a collection during a save loses the snapshot.
    - Access ([Auth], [Access], [ApiKey]): who is refused, by
      calls and by streams, what a removed key still opens, what a command is sent with and where.
    - Certificates ([CertLaws]): the pair the gateway serves with belongs
      together and covers its names at every crash point, and it starts.
    - Limits and bookkeeping ([RateLimit], [Approvals], [Runs], [Terminal], [SessionEnv]): admission
      bounds over calls, reloads and removals of buckets, approvals, runs, terminals, environment validation.
    - The E2B server ([Connect], [Signed], [E2bKeys]: who and what is let in;
      [E2bReaper], [E2bFacts]: the scanner ends what is due and spares the
      rest, bookkeeping survives in the session objects; [E2bControl]: pages;
      [E2bFs], [E2bFiles]: file calls stay below the workspace but for the
      exceptions that the theorem names, ranges inside the file, the proxy on exposed ports; [E2bStream]: output and exit code
      of a process whatever the chunks; [E2bProcess]: the process table, and
      that no call reaches a process of another sandbox).
    - [Isolation]: destroying or pausing a session leaves the others alone.
    - The command line ([CliLaws], [CliProfile]): an active
      session stays recorded in every interleaving, a set-up that fails
      destroys what it created unless the gateway refuses, a recorded gateway
      is the one that is dialled.
    - The client library ([Client]): certificates are shown only to servers
      that are verified.
    - Joining ([JoinToken], [Passwd], [NodeAuth]): tokens are read back as
      printed, a joining node pins the CA and sends no credential before, the
      password file is written atomically and authenticates exactly its
      users, a node name stays bound to its password, and each route of the
      supervisor asks for its role.
    - Bootstrap ([BootstrapData], [ClusterOnce]): of servers
      that start together one fills the datastore and none replaces what is
      there, unless it breaks the lock of another; disk and datastore are
      reconciled; moving the data to a new token loses it at no point, unless
      there is other data under that token.
    - Etcd ([EtcdLaws], [EtcdJoin]): the leader keeps
      voters and evicts exactly the learners that stall; who a joining server
      starts etcd with; whom a removal removes, and how he comes back.
    - Snapshots of etcd ([SnapshotLaws], [SnapshotRecords], [SnapshotFile]):
      retention, the records after a reconciliation, refused requests for
      records included, their round trip.
    - Secrets ([SecretsSafety]): a re-encryption keeps every secret readable,
      stages follow each other.
    - Load balancer ([Failover]): the state stays well formed in every
      interleaving, with each access to a shared field a step of its own; a
      dial that runs alone ends, and reaches a server if there is one.
    - Tunnels ([Tunnel]): the agent serves exactly the dials it should,
      and a dial to a pod ends at its node, as long as no late event of
      another pod is about its address.
    - Configuration ([ConfigArgs], [NodeConfig]): the arguments are those of
      the merged entries; annotations tell none of the secrets they know of.
    - Manifests and hosts ([DeployLaws], [NodeHosts]): what a pass leaves of
      the add-ons, what the hosts file says after a node has changed.

    A theorem whose name says that something is lost, leaks or is never done
    shows a defect of the code; the definitions are those of the code.

    ** Bounds

    [Gateway.pollRounds] unrolls the polling loop into the 12 rounds the source
    has, the last of which refuses.  [LayerStore.chunks] takes
    the length of the content as fuel, and each chunk uses at least one byte
    ([LayerStore.chunks_concat]).  [E2bStream.frames_out] and
    [Connect.parse_from] take the length of the text, of which each round
    takes at least one character; [E2bControl.gcLoop] is told the number of
    ticks.  [LoadBalancer.dialContext] needs, when it runs alone, one round more
    than twice the length of the list ([Failover.dial_ends]).  A learner that stalls is evicted
    within 22 ticks of 15 seconds, five minutes and what the first and the last
    round take.  A poll that ends with its context is told how
    many polls come before that; [ClusterOnce.bootstrap_data_written_once]
    asks for fewer than the five after which a lock is broken, and
    [ClusterOnce.broken_lock_splits] shows why.  Retries have the number of
    attempts of the source: nine for records and config maps, five for the
    annotations of a removal.  Loops that wait for others ([startJoinLoop],
    [Deploy.start_rounds], [CliSession.resolve_rounds]) are told their rounds
    and say when they are still waiting.  Loops over lists are structural.
    Integers
    are [Z]; where a width matters ([int64] sums, [time.Duration], [int32]
    counts) the wrap-around is written out ([wrap64]).  Bucket levels, which
    the code holds in [float64], are exact rationals.

    ** What is not modelled

    Log lines, metrics and error texts; leader election; the routes and
    time-outs of the E2B server, its connection to the gateway and its
    keepalive messages.  Of the
    command line: the commands that send one request and print the answer,
    the benchmark, the doctor, the installation of skills.  Of
    the distribution: the etcd server, its client and its proxy, the
    controller of API addresses, the temporary etcd of a restore, the
    decompression of snapshots, the HTTPS listener, the start of servers and
    agents, generated code, and the handlers that only send a file or the
    configuration.  Names of
    snapshots and layers are single path components.  A stream of the E2B
    server is run to its end before the next call, where the code interleaves
    it with other requests. *)
From Stdlib Require Import ZArith Lia.
From stdpp Require Export base gmap strings list fin_maps numbers pretty sorting.

#[export] Set Default Goal Selector "!".

(** ** Go results

    A Go function returning [(T, error)] is a [res T].  Error texts are not
    modelled; the gRPC status code, the Kubernetes API reason, or a tag for a
    plain [fmt.Errorf] are. *)

Inductive code : Type :=
  | InvalidArgument | NotFound | PermissionDenied | FailedPrecondition
  | ResourceExhausted | Unauthenticated | Internal | Unavailable
  | Canceled | DeadlineExceeded.

(** Reasons of Kubernetes API errors the code tells apart. *)
Inductive reason : Type :=
  | RNotFound | RAlreadyExists | RConflict | RInvalid | ROther.

Inductive error : Type :=
  | Status (c : code)
  | Api (r : reason)
  | Plain (tag : string).

Inductive res (A : Type) : Type :=
  | Ok (a : A)
  | Err (e : error).
Arguments Ok {A} a.
Arguments Err {A} e.

#[export] Instance code_eq_dec : EqDecision code.
Proof. solve_decision. Defined.
#[export] Instance reason_eq_dec : EqDecision reason.
Proof. solve_decision. Defined.
#[export] Instance error_eq_dec : EqDecision error.
Proof. solve_decision. Defined.
#[export] Instance res_eq_dec `{EqDecision A} : EqDecision (res A).
Proof. solve_decision. Defined.

Definition is_ok {A} (r : res A) : bool :=
  match r with Ok _ => true | Err _ => false end.

(** The error [os.IsNotExist] knows. *)
Definition not_exist : error := Plain "file does not exist".

(** [apierrors.IsNotFound]. *)
Definition is_not_found (e : error) : bool := bool_decide (e = Api RNotFound).

(** Notation for the error-propagating [if err != nil { return ... }]. *)
Declare Scope go_scope.
Delimit Scope go_scope with go.
Notation "'let?' x ':=' e 'in' k" :=
  (match e with Ok x => k | Err err => Err err end)
  (at level 10, x name, e at level 200, k at level 200) : go_scope.
Open Scope go_scope.

(** ** Machine integers *)

(** Two's-complement wrap-around of Go's [int64] (and [int] on 64-bit). *)
Definition wrap64 (z : Z) : Z := ((z + 2 ^ 63) `mod` 2 ^ 64 - 2 ^ 63)%Z.

(** Range of [int64]. *)
Definition in_int64 (z : Z) : Prop := (- 2 ^ 63 <= z < 2 ^ 63)%Z.

(** Go's integer division truncates towards zero. *)
Definition go_div (a b : Z) : Z := Z.quot a b.

(** Nanoseconds of a [time.Duration]. *)
Definition second : Z := 1000000000.
Definition minute : Z := 60 * second.
Definition hour : Z := 60 * minute.

(** ** Go strings *)

Fixpoint strip_prefix (p s : string) : option string :=
  match p, s with
  | EmptyString, _ => Some s
  | String a p', String b s' => if Ascii.eqb a b then strip_prefix p' s' else None
  | String _ _, EmptyString => None
  end.

(** [strings.HasPrefix(s, p)] *)
Definition has_prefix (s p : string) : bool :=
  match strip_prefix p s with Some _ => true | None => false end.

(** [strings.TrimPrefix(s, p)] *)
Definition trim_prefix (s p : string) : string :=
  match strip_prefix p s with Some r => r | None => s end.

(** [strings.Contains(s, sub)] *)
Fixpoint contains (s sub : string) : bool :=
  has_prefix s sub ||
  match s with EmptyString => false | String _ s' => contains s' sub end.

(** [strings.Split(s, sep)] for a one-byte separator. *)
Fixpoint split_on (sep : Ascii.ascii) (s : string) : list string :=
  match s with
  | EmptyString => [EmptyString]
  | String c s' =>
      if Ascii.eqb c sep then EmptyString :: split_on sep s'
      else match split_on sep s' with
           | w :: ws => String c w :: ws
           | [] => [String c EmptyString]
           end
  end.

(** [strings.Join(l, sep)] *)
Fixpoint join_with (sep : string) (l : list string) : string :=
  match l with
  | [] => EmptyString
  | [w] => w
  | w :: ws => w +:+ sep +:+ join_with sep ws
  end.

(** The byte [c] does not occur in [s]. *)
Fixpoint no_char (c : Ascii.ascii) (s : string) : bool :=
  match s with
  | EmptyString => true
  | String a s' => negb (Ascii.eqb a c) && no_char c s'
  end.

Definition comma : Ascii.ascii := Ascii.Ascii false false true true false true false false.

(** [s[:n]] for [n <= len(s)]. *)
Definition take_str (n : nat) (s : string) : string := String.substring 0 n s.

(** [sort.Strings] *)
Definition sort_strings (l : list string) : list string := merge_sort String.le l.

(** ** Go maps *)

(** A Go map is iterated in an unspecified order. *)
Class MapOrder := mkMapOrder {
  iter : forall V, gmap string V -> list (string * V);
  iter_perm : forall V (m : gmap string V), iter V m ≡ₚ map_to_list m;
}.
Arguments iter {_ V} m.

Definition list_order : MapOrder := {| iter V m := map_to_list m; iter_perm V m := Permutation_refl _ |}.

Lemma elem_of_iter `{MapOrder} {V} (m : gmap string V) (k : string) (v : V) : (k, v) ∈ iter m <-> m !! k = Some v.
Proof. rewrite iter_perm. apply elem_of_map_to_list. Qed.

Lemma iter_keys `{MapOrder} {V} (m : gmap string V) : NoDup (iter m).*1.
Proof. rewrite iter_perm. apply NoDup_fst_map_to_list. Qed.

(** ** Automation *)

(** Split on the innermost [match] or [if] of the goal or a hypothesis and
    simplify the equation it leaves. *)
Ltac go_case :=
  match goal with
  | |- context [match ?x with _ => _ end] =>
      lazymatch x with context [match _ with _ => _ end] => fail | _ => destruct x eqn:? end
  | H : context [match ?x with _ => _ end] |- _ =>
      lazymatch x with context [match _ with _ => _ end] => fail | _ => destruct x eqn:? end
  end.
Ltac go_cases := repeat (go_case; simplify_eq/=).

Create HintDb k8e discriminated.
Create Rewrite HintDb k8e.

(** ** Generic lemmas *)

Section strings.

Lemma append_cons (x : Ascii.ascii) (a b : string) :
  String x a +:+ b = String x (a +:+ b).
Proof. done. Qed.

Lemma append_nil_l (a : string) : EmptyString +:+ a = a.
Proof. done. Qed.

(** Every character of a string. *)
Fixpoint all_chars (f : Ascii.ascii -> bool) (s : string) : bool :=
  match s with EmptyString => true | String c s => f c && all_chars f s end.

Lemma all_chars_app f a b : all_chars f (a +:+ b) = all_chars f a && all_chars f b.
Proof. induction a as [|x a IH]; [done|]. rewrite append_cons. cbn [all_chars]. by rewrite IH, andb_assoc. Qed.

Lemma append_assoc (a b c : string) : (a +:+ b) +:+ c = a +:+ (b +:+ c).
Proof. induction a as [|x a IH]; [done|]. by rewrite !append_cons, IH. Qed.

Lemma append_empty_r (a : string) : a +:+ EmptyString = a.
Proof. induction a as [|x a IH]; [done|]. by rewrite append_cons, IH. Qed.

Lemma length_append (a b : string) : String.length (a +:+ b) = (String.length a + String.length b)%nat.
Proof. induction a as [|x a IH]; [done|]. rewrite append_cons. simpl. by rewrite IH. Qed.

Lemma strip_prefix_app (p s : string) : strip_prefix p (p +:+ s) = Some s.
Proof.
  induction p as [|a p IH]; [done|]. rewrite append_cons. simpl.
  by rewrite Ascii.eqb_refl.
Qed.

Lemma strip_prefix_Some (p s r : string) :
  strip_prefix p s = Some r <-> s = p +:+ r.
Proof.
  split; [|intros ->; apply strip_prefix_app].
  revert s; induction p as [|a p IH]; intros s; simpl; [by intros [= ->]|].
  destruct s as [|b s]; [done|].
  destruct (Ascii.eqb_spec a b) as [->|]; [|done]. intros ->%IH.
  by rewrite append_cons.
Qed.

Lemma has_prefix_spec (s p : string) : has_prefix s p = true <-> exists r, s = p +:+ r.
Proof.
  unfold has_prefix. destruct (strip_prefix p s) as [r|] eqn:E.
  - apply strip_prefix_Some in E. naive_solver.
  - split; [done|]. intros [r ->]. by rewrite strip_prefix_app in E.
Qed.

Lemma contains_spec (s sub : string) :
  contains s sub = true <-> exists a b, s = a +:+ sub +:+ b.
Proof.
  induction s as [|c s IH]; simpl; rewrite orb_true_iff, has_prefix_spec.
  - split.
    + intros [[r Hr]|]; [|done]. by exists EmptyString, r.
    + intros (a & b & H). left. destruct a; [|done]. by exists b.
  - rewrite IH. split.
    + intros [[r Hr]|(a & b & ->)].
      * by exists EmptyString, r.
      * by exists (String c a), b.
    + intros ([|c' a] & b & H); [left; by exists b|]. right.
      rewrite append_cons in H. injection H as -> ->. by exists a, b.
Qed.

Lemma split_on_ne (sep : Ascii.ascii) (s : string) : split_on sep s <> [].
Proof. destruct s as [|c s]; simpl; [done|]. repeat case_match; done. Qed.

Lemma split_on_app (sep : Ascii.ascii) (w s : string) :
  no_char sep w = true ->
  split_on sep (w +:+ String sep s) = w :: split_on sep s.
Proof.
  induction w as [|c w IH].
  - intros _. rewrite append_nil_l. simpl. by rewrite Ascii.eqb_refl.
  - rewrite append_cons. simpl.
    intros [Hc Hw]%andb_true_iff. apply negb_true_iff in Hc.
    by rewrite Hc, IH.
Qed.

Lemma split_on_no_char (sep : Ascii.ascii) (w : string) :
  no_char sep w = true -> split_on sep w = [w].
Proof.
  induction w as [|c w IH]; simpl; [done|].
  intros [Hc Hw]%andb_true_iff. apply negb_true_iff in Hc.
  by rewrite Hc, IH.
Qed.

Lemma split_join (sep : Ascii.ascii) (l : list string) :
  l <> [] -> Forall (fun w => no_char sep w = true) l ->
  split_on sep (join_with (String sep EmptyString) l) = l.
Proof.
  intros Hne Hl. induction Hl as [|w ws Hw Hws IH]; [done|].
  destruct ws as [|w' ws]; [by apply split_on_no_char|].
  change (join_with _ (w :: w' :: ws))
    with (w +:+ String sep (join_with (String sep EmptyString) (w' :: ws))).
  rewrite split_on_app by done. by rewrite IH.
Qed.

(** Appending a word the way the annotations are appended to. *)
Lemma split_on_snoc (sep : Ascii.ascii) (s w : string) :
  no_char sep w = true ->
  split_on sep (s +:+ String sep w) = split_on sep s ++ [w].
Proof.
  intros Hw. induction s as [|c s IH].
  - rewrite append_nil_l. simpl. rewrite Ascii.eqb_refl. by rewrite split_on_no_char.
  - rewrite append_cons. simpl. destruct (Ascii.eqb c sep); [by rewrite IH|].
    rewrite IH. pose proof (split_on_ne sep s).
    by destruct (split_on sep s).
Qed.

End strings.

Lemma sort_strings_perm (l : list string) : sort_strings l ≡ₚ l.
Proof. apply merge_sort_Permutation. Qed.

Section lists.
Context {A B : Type}.

Lemma existsb_false_iff (f : A -> bool) (l : list A) :
  existsb f l = false <-> Forall (fun x => f x = false) l.
Proof.
  induction l as [|x l IH]; simpl; [done|].
  rewrite orb_false_iff, IH, Forall_cons. done.
Qed.

Lemma find_Some_elem (f : A -> bool) (l : list A) (x : A) :
  List.find f l = Some x -> x ∈ l /\ f x = true.
Proof. intros [H1 H2]%find_some. by rewrite list_elem_of_In. Qed.

Lemma find_None_Forall (f : A -> bool) (l : list A) :
  List.find f l = None <-> Forall (fun x => f x = false) l.
Proof.
  rewrite Forall_forall. split.
  - intros H x Hx%list_elem_of_In. by apply (find_none f l).
  - intros H. destruct (List.find f l) as [x|] eqn:E; [|done].
    apply find_Some_elem in E as [Hx Hf]. by rewrite (H x Hx) in Hf.
Qed.

End lists.

Section ints.
Open Scope Z_scope.

Lemma wrap64_id (z : Z) : in_int64 z -> wrap64 z = z.
Proof. unfold in_int64, wrap64. intros H. rewrite Z.mod_small; lia. Qed.

Lemma wrap64_range (z : Z) : in_int64 (wrap64 z).
Proof.
  unfold in_int64, wrap64.
  pose proof (Z.mod_pos_bound (z + 2 ^ 63) (2 ^ 64)). lia.
Qed.

Lemma go_div_pos (a b : Z) : 0 <= a -> 0 < b -> go_div a b = a / b.
Proof. intros. unfold go_div. apply Z.quot_div_nonneg; lia. Qed.
End ints.

(** ** Texts for samples

    Where a format is a parameter, samples use the bits of an encoding. *)
Fixpoint bits (p : positive) : string :=
  match p with
  | xH => EmptyString
  | xO p => String Ascii.zero (bits p)
  | xI p => String Ascii.one (bits p)
  end.
Fixpoint unbits (s : string) : positive :=
  match s with
  | EmptyString => xH
  | String c s => if decide (c = Ascii.zero) then xO (unbits s) else xI (unbits s)
  end.

Lemma unbits_bits p : unbits (bits p) = p.
Proof. induction p as [p IH|p IH|]; simpl; by rewrite ?IH. Qed.

Definition value_text {A} `{Countable A} (a : A) : string := bits (encode a).
Definition read_value {A} `{Countable A} (s : string) : option A := decode (unbits s).
Lemma read_value_text {A} `{Countable A} (a : A) : read_value (value_text a) = Some a.
Proof. unfold read_value, value_text. by rewrite unbits_bits, decode_encode. Qed.

Lemma bits_chars f p : f Ascii.zero = true -> f Ascii.one = true -> all_chars f (bits p) = true.
Proof. intros H0 H1. induction p as [p IH|p IH|]; cbn in *; rewrite ?IH, ?andb_true_r; assumption || reflexivity. Qed.

Lemma no_char_all c s : no_char c s = all_chars (fun a => negb (Ascii.eqb a c)) s.
Proof. induction s as [|a s IH]; [done|]. cbn. by rewrite IH. Qed.

#[export] Hint Resolve wrap64_range : k8e.
#[export] Hint Rewrite append_assoc append_empty_r : k8e.
