(* ===== verification/Prog.v ===== *)
(** * Effectful Go code as trees of effects

    A Go function that talks to the API server, to sandboxd, to the clock or
    to a mutex-protected field is a [prog E A]: a finite tree whose nodes are
    its effects [E], in the order the code performs them.  The one definition
    is then read in four ways:

    - [run]: sequential execution against a handler (executable);
    - [run_upto]: execution that dies after [n] effects (a process crash);
    - [wp]: the postcondition that holds for every behaviour a contract on
      the environment permits;
    - [pstep]: small steps of a pool of concurrent calls, one effect at a time,
      with the rely-guarantee rule [pool_sound].

    A Go [panic] is the tree [Panic]. *)
From S2P Require Import Prelude.

(** ** Trees and their sequential composition *)

Inductive prog (E : Type -> Type) (A : Type) : Type :=
  | Ret (a : A)
  | Vis {X : Type} (e : E X) (k : X -> prog E A)
  | Panic (msg : string).
Arguments Ret {E A} a.
Arguments Vis {E A X} e k.
Arguments Panic {E A} msg.

Fixpoint bind {E A B} (p : prog E A) (f : A -> prog E B) : prog E B :=
  match p with
  | Ret a => f a
  | Vis e k => Vis e (fun x => bind (k x) f)
  | Panic m => Panic m
  end.

Definition call {E X} (e : E X) : prog E X := Vis e Ret.

Declare Scope prog_scope.
Delimit Scope prog_scope with prog.
Bind Scope prog_scope with prog.
Notation "'do' x '<-' p ';' k" := (bind p (fun x => k))
  (at level 10, x name, p at level 200, k at level 200,
   format "'do'  x  '<-'  p ';' '//' k") : prog_scope.
Notation "'do!' p ';' k" := (bind p (fun _ => k))
  (at level 10, p at level 200, k at level 200,
   format "'do!'  p ';' '//' k") : prog_scope.
(** [x, err := p; if err != nil { return err }] *)
Notation "'try' x '<-' p ';' k" :=
  (bind p (fun r => match r with Ok x => k | Err err => Ret (Err err) end))
  (at level 10, x name, p at level 200, k at level 200,
   format "'try'  x  '<-'  p ';' '//' k") : prog_scope.
Open Scope prog_scope.

(** [for _, x := range l { f(x) }] *)
Fixpoint for_each {E A} (l : list A) (f : A -> prog E unit) : prog E unit :=
  match l with
  | [] => Ret tt
  | x :: l => do! f x; for_each l f
  end.

(** What a call comes to: it returns or it panics. *)
Inductive outcome (A : Type) : Type :=
  | Done (a : A)
  | Panicked.
Arguments Done {A} a.
Arguments Panicked {A}.

(** ** Execution *)

Definition handler (E : Type -> Type) (S : Type) : Type :=
  forall X, E X -> S -> X * S.

Fixpoint run {E S A} (h : handler E S) (p : prog E A) (s : S) : outcome A * S :=
  match p with
  | Ret a => (Done a, s)
  | Vis e k => let '(x, s') := h _ e s in run h (k x) s'
  | Panic _ => (Panicked, s)
  end.

(** The state a process leaves behind when it dies after [n] effects. *)
Fixpoint run_upto {E S A} (h : handler E S) (n : nat) (p : prog E A) (s : S) : S :=
  match n, p with
  | S n, Vis e k => let '(x, s') := h _ e s in run_upto h n (k x) s'
  | _, _ => s
  end.

(** ** Contracts and weakest preconditions *)

(** A contract relates an effect, the environment before it, its answer and
    the environment after it. *)
Definition contract (E : Type -> Type) (V : Type) : Type :=
  forall X, E X -> V -> X -> V -> Prop.

(** The handler [h], seen through [view], keeps the contract. *)
Definition respects {E S V} (h : handler E S) (view : S -> V) (C : contract E V) : Prop :=
  forall X (e : E X) s, C X e (view s) (fst (h X e s)) (view (snd (h X e s))).

Fixpoint wp {E V A} (C : contract E V) (p : prog E A)
    (Q : outcome A -> V -> Prop) (v : V) : Prop :=
  match p with
  | Ret a => Q (Done a) v
  | Vis e k => forall x v', C _ e v x v' -> wp C (k x) Q v'
  | Panic _ => Q Panicked v
  end.

(** The same for code that never panics, with an invariant that holds after
    every single effect, and so wherever the process may die. *)
Fixpoint awp {E V A} (C : contract E V) (I : V -> Prop) (p : prog E A)
    (Q : A -> V -> Prop) (v : V) : Prop :=
  I v /\
  match p with
  | Ret a => Q a v
  | Vis e k => forall x v', C _ e v x v' -> awp C I (k x) Q v'
  | Panic _ => False
  end.

(** ** Pools of concurrent calls *)

(** One scheduler step: some call performs its next effect. *)
Inductive pstep {E S A} (h : handler E S) :
    list (prog E A) * S -> list (prog E A) * S -> Prop :=
  | pstep_vis ps i X (e : E X) k s :
      ps !! i = Some (Vis e k) ->
      pstep h (ps, s) (<[i := k (fst (h X e s))]> ps, snd (h X e s)).

(** The steps of one schedule: [l] names the call that moves next. *)
Fixpoint sched {E S A} (h : handler E S) (l : list nat) (c : list (prog E A) * S) :
    list (prog E A) * S :=
  match l with
  | [] => c
  | i :: l =>
      sched h l
        match fst c !! i with
        | Some (Vis e k) => let '(x, s) := h _ e (snd c) in (<[i := k x]> (fst c), s)
        | _ => c
        end
  end.

(** The precondition of a call that runs beside others which only make
    [R]-changes, makes only [G]-changes itself, and ends in [Q]. *)
Fixpoint rgwp {E V A} (C : contract E V) (R G : V -> V -> Prop)
    (p : prog E A) (Q : A -> V -> Prop) (v : V) : Prop :=
  match p with
  | Ret a => forall v', R v v' -> Q a v'
  | Vis e k => forall v1 x v2,
      R v v1 -> C _ e v1 x v2 -> G v1 v2 /\ rgwp C R G (k x) Q v2
  | Panic _ => True
  end.

(** ** Lemmas *)

Section prog.
Context {E : Type -> Type}.

Lemma bind_assoc {A B D} (p : prog E A) (f : A -> prog E B) (g : B -> prog E D)
    {S} (h : handler E S) (s : S) :
  run h (bind (bind p f) g) s = run h (bind p (fun a => bind (f a) g)) s.
Proof.
  revert s. induction p as [a|X e k IH|m]; intros s; simpl; [done| |done].
  destruct (h X e s) as [x s']. apply IH.
Qed.

Lemma run_bind {S A B} (h : handler E S) (p : prog E A) (f : A -> prog E B) (s : S) :
  run h (bind p f) s =
    match run h p s with
    | (Done a, s') => run h (f a) s'
    | (Panicked, s') => (Panicked, s')
    end.
Proof.
  revert s. induction p as [a|X e k IH|m]; intros s; simpl; [done| |done].
  destruct (h X e s) as [x s']. apply IH.
Qed.

Lemma sched_steps {S A} (h : handler E S) (l : list nat) (c : list (prog E A) * S) :
  rtc (pstep h) c (sched h l c).
Proof.
  revert c. induction l as [|i l IH]; intros [ps s]; simpl; [done|].
  destruct (ps !! i) as [[a|X e k|m]|] eqn:Hi; try apply IH.
  pose proof (pstep_vis h ps i X e k s Hi) as Hstep.
  destruct (h X e s) as [x s']. eapply rtc_l; [exact Hstep|]. apply IH.
Qed.

Context {V : Type}.
Implicit Types (C : contract E V) (v : V).

Lemma wp_bind {A B} C (p : prog E A) (f : A -> prog E B) Q v :
  wp C p (fun o v' => match o with
                      | Done a => wp C (f a) Q v'
                      | Panicked => Q Panicked v'
                      end) v ->
  wp C (bind p f) Q v.
Proof.
  revert v. induction p as [a|X e k IH|m]; intros v; simpl; [done| |done].
  intros H x v' Hc. apply IH, H, Hc.
Qed.

Lemma wp_mono {A} C (p : prog E A) (Q Q' : outcome A -> V -> Prop) v :
  (forall o v', Q o v' -> Q' o v') -> wp C p Q v -> wp C p Q' v.
Proof.
  intros HQ. revert v. induction p as [a|X e k IH|m]; intros v; simpl; [auto| |auto].
  intros H x v' Hc. eapply IH, H, Hc.
Qed.

Lemma wp_true {A} C (p : prog E A) v : wp C p (fun _ _ => True) v.
Proof. revert v. induction p as [a|X e k IH|m]; intros v; simpl; [done| |done]. intros; apply IH. Qed.

Lemma wp_for_each {A} C (l : list A) (f : A -> prog E unit) (I : V -> Prop) v :
  (forall a v, a ∈ l -> I v -> wp C (f a) (fun o v' => o <> Panicked /\ I v') v) ->
  I v ->
  wp C (for_each l f) (fun o v' => o <> Panicked /\ I v') v.
Proof.
  revert v. induction l as [|a l IH]; intros v Hf HI; simpl; [done|].
  apply wp_bind. eapply wp_mono; [|apply Hf; [set_solver|done]].
  intros [[]|] v' [H1 H2]; [|done].
  apply IH; [|done]. intros; apply Hf; [set_solver|done].
Qed.

(** Every execution against a handler that keeps the contract satisfies
    the postcondition. *)
Lemma wp_sound {S A} C (h : handler E S) (view : S -> V) (p : prog E A) Q s :
  respects h view C -> wp C p Q (view s) ->
  Q (fst (run h p s)) (view (snd (run h p s))).
Proof.
  intros Hh. revert s. induction p as [a|X e k IH|m]; intros s; simpl; [done| |done].
  intros H. specialize (Hh X e s). destruct (h X e s) as [x s']. apply IH, H, Hh.
Qed.

Lemma awp_bind {A B} C I (p : prog E A) (f : A -> prog E B) Q v :
  awp C I p (fun a v' => awp C I (f a) Q v') v -> awp C I (bind p f) Q v.
Proof.
  revert v. induction p as [a|X e k IH|m]; intros v; simpl; [by intros [_ ?]| |done].
  intros [HI H]. split; [done|]. intros x v' Hc. apply IH, H, Hc.
Qed.

Lemma awp_mono {A} C I (p : prog E A) (Q Q' : A -> V -> Prop) v :
  (forall a v', I v' -> Q a v' -> Q' a v') -> awp C I p Q v -> awp C I p Q' v.
Proof.
  intros HQ. revert v. induction p as [a|X e k IH|m]; intros v; simpl; [intros [? ?]; auto| |done].
  intros [HI H]. split; [done|]. intros x v' Hc. apply IH, H, Hc.
Qed.

Lemma awp_inv_mono {A} C (I I' : V -> Prop) (p : prog E A) Q v :
  (forall v', I v' -> I' v') -> awp C I p Q v -> awp C I' p Q v.
Proof.
  intros HI. revert v. induction p as [a|X e k IH|m]; intros v; simpl; [intros [? ?]; auto| |].
  - intros [? H]. split; [auto|]. intros x v' Hc. apply IH, H, Hc.
  - by intros [_ ?].
Qed.

Lemma awp_inv {A} C I (p : prog E A) Q v : awp C I p Q v -> I v.
Proof. by destruct p; intros [? _]. Qed.

Lemma awp_wp {A} C I (p : prog E A) Q v :
  awp C I p Q v -> wp C p (fun o v' => I v' /\ exists a, o = Done a /\ Q a v') v.
Proof.
  revert v. induction p as [a|X e k IH|m]; intros v; simpl.
  - intros [HI HQ]. split; [done|]. by exists a.
  - intros [_ H] x v' Hc. by apply IH, H.
  - by intros [_ ?].
Qed.

Lemma awp_crash {S A} C I (h : handler E S) (view : S -> V) (p : prog E A) Q n s :
  respects h view C -> awp C I p Q (view s) -> I (view (run_upto h n p s)).
Proof.
  intros Hh. revert p s. induction n as [|n IH]; intros p s H; simpl; [by eapply awp_inv|].
  destruct p as [a|X e k|m]; [by destruct H|..|by destruct H].
  specialize (Hh X e s). destruct (h X e s) as [x s']. apply IH. by apply H.
Qed.

Lemma rgwp_rely {A} C R G (p : prog E A) Q v v' :
  Transitive R -> R v v' -> rgwp C R G p Q v -> rgwp C R G p Q v'.
Proof.
  intros HR Hv. destruct p as [a|X e k|m]; simpl; [| |done].
  - intros H v'' Hv'. apply H. by transitivity v'.
  - intros H v1 x v2 Hv1. apply H. by transitivity v'.
Qed.

Lemma rgwp_mono {A} C R G (p : prog E A) (Q Q' : A -> V -> Prop) v :
  (forall a v', Q a v' -> Q' a v') -> rgwp C R G p Q v -> rgwp C R G p Q' v.
Proof.
  intros HQ. revert v. induction p as [a|X e k IH|m]; intros v; simpl; [auto| |done].
  intros H v1 x v2 H1 H2. destruct (H v1 x v2 H1 H2) as [? Hk]. split; [done|].
  by apply IH.
Qed.

Lemma rgwp_bind {A B} C R G (p : prog E A) (f : A -> prog E B) Q v :
  Reflexive R ->
  rgwp C R G p (fun a v' => rgwp C R G (f a) Q v') v ->
  rgwp C R G (bind p f) Q v.
Proof.
  intros HR. revert v. induction p as [a|X e k IH|m]; intros v; simpl; [|..].
  - intros H. by apply H.
  - intros H v1 x v2 H1 H2. destruct (H v1 x v2 H1 H2) as [? Hk]. split; [done|].
    by apply IH.
  - done.
Qed.
End prog.

Section pool.
Context {E : Type -> Type} {S V A : Type}.
Context (h : handler E S) (view : S -> V) (C : contract E V).
Context (R G : nat -> V -> V -> Prop) (Q : nat -> A -> V -> Prop).
Hypothesis Hh : respects h view C.
Hypothesis R_pre : forall i, PreOrder (R i).
Hypothesis compat : forall i j v v', i <> j -> G j v v' -> R i v v'.

Definition pool_inv (c : list (prog E A) * S) : Prop :=
  forall i p, fst c !! i = Some p -> rgwp C (R i) (G i) p (Q i) (view (snd c)).

Lemma pool_step c c' : pool_inv c -> pstep h c c' -> pool_inv c'.
Proof.
  intros Hinv Hstep. inversion Hstep as [ps i X e k s Hi]; subst; clear Hstep.
  pose proof (Hinv i _ Hi) as Hp. simpl in *.
  pose proof (R_pre i) as HRi.
  destruct (Hp (view s) (fst (h X e s)) (view (snd (h X e s)))) as [HG Hk];
    [reflexivity|apply Hh|].
  intros j p Hj. simpl in *. destruct (decide (i = j)) as [<-|Hne].
  - apply lookup_lt_Some in Hi. rewrite list_lookup_insert_eq in Hj by done.
    by injection Hj as <-.
  - rewrite list_lookup_insert_ne in Hj by done.
    pose proof (R_pre j) as HRj.
    eapply rgwp_rely; [typeclasses eauto|by apply (compat j i), HG|].
    by apply (Hinv j p).
Qed.

(** In every reachable pool, a call that has returned satisfies its
    postcondition. *)
Lemma pool_sound c c' i a :
  pool_inv c -> rtc (pstep h) c c' -> fst c' !! i = Some (Ret a) ->
  Q i a (view (snd c')).
Proof.
  intros Hinv Hsteps Hi.
  assert (pool_inv c') as Hinv'.
  { induction Hsteps as [|c1 c2 c3 H12 _ IH]; [done|].
    apply IH; [|done]. by eapply pool_step. }
  pose proof (R_pre i). apply (Hinv' i _ Hi). reflexivity.
Qed.
End pool.

(** Proofs follow the binds through lemmas, not by unfolding them. *)
Arguments bind : simpl never.

(** ** Rules that follow the binds *)

Section wp.
Context {E : Type -> Type} {V : Type} (C : contract E V).

Lemma wp_call {X B} (e : E X) (f : X -> prog E B) Q v :
  (forall x v', C X e v x v' -> wp C (f x) Q v') -> wp C (bind (call e) f) Q v.
Proof. done. Qed.

Lemma wp_assoc {A X B} (p : prog E A) (f : A -> prog E X) (g : X -> prog E B) Q v :
  wp C (bind p (fun a => bind (f a) g)) Q v -> wp C (bind (bind p f) g) Q v.
Proof.
  revert v. induction p as [a|X' e k IH|m]; intros v; [done| |done].
  intros H x v' Hc. by apply IH, H.
Qed.

Lemma wp_ret {A} (a : A) (Q : outcome A -> V -> Prop) v : Q (Done a) v -> wp C (Ret a) Q v.
Proof. done. Qed.

Lemma wp_ret_bind {A B} (a : A) (f : A -> prog E B) Q v :
  wp C (f a) Q v -> wp C (bind (Ret a) f) Q v.
Proof. done. Qed.

Lemma wp_and {A} (p : prog E A) (Q1 Q2 : outcome A -> V -> Prop) v :
  wp C p Q1 v -> wp C p Q2 v -> wp C p (fun o v' => Q1 o v' /\ Q2 o v') v.
Proof.
  revert v. induction p as [a|X e k IH|m]; intros v; simpl; [by split| |by split].
  intros H1 H2 x v' Hc. apply IH; [by apply H1|by apply H2].
Qed.
End wp.

(** ** Programs made of certain effects only *)

(** Every effect of [p] satisfies [ok]; it may panic if [pan] says so. *)
Fixpoint only {E A} (pan : bool) (ok : forall X, E X -> Prop) (p : prog E A) : Prop :=
  match p with
  | Ret _ => True
  | Vis e k => ok _ e /\ forall x, only pan ok (k x)
  | Panic _ => pan = true
  end.

Section only.
Context {E : Type -> Type} (pan : bool) (ok : forall X, E X -> Prop).

Lemma only_bind {A B} (p : prog E A) (f : A -> prog E B) :
  only pan ok p -> (forall a, only pan ok (f a)) -> only pan ok (bind p f).
Proof.
  intros Hp Hf. induction p as [a|X e k IH|m]; [apply Hf| |done].
  destruct Hp as [He Hk]. split; [done|]. intros x. by apply IH.
Qed.

Lemma only_ret {A} (a : A) : only pan ok (Ret a).
Proof. done. Qed.

Lemma only_mono {A} (ok' : forall X, E X -> Prop) (p : prog E A) :
  (forall X (e : E X), ok X e -> ok' X e) -> only pan ok p -> only pan ok' p.
Proof.
  intros H. induction p as [a|X e k IH|m]; [done| |done].
  intros [He Hk]. split; [by apply H|]. intros x. by apply IH.
Qed.

Lemma only_call {X} (e : E X) : ok X e -> only pan ok (call e).
Proof. by split. Qed.

Lemma only_for_each {A} (l : list A) (f : A -> prog E unit) :
  (forall a, only pan ok (f a)) -> only pan ok (for_each l f).
Proof. intros Hf. induction l as [|a l IH]; simpl; [done|]. apply only_bind; [apply Hf|done]. Qed.

Lemma only_wp {V A} (C : contract E V) (I : V -> V -> Prop) (p : prog E A) v :
  (forall v1 v2 v3, I v1 v2 -> I v2 v3 -> I v1 v3) -> (forall v, I v v) ->
  (forall X (e : E X) v x v', ok X e -> C X e v x v' -> I v v') ->
  only pan ok p -> wp C p (fun o v' => (o = Panicked -> pan = true) /\ I v v') v.
Proof.
  intros Htr Hrefl Hstep. revert v.
  induction p as [a|X e k IH|m]; intros v; simpl; [by split| |by split].
  intros [He Hk] x v' Hc. eapply wp_mono; [|apply IH, Hk].
  intros o v'' [Ho Hi]. split; [done|]. eapply Htr; [|exact Hi]. by eapply Hstep.
Qed.
End only.

(** A subprogram that only does [ok] effects, in front of a continuation. *)
Lemma wp_only_bind {E V A B} pan (ok : forall X, E X -> Prop) (C : contract E V) (I : V -> V -> Prop)
    (p : prog E A) (f : A -> prog E B) Q v :
  (forall v1 v2 v3, I v1 v2 -> I v2 v3 -> I v1 v3) -> (forall v, I v v) ->
  (forall X (e : E X) v x v', ok X e -> C X e v x v' -> I v v') ->
  only pan ok p -> (pan = true -> forall v', I v v' -> Q Panicked v') ->
  (forall a v', I v v' -> wp C (f a) Q v') -> wp C (bind p f) Q v.
Proof.
  intros Htr Hrefl Hstep Hp HP HQ. apply wp_bind.
  eapply wp_mono; [|by eapply only_wp].
  intros [a|] v' [Ho Hi]; [by apply HQ|by apply HP; [apply Ho|]].
Qed.

(** ** Pools step by step *)

Lemma rgwp_call {E V X B} (C : contract E V) R G (e : E X) (f : X -> prog E B) Q v :
  (forall v1 x v2, R v v1 -> C X e v1 x v2 -> G v1 v2 /\ rgwp C R G (f x) Q v2) ->
  rgwp C R G (bind (call e) f) Q v.
Proof. done. Qed.

Lemma awp_call {E V X B} (C : contract E V) I (e : E X) (f : X -> prog E B) Q v :
  I v -> (forall x v', C X e v x v' -> awp C I (f x) Q v') -> awp C I (bind (call e) f) Q v.
Proof. by split. Qed.

(** A step of a pool is one its call guarantees. *)
Lemma pool_guarantee {E S V A} (h : handler E S) (view : S -> V) (C : contract E V)
    (R G : nat -> V -> V -> Prop) (Q : nat -> A -> V -> Prop) c c' :
  respects h view C -> (forall i v, R i v v) -> pool_inv view C R G Q c -> pstep h c c' ->
  exists i, G i (view (snd c)) (view (snd c')).
Proof.
  intros Hh HR Hinv Hstep. inversion Hstep as [ps i X e k s Hi]; subst.
  exists i. apply (Hinv i _ Hi (view s) (fst (h X e s)) (view (snd (h X e s)))); [apply HR|apply Hh].
Qed.

(** What every step of every call keeps, every reachable pool keeps. *)
Lemma pool_kept {E S V A} (h : handler E S) (view : S -> V) (C : contract E V) (P : V -> V -> Prop) `{!PreOrder P}
    (c c' : list (prog E A) * S) :
  respects h view C -> (forall i p, fst c !! i = Some p -> rgwp C P P p (fun _ _ => True) (view (snd c))) ->
  rtc (pstep h) c c' -> P (view (snd c)) (view (snd c')).
Proof.
  intros Hh Hinv Hsteps. change (pool_inv view C (fun _ => P) (fun _ => P) (fun _ _ _ => True) c) in Hinv.
  induction Hsteps as [|c1 c2 c3 H12 _ IH]; [done|].
  destruct (pool_guarantee h view _ _ _ _ c1 c2 Hh (fun _ v => reflexivity v) Hinv H12) as [_ HG].
  etransitivity; [exact HG|]. apply IH. eapply pool_step; [exact Hh|..|exact Hinv|exact H12]; [done|].
  by intros i j w w' _ ?.
Qed.

(** ** Programs over a larger set of effects *)

Fixpoint trans {E F : Type -> Type} {A} (f : forall X, E X -> F X) (p : prog E A) : prog F A :=
  match p with
  | Ret a => Ret a
  | Vis e k => Vis (f _ e) (fun x => trans f (k x))
  | Panic m => Panic m
  end.

Section trans.
Context {E F : Type -> Type} (f : forall X, E X -> F X).

Lemma wp_trans {V A} (C : contract F V) (p : prog E A) Q v :
  wp (fun X e => C X (f X e)) p Q v -> wp C (trans f p) Q v.
Proof.
  revert v. induction p as [a|X e k IH|m]; intros v; [done| |done].
  intros H x v' Hc. apply IH, H, Hc.
Qed.

Lemma awp_trans {V A} (C : contract F V) I (p : prog E A) Q v :
  awp (fun X e => C X (f X e)) I p Q v -> awp C I (trans f p) Q v.
Proof.
  revert v. induction p as [a|X e k IH|m]; intros v; [done| |done].
  intros [Hi H]. split; [done|]. intros x v' Hc. apply IH, H, Hc.
Qed.

Lemma rgwp_trans {V A} (C : contract F V) R G (p : prog E A) Q v :
  rgwp (fun X e => C X (f X e)) R G p Q v -> rgwp C R G (trans f p) Q v.
Proof.
  revert v. induction p as [a|X e k IH|m]; intros v; [done| |done].
  intros H v1 x v2 H1 Hc. destruct (H v1 x v2 H1 Hc) as [Hg Hk]. split; [done|]. by apply IH.
Qed.

End trans.
