(* ===== verification/Kube.v ===== *)
(** * The API objects and the contract with the Kubernetes API server

    The records are the fields of the Kubernetes and [k8e.sh/v1alpha1] objects
    that the sandbox code reads or writes ([pkg/sandboxmatrix/api/v1alpha1/types.go]
    and the corev1 types it uses).  The API server itself is not part of the
    repository: it is a handler the programs are run against, and
    [kube_contract] states the documented behaviour they rely on (optimistic
    concurrency by resourceVersion, status subresources, label selectors,
    refused creates of existing names).  [mem_handler] is one concrete server
    that keeps the contract; examples and witnesses run on it. *)
From Stdlib Require Import QArith_base.
From S2P Require Import Prelude Prog.

(** ** Object metadata *)

Record Meta := mkMeta {
  m_ns : string;
  m_name : string;
  m_generateName : string;
  m_labels : gmap string string;
  m_annots : gmap string string;
  m_rv : N;              (* resourceVersion; 0 is the unset value *)
  m_created : Z;         (* creationTimestamp *)
}.

(** ** corev1 *)

(** What the code observes of a [resource.Quantity]: [Value()] and
    [MilliValue()]. *)
Record Quantity := mkQuantity { q_value : Z; q_milli : Z }.
Definition q_is_zero (q : Quantity) : bool := (q_milli q =? 0)%Z.

Record Probe := mkProbe {
  pr_port : Z; pr_period : Z; pr_timeout : Z; pr_failureThreshold : Z;
}.

Inductive VolumeSource :=
  | PersistentVolumeClaim (claimName : string)
  | EmptyDir.

Record Container := mkContainer {
  c_name : string;
  c_image : string;
  c_ports : list Z;
  c_limits : gmap string Quantity;
  c_readOnlyRoot : bool;
  c_mounts : list (string * string);
  c_startupProbe : option Probe;
  c_readinessProbe : option Probe;
}.

Record PodSpec := mkPodSpec {
  ps_containers : list Container;
  ps_volumes : list (string * VolumeSource);
  ps_dnsPolicy : string;
  ps_restartPolicy : string;
  ps_runtimeClassName : option string;
}.

Inductive PodPhase := PodPending | PodRunning | PodSucceeded | PodFailed.
#[export] Instance PodPhase_eq_dec : EqDecision PodPhase.
Proof. solve_decision. Defined.

Record PodStatus := mkPodStatus {
  pst_phase : PodPhase;
  pst_podIP : string;
  pst_conditions : list (string * string);   (* type, status *)
}.

Record Pod := mkPod { p_meta : Meta; p_spec : PodSpec; p_status : PodStatus }.

Record Pvc := mkPvc { pvc_meta : Meta; pvc_storageClass : string; pvc_request : string }.

Record Node := mkNode { n_meta : Meta; n_memory : Quantity; n_cpu : Quantity }.

Record Secret := mkSecret { sec_meta : Meta; sec_data : gmap string string }.

(** ** k8e.sh/v1alpha1 *)

Record SecretRef := mkSecretRef { sr_secretName : string; sr_key : string; sr_envVar : string }.
#[export] Instance SecretRef_eq_dec : EqDecision SecretRef.
Proof. solve_decision. Defined.

Definition SandboxPhaseActive : string := "Active".
Definition SandboxPhasePaused : string := "Paused".
Definition SandboxPhaseTerminating : string := "Terminating".

Record SandboxSessionSpec := mkSessionSpec {
  TenantID : string;
  AllowedHosts : list string;
  RuntimeClass : string;
  ParentSessionID : string;
  Depth : Z;
  Env : gmap string string;
  SecretRefs : list SecretRef;
}.

Record SandboxSessionStatus := mkSessionStatus {
  Phase : string;
  PodName : string;
  PodIP : string;
  WorkspacePVC : string;
  CreatedAt : option Z;
  ExpiresAt : option Z;
}.
Definition empty_status : SandboxSessionStatus := mkSessionStatus "" "" "" "" None None.

Record SandboxSession := mkSession {
  s_meta : Meta; s_spec : SandboxSessionSpec; s_status : SandboxSessionStatus;
}.

Record RateLimitSpec := mkRateLimitSpec {
  rl_writeBurst : Z; rl_writeRate : Q; rl_readBurst : Z; rl_readRate : Q;
}.

Record SandboxMatrixStatus := mkMatrixStatus {
  mx_readyWarmCount : Z; mx_activeSessions : Z; mx_maxPods : Z; mx_totalPods : Z;
  mx_claimedFromWarm : Z; mx_coldStarts : Z; mx_avgClaimLatencyMs : Z;
}.

(** The unstructured fields the code reads; an absent one is [None] or "". *)
Record SandboxMatrix := mkMatrix {
  mx_meta : Meta;
  mx_sessionTTL : option Z;
  mx_defaultAllowedHosts : list string;
  mx_cpu : string;
  mx_memory : string;
  mx_rateLimits : option RateLimitSpec;
  mx_status : option SandboxMatrixStatus;
}.

Record SandboxWarmPool := mkWarmPool {
  wp_meta : Meta;
  wp_size : option Z;
  wp_runtimeClass : option string;
  wp_minSize : option Z;
  wp_maxSize : option Z;
  wp_idleTTLSeconds : option Z;
}.

(** ** CiliumNetworkPolicy, as far as the code builds it *)

Inductive CnpPeer :=
  | Entities (l : list string)                       (* from/toEntities *)
  | Endpoints (matchLabels : list (string * string)) (* fromEndpoints *)
  | FQDNs (matchNames : list string).                (* toFQDNs *)
#[export] Instance CnpPeer_eq_dec : EqDecision CnpPeer.
Proof. solve_decision. Defined.

Record CnpRule := mkCnpRule { r_peer : CnpPeer; r_ports : list (string * string) }.
#[export] Instance CnpRule_eq_dec : EqDecision CnpRule.
Proof. solve_decision. Defined.

Record Cnp := mkCnp {
  cnp_meta : Meta;
  cnp_endpointSelector : list (string * string);
  cnp_ingress : list CnpRule;
  cnp_egress : list CnpRule;
}.

(** ** Kinds *)

Inductive kind := KPod | KPvc | KSession | KCnp | KMatrix | KWarmPool | KNode | KSecret.
#[export] Instance kind_eq_dec : EqDecision kind.
Proof. solve_decision. Defined.

Definition obj (k : kind) : Type :=
  match k with
  | KPod => Pod | KPvc => Pvc | KSession => SandboxSession | KCnp => Cnp
  | KMatrix => SandboxMatrix | KWarmPool => SandboxWarmPool
  | KNode => Node | KSecret => Secret
  end.

Definition meta_of {k : kind} : obj k -> Meta :=
  match k with
  | KPod => p_meta | KPvc => pvc_meta | KSession => s_meta | KCnp => cnp_meta
  | KMatrix => mx_meta | KWarmPool => wp_meta | KNode => n_meta | KSecret => sec_meta
  end.

Definition with_meta {k : kind} (m : Meta) : obj k -> obj k :=
  match k return obj k -> obj k with
  | KPod => fun o => mkPod m (p_spec o) (p_status o)
  | KPvc => fun o => mkPvc m (pvc_storageClass o) (pvc_request o)
  | KSession => fun o => mkSession m (s_spec o) (s_status o)
  | KCnp => fun o => mkCnp m (cnp_endpointSelector o) (cnp_ingress o) (cnp_egress o)
  | KMatrix => fun o => mkMatrix m (mx_sessionTTL o) (mx_defaultAllowedHosts o)
                          (mx_cpu o) (mx_memory o) (mx_rateLimits o) (mx_status o)
  | KWarmPool => fun o => mkWarmPool m (wp_size o) (wp_runtimeClass o)
                            (wp_minSize o) (wp_maxSize o) (wp_idleTTLSeconds o)
  | KNode => fun o => mkNode m (n_memory o) (n_cpu o)
  | KSecret => fun o => mkSecret m (sec_data o)
  end.

(** Kinds with a status subresource: a create or a plain update leaves the
    stored status alone, a status update changes nothing else. *)
Definition fresh_status {k : kind} : obj k -> obj k :=
  match k return obj k -> obj k with
  | KPod => fun o => mkPod (p_meta o) (p_spec o) (mkPodStatus PodPending "" [])
  | KSession => fun o => mkSession (s_meta o) (s_spec o) empty_status
  | KMatrix => fun o => mkMatrix (mx_meta o) (mx_sessionTTL o) (mx_defaultAllowedHosts o)
                          (mx_cpu o) (mx_memory o) (mx_rateLimits o) None
  | _ => fun o => o
  end.

(** The first object with the status of the second. *)
Definition status_from {k : kind} : obj k -> obj k -> obj k :=
  match k return obj k -> obj k -> obj k with
  | KPod => fun o st => mkPod (p_meta o) (p_spec o) (p_status st)
  | KSession => fun o st => mkSession (s_meta o) (s_spec o) (s_status st)
  | KMatrix => fun o st => mkMatrix (mx_meta o) (mx_sessionTTL o) (mx_defaultAllowedHosts o)
                             (mx_cpu o) (mx_memory o) (mx_rateLimits o) (mx_status st)
  | _ => fun o _ => o
  end.

(** Whether an update may leave the resourceVersion unset: built-in objects
    may, custom resources must name the version they replace. *)
Definition unconditional (k : kind) : bool :=
  match k with KPod | KPvc | KNode | KSecret => true | _ => false end.

Definition key : Type := string * string.
Definition key_of {k} (o : obj k) : key := (m_ns (meta_of o), m_name (meta_of o)).
Definition rv_of {k} (o : obj k) : N := m_rv (meta_of o).
Definition labels_of {k} (o : obj k) : gmap string string := m_labels (meta_of o).

Definition stamp {k} (name : string) (rv : N) (created : Z) (o : obj k) : obj k :=
  let m := meta_of o in
  with_meta (mkMeta (m_ns m) name (m_generateName m) (m_labels m) (m_annots m) rv created) o.

(** ** The cluster *)

Record Cluster := mkCluster {
  cl_clock : Z;
  cl_rv : N;                                   (* last revision handed out *)
  cl_pods : gmap key Pod;
  cl_pvcs : gmap key Pvc;
  cl_sessions : gmap key SandboxSession;
  cl_cnps : gmap key Cnp;
  cl_matrices : gmap key SandboxMatrix;
  cl_warmpools : gmap key SandboxWarmPool;
  cl_nodes : gmap key Node;
  cl_secrets : gmap key Secret;
}.

Definition store (k : kind) : Cluster -> gmap key (obj k) :=
  match k return Cluster -> gmap key (obj k) with
  | KPod => cl_pods | KPvc => cl_pvcs | KSession => cl_sessions | KCnp => cl_cnps
  | KMatrix => cl_matrices | KWarmPool => cl_warmpools
  | KNode => cl_nodes | KSecret => cl_secrets
  end.

Definition set_store (k : kind) : gmap key (obj k) -> Cluster -> Cluster :=
  match k return gmap key (obj k) -> Cluster -> Cluster with
  | KPod => fun m c => mkCluster (cl_clock c) (cl_rv c) m (cl_pvcs c) (cl_sessions c)
      (cl_cnps c) (cl_matrices c) (cl_warmpools c) (cl_nodes c) (cl_secrets c)
  | KPvc => fun m c => mkCluster (cl_clock c) (cl_rv c) (cl_pods c) m (cl_sessions c)
      (cl_cnps c) (cl_matrices c) (cl_warmpools c) (cl_nodes c) (cl_secrets c)
  | KSession => fun m c => mkCluster (cl_clock c) (cl_rv c) (cl_pods c) (cl_pvcs c) m
      (cl_cnps c) (cl_matrices c) (cl_warmpools c) (cl_nodes c) (cl_secrets c)
  | KCnp => fun m c => mkCluster (cl_clock c) (cl_rv c) (cl_pods c) (cl_pvcs c) (cl_sessions c)
      m (cl_matrices c) (cl_warmpools c) (cl_nodes c) (cl_secrets c)
  | KMatrix => fun m c => mkCluster (cl_clock c) (cl_rv c) (cl_pods c) (cl_pvcs c) (cl_sessions c)
      (cl_cnps c) m (cl_warmpools c) (cl_nodes c) (cl_secrets c)
  | KWarmPool => fun m c => mkCluster (cl_clock c) (cl_rv c) (cl_pods c) (cl_pvcs c) (cl_sessions c)
      (cl_cnps c) (cl_matrices c) m (cl_nodes c) (cl_secrets c)
  | KNode => fun m c => mkCluster (cl_clock c) (cl_rv c) (cl_pods c) (cl_pvcs c) (cl_sessions c)
      (cl_cnps c) (cl_matrices c) (cl_warmpools c) m (cl_secrets c)
  | KSecret => fun m c => mkCluster (cl_clock c) (cl_rv c) (cl_pods c) (cl_pvcs c) (cl_sessions c)
      (cl_cnps c) (cl_matrices c) (cl_warmpools c) (cl_nodes c) m
  end.

Definition set_clock (t : Z) (c : Cluster) : Cluster :=
  mkCluster t (cl_rv c) (cl_pods c) (cl_pvcs c) (cl_sessions c)
      (cl_cnps c) (cl_matrices c) (cl_warmpools c) (cl_nodes c) (cl_secrets c).

Definition set_rv (rv : N) (c : Cluster) : Cluster :=
  mkCluster (cl_clock c) rv (cl_pods c) (cl_pvcs c) (cl_sessions c)
      (cl_cnps c) (cl_matrices c) (cl_warmpools c) (cl_nodes c) (cl_secrets c).

(** Store [o] (already stamped with its new revision). *)
Definition put {k} (o : obj k) (c : Cluster) : Cluster :=
  set_store k (<[key_of o := o]> (store k c)) (set_rv (rv_of o) c).

Definition remove (k : kind) (i : key) (c : Cluster) : Cluster :=
  set_store k (delete i (store k c)) c.

Definition empty_cluster : Cluster := mkCluster 0 0 ∅ ∅ ∅ ∅ ∅ ∅ ∅ ∅.

(** Label selectors: none, [label], [label=value]. *)
Inductive selector :=
  | SelAll
  | SelHas (label : string)
  | SelEq (label value : string).

Definition sel_match (sel : selector) (labels : gmap string string) : bool :=
  match sel with
  | SelAll => true
  | SelHas l => bool_decide (is_Some (labels !! l))
  | SelEq l v => bool_decide (labels !! l = Some v)
  end.

Definition selected {k} (ns : string) (sel : selector) (o : obj k) : bool :=
  bool_decide (m_ns (meta_of o) = ns) && sel_match sel (labels_of o).

Definition list_objs (k : kind) (ns : string) (sel : selector) (c : Cluster) : list (obj k) :=
  filter (fun o => selected ns sel o = true) (map snd (map_to_list (store k c))).

(** ** Calls to sandboxd (the in-pod daemon) *)

Record ExecBody := mkExecBody {
  xb_command : string; xb_timeout : Z; xb_workdir : string; xb_sessionID : string;
  xb_runID : option string;                 (* omitted when empty *)
  xb_env : option (gmap string string);     (* omitted when empty *)
}.

Inductive sbxReq :=
  | SReady                            (* POST /ready *)
  | SReset                            (* POST /workspace/reset *)
  | SExec (b : ExecBody)              (* POST /exec *)
  | SExecStream (b : ExecBody)        (* POST /exec/stream *)
  | SBackground (b : ExecBody)        (* POST /exec/background *)
  | SPoll (runID : string)            (* GET /exec/background/<id> *)
  | SWrite (file content mode : string)        (* POST /files/write *)
  | SRead (target : string)                    (* GET target: /files/read?path=... *)
  | SList (since : Z)                          (* GET /files/list?since=... *)
  | STranscript (session : string) (offset limit : Z)
  | SEvents (limit : Z)                        (* GET /events?limit=... *)
  | SProcesses                                 (* GET /processes *)
  | SPtyCreate (argv : list string) (workdir : string) (env : gmap string string) (rows cols : Z)
  | SPtyInput (id : Z) (text : string)
  | SPtyResize (id rows cols : Z)
  | SPtyForeground (id : Z)
  | SPtySignal (id : Z) (signal : string)
  | SPtyDestroy (id grace : Z)
  | SPtyStream (id : Z)                        (* the lines of the event stream *)
  | SStat (path : string)                      (* POST /files/stat *)
  | SMkdir (path : string)                     (* POST /files/mkdir *)
  | SMove (source destination : string)        (* POST /files/move *)
  | SRemove (path : string)                    (* POST /files/remove *)
  | SStdin (pid : Z) (data : string)           (* POST /exec/stdin *)
  | SStdinClose (pid : Z)                      (* POST /exec/stdin/close *)
  | SSignal (pid : Z) (signal : string)        (* POST /exec/signal *)
  | SProcTable                                 (* GET /exec/processes *)
  | SAttach (pid : Z)                          (* GET /exec/attach?pid=... *)
  | SWatchCreate (path : string)               (* POST /watch/create *)
  | SWatchEvents (id : Z)                      (* GET /watch/events?watcher_id=... *)
  | SWatchRemove (id : Z).                     (* POST /watch/remove *)

Record ExecResult := mkExecResult {
  xr_stdout : string; xr_stderr : string; xr_exitCode : Z; xr_durationMs : Z;
  xr_truncated : bool; xr_timedOut : bool;
}.

Record FileInfo := mkFileInfo { fi_path : string; fi_modified : Z; fi_type : string; fi_size : Z }.

Record Transcript := mkTranscript {
  tr_output : string; tr_offset : Z; tr_nextOffset : Z; tr_truncatedBefore : bool; tr_eof : bool;
}.

(** The answer of [/files/stat]. *)
Record statEntry := mkStat {
  st_Type : string; st_Size : Z; st_Mode : string; st_UID : Z; st_GID : Z; st_Mtime : Z;
  st_Name : string; st_SymlinkTarget : string;
}.

(** One entry of [/exec/processes]: pid, alive, config. *)
Record sandboxProcess := mkSandboxProcess { sp_PID : Z; sp_Alive : bool; sp_Config : string }.

(** The JSON body the code decodes from each answer; for the native calls of
    the E2B server on the left the error text of a refusal. *)
Definition sbxBody (r : sbxReq) : Type :=
  match r with
  | SReady => string                  (* status *)
  | SReset => unit
  | SExec _ => ExecResult
  | SExecStream _ => list string * bool  (* the pieces read; whether reading broke off *)
  | SBackground _ => string           (* status *)
  | SPoll _ => string                 (* the whole answer *)
  | SWrite _ _ _ | SPtyInput _ _ | SPtyResize _ _ _ | SPtyDestroy _ _ => unit
  | SRead _ => string
  | SList _ => list FileInfo
  | STranscript _ _ _ => Transcript
  | SEvents _ => list string
  | SProcesses => list (Z * string * string)   (* pid, comm, state *)
  | SPtyCreate _ _ _ _ _ => Z * Z              (* terminal_id, pid *)
  | SPtyForeground _ => Z * bool
  | SPtySignal _ _ => Z
  | SPtyStream _ => list string * bool         (* lines; whether reading broke off *)
  | SStat _ => string + statEntry
  | SMkdir _ | SMove _ _ | SRemove _ | SStdin _ _ | SStdinClose _ | SSignal _ _ | SWatchRemove _ => string + unit
  | SProcTable => string + list sandboxProcess
  | SAttach _ => string + string               (* the raw event stream *)
  | SWatchCreate _ => string + Z
  | SWatchEvents _ => string + list (string * Z)
  end.

(** ** Effects *)

(** [M] is the memory of one server process. *)
Inductive gwE (M : Type) : Type -> Type :=
  | Now : gwE M Z                                     (* time.Now().UnixNano() *)
  | Get (k : kind) (ns name : string) : gwE M (res (obj k))
  | List (k : kind) (ns : string) (sel : selector) : gwE M (res (list (obj k)))
  | Create (k : kind) (o : obj k) : gwE M (res (obj k))
  | Update (k : kind) (o : obj k) : gwE M (res (obj k))
  | UpdateStatus (k : kind) (o : obj k) : gwE M (res (obj k))
  | Delete (k : kind) (ns name : string) : gwE M (res unit)
  | Sandboxd (podIP : string) (r : sbxReq) : gwE M (res (Z * option (sbxBody r)))
  | Dial (podIP : string) : gwE M bool                (* TCP dial of :2024 *)
  | Sleep (d : Z) : gwE M bool                        (* false: the caller gave up *)
  | Mem {X : Type} (f : M -> X * M) : gwE M X.        (* one critical section *)
Arguments Now {M}.
Arguments Get {M} k ns name.
Arguments List {M} k ns sel.
Arguments Create {M} k o.
Arguments Update {M} k o.
Arguments UpdateStatus {M} k o.
Arguments Delete {M} k ns name.
Arguments Sandboxd {M} podIP r.
Arguments Dial {M} podIP.
Arguments Sleep {M} d.
Arguments Mem {M X} f.

(** ** The contract *)

(** An API call is refused for a reason [P] allows, or, when [faults] may
    occur, for any other reason (network, authorisation, quota). *)
Definition refusal (faults : bool) (e : error) (P : reason -> Prop) : Prop :=
  match e with
  | Api ROther => faults = true
  | Api r => P r
  | _ => False
  end.

Definition create_ok {k} (o o' : obj k) (c c' : Cluster) : Prop :=
  exists name rv,
    (m_name (meta_of o) = name /\ name <> "" \/
     m_name (meta_of o) = "" /\ exists suffix, name = m_generateName (meta_of o) +:+ suffix) /\
    store k c !! (m_ns (meta_of o), name) = None /\
    (cl_rv c < rv)%N /\
    o' = stamp name rv (cl_clock c) (fresh_status o) /\
    c' = put o' c.

Definition update_ok {k} (merge : obj k -> obj k -> obj k) (o o' : obj k) (c c' : Cluster) : Prop :=
  exists cur rv,
    store k c !! key_of o = Some cur /\
    (rv_of o = rv_of cur \/ rv_of o = 0%N /\ unconditional k = true) /\
    (cl_rv c < rv)%N /\
    o' = stamp (m_name (meta_of o)) rv (m_created (meta_of cur)) (merge o cur) /\
    c' = put o' c.

Definition update_refused (k : kind) (o : obj k) (c : Cluster) (r : reason) : Prop :=
  r = RNotFound /\ store k c !! key_of o = None \/
  r = RInvalid /\ rv_of o = 0%N /\ unconditional k = false \/
  r = RConflict /\ rv_of o <> 0%N /\
    exists cur, store k c !! key_of o = Some cur /\ rv_of o <> rv_of cur.

(** What the code relies on of the world outside it.  [faults = false] is a
    world where every request the server can serve is served. *)
Definition kube_contract (M : Type) (faults : bool) : contract (gwE M) (M * Cluster) :=
  fun X e v =>
    match e in gwE _ X return X -> M * Cluster -> Prop with
    | Now => fun t v' =>
        (cl_clock (snd v) <= t)%Z /\ v' = (fst v, set_clock t (snd v))
    | Get k ns name => fun r v' => v' = v /\
        match r with
        | Ok o => store k (snd v) !! (ns, name) = Some o
        | Err e => refusal faults e (fun r => r = RNotFound /\ store k (snd v) !! (ns, name) = None)
        end
    | List k ns sel => fun r v' => v' = v /\
        match r with
        | Ok l => l ≡ₚ list_objs k ns sel (snd v)
        | Err e => refusal faults e (fun _ => False)
        end
    | Create k o => fun r v' => fst v' = fst v /\
        match r with
        | Ok o' => create_ok o o' (snd v) (snd v')
        | Err e => v' = v /\ refusal faults e (fun r =>
            r = RAlreadyExists /\ m_name (meta_of o) <> "" /\ is_Some (store k (snd v) !! key_of o))
        end
    | Update k o => fun r v' => fst v' = fst v /\
        match r with
        | Ok o' => update_ok status_from o o' (snd v) (snd v')
        | Err e => v' = v /\ refusal faults e (update_refused k o (snd v))
        end
    | UpdateStatus k o => fun r v' => fst v' = fst v /\
        match r with
        | Ok o' => update_ok (fun o cur => status_from cur o) o o' (snd v) (snd v')
        | Err e => v' = v /\ refusal faults e (update_refused k o (snd v))
        end
    | Delete k ns name => fun r v' => fst v' = fst v /\
        match r with
        | Ok _ => is_Some (store k (snd v) !! (ns, name)) /\ snd v' = remove k (ns, name) (snd v)
        | Err e => v' = v /\ refusal faults e (fun r => r = RNotFound /\ store k (snd v) !! (ns, name) = None)
        end
    | Sandboxd _ _ => fun _ v' => v' = v
    | Dial _ => fun _ v' => v' = v
    | Sleep d => fun x v' => exists t, (cl_clock (snd v) <= t)%Z /\
        (x = true -> (cl_clock (snd v) + d <= t)%Z) /\ v' = (fst v, set_clock t (snd v))
    | Mem f => fun x v' => x = fst (f (fst v)) /\ v' = (snd (f (fst v)), snd v)
    end.

(** ** A server that keeps the contract *)

(** A suffix that makes a generated name new. *)
Definition gen_suffix {A} (ns gen : string) (m : gmap key A) : string :=
  fresh (list_to_set (omap (fun i : key =>
    if decide (i.1 = ns) then strip_prefix gen i.2 else None) (map fst (map_to_list m))) : gset string).

Definition mem_create {k} (o : obj k) (c : Cluster) : res (obj k) * Cluster :=
  let m := meta_of o in
  let fresh_o name := stamp name (N.succ (cl_rv c)) (cl_clock c) (fresh_status o) in
  if decide (m_name m = "") then
    let o' := fresh_o (m_generateName m +:+ gen_suffix (m_ns m) (m_generateName m) (store k c)) in
    (Ok o', put o' c)
  else match store k c !! key_of o with
       | Some _ => (Err (Api RAlreadyExists), c)
       | None => let o' := fresh_o (m_name m) in (Ok o', put o' c)
       end.

Definition mem_update {k} (merge : obj k -> obj k -> obj k) (o : obj k) (c : Cluster)
    : res (obj k) * Cluster :=
  match store k c !! key_of o with
  | None => (Err (Api RNotFound), c)
  | Some cur =>
      let o' := stamp (m_name (meta_of o)) (N.succ (cl_rv c)) (m_created (meta_of cur)) (merge o cur) in
      if decide (rv_of o = 0%N) then
        if unconditional k then (Ok o', put o' c) else (Err (Api RInvalid), c)
      else if decide (rv_of o = rv_of cur) then (Ok o', put o' c)
      else (Err (Api RConflict), c)
  end.

Definition mem_handler (M : Type) : handler (gwE M) (M * Cluster) :=
  fun X e =>
    match e in gwE _ X return M * Cluster -> X * (M * Cluster) with
    | Now => fun v => (cl_clock (snd v), v)
    | Get k ns name => fun v =>
        (match store k (snd v) !! (ns, name) with
         | Some o => Ok o
         | None => Err (Api RNotFound)
         end, v)
    | List k ns sel => fun v => (Ok (list_objs k ns sel (snd v)), v)
    | Create k o => fun v =>
        let '(r, c) := mem_create o (snd v) in (r, (fst v, c))
    | Update k o => fun v =>
        let '(r, c) := mem_update status_from o (snd v) in (r, (fst v, c))
    | UpdateStatus k o => fun v =>
        let '(r, c) := mem_update (fun o cur => status_from cur o) o (snd v) in (r, (fst v, c))
    | Delete k ns name => fun v =>
        match store k (snd v) !! (ns, name) with
        | Some _ => (Ok tt, (fst v, remove k (ns, name) (snd v)))
        | None => (Err (Api RNotFound), v)
        end
    | Sandboxd _ _ => fun v => (Err (Plain "no sandboxd"), v)
    | Dial _ => fun v => (false, v)
    | Sleep d => fun v => (true, (fst v, set_clock (cl_clock (snd v) + Z.max 0 d) (snd v)))
    | Mem f => fun v => let '(x, m) := f (fst v) in (x, (m, snd v))
    end.

(** The same server in a world where sandboxd answers [ready] and resets
    workspaces. *)
Definition live_handler (M : Type) : handler (gwE M) (M * Cluster) :=
  fun X e =>
    match e in gwE _ X return M * Cluster -> X * (M * Cluster) with
    | Sandboxd ip r => fun v =>
        (match r return res (Z * option (sbxBody r)) with
         | SReady => Ok (200%Z, Some "ready")
         | SReset => Ok (200%Z, Some tt)
         | SExec _ => Ok (200%Z, Some (mkExecResult "" "" 0 1 false false))
         | SExecStream _ => Ok (200%Z, Some ([], false))
         | SBackground _ => Ok (200%Z, Some "started")
         | SPoll _ => Ok (200%Z, Some "completed")
         | SWrite _ _ _ | SPtyInput _ _ | SPtyResize _ _ _ | SPtyDestroy _ _ => Ok (200%Z, Some tt)
         | SRead _ => Ok (200%Z, Some "")
         | SList _ => Ok (200%Z, Some [])
         | STranscript _ _ _ => Ok (200%Z, Some (mkTranscript "" 0 0 false true))
         | SEvents _ => Ok (200%Z, Some [])
         | SProcesses => Ok (200%Z, Some [])
         | SPtyCreate _ _ _ _ _ => Ok (200%Z, Some (1%Z, 1%Z))
         | SPtyForeground _ => Ok (200%Z, Some (1%Z, false))
         | SPtySignal _ _ => Ok (200%Z, Some 1%Z)
         | SPtyStream _ => Ok (200%Z, Some ([], false))
         | SStat path => Ok (200%Z, Some (inr (mkStat "file" 0 "0644" 0 0 0 path "")))
         | SMkdir _ | SMove _ _ | SRemove _ | SStdin _ _ | SStdinClose _ | SSignal _ _ | SWatchRemove _ =>
             Ok (200%Z, Some (inr tt))
         | SProcTable => Ok (200%Z, Some (inr []))
         | SAttach _ => Ok (200%Z, Some (inr ""))
         | SWatchCreate _ => Ok (200%Z, Some (inr 1%Z))
         | SWatchEvents _ => Ok (200%Z, Some (inr []))
         end, v)
    | Dial _ => fun v => (true, v)
    | e => mem_handler M _ e
    end.

(** ** Lemmas about the store *)

Section store.
Implicit Types (k : kind) (c : Cluster).

Lemma store_set_store k m c : store k (set_store k m c) = m.
Proof. by destruct k. Qed.
Lemma store_set_store_ne k k' m c : k <> k' -> store k (set_store k' m c) = store k c.
Proof. by destruct k, k'. Qed.
Lemma store_set_rv k rv c : store k (set_rv rv c) = store k c.
Proof. by destruct k. Qed.
Lemma store_set_clock k t c : store k (set_clock t c) = store k c.
Proof. by destruct k. Qed.
Lemma cl_rv_set_store k m c : cl_rv (set_store k m c) = cl_rv c.
Proof. by destruct k. Qed.

Lemma store_put {k} (o : obj k) c : store k (put o c) = <[key_of o := o]> (store k c).
Proof. unfold put. by rewrite store_set_store. Qed.
Lemma store_put_ne {k} k' (o : obj k) c : k' <> k -> store k' (put o c) = store k' c.
Proof. intros. unfold put. by rewrite store_set_store_ne, store_set_rv. Qed.
Lemma cl_rv_put {k} (o : obj k) c : cl_rv (put o c) = rv_of o.
Proof. unfold put. by rewrite cl_rv_set_store. Qed.
Lemma store_remove k i c : store k (remove k i c) = delete i (store k c).
Proof. unfold remove. by rewrite store_set_store. Qed.
Lemma store_remove_ne k k' i c : k' <> k -> store k' (remove k i c) = store k' c.
Proof. intros. unfold remove. by rewrite store_set_store_ne. Qed.
Lemma cl_rv_remove k i c : cl_rv (remove k i c) = cl_rv c.
Proof. unfold remove. by rewrite cl_rv_set_store. Qed.

Lemma meta_with_meta {k} m (o : obj k) : meta_of (with_meta m o) = m.
Proof. by destruct k. Qed.
Lemma meta_fresh_status {k} (o : obj k) : meta_of (fresh_status o) = meta_of o.
Proof. by destruct k. Qed.
Lemma meta_status_from {k} (o st : obj k) : meta_of (status_from o st) = meta_of o.
Proof. by destruct k. Qed.
Lemma meta_stamp {k} name rv t (o : obj k) :
  meta_of (stamp name rv t o) =
    mkMeta (m_ns (meta_of o)) name (m_generateName (meta_of o))
      (m_labels (meta_of o)) (m_annots (meta_of o)) rv t.
Proof. unfold stamp. by rewrite meta_with_meta. Qed.
Lemma key_of_stamp {k} name rv t (o : obj k) :
  key_of (stamp name rv t o) = (m_ns (meta_of o), name).
Proof. unfold key_of. by rewrite meta_stamp. Qed.
Lemma rv_of_stamp {k} name rv t (o : obj k) : rv_of (stamp name rv t o) = rv.
Proof. unfold rv_of. by rewrite meta_stamp. Qed.
Lemma labels_of_stamp {k} name rv t (o : obj k) : labels_of (stamp name rv t o) = labels_of o.
Proof. unfold labels_of. by rewrite meta_stamp. Qed.

Lemma elem_of_list_objs k ns sel c o :
  o ∈ list_objs k ns sel c <->
    selected ns sel o = true /\ exists i, store k c !! i = Some o.
Proof.
  unfold list_objs. rewrite list_elem_of_filter.
  apply and_iff_compat_l. rewrite list_elem_of_fmap.
  split; [intros ([i o'] & -> & Hi%elem_of_map_to_list); by exists i|].
  intros [i Hi]. exists (i, o). split; [done|]. by apply elem_of_map_to_list.
Qed.

Lemma elem_of_listed k ns sel c l (o : obj k) :
  l ≡ₚ list_objs k ns sel c ->
  o ∈ l <-> selected ns sel o = true /\ exists i, store k c !! i = Some o.
Proof. intros ->. apply elem_of_list_objs. Qed.

Lemma gen_suffix_fresh {A} (ns gen : string) (m : gmap key A) :
  m !! (ns, gen +:+ gen_suffix ns gen m) = None.
Proof.
  apply eq_None_not_Some. intros [x Hx].
  pose proof (is_fresh (list_to_set (omap (fun i : key =>
    if decide (i.1 = ns) then strip_prefix gen i.2 else None)
    (map fst (map_to_list m))) : gset string)) as Hf.
  apply Hf. apply elem_of_list_to_set, list_elem_of_omap.
  exists (ns, gen +:+ gen_suffix ns gen m). split.
  - apply list_elem_of_fmap. exists ((ns, gen +:+ gen_suffix ns gen m), x).
    split; [done|]. by apply elem_of_map_to_list.
  - simpl. rewrite decide_True by done. apply strip_prefix_app.
Qed.

Lemma mem_create_contract (faults : bool) (M : Type) k (o : obj k) (v : M * Cluster) :
  kube_contract M faults _ (Create k o) v (fst (mem_create o (snd v)))
    (fst v, snd (mem_create o (snd v))).
Proof.
  destruct v as [m c]. simpl. split; [done|]. unfold mem_create.
  destruct (decide _) as [Hn|Hn]; simpl.
  - eexists _, _. split; [right; split; [done|by eexists]|].
    split; [apply gen_suffix_fresh|]. split; [|done]. lia.
  - destruct (store k c !! key_of o) as [cur|] eqn:E; simpl.
    + split; [done|]. by split.
    + exists (m_name (meta_of o)), (N.succ (cl_rv c)).
      split; [by left|]. split; [done|]. split; [|done]. lia.
Qed.

Lemma mem_update_contract (faults : bool) (M : Type) (k : kind) merge (o : obj k) (v : M * Cluster) :
  match fst (mem_update merge o (snd v)) with
  | Ok o' => update_ok merge o o' (snd v) (snd (mem_update merge o (snd v)))
  | Err e => (fst v, snd (mem_update merge o (snd v))) = v /\
             refusal faults e (update_refused k o (snd v))
  end.
Proof.
  destruct v as [m c]. unfold mem_update. simpl.
  destruct (store k c !! key_of o) as [cur|] eqn:E; [|by (split; [done|left])].
  destruct (decide (rv_of o = 0%N)) as [H0|H0].
  - destruct (unconditional k) eqn:U; simpl.
    + exists cur, (N.succ (cl_rv c)). split; [done|]. split; [by right|]. split; [lia|done].
    + split; [done|]. right; left. done.
  - destruct (decide (rv_of o = rv_of cur)); simpl.
    + exists cur, (N.succ (cl_rv c)). split; [done|]. split; [by left|]. split; [lia|done].
    + split; [done|]. right; right. naive_solver.
Qed.

Lemma mem_handler_respects faults M :
  respects (mem_handler M) id (kube_contract M faults).
Proof.
  intros X e [m c].
  destruct e as [|k ns name|k ns sel|k o|k o|k o|k ns name| | |d|Y f]; simpl.
  - split; [done|]. by destruct c.
  - split; [done|]. by destruct (store k c !! (ns, name)).
  - done.
  - pose proof (mem_create_contract faults M k o (m, c)) as H. simpl in H.
    by destruct (mem_create o c).
  - pose proof (mem_update_contract faults M k status_from o (m, c)) as H. simpl in H.
    by destruct (mem_update status_from o c).
  - pose proof (mem_update_contract faults M k (fun o cur => status_from cur o) o (m, c)) as H.
    simpl in H. by destruct (mem_update _ o c).
  - destruct (store k c !! (ns, name)) eqn:E; simpl; [|done]. by split.
  - done.
  - done.
  - eexists. split; [|split; [|done]]; lia.
  - by destruct (f m).
Qed.

Lemma live_handler_respects faults M :
  respects (live_handler M) id (kube_contract M faults).
Proof.
  intros X e v. destruct e; try apply (mem_handler_respects faults M); done.
Qed.
End store.

#[export] Hint Rewrite @store_put @store_remove @cl_rv_put cl_rv_remove @meta_stamp
  @key_of_stamp @rv_of_stamp @labels_of_stamp @meta_fresh_status @meta_status_from
  @store_set_clock : k8e.
#[export] Hint Resolve mem_handler_respects live_handler_respects : k8e.
