(* ===== verification/Lens.v ===== *)
(** * Calls on a component of the memory

    A program over the memory of a component runs on the memory of the process
    that holds it: the gateway calls its orchestrator, the E2B server its
    registry.  The contract of the environment carries over. *)
From S2P Require Import Prelude Prog Kube.

Class Lens (M N : Type) := mkLens {
  part : N -> M;
  with_part : M -> N -> N;
  part_with : forall m n, part (with_part m n) = m;
  with_part_part : forall n, with_part (part n) n = n;
  with_part_twice : forall m m' n, with_part m (with_part m' n) = with_part m n;
}.

Section zoom.
Context {M N : Type} `{Lens M N}.

Definition zoom_eff {X} (e : gwE M X) : gwE N X :=
  match e with
  | Now => Now
  | Get k ns name => Get k ns name
  | Kube.List k ns sel => Kube.List k ns sel
  | Create k o => Create k o
  | Update k o => Update k o
  | UpdateStatus k o => UpdateStatus k o
  | Delete k ns name => Delete k ns name
  | Sandboxd ip r => Sandboxd ip r
  | Dial ip => Dial ip
  | Sleep d => Sleep d
  | Mem f => Mem (fun n => let '(x, m) := f (part n) in (x, with_part m n))
  end.

Fixpoint zoom {A} (p : prog (gwE M) A) : prog (gwE N) A :=
  match p with
  | Ret a => Ret a
  | Vis e k => Vis (zoom_eff e) (fun x => zoom (k x))
  | Panic m => Panic m
  end.

Lemma zoom_step faults {X} (e : gwE M X) n c x v' :
  kube_contract N faults X (zoom_eff e) (n, c) x v' ->
  exists m', fst v' = with_part m' n /\ kube_contract M faults X e (part n, c) x (m', snd v').
Proof.
  pose proof (with_part_part n) as Hsame. symmetry in Hsame.
  destruct v' as [n' c'].
  destruct e as [|k ns name|k ns sel|k o|k o|k o|k ns name|ip r|ip|d|Y f]; intros HC; cbn in HC |- *.
  - destruct HC as [Ht [= -> ->]]. by exists (part n).
  - destruct HC as [[= -> ->] Hx]. by exists (part n).
  - destruct HC as [[= -> ->] Hx]. by exists (part n).
  - destruct HC as [-> Hx]. exists (part n). split; [done|]. split; [done|].
    destruct x; [done|]. by destruct Hx as [[= ->] Hx].
  - destruct HC as [-> Hx]. exists (part n). split; [done|]. split; [done|].
    destruct x; [done|]. by destruct Hx as [[= ->] Hx].
  - destruct HC as [-> Hx]. exists (part n). split; [done|]. split; [done|].
    destruct x; [done|]. by destruct Hx as [[= ->] Hx].
  - destruct HC as [-> Hx]. exists (part n). split; [done|]. split; [done|].
    destruct x; [done|]. by destruct Hx as [[= ->] Hx].
  - injection HC as -> ->. by exists (part n).
  - injection HC as -> ->. by exists (part n).
  - destruct HC as (t & H1 & H2 & [= -> ->]). exists (part n). eauto.
  - destruct (f (part n)) as [y m'] eqn:E. destruct HC as [-> [= -> ->]].
    exists m'. by split.
Qed.

(** What the component's method guarantees, the call on it guarantees. *)
Lemma wp_zoom faults {A} (p : prog (gwE M) A) Q n c :
  wp (kube_contract M faults) p
    (fun o v' => Q o (with_part (fst v') n, snd v')) (part n, c) ->
  wp (kube_contract N faults) (zoom p) Q (n, c).
Proof.
  revert n c. induction p as [a|X e k IH|msg]; intros n c; simpl.
  - by rewrite with_part_part.
  - intros Hp x [n' c'] HC. destruct (zoom_step faults e n c x (n', c') HC) as (m' & Hn & HC').
    simpl in Hn, HC'. subst n'. apply IH. rewrite part_with. simpl.
    eapply wp_mono; [|exact (Hp x (m', c') HC')]. intros o v' Hq. by rewrite with_part_twice.
  - by rewrite with_part_part.
Qed.
End zoom.
