(* ===== verification/SessionEnv.v ===== *)
(** * Session environment, secret references and pip specifiers

    [pkg/sandboxmatrix/grpc/env.go] and the specifier check of [server.go]:
    the input validation of CreateSession and PipInstall, the request bodies
    for sandboxd, and the public view of a session.  A Go map is iterated in
    an unspecified order; the definitions take the order as an argument and
    the theorems hold for every order. *)
From Stdlib Require Import NArith.
From S2P Require Import Prelude Kube.

Definition maxSessionEnvKeys : Z := 64.
Definition maxSessionEnvKeyBytes : Z := 256.
Definition maxSessionEnvValueBytes : Z := 4 * 1024.
Definition maxSessionEnvTotalBytes : Z := 32 * 1024.
Definition maxSessionSecretRefs : Z := 32.
Definition maxExecOutputBytes : Z := 1 * 1024 * 1024.

(** [len(s)]: bytes of a Go string. *)
Definition strlen (s : string) : Z := Z.of_nat (String.length s).

(** ** [utf8.ValidString] *)

Fixpoint bytes_of (s : string) : list N :=
  match s with EmptyString => [] | String c s' => Ascii.N_of_ascii c :: bytes_of s' end.

Definition in_range (lo hi b : N) : bool := (lo <=? b)%N && (b <=? hi)%N.
Definition cont (b : N) : bool := in_range 128 191 b.

(** The table of the Unicode standard (no overlong forms, no surrogates,
    nothing above U+10FFFF), as in Go's [acceptRanges]. *)
Fixpoint valid_utf8 (l : list N) : bool :=
  match l with
  | [] => true
  | a :: l1 =>
      if (a <? 128)%N then valid_utf8 l1 else
      match l1 with
      | [] => false
      | b :: l2 =>
          if in_range 194 223 a then cont b && valid_utf8 l2 else
          match l2 with
          | [] => false
          | c :: l3 =>
              if in_range 224 239 a then
                in_range (if (a =? 224)%N then 160 else 128)%N
                         (if (a =? 237)%N then 159 else 191)%N b
                && cont c && valid_utf8 l3
              else
              match l3 with
              | [] => false
              | d :: l4 =>
                  in_range 240 244 a
                  && in_range (if (a =? 240)%N then 144 else 128)%N
                              (if (a =? 244)%N then 143 else 191)%N b
                  && cont c && cont d && valid_utf8 l4
              end
          end
      end
  end.
Definition ValidString (s : string) : bool := valid_utf8 (bytes_of s).

Definition has_nul (s : string) : bool := negb (no_char Ascii.zero s).

(** ** Validation *)

Definition validateSessionEnvEntry (k v : string) : option error :=
  if decide (k = "") then Some (Plain "empty key")
  else if negb (ValidString k) || negb (ValidString v) then Some (Plain "non-utf8 key or value")
  else if has_nul k || has_nul v then Some (Plain "NUL byte not allowed in key or value")
  else if contains k "=" then Some (Plain "'=' not allowed in env key")
  else if (maxSessionEnvKeyBytes <? strlen k)%Z then Some (Plain "key too long")
  else if (maxSessionEnvValueBytes <? strlen v)%Z then Some (Plain "value too long")
  else None.

(** The loop over the entries, in the order [l], with its running total. *)
Fixpoint validateEntries (l : list (string * string)) (total : Z) : option error :=
  match l with
  | [] => None
  | (k, v) :: l =>
      match validateSessionEnvEntry k v with
      | Some err => Some err
      | None =>
          let total := (total + (strlen k + strlen v))%Z in
          if (maxSessionEnvTotalBytes <? total)%Z then Some (Plain "total size exceeded")
          else validateEntries l total
      end
  end.

Definition validateSessionEnv (env : gmap string string) (order : list (string * string))
    : option error :=
  if decide (size env = 0)%nat then None
  else if (maxSessionEnvKeys <? Z.of_nat (size env))%Z then Some (Plain "too many entries")
  else validateEntries order 0.

Fixpoint validateRefs (refs : list (option SecretRef)) (seen : gset string) : option error :=
  match refs with
  | [] => None
  | None :: _ => Some (Plain "nil secret_ref")
  | Some r :: refs =>
      if decide (sr_secretName r = "" \/ sr_key r = "" \/ sr_envVar r = "")
      then Some (Plain "secret_name, key, and env_var are required")
      else match validateSessionEnvEntry (sr_envVar r) "x" with
           | Some err => Some err
           | None =>
               if decide (sr_envVar r ∈ seen) then Some (Plain "duplicate env_var")
               else validateRefs refs ({[sr_envVar r]} ∪ seen)
           end
  end.

Definition validateSecretRefs (refs : list (option SecretRef)) : option error :=
  if decide (refs = []) then None
  else if (maxSessionSecretRefs <? Z.of_nat (length refs))%Z then Some (Plain "too many secret_refs")
  else validateRefs refs ∅.

Definition pbSecretRefsToAPI (refs : list (option SecretRef)) : list SecretRef :=
  omap id refs.

(** ** Bodies for sandboxd and the status strings of an execution *)

Definition sandboxdRequestBody (sessionID command runID : string) (timeout : Z)
    (workdir : string) (env : gmap string string) : ExecBody :=
  mkExecBody command timeout workdir sessionID
    (if decide (runID = "") then None else Some runID)
    (if decide (size env = 0)%nat then None else Some env).

Definition sandboxdExecBody sessionID command timeout workdir env : ExecBody :=
  sandboxdRequestBody sessionID command "" timeout workdir env.

Definition sandboxdBackgroundBody sessionID command runID timeout workdir env : ExecBody :=
  sandboxdRequestBody sessionID command runID timeout workdir env.

Definition execStatusStarted : string := "started".
Definition execStatusCompleted : string := "completed".
Definition execStatusTimedOut : string := "timed_out".
Definition execStatusFailed : string := "failed".

Definition classifyExecStatus (timedOut hadTransportError : bool) : string :=
  if hadTransportError then execStatusFailed
  else if timedOut then execStatusTimedOut
  else execStatusCompleted.

(** ** The public view of a session *)

Record GetSessionResponse := mkGetSessionResponse {
  gs_SessionId : string; gs_Phase : string; gs_RuntimeClass : string; gs_PodIp : string;
  gs_TenantId : string; gs_BackgroundRuns : Z; gs_AllowedHosts : list string;
  gs_ExpiresAt : Z;                 (* unix seconds, 0 when unset *)
  gs_EnvKeys : list string; gs_SecretEnvVars : list string;
}.

(** [keys]: the keys of [Spec.Env] in iteration order. *)
Definition sessionToProtoView (s : SandboxSession) (bgRuns : Z) (keys : list string)
    : GetSessionResponse :=
  mkGetSessionResponse (m_name (s_meta s)) (Phase (s_status s)) (RuntimeClass (s_spec s))
    (PodIP (s_status s)) (TenantID (s_spec s)) bgRuns (AllowedHosts (s_spec s))
    (match ExpiresAt (s_status s) with Some t => (t / second)%Z | None => 0%Z end)
    (if decide (size (Env (s_spec s)) = 0)%nat then [] else keys)
    (filter (fun v => v <> "") (sr_envVar <$> SecretRefs (s_spec s))).

(** ** pip package specifiers *)

Definition is_alnum (c : Ascii.ascii) : bool :=
  let n := Ascii.N_of_ascii c in
  in_range 48 57 n || in_range 65 90 n || in_range 97 122 n.
Definition is_pip_inner (c : Ascii.ascii) : bool :=
  let n := Ascii.N_of_ascii c in      (* '.', '_', '-' *)
  is_alnum c || (n =? 46)%N || (n =? 95)%N || (n =? 45)%N.

Fixpoint last_char (s : string) : option Ascii.ascii :=
  match s with
  | EmptyString => None
  | String c EmptyString => Some c
  | String _ s' => last_char s'
  end.

(** [^[a-zA-Z0-9]([a-zA-Z0-9._-]*[a-zA-Z0-9])?$] *)
Definition pipPkgNameRe (s : string) : bool :=
  match s, last_char s with
  | String c s', Some z => is_alnum c && all_chars is_pip_inner s' && is_alnum z
  | _, _ => false
  end.

(** [strings.Index(s, sep)], as the prefix before the first occurrence. *)
Fixpoint before (s sep : string) : option string :=
  if has_prefix s sep then Some ""
  else match s with
       | EmptyString => None
       | String c s' => option_map (String c) (before s' sep)
       end.

Fixpoint cut_first (raw : string) (seps : list string) : string :=
  match seps with
  | [] => raw
  | sep :: seps => match before raw sep with Some name => name | None => cut_first raw seps end
  end.

Definition pip_seps : list string := [">="; "<="; "!="; "=="; "~="; ">"; "<"; "="; "["].
Definition pip_banned : list string :=
  [";"; "&"; "|"; "`"; "$"; "("; ")"; String (Ascii.ascii_of_N 10) ""; String (Ascii.ascii_of_N 13) ""].

Definition sanitizePipPackage (raw : string) : res string :=
  if negb (pipPkgNameRe (cut_first raw pip_seps)) then Err (Plain "invalid package name")
  else if existsb (contains raw) pip_banned then Err (Plain "invalid characters")
  else Ok raw.

(** ** Specification of the validators *)

Definition entry_valid (kv : string * string) : Prop :=
  kv.1 <> "" /\ ValidString kv.1 = true /\ ValidString kv.2 = true /\
  has_nul kv.1 = false /\ has_nul kv.2 = false /\ contains kv.1 "=" = false /\
  (strlen kv.1 <= maxSessionEnvKeyBytes)%Z /\ (strlen kv.2 <= maxSessionEnvValueBytes)%Z.

Definition entries_bytes (l : list (string * string)) : Z :=
  foldr (fun kv n => (strlen kv.1 + strlen kv.2 + n)%Z) 0%Z l.

(** What CreateSession promises of an accepted environment. *)
Definition env_ok (env : gmap string string) : Prop :=
  (Z.of_nat (size env) <= maxSessionEnvKeys)%Z /\
  (forall k v, env !! k = Some v -> entry_valid (k, v)) /\
  (entries_bytes (map_to_list env) <= maxSessionEnvTotalBytes)%Z.

Definition ref_ok (r : SecretRef) : Prop :=
  sr_secretName r <> "" /\ sr_key r <> "" /\ entry_valid (sr_envVar r, "x").

(** ** Lemmas *)

Lemma strlen_nonneg (s : string) : (0 <= strlen s)%Z.
Proof. unfold strlen. lia. Qed.

Lemma validateSessionEnvEntry_spec (k v : string) :
  validateSessionEnvEntry k v = None <-> entry_valid (k, v).
Proof.
  unfold validateSessionEnvEntry, entry_valid. simpl.
  case_decide; [naive_solver|].
  destruct (ValidString k), (ValidString v); simpl; try naive_solver.
  destruct (has_nul k), (has_nul v); simpl; try naive_solver.
  destruct (contains k "="); [naive_solver|].
  destruct (Z.ltb_spec maxSessionEnvKeyBytes (strlen k)); [split; [done|intros; lia]|].
  destruct (Z.ltb_spec maxSessionEnvValueBytes (strlen v)); [split; [done|intros; lia]|].
  naive_solver.
Qed.

Lemma entries_bytes_nonneg (l : list (string * string)) : (0 <= entries_bytes l)%Z.
Proof.
  induction l as [|[k v] l IH]; simpl; [done|].
  pose proof (strlen_nonneg k); pose proof (strlen_nonneg v). lia.
Qed.

Lemma entries_bytes_perm (l l' : list (string * string)) :
  l ≡ₚ l' -> entries_bytes l = entries_bytes l'.
Proof. induction 1; simpl; lia. Qed.

Lemma validateEntries_spec (l : list (string * string)) (total : Z) :
  validateEntries l total = None <->
    Forall entry_valid l /\ (l <> [] -> total + entries_bytes l <= maxSessionEnvTotalBytes)%Z.
Proof.
  revert total. induction l as [|[k v] l IH]; intros total; simpl; [by split|].
  rewrite Forall_cons.
  destruct (validateSessionEnvEntry k v) eqn:E.
  - split; [done|]. intros [[H _] _]. apply validateSessionEnvEntry_spec in H. congruence.
  - apply validateSessionEnvEntry_spec in E.
    destruct (Z.ltb_spec maxSessionEnvTotalBytes (total + (strlen k + strlen v))).
    + split; [done|]. intros [_ H']. pose proof (entries_bytes_nonneg l).
      assert (total + (strlen k + strlen v + entries_bytes l) <= maxSessionEnvTotalBytes)%Z
        by (by apply H'). lia.
    + rewrite IH. split; intros [H1 H2].
      * split; [done|]. intros _. destruct l; simpl in *; [lia|]. specialize (H2 ltac:(done)). lia.
      * destruct H1. split; [done|]. intros _. specialize (H2 ltac:(done)). lia.
Qed.

Lemma validateRefs_spec (refs : list (option SecretRef)) (seen : gset string) :
  validateRefs refs seen = None <->
    exists rs, refs = Some <$> rs /\ Forall ref_ok rs /\
      NoDup (sr_envVar <$> rs) /\ Forall (fun r => sr_envVar r ∉ seen) rs.
Proof.
  revert seen. induction refs as [|[r|] refs IH]; intros seen; simpl.
  - split; [|done]. intros _. exists []. repeat split; constructor.
  - pose proof (validateSessionEnvEntry_spec (sr_envVar r) "x") as Hv.
    case_decide as Hd.
    { split; [done|]. intros ([|r' rs] & [=-> ->] & [Hr _]%Forall_cons & _).
      destruct Hr as (? & ? & (? & _)). naive_solver. }
    destruct (validateSessionEnvEntry (sr_envVar r) "x").
    { split; [done|]. intros ([|r' rs] & [=-> ->] & [Hr _]%Forall_cons & _).
      destruct Hr as (_ & _ & Hr%Hv). done. }
    assert (ref_ok r) as Hr by (split; [naive_solver|split; [naive_solver|by apply Hv]]).
    case_decide as Hs.
    { split; [done|]. intros ([|r' rs] & [=-> ->] & _ & _ & [? _]%Forall_cons). done. }
    rewrite IH. split.
    + intros (rs & -> & H1 & H2 & H3). exists (r :: rs). split; [done|].
      rewrite fmap_cons, NoDup_cons, !Forall_cons.
      split; [done|]. split; [split; [|done]|split; [done|]].
      * intros (r' & E & Hr')%list_elem_of_fmap. rewrite Forall_forall in H3.
        apply (H3 _ Hr'). rewrite E. set_solver.
      * eapply Forall_impl; [done|]. set_solver.
    + intros ([|r' rs] & [=<- ->] & H1 & H2 & H3). exists rs.
      rewrite fmap_cons, NoDup_cons in H2. apply Forall_cons in H1 as [_ H1], H3 as [_ H3].
      destruct H2 as [H2 H2']. split; [done|]. split; [done|]. split; [done|].
      rewrite Forall_forall in H3 |- *. intros x Hx.
      specialize (H3 x Hx). rewrite not_elem_of_union, not_elem_of_singleton.
      split; [|done]. intros E. apply H2. rewrite <-E. by apply list_elem_of_fmap_2.
  - split; [done|]. by intros ([|r' rs] & [=] & _).
Qed.

(** ** Properties *)

(** CreateSession accepts an environment map exactly when it has at most 64
    entries, every entry is well formed (non-empty UTF-8 key without NUL or
    [=], bounded key and value) and keys and values together are at most
    32 KiB; the verdict does not depend on the order in which Go iterates
    over the map. *)
Theorem session_env_accepted_iff (env : gmap string string) (order : list (string * string)) :
  order ≡ₚ map_to_list env ->
  validateSessionEnv env order = None <-> env_ok env.
Proof.
  intros Hp. unfold validateSessionEnv, env_ok.
  rewrite <-(entries_bytes_perm _ _ Hp).
  assert (Forall entry_valid order <-> forall k v, env !! k = Some v -> entry_valid (k, v)) as Hf.
  { rewrite Hp, Forall_forall. split.
    - intros H k v Hk. apply H. by apply elem_of_map_to_list.
    - intros H [k v] Hk%elem_of_map_to_list. by apply H. }
  assert (size env = length order) as Hl by (by rewrite Hp, length_map_to_list).
  case_decide as H0.
  - apply map_size_empty_inv in H0 as ->. rewrite map_to_list_empty in Hp.
    symmetry in Hp. apply Permutation_nil in Hp as ->. split; [|done]. intros _.
    split; [done|]. split; [intros ?? ?; by simplify_map_eq|done].
  - destruct (Z.ltb_spec maxSessionEnvKeys (Z.of_nat (size env))); [split; [done|intros []; lia]|].
    rewrite validateEntries_spec, Hf. split; [|naive_solver lia].
    intros [H1 H2]. split; [done|]. split; [done|]. apply H2. by intros ->.
Qed.

(** A list of secret references is accepted exactly when it has at most 32
    references, none is nil, each names a secret, a key and a well-formed
    environment variable, and no two name the same variable. *)
Theorem secret_refs_accepted_iff (refs : list (option SecretRef)) :
  validateSecretRefs refs = None <->
    exists rs, refs = Some <$> rs /\ (Z.of_nat (length rs) <= maxSessionSecretRefs)%Z /\
      Forall ref_ok rs /\ NoDup (sr_envVar <$> rs).
Proof.
  unfold validateSecretRefs. case_decide as H0.
  - subst. split; [|done]. intros _. exists []. repeat split; try constructor. done.
  - destruct (Z.ltb_spec maxSessionSecretRefs (Z.of_nat (length refs))) as [Hl|Hl].
    + split; [done|]. intros (rs & -> & H & _). rewrite length_fmap in Hl. lia.
    + rewrite validateRefs_spec. split.
      * intros (rs & -> & H1 & H2 & _). exists rs. rewrite length_fmap in Hl. done.
      * intros (rs & -> & H1 & H2 & H3). exists rs. split; [done|]. split; [done|].
        split; [done|]. apply Forall_forall. set_solver.
Qed.

(** Two sessions that differ only in the values of their environment
    variables and in where their secrets are kept have the same public view:
    GetSession and ListSessions reveal names of variables and nothing else. *)
Theorem session_view_hides_values (s s' : SandboxSession) (n : Z) (keys : list string) :
  s_meta s = s_meta s' -> s_status s = s_status s' ->
  TenantID (s_spec s) = TenantID (s_spec s') ->
  AllowedHosts (s_spec s) = AllowedHosts (s_spec s') ->
  RuntimeClass (s_spec s) = RuntimeClass (s_spec s') ->
  dom (Env (s_spec s)) = dom (Env (s_spec s')) ->
  sr_envVar <$> SecretRefs (s_spec s) = sr_envVar <$> SecretRefs (s_spec s') ->
  sessionToProtoView s n keys = sessionToProtoView s' n keys.
Proof.
  intros Hm Hst Ht Ha Hr He Hs. unfold sessionToProtoView.
  rewrite Hm, Hst, Ht, Ha, Hr, Hs.
  assert (size (Env (s_spec s)) = size (Env (s_spec s'))) as ->; [|done].
  by rewrite <-!size_dom, He.
Qed.

Lemma session_env_accepted_iff_witness :
  validateSessionEnv {["A" := "1"]} [("A", "1")] = None <-> env_ok {["A" := "1"]}.
Proof. apply (session_env_accepted_iff {["A" := "1"]} [("A", "1")]). reflexivity. Defined.

Definition view_example (v : string) : SandboxSession :=
  mkSession (mkMeta "sandbox-matrix" "s1" "" ∅ ∅ 1 0)
    (mkSessionSpec "t" ["pypi.org"] "gvisor" "" 0 {["TOKEN" := v]}
       [mkSecretRef "db" v "DB_PASSWORD"])
    empty_status.

Lemma session_view_hides_values_witness :
  sessionToProtoView (view_example "one") 0 ["TOKEN"] =
  sessionToProtoView (view_example "two") 0 ["TOKEN"].
Proof. apply session_view_hides_values; vm_compute; reflexivity. Defined.

(** * The per-session network policy

    [buildSessionCNP] and [buildSessionCNPExposed] of
    [pkg/sandboxmatrix/grpc/orchestrator.go]: the CiliumNetworkPolicy of a
    session as a function of its allowed hosts, of the FQDN switch and of the
    exposed ports. *)

Definition labelState : string := "sandbox.k8e.io/state".
Definition labelSessionID : string := "sandbox.k8e.io/session-id".
Definition labelRuntimeClass : string := "sandbox.k8e.io/runtime-class".

(** [fmt.Sprintf("%d", n)] *)
Definition itoa (n : Z) : string := pretty n.

Definition gatewayPeer : CnpPeer := Endpoints [("app", "sandbox-grpc-gateway")].
Definition e2bPeer : CnpPeer := Endpoints [("app", "e2b-server")].
Definition tcp (port : string) : list (string * string) := [(port, "TCP")].

Definition cnpName (session : string) : string := "sandbox-session-" +:+ session.

(** The two rules appended for each exposed port. *)
Definition exposedRules (port : Z) : list CnpRule :=
  [mkCnpRule gatewayPeer (tcp (itoa port)); mkCnpRule e2bPeer (tcp (itoa port))].

Definition buildSessionCNPExposed (s : SandboxSession) (fqdnEnabled : bool)
    (exposedPorts : list Z) : Cnp :=
  let hosts := AllowedHosts (s_spec s) in
  let egress :=
    mkCnpRule (Entities ["world"]) [("53", "ANY")] ::
    (if fqdnEnabled && bool_decide (hosts <> [])
     then [mkCnpRule (FQDNs hosts) (tcp "443")]
     else [mkCnpRule (Entities ["world"]) (tcp "443")]) in
  let ingress :=
    [mkCnpRule (Entities ["host"]) (tcp "2024");
     mkCnpRule gatewayPeer (tcp "2024");
     mkCnpRule e2bPeer (tcp "2024")] ++ concat (exposedRules <$> exposedPorts) in
  mkCnp (mkMeta (m_ns (s_meta s)) (cnpName (m_name (s_meta s))) "" ∅ ∅ 0 0)
    [(labelSessionID, m_name (s_meta s))] ingress egress.

Definition buildSessionCNP (s : SandboxSession) (fqdnEnabled : bool) : Cnp :=
  buildSessionCNPExposed s fqdnEnabled [].

(** ** What a policy lets through *)

Definition allows (rules : list CnpRule) (peer : CnpPeer) (port : string * string) : Prop :=
  exists r, r ∈ rules /\ r_peer r = peer /\ port ∈ r_ports r.

#[export] Instance allows_dec rules peer port : Decision (allows rules peer port).
Proof.
  refine (cast_if (decide (Exists (fun r => r_peer r = peer /\ port ∈ r_ports r) rules)));
    rewrite Exists_exists in *; unfold allows; naive_solver.
Defined.

(** ** Lemmas *)

Lemma itoa_inj (n m : Z) : itoa n = itoa m -> n = m.
Proof. apply (inj pretty). Qed.

Lemma allows_cons (r : CnpRule) rules peer port :
  allows (r :: rules) peer port <->
    (r_peer r = peer /\ port ∈ r_ports r) \/ allows rules peer port.
Proof. unfold allows. set_solver. Qed.

Lemma allows_nil peer port : ~ allows [] peer port.
Proof. intros (r & H & _). set_solver. Qed.

Lemma allows_exposed (ports : list Z) peer port :
  allows (concat (exposedRules <$> ports)) peer port <->
    (peer = gatewayPeer \/ peer = e2bPeer) /\ exists n, n ∈ ports /\ port = (itoa n, "TCP").
Proof.
  induction ports as [|n ports IH].
  - simpl. split; [by intros ?%allows_nil|]. intros (_ & n & H & _). set_solver.
  - rewrite fmap_cons. cbn [concat exposedRules app]. rewrite !allows_cons, IH.
    simpl. unfold tcp. set_solver.
Qed.

Lemma exposed_port_allowed (s : SandboxSession) (fqdn : bool) (ports : list Z) (n : Z) :
  n ∈ ports ->
  allows (cnp_ingress (buildSessionCNPExposed s fqdn ports)) gatewayPeer (itoa n, "TCP") /\
  allows (cnp_ingress (buildSessionCNPExposed s fqdn ports)) e2bPeer (itoa n, "TCP").
Proof.
  intros Hn. unfold buildSessionCNPExposed. cbn [cnp_ingress app].
  rewrite !allows_cons, !allows_exposed. naive_solver.
Qed.

(** ** Properties *)

(** The ingress of a session's policy is exactly: sandboxd's port 2024 from
    the host, and port 2024 plus the exposed service ports from the gateway and
    from the e2b server; no other peer reaches the pod on any port, and the
    host reaches no exposed port. *)
Theorem session_ingress_exact (s : SandboxSession) (fqdn : bool) (ports : list Z)
    (peer : CnpPeer) (port : string * string) :
  allows (cnp_ingress (buildSessionCNPExposed s fqdn ports)) peer port <->
    (peer = Entities ["host"] /\ port = ("2024", "TCP")) \/
    ((peer = gatewayPeer \/ peer = e2bPeer) /\
     (port = ("2024", "TCP") \/ exists n, n ∈ ports /\ port = (itoa n, "TCP"))).
Proof.
  unfold buildSessionCNPExposed. cbn [cnp_ingress app].
  rewrite !allows_cons, allows_exposed. simpl. unfold tcp. set_solver.
Qed.

(** Egress: DNS to the world is always open.  HTTPS is open to the world,
    except when FQDN egress is enabled and the session declares hosts: then
    only the declared hosts are reachable, on port 443, and the world only on
    port 53. *)
Theorem session_egress_exact (s : SandboxSession) (fqdn : bool) (ports : list Z)
    (peer : CnpPeer) (port : string * string) :
  allows (cnp_egress (buildSessionCNPExposed s fqdn ports)) peer port <->
    (peer = Entities ["world"] /\ port = ("53", "ANY")) \/
    (port = ("443", "TCP") /\
     peer = if fqdn && bool_decide (AllowedHosts (s_spec s) <> [])
            then FQDNs (AllowedHosts (s_spec s)) else Entities ["world"]).
Proof.
  unfold buildSessionCNPExposed. cbn [cnp_egress].
  destruct (fqdn && _); rewrite !allows_cons; simpl; unfold tcp;
    rewrite !list_elem_of_singleton;
    (split; [intros [[<- ->]|[[<- ->]|H]]; [naive_solver..|by apply allows_nil in H]|naive_solver]).
Qed.
