(* ===== verification/GoTime.v ===== *)
(** * The part of Go's standard library the controllers use

    [strconv.ParseInt(s, 10, 64)] and the RFC 3339 form of [time.Time] in
    UTC, as executable functions, with the round trip the warm-pool
    annotations depend on. *)
From S2P Require Import Prelude.
Open Scope Z_scope.

(** ** Decimal digits *)

Definition digit (c : Ascii.ascii) : option Z :=
  let n := Z.of_N (Ascii.N_of_ascii c) in
  if (48 <=? n) && (n <=? 57) then Some (n - 48) else None.

Definition digit_char (d : Z) : Ascii.ascii := Ascii.ascii_of_N (Z.to_N (48 + d)).

Fixpoint digits_acc (s : string) (acc : Z) : option Z :=
  match s with
  | EmptyString => Some acc
  | String c s =>
      match digit c with Some d => digits_acc s (10 * acc + d) | None => None end
  end.

(** [strconv.ParseInt(s, 10, 64)]: an optional sign, at least one digit, and
    an error outside of the int64 range. *)
Definition ParseInt (s : string) : option Z :=
  let body neg s :=
    match s with
    | EmptyString => None
    | _ => match digits_acc s 0 with
           | Some n => let z := if neg : bool then - n else n in
                       if (- 2 ^ 63 <=? z) && (z <? 2 ^ 63) then Some z else None
           | None => None
           end
    end in
  match s with
  | EmptyString => None
  | String c s' =>
      let n := Ascii.N_of_ascii c in
      if (n =? 45)%N then body true s' else if (n =? 43)%N then body false s' else body false s
  end.

(** [n] digits, most significant first. *)
Fixpoint pad (n : nat) (z : Z) : string :=
  match n with
  | O => ""
  | S n => String (digit_char ((z / 10 ^ Z.of_nat n) `mod` 10)) (pad n z)
  end.

(** Exactly [n] digits off the front. *)
Fixpoint take_digits (n : nat) (acc : Z) (s : string) : option (Z * string) :=
  match n with
  | O => Some (acc, s)
  | S n =>
      match s with
      | String c s => match digit c with
                      | Some d => take_digits n (10 * acc + d) s
                      | None => None
                      end
      | EmptyString => None
      end
  end.

(** ** The proleptic Gregorian calendar *)

(** Day of a 400-year era (from 1 March) to year of era and day of year: cut
    off centuries, four-year cycles and years, as [time.absDate] does. *)
Definition year_of_doe (doe : Z) : Z * Z :=
  let c := Z.min (doe / 36524) 3 in
  let r := doe - c * 36524 in
  let q := r / 1461 in
  let r2 := r - q * 1461 in
  let a := Z.min (r2 / 365) 3 in
  (100 * c + 4 * q + a, r2 - 365 * a).

(** Day of the year to month and day. *)
Definition month_of_doy (doy : Z) : Z * Z :=
  let mp := (5 * doy + 2) / 153 in
  (if mp <? 10 then mp + 3 else mp - 9, doy - (153 * mp + 2) / 5 + 1).

Definition civil_of_doe (doe : Z) : Z * Z * Z :=
  let '(yoe, doy) := year_of_doe doe in
  let '(m, d) := month_of_doy doy in (yoe, m, d).

Definition doe_of_civil (yoe m d : Z) : Z :=
  let doy := (153 * (if 2 <? m then m - 3 else m + 9) + 2) / 5 + d - 1 in
  yoe * 365 + yoe / 4 - yoe / 100 + doy.

(** Days since 1970-01-01. *)
Definition civil_of_days (z : Z) : Z * Z * Z :=
  let z := z + 719468 in
  let '(yoe, m, d) := civil_of_doe (z `mod` 146097) in
  let y := yoe + (z / 146097) * 400 in
  (if m <=? 2 then y + 1 else y, m, d).

Definition days_of_civil (y m d : Z) : Z :=
  let y := if m <=? 2 then y - 1 else y in
  (y / 400) * 146097 + doe_of_civil (y `mod` 400) m d - 719468.

Definition leap (y : Z) : bool :=
  (y `mod` 4 =? 0) && (negb (y `mod` 100 =? 0) || (y `mod` 400 =? 0)).
Definition days_in_month (y m : Z) : Z :=
  if m =? 2 then (if leap y then 29 else 28)
  else if (m =? 4) || (m =? 6) || (m =? 9) || (m =? 11) then 30 else 31.

(** ** RFC 3339 *)

(** [t.UTC().Format(time.RFC3339)] of [t] nanoseconds since the epoch. *)
Definition format_rfc3339 (t : Z) : string :=
  let secs := t / second in
  let '(y, m, d) := civil_of_days (secs / 86400) in
  let s := secs `mod` 86400 in
  pad 4 y +:+ "-" +:+ pad 2 m +:+ "-" +:+ pad 2 d +:+ "T" +:+
  pad 2 (s / 3600) +:+ ":" +:+ pad 2 ((s / 60) `mod` 60) +:+ ":" +:+ pad 2 (s `mod` 60) +:+ "Z".

Definition field (n : nat) (sep : string) (s : string) : option (Z * string) :=
  match take_digits n 0 s with
  | Some (v, s) => option_map (pair v) (strip_prefix sep s)
  | None => None
  end.

(** The zone: [Z], or a numeric offset in seconds. *)
Definition zone (s : string) : option Z :=
  let offset sign s :=
    match field 2 ":" s with
    | Some (h, s) =>
        match take_digits 2 0 s with
        | Some (m, EmptyString) =>
            if (h <=? 24) && (m <? 60) then Some (sign * (h * 3600 + m * 60)) else None
        | _ => None
        end
    | None => None
    end in
  if decide (s = "Z") then Some 0
  else match strip_prefix "+" s with
       | Some s => offset 1 s
       | None => match strip_prefix "-" s with Some s => offset (-1) s | None => None end
       end.

(** [time.Parse(time.RFC3339, s)], nanoseconds since the epoch (without the
    optional fraction of a second). *)
Definition parse_rfc3339 (s : string) : option Z :=
  match field 4 "-" s with None => None | Some (y, s) =>
  match field 2 "-" s with None => None | Some (m, s) =>
  match field 2 "T" s with None => None | Some (d, s) =>
  match field 2 ":" s with None => None | Some (hh, s) =>
  match field 2 ":" s with None => None | Some (mm, s) =>
  match take_digits 2 0 s with None => None | Some (ss, s) =>
  match zone s with None => None | Some off =>
    if (1 <=? m) && (m <=? 12) && (1 <=? d) && (d <=? days_in_month y m)
       && (hh <? 24) && (mm <? 60) && (ss <? 60)
    then Some ((days_of_civil y m d * 86400 + hh * 3600 + mm * 60 + ss - off) * second)
    else None
  end end end end end end end.

(** ** Lemmas *)

(** [lia] on goals with divisions by constants. *)
#[local] Ltac Zify.zify_post_hook ::= Z.to_euclidean_division_equations.
Ltac zdiv := lia.

Lemma digit_digit_char (d : Z) : 0 <= d < 10 -> digit (digit_char d) = Some d.
Proof.
  intros H. assert (d = 0 \/ d = 1 \/ d = 2 \/ d = 3 \/ d = 4 \/ d = 5 \/ d = 6 \/ d = 7
    \/ d = 8 \/ d = 9) as Hd by lia.
  repeat destruct Hd as [->|Hd]; try reflexivity. by subst.
Qed.

Lemma pad_mod (n : nat) (z : Z) : pad n z = pad n (z `mod` 10 ^ Z.of_nat n).
Proof.
  revert z. induction n as [|n IH]; intros z; [done|]. cbn [pad].
  set (q := 10 ^ Z.of_nat n) in *. assert (0 < q) by (apply Z.pow_pos_nonneg; lia).
  assert (10 ^ Z.of_nat (S n) = q * 10) as ->
    by (unfold q; rewrite Nat2Z.inj_succ, Z.pow_succ_r; lia).
  rewrite Z.rem_mul_r by lia.
  assert ((z `mod` q + q * ((z / q) `mod` 10)) / q = (z / q) `mod` 10) as ->.
  { rewrite (Z.mul_comm q), Z.div_add by lia.
    rewrite Z.div_small by (apply Z.mod_pos_bound; lia). lia. }
  rewrite Z.mod_mod by lia. f_equal.
  rewrite (IH z), (IH (z `mod` q + _)).
  by rewrite (Z.mul_comm q), Z.mod_add, Z.mod_mod by lia.
Qed.

Lemma take_digits_pad (n : nat) (z acc : Z) (s : string) :
  0 <= z < 10 ^ Z.of_nat n ->
  take_digits n acc (pad n z +:+ s) = Some (acc * 10 ^ Z.of_nat n + z, s).
Proof.
  revert z acc. induction n as [|n IH]; intros z acc Hz.
  - simpl in *. rewrite append_nil_l. f_equal. f_equal. lia.
  - cbn [pad]. rewrite append_cons. cbn [take_digits].
    set (p := 10 ^ Z.of_nat n) in *.
    assert (10 ^ Z.of_nat (S n) = 10 * p) as Hp
      by (unfold p; rewrite Nat2Z.inj_succ, Z.pow_succ_r; lia).
    rewrite Hp in *.
    assert (0 < p) by (unfold p; apply Z.pow_pos_nonneg; lia).
    assert (0 <= z / p < 10) as Hq by (split; [apply Z.div_pos|apply Z.div_lt_upper_bound]; lia).
    rewrite (Z.mod_small (z / p)) by done. rewrite digit_digit_char by done.
    rewrite (pad_mod n z).
    fold p.
    rewrite IH by (apply Z.mod_pos_bound; lia).
    f_equal. f_equal. pose proof (Z.div_mod z p ltac:(lia)). lia.
Qed.

Lemma field_pad (n : nat) (sep s : string) (z : Z) :
  0 <= z < 10 ^ Z.of_nat n -> field n sep (pad n z +:+ sep +:+ s) = Some (z, s).
Proof.
  intros Hz. unfold field. rewrite take_digits_pad by done. cbn -[strip_prefix].
  rewrite strip_prefix_app. done.
Qed.

Lemma year_of_doe_spec (doe : Z) :
  0 <= doe < 146097 ->
  let '(yoe, doy) := year_of_doe doe in
  0 <= yoe < 400 /\ 0 <= doy <= 365 /\
  yoe * 365 + yoe / 4 - yoe / 100 + doy = doe /\
  (doy = 365 -> leap (yoe + 1) = true).
Proof.
  intros Hdoe. unfold year_of_doe.
  set (c := Z.min (doe / 36524) 3). set (r := doe - c * 36524).
  set (q := r / 1461). set (r2 := r - q * 1461). set (a := Z.min (r2 / 365) 3).
  assert (0 <= c <= 3) by (unfold c; zdiv). assert (0 <= r <= 36524) by (unfold r, c; zdiv).
  assert (0 <= q <= 24) by (unfold q; zdiv). assert (0 <= r2 <= 1460) by (unfold r2, q; zdiv).
  assert (0 <= a <= 3) by (unfold a; zdiv).
  assert (0 <= r2 - 365 * a <= 365) by (unfold a; zdiv).
  assert (r = 36524 -> c = 3) by (unfold r, c; zdiv).
  assert (r = q * 1461 + r2) by (unfold r2; lia).
  assert (r2 - 365 * a = 365 -> a = 3 /\ r2 = 1460) as Hlast by lia.
  assert (doe = c * 36524 + r) by (unfold r; lia).
  clearbody c r q r2 a.
  assert ((100 * c + 4 * q + a) / 4 = 25 * c + q) as E4 by zdiv.
  assert ((100 * c + 4 * q + a) / 100 = c) as E100 by zdiv.
  split; [lia|]. split; [done|]. split; [lia|].
  intros [-> ->]%Hlast. unfold leap.
  assert ((100 * c + 4 * q + 3 + 1) `mod` 4 = 0) as -> by zdiv.
  destruct (Z.eqb_spec ((100 * c + 4 * q + 3 + 1) `mod` 100) 0); [|done].
  assert ((100 * c + 4 * q + 3 + 1) `mod` 400 = 0) as -> by zdiv. done.
Qed.

(** The months of a year that starts in March, day by day. *)
Lemma month_of_doy_spec (doy y : Z) :
  0 <= doy <= 365 -> (doy = 365 -> leap (y + 1) = true) ->
  let '(m, d) := month_of_doy doy in
  1 <= m <= 12 /\ 1 <= d <= days_in_month (if m <=? 2 then y + 1 else y) m /\
  (153 * (if 2 <? m then m - 3 else m + 9) + 2) / 5 + d - 1 = doy.
Proof.
  intros Hdoy Hleap. unfold month_of_doy. set (mp := (5 * doy + 2) / 153).
  assert (0 <= mp <= 11) as Hmp by (unfold mp; zdiv).
  assert ((153 * mp + 2) / 5 <= doy) by (unfold mp; zdiv).
  assert (153 * mp <= 5 * doy + 2 < 153 * (mp + 1)) by (unfold mp; zdiv).
  clearbody mp.
  assert (mp = 0 \/ mp = 1 \/ mp = 2 \/ mp = 3 \/ mp = 4 \/ mp = 5 \/ mp = 6 \/ mp = 7
    \/ mp = 8 \/ mp = 9 \/ mp = 10 \/ mp = 11) as Hc by lia.
  unfold days_in_month. repeat destruct Hc as [->|Hc]; subst; cbn [Z.ltb Z.leb Z.eqb Z.compare
    Pos.compare Pos.compare_cont Z.sub Z.add orb]; simpl.
  all: try lia.
  destruct (decide (doy = 365)) as [->|]; [rewrite Hleap by done; lia|].
  destruct (leap _); lia.
Qed.

Lemma days_in_month_era (y k m : Z) : days_in_month (y + k * 400) m = days_in_month y m.
Proof.
  unfold days_in_month, leap.
  assert ((y + k * 400) `mod` 4 = y `mod` 4) as ->
    by (replace (y + k * 400) with (y + (k * 100) * 4) by lia; apply Z.mod_add; lia).
  assert ((y + k * 400) `mod` 100 = y `mod` 100) as ->
    by (replace (y + k * 400) with (y + (k * 4) * 100) by lia; apply Z.mod_add; lia).
  by rewrite Z.mod_add.
Qed.

Lemma civil_of_days_spec (z : Z) :
  let '(y, m, d) := civil_of_days z in
  1 <= m <= 12 /\ 1 <= d <= days_in_month y m /\ days_of_civil y m d = z.
Proof.
  unfold civil_of_days. set (z' := z + 719468).
  pose proof (Z.mod_pos_bound z' 146097 ltac:(lia)) as Hb.
  pose proof (year_of_doe_spec _ Hb) as Hy. unfold civil_of_doe.
  destruct (year_of_doe (z' `mod` 146097)) as [yoe doy].
  destruct Hy as (Hy1 & Hy2 & Hy3 & Hy4).
  pose proof (month_of_doy_spec doy yoe Hy2 Hy4) as Hmd.
  destruct (month_of_doy doy) as [m d]. destruct Hmd as (Hm & [Hd1 Hd2] & H7).
  pose proof (Z.div_mod z' 146097 ltac:(lia)) as Hz.
  split; [done|]. split.
  - split; [done|]. etransitivity; [exact Hd2|]. apply Z.eq_le_incl.
    destruct (m <=? 2); [|by rewrite days_in_month_era].
    replace (yoe + z' / 146097 * 400 + 1) with (yoe + 1 + z' / 146097 * 400) by lia.
    by rewrite days_in_month_era.
  - unfold days_of_civil.
    assert ((if m <=? 2
             then (if m <=? 2 then yoe + z' / 146097 * 400 + 1 else yoe + z' / 146097 * 400) - 1
             else (if m <=? 2 then yoe + z' / 146097 * 400 + 1 else yoe + z' / 146097 * 400))
            = yoe + z' / 146097 * 400) as -> by (destruct (m <=? 2); lia).
    rewrite Z.div_add, Z.mod_add, (Z.div_small yoe), (Z.mod_small yoe) by lia.
    unfold doe_of_civil. rewrite H7, Hy3. lia.
Qed.

(** The instants RFC 3339 can write: years 0 to 9999. *)
Definition rfc3339_range (t : Z) : Prop :=
  let '(y, _, _) := civil_of_days (t / second / 86400) in 0 <= y < 10000.

(** Parsing a formatted instant gives it back, rounded down to the second. *)
Lemma parse_format_rfc3339 (t : Z) :
  rfc3339_range t -> parse_rfc3339 (format_rfc3339 t) = Some (t / second * second).
Proof.
  unfold rfc3339_range, format_rfc3339. set (secs := t / second).
  pose proof (civil_of_days_spec (secs / 86400)) as Hc.
  destruct (civil_of_days (secs / 86400)) as [[y m] d]. intros Hy.
  destruct Hc as (Hm & Hd & Hdays).
  pose proof (Z.mod_pos_bound secs 86400 ltac:(lia)) as Hs.
  pose proof (Z.div_mod secs 86400 ltac:(lia)) as Hsecs.
  set (s := secs `mod` 86400) in *.
  assert (0 <= s / 3600 < 24) by (split; [apply Z.div_pos|apply Z.div_lt_upper_bound]; lia).
  pose proof (Z.mod_pos_bound (s / 60) 60 ltac:(lia)).
  pose proof (Z.mod_pos_bound s 60 ltac:(lia)).
  assert (days_in_month y m <= 31) by (unfold days_in_month; repeat case_match; lia).
  assert (10 ^ Z.of_nat 2 = 100 /\ 10 ^ Z.of_nat 4 = 10000) as [E2 E4] by done.
  unfold parse_rfc3339.
  rewrite !field_pad by lia.
  rewrite take_digits_pad by lia.
  change (zone "Z") with (Some 0). cbv iota.
  rewrite Hdays.
  destruct (Z.leb_spec 1 m); [|lia]. destruct (Z.leb_spec m 12); [|lia].
  destruct (Z.leb_spec 1 d); [|lia]. destruct (Z.leb_spec d (days_in_month y m)); [|lia].
  repeat (match goal with |- context [?a <? ?b] => destruct (Z.ltb_spec a b); [|lia] end).
  cbn [andb]. f_equal. f_equal.
  assert (s = 3600 * (s / 3600) + 60 * ((s / 60) `mod` 60) + s `mod` 60); [|lia].
  replace (s / 3600) with (s / 60 / 60) by (rewrite Z.div_div; [done|lia..]).
  pose proof (Z.div_mod s 60 ltac:(lia)). pose proof (Z.div_mod (s / 60) 60 ltac:(lia)). lia.
Qed.

(** ** Printing and reading back integers *)

Lemma digit_pretty (n : N) : (n < 10)%N -> digit (pretty_N_char n) = Some (Z.of_N n).
Proof.
  intros H. destruct n as [|p]; [done|]. by do 4 (try destruct p as [p|p|]; try done; try lia).
Qed.

Lemma digits_acc_pretty (n : N) (s : string) :
  digits_acc (pretty_N_go n s) 0 = digits_acc s (Z.of_N n).
Proof.
  revert s. induction (N.lt_wf_0 n) as [n _ IH]. intros s.
  destruct (decide (n = 0%N)) as [->|Hn]; [by rewrite pretty_N_go_0|].
  rewrite pretty_N_go_step by lia. rewrite IH by (apply N.div_lt; lia).
  cbn [digits_acc]. rewrite digit_pretty by (apply N.mod_lt; lia).
  f_equal. pose proof (N.div_mod n 10). lia.
Qed.

Lemma pretty_N_go_first (n : N) (s : string) :
  (0 < n)%N -> exists d s', pretty_N_go n s = String (pretty_N_char d) s' /\ (d < 10)%N.
Proof.
  revert s. induction (N.lt_wf_0 n) as [n _ IH]. intros s Hn. rewrite pretty_N_go_step by done.
  destruct (decide (n / 10 = 0)%N) as [->|Hd].
  - rewrite pretty_N_go_0. eexists _, _. split; [done|]. apply N.mod_lt. lia.
  - apply IH; [apply N.div_lt; lia|by apply N.neq_0_lt_0].
Qed.

(** Reading back a printed positive integer. *)
Lemma ParseInt_pretty (z : Z) : 0 < z < 2 ^ 63 -> ParseInt (pretty z) = Some z.
Proof.
  intros Hz. destruct z as [|p|p]; [lia| |lia].
  assert (pretty (Z.pos p) = pretty_N_go (N.pos p) "") as -> by done.
  pose proof (digits_acc_pretty (N.pos p) "") as Hd.
  destruct (pretty_N_go_first (N.pos p) "" ltac:(lia)) as (d & s & Hs & Hlt). rewrite Hs in *.
  assert (Ascii.N_of_ascii (pretty_N_char d) <> 45%N /\ Ascii.N_of_ascii (pretty_N_char d) <> 43%N) as [H1 H2].
  { clear -Hlt. destruct d as [|p']; [done|]. by do 4 (try destruct p' as [p'|p'|]; try done; try lia). }
  unfold ParseInt. apply N.eqb_neq in H1, H2. rewrite H1, H2, Hd. cbn [digits_acc].
  change (Z.of_N (N.pos p)) with (Z.pos p).
  rewrite (proj2 (Z.leb_le _ _)) by lia. by rewrite (proj2 (Z.ltb_lt _ _)) by lia.
Qed.
