(* ===== verification/GoText.v ===== *)
(** * White space and case of Go strings

    [strings.TrimSpace] on the bytes of a string: the white space of ASCII and
    the encodings of the other code points that [unicode.IsSpace] accepts;
    [strings.ToLower] on ASCII; suffixes, [strings.Cut] and
    [strings.Fields], the latter on ASCII white space; and what an HTTP client
    makes of a URL. *)
From S2P Require Import Prelude.

Definition is_space (c : Ascii.ascii) : bool :=
  let n := Ascii.N_of_ascii c in ((9 <=? n)%N && (n <=? 13)%N) || (n =? 32)%N.

(** U+0085 and U+00A0. *)
Definition is_space2 (a b : Ascii.ascii) : bool :=
  let a := Ascii.N_of_ascii a in let b := Ascii.N_of_ascii b in
  (a =? 194)%N && ((b =? 133) || (b =? 160))%N.

(** U+1680, U+2000 to U+200A, U+2028, U+2029, U+202F, U+205F and U+3000. *)
Definition is_space3 (a b c : Ascii.ascii) : bool :=
  let a := Ascii.N_of_ascii a in let b := Ascii.N_of_ascii b in let c := Ascii.N_of_ascii c in
  ((a =? 225) && (b =? 154) && (c =? 128))%N ||
  ((a =? 226) && (b =? 128) && ((128 <=? c) && (c <=? 138) || (c =? 168) || (c =? 169) || (c =? 175)))%N ||
  ((a =? 226) && (b =? 129) && (c =? 159))%N || ((a =? 227) && (b =? 128) && (c =? 128))%N.

(** Drop the encodings that the three tests accept off the front. *)
Fixpoint trim_front (one : Ascii.ascii -> bool) (two : Ascii.ascii -> Ascii.ascii -> bool)
    (three : Ascii.ascii -> Ascii.ascii -> Ascii.ascii -> bool) (s : string) : string :=
  match s with
  | EmptyString => EmptyString
  | String a s1 =>
      if one a then trim_front one two three s1
      else match s1 with
      | EmptyString => s
      | String b s2 =>
          if two a b then trim_front one two three s2
          else match s2 with
          | EmptyString => s
          | String c s3 => if three a b c then trim_front one two three s3 else s
          end
      end
  end.

Definition trim_left (s : string) : string := trim_front is_space is_space2 is_space3 s.

(** The same from the end, on the reversed string. *)
Definition trim_right (s : string) : string :=
  String.rev (trim_front is_space (fun b a => is_space2 a b) (fun c b a => is_space3 a b c) (String.rev s)).

Definition TrimSpace (s : string) : string := trim_right (trim_left s).

Definition lower (c : Ascii.ascii) : Ascii.ascii :=
  let n := Ascii.N_of_ascii c in
  if (65 <=? n)%N && (n <=? 90)%N then Ascii.ascii_of_N (n + 32) else c.

Fixpoint map_str (f : Ascii.ascii -> Ascii.ascii) (s : string) : string :=
  match s with EmptyString => EmptyString | String c s => String (f c) (map_str f s) end.

(** [strings.ToLower] of an ASCII string. *)
Definition ToLower (s : string) : string := map_str lower s.

(** The string without the run of [c] at its end:
    [strings.TrimRight(s, c)]. *)
Fixpoint trim_end (c : Ascii.ascii) (s : string) : string :=
  match s with
  | EmptyString => EmptyString
  | String a s =>
      match trim_end c s with
      | EmptyString => if Ascii.eqb a c then EmptyString else String a EmptyString
      | r => String a r
      end
  end.

(** [strings.HasSuffix] and [strings.TrimSuffix]. *)
Fixpoint has_suffix (suffix s : string) : bool :=
  bool_decide (s = suffix) || match s with EmptyString => false | String _ r => has_suffix suffix r end.

Fixpoint trim_suffix (suffix s : string) : string :=
  if decide (s = suffix) then ""
  else match s with EmptyString => "" | String c r => String c (trim_suffix suffix r) end.

(** [strings.Cut] at one character, the character at the end if missing. *)
Fixpoint cut_at (sep : Ascii.ascii) (s : string) : string * option string :=
  match s with
  | EmptyString => ("", None)
  | String c r =>
      if Ascii.eqb c sep then ("", Some r) else let '(a, b) := cut_at sep r in (String c a, b)
  end.

(** The words between white space: [strings.Fields]. *)
Fixpoint fields_from (word : string) (s : string) : list string :=
  let out := if decide (word = "") then [] else [String.rev word] in
  match s with
  | EmptyString => out
  | String c r => if is_space c then out ++ fields_from "" r else fields_from (String c word) r
  end.
Definition Fields (s : string) : list string := fields_from "" s.

(** [HasSuffixI] of [pkg/agent/util/strings.go]. *)
Definition HasSuffixI (s : string) (suffixes : list string) : bool :=
  existsb (fun suffix => has_suffix (ToLower suffix) (ToLower s)) suffixes.

(** ** Request URLs *)

(** A control character, and a hexadecimal digit. *)
Definition is_ctl (c : Ascii.ascii) : bool :=
  let n := Ascii.N_of_ascii c in (n <? 32)%N || (n =? 127)%N.
Definition is_hexdigit (c : Ascii.ascii) : bool :=
  let n := Ascii.N_of_ascii c in
  ((48 <=? n) && (n <=? 57) || (65 <=? n) && (n <=? 70) || (97 <=? n) && (n <=? 102))%N.

Definition percent : Ascii.ascii := Ascii.ascii_of_nat 37.
Definition number_sign : Ascii.ascii := Ascii.ascii_of_nat 35.

(** Every percent sign begins an escape. *)
Fixpoint escapes_ok (s : string) : bool :=
  match s with
  | EmptyString => true
  | String c r =>
      if Ascii.eqb c percent then
        match r with
        | String a (String b r) => is_hexdigit a && is_hexdigit b && escapes_ok r
        | _ => false
        end
      else escapes_ok r
  end.

(** [http.NewRequest] and [Client.Do] on a URL of which [raw], a fixed path and
    a query, is what follows the host: the target of the request line, in which
    the query is as it was given, without the fragment; [None]: an error. *)
Definition request_target (raw : string) : option string :=
  if all_chars (fun c => negb (is_ctl c)) raw then
    match cut_at number_sign raw with
    | (u, Some fragment) => if escapes_ok fragment then Some u else None
    | (u, None) => Some u
    end
  else None.

(** ** Lemmas *)

Lemma rev_app_spec (s t : string) : String.rev_app s t = String.rev s +:+ t.
Proof.
  unfold String.rev. revert t. induction s as [|c s IH]; intros t; simpl; [by rewrite append_nil_l|].
  rewrite IH, (IH (String c "")). by rewrite append_assoc, append_cons, append_nil_l.
Qed.

Lemma rev_cons (c : Ascii.ascii) (s : string) : String.rev (String c s) = String.rev s +:+ String c "".
Proof. unfold String.rev at 1. simpl. apply rev_app_spec. Qed.

Lemma rev_append (s t : string) : String.rev (s +:+ t) = String.rev t +:+ String.rev s.
Proof.
  induction s as [|c s IH]; [by rewrite append_nil_l, append_empty_r|].
  by rewrite append_cons, !rev_cons, IH, append_assoc.
Qed.

Lemma rev_rev (s : string) : String.rev (String.rev s) = s.
Proof.
  induction s as [|c s IH]; [done|]. rewrite rev_cons, rev_append, IH.
  change (String.rev (String c "")) with (String c ""). by rewrite append_cons, append_nil_l.
Qed.

(** A visible ASCII character. *)
Definition plain (c : Ascii.ascii) : bool :=
  let n := Ascii.N_of_ascii c in (n <? 128)%N && negb (is_space c).

Lemma trim_front_plain one two three (c : Ascii.ascii) (s : string) :
  one c = false -> (forall b, two c b = false) -> (forall b d, three c b d = false) ->
  trim_front one two three (String c s) = String c s.
Proof.
  intros H1 H2 H3. simpl. rewrite H1. destruct s as [|b s]; [done|]. rewrite H2.
  destruct s as [|d s]; [done|]. by rewrite H3.
Qed.

Lemma plain_lead (c : Ascii.ascii) (b d : Ascii.ascii) :
  plain c = true -> is_space c = false /\ is_space2 c b = false /\ is_space3 c b d = false /\
    is_space2 b c = false /\ is_space3 d b c = false.
Proof.
  unfold plain. intros [Hn Hs]%andb_true_iff. apply N.ltb_lt in Hn.
  split; [by apply negb_true_iff|]. unfold is_space2, is_space3.
  set (n := Ascii.N_of_ascii c) in *.
  assert (forall k, (128 <= k)%N -> (n =? k)%N = false) as Hk by (intros k Hk; apply N.eqb_neq; lia).
  rewrite !Hk by lia. assert ((128 <=? n)%N = false) as -> by (apply N.leb_gt; lia).
  simpl. by rewrite !andb_false_r.
Qed.

(** A text between visible ASCII characters is left alone. *)
Lemma TrimSpace_plain (c d : Ascii.ascii) (s r : string) :
  plain c = true -> plain d = true -> String.rev (String c s) = String d r ->
  TrimSpace (String c s) = String c s.
Proof.
  intros Hc Hd Hrev. unfold TrimSpace, trim_left.
  pose proof (fun b e => plain_lead c b e Hc) as Hpc.
  pose proof (fun b e => plain_lead d b e Hd) as Hpd.
  rewrite trim_front_plain; [|apply (Hpc c c)|intros b; apply (Hpc b b)|intros b e; apply (Hpc b e)].
  unfold trim_right. rewrite Hrev.
  rewrite trim_front_plain; [|apply (Hpd d d)|intros b; apply (Hpd b b)|intros b e; apply (Hpd b e)].
  rewrite <- Hrev. by rewrite rev_rev.
Qed.
