(* ===== verification/NetAddr.v ===== *)
(** * Hosts, ports and networks

    [net.JoinHostPort] and [net.SplitHostPort]; IP addresses and networks
    with their prefix lengths, and the tables that hold one entry per network
    and are searched by address. *)
From Stdlib Require Import ZArith Lia.
From stdpp Require Import sorting.
From S2P Require Import Prelude GoText.

#[local] Open Scope Z_scope.

(** ** Hosts and ports *)

Definition colon : Ascii.ascii := Ascii.ascii_of_nat 58.
Definition bracket_open : Ascii.ascii := Ascii.ascii_of_nat 91.
Definition bracket_close : Ascii.ascii := Ascii.ascii_of_nat 93.

(** [net.JoinHostPort] *)
Definition JoinHostPort (host port : string) : string :=
  if no_char colon host then host +:+ ":" +:+ port else "[" +:+ host +:+ "]:" +:+ port.

Definition no_bracket (s : string) : bool := no_char bracket_open s && no_char bracket_close s.

(** [net.SplitHostPort] *)
Definition SplitHostPort (hostport : string) : option (string * string) :=
  match hostport with
  | EmptyString => None
  | String c rest =>
      if Ascii.eqb c bracket_open then
        match cut_at bracket_close rest with
        | (host, Some (String d port)) =>
            if Ascii.eqb d colon && no_char colon port && no_bracket port && no_char bracket_open host then Some (host, port) else None
        | _ => None
        end
      else
        match cut_at colon hostport with
        | (host, Some port) => if no_char colon port && no_bracket port && no_bracket host then Some (host, port) else None
        | _ => None
        end
  end.

Lemma cut_at_app sep f v : no_char sep f = true -> cut_at sep (f +:+ String sep v) = (f, Some v).
Proof.
  induction f as [|c f IH]; intros H; [rewrite append_nil_l; cbn [cut_at]; by rewrite Ascii.eqb_refl|].
  rewrite append_cons. cbn [no_char cut_at] in H |- *. apply andb_true_iff in H as [Hc%negb_true_iff Hf]. by rewrite Hc, IH.
Qed.

(** A host and a port without brackets are read back. *)
Lemma split_join_host h p : no_bracket h = true -> no_bracket p = true -> no_char colon p = true ->
  SplitHostPort (JoinHostPort h p) = Some (h, p).
Proof.
  intros Hh Hp Hc. unfold JoinHostPort. destruct (no_char colon h) eqn:Eh.
  - assert (cut_at colon (h +:+ ":" +:+ p) = (h, Some p)) as E by by apply cut_at_app.
    destruct h as [|c h].
    { rewrite append_nil_l in E |- *. change (":" +:+ p) with (String colon p) in *. cbn [SplitHostPort].
      change (Ascii.eqb colon bracket_open) with false. by rewrite E, Hc, Hp. }
    rewrite append_cons in E |- *. cbn [SplitHostPort]. rewrite E, Hc, Hp, Hh.
    unfold no_bracket in Hh. cbn in Hh. destruct (Ascii.eqb c bracket_open); [done|reflexivity].
  - change ("[" +:+ h +:+ "]:" +:+ p) with (String bracket_open (h +:+ String bracket_close (":" +:+ p))). cbn [SplitHostPort].
    rewrite Ascii.eqb_refl, cut_at_app by by apply andb_true_iff in Hh as [_ ?].
    change (":" +:+ p) with (String colon p). cbv beta iota. change (Ascii.eqb colon colon) with true. rewrite Hc, Hp. by apply andb_true_iff in Hh as [-> _].
Qed.

(** ** Addresses and networks *)

Inductive IP : Type := IP4 (a : Z) | IP6 (a : Z).
#[export] Instance IP_eq_dec : EqDecision IP.
Proof. solve_decision. Defined.
#[export] Instance IP_countable : Countable IP.
Proof.
  refine (inj_countable' (fun i => match i with IP4 a => inl a | IP6 a => inr a end)
    (fun s => match s with inl a => IP4 a | inr a => IP6 a end) _). by intros [].
Defined.

Definition width (i : IP) : Z := match i with IP4 _ => 32 | IP6 _ => 128 end.

(** The networks of an address: its first [len] bits. *)
Record IPNet := mkIPNet { n_IP : IP; n_len : nat }.
#[export] Instance IPNet_eq_dec : EqDecision IPNet.
Proof. solve_decision. Defined.
#[export] Instance IPNet_countable : Countable IPNet.
Proof. refine (inj_countable' (fun n => (n_IP n, n_len n)) (fun x => mkIPNet (fst x) (snd x)) _). by intros []. Defined.

Definition prefix_bits (len : nat) (i : IP) : IP :=
  match i with
  | IP4 a => IP4 (Z.shiftr a (32 - Z.of_nat len))
  | IP6 a => IP6 (Z.shiftr a (128 - Z.of_nat len))
  end.
Definition net_contains (n : IPNet) (i : IP) : bool := bool_decide (prefix_bits (n_len n) (n_IP n) = prefix_bits (n_len n) i).

(** The network of one address. *)
Definition host_net (i : IP) : IPNet := mkIPNet i (Z.to_nat (width i)).

Lemma host_net_contains i j : net_contains (host_net i) j = true <-> i = j.
Proof.
  unfold net_contains. rewrite bool_decide_eq_true. split; [|by intros ->].
  unfold host_net, prefix_bits, width. cbn [n_len n_IP].
  destruct i as [a|a], j as [b|b]; try done; rewrite Z2Nat.id by lia;
    rewrite Z.sub_diag, ?Z.shiftr_0_r; by try intros [= ->].
Qed.

(** The texts of addresses: [net.ParseIP], [net.ParseCIDR] and [String]; an
    IPv4 address is written in its own form. *)
Class IPText := mkIPText {
  ParseIP : string -> option IP;
  ParseCIDR : string -> option IPNet;
  ip_String : IP -> string;
  ip_String_parse : forall i, ParseIP (ip_String i) = Some i;
  ip_String_cidr : forall i,
    ParseCIDR (ip_String i +:+ (if contains (ip_String i) ":" then "/128" else "/32")) = Some (host_net i);
  ip_String_plain : forall i, no_bracket (ip_String i) = true;
  full_mask : forall s n, ParseCIDR (s +:+ (if contains s ":" then "/128" else "/32")) = Some n -> exists i, n = host_net i;
}.

(** [IPStringToIPNet] and [IPToIPNet] *)
Definition IPStringToIPNet `{IPText} (address : string) : option IPNet :=
  ParseCIDR (address +:+ (if contains address ":" then "/128" else "/32")).
Definition IPToIPNet `{IPText} (ip : IP) : option IPNet := IPStringToIPNet (ip_String ip).

Lemma IPStringToIPNet_host `{IPText} s n : IPStringToIPNet s = Some n -> n = host_net (n_IP n).
Proof. intros [i ->]%full_mask. done. Qed.

Lemma IPToIPNet_host `{IPText} i : IPToIPNet i = Some (host_net i).
Proof. apply ip_String_cidr. Qed.

(** ** Tables of networks *)

(** One entry per network; a search gives the entries of the networks that
    contain an address, shortest prefix first. *)
Class Ranger (R : Type -> Type) := mkRanger {
  r_empty : forall E, R E;
  r_Insert : forall E, IPNet -> E -> R E -> R E;
  r_Remove : forall E, IPNet -> R E -> R E;
  r_ContainingNetworks : forall E, IP -> R E -> list E;
  r_view : forall E, R E -> gmap IPNet E;
  r_view_empty : forall E, r_view E (r_empty E) = ∅;
  r_view_Insert : forall E n e r, r_view E (r_Insert E n e r) = <[n := e]> (r_view E r);
  r_view_Remove : forall E n r, r_view E (r_Remove E n r) = delete n (r_view E r);
  r_Containing : forall E i r, exists l : list (IPNet * E),
    (forall n e, (n, e) ∈ l <-> r_view E r !! n = Some e /\ net_contains n i = true) /\
    Sorted.StronglySorted (fun x y => n_len x.1 <= n_len y.1)%nat l /\ r_ContainingNetworks E i r = l.*2;
}.
Arguments r_empty {R _ E}.
Arguments r_Insert {R _ E} n e r.
Arguments r_Remove {R _ E} n r.
Arguments r_ContainingNetworks {R _ E} i r.
Arguments r_view {R _ E} r.
Arguments r_Containing {R _ E} i r.

Section ranger.
Context `{RG : Ranger R} {E : Type}.
Implicit Types (r : R E) (i : IP).

(** The first entry found belongs to a shortest network around the address. *)
Lemma first_Some r i e : head (r_ContainingNetworks i r) = Some e ->
  exists n, r_view r !! n = Some e /\ net_contains n i = true /\
    forall n' e', r_view r !! n' = Some e' -> net_contains n' i = true -> (n_len n <= n_len n')%nat.
Proof.
  destruct (r_Containing i r) as (l & Hl & Hs & ->). destruct l as [|[n e0] l]; [done|]. intros [= ->].
  exists n. destruct (Hl n e) as [Hn _]. destruct Hn as [Hv Hc]; [by left|]. split_and!; [done|done|].
  intros n' e' Hv' Hc'. apply Sorted.StronglySorted_inv in Hs as [_ Hs]. rewrite Forall_forall in Hs.
  assert ((n', e') ∈ (n, e) :: l) as Hin by by apply Hl. apply elem_of_cons in Hin as [[= -> ->]|Hin]; [lia|]. by apply (Hs (n', e')).
Qed.

Lemma first_None r i : head (r_ContainingNetworks i r) = None <-> forall n e, r_view r !! n = Some e -> net_contains n i = false.
Proof.
  destruct (r_Containing i r) as (l & Hl & _ & ->). destruct l as [|[n e] l]; cbn.
  - split; [|done]. intros _ n e Hv. apply not_true_is_false. intros Hc.
    apply (elem_of_nil (n, e)), Hl. by split.
  - split; [done|]. intros H. destruct (Hl n e) as [[Hv Hc] _]; [by left|]. by rewrite (H n e Hv) in Hc.
Qed.

(** In a table of single addresses the entry of the address is found. *)
Lemma first_host r i : (forall n, is_Some (r_view r !! n) -> exists j, n = host_net j) ->
  head (r_ContainingNetworks i r) = r_view r !! host_net i.
Proof.
  intros Hh. destruct (head _) as [e|] eqn:Eh.
  - apply first_Some in Eh as (n & Hv & Hc & _). destruct (Hh n) as [j ->]; [by exists e|].
    apply host_net_contains in Hc as ->. done.
  - destruct (r_view r !! host_net i) as [e|] eqn:Ev; [|done].
    pose proof (proj1 (first_None r i) Eh (host_net i) e Ev) as Hc. by rewrite (proj2 (host_net_contains i i) eq_refl) in Hc.
Qed.
End ranger.

(** An instance: a map that is searched whole. *)
Section map_ranger.
Definition by_len {E} (x y : IPNet * E) : Prop := (n_len x.1 <= n_len y.1)%nat.
#[local] Instance by_len_dec {E} : RelDecision (@by_len E).
Proof. intros x y. unfold by_len. apply _. Defined.
#[local] Instance by_len_total {E} : Total (@by_len E).
Proof. intros x y. unfold by_len. lia. Qed.
#[local] Instance by_len_trans {E} : Transitive (@by_len E).
Proof. intros x y z. unfold by_len. lia. Qed.

Definition map_containing {E} (i : IP) (m : gmap IPNet E) : list (IPNet * E) :=
  merge_sort by_len (filter (fun x => net_contains x.1 i = true) (map_to_list m)).

Definition map_ranger : Ranger (gmap IPNet).
Proof.
  refine (mkRanger (gmap IPNet) (fun E => ∅) (fun E n e r => <[n := e]> r) (fun E n r => delete n r)
    (fun E i r => (map_containing i r).*2) (fun E r => r) _ _ _ _); [done..|].
  intros E i r. exists (map_containing i r). split_and!; [|by apply StronglySorted_merge_sort; apply _|done].
  intros n e. unfold map_containing. rewrite (merge_sort_Permutation by_len), list_elem_of_filter, elem_of_map_to_list. naive_solver.
Defined.
End map_ranger.
