(* ===== verification/LoadBalancer.v ===== *)
(** * The client load balancer of an agent

    [pkg/agent/loadbalancer] ([loadbalancer.go], [servers.go], [config.go],
    [utility.go]): a local listener that forwards connections to one of the
    servers of the cluster and moves on to the next one when a dial or a
    health check fails.  Dials hold a read lock only, so they run beside each
    other and share the current address and the next index without a lock: a
    dial is a tree of effects.  The calls that take the write lock are
    functions of the state. *)
From S2P Require Import Prelude Prog GoText.
From Stdlib Require Import ZArith Lia.

(** ** The state *)

(** A health check: the two built-in functions, or a callback set later. *)
Inductive healthCheck := AlwaysHealthy | NeverHealthy | Callback (n : nat).

#[export] Instance healthCheck_eq_dec : EqDecision healthCheck.
Proof. solve_decision. Defined.

(** Connections are numbered. *)
Record server := mkServer {
  sv_address : string; sv_healthCheck : healthCheck; sv_wasHealthy : bool; sv_connections : gset nat;
}.

(** [lb_servers] holds pointers into [lb_heap]: a server that was taken from
    the map lives on while it has connections.  [lb_closing] are the
    connections for which [closeAll] has started a goroutine that closes
    them. *)
Record LoadBalancer := mkLoadBalancer {
  lb_ServerURL : string;
  lb_defaultServerAddress : string;
  lb_ServerAddresses : list string;
  lb_randomServers : list string;
  lb_servers : gmap string nat;
  lb_currentServerAddress : string;
  lb_nextServerIndex : nat;
  lb_heap : gmap nat server;
  lb_conns : nat;
  lb_closing : gset nat;
}.

Definition with_servers (m : gmap string nat) (lb : LoadBalancer) : LoadBalancer :=
  mkLoadBalancer (lb_ServerURL lb) (lb_defaultServerAddress lb) (lb_ServerAddresses lb) (lb_randomServers lb)
    m (lb_currentServerAddress lb) (lb_nextServerIndex lb) (lb_heap lb) (lb_conns lb) (lb_closing lb).
Definition with_heap (h : gmap nat server) (lb : LoadBalancer) : LoadBalancer :=
  mkLoadBalancer (lb_ServerURL lb) (lb_defaultServerAddress lb) (lb_ServerAddresses lb) (lb_randomServers lb)
    (lb_servers lb) (lb_currentServerAddress lb) (lb_nextServerIndex lb) h (lb_conns lb) (lb_closing lb).
Definition with_closing (c : gset nat) (lb : LoadBalancer) : LoadBalancer :=
  mkLoadBalancer (lb_ServerURL lb) (lb_defaultServerAddress lb) (lb_ServerAddresses lb) (lb_randomServers lb)
    (lb_servers lb) (lb_currentServerAddress lb) (lb_nextServerIndex lb) (lb_heap lb) (lb_conns lb) c.
Definition with_current (a : string) (i : nat) (lb : LoadBalancer) : LoadBalancer :=
  mkLoadBalancer (lb_ServerURL lb) (lb_defaultServerAddress lb) (lb_ServerAddresses lb) (lb_randomServers lb)
    (lb_servers lb) a i (lb_heap lb) (lb_conns lb) (lb_closing lb).
Definition with_address (a : string) (lb : LoadBalancer) : LoadBalancer := with_current a (lb_nextServerIndex lb) lb.
Definition with_index (i : nat) (lb : LoadBalancer) : LoadBalancer := with_current (lb_currentServerAddress lb) i lb.
Definition with_lists (l r : list string) (lb : LoadBalancer) : LoadBalancer :=
  mkLoadBalancer (lb_ServerURL lb) (lb_defaultServerAddress lb) l r
    (lb_servers lb) (lb_currentServerAddress lb) (lb_nextServerIndex lb) (lb_heap lb) (lb_conns lb) (lb_closing lb).
Definition with_default (a : string) (lb : LoadBalancer) : LoadBalancer :=
  mkLoadBalancer (lb_ServerURL lb) a (lb_ServerAddresses lb) (lb_randomServers lb)
    (lb_servers lb) (lb_currentServerAddress lb) (lb_nextServerIndex lb) (lb_heap lb) (lb_conns lb) (lb_closing lb).

Definition with_check (c : healthCheck) (s : server) : server :=
  mkServer (sv_address s) c (sv_wasHealthy s) (sv_connections s).
Definition with_health (b : bool) (s : server) : server :=
  mkServer (sv_address s) (sv_healthCheck s) b (sv_connections s).
Definition with_conns (c : gset nat) (s : server) : server :=
  mkServer (sv_address s) (sv_healthCheck s) (sv_wasHealthy s) c.

Definition server_at (lb : LoadBalancer) (a : string) : option (nat * server) :=
  match lb_servers lb !! a with
  | Some o => (fun s => (o, s)) <$> lb_heap lb !! o
  | None => None
  end.

(** Change a server through its pointer. *)
Definition on_server (o : nat) (f : server -> server) (lb : LoadBalancer) : LoadBalancer :=
  with_heap (alter f o (lb_heap lb)) lb.

(** A new server behind an address. *)
Definition add_server (a : string) (c : healthCheck) (was : bool) (lb : LoadBalancer) : LoadBalancer :=
  let o := fresh (dom (lb_heap lb)) in
  with_servers (<[a := o]> (lb_servers lb)) (with_heap (<[o := mkServer a c was ∅]> (lb_heap lb)) lb).

(** [closeAll] *)
Definition closeAll (o : nat) (lb : LoadBalancer) : LoadBalancer :=
  match lb_heap lb !! o with
  | Some s => with_closing (lb_closing lb ∪ sv_connections s) lb
  | None => lb
  end.

Definition close_each (l : list nat) (lb : LoadBalancer) : LoadBalancer := foldr closeAll lb l.

(** [Close] of one connection of a server. *)
Definition Close (o conn : nat) (lb : LoadBalancer) : LoadBalancer :=
  with_closing (lb_closing lb ∖ {[conn]})
    (on_server o (fun s => with_conns (sv_connections s ∖ {[conn]}) s) lb).

(** ** The server list *)

(** [sortServers] *)
Fixpoint dedup (skip : gset string) (l : list string) : list string :=
  match l with
  | [] => []
  | a :: l => if decide (a ∈ skip) then dedup skip l else a :: dedup ({[a]} ∪ skip) l
  end.

Definition sortServers (input : list string) (search : string) : list string * bool :=
  let result := dedup {[""]} input in (sort_strings result, bool_decide (search ∈ result)).

(** [rand.Shuffle] *)
Class Shuffle := mkShuffle {
  shuffle : list string -> list string;
  shuffle_perm : forall l, shuffle l ≡ₚ l;
}.

Section servers.
Context `{RS : Shuffle}.

(** A server that leaves the list; the default server stays in the map. *)
Definition drop_server (a : string) (lb : LoadBalancer) : LoadBalancer :=
  if decide (a = lb_defaultServerAddress lb) then lb else with_servers (delete a (lb_servers lb)) lb.

(** [setServers]: whether the list has changed.  The connections of the
    servers that left are closed when the new list is in place. *)
Definition setServers (addresses : list string) (lb : LoadBalancer) : bool * LoadBalancer :=
  let '(addresses, hasDefaultServer) := sortServers addresses (lb_defaultServerAddress lb) in
  if decide (addresses = []) then (false, lb)
  else
    let current := lb_ServerAddresses lb in
    if decide (list_to_set addresses =@{gset string} list_to_set current) then (false, lb)
    else
      let added := filter (.∉ current) addresses in
      let removed := filter (.∉ addresses) current in
      let lb := foldl (fun lb a => add_server a AlwaysHealthy true lb) lb added in
      let closing := omap (fun a => lb_servers lb !! a) removed in
      let lb := foldl (fun lb a => drop_server a lb) lb removed in
      let random := shuffle addresses in
      let d := lb_defaultServerAddress lb in
      let lb := with_lists addresses (if hasDefaultServer then random else random ++ [d]) lb in
      let lb := match (if hasDefaultServer then None else lb_servers lb !! d) with
                | Some o => on_server o (with_check NeverHealthy) lb
                | None => lb
                end in
      (true, close_each closing (with_current (default "" (lb_randomServers lb !! 0%nat)) 1 lb)).

(** [SetDefault] *)
Definition SetDefault (a : string) (lb : LoadBalancer) : LoadBalancer :=
  let d := lb_defaultServerAddress lb in
  let '(closing, lb) :=
    match lb_servers lb !! d with
    | Some o => if decide (d ∈ lb_ServerAddresses lb) then ([], lb) else ([o], with_servers (delete d (lb_servers lb)) lb)
    | None => ([], lb)
    end in
  let lb := match lb_servers lb !! a with
            | Some _ => lb
            | None => add_server a NeverHealthy false lb
            end in
  close_each closing (with_default a lb).

(** [SetHealthCheck] *)
Definition SetHealthCheck (a : string) (check : healthCheck) (lb : LoadBalancer) : LoadBalancer :=
  match lb_servers lb !! a with
  | Some o => on_server o (fun s => with_health true (with_check check s)) lb
  | None => lb
  end.

(** ** The stored list *)

(** What is written to the state file: the exported fields. *)
Definition stored (lb : LoadBalancer) : string * list string := (lb_ServerURL lb, lb_ServerAddresses lb).

(** [updateConfig], given the file's content when it could be read and
    decoded: whether the file is written, and the state. *)
Definition updateConfig (file : option (string * list string)) (lb : LoadBalancer) : bool * LoadBalancer :=
  match file with
  | Some (url, addresses) =>
      if decide (url = lb_ServerURL lb) then (false, snd (setServers addresses lb)) else (true, lb)
  | None => (true, lb)
  end.

(** [Update]: the new state, and what is written to the file. *)
Definition Update (addresses : list string) (lb : LoadBalancer) : LoadBalancer * option (string * list string) :=
  let '(changed, lb) := setServers addresses lb in (lb, if changed then Some (stored lb) else None).
End servers.

(** [url.Parse]: the host with its port, the port and the scheme of a URL,
    and the URL with another host. *)
Record URL := mkURL { url_Scheme : string; url_Host : string; url_Port : string }.

Class UrlParser := mkUrlParser {
  url_parse : string -> option URL;
  url_with_host : string -> string -> string;
}.

(** [parseURL] *)
Definition parseURL `{UrlParser} (serverURL newHost : string) : res (string * string) :=
  match url_parse serverURL with
  | None => Err (Plain "parse")
  | Some u =>
      if decide (url_Host u = "") then Err (Plain "Initial server URL host is not defined for load balancer")
      else
        let scheme := ToLower (url_Scheme u) in
        let address :=
          if decide (url_Port u = "") then
            if decide (scheme = "http") then url_Host u +:+ ":80"
            else if decide (scheme = "https") then url_Host u +:+ ":443" else url_Host u
          else url_Host u in
        Ok (address, url_with_host serverURL newHost)
  end.

(** [New], from the address the listener was given and the content of the
    state file: the load balancer, its local URL, and whether the file is
    written. *)
Definition New `{UrlParser, Shuffle} (serverURL localAddress : string) (file : option (string * list string))
    : res (LoadBalancer * string * bool) :=
  match parseURL serverURL localAddress with
  | Err e => Err e
  | Ok (address, localServerURL) =>
      let d := if decide (serverURL = localServerURL) then "" else address in
      let lb := mkLoadBalancer serverURL d [] [] ∅ "" 0 ∅ 0 ∅ in
      let '(write, lb) := updateConfig file (snd (setServers [d] lb)) in
      Ok (lb, localServerURL, write)
  end.

(** ** Dialing *)

(** A step on the shared state, the answer of a health check, an attempt to
    connect, and whether the caller's context has ended. *)
Inductive lbE : Type -> Type :=
  | Lb {X} (f : LoadBalancer -> X * LoadBalancer) : lbE X
  | Healthy (c : healthCheck) : lbE bool
  | Dial (address : string) : lbE bool
  | Cancelled : lbE bool.

Abbreviation lbP := (prog lbE).

Definition read {X} (f : LoadBalancer -> X) : lbP X := call (Lb (fun lb => (f lb, lb))).
Definition write (f : LoadBalancer -> LoadBalancer) : lbP unit := call (Lb (fun lb => (tt, f lb))).

(** [nextServer]: the current address and the index are read one after the
    other, and written back one after the other; the list does not change
    while the read lock is held. *)
Definition nextServer (failedServer : string) : lbP (res string) :=
  do current <- read lb_currentServerAddress;
  do next <- read lb_nextServerIndex;
  do random <- read lb_randomServers;
  match random with
  | [] => Ret (Err (Plain "No servers in load balancer proxy list"))
  | [_] => Ret (Ok current)
  | _ =>
      if decide (failedServer <> current) then Ret (Ok current)
      else
        let next := if (length random <=? next)%nat then 0%nat else next in
        match random !! next with
        | None => Panic "index out of range"
        | Some current => do! write (with_address current); do! write (with_index (S next)); Ret (Ok current)
        end
  end.

(** A new connection of a server: [dialContext] of [server]. *)
Definition connect (o : nat) (lb : LoadBalancer) : nat * LoadBalancer :=
  let c := lb_conns lb in
  (c, mkLoadBalancer (lb_ServerURL lb) (lb_defaultServerAddress lb) (lb_ServerAddresses lb) (lb_randomServers lb)
        (lb_servers lb) (lb_currentServerAddress lb) (lb_nextServerIndex lb)
        (alter (fun s => with_conns ({[c]} ∪ sv_connections s) s) o (lb_heap lb)) (S c) (lb_closing lb)).

(** One attempt: the connection, or the server to close on return. *)
Definition attempt (target : string) (allChecksFailed : bool) : lbP (option nat * list nat) :=
  do s <- read (fun lb => server_at lb target);
  match s with
  | None => Ret (None, [])
  | Some (o, s) =>
      if decide (target = "") then Ret (None, [])
      else
        do usable <- (if allChecksFailed then Ret true else call (Healthy (sv_healthCheck s)));
        if usable : bool then
          do up <- call (Dial target);
          if up : bool then do c <- call (Lb (connect o)); Ret (Some c, [])
          else Ret (None, if allChecksFailed then [] else [o])
        else Ret (None, [])
  end.

(** The loop of [dialContext], [None] when the fuel runs out: the address and
    the connection, and the servers to close on return. *)
Fixpoint dialLoop (fuel : nat) (startIndex : nat) (allChecksFailed : bool) (closing : list nat)
    : lbP (option (res (string * nat)) * list nat) :=
  match fuel with
  | O => Ret (None, closing)
  | S fuel =>
      do target <- read lb_currentServerAddress;
      do a <- attempt target allChecksFailed;
      let '(conn, failed) := a in
      let closing := failed ++ closing in
      match conn with
      | Some c => Ret (Some (Ok (target, c)), closing)
      | None =>
          do n <- nextServer target;
          match n with
          | Err e => Ret (Some (Err e), closing)
          | Ok _ =>
              do cancelled <- call Cancelled;
              if cancelled : bool then Ret (Some (Err (Plain "context canceled")), closing)
              else
                do maxIndex <- read (fun lb => length (lb_randomServers lb));
                let startIndex := if (maxIndex <? startIndex)%nat then maxIndex else startIndex in
                do next <- read lb_nextServerIndex;
                if (next =? startIndex)%nat then
                  if allChecksFailed then Ret (Some (Err (Plain "all servers failed")), closing)
                  else dialLoop fuel startIndex true closing
                else dialLoop fuel startIndex allChecksFailed closing
          end
      end
  end.

Definition dialContext (fuel : nat) : lbP (option (res (string * nat))) :=
  do startIndex <- read lb_nextServerIndex;
  do r <- dialLoop fuel startIndex false [];
  do! write (close_each (snd r));
  Ret (fst r).

(** ** Health checks *)

(** The servers of a round: whether one is healthy, and those to close. *)
Fixpoint check_servers (l : list (string * nat)) : lbP (bool * list nat) :=
  match l with
  | [] => Ret (false, [])
  | (_, o) :: l =>
      do s <- read (fun lb => lb_heap lb !! o);
      match s with
      | None => Panic "nil pointer"
      | Some s =>
          do status <- call (Healthy (sv_healthCheck s));
          do! write (on_server o (with_health status));
          do rest <- check_servers l;
          Ret (status || rest.1, if negb status && sv_wasHealthy s then rest.2 ++ [o] else rest.2)
      end
  end.

(** One round of [runHealthChecks], the servers in the order [range] gives
    them. *)
Definition healthRound (order : list (string * nat)) : lbP unit :=
  do r <- check_servers order;
  do d <- read (fun lb =>
    if decide (lb_defaultServerAddress lb ∈ lb_ServerAddresses lb) then None else lb_servers lb !! lb_defaultServerAddress lb);
  write (close_each (match d with Some o => if r.1 : bool then o :: r.2 else r.2 | None => r.2 end)).
