(* ===== verification/Failover.v ===== *)
(** * Failover of the client load balancer

    Theorems about [LoadBalancer]: the state stays well formed in every
    interleaving of dials; a dial that runs alone ends, and finds a server
    that answers if there is one, healthy ones first; a round of health checks
    closes exactly the connections it should. *)
From S2P Require Import Prelude Prog LoadBalancer.
From Stdlib Require Import ZArith Lia.

(** ** Environments of a dial *)

(** Health checks, connection attempts and cancellation answer as the
    relations allow; nobody else touches the state. *)
Definition answers (H : healthCheck -> bool -> Prop) (U : string -> bool -> Prop) (K : bool -> Prop)
    : contract lbE LoadBalancer := fun X e =>
  match e in lbE X return LoadBalancer -> X -> LoadBalancer -> Prop with
  | Lb f => fun v x v' => x = fst (f v) /\ v' = snd (f v)
  | Healthy c => fun v x v' => H c x /\ v' = v
  | Dial a => fun v x v' => U a x /\ v' = v
  | Cancelled => fun v x v' => K x /\ v' = v
  end.

(** The answer of a check when the callbacks answer [healthy]. *)
Definition check_of (healthy : nat -> bool) (c : healthCheck) : bool :=
  match c with AlwaysHealthy => true | NeverHealthy => false | Callback n => healthy n end.

(** Callbacks and servers answer the same throughout, and the caller waits. *)
Definition steady (healthy : nat -> bool) (up : string -> bool) : contract lbE LoadBalancer :=
  answers (fun c x => x = check_of healthy c) (fun a x => x = up a) (fun x => x = false).

(** The executable environment that answers so. *)
Definition steady_handler (healthy : nat -> bool) (up : string -> bool) : handler lbE LoadBalancer := fun X e =>
  match e in lbE X return LoadBalancer -> X * LoadBalancer with
  | Lb f => f
  | Healthy c => fun v => (check_of healthy c, v)
  | Dial a => fun v => (up a, v)
  | Cancelled => fun v => (false, v)
  end.


(** ** Well-formed states *)

(** Each entry of the map points to a live server of its address. *)
Definition servers_ok (lb : LoadBalancer) : Prop :=
  forall a o, lb_servers lb !! a = Some o -> exists s, lb_heap lb !! o = Some s /\ sv_address s = a.

(** The current address is one of the list, and the next index is that behind
    one of its places; not that of the current address, when two dials have
    stored theirs side by side. *)
Definition in_list (lb : LoadBalancer) : Prop :=
  lb_currentServerAddress lb ∈ lb_randomServers lb /\
  (1 <= lb_nextServerIndex lb <= length (lb_randomServers lb))%nat.

Record lb_wf (lb : LoadBalancer) : Prop := mk_wf {
  wf_servers : servers_ok lb;
  wf_addresses : NoDup (lb_ServerAddresses lb) /\ "" ∉ lb_ServerAddresses lb;
  wf_listed : forall a, a ∈ lb_ServerAddresses lb -> is_Some (lb_servers lb !! a);
  wf_random : NoDup (lb_randomServers lb) /\ exists tail, lb_randomServers lb ≡ₚ lb_ServerAddresses lb ++ tail;
  wf_current : lb_randomServers lb <> [] -> in_list lb;
}.

(** ** The order of a dial *)

Definition at_place (lb : LoadBalancer) (p : nat) : LoadBalancer :=
  with_current (default "" (lb_randomServers lb !! p)) (S p) lb.

(** The servers from the one before the next index on. *)
Definition dial_order (lb : LoadBalancer) : list string :=
  rotate (lb_nextServerIndex lb - 1) (lb_randomServers lb).

(** The same in the first pass, which begins with the current server. *)
Definition first_order (lb : LoadBalancer) : list string := lb_currentServerAddress lb :: tail (dial_order lb).

Section attempts.
Context (H : healthCheck -> bool -> Prop) (U : string -> bool -> Prop) (K : bool -> Prop).
#[local] Notation C := (answers H U K).

(** A server may have failed an attempt, or taken it. *)
Definition may_fail (lb : LoadBalancer) (allChecksFailed : bool) (a : string) : Prop :=
  a = "" \/ server_at lb a = None \/
  exists o s, server_at lb a = Some (o, s) /\
    ((allChecksFailed = false /\ H (sv_healthCheck s) false) \/ U a false).

Definition may_work (lb : LoadBalancer) (allChecksFailed : bool) (a : string) : Prop :=
  a <> "" /\ exists o s, server_at lb a = Some (o, s) /\ U a true /\
    (allChecksFailed = false -> H (sv_healthCheck s) true).

(** The connection is one of the server's, which is the current one. *)
Definition connected (v : LoadBalancer) (a : string) (c : nat) : Prop :=
  lb_currentServerAddress v = a /\ exists o s, server_at v a = Some (o, s) /\ c ∈ sv_connections s.

(** What a dial may come to, from the servers it has left to try in this
    pass. *)
Inductive verdict (lb : LoadBalancer) : bool -> list string -> res (string * nat) -> LoadBalancer -> Prop :=
  | v_connected b a l c v : may_work lb b a -> connected v a c -> verdict lb b (a :: l) (Ok (a, c)) v
  | v_next b a l r v : may_fail lb b a -> verdict lb b l r v -> verdict lb b (a :: l) r v
  | v_again r v : verdict lb true (dial_order lb) r v -> verdict lb false [] r v
  | v_failed v : verdict lb true [] (Err (Plain "all servers failed")) v
  | v_cancelled b a l v : K true -> may_fail lb b a -> verdict lb b (a :: l) (Err (Plain "context canceled")) v.

Lemma server_at_place lb p a : server_at (at_place lb p) a = server_at lb a.
Proof. done. Qed.

Lemma attempt_wp v a b :
  wp C (attempt a b) (fun o v' => exists conn failed, o = Done (conn, failed) /\
    match conn with
    | None => v' = v /\ may_fail v b a
    | Some c => may_work v b a /\ exists o s, server_at v a = Some (o, s) /\ (c, v') = connect o v
    end) v.
Proof.
  match goal with |- wp _ _ ?Q _ => set (Q0 := Q) end.
  assert (Hnone : forall failed, may_fail v b a -> Q0 (Done (None, failed)) v) by (intros failed Hf; by exists None, failed).
  assert (Hsome : forall o s, server_at v a = Some (o, s) -> may_work v b a ->
    Q0 (Done (Some (lb_conns v), [])) (snd (connect o v))).
  { intros o s Hs Hw. exists (Some (lb_conns v)), []. split; [done|]. split; [done|]. by exists o, s. }
  clearbody Q0. unfold attempt, read. apply wp_call. intros x v1 [-> ->]. cbn [fst snd].
  destruct (server_at v a) as [[o s]|] eqn:E; [|apply Hnone; by right; left].
  destruct (decide (a = "")) as [->|Ha]; [apply Hnone; by left|].
  assert (Hgo : forall u : bool, (b = false -> H (sv_healthCheck s) u) -> (b = true -> u = true) ->
    wp C (if u then do up <- call (Dial a); if up : bool then do c <- call (Lb (connect o)); Ret (Some c, [])
          else Ret (None, if b then [] else [o]) else Ret (None, [])) Q0 v).
  { intros [] Hu Hb.
    - apply wp_call. intros up v1 [Hup ->]. destruct up.
      + apply wp_call. intros c v1 [-> ->]. apply (Hsome o s); [done|].
        split; [done|]. exists o, s. auto.
      + apply Hnone. right. right. exists o, s. auto.
    - apply Hnone. right. right. exists o, s. split; [done|].
      destruct b; [by specialize (Hb eq_refl)|]. left. auto. }
  destruct b; [by apply (wp_ret_bind C true), (Hgo true)|].
  apply wp_call. intros u v1 [Hu ->]. by apply Hgo.
Qed.

(** *** Moving on *)

Lemma nextServer_wp v p cur :
  (p < length (lb_randomServers v))%nat -> cur ∈ lb_randomServers v ->
  wp C (nextServer cur) (fun o v' => (exists a, o = Done (Ok a)) /\
    v' = at_place v (S p `mod` length (lb_randomServers v))) (with_current cur (S p) v).
Proof.
  intros Hp Hcur. unfold nextServer, read, write. do 3 (apply wp_call; intros x v1 [-> ->]). cbn [fst snd].
  change (lb_randomServers (with_current cur (S p) v)) with (lb_randomServers v).
  change (lb_currentServerAddress (with_current cur (S p) v)) with cur.
  change (lb_nextServerIndex (with_current cur (S p) v)) with (S p).
  destruct (lb_randomServers v) as [|a [|a' l]] eqn:E; [simpl in Hp; lia| |].
  - simpl in Hp. replace p with 0%nat by lia. apply list_elem_of_singleton in Hcur as ->. apply wp_ret. split; [by eexists|].
    unfold at_place. by rewrite E.
  - cbn iota beta. rewrite <-E in Hp |- *. clear a' l E Hcur. clear a. rewrite decide_False by tauto.
    assert (Hn : (if (length (lb_randomServers v) <=? S p)%nat then 0%nat else S p) = (S p `mod` length (lb_randomServers v))%nat).
    { destruct (Nat.leb_spec (length (lb_randomServers v)) (S p)).
      - replace (S p) with (length (lb_randomServers v)) by lia. by rewrite Nat.Div0.mod_same.
      - by rewrite Nat.mod_small by lia. }
    rewrite Hn. assert (Hlt : ((S p `mod` length (lb_randomServers v))%nat < length (lb_randomServers v))%nat)
      by (apply Nat.mod_upper_bound; lia).
    apply lookup_lt_is_Some in Hlt as [b Hb]. rewrite Hb.
    do 2 (apply wp_call; intros x v1 [-> ->]). split; [by eexists|].
    unfold at_place. by rewrite Hb.
Qed.

(** *** The loop *)

Lemma order_at v s k a :
  (k < length (lb_randomServers v))%nat ->
  lb_randomServers v !! ((s + k) `mod` length (lb_randomServers v))%nat = Some a ->
  drop k (rotate s (lb_randomServers v)) = a :: drop (S k) (rotate s (lb_randomServers v)).
Proof.
  intros Hk Ha. apply drop_S. rewrite lookup_rotate_r by done.
  rewrite <-Ha. f_equal. unfold rotate_nat_add. rewrite Z2Nat.inj_mod, Z2Nat.inj_add, !Nat2Z.id by lia. done.
Qed.

Lemma come_round s k n : (s < n)%nat -> (k < n)%nat ->
  ((s + S k) `mod` n =? s)%nat = (S k =? n)%nat.
Proof.
  intros Hs Hk. destruct (Nat.eqb_spec (S k) n) as [->|Hne].
  - apply Nat.eqb_eq. replace (s + n)%nat with (s + 1 * n)%nat by lia.
    by rewrite Nat.Div0.mod_add, Nat.mod_small.
  - apply Nat.eqb_neq. destruct (le_lt_dec n (s + S k)).
    + assert ((s + S k - n)%nat = (s + S k) `mod` n)%nat as <- by (apply (Nat.mod_unique _ _ 1); lia). lia.
    + rewrite Nat.mod_small; lia.
Qed.

Lemma dialLoop_wp v s fuel k (b : bool) closing cur :
  let n := length (lb_randomServers v) in
  (s < n)%nat -> (k < n)%nat -> cur ∈ lb_randomServers v -> (n - k + (if b then 0 else n) <= fuel)%nat ->
  wp C (dialLoop fuel (S s) b closing) (fun o v' => exists r cl, o = Done (Some r, cl) /\
    verdict (at_place v s) b (cur :: drop (S k) (rotate s (lb_randomServers v))) r v') (with_current cur (S ((s + k) `mod` n)) v).
Proof.
  intros n Hs. revert k b closing cur. induction fuel as [|fuel IH]; intros k b closing cur Hk Hcur Hf; [lia|].
  assert (Hp : ((s + k) `mod` n < n)%nat) by (apply Nat.mod_upper_bound; lia).
  cbn [dialLoop]. apply wp_call. intros x v1 [-> ->]. cbn [fst snd].
  change (lb_currentServerAddress (with_current cur _ v)) with cur.
  apply wp_bind. eapply wp_mono; [|apply attempt_wp].
  intros o v1 (conn & failed & -> & Hc). destruct conn as [c|].
  { destruct Hc as (Hw & o & sv & Hs' & Heq). injection Heq as -> ->. apply wp_ret. do 2 eexists. split; [done|].
    constructor; [exact Hw|]. split; [done|].
    revert Hs'. unfold server_at. simpl. destruct (lb_servers v !! cur) as [o'|]; [|done].
    destruct (lb_heap v !! o') as [sv'|] eqn:Eh; [|done]. intros [= -> ->].
    rewrite lookup_alter_eq, Eh. do 2 eexists. split; [done|]. simpl. set_solver. }
  destruct Hc as [-> Hfail]. apply wp_bind. eapply wp_mono; [|by apply nextServer_wp].
  intros o v1 [[a' ->] ->]. cbn beta iota. fold n.
  replace (S ((s + k) `mod` n) `mod` n)%nat with ((s + S k) `mod` n)%nat.
  2:{ rewrite <-(Nat.add_1_r ((s + k) `mod` n)), Nat.Div0.add_mod_idemp_l. f_equal. lia. }
  apply wp_call. intros cancelled v1 [HK ->]. destruct cancelled.
  { apply wp_ret. do 2 eexists. split; [done|]. by constructor. }
  do 2 (apply wp_call; intros x v1 [-> ->]). cbn [fst snd].
  change (lb_nextServerIndex _) with (S ((s + S k) `mod` n)). change (length (lb_randomServers _)) with n.
  destruct (Nat.ltb_spec n (S s)); [lia|]. change (S ?x =? S ?y)%nat with (x =? y)%nat.
  rewrite come_round by done.
  assert (Hq : ((s + S k) `mod` n < n)%nat) by (apply Nat.mod_upper_bound; lia).
  destruct (lookup_lt_is_Some_2 _ _ Hq) as [a Ha]. unfold at_place at 2. rewrite Ha. change (default "" (Some a)) with a.
  destruct (Nat.eqb_spec (S k) n) as [He|Hne].
  - rewrite (drop_ge (rotate s _) (S k)) by (rewrite length_rotate; fold n; lia).
    destruct b.
    + apply wp_ret. do 2 eexists. split; [done|]. apply v_next; [exact Hfail|constructor].
    + assert (((s + S k) `mod` n)%nat = ((s + 0) `mod` n)%nat) as E0.
      { rewrite He. replace (s + n)%nat with (s + 0 + 1 * n)%nat by lia. by rewrite Nat.Div0.mod_add. }
      rewrite E0 in Ha |- *.
      eapply wp_mono; [|apply IH; [lia|by eapply list_elem_of_lookup_2|lia]]. intros o v1 (r & cl & -> & Hv). do 2 eexists. split; [done|].
      apply v_next; [exact Hfail|]. apply v_again. rewrite <-(order_at v s 0 a) in Hv by (done || lia).
      unfold dial_order. simpl. by rewrite Nat.sub_0_r.
  - eapply wp_mono; [|apply IH; [lia|by eapply list_elem_of_lookup_2|destruct b; lia]]. intros o v1 (r & cl & -> & Hv).
    do 2 eexists. split; [done|]. apply v_next; [exact Hfail|]. rewrite (order_at v s (S k) a) by (done || lia). exact Hv.
Qed.
End attempts.

(** ** A dial that runs alone *)

(** [closeAll] of servers touches nothing but the connections that are being
    closed. *)
Lemma close_each_same l lb : with_closing (lb_closing lb) (close_each l lb) = lb.
Proof.
  induction l as [|o l IH]; simpl; [by destruct lb|].
  unfold closeAll. by destruct (lb_heap (close_each l lb) !! o).
Qed.

Lemma closing_only c lb lb' : with_closing c lb' = lb ->
  lb' = with_closing (lb_closing lb') lb.
Proof. intros <-. by destruct lb'. Qed.

Lemma close_each_eq l lb : close_each l lb = with_closing (lb_closing (close_each l lb)) lb.
Proof. eapply closing_only, close_each_same. Qed.

(** A verdict looks at the servers and the place of the index only. *)
Lemma verdict_place H U K v s b l r v1 : s = (lb_nextServerIndex v - 1)%nat ->
  verdict H U K (at_place v s) b l r v1 -> verdict H U K v b l r v1.
Proof.
  intros -> Hv. remember (at_place v (lb_nextServerIndex v - 1)) as u eqn:Eu.
  induction Hv as [b a l c v1 Hw Hc|b a l r v1 Hf _ IH|r v1 _ IH|v1|b a l v1 HK Hf]; subst u.
  - by constructor.
  - apply v_next; [exact Hf|by apply IH].
  - apply v_again. replace (dial_order v) with (dial_order (at_place v (lb_nextServerIndex v - 1))); [by apply IH|].
    unfold dial_order. simpl. by rewrite Nat.sub_0_r.
  - constructor.
  - by constructor.
Qed.

Section dials.
Context (H : healthCheck -> bool -> Prop) (U : string -> bool -> Prop) (K : bool -> Prop).
#[local] Notation C := (answers H U K).

Lemma dialContext_wp v fuel :
  lb_wf v -> lb_randomServers v <> [] -> (2 * length (lb_randomServers v) <= fuel)%nat ->
  wp C (dialContext fuel) (fun o v' => exists r v1 cl, o = Done (Some r) /\
    verdict H U K v false (first_order v) r v1 /\ v' = with_closing cl v1) v.
Proof.
  intros W Hne Hf. destruct (wf_current v W Hne) as [Hcur Hi].
  set (s := (lb_nextServerIndex v - 1)%nat). assert (Hs : (s < length (lb_randomServers v))%nat) by (unfold s; lia).
  assert (lb_nextServerIndex v = S s) as Ei by (unfold s; lia).
  unfold dialContext, read, write. apply wp_call. intros x v1 [-> ->]. cbn [fst snd].
  apply wp_bind. rewrite Ei.
  pose proof (dialLoop_wp H U K v s fuel 0 false [] (lb_currentServerAddress v) Hs) as Hl.
  rewrite Nat.add_0_r, Nat.mod_small in Hl by done.
  assert (with_current (lb_currentServerAddress v) (S s) v = v) as Ev by (rewrite <-Ei; by destruct v). rewrite Ev in Hl.
  eapply wp_mono; [|apply Hl; [lia|done|simpl; lia]]. intros o v1 (r & cl & -> & Hv).
  apply wp_call. intros x v2 [-> ->]. apply wp_ret. exists r, v1, (lb_closing (close_each cl v1)).
  split; [done|]. split; [|apply close_each_eq]. unfold first_order, dial_order. fold s.
  assert (drop 1 (rotate s (lb_randomServers v)) = tail (rotate s (lb_randomServers v))) as <- by by destruct (rotate s _).
  revert Hv. apply verdict_place. by unfold s.
Qed.

(** C31. A dial that runs alone ends, from whatever state earlier dials beside
    each other have left: with [n] addresses to try, [2 n + 1] rounds of the
    loop are enough, whatever checks, attempts and the caller's context
    answer.  Dials that run beside it may keep it going for longer. *)
Theorem dial_ends v fuel :
  lb_wf v -> (2 * length (lb_randomServers v) < fuel)%nat ->
  wp C (dialContext fuel) (fun o v' => exists r, o = Done (Some r)) v.
Proof.
  intros W Hf. destruct (decide (lb_randomServers v = [])) as [E|Hne].
  2:{ eapply wp_mono; [|apply dialContext_wp; [done..|lia]]. intros o v' (r & _ & _ & -> & _). by exists r. }
  destruct fuel as [|fuel]; [lia|]. unfold dialContext, read, write. apply wp_call. intros x v1 [-> ->].
  cbn [dialLoop]. apply wp_bind. apply wp_call. intros x v1 [-> ->]. apply wp_bind.
  eapply wp_mono; [|apply attempt_wp]. intros o v1 (conn & failed & -> & Hc). destruct conn as [c|].
  { apply wp_ret. apply wp_call. intros x v2 [-> ->]. apply wp_ret. by eexists. }
  destruct Hc as [-> _]. apply wp_bind. unfold nextServer, read. apply wp_call. intros x v1 [-> ->].
  do 2 (apply wp_call; intros x v1 [-> ->]). cbn [fst snd]. rewrite E. apply wp_ret, wp_ret, wp_call. intros x v2 [-> ->]. apply wp_ret. by eexists.
Qed.
End dials.

Section steady_dials.
Context (healthy : nat -> bool) (up : string -> bool).

(** The server takes connections, and is healthy unless health is ignored. *)
Definition usable (lb : LoadBalancer) (allChecksFailed : bool) (a : string) : bool :=
  negb (bool_decide (a = "")) &&
  match server_at lb a with
  | Some (_, s) => up a && (allChecksFailed || check_of healthy (sv_healthCheck s))
  | None => false
  end.

#[local] Notation Verdict :=
  (verdict (fun c x => x = check_of healthy c) (fun a x => x = up a) (fun x => x = false)).

Lemma usable_fail v b a :
  may_fail (fun c x => x = check_of healthy c) (fun a x => x = up a) v b a -> usable v b a = false.
Proof.
  unfold usable. intros [->|[->|(o & s & -> & [[-> Hc]|Hu])]].
  - done.
  - by rewrite andb_false_r.
  - simpl. rewrite <-Hc. by rewrite !andb_false_r.
  - rewrite <-Hu. by rewrite !andb_false_r.
Qed.

Lemma usable_work v b a :
  may_work (fun c x => x = check_of healthy c) (fun a x => x = up a) v b a -> usable v b a = true.
Proof.
  unfold usable. intros (Ha & o & s & -> & Hu & Hb). rewrite bool_decide_eq_false_2 by done.
  rewrite <-Hu. destruct b; simpl; [done|]. by rewrite <-Hb.
Qed.

Lemma verdict_usable v b l r v1 : Verdict v b l r v1 ->
  match find (usable v b) l, (if b then None else find (usable v true) (dial_order v)) with
  | Some a, _ | None, Some a => exists c, r = Ok (a, c) /\ connected v1 a c
  | None, None => r = Err (Plain "all servers failed")
  end.
Proof.
  induction 1 as [b a l c v1 Hw Hc|b a l r v1 Hf _ IH|r v1 _ IH|v1|b a l v1 [=] _]; simpl.
  - rewrite (usable_work v b a) by done. by exists c.
  - by rewrite (usable_fail v b a).
  - destruct (find (usable v true) (dial_order v)); done.
  - done.
Qed.

(** A dial that runs alone while checks and servers answer the same
    throughout goes to the first server, from the current one on, that is
    healthy and takes connections; if there is none, to the first that takes
    connections; and fails only if there is no such server either. *)
Theorem dial_finds_server v fuel :
  lb_wf v -> lb_randomServers v <> [] -> (2 * length (lb_randomServers v) <= fuel)%nat ->
  wp (steady healthy up) (dialContext fuel) (fun o v' =>
    match find (usable v false) (first_order v), find (usable v true) (dial_order v) with
    | Some a, _ | None, Some a => exists c, o = Done (Some (Ok (a, c))) /\ connected v' a c
    | None, None => o = Done (Some (Err (Plain "all servers failed")))
    end) v.
Proof.
  intros W Hne Hf. eapply wp_mono; [|by apply dialContext_wp].
  intros o v' (r & v1 & cl & -> & Hv & ->). apply verdict_usable in Hv.
  destruct (find (usable v false) _) as [a|]; [|destruct (find (usable v true) _) as [a|]].
  3:{ by subst. }
  all: destruct Hv as (c & -> & Hc); by exists c.
Qed.
End steady_dials.

(** ** Well-formedness is kept *)

Lemma servers_ok_with_servers m lb :
  (forall a o, m !! a = Some o -> lb_servers lb !! a = Some o) -> servers_ok lb -> servers_ok (with_servers m lb).
Proof. intros Hm Hs a o Ha. by apply Hs, Hm. Qed.

Lemma servers_ok_on f o lb :
  (forall s, sv_address (f s) = sv_address s) -> servers_ok lb -> servers_ok (on_server o f lb).
Proof.
  intros Hf Hs a o' Ha. destruct (Hs a o' Ha) as (s & E & Hsa). unfold on_server. simpl.
  destruct (decide (o = o')) as [->|Hne].
  - rewrite lookup_alter_eq, E. eexists. split; [done|]. by rewrite Hf.
  - rewrite lookup_alter_ne by done. by exists s.
Qed.

Lemma servers_ok_add a c w lb : servers_ok lb -> servers_ok (add_server a c w lb).
Proof.
  intros Hs b o. unfold add_server. simpl.
  pose proof (is_fresh (dom (lb_heap lb))) as Hf. apply not_elem_of_dom in Hf.
  destruct (decide (a = b)) as [->|Hne].
  - rewrite lookup_insert_eq. intros [= <-]. rewrite lookup_insert_eq. by eexists.
  - rewrite lookup_insert_ne by done. intros Hb. destruct (Hs b o Hb) as (s & E & Hsa).
    exists s. split; [|done]. rewrite lookup_insert_ne; [done|]. intros <-. congruence.
Qed.

Lemma add_all l lb :
  let lb' := foldl (fun lb a => add_server a AlwaysHealthy true lb) lb l in
  (servers_ok lb -> servers_ok lb') /\
  (forall a, a ∈ l \/ is_Some (lb_servers lb !! a) -> is_Some (lb_servers lb' !! a)) /\
  lb' = with_servers (lb_servers lb') (with_heap (lb_heap lb') lb).
Proof.
  revert lb. induction l as [|b l IH]; intros lb; simpl.
  - split; [done|]. split; [by intros a [?%elem_of_nil|?]|by destruct lb].
  - destruct (IH (add_server b AlwaysHealthy true lb)) as (H1 & H2 & H3). split; [|split].
    + intros Hs. by apply H1, servers_ok_add.
    + intros a Ha. apply H2. simpl. destruct (decide (a = b)) as [->|Hne].
      * right. rewrite lookup_insert_eq. by eexists.
      * rewrite lookup_insert_ne by done. destruct Ha as [[->|Ha]%elem_of_cons|Ha]; [done|by left|by right].
    + etransitivity; [exact H3|]. done.
Qed.

Lemma drop_all l lb :
  let lb' := foldl (fun lb a => drop_server a lb) lb l in
  (servers_ok lb -> servers_ok lb') /\
  (forall a, a ∉ l -> is_Some (lb_servers lb !! a) -> is_Some (lb_servers lb' !! a)) /\
  lb' = with_servers (lb_servers lb') lb.
Proof.
  revert lb. induction l as [|b l IH]; intros lb; simpl.
  - split; [done|]. split; [done|by destruct lb].
  - destruct (IH (drop_server b lb)) as (H1 & H2 & H3). unfold drop_server in *.
    destruct (decide (b = lb_defaultServerAddress lb)); [set_solver|]. split; [|split].
    + intros Hs. apply H1, servers_ok_with_servers; [|done]. intros a o [_ Ha]%lookup_delete_Some. done.
    + intros a [Hne Hl]%not_elem_of_cons Ha. apply H2; [done|]. simpl. by rewrite lookup_delete_ne.
    + etransitivity; [exact H3|]. done.
Qed.

Lemma elem_of_dedup skip l a : a ∈ dedup skip l <-> a ∈ l /\ a ∉ skip.
Proof.
  revert skip. induction l as [|b l IH]; intros skip; simpl; [set_solver|].
  destruct (decide (b ∈ skip)).
  - rewrite IH. set_solver.
  - rewrite elem_of_cons, IH. destruct (decide (a = b)) as [->|]; set_solver.
Qed.

Lemma dedup_NoDup skip l : NoDup (dedup skip l).
Proof.
  revert skip. induction l as [|b l IH]; intros skip; simpl; [constructor|].
  destruct (decide (b ∈ skip)); [done|]. constructor; [|done]. rewrite elem_of_dedup. set_solver.
Qed.

Lemma sortServers_spec input search :
  let '(l, found) := sortServers input search in
  NoDup l /\ (forall a, a ∈ l <-> a ∈ input /\ a <> "") /\ found = bool_decide (search ∈ l).
Proof.
  unfold sortServers. split; [|split].
  - rewrite sort_strings_perm. apply dedup_NoDup.
  - intros a. rewrite sort_strings_perm, elem_of_dedup. set_solver.
  - apply bool_decide_ext. by rewrite sort_strings_perm.
Qed.

Lemma wf_with_closing c lb : lb_wf lb -> lb_wf (with_closing c lb).
Proof. by intros []. Qed.

Section calls.
Context `{RS : Shuffle}.

Lemma setServers_wf addresses lb : lb_wf lb -> lb_wf (snd (setServers addresses lb)).
Proof.
  intros W. unfold setServers.
  pose proof (sortServers_spec addresses (lb_defaultServerAddress lb)) as Hsort.
  destruct (sortServers addresses _) as [l found]. destruct Hsort as (Hnd & Hl & ->).
  destruct (decide (l = [])) as [|Hne]; [done|]. destruct (decide _); [done|].
  set (added := filter _ l). set (removed := filter (.∉ l) _).
  destruct (add_all added lb) as (A1 & A2 & A3). set (lb1 := foldl _ lb added) in *.
  destruct (drop_all removed lb1) as (D1 & D2 & D3). set (lb2 := foldl _ lb1 removed) in *.
  assert (Ed : lb_defaultServerAddress lb2 = lb_defaultServerAddress lb) by (rewrite D3, A3; done).
  rewrite Ed. set (d := lb_defaultServerAddress lb) in *. cbv zeta.
  set (random := if bool_decide (d ∈ l) then shuffle l else shuffle l ++ [d]).
  set (lb3 := with_lists l random lb2).
  set (lb4 := match (if bool_decide (d ∈ l) then None else _) with Some o => _ | None => _ end).
  assert (H4 : lb4 = with_heap (lb_heap lb4) lb3 /\ servers_ok lb4).
  { assert (servers_ok lb3) as Hok by (apply D1, A1, W).
    unfold lb4. destruct (if bool_decide (d ∈ l) then None else lb_servers lb3 !! d) as [o|].
    - split; [done|]. by apply servers_ok_on.
    - split; [by destruct lb3|done]. }
  clearbody lb4. destruct H4 as [E4 Hok4].
  simpl. rewrite close_each_eq. apply wf_with_closing.
  assert (Hr : NoDup random /\ exists tail, random ≡ₚ l ++ tail).
  { unfold random. case_bool_decide as Hd.
    - rewrite shuffle_perm. split; [done|]. exists []. rewrite app_nil_r. apply shuffle_perm.
    - split; [|exists [d]; by rewrite shuffle_perm]. rewrite shuffle_perm. apply NoDup_app.
      split; [done|]. split; [|apply NoDup_singleton]. by intros x Hx ->%list_elem_of_singleton. }
  assert (Erandom : lb_randomServers lb4 = random) by (rewrite E4; done).
  assert (Eservers : lb_servers lb4 = lb_servers lb2) by (rewrite E4; done).
  constructor; simpl.
  - done.
  - rewrite E4. simpl. split; [done|]. intros [_ H]%Hl. done.
  - rewrite E4. simpl. intros a Ha. apply D2; [by intros [? _]%list_elem_of_filter|]. apply A2.
    destruct (decide (a ∈ lb_ServerAddresses lb)) as [Hc|Hc]; [right; by apply W|left].
    by apply list_elem_of_filter.
  - rewrite E4. simpl. done.
  - intros _. unfold in_list. simpl. rewrite Erandom. destruct random as [|a random'] eqn:E; [|simpl; split; [by left|lia]].
    destruct Hr as [_ (tail & Ht)]. apply Permutation_nil in Ht. by destruct l.
Qed.

(** The calls that take the write lock keep the state well formed: its list
    has no duplicates and no empty address, each listed server is known, the
    dials' list holds the list, and the current address is in its place. *)
Theorem lb_calls_wf lb addresses a c o n :
  lb_wf lb -> lb_wf (fst (Update addresses lb)) /\ lb_wf (SetDefault a lb) /\
  lb_wf (SetHealthCheck a c lb) /\ lb_wf (Close o n lb).
Proof.
  intros W. repeat split_and.
  - pose proof (setServers_wf addresses lb W) as Hs. unfold Update. by destruct (setServers addresses lb).
  - unfold SetDefault. set (d := lb_defaultServerAddress lb).
    set (p := match lb_servers lb !! d with Some o => _ | None => _ end).
    assert (Hp : exists m cl, p = (cl, with_servers m lb) /\ lb_wf (with_servers m lb)).
    { assert (lb = with_servers (lb_servers lb) lb) as E by (by destruct lb). unfold p.
      destruct (lb_servers lb !! d) as [o'|].
      2:{ exists (lb_servers lb), []. by rewrite <-E. }
      destruct (decide (d ∈ lb_ServerAddresses lb)) as [|Hd].
      { exists (lb_servers lb), []. by rewrite <-E. }
      exists (delete d (lb_servers lb)), [o']. split; [done|]. destruct W as [W1 W2 W3 W4 W5].
      constructor; simpl; [|done| |done|done].
      - apply servers_ok_with_servers; [|done]. by intros ?? [_ ?]%lookup_delete_Some.
      - intros b Hb. rewrite lookup_delete_ne; [by apply W3|]. by intros ->. }
    destruct Hp as (m & cl & -> & W'). rewrite close_each_eq. apply wf_with_closing.
    assert (lb_wf (with_default a (with_servers m lb))) as W2 by (by destruct W').
    destruct (lb_servers (with_servers m lb) !! a) eqn:Ea; [done|].
    destruct W2 as [H1 H2 H3 H4 H5]. constructor; [by apply servers_ok_add|done| |done|done].
    simpl in *. intros b Hb. destruct (decide (a = b)) as [->|]; [rewrite lookup_insert_eq; by eexists|].
    rewrite lookup_insert_ne by done. by apply H3.
  - unfold SetHealthCheck. destruct (lb_servers lb !! a); [|done]. destruct W.
    constructor; [by apply servers_ok_on|done..].
  - unfold Close. apply wf_with_closing. destruct W. constructor; [by apply servers_ok_on|done..].
Qed.

Lemma empty_wf url d : lb_wf (mkLoadBalancer url d [] [] ∅ "" 0 ∅ 0 ∅).
Proof.
  constructor; simpl; [done| | | |done].
  - split; [constructor|set_solver].
  - set_solver.
  - split; [constructor|by exists []].
Qed.

(** A new load balancer is well formed, and has the default server's address
    or the addresses stored for the same URL. *)
Theorem New_wf `{UrlParser} serverURL localAddress file lb url write :
  New serverURL localAddress file = Ok (lb, url, write) -> lb_wf lb.
Proof.
  unfold New. destruct (parseURL serverURL localAddress) as [[address u]|]; [|done].
  generalize (if decide (serverURL = u) then "" else address). intros d.
  pose proof (setServers_wf [d] _ (empty_wf serverURL d)) as W.
  set (lb0 := snd (setServers [d] _)) in *. unfold updateConfig.
  destruct file as [[url' l]|]; [destruct (decide (url' = _))|]; intros Hn; injection Hn as <- _ _; [by apply setServers_wf|done|done].
Qed.
End calls.

(** ** Dials beside each other *)

(** What every step of a dial or a health round leaves as it is. *)
Definition kept (v v' : LoadBalancer) : Prop :=
  (lb_wf v -> lb_wf v') /\ lb_randomServers v' = lb_randomServers v /\
  lb_ServerAddresses v' = lb_ServerAddresses v /\ lb_servers v' = lb_servers v.

#[export] Instance kept_preorder : PreOrder kept.
Proof.
  split; [by intros v|]. intros v1 v2 v3 (W1 & ? & ? & ?) (W2 & ? & ? & ?). split; [tauto|].
  split; [congruence|]. split; congruence.
Qed.









Section beside.
Context (H : healthCheck -> bool -> Prop) (U : string -> bool -> Prop) (K : bool -> Prop).
#[local] Notation C := (answers H U K).











End beside.


(** Whatever happens to the shared fields between the steps of a dial, it does
    not panic: the index is clamped where it is used. *)
Definition wild_lb : contract lbE LoadBalancer := fun X e =>
  match e in lbE X return LoadBalancer -> X -> LoadBalancer -> Prop with
  | Lb f => fun v x v' => exists u, x = fst (f u)
  | _ => fun v x v' => True
  end.

Section panics.
#[local] Notation safe p := (forall v, wp wild_lb p (fun o _ => o <> Panicked) v).

Lemma safe_bind {A B} (p : lbP A) (f : A -> lbP B) : safe p -> (forall a, safe (f a)) -> safe (bind p f).
Proof.
  intros Hp Hf v. apply wp_bind. eapply wp_mono; [|apply Hp]. intros [a|] v' Ho; [apply Hf|done].
Qed.

Lemma safe_call {X} (e : lbE X) : safe (call e).
Proof. done. Qed.

Lemma safe_nextServer a : safe (nextServer a).
Proof.
  intros v. unfold nextServer, read, write. apply wp_call. intros x v1 (u1 & ->). apply wp_call. intros x v2 (u2 & ->).
  apply wp_call. intros x v3 (u & ->). cbn [fst snd].
  destruct (lb_randomServers u) as [|b [|b' l]] eqn:E; [done|done|]. cbn iota beta. rewrite <-E.
  destruct (decide (a <> lb_currentServerAddress u1)); [done|].
  destruct (lb_randomServers u !! _) as [c|] eqn:Ec; [done|].
  apply lookup_ge_None in Ec. rewrite E in Ec.
  destruct (Nat.leb_spec (length (b :: b' :: l)) (lb_nextServerIndex u2)); simpl in *; lia.
Qed.

Lemma safe_dialLoop fuel i b cl : safe (dialLoop fuel i b cl).
Proof.
  revert i b cl. induction fuel as [|fuel IH]; intros i b cl; cbn [dialLoop]; [done|]. unfold read.
  apply safe_bind; [apply safe_call|]. intros a.
  apply safe_bind.
  { unfold attempt, read. apply safe_bind; [apply safe_call|]. intros [[o s]|]; [|done].
    destruct (decide (a = "")); [done|]. apply safe_bind; [by destruct b|]. intros [|]; [|done].
    apply safe_bind; [done|]. by intros []. }
  intros [[c|] failed]; [done|]. apply safe_bind; [apply safe_nextServer|]. intros [n|e]; [|done].
  apply safe_bind; [done|]. intros []; [done|]. apply safe_bind; [done|]. intros m. apply safe_bind; [done|]. intros s.
  destruct (_ =? _)%nat; [destruct b; [done|apply IH]|apply IH].
Qed.
End panics.

Theorem dial_never_panics fuel v : wp wild_lb (dialContext fuel) (fun o _ => o <> Panicked) v.
Proof.
  unfold dialContext, read, write. apply safe_bind; [done|]. intros i.
  apply safe_bind; [apply safe_dialLoop|]. intros r. apply safe_bind; done.
Qed.

(** ** A round of health checks *)

Lemma elem_of_closing l v c :
  c ∈ lb_closing (close_each l v) <->
  c ∈ lb_closing v \/ exists o s, o ∈ l /\ lb_heap v !! o = Some s /\ c ∈ sv_connections s.
Proof.
  induction l as [|o l IH]; simpl; [set_solver|].
  unfold closeAll. replace (lb_heap (close_each l v)) with (lb_heap v) by (by rewrite close_each_eq).
  destruct (lb_heap v !! o) as [s|] eqn:E; simpl; rewrite ?elem_of_union, IH.
  - split.
    + intros [[?|(o' & s' & ? & ?)]|?]; [by left| |]; right; [exists o', s'|exists o, s]; set_solver.
    + intros [?|(o' & s' & [->|?]%elem_of_cons & ? & ?)]; [by left; left| |left; right; by exists o', s'].
      simplify_eq. by right.
  - split; [|intros [?|(o' & s' & [->|?]%elem_of_cons & ? & ?)]]; [|by left|congruence|right; by exists o', s'].
    intros [?|(o' & s' & ? & ?)]; [by left|right; exists o', s'; set_solver].
Qed.

Section rounds.
Context (healthy : nat -> bool) (up : string -> bool).
#[local] Notation check s := (check_of healthy (sv_healthCheck s)).

Lemma check_servers_wp l v :
  NoDup l.*2 -> (forall o, o ∈ l.*2 -> is_Some (lb_heap v !! o)) ->
  wp (steady healthy up) (check_servers l) (fun r v' => exists b cl h, r = Done (b, cl) /\ v' = with_heap h v /\
    (b = true <-> exists o s, o ∈ l.*2 /\ lb_heap v !! o = Some s /\ check s = true) /\
    (forall o, o ∈ cl <-> exists s, o ∈ l.*2 /\ lb_heap v !! o = Some s /\ check s = false /\ sv_wasHealthy s = true) /\
    (forall o, h !! o = (fun s => if decide (o ∈ l.*2) then with_health (check s) s else s) <$> lb_heap v !! o)) v.
Proof.
  revert v. induction l as [|[a o] l IH]; intros v Hnd Hl; cbn [check_servers].
  { exists false, [], (lb_heap v). split; [done|]. split; [by destruct v|]. simpl. repeat split.
    - done.
    - intros (o & s & []%elem_of_nil & _).
    - by intros ?%elem_of_nil.
    - intros (s & []%elem_of_nil & _).
    - intros o. by destruct (lb_heap v !! o). }
  apply NoDup_cons in Hnd as [Ho Hnd].
  destruct (Hl o) as [s Hs]; [by left|].
  apply wp_call. intros x v1 [-> ->]. cbn [fst snd]. rewrite Hs.
  apply wp_call. intros u v1 [-> ->]. apply wp_call. intros x v1 [-> ->]. cbn [fst snd].
  apply wp_bind. eapply wp_mono; [|apply IH; [done|]].
  2:{ intros o' Ho'. simpl. rewrite lookup_alter_ne by (by intros <-). apply Hl. by right. }
  intros r v' (b & cl & h & -> & -> & Hb & Hcl & Hh). apply wp_ret. cbn [fst snd].
  assert (Hsame : forall o', o' ∈ l.*2 -> lb_heap (on_server o (with_health (check s)) v) !! o' = lb_heap v !! o').
  { intros o' Ho'. simpl. apply lookup_alter_ne. by intros <-. }
  do 3 eexists. split; [done|]. split; [reflexivity|]. split; [|split].
  - rewrite orb_true_iff, Hb. split.
    + intros [Hc|(o' & s' & Ho' & Hs' & Hc)]; [exists o, s; split; [by left|done]|].
      exists o', s'. rewrite Hsame in Hs' by done. split; [by right|done].
    + intros (o' & s' & [->|Ho']%elem_of_cons & Hs' & Hc); [left; by simplify_eq/=|right].
      exists o', s'. by rewrite Hsame.
  - intros o'. assert (o' ∈ cl <-> exists s0, o' ∈ l.*2 /\ lb_heap v !! o' = Some s0 /\ check s0 = false /\ sv_wasHealthy s0 = true) as Hcl'.
    { rewrite Hcl. split; intros (s' & Ho' & Hs' & Hc); exists s'; [rewrite Hsame in Hs'|rewrite Hsame]; done. }
    destruct (negb (check s) && sv_wasHealthy s) eqn:Ec; rewrite ?elem_of_app, Hcl'; split.
    + apply andb_true_iff in Ec as [Ec%negb_true_iff Ew].
      intros [(s' & Ho' & H')| ->%list_elem_of_singleton]; [exists s'; split; [by right|done]|exists s; split; [by left|done]].
    + intros (s' & [->|Ho']%elem_of_cons & H'); [right; by left|left; by exists s'].
    + intros (s' & Ho' & H'). exists s'. split; [by right|done].
    + intros (s' & [->|Ho']%elem_of_cons & Hs' & Hc & Hw); [|by exists s'].
      simplify_eq/=. by rewrite Hc, Hw in Ec.
  - intros o'. rewrite Hh. simpl. destruct (decide (o = o')) as [<-|Hne].
    + rewrite lookup_alter_eq, Hs. simpl. rewrite decide_False by done. by rewrite decide_True by left.
    + rewrite lookup_alter_ne by done. destruct (lb_heap v !! o') as [s'|]; [|done]. simpl. f_equal.
      destruct (decide (o' ∈ l.*2)); [by rewrite decide_True by (by right)|].
      rewrite decide_False; [done|]. by intros [->|?]%elem_of_cons.
Qed.

(** A round of health checks records the state of every server, and closes
    the connections of those that were healthy and no longer are, and of the
    default server when it is not listed and some server is healthy; no other
    connection. *)
Theorem health_round_exact v order :
  lb_wf v -> order ≡ₚ map_to_list (lb_servers v) ->
  wp (steady healthy up) (healthRound order) (fun r v' => r = Done tt /\
    (forall a o s, server_at v a = Some (o, s) -> server_at v' a = Some (o, with_health (check s) s)) /\
    forall c, c ∈ lb_closing v' <-> c ∈ lb_closing v \/
      exists a o s, server_at v a = Some (o, s) /\ c ∈ sv_connections s /\
        ((sv_wasHealthy s = true /\ check s = false) \/
         (a = lb_defaultServerAddress v /\ a ∉ lb_ServerAddresses v /\
          exists a' o' s', server_at v a' = Some (o', s') /\ check s' = true))) v.
Proof.
  intros W Ho. pose proof (wf_servers v W) as Hok.
  assert (Hin : forall o, o ∈ order.*2 <-> exists a, lb_servers v !! a = Some o).
  { intros o. rewrite Ho, list_elem_of_fmap. split.
    - intros ([a o'] & -> & Ha%elem_of_map_to_list). by exists a.
    - intros [a Ha]. exists (a, o). split; [done|]. by apply elem_of_map_to_list. }
  assert (Hat : forall a o s, server_at v a = Some (o, s) <-> lb_servers v !! a = Some o /\ lb_heap v !! o = Some s).
  { intros a o s. unfold server_at. destruct (lb_servers v !! a) as [o'|]; [|naive_solver].
    destruct (lb_heap v !! o') eqn:E; naive_solver. }
  unfold healthRound, read, write. apply wp_bind. eapply wp_mono; [|apply check_servers_wp].
  2:{ rewrite Ho. apply NoDup_fmap_2_strong; [|apply NoDup_map_to_list].
      intros [a o] [a' o'] Ha%elem_of_map_to_list Ha'%elem_of_map_to_list Heq. simpl in Heq. subst o'.
      destruct (Hok a o Ha) as (s & E & <-), (Hok a' o Ha') as (s' & E' & <-). by simplify_eq. }
  2:{ intros o (a & Ha)%Hin. destruct (Hok a o Ha) as (s & -> & _). by eexists. }
  intros r v1 (b & cl & h & -> & -> & Hb & Hcl & Hh). apply wp_call. intros x v1 [-> ->]. cbn [fst snd].
  intros x v1 [-> ->]. split; [done|].
  set (d := if decide _ then None else _). set (l := match d with Some o => _ | None => _ end).
  cbn [fst snd]. split.
  - intros a o s [Ha Hs]%Hat. rewrite close_each_eq. unfold server_at. simpl. rewrite Ha, Hh, Hs. simpl.
    by rewrite decide_True by (apply Hin; by exists a).
  - intros c. rewrite elem_of_closing. simpl. apply or_iff_compat_l.
    assert (Hd : forall o, o ∈ l <-> o ∈ cl \/
      (lb_servers v !! lb_defaultServerAddress v = Some o /\ lb_defaultServerAddress v ∉ lb_ServerAddresses v /\ b = true)).
    { intros o. unfold l, d. cbn. destruct (decide (lb_defaultServerAddress v ∈ lb_ServerAddresses v)); [naive_solver|].
      destruct (lb_servers v !! lb_defaultServerAddress v) as [o'|]; [|naive_solver].
      destruct b; [rewrite elem_of_cons|]; naive_solver. }
    split.
    + intros (o & s & Ho' & Hs & Hc). rewrite Hh in Hs. apply fmap_Some in Hs as (s0 & Hs & ->).
      assert (c ∈ sv_connections s0) as Hc0 by (by destruct (decide (o ∈ order.*2))).
      apply Hd in Ho' as [(s' & (a & Ha)%Hin & Hs' & H1 & H2)%Hcl|(Hdo & Hna & Hbt)].
      * assert (s0 = s') as -> by congruence. exists a, o, s'. split; [by apply Hat|]. auto.
      * exists (lb_defaultServerAddress v), o, s0. split; [by apply Hat|]. split; [done|]. right.
        split; [done|]. split; [done|]. apply Hb in Hbt as (o' & s' & (a' & Ha')%Hin & Hs' & Hc').
        exists a', o', s'. split; [by apply Hat|done].
    + intros (a & o & s & [Ha Hs]%Hat & Hc & Hor). do 2 eexists. split; [|split].
      * apply Hd. destruct Hor as [[H1 H2]|(-> & Hna & a' & o' & s' & [Ha' Hs']%Hat & Hc')].
        { left. apply Hcl. exists s. split; [apply Hin; by exists a|done]. }
        right. split; [exact Ha|]. split; [done|]. apply Hb. exists o', s'. split; [apply Hin; by exists a'|done].
      * rewrite Hh, Hs. reflexivity.
      * by destruct (decide (o ∈ order.*2)).
Qed.
End rounds.

(** ** Samples *)

#[local] Instance in_order : Shuffle := mkShuffle (fun l => l) (fun l => reflexivity l).

(** A URL parser for [http://host:port]. *)
#[local] Instance sample_urls : UrlParser := mkUrlParser
  (fun s => match strip_prefix "http://" s with Some h => Some (mkURL "http" h "6443") | None => None end)
  (fun _ h => "http://" +:+ h).

Definition new_balancer (d : string) : LoadBalancer :=
  match New ("http://" +:+ d) "127.0.0.1:6444" None with Ok (lb, _, _) => lb | Err _ => mkLoadBalancer "" "" [] [] ∅ "" 0 ∅ 0 ∅ end.

(** Whether a callback answers, and who takes connections. *)
Definition dial (healthy : nat -> bool) (up : string -> bool) (lb : LoadBalancer) : option (res (string * nat)) * LoadBalancer :=
  match run (steady_handler healthy up) (dialContext 20) lb with
  | (Done r, lb) => (r, lb)
  | (Panicked, lb) => (None, lb)
  end.

Definition round (healthy : nat -> bool) (lb : LoadBalancer) : LoadBalancer :=
  snd (run (steady_handler healthy (fun _ => true)) (healthRound (map_to_list (lb_servers lb))) lb).

Definition all_up (_ : string) : bool := true.
Definition down (l : list string) (a : string) : bool := negb (bool_decide (a ∈ l)).
Definition ill (_ : nat) : bool := false.

(** The scenario of the unit test of failover: node1 is preferred to the
    default server; once its check fails its connections are closed, yet it is
    dialled before the default; when it is down the default is used; and the
    default's connections are closed once node2 is there. *)
Example failover_scenario :
  let lb := fst (Update ["node1"] (new_balancer "default")) in
  let '(c1, lb) := dial ill all_up lb in
  let lb := round ill (SetHealthCheck "node1" (Callback 0) lb) in
  let closed1 := lb_closing lb in
  let '(c2, lb) := dial ill all_up lb in
  let lb := round ill lb in
  let closed2 := lb_closing lb in
  let '(c3, lb) := dial ill (down ["node1"]) lb in
  let lb := fst (Update ["node2"] lb) in
  let '(c4, lb) := dial ill (down ["node1"]) lb in
  let lb := round ill lb in
  (c1, c2, c3, c4) = (Some (Ok ("node1", 0%nat)), Some (Ok ("node1", 1%nat)),
                      Some (Ok ("default", 2%nat)), Some (Ok ("node2", 3%nat))) /\
  (elements closed1, elements closed2) = ([0%nat], [0%nat]) /\
  0%nat ∈ lb_closing lb /\ 1%nat ∈ lb_closing lb /\ 2%nat ∈ lb_closing lb /\ 3%nat ∉ lb_closing lb.
Proof. vm_compute. repeat split; try done; by apply bool_decide_eq_true. Qed.

(** Whether an entry of the map, or some server at all, has the connection. *)
Definition owned (lb : LoadBalancer) (c : nat) : bool :=
  existsb (fun e : string * nat => match lb_heap lb !! e.2 with Some s => bool_decide (c ∈ sv_connections s) | None => false end)
    (map_to_list (lb_servers lb)).
Definition open_somewhere (lb : LoadBalancer) (c : nat) : bool :=
  existsb (fun e : nat * server => bool_decide (c ∈ sv_connections e.2)) (map_to_list (lb_heap lb)) &&
  negb (bool_decide (c ∈ lb_closing lb)).

(** The default server, dialled as a last resort while it was not listed and
    then listed, is given a new entry; the connection of the old one belongs
    to no server any more and outlives the failure of the health check that
    closes all others. *)
Theorem listed_default_orphans :
  let lb := fst (Update ["a"] (new_balancer "d")) in
  let '(c, lb) := dial ill (down ["a"]) lb in
  let '(c', lb) := dial ill all_up (fst (Update ["d"; "a"] lb)) in
  let lb := round ill (SetHealthCheck "a" (Callback 0) (SetHealthCheck "d" (Callback 0) lb)) in
  c = Some (Ok ("d", 0%nat)) /\ owned lb 0 = false /\ open_somewhere lb 0 = true /\
  c' = Some (Ok ("a", 1%nat)) /\ open_somewhere lb 1 = false.
Proof. by vm_compute. Qed.

(** A default server set later is not dialled until the list changes: the
    list of the dials is built by [setServers] alone. *)
Theorem new_default_not_dialled :
  let lb := fst (Update ["a"; "b"] (new_balancer "d")) in
  let lb := fst (Update ["b"; "a"] (SetDefault "e" lb)) in
  fst (dial ill (down ["a"; "b"; "d"]) lb) = Some (Err (Plain "all servers failed")).
Proof. by vm_compute. Qed.

(** Three dials, while [c] takes connections and all checks pass throughout:
    the third reads the place it starts from; the first and the second store
    what they have read before it went on, so that it sees its first index
    come back twice and gives up without having tried [c]. *)
Definition race_balancer : LoadBalancer := fst (Update ["a"; "b"; "c"] (new_balancer "a")).
Definition race_handler : handler lbE LoadBalancer := steady_handler (fun _ => true) (down ["a"; "b"]).
Definition race_schedule : list nat :=
  concat [repeat 2%nat 3; repeat 0%nat 9; repeat 2%nat 12; repeat 0%nat 3; repeat 1%nat 12; repeat 2%nat 9].

Theorem dial_race_gives_up :
  let '(ps, lb) := sched race_handler race_schedule (repeat (dialContext 20) 3, race_balancer) in
  lb_ServerAddresses lb = ["a"; "b"; "c"] /\
  (fun p => match p with Ret (Some r) => Some r | _ => None end) <$> (ps !! 2%nat) = Some (Some (Err (Plain "all servers failed"))) /\
  fst (dial (fun _ => true) (down ["a"; "b"]) lb) = Some (Ok ("c", 0%nat)).
Proof. by vm_compute. Qed.

(** Two dials whose stores cross leave an index that is not the one behind the
    current address. *)
Example stores_cross :
  let lb := snd (sched race_handler (concat [repeat 0%nat 8; repeat 1%nat 8; repeat 0%nat 13; repeat 1%nat 2; [0%nat]])
                   (repeat (dialContext 20) 2, race_balancer)) in
  (lb_currentServerAddress lb, lb_nextServerIndex lb, lb_randomServers lb !! 2%nat) = ("b", 3%nat, Some "c").
Proof. by vm_compute. Qed.

(** *** Witnesses *)

Lemma race_wf : lb_wf race_balancer.
Proof.
  refine (proj1 (lb_calls_wf (new_balancer "a") ["a"; "b"; "c"] "" AlwaysHealthy 0 0 _)).
  by refine (New_wf "http://a" "127.0.0.1:6444" None (new_balancer "a") "http://127.0.0.1:6444" true _).
Qed.

Lemma dial_ends_witness :
  wp (answers (fun _ _ => True) (fun _ _ => True) (fun _ => True)) (dialContext 10)
    (fun o v' => exists r, o = Done (Some r)) race_balancer.
Proof. apply dial_ends; [exact race_wf|vm_compute; lia]. Defined.

Lemma dial_finds_server_witness :
  wp (steady (fun _ => true) (down ["a"])) (dialContext 10) (fun o v' =>
    exists c, o = Done (Some (Ok ("b", c))) /\ connected v' "b" c) race_balancer.
Proof.
  refine (dial_finds_server (fun _ => true) (down ["a"]) race_balancer 10 _ _ _); [|done|vm_compute; lia].
  exact race_wf.
Defined.


Lemma health_round_exact_witness :
  let v := SetHealthCheck "a" (Callback 0) race_balancer in
  wp (steady ill all_up) (healthRound (map_to_list (lb_servers v))) (fun r v' => r = Done tt /\
    (forall c, c ∈ lb_closing v' -> c ∈ lb_closing v \/ exists a o s, server_at v a = Some (o, s) /\ c ∈ sv_connections s)) v.
Proof.
  intros v. eapply wp_mono; [|apply (health_round_exact ill all_up v); [|done]].
  - intros r v' (-> & _ & H). split; [done|]. intros c [?|(a & o & s & ? & ? & _)]%H; [by left|right; by exists a, o, s].
  - apply (lb_calls_wf race_balancer [] "a" (Callback 0) 0 0 race_wf).
Defined.
