(* ===== verification/Orchestrator.v ===== *)
(** * The orchestrator: session lifecycle over the API server

    [pkg/sandboxmatrix/grpc/orchestrator.go] and the shared CNP chokepoint of
    [expose.go]: creating, pausing, resuming and destroying sandbox sessions,
    claiming warm pods, the destroy ledger, sub-agents and the capacity check.
    Every function is the tree of its effects, in source order. *)
From S2P Require Import Prelude Prog Kube SessionEnv.

Definition sandboxNS : string := "sandbox-matrix".
Definition stateWarm : string := "warm".
Definition stateActive : string := "active".
Definition StateResetting : string := "resetting".
Definition maxDepth : Z := 1.
Definition sandboxImage : string := "ghcr.io/xiaods/k8e-sandbox:latest".
Definition sandboxdPort : Z := 2024.
Definition defaultTTL : Z := 0.
Definition defaultMaxBackgroundRuns : Z := 5.

(** ** Memory of one Orchestrator *)

Record ExposedEntry := mkExposed {
  ee_port : Z; ee_host : string; ee_url : string; ee_startedAt : Z;
}.

Record Orch := mkOrch {
  o_runRegistry : gmap string string;              (* run_id -> session_id *)
  o_exposed : gmap string (list ExposedEntry);
  o_onWarmClaim : bool;                            (* OnWarmClaim != nil *)
  o_refill : bool;                                 (* token in refillTrigger *)
  o_claimedFromWarm : Z;
  o_coldStarts : Z;
  o_claimLatencyTotalMs : Z;
  o_claimCount : Z;
  o_maxBackgroundRuns : Z;
  o_fqdnEgressEnabled : bool;
}.

Definition NewOrchestrator : Orch :=
  mkOrch ∅ ∅ false false 0 0 0 0 defaultMaxBackgroundRuns false.

Definition with_exposed (e : gmap string (list ExposedEntry)) (o : Orch) : Orch :=
  mkOrch (o_runRegistry o) e (o_onWarmClaim o) (o_refill o) (o_claimedFromWarm o)
    (o_coldStarts o) (o_claimLatencyTotalMs o) (o_claimCount o)
    (o_maxBackgroundRuns o) (o_fqdnEgressEnabled o).
Definition with_registry (r : gmap string string) (o : Orch) : Orch :=
  mkOrch r (o_exposed o) (o_onWarmClaim o) (o_refill o) (o_claimedFromWarm o)
    (o_coldStarts o) (o_claimLatencyTotalMs o) (o_claimCount o)
    (o_maxBackgroundRuns o) (o_fqdnEgressEnabled o).
Definition with_fqdn (b : bool) (o : Orch) : Orch :=
  mkOrch (o_runRegistry o) (o_exposed o) (o_onWarmClaim o) (o_refill o) (o_claimedFromWarm o)
    (o_coldStarts o) (o_claimLatencyTotalMs o) (o_claimCount o)
    (o_maxBackgroundRuns o) b.

Abbreviation orchP := (prog (gwE Orch)).

Definition now : orchP Z := call Now.
Definition mem {X} (f : Orch -> X * Orch) : orchP X := call (Mem f).

Definition SetFQDNEGressEnabled (enabled : bool) : orchP unit :=
  mem (fun o => (tt, with_fqdn enabled o)).
Definition fqdnEnabled : orchP bool := mem (fun o => (o_fqdnEgressEnabled o, o)).

(** ** Claim accounting *)

Definition bump_claim (latencyMs : Z) (warm : bool) (o : Orch) : Orch :=
  mkOrch (o_runRegistry o) (o_exposed o) (o_onWarmClaim o) (o_refill o)
    (if warm then o_claimedFromWarm o + 1 else o_claimedFromWarm o)
    (if warm then o_coldStarts o else o_coldStarts o + 1)
    (o_claimLatencyTotalMs o + latencyMs) (o_claimCount o + 1)
    (o_maxBackgroundRuns o) (o_fqdnEgressEnabled o).

Definition recordClaim (start : Z) (warm : bool) : orchP unit :=
  do t <- now;
  mem (fun o => (tt, bump_claim (go_div (t - start) 1000000) warm o)).

(** The callback wired by the controller: a non-blocking send on a channel of
    capacity one. *)
Definition fire_onWarmClaim : orchP unit :=
  mem (fun o => (tt,
    if o_onWarmClaim o
    then mkOrch (o_runRegistry o) (o_exposed o) (o_onWarmClaim o) true (o_claimedFromWarm o)
           (o_coldStarts o) (o_claimLatencyTotalMs o) (o_claimCount o)
           (o_maxBackgroundRuns o) (o_fqdnEgressEnabled o)
    else o)).

(** Warm claims, cold starts, average latency. *)
Definition Metrics : orchP (Z * Z * Z) :=
  mem (fun o => ((o_claimedFromWarm o, o_coldStarts o,
    if (0 <? o_claimCount o)%Z then go_div (o_claimLatencyTotalMs o) (o_claimCount o) else 0%Z), o)).

(** ** Readiness of a warm pod *)

Definition PodReadyCondition (pod : Pod) : bool :=
  existsb (fun c => bool_decide (c = ("Ready", "True"))) (pst_conditions (p_status pod)).

Definition readyHandshake (ip : string) : orchP bool :=
  do r <- call (Sandboxd ip SReady);
  Ret (match r with
       | Ok (code, Some status) => (code =? 200)%Z && bool_decide (status = "ready")
       | _ => false
       end).

Definition defaultWarmPodHealthCheck (pod : Pod) : orchP bool :=
  let ip := pst_podIP (p_status pod) in
  if negb (bool_decide (pst_phase (p_status pod) = PodRunning)) || bool_decide (ip = "")
  then Ret false
  else if negb (PodReadyCondition pod) then Ret false
  else do ready <- readyHandshake ip;
       if ready then Ret true else call (Dial ip).

(** ** Pods *)

(** [resource.ParseQuantity]; [MustParse] panics where it fails. *)
Class QuantityParser := parseQuantity : string -> option Quantity.

Section pods.
Context `{QuantityParser}.

Definition sandboxProbe : Probe := mkProbe sandboxdPort 0 0 0.

(** [None]: the MustParse of a limit panics. *)
Definition SandboxPodSpec (runtimeClass pvcName cpu memory image : string) : option PodSpec :=
  let cpu := if decide (cpu = "") then "500m" else cpu in
  let memory := if decide (memory = "") then "512Mi" else memory in
  let vol := if decide (pvcName <> "") then PersistentVolumeClaim pvcName else EmptyDir in
  match parseQuantity cpu, parseQuantity memory with
  | Some qc, Some qm =>
      Some (mkPodSpec
        [mkContainer "sandbox" image [sandboxdPort] {["cpu" := qc; "memory" := qm]}
           true [("workspace", "/workspace")]
           (Some (mkProbe (pr_port sandboxProbe) 2 0 30))
           (Some (mkProbe (pr_port sandboxProbe) 5 2 3))]
        [("workspace", vol)] "Default" "Never"
        (if decide (runtimeClass <> "") then Some runtimeClass else None))
  | _, _ => None
  end.

Definition GvisorAnnotations (runtimeClass : string) : gmap string string :=
  if decide (runtimeClass = "gvisor") then {["gvisor.dev/network" := "host"]} else ∅.

Definition coldPodName (sessionID : string) : string := "sandbox-" +:+ sessionID.

Definition with_labels (l : gmap string string) (p : Pod) : Pod :=
  let m := p_meta p in
  mkPod (mkMeta (m_ns m) (m_name m) (m_generateName m) l (m_annots m) (m_rv m) (m_created m))
    (p_spec p) (p_status p).

Definition claimed_labels (sessionID : string) (l : gmap string string) : gmap string string :=
  <[labelSessionID := sessionID]> (<[labelState := stateActive]> l).

(** The loop over the listed warm pods. *)
Fixpoint claimLoop (sessionID runtimeClass : string) (start : Z) (warm : list Pod)
    (cold : orchP (res Pod)) : orchP (res Pod) :=
  match warm with
  | [] => cold
  | pod :: warm =>
      do healthy <- defaultWarmPodHealthCheck pod;
      if negb healthy then claimLoop sessionID runtimeClass start warm cold
      else
        let rc := default "" (m_labels (p_meta pod) !! labelRuntimeClass) in
        if decide (rc <> "" /\ rc <> runtimeClass)
        then claimLoop sessionID runtimeClass start warm cold
        else
          do r <- call (Update KPod (with_labels (claimed_labels sessionID (m_labels (p_meta pod))) pod));
          match r with
          | Ok updated =>
              do! recordClaim start true;
              do! fire_onWarmClaim;
              Ret (Ok updated)
          | Err _ => claimLoop sessionID runtimeClass start warm cold
          end
  end.

Definition coldPod (sessionID runtimeClass : string) (spec : PodSpec) : Pod :=
  mkPod (mkMeta sandboxNS (coldPodName sessionID) ""
           {[labelState := stateActive; labelSessionID := sessionID;
             labelRuntimeClass := runtimeClass]}
           (GvisorAnnotations runtimeClass) 0 0)
    spec (mkPodStatus PodPending "" []).

Definition coldStart (sessionID runtimeClass pvcName cpu memory : string) (start : Z)
    : orchP (res Pod) :=
  match SandboxPodSpec runtimeClass pvcName cpu memory sandboxImage with
  | None => Panic "MustParse"
  | Some spec =>
      do r <- call (Create KPod (coldPod sessionID runtimeClass spec));
      match r with
      | Ok created => do! recordClaim start false; Ret (Ok created)
      | Err e => Ret (Err e)
      end
  end.

Definition claimOrCreatePod (sessionID runtimeClass pvcName cpu memory : string)
    : orchP (res Pod) :=
  do start <- now;
  let cold := coldStart sessionID runtimeClass pvcName cpu memory start in
  if decide (pvcName = "") then
    do r <- call (List KPod sandboxNS (SelEq labelState stateWarm));
    match r with
    | Ok warm => claimLoop sessionID runtimeClass start warm cold
    | Err _ => cold
    end
  else cold.

(** ** Sessions in the API server *)

Definition getSession (id : string) : orchP (res SandboxSession) :=
  call (Get KSession sandboxNS id).

Definition createSession (s : SandboxSession) : orchP (res unit) :=
  do r <- call (Create KSession s);
  Ret (match r with Ok _ => Ok tt | Err e => Err e end).

Definition updateSessionStatus (s : SandboxSession) : orchP unit :=
  do! call (UpdateStatus KSession s); Ret tt.

Definition updateSession (s : SandboxSession) : orchP unit :=
  do! call (Update KSession s); Ret tt.

Definition with_status (st : SandboxSessionStatus) (s : SandboxSession) : SandboxSession :=
  mkSession (s_meta s) (s_spec s) st.

Definition with_phase (ph : string) (s : SandboxSession) : SandboxSession :=
  let st := s_status s in
  with_status (mkSessionStatus ph (PodName st) (PodIP st) (WorkspacePVC st)
                 (CreatedAt st) (ExpiresAt st)) s.

Definition with_annotation (k v : string) (s : SandboxSession) : SandboxSession :=
  let m := s_meta s in
  mkSession (mkMeta (m_ns m) (m_name m) (m_generateName m) (m_labels m)
               (<[k := v]> (m_annots m)) (m_rv m) (m_created m)) (s_spec s) (s_status s).

Definition annotation (k : string) (s : SandboxSession) : string :=
  default "" (m_annots (s_meta s) !! k).

(** [getMatrixConfig]: default hosts, TTL, cpu, memory. *)
Definition getMatrixConfig : orchP (list string * Z * string * string) :=
  do r <- call (List KMatrix sandboxNS SelAll);
  Ret (match r with
       | Ok (x :: _) =>
           (mx_defaultAllowedHosts x, default 0%Z (mx_sessionTTL x), mx_cpu x, mx_memory x)
       | _ => ([], defaultTTL, "", "")
       end).

Definition matrixResourceDefaults : orchP (string * string) :=
  do r <- call (List KMatrix sandboxNS SelAll);
  Ret (match r with Ok (x :: _) => (mx_cpu x, mx_memory x) | _ => ("", "") end).

Definition pvcNameOf (sessionID : string) : string := "workspace-" +:+ sessionID.

Definition ensureWorkspacePVC (sessionID : string) : orchP (res string) :=
  let pvcName := pvcNameOf sessionID in
  do r <- call (Get KPvc sandboxNS pvcName);
  match r with
  | Ok _ => Ret (Ok pvcName)
  | Err _ =>
      let pvc := mkPvc (mkMeta sandboxNS pvcName "" {[labelSessionID := sessionID]} ∅ 0 0)
                   "local-path" "1Gi" in
      do r <- call (Create KPvc pvc);
      Ret (match r with Ok _ => Ok pvcName | Err _ => Err (Plain "create workspace PVC") end)
  end.

(** [applySessionCNP] (expose.go): the policy rebuilt from the session and the
    exposure registry, then created or replaced. *)
Definition with_cnp_rv (rv : N) (c : Cnp) : Cnp :=
  let m := cnp_meta c in
  mkCnp (mkMeta (m_ns m) (m_name m) (m_generateName m) (m_labels m) (m_annots m) rv (m_created m))
    (cnp_endpointSelector c) (cnp_ingress c) (cnp_egress c).

Definition exposedPorts (id : string) (o : Orch) : list Z :=
  ee_port <$> default [] (o_exposed o !! id).

Definition applySessionCNP (s : SandboxSession) : orchP (res unit) :=
  do ports <- mem (fun o => (exposedPorts (m_name (s_meta s)) o, o));
  do fqdn <- fqdnEnabled;
  let obj := buildSessionCNPExposed s fqdn ports in
  do r <- call (Get KCnp (m_ns (s_meta s)) (cnpName (m_name (s_meta s))));
  match r with
  | Err e =>
      if is_not_found e then
        do r <- call (Create KCnp obj);
        Ret (match r with Ok _ => Ok tt | Err e => Err e end)
      else Ret (Err e)
  | Ok existing =>
      do r <- call (Update KCnp (with_cnp_rv (m_rv (cnp_meta existing)) obj));
      Ret (match r with Ok _ => Ok tt | Err e => Err e end)
  end.

Definition deleteCNP (s : SandboxSession) : orchP unit :=
  do! call (Delete KCnp (m_ns (s_meta s)) (cnpName (m_name (s_meta s)))); Ret tt.

(** ** Creating a session *)

Record CreateSessionRequest := mkCreateSessionRequest {
  cr_sessionID : string; cr_tenantID : string; cr_runtimeClass : string;
  cr_allowedHosts : list string; cr_env : gmap string string;
  cr_envOrder : list (string * string);        (* iteration order of [Env] *)
  cr_secretRefs : list (option SecretRef);
}.

Definition newSession (id tenant : string) (hosts : list string) (rc parent : string) (depth : Z)
    (env : gmap string string) (refs : list SecretRef) : SandboxSession :=
  mkSession (mkMeta sandboxNS id "" ∅ ∅ 0 0)
    (mkSessionSpec tenant hosts rc parent depth env refs) empty_status.

(** The status written after the pod is there; [ttl] seconds as a Go
    [time.Duration]. *)
Definition activeStatus (pod : Pod) (pvcName : string) (t ttl : Z) : SandboxSessionStatus :=
  mkSessionStatus SandboxPhaseActive (m_name (p_meta pod)) (pst_podIP (p_status pod)) pvcName
    (Some t) (if (0 <? ttl)%Z then Some (t + wrap64 (ttl * second))%Z else None).

Definition createSessionWithTTL (req : CreateSessionRequest) (ttl : Z)
    (matrixDefaultHosts : list string) (matrixCPU matrixMemory : string)
    : orchP (res SandboxSession) :=
  match validateSessionEnv (cr_env req) (cr_envOrder req) with
  | Some _ => Ret (Err (Status InvalidArgument))
  | None =>
  do sessionID <- (if decide (cr_sessionID req = "")
                   then do t <- now; Ret ("sess-" +:+ itoa t) else Ret (cr_sessionID req));
  let runtimeClass := if decide (cr_runtimeClass req = "") then "gvisor" else cr_runtimeClass req in
  do t <- now;
  let allowedHosts :=
    if decide (cr_allowedHosts req = [] /\ matrixDefaultHosts <> [])
    then matrixDefaultHosts else cr_allowedHosts req in
  match validateSecretRefs (cr_secretRefs req) with
  | Some _ => Ret (Err (Status InvalidArgument))
  | None =>
  let session := newSession sessionID (cr_tenantID req) allowedHosts runtimeClass "" 0
                   (cr_env req) (pbSecretRefsToAPI (cr_secretRefs req)) in
  try _ <- createSession session;
  try pvcName <- (if decide (cr_tenantID req <> "")
                  then ensureWorkspacePVC sessionID else Ret (Ok ""));
  try pod <- claimOrCreatePod sessionID runtimeClass pvcName matrixCPU matrixMemory;
  let session := with_status (activeStatus pod pvcName t ttl) session in
  do! updateSessionStatus session;
  do r <- applySessionCNP session;
  Ret (match r with Ok _ => Ok session | Err e => Err e end)
  end
  end.

Definition CreateSession (req : CreateSessionRequest) : orchP (res SandboxSession) :=
  do cfg <- getMatrixConfig;
  let '(hosts, ttl, cpu, memory) := cfg in
  createSessionWithTTL req ttl hosts cpu memory.

(** ** Destroying a session *)

Definition destroyStepAnnotation : string := "sandbox.k8e.io/destroy-steps".

Definition destroyStepsDone (s : SandboxSession) : gset string :=
  list_to_set (filter (fun w => w <> "") (split_on comma (annotation destroyStepAnnotation s))).

Definition markDestroyStep (id step : string) : orchP unit :=
  do r <- getSession id;
  match r with
  | Err _ => Ret tt
  | Ok s =>
      let cur := annotation destroyStepAnnotation s in
      if contains cur step then Ret tt
      else
        let cur := if decide (cur <> "") then cur +:+ "," else cur in
        updateSession (with_annotation destroyStepAnnotation (cur +:+ step) s)
  end.

Definition findPodBySession (id : string) : orchP (string * string) :=
  do r <- call (List KPod sandboxNS (SelEq labelSessionID id));
  Ret (match r with
       | Ok (p :: _) => (pst_podIP (p_status p), m_name (p_meta p))
       | _ => ("", "")
       end).

(** The pod of a session, with the fallback on the recorded pod name. *)
Definition findPodWithFallback (id : string) (s : SandboxSession) : orchP (string * string) :=
  do found <- findPodBySession id;
  if decide (fst found = "" /\ PodName (s_status s) <> "") then
    do r <- call (Get KPod sandboxNS (PodName (s_status s)));
    Ret (match r with
         | Ok p => (pst_podIP (p_status p), m_name (p_meta p))
         | Err _ => found
         end)
  else Ret found.

Definition resetWorkspace (podIP : string) : orchP unit :=
  do! call (Sandboxd podIP SReset); Ret tt.

Definition released_labels (l : gmap string string) : gmap string string :=
  delete labelSessionID (<[labelState := StateResetting]> l).

Definition releasePod (podName : string) : orchP unit :=
  do r <- call (Get KPod sandboxNS podName);
  match r with
  | Err _ => Ret tt
  | Ok pod =>
      do! call (Update KPod (with_labels (released_labels (m_labels (p_meta pod))) pod));
      Ret tt
  end.

Definition DestroySession (id : string) : orchP (res unit) :=
  try session <- getSession id;
  let session := with_phase SandboxPhaseTerminating session in
  do! updateSessionStatus session;
  let done := destroyStepsDone session in
  do! (if decide ("cnp" ∈ done) then Ret tt
       else do! deleteCNP session; markDestroyStep id "cnp");
  do pod <- findPodWithFallback id session;
  let '(podIP, podName) := pod in
  do! (if decide (podIP <> "" /\ "workspace" ∉ done) then
         do! resetWorkspace podIP;
         do! markDestroyStep id "workspace";
         if decide (podName <> "") then
           do! releasePod podName;
           markDestroyStep id "release"
         else Ret tt
       else Ret tt);
  call (Delete KSession sandboxNS id).

(** ** Listing sessions *)

Definition listSessions (ns phase : string) : orchP (res (list SandboxSession)) :=
  try l <- call (List KSession ns SelAll);
  let wantAll := bool_decide (phase = "all") in
  let phase := if decide (phase = "") then SandboxPhaseActive else phase in
  Ret (Ok (filter (fun s => wantAll = true \/ Phase (s_status s) = phase) l)).

Definition ListActiveSessions (ns : string) : orchP (res (list SandboxSession)) :=
  listSessions ns SandboxPhaseActive.

(** ** Sub-agents *)

Definition childSession (parentID childID : string) (parent : SandboxSession) : SandboxSession :=
  let sp := s_spec parent in
  newSession childID (TenantID sp) (AllowedHosts sp) (RuntimeClass sp) parentID
    (Depth sp + 1) (Env sp) (SecretRefs sp).

Definition RunSubAgent (parentID : string) : orchP (res string) :=
  do r <- getSession parentID;
  match r with
  | Err _ => Ret (Err (Status NotFound))
  | Ok parent =>
      if (maxDepth <=? Depth (s_spec parent))%Z then Ret (Err (Status PermissionDenied))
      else
        let parentPVC := WorkspacePVC (s_status parent) in
        if decide (parentPVC = "") then Ret (Err (Status FailedPrecondition))
        else
          do t <- now;
          let childID := parentID +:+ "-sub-" +:+ itoa t in
          let child := childSession parentID childID parent in
          do r <- createSession child;
          match r with
          | Err _ => Ret (Err (Status Internal))
          | Ok _ =>
              do t <- now;
              let st := mkSessionStatus SandboxPhaseActive "" (PodIP (s_status parent))
                          parentPVC (Some t) None in
              do! updateSessionStatus (with_status st child);
              Ret (Ok childID)
          end
  end.

(** ** Pause and resume *)

(** The pod goes away, its claim on CPU and memory with it. *)
Definition deletePodForPause (podName : string) : orchP (res unit) :=
  if decide (podName <> "") then
    do r <- call (Delete KPod sandboxNS podName);
    Ret (match r with
         | Ok _ => Ok tt
         | Err e => if is_not_found e then Ok tt else Err (Status Internal)
         end)
  else Ret (Ok tt).

Definition pausedStatus (pvcName : string) (st : SandboxSessionStatus) : SandboxSessionStatus :=
  mkSessionStatus SandboxPhasePaused "" "" pvcName (CreatedAt st) (ExpiresAt st).

Definition PauseSession (id : string) : orchP (res unit) :=
  try session <- getSession id;
  let st := s_status session in
  if decide (Phase st <> SandboxPhaseActive) then Ret (Err (Status FailedPrecondition))
  else if decide (TenantID (s_spec session) = "" /\ WorkspacePVC st = "")
  then Ret (Err (Status FailedPrecondition))
  else
    do r <- (if decide (WorkspacePVC st = "") then ensureWorkspacePVC id
             else Ret (Ok (WorkspacePVC st)));
    match r with
    | Err _ => Ret (Err (Status Internal))
    | Ok pvcName =>
        do pod <- findPodWithFallback id session;
        try _ <- deletePodForPause (snd pod);
        let session := with_status (pausedStatus pvcName st) session in
        do! updateSessionStatus session;
        do! deleteCNP session;
        Ret (Ok tt)
    end.

Definition ResumeSession (id : string) : orchP (res Pod) :=
  try session <- getSession id;
  let st := s_status session in
  if decide (Phase st <> SandboxPhasePaused) then Ret (Err (Status FailedPrecondition))
  else if decide (WorkspacePVC st = "") then Ret (Err (Status FailedPrecondition))
  else
    do cfg <- matrixResourceDefaults;
    do r <- claimOrCreatePod id (RuntimeClass (s_spec session)) (WorkspacePVC st) (fst cfg) (snd cfg);
    match r with
    | Err _ => Ret (Err (Status Internal))
    | Ok pod =>
        let session := with_status
          (mkSessionStatus SandboxPhaseActive (m_name (p_meta pod)) (pst_podIP (p_status pod))
             (WorkspacePVC st) (CreatedAt st) (ExpiresAt st)) session in
        do! updateSessionStatus session;
        do r <- applySessionCNP session;
        Ret (match r with Ok _ => Ok pod | Err _ => Err (Status Internal) end)
    end.

(** ** Capacity *)

Definition pod_limits (p : Pod) : list Z :=
  omap (fun c => q_value <$> (c_limits c !! "memory")) (ps_containers (p_spec p)).

Definition sumPodMemoryLimits (pods : list Pod) : Z :=
  foldl (fun used v => wrap64 (used + v)) 0%Z (concat (pod_limits <$> pods)).

Definition defaultPodMemory : Z := 512 * 1024 * 1024.

Definition podMemoryLimit (pods : list Pod) : Z :=
  match pods with
  | [] => defaultPodMemory
  | p :: _ => default defaultPodMemory (head (pod_limits p))
  end.

Definition nodeMemoryAllocatable : orchP (res Z) :=
  do r <- call (List KNode "" SelAll);
  Ret (match r with
       | Err _ => Err (Plain "capacity check: list nodes")
       | Ok [] => Err (Plain "capacity check: no nodes found")
       | Ok (n :: _) =>
           if q_is_zero (n_memory n) then Err (Plain "capacity check: no allocatable memory")
           else Ok (q_value (n_memory n))
       end).

Definition CheckCapacity : orchP (res unit) :=
  try allocatable <- nodeMemoryAllocatable;
  do r <- call (List KPod sandboxNS (SelHas labelState));
  match r with
  | Err _ => Ret (Err (Plain "capacity check: list pods"))
  | Ok pods =>
      let usedMemory := sumPodMemoryLimits pods in
      let available := go_div (wrap64 (allocatable * 9)) 10 in
      let perPod := podMemoryLimit pods in
      if (wrap64 (available - usedMemory) <? perPod)%Z
      then Ret (Err (Status ResourceExhausted)) else Ret (Ok tt)
  end.

(** ** The pod template *)

Lemma SandboxPodSpec_Some rc pvc cpu memory image spec :
  SandboxPodSpec rc pvc cpu memory image = Some spec ->
  ps_volumes spec = [("workspace", if decide (pvc <> "") then PersistentVolumeClaim pvc else EmptyDir)] /\
  ps_runtimeClassName spec = if decide (rc <> "") then Some rc else None.
Proof.
  unfold SandboxPodSpec. cbv zeta.
  destruct (parseQuantity _); [|done]. destruct (parseQuantity _); [|done]. by intros [= <-].
Qed.

(** ** Labels of claimed and released pods *)

Lemma claimed_labels_session sid l : claimed_labels sid l !! labelSessionID = Some sid.
Proof. apply lookup_insert_eq. Qed.

Lemma claimed_labels_state sid l : claimed_labels sid l !! labelState = Some stateActive.
Proof. unfold claimed_labels. by rewrite lookup_insert_ne, lookup_insert_eq. Qed.

Lemma released_labels_session l : released_labels l !! labelSessionID = None.
Proof. apply lookup_delete_eq. Qed.

Lemma released_labels_state l : released_labels l !! labelState = Some StateResetting.
Proof. unfold released_labels. by rewrite lookup_delete_ne, lookup_insert_eq. Qed.

End pods.

#[export] Hint Rewrite claimed_labels_session claimed_labels_state
  released_labels_session released_labels_state : k8e.
