(* ===== verification/Controller.v ===== *)
(** * The SandboxMatrix controller

    [pkg/sandboxmatrix/controller.go]: sizing of the warm pool, its reconcile
    loop, recycling, the resetting detector, the idle reaper, expiry of
    sessions, the status surface, and the wiring done by [Register]. *)
From S2P Require Import Prelude Prog Kube SessionEnv GoTime Orchestrator.
Open Scope Z_scope.

Record SandboxConfig := mkSandboxConfig {
  DefaultRuntime : string; DefaultImage : string; DefaultCPU : string;
  DefaultMemory : string; GRPCPort : Z; Namespace : string; CiliumDNSProxyEnabled : bool;
}.

Definition or_default (v d : string) : string := if decide (v = "") then d else v.

(** The defaults [Register] fills in. *)
Definition applyDefaults (cfg : SandboxConfig) : SandboxConfig :=
  mkSandboxConfig (or_default (DefaultRuntime cfg) "gvisor")
    (or_default (DefaultImage cfg) "ghcr.io/xiaods/k8e-sandbox:latest")
    (or_default (DefaultCPU cfg) "500m") (or_default (DefaultMemory cfg) "512Mi")
    (if GRPCPort cfg =? 0 then 50051 else GRPCPort cfg)
    (or_default (Namespace cfg) "sandbox-matrix") (CiliumDNSProxyEnabled cfg).

(** ** Demand *)

Definition demandDecayWindow : Z := 5 * minute.
Definition recycleUnhealthyWarmPodAfter : Z := 5 * minute.

Record warmDemand := mkDemand {
  wd_lastColdStarts : Z; wd_lastObserved : Z; wd_recentColdStarts : Z;
}.

(** The new demand; its [wd_recentColdStarts] is the returned boost. *)
Definition observe (d : warmDemand) (t coldStarts : Z) : warmDemand :=
  let delta := coldStarts - wd_lastColdStarts d in
  if 0 <? delta then mkDemand coldStarts t (wd_recentColdStarts d + delta)
  else if demandDecayWindow <=? t - wd_lastObserved d
  then mkDemand (wd_lastColdStarts d) t 0
  else d.

(** ** Sizing *)

Definition adaptiveTarget (configuredSize minSize maxSize boost : Z) : Z :=
  let base := if configuredSize <=? 0 then 1 else configuredSize in
  if maxSize <=? base then base
  else
    let lo := if minSize <=? 0 then base else minSize in
    let target := if base <? boost then boost else base in
    let target := if target <? lo then lo else target in
    if maxSize <? target then maxSize else target.

Definition poolTargetSize (configured maxPods : Z) : Z :=
  let t := if configured <=? 0 then 1 else configured in
  let t := if (0 <? maxPods) && (maxPods <? t) then maxPods else t in
  if t <? 1 then 1 else t.

Definition capacityFor (total divisor : Z) : Z :=
  if (total <=? 0) || (divisor <=? 0) then 0
  else go_div (go_div (wrap64 (total * 9)) 10) divisor.

Definition tighterCapacity (a b : Z) : Z :=
  if a =? 0 then b else if (b =? 0) || (a <? b) then a else b.

Definition sumNodeAllocatable (nodes : list Node) : Z * Z :=
  foldl (fun acc n => (wrap64 (fst acc + q_value (n_memory n)),
                       wrap64 (snd acc + q_milli (n_cpu n)))) (0, 0) nodes.

Section controller.
Context `{QuantityParser}.

(** [None]: MustParse panics. *)
Definition perPodResources (cfg : SandboxConfig) : option (Quantity * Quantity) :=
  match parseQuantity (DefaultMemory cfg) with
  | None => None
  | Some mem =>
      match (if q_is_zero mem then parseQuantity "512Mi" else Some mem) with
      | None => None
      | Some mem =>
          match parseQuantity (DefaultCPU cfg) with
          | None => None
          | Some cpu =>
              match (if q_is_zero cpu then parseQuantity "500m" else Some cpu) with
              | None => None
              | Some cpu => Some (mem, cpu)
              end
          end
      end
  end.

Definition computeMaxPods (cfg : SandboxConfig) : orchP Z :=
  do r <- call (List KNode "" SelAll);
  match r with
  | Err _ => Ret 0
  | Ok nodes =>
      if decide (nodes = nil) then Ret 0
      else
        let '(totalMem, totalCPU) := sumNodeAllocatable nodes in
        if (totalMem =? 0) && (totalCPU =? 0) then Ret 0
        else match perPodResources cfg with
             | None => Panic "MustParse"
             | Some (mem, cpu) =>
                 Ret (tighterCapacity (capacityFor totalMem (q_value mem))
                                      (capacityFor totalCPU (q_milli cpu)))
             end
  end.

(** ** Warm pods *)

Definition podIdleTTLAnnotation : string := "sandbox.k8e.io/idle-ttl-seconds".
Definition podReleasedAtAnnotation : string := "sandbox.k8e.io/released-at".

Definition warmPodSpec (runtimeClass : string) (cfg : SandboxConfig) : option PodSpec :=
  SandboxPodSpec runtimeClass "" (DefaultCPU cfg) (DefaultMemory cfg) (DefaultImage cfg).

Definition newWarmPod (cfg : SandboxConfig) (runtimeClass : string) (idleTTLSeconds : Z)
    : option Pod :=
  let annotations := GvisorAnnotations runtimeClass in
  let annotations := if 0 <? idleTTLSeconds
                     then <[podIdleTTLAnnotation := itoa idleTTLSeconds]> annotations
                     else annotations in
  match warmPodSpec runtimeClass cfg with
  | None => None
  | Some spec =>
      Some (mkPod (mkMeta (Namespace cfg) "" "sandbox-warm-"
                     {[labelState := stateWarm; labelRuntimeClass := runtimeClass]}
                     annotations 0 0)
              spec (mkPodStatus PodPending "" []))
  end.

(** The creation loop: [fuel] is the gap, [i] the loop variable. *)
Fixpoint createWarmPods (cfg : SandboxConfig) (runtimeClass : string) (idleTTL maxPods all i : Z)
    (fuel : nat) : orchP unit :=
  match fuel with
  | O => Ret tt
  | S fuel =>
      if (0 <? maxPods) && (maxPods <? all + i + 1) then Ret tt
      else match newWarmPod cfg runtimeClass idleTTL with
           | None => Panic "MustParse"
           | Some pod =>
               do! call (Create KPod pod);
               createWarmPods cfg runtimeClass idleTTL maxPods all (i + 1) fuel
           end
  end.

Definition reconcileSinglePool (cfg : SandboxConfig) (maxPods boost : Z) (pool : SandboxWarmPool)
    : orchP unit :=
  let configuredSize := default 0 (wp_size pool) in
  let runtimeClass := or_default (default "" (wp_runtimeClass pool)) (DefaultRuntime cfg) in
  let idleTTL := default 0 (wp_idleTTLSeconds pool) in
  let targetSize := poolTargetSize
    (adaptiveTarget configuredSize (default 0 (wp_minSize pool)) (default 0 (wp_maxSize pool)) boost)
    maxPods in
  do r <- call (List KPod (Namespace cfg) (SelHas labelState));
  match r with
  | Err _ => Ret tt
  | Ok allPods =>
      let all := Z.of_nat (length allPods) in
      if (0 <? maxPods) && (maxPods <=? all) then Ret tt
      else
        do r <- call (List KPod (Namespace cfg) (SelEq labelState stateWarm));
        match r with
        | Err _ => Ret tt
        | Ok warmPods =>
            let gap := targetSize - Z.of_nat (length warmPods) in
            createWarmPods cfg runtimeClass idleTTL maxPods all 0 (Z.to_nat gap)
        end
  end.

Definition deleteWarmPod (ns name : string) : orchP unit :=
  do! call (Delete KPod ns name); Ret tt.

Definition recycleUnhealthyWarmPods (ns : string) : orchP unit :=
  do r <- call (List KPod ns (SelEq labelState stateWarm));
  match r with
  | Err _ => Ret tt
  | Ok pods =>
      do t <- now;
      for_each pods (fun pod =>
        let st := p_status pod in
        if decide (pst_phase st = PodFailed) then deleteWarmPod ns (m_name (p_meta pod))
        else if negb (bool_decide (pst_phase st = PodRunning)) || PodReadyCondition pod then Ret tt
        else if t - m_created (p_meta pod) <? recycleUnhealthyWarmPodAfter then Ret tt
        else deleteWarmPod ns (m_name (p_meta pod)))
  end.

(** ** Status surface *)

Definition with_matrix_status (st : SandboxMatrixStatus) (x : SandboxMatrix) : SandboxMatrix :=
  mkMatrix (mx_meta x) (mx_sessionTTL x) (mx_defaultAllowedHosts x) (mx_cpu x) (mx_memory x)
    (mx_rateLimits x) (Some st).

Definition ok_or_nil {A} (r : res (list A)) : list A :=
  match r with Ok l => l | Err _ => [] end.

Definition updateSandboxMatrixStatus (cfg : SandboxConfig) : orchP unit :=
  do r <- call (List KMatrix (Namespace cfg) SelAll);
  match r with
  | Ok (matrix :: _) =>
      do warm <- call (List KPod (Namespace cfg) (SelEq labelState stateWarm));
      do active <- call (List KPod (Namespace cfg) (SelEq labelState stateActive));
      let warm := ok_or_nil warm in
      let active := ok_or_nil active in
      let readyWarm := length (filter (fun p => pst_phase (p_status p) = PodRunning) warm) in
      do maxPods <- computeMaxPods cfg;
      do m <- Metrics;
      let '(claimedWarm, coldStarts, avgLatency) := m in
      let st := mkMatrixStatus (Z.of_nat readyWarm) (Z.of_nat (length active)) maxPods
                  (Z.of_nat (length warm + length active)) claimedWarm coldStarts avgLatency in
      do! call (UpdateStatus KMatrix (with_matrix_status st matrix));
      Ret tt
  | _ => Ret tt
  end.

(** One tick of the reconciler, with the demand it carries over. *)
Definition reconcileWarmPools (cfg : SandboxConfig) (demand : warmDemand) : orchP warmDemand :=
  do r <- call (List KWarmPool (Namespace cfg) SelAll);
  match r with
  | Err _ => Ret demand
  | Ok pools =>
      do maxPods <- computeMaxPods cfg;
      do m <- Metrics;
      do t <- now;
      let demand := observe demand t (snd (fst m)) in
      do! for_each pools (reconcileSinglePool cfg maxPods (wd_recentColdStarts demand));
      do! recycleUnhealthyWarmPods (Namespace cfg);
      do! updateSandboxMatrixStatus cfg;
      Ret demand
  end.

(** ** Expiry of sessions *)

Definition expired_at (t : Z) (s : SandboxSession) : bool :=
  match ExpiresAt (s_status s) with Some e => e <? t | None => false end.

Definition gcExpiredSessions (ns : string) : orchP unit :=
  do r <- ListActiveSessions ns;
  match r with
  | Err _ => Ret tt
  | Ok sessions =>
      do t <- now;
      for_each sessions (fun s =>
        if expired_at t s then do! DestroySession (m_name (s_meta s)); Ret tt else Ret tt)
  end.

(** ** Resetting pods and idle pods *)

Definition with_pod_annotation (k v : string) (p : Pod) : Pod :=
  let m := p_meta p in
  mkPod (mkMeta (m_ns m) (m_name m) (m_generateName m) (m_labels m) (<[k := v]> (m_annots m))
           (m_rv m) (m_created m)) (p_spec p) (p_status p).

Definition pod_annotation (k : string) (p : Pod) : string :=
  default "" (m_annots (p_meta p) !! k).

Definition promoted (t : Z) (p : Pod) : Pod :=
  with_pod_annotation podReleasedAtAnnotation (format_rfc3339 t)
    (with_labels (<[labelState := stateWarm]> (m_labels (p_meta p))) p).

Definition detectResetting (ns : string) : orchP unit :=
  do r <- call (List KPod ns (SelEq labelState StateResetting));
  match r with
  | Err _ => Ret tt
  | Ok pods =>
      for_each pods (fun pod =>
        if decide (pst_phase (p_status pod) <> PodRunning) then Ret tt
        else
          do t <- now;
          do! call (Update KPod (promoted t pod));
          Ret tt)
  end.

Definition getSessionTTL (ns : string) : orchP Z :=
  do r <- call (List KMatrix ns SelAll);
  Ret (match r with Ok (x :: _) => default 3600 (mx_sessionTTL x) | _ => 3600 end).

(** [true]: the pod carries a release time and may be reaped. *)
Definition ensureReleaseTimestamp (t : Z) (pod : Pod) : orchP bool :=
  if decide (pod_annotation podReleasedAtAnnotation pod <> "") then Ret true
  else
    do! call (Update KPod (with_pod_annotation podReleasedAtAnnotation (format_rfc3339 t) pod));
    Ret false.

(** The per-pod override of the idle TTL, in seconds. *)
Definition idleTTL_of (pod : Pod) (defaultTTL : Z) : Z :=
  let a := pod_annotation podIdleTTLAnnotation pod in
  if decide (a = "") then defaultTTL
  else match ParseInt a with
       | Some v => if 0 <? v then v else defaultTTL
       | None => defaultTTL
       end.

Definition idle_too_long (pod : Pod) (defaultTTL t : Z) : bool :=
  match parse_rfc3339 (pod_annotation podReleasedAtAnnotation pod) with
  | None => false
  | Some released => negb (t - released <=? wrap64 (idleTTL_of pod defaultTTL * second))
  end.

Definition reapIfIdle (ns : string) (pod : Pod) (defaultTTL t : Z) : orchP unit :=
  if idle_too_long pod defaultTTL t
  then do! call (Delete KPod ns (m_name (p_meta pod))); Ret tt
  else Ret tt.

Definition reapIdlePods (ns : string) : orchP unit :=
  do sessionTTL <- getSessionTTL ns;
  let ttl := wrap64 (sessionTTL * 2) in
  do r <- call (List KPod ns (SelEq labelState stateWarm));
  match r with
  | Err _ => Ret tt
  | Ok pods =>
      do t <- now;
      for_each pods (fun pod =>
        do stamped <- ensureReleaseTimestamp t pod;
        if stamped then reapIfIdle ns pod ttl t else Ret tt)
  end.

End controller.

(** ** The process that [Register] starts *)

(** The controller and the gRPC server each get an orchestrator of their own:
    [Register] builds one and hangs the refill callback on it, and [NewServer]
    builds another for the requests it serves. *)
Record Process := mkProcess {
  pr_controller : Orch;        (* orch in Register *)
  pr_gateway : Orch;           (* srv.orch, from NewServer *)
  pr_demand : warmDemand;
}.

Definition with_onWarmClaim (o : Orch) : Orch :=
  mkOrch (o_runRegistry o) (o_exposed o) true (o_refill o) (o_claimedFromWarm o)
    (o_coldStarts o) (o_claimLatencyTotalMs o) (o_claimCount o)
    (o_maxBackgroundRuns o) (o_fqdnEgressEnabled o).

Definition Register (cfg : SandboxConfig) (start : Z) : Process :=
  mkProcess (with_onWarmClaim NewOrchestrator)
    (if CiliumDNSProxyEnabled cfg then with_fqdn true NewOrchestrator else NewOrchestrator)
    (mkDemand 0 start 0).

(** What the process does next: a request on the gateway's orchestrator, a
    reconcile or a GC tick on the controller's. *)
Inductive process_step `{QuantityParser} {S} (h : handler (gwE Orch) (Orch * S))
    (cfg : SandboxConfig) : Process * S -> Process * S -> Prop :=
  | step_request {A} (p : orchP A) pr s :
      process_step h cfg (pr, s)
        (let '(_, (gw, s')) := run h p (pr_gateway pr, s) in
         (mkProcess (pr_controller pr) gw (pr_demand pr), s'))
  | step_reconcile pr s ctl s' d :
      run h (reconcileWarmPools cfg (pr_demand pr)) (pr_controller pr, s) = (Done d, (ctl, s')) ->
      process_step h cfg (pr, s) (mkProcess ctl (pr_gateway pr) d, s')
  | step_elected pr s start :          (* runWarmPoolReconciler starts on a new leader *)
      process_step h cfg (pr, s)
        (mkProcess (pr_controller pr) (pr_gateway pr) (mkDemand 0 start 0), s)
  | step_resetting pr s :
      process_step h cfg (pr, s)
        (let '(_, (ctl, s')) := run h (detectResetting (Namespace cfg)) (pr_controller pr, s) in
         (mkProcess ctl (pr_gateway pr) (pr_demand pr), s'))
  | step_reaper pr s :
      process_step h cfg (pr, s)
        (let '(_, (ctl, s')) := run h (reapIdlePods (Namespace cfg)) (pr_controller pr, s) in
         (mkProcess ctl (pr_gateway pr) (pr_demand pr), s'))
  | step_gc pr s :
      process_step h cfg (pr, s)
        (let '(_, (ctl, s')) := run h (gcExpiredSessions (Namespace cfg)) (pr_controller pr, s) in
         (mkProcess ctl (pr_gateway pr) (pr_demand pr), s')).
