(* ===== verification/Samples.v ===== *)
(** * Sample worlds

    Small concrete clusters and a quantity parser, on which the examples and
    witnesses of the other files run. *)
From S2P Require Import Prelude Prog Kube SessionEnv GoTime Orchestrator.

(** Every quantity reads as one unit. *)
#[export] Instance sample_parser : QuantityParser := fun _ => Some (mkQuantity 1 1000).

Definition sample_meta (name : string) (labels : gmap string string) (rv : N) : Meta :=
  mkMeta sandboxNS name "" labels ∅ rv 0.

Definition empty_podspec : PodSpec := mkPodSpec [] [] "Default" "Never" None.

Definition ready_status (ip : string) : PodStatus :=
  mkPodStatus PodRunning ip [("Ready", "True")].

Definition sample_pod (name : string) (labels : gmap string string) (rv : N) : Pod :=
  mkPod (sample_meta name labels rv) empty_podspec (ready_status "10.0.0.1").

(** One warm pod, ready to be claimed. *)
Definition warm_pod : Pod := sample_pod "w1" {[labelState := stateWarm]} 1.

Definition with_pods (l : list Pod) (rv : N) : Cluster :=
  mkCluster 0 rv (list_to_map ((fun p => ((m_ns (p_meta p), m_name (p_meta p)), p)) <$> l))
    ∅ ∅ ∅ ∅ ∅ ∅ ∅.

Definition warm_world : Orch * Cluster := (NewOrchestrator, with_pods [warm_pod] 1).

(** An active session [s1] of tenant [t1] with its pod [p1] and workspace. *)
Definition active_pod : Pod :=
  sample_pod "p1" {[labelState := stateActive; labelSessionID := "s1"]} 1.

Definition active_session : SandboxSession :=
  mkSession (sample_meta "s1" ∅ 2)
    (mkSessionSpec "t1" [] "gvisor" "" 0 ∅ [])
    (mkSessionStatus SandboxPhaseActive "p1" "10.0.0.1" "workspace-s1" (Some 0%Z) None).

Definition session_world : Orch * Cluster :=
  (NewOrchestrator,
   mkCluster 0 3 {[(sandboxNS, "p1") := active_pod]}
     {[(sandboxNS, "workspace-s1") := mkPvc (sample_meta "workspace-s1" ∅ 3) "local-path" "1Gi"]}
     {[(sandboxNS, "s1") := active_session]} ∅ ∅ ∅ ∅ ∅).

(** The same session paused: its pod is gone, its workspace recorded. *)
Definition paused_session : SandboxSession :=
  mkSession (sample_meta "s1" ∅ 2) (s_spec active_session)
    (mkSessionStatus SandboxPhasePaused "" "" "workspace-s1" (Some 0%Z) None).

Definition paused_world : Orch * Cluster :=
  (NewOrchestrator,
   mkCluster 0 3 ∅ (cl_pvcs (snd session_world)) {[(sandboxNS, "s1") := paused_session]} ∅ ∅ ∅ ∅ ∅).

(** Session [s1] and a sub-agent [c1] that shares its workspace. *)
Definition sub_agent : SandboxSession :=
  mkSession (sample_meta "c1" ∅ 4)
    (mkSessionSpec "t1" [] "gvisor" "s1" 1 ∅ [])
    (mkSessionStatus SandboxPhaseActive "" "10.0.0.1" "workspace-s1" (Some 0%Z) None).

Definition sub_agent_world : Orch * Cluster :=
  (NewOrchestrator,
   mkCluster 0 4 (cl_pods (snd session_world)) (cl_pvcs (snd session_world))
     {[(sandboxNS, "s1") := active_session; (sandboxNS, "c1") := sub_agent]} ∅ ∅ ∅ ∅ ∅).

(** A call as it stands after a schedule. *)
Definition result_of {E A} (ps : list (prog E A)) (i : nat) : option A :=
  match ps !! i with Some (Ret a) => Some a | _ => None end.

(** A postcondition proved against the contract holds of a run against the
    sample server. *)
Lemma live_run {A} (p : orchP A) (Q : outcome A -> Orch * Cluster -> Prop) v :
  wp (kube_contract Orch false) p Q v ->
  Q (fst (run (live_handler Orch) p v)) (snd (run (live_handler Orch) p v)).
Proof. exact (wp_sound (kube_contract Orch false) (live_handler Orch) id p Q v (live_handler_respects false Orch)). Qed.
