(* ===== verification/Claim.v ===== *)
(** * Concurrent claims of warm pods

    Requests claim warm pods while the controller promotes reset pods and
    refills the pool, all against one API server and with no lock between
    them; what keeps two sessions off the same pod is the resourceVersion
    carried by the claiming update.  The proof is by rely-guarantee over the
    programs of [Orchestrator] and [Controller]. *)
From S2P Require Import Prelude Prog Kube SessionEnv GoTime Orchestrator Controller Samples.

(** ** The calls that may run side by side *)

Inductive pool_call :=
  | CClaim (sid rc pvc cpu memory : string)             (* claimOrCreatePod *)
  | CPromote (ns : string)                              (* detectResetting *)
  | CRefill (cfg : SandboxConfig) (maxPods boost : Z) (pool : SandboxWarmPool).

Section claim.
Context `{QP : QuantityParser}.

Definition background (p : orchP unit) : orchP (res Pod) := do! p; Ret (Err (Plain "")).

Definition call_prog (c : pool_call) : orchP (res Pod) :=
  match c with
  | CClaim sid rc pvc cpu memory => claimOrCreatePod sid rc pvc cpu memory
  | CPromote ns => background (detectResetting ns)
  | CRefill cfg maxPods boost pool => background (reconcileSinglePool cfg maxPods boost pool)
  end.

Definition call_session (c : pool_call) : option string :=
  match c with CClaim sid _ _ _ _ => Some sid | _ => None end.

(** ** Invariant of the pods *)

Definition pkey (p : Pod) : key := (m_ns (p_meta p), m_name (p_meta p)).
Definition prv (p : Pod) : N := m_rv (p_meta p).
Definition put_pod (p : Pod) : Cluster -> Cluster := put (k := KPod) p.
#[local] Arguments put_pod : simpl never.

Definition session_of (p : Pod) : option string := m_labels (p_meta p) !! labelSessionID.
Definition state_of (p : Pod) : option string := m_labels (p_meta p) !! labelState.

(** Revisions are those handed out so far, objects sit under their own key,
    and only an active pod carries a session. *)
Definition pods_ok (c : Cluster) : Prop :=
  forall i p, cl_pods c !! i = Some p ->
    pkey p = i /\ (0 < prv p <= cl_rv c)%N /\
    (is_Some (session_of p) -> state_of p = Some stateActive).

(** ** Rely and guarantee *)

(** What every call preserves: revisions only grow, and a pod that is new or
    changed has a revision nobody has seen. *)
Definition base (c c' : Cluster) : Prop :=
  (cl_rv c <= cl_rv c')%N /\
  (forall i p, cl_pods c' !! i = Some p -> cl_pods c !! i = Some p \/ (cl_rv c < prv p)%N) /\
  (pods_ok c -> pods_ok c').

(** Pods of session [s] stay as they are. *)
Definition keeps_session (s : string) (c c' : Cluster) : Prop :=
  forall i p, cl_pods c !! i = Some p -> session_of p = Some s -> cl_pods c' !! i = Some p.

Definition rely (s : option string) (v v' : Orch * Cluster) : Prop :=
  base (snd v) (snd v') /\ forall s', s = Some s' -> keeps_session s' (snd v) (snd v').

Definition guar (s : option string) (v v' : Orch * Cluster) : Prop :=
  base (snd v) (snd v') /\ forall s', s <> Some s' -> keeps_session s' (snd v) (snd v').

(** The pod a claim returned is in the cluster, labelled with its session. *)
Definition claimed (s : option string) (r : res Pod) (v : Orch * Cluster) : Prop :=
  match s, r with
  | Some s, Ok p => exists p', cl_pods (snd v) !! pkey p = Some p' /\ session_of p' = Some s
  | _, _ => True
  end.

(** A copy of a pod read at some point, as it may be used later: if the
    stored pod still has its revision, it is the same pod. *)
Definition copy_ok (p : Pod) (c : Cluster) : Prop :=
  (0 < prv p <= cl_rv c)%N /\
  forall cur, cl_pods c !! pkey p = Some cur -> prv cur = prv p -> cur = p.

(** ** Lemmas *)

Lemma base_refl c c' :
  cl_pods c' = cl_pods c -> cl_rv c' = cl_rv c -> base c c'.
Proof. intros Hp Hr. unfold base, pods_ok. rewrite Hp, Hr. split; [done|]. split; eauto. Qed.

Lemma base_trans c1 c2 c3 : base c1 c2 -> base c2 c3 -> base c1 c3.
Proof.
  intros (H1 & H2 & H3) (H4 & H5 & H6). split; [lia|]. split; [|by eauto].
  intros i p [Hp|Hp]%H5; [|right; lia]. apply H2 in Hp as [?|?]; [by left|by right].
Qed.

#[local] Instance rely_preorder s : PreOrder (rely s).
Proof.
  split.
  - intros v. split; [by apply base_refl|]. intros s' _ i p Hp _. done.
  - intros v1 v2 v3 [Hb1 Hs1] [Hb2 Hs2]. split; [by eapply base_trans|].
    intros s' -> i p Hp Hs. eapply Hs2; [done| |done]. by eapply Hs1.
Qed.

Lemma claimed_stable s r v v' : rely s v v' -> claimed s r v -> claimed s r v'.
Proof.
  intros [_ Hs]. unfold claimed. destruct s as [s|]; [|done]. destruct r; [|done].
  intros (p' & Hp & Hl). exists p'. split; [|done]. by eapply Hs.
Qed.

Lemma base_pods_ok c c' : base c c' -> pods_ok c -> pods_ok c'.
Proof. by intros (_ & _ & H). Qed.

Lemma copy_base p c c' : base c c' -> copy_ok p c -> copy_ok p c'.
Proof.
  intros (H1 & H2 & _) [Hrv Hc]. split; [lia|].
  intros cur Hcur E. apply H2 in Hcur as [Hcur|Hcur]; [by apply Hc|]. lia.
Qed.

(** A step that leaves pods and revisions alone keeps every guarantee. *)
Lemma guar_silent s (v v' : Orch * Cluster) :
  cl_pods (snd v') = cl_pods (snd v) -> cl_rv (snd v') = cl_rv (snd v) -> guar s v v'.
Proof.
  intros Hp Hr. split; [by apply base_refl|]. intros s' _ i p Hi _. by rewrite Hp.
Qed.

(** A copy just read from a well-formed store may be used later. *)
Lemma copy_fresh c i p : pods_ok c -> cl_pods c !! i = Some p -> copy_ok p c.
Proof.
  intros Hok Hi. destruct (Hok i p Hi) as (<- & Hrv & _). split; [done|].
  intros cur Hcur _. rewrite Hi in Hcur. by injection Hcur.
Qed.

Lemma listed_copies c ns sel l :
  pods_ok c -> l ≡ₚ list_objs KPod ns sel c ->
  Forall (fun p => copy_ok p c /\ sel_match sel (m_labels (p_meta p)) = true) l.
Proof.
  intros Hok Hl. rewrite Hl, Forall_forall. intros p Hp.
  destruct (proj1 (elem_of_list_objs KPod ns sel c p) Hp) as (Hs & i & Hi).
  split; [by eapply copy_fresh|]. by apply andb_true_iff in Hs as [_ ?].
Qed.

Lemma pods_put (p : Pod) c i :
  cl_pods (put_pod p c) !! i = if decide (pkey p = i) then Some p else cl_pods c !! i.
Proof. change (<[pkey p := p]> (cl_pods c) !! i = if decide (pkey p = i) then Some p else cl_pods c !! i). apply lookup_insert. Qed.

Lemma pods_put_eq (p : Pod) c : cl_pods (put_pod p c) !! pkey p = Some p.
Proof. by rewrite pods_put, decide_True. Qed.

Lemma rv_put (p : Pod) c : cl_rv (put_pod p c) = prv p.
Proof. done. Qed.

(** Storing an updated pod in place of an unclaimed one. *)
Lemma guar_put s (m m' : Orch) c (p : Pod) :
  pods_ok c ->
  (forall cur, cl_pods c !! pkey p = Some cur -> session_of cur = None) ->
  (cl_rv c < prv p)%N ->
  (is_Some (session_of p) -> state_of p = Some stateActive) ->
  guar s (m, c) (m', put_pod p c).
Proof.
  intros Hok Hcur Hrv Hst. unfold guar. simpl.
  split.
  - split; [rewrite rv_put; lia|]. split.
    + intros i q. rewrite pods_put. case_decide; [intros [= <-]; by right|by left].
    + intros _ i q. rewrite pods_put, rv_put. case_decide.
      * intros [= <-]. split; [done|]. split; [lia|done].
      * intros Hq. destruct (Hok i q Hq) as (? & ? & ?). split; [done|]. split; [lia|done].
  - intros s' _ i q Hq Hs. rewrite pods_put. case_decide as Hk; [|done]. subst i.
    apply Hcur in Hq. congruence.
Qed.

(** The contract of pod updates and creates, in terms of pods. *)
Lemma pod_update_inv faults (v v' : Orch * Cluster) (p : Pod) (r : res Pod) :
  kube_contract Orch faults _ (Update KPod p) v r v' ->
  match r with
  | Ok q => exists cur,
      cl_pods (snd v) !! pkey p = Some cur /\ (prv p = prv cur \/ prv p = 0%N) /\
      (cl_rv (snd v) < prv q)%N /\ pkey q = pkey p /\
      m_labels (p_meta q) = m_labels (p_meta p) /\ v' = (fst v, put_pod q (snd v))
  | Err _ => v' = v
  end.
Proof.
  destruct v as [m c], v' as [m' c']. intros [Hm Hr]. simpl in Hm. subst m'.
  destruct r as [q|e]; simpl in Hr; [|by destruct Hr].
  destruct Hr as (cur & rv & Hcur & Hver & Hlt & -> & ->).
  exists cur. split; [exact Hcur|]. split; [destruct Hver as [?|[? _]]; [by left|by right]|].
  destruct p as [[] ? ?]. done.
Qed.

Lemma pod_create_inv faults (v v' : Orch * Cluster) (p : Pod) (r : res Pod) :
  kube_contract Orch faults _ (Create KPod p) v r v' ->
  match r with
  | Ok q =>
      cl_pods (snd v) !! pkey q = None /\ (cl_rv (snd v) < prv q)%N /\
      m_labels (p_meta q) = m_labels (p_meta p) /\ v' = (fst v, put_pod q (snd v))
  | Err _ => v' = v
  end.
Proof.
  destruct v as [m c], v' as [m' c']. intros [Hm Hr]. simpl in Hm. subst m'.
  destruct r as [q|e]; simpl in Hr; [|by destruct Hr].
  destruct Hr as (name & rv & _ & Hnone & Hlt & -> & ->).
  by destruct p as [[] ? ?].
Qed.

(** An update guarded by the revision of a usable copy without a session. *)
Lemma update_copy s faults (v v' : Orch * Cluster) (p p' : Pod) (r : res Pod) :
  pods_ok (snd v) -> copy_ok p (snd v) -> session_of p = None ->
  pkey p' = pkey p -> prv p' = prv p ->
  (is_Some (session_of p') -> state_of p' = Some stateActive) ->
  kube_contract Orch faults _ (Update KPod p') v r v' ->
  guar s v v' /\
  match r with
  | Ok q => cl_pods (snd v') !! pkey q = Some q /\ session_of q = session_of p'
  | Err _ => v' = v
  end.
Proof.
  intros Hok [Hrv Hcopy] Hns Hkey Hrv' Hst Hr%pod_update_inv. destruct r as [q|e].
  - destruct Hr as (cur & Hcur & Hver & Hlt & Hk & Hl & ->). destruct v as [m c]. simpl in *.
    assert (cur = p) as ->.
    { apply Hcopy; [congruence|]. destruct Hver; [congruence|lia]. }
    unfold session_of, state_of in *. split.
    + apply guar_put; [done| |done|unfold session_of, state_of; by rewrite Hl].
      rewrite Hk, Hcur. by intros cur [= <-].
    + split; [by apply pods_put_eq|by rewrite Hl].
  - subst v'. split; [by apply guar_silent|done].
Qed.

Lemma create_pod s faults (v v' : Orch * Cluster) (p : Pod) (r : res Pod) :
  pods_ok (snd v) ->
  (is_Some (session_of p) -> state_of p = Some stateActive) ->
  kube_contract Orch faults _ (Create KPod p) v r v' ->
  guar s v v' /\
  match r with
  | Ok q => cl_pods (snd v') !! pkey q = Some q /\ session_of q = session_of p
  | Err _ => v' = v
  end.
Proof.
  intros Hok Hst Hr%pod_create_inv. destruct r as [q|e].
  - destruct Hr as (Hnone & Hlt & Hl & ->). destruct v as [m c]. simpl in *.
    unfold session_of, state_of in *. split.
    + apply guar_put; [done| |done|unfold session_of, state_of; by rewrite Hl].
      by rewrite Hnone.
    + split; [by apply pods_put_eq|by rewrite Hl].
  - subst v'. split; [by apply guar_silent|done].
Qed.

(** ** Rules for the programs *)

(** The call [p] may run in the pool on behalf of session [s]. *)
Definition pool (s : option string) (faults : bool) {A} (p : orchP A)
    (Q : A -> Orch * Cluster -> Prop) (v : Orch * Cluster) : Prop :=
  rgwp (kube_contract Orch faults) (rely s) (guar s) p Q v.

Section rules.
Context (s : option string) (faults : bool).
#[local] Notation C := (kube_contract Orch faults).
#[local] Notation pool := (pool s faults).

(** Effects that leave the pods alone. *)
Definition quiet_effect {X} (e : gwE Orch X) : bool :=
  match e with
  | Now | Get _ _ _ | List _ _ _ | Sandboxd _ _ | Dial _ | Sleep _ | Mem _ => true
  | _ => false
  end.

Fixpoint quiet {A} (p : orchP A) : Prop :=
  match p with
  | Ret _ | Panic _ => True
  | Vis e k => quiet_effect e = true /\ forall x, quiet (k x)
  end.

Lemma quiet_effect_same {X} (e : gwE Orch X) v x v' :
  quiet_effect e = true -> C _ e v x v' ->
  cl_pods (snd v') = cl_pods (snd v) /\ cl_rv (snd v') = cl_rv (snd v).
Proof. destruct e; try done; simpl; naive_solver. Qed.

Lemma quiet_bind {A B} (p : orchP A) (f : A -> orchP B) :
  quiet p -> (forall a, quiet (f a)) -> quiet (bind p f).
Proof.
  intros Hp Hf. induction p as [a|X e k IH|m]; [apply Hf| |done].
  destruct Hp as [He Hk]. split; [done|]. intros x. by apply IH.
Qed.

Lemma rely_silent (v v' : Orch * Cluster) :
  cl_pods (snd v') = cl_pods (snd v) -> cl_rv (snd v') = cl_rv (snd v) -> rely s v v'.
Proof. intros Hp Hr. split; [by apply base_refl|]. intros s' _ i p Hi _. by rewrite Hp. Qed.

Lemma pool_quiet {A} (p : orchP A) Q v :
  quiet p -> (forall a v', rely s v v' -> Q a v') -> pool p Q v.
Proof.
  unfold claim.pool. revert v. induction p as [a|X e k IH|m]; intros v; simpl; [by eauto| |done].
  intros [He Hk] HQ v1 x v2 H1 H2.
  destruct (quiet_effect_same e v1 x v2 He H2) as [Hp Hr].
  split; [by apply guar_silent|]. apply IH; [done|].
  intros a v' H3. apply HQ. etrans; [done|]. etrans; [|done]. by apply rely_silent.
Qed.

Lemma pool_bind {A B} (p : orchP A) (f : A -> orchP B) Q v :
  pool p (fun a v' => pool (f a) Q v') v -> pool (bind p f) Q v.
Proof. apply rgwp_bind, rely_preorder. Qed.

Definition warm_copy (p : Pod) (c : Cluster) : Prop := copy_ok p c /\ session_of p = None.

Lemma pool_list ns st Q v :
  pods_ok (snd v) -> st <> stateActive ->
  (forall r v', rely s v v' ->
     match r with Ok l => Forall (fun p => warm_copy p (snd v')) l | Err _ => True end ->
     Q r v') ->
  pool (call (List KPod ns (SelEq labelState st))) Q v.
Proof.
  intros Hok Hst HQ v1 r v2 H1 [-> H2]. split; [by apply guar_silent|].
  intros v3 H3. apply HQ; [by etrans|]. destruct r as [l|]; [|done].
  assert (pods_ok (snd v1)) as Hok1 by (by eapply base_pods_ok; [apply H1|]).
  pose proof (listed_copies (snd v1) ns _ l Hok1 H2) as Hl.
  assert (forall p, p ∈ l -> exists i, cl_pods (snd v1) !! i = Some p) as Hin.
  { intros p Hp. rewrite H2 in Hp.
    by destruct (proj1 (elem_of_list_objs KPod ns _ (snd v1) p) Hp) as [_ ?]. }
  rewrite Forall_forall in Hl |- *. intros p Hp.
  destruct (Hl p Hp) as [Hc Hsel]. split; [eapply copy_base; [apply H3|done]|].
  apply bool_decide_eq_true in Hsel. destruct (Hin p Hp) as [i Hi].
  apply eq_None_not_Some. intros Hs. apply (Hok1 i p Hi) in Hs.
  unfold state_of in Hs. congruence.
Qed.

Lemma pool_update (p p' : Pod) Q v :
  pods_ok (snd v) -> warm_copy p (snd v) ->
  pkey p' = pkey p -> prv p' = prv p ->
  (is_Some (session_of p') -> state_of p' = Some stateActive) ->
  (forall r v', base (snd v) (snd v') ->
     match r with
     | Ok q => session_of p' = s -> claimed s (Ok q) v'
     | Err _ => True
     end -> Q r v') ->
  pool (call (Update KPod p')) Q v.
Proof.
  intros Hok [Hc Hs] Hk Hv Hst HQ v1 r v2 H1 H2.
  destruct (update_copy s faults v1 v2 p p' r) as [HG Hr]; [|..|done|];
    [by eapply base_pods_ok; [apply H1|]|eapply copy_base; [apply H1|done]|done..|].
  split; [done|]. intros v3 H3.
  assert (base (snd v) (snd v3)) as Hb by (eapply base_trans; [apply H1|eapply base_trans; [apply HG|apply H3]]).
  apply HQ; [done|]. destruct r as [q|]; [|done]. destruct Hr as [Hq Hsq]. intros Hs'.
  eapply claimed_stable; [done|]. unfold claimed. destruct s as [s'|]; [|done].
  exists q. split; [done|]. by rewrite Hsq.
Qed.

Lemma pool_create (p : Pod) Q v :
  pods_ok (snd v) ->
  (is_Some (session_of p) -> state_of p = Some stateActive) ->
  (forall r v', base (snd v) (snd v') ->
     match r with
     | Ok q => session_of p = s -> claimed s (Ok q) v'
     | Err _ => True
     end -> Q r v') ->
  pool (call (Create KPod p)) Q v.
Proof.
  intros Hok Hst HQ v1 r v2 H1 H2.
  destruct (create_pod s faults v1 v2 p r) as [HG Hr]; [by eapply base_pods_ok; [apply H1|]|done..|].
  split; [done|]. intros v3 H3.
  assert (base (snd v) (snd v3)) as Hb by (eapply base_trans; [apply H1|eapply base_trans; [apply HG|apply H3]]).
  apply HQ; [done|]. destruct r as [q|]; [|done]. destruct Hr as [Hq Hsq]. intros Hs'.
  eapply claimed_stable; [done|]. unfold claimed. destruct s as [s'|]; [|done].
  exists q. split; [done|]. by rewrite Hsq.
Qed.

Lemma pool_ret {A} (a : A) (Q : A -> Orch * Cluster -> Prop) v :
  (forall v', rely s v v' -> Q a v') -> pool (Ret a) Q v.
Proof. done. Qed.

(** A quiet step in front. *)
Lemma pool_quiet_bind {A B} (p : orchP A) (f : A -> orchP B) Q v :
  quiet p -> (forall a v', rely s v v' -> pool (f a) Q v') -> pool (bind p f) Q v.
Proof. intros Hp HQ. apply pool_bind, pool_quiet; done. Qed.

Lemma rely_pods_ok v v' : rely s v v' -> pods_ok (snd v) -> pods_ok (snd v').
Proof. intros [Hb _]. by apply base_pods_ok. Qed.

Lemma warm_copies_base c c' l :
  base c c' -> Forall (fun p => warm_copy p c) l -> Forall (fun p => warm_copy p c') l.
Proof.
  intros Hb Hl. eapply Forall_impl; [exact Hl|]. intros p [Hc Hs]. split; [by eapply copy_base|done].
Qed.

Lemma health_quiet p : quiet (defaultWarmPodHealthCheck p).
Proof.
  unfold defaultWarmPodHealthCheck.
  destruct (_ || _); [done|]. destruct (negb _); [done|].
  by apply quiet_bind; [|intros []].
Qed.

Lemma record_quiet start b : quiet (recordClaim start b).
Proof. done. Qed.

Lemma claimed_labels_ok sid p :
  session_of (with_labels (claimed_labels sid (m_labels (p_meta p))) p) = Some sid /\
  state_of (with_labels (claimed_labels sid (m_labels (p_meta p))) p) = Some stateActive.
Proof.
  split; [apply claimed_labels_session|apply claimed_labels_state].
Qed.

Lemma pool_claimLoop sid rc start warm cold v :
  s = Some sid ->
  (forall v', pods_ok (snd v') -> pool cold (claimed s) v') ->
  pods_ok (snd v) -> Forall (fun p => warm_copy p (snd v)) warm ->
  pool (claimLoop sid rc start warm cold) (claimed s) v.
Proof.
  intros Hs Hcold. revert v. induction warm as [|pod warm IH]; intros v Hok Hw; [by apply Hcold|].
  simpl. apply pool_quiet_bind; [apply health_quiet|]. intros healthy v1 Hr1.
  apply Forall_cons in Hw as [Hpod Hw]. pose proof Hr1 as [Hb1 _].
  pose proof (rely_pods_ok _ _ Hr1 Hok) as Hok1.
  pose proof (warm_copies_base _ _ _ Hb1 Hw) as Hw1.
  assert (warm_copy pod (snd v1)) as Hp1
    by (destruct Hpod; split; [by eapply copy_base|done]).
  destruct healthy; simpl; [|by apply IH]. case_decide; [by apply IH|].
  destruct (claimed_labels_ok sid pod) as [Hses Hst].
  apply pool_bind. apply (pool_update pod); [done..| |].
  { intros _. exact Hst. }
  intros r v2 Hb2 Hr2. destruct r as [q|e].
  - apply pool_quiet_bind; [done|]. intros [] v3 Hr3.
    apply pool_quiet_bind; [done|]. intros [] v4 Hr4.
    apply pool_ret. intros v5 Hr5.
    eapply claimed_stable; [etrans; [exact Hr3|etrans; [exact Hr4|exact Hr5]]|].
    apply Hr2. by rewrite Hses.
  - apply IH; [by eapply base_pods_ok|by eapply warm_copies_base].
Qed.

Lemma coldPod_session sid rc spec :
  session_of (coldPod sid rc spec) = Some sid /\ state_of (coldPod sid rc spec) = Some stateActive.
Proof. done. Qed.

Lemma pool_coldStart sid rc pvc cpu memory start v :
  s = Some sid -> pods_ok (snd v) ->
  pool (coldStart sid rc pvc cpu memory start) (claimed s) v.
Proof.
  intros Hs Hok. unfold coldStart. destruct (SandboxPodSpec _ _ _ _ _) as [spec|]; [|done].
  apply pool_bind, pool_create; [done|done|]. intros r v1 Hb1 Hr1. destruct r as [q|e].
  - apply pool_quiet_bind; [done|]. intros [] v2 Hr2. apply pool_ret. intros v3 Hr3.
    eapply claimed_stable; [etrans; [exact Hr2|exact Hr3]|]. by apply Hr1.
  - apply pool_ret. intros. unfold claimed. by destruct s.
Qed.

Lemma pool_claim sid rc pvc cpu memory v :
  s = Some sid -> pods_ok (snd v) ->
  pool (claimOrCreatePod sid rc pvc cpu memory) (claimed s) v.
Proof.
  intros Hs Hok. unfold claimOrCreatePod. apply pool_quiet_bind; [done|].
  intros start v1 Hr1. pose proof (rely_pods_ok _ _ Hr1 Hok) as Hok1.
  case_decide; [|by apply pool_coldStart].
  apply pool_bind. apply pool_list; [done|done|]. intros r v2 Hr2 Hl.
  pose proof (rely_pods_ok _ _ Hr2 Hok1) as Hok2. destruct r as [warm|]; [|by apply pool_coldStart].
  apply pool_claimLoop; [done| |done..]. intros. by apply pool_coldStart.
Qed.

(** Background work holds no session. *)
Lemma pool_for_each {B} (l : list B) (f : B -> orchP unit) (I : B -> Cluster -> Prop) v :
  (forall b c c', base c c' -> I b c -> I b c') ->
  (forall b v, b ∈ l -> pods_ok (snd v) -> I b (snd v) ->
     pool (f b) (fun _ v' => base (snd v) (snd v')) v) ->
  pods_ok (snd v) -> Forall (fun b => I b (snd v)) l ->
  pool (for_each l f) (fun _ v' => base (snd v) (snd v')) v.
Proof.
  intros HI. revert v. induction l as [|b l IH]; intros v Hf Hok Hl; simpl.
  - apply pool_ret. by intros v' [? _].
  - apply Forall_cons in Hl as [Hb Hl]. apply pool_bind.
    eapply rgwp_mono; [|apply Hf; [set_solver|done|done]].
    intros [] v1 Hb1.
    eapply rgwp_mono; [|apply IH]; [|intros; apply Hf; [set_solver|done..]|by eapply base_pods_ok|].
    + intros ? v2 Hb2. by eapply base_trans.
    + eapply Forall_impl; [exact Hl|]. intros. by eapply HI.
Qed.

Lemma pool_detectResetting ns v :
  pods_ok (snd v) -> pool (detectResetting ns) (fun _ v' => base (snd v) (snd v')) v.
Proof.
  intros Hok. unfold detectResetting. apply pool_bind. apply pool_list; [done|done|].
  intros r v1 Hr1 Hl. pose proof (rely_pods_ok _ _ Hr1 Hok) as Hok1. pose proof Hr1 as [Hb1 _].
  destruct r as [pods|]; [|apply pool_ret; intros v2 [Hb2 _]; by eapply base_trans].
  eapply rgwp_mono; [|apply (pool_for_each pods _ warm_copy)]; [|..|done|done].
  - intros ? v2 Hb2. by eapply base_trans.
  - intros b c c' Hb [Hc Hs]. split; [by eapply copy_base|done].
  - intros p v2 _ Hok2 Hc. case_decide; [apply pool_ret; by intros v3 [? _]|].
    apply pool_quiet_bind; [done|]. intros t v3 Hr3. pose proof Hr3 as [Hb3 _].
    assert (session_of (promoted t p) = None) as Hs.
    { unfold session_of, promoted. simpl. rewrite lookup_insert_ne by done. apply Hc. }
    apply pool_bind. apply (pool_update p); [by eapply rely_pods_ok| |done|done|..].
    + destruct Hc as [Hc ?]. split; [by eapply copy_base|done].
    + rewrite Hs. by intros [].
    + intros r v4 Hb4 _. apply pool_ret. intros v5 [Hb5 _].
      eapply base_trans; [done|]. by eapply base_trans.
Qed.

Lemma pool_createWarmPods cfg rc idle maxPods all i fuel v :
  pods_ok (snd v) ->
  pool (createWarmPods cfg rc idle maxPods all i fuel) (fun _ v' => base (snd v) (snd v')) v.
Proof.
  revert i v. induction fuel as [|fuel IH]; intros i v Hok; simpl.
  - apply pool_ret. by intros v' [? _].
  - destruct (_ && _); [apply pool_ret; by intros v' [? _]|].
    destruct (newWarmPod cfg rc idle) as [p|] eqn:Hp; [|done].
    assert (session_of p = None) as Hs.
    { unfold newWarmPod in Hp. destruct (warmPodSpec rc cfg); [|done]. by injection Hp as <-. }
    apply pool_bind, pool_create; [done|rewrite Hs; by intros []|].
    intros r v1 Hb1 ?. eapply rgwp_mono; [|apply IH; by eapply base_pods_ok].
    intros ? v2 Hb2. by eapply base_trans.
Qed.

Lemma pool_refill cfg maxPods boost p v :
  pods_ok (snd v) ->
  pool (reconcileSinglePool cfg maxPods boost p) (fun _ v' => base (snd v) (snd v')) v.
Proof.
  intros Hok. unfold reconcileSinglePool.
  apply pool_quiet_bind; [done|]. intros r v1 Hr1. pose proof Hr1 as [Hb1 _].
  destruct r as [all|]; [|apply pool_ret; intros v2 [? _]; by eapply base_trans].
  destruct (_ && _); [apply pool_ret; intros v2 [? _]; by eapply base_trans|].
  apply pool_quiet_bind; [done|]. intros r v2 Hr2. pose proof Hr2 as [Hb2 _].
  pose proof (base_trans _ _ _ Hb1 Hb2) as Hb12.
  destruct r as [warm|]; [|apply pool_ret; intros v3 [? _]; by eapply base_trans].
  eapply rgwp_mono; [|apply pool_createWarmPods; by eapply base_pods_ok].
  intros ? v3 Hb3. by eapply base_trans.
Qed.

End rules.

Lemma pool_call_ok faults (c : pool_call) v :
  pods_ok (snd v) ->
  pool (call_session c) faults (call_prog c) (claimed (call_session c)) v.
Proof.
  intros Hok. destruct c as [sid rc pvc cpu memory|ns|cfg maxPods boost p]; simpl;
    unfold background.
  - by apply pool_claim.
  - apply pool_bind. eapply rgwp_mono; [|by apply pool_detectResetting]. done.
  - apply pool_bind. eapply rgwp_mono; [|by apply pool_refill]. done.
Qed.

Lemma guar_rely_compat s1 s2 v v' :
  (forall a, s1 = Some a -> s2 <> Some a) -> guar s2 v v' -> rely s1 v v'.
Proof. intros Hne [Hb Hg]. split; [done|]. intros a Ha. apply Hg. by apply Hne. Qed.

(** C19. Warm-pod exclusivity under concurrency: whatever API server keeps the
    optimistic-locking contract and however the requests of pairwise distinct
    sessions, the reset promoter and the pool refill interleave, effect by
    effect, two claims that have both returned a pod hold different pods, and
    the pod of each is in the cluster under its own session's label. *)
Theorem claims_exclusive {S} (h : handler (gwE Orch) S) (view : S -> Orch * Cluster) faults
    (calls : list pool_call) (s0 s1 : S) (ps : list (orchP (res Pod)))
    (i j : nat) (ci cj : pool_call) (si sj : string) (p q : Pod) :
  respects h view (kube_contract Orch faults) ->
  (forall a b ca cb sa, a <> b -> calls !! a = Some ca -> calls !! b = Some cb ->
     call_session ca = Some sa -> call_session cb <> Some sa) ->
  pods_ok (snd (view s0)) ->
  rtc (pstep h) (call_prog <$> calls, s0) (ps, s1) ->
  i <> j ->
  calls !! i = Some ci -> call_session ci = Some si -> ps !! i = Some (Ret (Ok p)) ->
  calls !! j = Some cj -> call_session cj = Some sj -> ps !! j = Some (Ret (Ok q)) ->
  pkey p <> pkey q /\
  exists p', cl_pods (snd (view s1)) !! pkey p = Some p' /\ session_of p' = Some si.
Proof.
  intros Hh Hdist Hok Hsteps Hij Hi Hsi Hpi Hj Hsj Hpj.
  set (ses n := match calls !! n with Some c => call_session c | None => None end).
  assert (forall n a, ps !! n = Some (Ret a) -> claimed (ses n) a (view s1)) as Hall.
  { intros n a. eapply (pool_sound h view (kube_contract Orch faults)
      (fun n => rely (ses n)) (fun n => guar (ses n)) (fun n => claimed (ses n))
      Hh (fun n => rely_preorder (ses n))) with (c' := (ps, s1)); [| |exact Hsteps].
    - intros a' b v v' Hab Hg. eapply guar_rely_compat; [|exact Hg]. unfold ses.
      intros sa Ha. destruct (calls !! a') as [ca|] eqn:Ea; [|done].
      destruct (calls !! b) as [cb|] eqn:Eb; [|done]. by eapply (Hdist a' b ca cb).
    - intros n' p' Hp'. simpl in Hp'. apply list_lookup_fmap_Some in Hp' as (c & -> & Hc).
      simpl. unfold ses. rewrite Hc. by apply pool_call_ok. }
  pose proof (Hall i _ Hpi) as Hci. pose proof (Hall j _ Hpj) as Hcj.
  unfold ses in Hci, Hcj. rewrite Hi, Hsi in Hci. rewrite Hj, Hsj in Hcj.
  simpl in Hci, Hcj. split; [|exact Hci].
  destruct Hci as (p' & Hp' & Hps), Hcj as (q' & Hq' & Hqs). intros E.
  rewrite E in Hp'. assert (si = sj) as -> by congruence.
  by eapply (Hdist i j ci cj).
Qed.

End claim.

(** ** A race for one warm pod *)

Definition race_calls : list pool_call := [CClaim "a" "gvisor" "" "" ""; CClaim "b" "gvisor" "" "" ""].

(** Both calls list the pod before either claims it; the first update wins,
    the second is refused and the second call starts a pod of its own. *)
Definition race : list (orchP (res Pod)) * (Orch * Cluster) :=
  sched (live_handler Orch) [0; 1; 0; 1; 0; 1; 0; 1; 1; 0; 0; 0; 1; 1]%nat
    (call_prog <$> race_calls, warm_world).

(** The pod the [i]-th call has returned. *)
Definition won (ps : list (orchP (res Pod))) (i : nat) : option Pod :=
  match ps !! i with Some (Ret (Ok p)) => Some p | _ => None end.

Lemma won_Some ps i p : won ps i = Some p -> ps !! i = Some (Ret (Ok p)).
Proof. unfold won. intros. by repeat case_match; simplify_eq. Qed.

Lemma won_is_Some ps i : bool_decide (is_Some (won ps i)) = true -> { p | won ps i = Some p }.
Proof. destruct (won ps i) as [p|]; [by exists p|done]. Qed.

Lemma warm_world_ok : pods_ok (snd warm_world).
Proof.
  intros i p Hp%elem_of_list_to_map_2%list_elem_of_singleton. injection Hp as -> ->.
  split; [done|]. split; [done|]. change (session_of warm_pod) with (@None string). by intros [].
Qed.

Lemma race_distinct a b ca cb sa :
  a <> b -> race_calls !! a = Some ca -> race_calls !! b = Some cb ->
  call_session ca = Some sa -> call_session cb <> Some sa.
Proof.
  intros Hab Ha Hb. destruct a as [|[|a]], b as [|[|b]]; try done; simplify_eq/=; congruence.
Qed.

Lemma claims_exclusive_witness :
  exists p q, won (fst race) 0 = Some p /\ won (fst race) 1 = Some q /\ pkey p <> pkey q.
Proof.
  destruct (won_is_Some (fst race) 0) as [p Hp]; [by vm_compute|].
  destruct (won_is_Some (fst race) 1) as [q Hq]; [by vm_compute|].
  exists p, q. split; [exact Hp|]. split; [exact Hq|].
  apply (claims_exclusive (live_handler Orch) id false race_calls warm_world (snd race) (fst race)
    0 1 (CClaim "a" "gvisor" "" "" "") (CClaim "b" "gvisor" "" "" "") "a" "b" p q).
  - apply live_handler_respects.
  - exact race_distinct.
  - apply warm_world_ok.
  - rewrite <-surjective_pairing. apply sched_steps.
  - done.
  - done.
  - done.
  - by apply won_Some.
  - done.
  - done.
  - by apply won_Some.
Defined.

(** ** The reaper is not part of the pool *)

(** A warm pod released at the epoch, seen ten hours later. *)
Definition idle_world : Orch * Cluster :=
  (NewOrchestrator,
   set_clock (10 * hour) (with_pods
     [with_pod_annotation podReleasedAtAnnotation (format_rfc3339 0) warm_pod] 1)).

(** The reaper lists the pod as warm, a claim takes it, the reaper deletes it
    by name. *)
Definition reaper_race : list (orchP (res Pod)) * (Orch * Cluster) :=
  sched (live_handler Orch) [1; 1; 1; 0; 0; 0; 0; 0; 0; 0; 1]%nat
    ([claimOrCreatePod "a" "gvisor" "" "" ""; background (reapIdlePods sandboxNS)], idle_world).

(** Claims are not safe against the idle reaper: there is an interleaving
    of a claim with [reapIdlePods] after which the claim has returned a pod and
    that pod is not in the cluster; the reaper deletes by name what it listed
    as warm, without the revision that protects claims from each other. *)
Theorem reaper_deletes_claimed_pod :
  rtc (pstep (live_handler Orch))
    ([claimOrCreatePod "a" "gvisor" "" "" ""; background (reapIdlePods sandboxNS)], idle_world)
    reaper_race /\
  exists p, won (fst reaper_race) 0 = Some p /\ cl_pods (snd (snd reaper_race)) !! pkey p = None.
Proof.
  split; [apply sched_steps|].
  destruct (won_is_Some (fst reaper_race) 0) as [p Hp]; [by vm_compute|]. exists p. split; [exact Hp|].
  assert ((match won (fst reaper_race) 0 with
           | Some p => bool_decide (cl_pods (snd (snd reaper_race)) !! pkey p = None)
           | None => false end) = true) as H by by vm_compute.
  rewrite Hp in H. by apply bool_decide_eq_true in H.
Qed.
