(* ===== verification/Rules.v ===== *)
(** * Proof rules for programs over the cluster

    Sequential reasoning against [kube_contract]: what each call leaves behind
    ([*_inv]), what a fault-free server answers ([*_served]), well-formedness
    of the store, and frames: which kinds of objects a program never writes,
    never deletes, and whether it leaves the process memory alone. *)
From S2P Require Import Prelude Prog Kube.

(** ** Well-formed clusters *)

(** Objects sit under their own key, with a revision the server handed out. *)
Definition wf (c : Cluster) : Prop :=
  forall k i (o : obj k), store k c !! i = Some o ->
    key_of o = i /\ (0 < rv_of o <= cl_rv c)%N.

(** The same, as a check. *)
Definition wf_kind (k : kind) (c : Cluster) : bool :=
  forallb (fun '(i, o) => bool_decide (key_of o = i) && (0 <? rv_of o)%N && (rv_of o <=? cl_rv c)%N)
    (map_to_list (store k c)).

Definition all_kinds : list kind := [KPod; KPvc; KSession; KCnp; KMatrix; KWarmPool; KNode; KSecret].

Definition wf_check (c : Cluster) : bool := forallb (fun k => wf_kind k c) all_kinds.

Lemma wf_check_sound c : wf_check c = true -> wf c.
Proof.
  intros H k i o Ho. unfold wf_check in H. rewrite forallb_forall in H.
  assert (wf_kind k c = true) as Hk by (apply H; destruct k; simpl; tauto).
  unfold wf_kind in Hk. rewrite forallb_forall in Hk.
  specialize (Hk (i, o)). rewrite <-list_elem_of_In in Hk.
  apply elem_of_map_to_list, Hk in Ho. repeat rewrite andb_true_iff in Ho.
  destruct Ho as [[Hi%bool_decide_eq_true Hl%N.ltb_lt] Hu%N.leb_le]. done.
Qed.

(** ** Frames *)

(** Writes an object of kind [k]. *)
Definition writes {M X} (k : kind) (e : gwE M X) : bool :=
  match e with
  | Create k' _ | Update k' _ | UpdateStatus k' _ | Delete k' _ _ => bool_decide (k = k')
  | _ => false
  end.

Definition deletes {M X} (k : kind) (e : gwE M X) : bool :=
  match e with Delete k' _ _ => bool_decide (k = k') | _ => false end.

(** [p] leaves the process memory as it is. *)
Definition reads_memory {M A} (p : prog (gwE M) A) : Prop :=
  only true (fun X e => match e with Mem f => forall m, snd (f m) = m | _ => True end) p.

(** ** Lemmas *)

Section contract.
Context {M : Type}.
Implicit Types (v : M * Cluster) (c : Cluster).

Lemma wf_put {k} (o : obj k) c : wf c -> (cl_rv c < rv_of o)%N -> wf (put o c).
Proof.
  intros Hwf Hrv k' i o'. rewrite cl_rv_put. destruct (decide (k' = k)) as [->|Hk].
  - rewrite store_put, lookup_insert. case_decide as Hi; [intros [= <-]; split; [done|lia]|].
    intros Ho. destruct (Hwf k i o' Ho). split; [done|]. lia.
  - rewrite store_put_ne by done. intros Ho. destruct (Hwf k' i o' Ho). split; [done|]. lia.
Qed.

Lemma wf_remove k i c : wf c -> wf (remove k i c).
Proof.
  intros Hwf k' i' o'. rewrite cl_rv_remove. destruct (decide (k' = k)) as [->|Hk].
  - rewrite store_remove. intros [_ Ho]%lookup_delete_Some. by apply Hwf.
  - rewrite store_remove_ne by done. by apply Hwf.
Qed.

Lemma wf_set_clock t c : wf c -> wf (set_clock t c).
Proof.
  intros Hwf k i o Ho. destruct k; exact (Hwf _ i o Ho).
Qed.

Lemma wf_step faults X (e : gwE M X) v x v' :
  kube_contract M faults X e v x v' -> wf (snd v) -> wf (snd v').
Proof.
  destruct v as [m c], v' as [m' c']. intros HC Hwf.
  assert (forall k (o o' : obj k) merge, update_ok merge o o' c c' -> wf c') as Hu.
  { intros k o o' merge (cur & rv & _ & _ & Hlt & Ho & ->). simpl. apply wf_put; [done|].
    subst o'. by rewrite rv_of_stamp. }
  destruct e as [|k ns name|k ns sel|k o|k o|k o|k ns name| | |d|Y f]; simpl in *.
  - destruct HC as [_ [= -> ->]]. intros k i o. rewrite store_set_clock. apply Hwf.
  - by destruct HC as [[= -> ->] _].
  - by destruct HC as [[= -> ->] _].
  - destruct HC as [_ HC]. destruct x as [o'|]; [|by destruct HC as [[= -> ->] _]].
    destruct HC as (name & rv & _ & _ & Hlt & Ho & ->). apply wf_put; [done|].
    subst o'. by rewrite rv_of_stamp.
  - destruct HC as [_ HC]. destruct x as [o'|]; [|by destruct HC as [[= -> ->] _]]. by eapply Hu.
  - destruct HC as [_ HC]. destruct x as [o'|]; [|by destruct HC as [[= -> ->] _]]. by eapply Hu.
  - destruct HC as [_ HC]. destruct x as [o'|]; [|by destruct HC as [[= -> ->] _]].
    destruct HC as [_ ->]. by apply wf_remove.
  - by injection HC as -> ->.
  - by injection HC as -> ->.
  - destruct HC as (t & _ & _ & [= -> ->]). intros k i o. rewrite store_set_clock. apply Hwf.
  - by destruct HC as [_ [= -> ->]].
Qed.

(** An effect changes only objects of the kind it writes. *)
Lemma frame_step faults k X (e : gwE M X) v x v' :
  writes k e = false -> kube_contract M faults X e v x v' -> store k (snd v') = store k (snd v).
Proof.
  intros Hk HC. destruct v as [m c], v' as [m' c'].
  assert (forall k' (o o' : obj k') merge, k <> k' -> update_ok merge o o' c c' ->
    store k c' = store k c) as Hu.
  { intros k' o o' merge Hne (cur & rv & _ & _ & Hlt & Ho & ->). by apply store_put_ne. }
  destruct e as [|k' ns name|k' ns sel|k' o|k' o|k' o|k' ns name| | |d|Y f]; simpl in *;
    try apply bool_decide_eq_false in Hk.
  - destruct HC as [_ [= -> ->]]. apply store_set_clock.
  - by destruct HC as [[= -> ->] _].
  - by destruct HC as [[= -> ->] _].
  - destruct HC as [_ HC]. destruct x as [o'|]; [|by destruct HC as [[= -> ->] _]].
    destruct HC as (name & rv & _ & _ & Hlt & Ho & ->). by apply store_put_ne.
  - destruct HC as [_ HC]. destruct x as [o'|]; [|by destruct HC as [[= -> ->] _]]. by eapply Hu.
  - destruct HC as [_ HC]. destruct x as [o'|]; [|by destruct HC as [[= -> ->] _]]. by eapply Hu.
  - destruct HC as [_ HC]. destruct x as [o'|]; [|by destruct HC as [[= -> ->] _]].
    destruct HC as [_ ->]. by apply store_remove_ne.
  - by injection HC as -> ->.
  - by injection HC as -> ->.
  - destruct HC as (t & _ & _ & [= -> ->]). apply store_set_clock.
  - by destruct HC as [_ [= -> ->]].
Qed.

(** Without deletes, what is stored stays stored. *)
Lemma keeps_step faults k X (e : gwE M X) v x v' i :
  deletes k e = false -> kube_contract M faults X e v x v' ->
  is_Some (store k (snd v) !! i) -> is_Some (store k (snd v') !! i).
Proof.
  intros Hk HC Hi. destruct (writes k e) eqn:Hw; [|by rewrite (frame_step faults k X e v x v')].
  assert (forall (o : obj k) c, is_Some (store k c !! i) -> is_Some (store k (put o c) !! i)) as Hp.
  { intros o c Hc. rewrite store_put, lookup_insert. by case_decide. }
  destruct v as [m c], v' as [m' c'].
  destruct e as [|k' ns name|k' ns sel|k' o|k' o|k' o|k' ns name| | |d|Y f]; simpl in *;
    try done; try (apply bool_decide_eq_true in Hw; subst k');
    try (by apply bool_decide_eq_false in Hk);
    destruct HC as [_ HC]; (destruct x as [o'|]; [|by destruct HC as [[= -> ->] _]]).
  - destruct HC as (? & ? & _ & _ & _ & _ & ->). by apply Hp.
  - destruct HC as (? & ? & _ & _ & _ & _ & ->). by apply Hp.
  - destruct HC as (? & ? & _ & _ & _ & _ & ->). by apply Hp.
Qed.

(** The memory changes only in critical sections. *)
Lemma memory_step faults X (e : gwE M X) v x v' :
  match e with Mem f => forall m, snd (f m) = m | _ => True end ->
  kube_contract M faults X e v x v' -> fst v' = fst v.
Proof.
  intros Hf HC. destruct v as [m c], v' as [m' c'].
  destruct e; simpl in *; try (by destruct HC as [[= -> ->] _]); try (by destruct HC as [-> _]).
  - by destruct HC as [_ [= -> ->]].
  - by injection HC as -> ->.
  - by injection HC as -> ->.
  - by destruct HC as (t & _ & _ & [= -> ->]).
  - destruct HC as [_ [= -> ->]]. apply Hf.
Qed.
End contract.

(** Running a program that only reads the memory leaves the memory alone. *)
Lemma run_reads_memory {M S A} faults (h : handler (gwE M) (M * S)) (cl : S -> Cluster)
    (p : prog (gwE M) A) m s :
  respects h (fun '(m, s) => (m, cl s)) (kube_contract M faults) -> reads_memory p ->
  fst (snd (run h p (m, s))) = m.
Proof.
  intros Hh. revert m s. induction p as [a|X e k IH|msg]; intros m s; simpl; [done| |done].
  intros [He Hk]. specialize (Hh X e (m, s)). destruct (h X e (m, s)) as [x [m' s']]. simpl in Hh.
  pose proof (memory_step faults X e _ _ _ He Hh) as Hm. simpl in Hm. subst m'. exact (IH x m s' (Hk x)).
Qed.

Lemma wp_reads_bind {M A B} faults (p : prog (gwE M) A) (f : A -> prog (gwE M) B) Q v :
  reads_memory p -> (forall v', fst v' = fst v -> Q Panicked v') ->
  (forall a v', fst v' = fst v -> wp (kube_contract M faults) (f a) Q v') ->
  wp (kube_contract M faults) (bind p f) Q v.
Proof.
  intros Hp HP HQ.
  eapply (wp_only_bind true _ _ (fun v v' => fst v' = fst v)); [| | |exact Hp|by intros _|exact HQ].
  - intros v1 v2 v3 E1 E2. by rewrite E2.
  - done.
  - intros X e v1 x v2 He HC. exact (memory_step faults X e v1 x v2 He HC).
Qed.

(** The last call of a program. *)
Lemma wp_last {E V X} (C : contract E V) (e : E X) Q v :
  (forall x v', C X e v x v' -> Q (Done x) v') -> wp C (call e) Q v.
Proof. done. Qed.

(** ** A server that serves what it can

    With [faults = false] the answer of each call is known up to the revision
    handed out. *)
Section served.
Context {M B : Type}.
#[local] Notation C := (kube_contract M false).
Implicit Types (v : M * Cluster) (Q : outcome B -> M * Cluster -> Prop).

Definition updated {k} (o cur : obj k) (rv : N) : obj k :=
  stamp (m_name (meta_of o)) rv (m_created (meta_of cur)) (status_from o cur).

Definition status_updated {k} (o cur : obj k) (rv : N) : obj k :=
  stamp (m_name (meta_of o)) rv (m_created (meta_of cur)) (status_from cur o).

Definition created {k} (o : obj k) (name : string) (rv : N) (t : Z) : obj k :=
  stamp name rv t (fresh_status o).

Lemma wp_now (f : Z -> prog (gwE M) B) Q v :
  (forall t, (cl_clock (snd v) <= t)%Z -> wp C (f t) Q (fst v, set_clock t (snd v))) ->
  wp C (bind (call Now) f) Q v.
Proof. intros H t v' [Ht ->]. by apply H. Qed.

Lemma wp_mem faults {X} (g : M -> X * M) (f : X -> prog (gwE M) B) Q v :
  wp (kube_contract M faults) (f (fst (g (fst v)))) Q (snd (g (fst v)), snd v) ->
  wp (kube_contract M faults) (bind (call (Mem g)) f) Q v.
Proof. by intros H x v' [-> ->]. Qed.

Lemma wp_get k ns name (f : res (obj k) -> prog (gwE M) B) Q v :
  match store k (snd v) !! (ns, name) with
  | Some o => wp C (f (Ok o)) Q v
  | None => wp C (f (Err (Api RNotFound))) Q v
  end -> wp C (bind (call (Get k ns name)) f) Q v.
Proof.
  intros H x v' [-> Hx]. destruct x as [o|e]; [by rewrite Hx in H|].
  destruct e as [|[]|]; try done; destruct Hx as [? Hx]; try done. by rewrite Hx in H.
Qed.

Lemma wp_get_some k ns name o (f : res (obj k) -> prog (gwE M) B) Q v :
  store k (snd v) !! (ns, name) = Some o ->
  wp C (f (Ok o)) Q v -> wp C (bind (call (Get k ns name)) f) Q v.
Proof. intros Ho H. apply wp_get. by rewrite Ho. Qed.

Lemma wp_get_none k ns name (f : res (obj k) -> prog (gwE M) B) Q v :
  store k (snd v) !! (ns, name) = None ->
  wp C (f (Err (Api RNotFound))) Q v -> wp C (bind (call (Get k ns name)) f) Q v.
Proof. intros Ho H. apply wp_get. by rewrite Ho. Qed.

Lemma wp_list k ns sel (f : res (list (obj k)) -> prog (gwE M) B) Q v :
  (forall l, l ≡ₚ list_objs k ns sel (snd v) -> wp C (f (Ok l)) Q v) ->
  wp C (bind (call (List k ns sel)) f) Q v.
Proof.
  intros H x v' [-> Hx]. destruct x as [l|e]; [by apply H|].
  by destruct e as [|[]|].
Qed.

Lemma wp_update {k} (o cur : obj k) (f : res (obj k) -> prog (gwE M) B) Q v :
  store k (snd v) !! key_of o = Some cur -> rv_of o = rv_of cur -> rv_of cur <> 0%N ->
  (forall rv, (cl_rv (snd v) < rv)%N ->
     wp C (f (Ok (updated o cur rv))) Q (fst v, put (updated o cur rv) (snd v))) ->
  wp C (bind (call (Update k o)) f) Q v.
Proof.
  intros Hcur Hrv H0 H x [m' c'] [Hm Hx]. simpl in Hm. subst m'. destruct x as [o'|e].
  - destruct Hx as (cur' & rv & Hcur' & _ & Hlt & -> & Hc). simpl in Hc. subst c'.
    rewrite Hcur in Hcur'. injection Hcur' as <-. by apply H.
  - destruct Hx as [_ Hx]. destruct e as [co|r|tag]; [done| |done].
    destruct r; try done; destruct Hx as [[? ?]|[(? & ? & ?)|(? & ? & cur' & ? & ?)]]; congruence.
Qed.

Lemma wp_update_status {k} (o cur : obj k) (f : res (obj k) -> prog (gwE M) B) Q v :
  store k (snd v) !! key_of o = Some cur -> rv_of o = rv_of cur -> rv_of cur <> 0%N ->
  (forall rv, (cl_rv (snd v) < rv)%N ->
     wp C (f (Ok (status_updated o cur rv))) Q (fst v, put (status_updated o cur rv) (snd v))) ->
  wp C (bind (call (UpdateStatus k o)) f) Q v.
Proof.
  intros Hcur Hrv H0 H x [m' c'] [Hm Hx]. simpl in Hm. subst m'. destruct x as [o'|e].
  - destruct Hx as (cur' & rv & Hcur' & _ & Hlt & -> & Hc). simpl in Hc. subst c'.
    rewrite Hcur in Hcur'. injection Hcur' as <-. by apply H.
  - destruct Hx as [_ Hx]. destruct e as [co|r|tag]; [done| |done].
    destruct r; try done; destruct Hx as [[? ?]|[(? & ? & ?)|(? & ? & cur' & ? & ?)]]; congruence.
Qed.

(** A custom resource whose revision is unset cannot be written back. *)
Lemma wp_update_status_unset faults {k} (o : obj k) (f : res (obj k) -> prog (gwE M) B) Q v :
  rv_of o = 0%N -> unconditional k = false -> wf (snd v) ->
  (forall e, wp (kube_contract M faults) (f (Err e)) Q v) ->
  wp (kube_contract M faults) (bind (call (UpdateStatus k o)) f) Q v.
Proof.
  intros Hrv Hk Hwf H x [m' c'] [Hm Hx]. simpl in Hm. subst m'. destruct x as [o'|e].
  - destruct Hx as (cur & rv & Hcur & Hv & _). apply Hwf in Hcur as [_ Hcur].
    destruct Hv as [Hv|[_ Hv]]; [|congruence]. rewrite <-Hv, Hrv in Hcur. lia.
  - destruct Hx as [-> _]. apply H.
Qed.

Lemma wp_create {k} (o : obj k) (f : res (obj k) -> prog (gwE M) B) Q v :
  m_name (meta_of o) <> "" -> store k (snd v) !! key_of o = None ->
  (forall rv, (cl_rv (snd v) < rv)%N ->
     let o' := created o (m_name (meta_of o)) rv (cl_clock (snd v)) in
     wp C (f (Ok o')) Q (fst v, put o' (snd v))) ->
  wp C (bind (call (Create k o)) f) Q v.
Proof.
  intros Hn Habs H x [m' c'] [Hm Hx]. simpl in Hm. subst m'. destruct x as [o'|e].
  - destruct Hx as (name & rv & Hname & _ & Hlt & -> & Hc). simpl in Hc. subst c'.
    destruct Hname as [[<- _]|[? _]]; [|done]. by apply H.
  - destruct Hx as [_ Hx]. destruct e as [co|r|tag]; [done| |done].
    destruct r; try done; destruct Hx as (? & _ & Hs); try done.
    rewrite Habs in Hs. by destruct Hs.
Qed.

Lemma wp_update_cases faults {k} (o : obj k) (f : res (obj k) -> prog (gwE M) B) Q v :
  (forall cur rv, (cl_rv (snd v) < rv)%N -> store k (snd v) !! key_of o = Some cur ->
     wp (kube_contract M faults) (f (Ok (updated o cur rv))) Q (fst v, put (updated o cur rv) (snd v))) ->
  (forall e, wp (kube_contract M faults) (f (Err e)) Q v) ->
  wp (kube_contract M faults) (bind (call (Update k o)) f) Q v.
Proof.
  intros HO HE x [m' c'] [Hm Hx]. simpl in Hm. subst m'. destruct x as [o'|e].
  - destruct Hx as (cur & rv & Hcur & _ & Hlt & -> & Hc). simpl in Hc. subst c'. by apply HO.
  - destruct Hx as [-> _]. apply HE.
Qed.

Lemma wp_list_cases faults k ns sel (f : res (list (obj k)) -> prog (gwE M) B) Q v :
  (forall l, l ≡ₚ list_objs k ns sel (snd v) -> wp (kube_contract M faults) (f (Ok l)) Q v) ->
  (forall e, wp (kube_contract M faults) (f (Err e)) Q v) ->
  wp (kube_contract M faults) (bind (call (List k ns sel)) f) Q v.
Proof. intros HO HE x v' [-> Hx]. destruct x as [l|e]; [by apply HO|apply HE]. Qed.

Lemma wp_create_cases faults {k} (o : obj k) (f : res (obj k) -> prog (gwE M) B) Q v :
  (forall name rv, (cl_rv (snd v) < rv)%N ->
     m_name (meta_of o) = name \/ m_name (meta_of o) = "" ->
     let o' := created o name rv (cl_clock (snd v)) in
     store k (snd v) !! key_of o' = None ->
     wp (kube_contract M faults) (f (Ok o')) Q (fst v, put o' (snd v))) ->
  (forall e, wp (kube_contract M faults) (f (Err e)) Q v) ->
  wp (kube_contract M faults) (bind (call (Create k o)) f) Q v.
Proof.
  intros HO HE x [m' c'] [Hm Hx]. simpl in Hm. subst m'. destruct x as [o'|e].
  - destruct Hx as (name & rv & Hname & Habs & Hlt & -> & Hc). simpl in Hc. subst c'.
    apply HO; [done|destruct Hname as [[? _]|[? _]]; [by left|by right]|].
    unfold created. rewrite key_of_stamp, meta_fresh_status. exact Habs.
  - destruct Hx as [-> _]. apply HE.
Qed.

Lemma wp_create_generated {k} (o : obj k) (f : res (obj k) -> prog (gwE M) B) Q v :
  m_name (meta_of o) = "" ->
  (forall suffix rv, (cl_rv (snd v) < rv)%N ->
     let o' := created o (m_generateName (meta_of o) +:+ suffix) rv (cl_clock (snd v)) in
     store k (snd v) !! key_of o' = None ->
     wp C (f (Ok o')) Q (fst v, put o' (snd v))) ->
  wp C (bind (call (Create k o)) f) Q v.
Proof.
  intros Hn H x [m' c'] [Hm Hx]. simpl in Hm. subst m'. destruct x as [o'|e].
  - destruct Hx as (name & rv & Hname & Habs & Hlt & -> & Hc). simpl in Hc. subst c'.
    destruct Hname as [[<- ?]|[_ [suffix ->]]]; [done|]. apply H; [done|].
    unfold created. rewrite key_of_stamp, meta_fresh_status. exact Habs.
  - destruct Hx as [_ Hx]. destruct e as [co|r|tag]; [done| |done].
    destruct r; try done; by destruct Hx as (? & ? & _).
Qed.

Lemma wp_delete k ns name (f : res unit -> prog (gwE M) B) Q v :
  match store k (snd v) !! (ns, name) with
  | Some _ => wp C (f (Ok tt)) Q (fst v, remove k (ns, name) (snd v))
  | None => wp C (f (Err (Api RNotFound))) Q v
  end -> wp C (bind (call (Delete k ns name)) f) Q v.
Proof.
  intros H x [m' c'] [Hm Hx]. simpl in Hm. subst m'. destruct x as [[]|e].
  - destruct Hx as [[o Ho] Hc]. simpl in Hc. subst c'. by rewrite Ho in H.
  - destruct Hx as [-> Hx]. destruct e as [|r|]; [done| |done].
    destruct r; try done; destruct Hx as [? Hx]; try done. by rewrite Hx in H.
Qed.

Lemma wp_delete_some k ns name o (f : res unit -> prog (gwE M) B) Q v :
  store k (snd v) !! (ns, name) = Some o ->
  wp C (f (Ok tt)) Q (fst v, remove k (ns, name) (snd v)) ->
  wp C (bind (call (Delete k ns name)) f) Q v.
Proof. intros Ho H. apply wp_delete. by rewrite Ho. Qed.

Lemma wp_delete_none k ns name (f : res unit -> prog (gwE M) B) Q v :
  store k (snd v) !! (ns, name) = None ->
  wp C (f (Err (Api RNotFound))) Q v ->
  wp C (bind (call (Delete k ns name)) f) Q v.
Proof. intros Ho H. apply wp_delete. by rewrite Ho. Qed.

Lemma wp_sandboxd ip r (f : res (Z * option (sbxBody r)) -> prog (gwE M) B) Q v :
  (forall x, wp C (f x) Q v) -> wp C (bind (call (Sandboxd ip r)) f) Q v.
Proof. intros H x v' Hv. simpl in Hv. subst v'. apply H. Qed.

Lemma wp_dial ip (f : bool -> prog (gwE M) B) Q v :
  (forall x, wp C (f x) Q v) -> wp C (bind (call (Dial ip)) f) Q v.
Proof. intros H x v' Hv. simpl in Hv. subst v'. apply H. Qed.

(** A subprogram that writes only objects of the kinds in [ws]. *)
Definition touches {A} (pan : bool) (ws : list kind) (p : prog (gwE M) A) : Prop :=
  only pan (fun X e => forall k, writes k e = true -> k ∈ ws) p.

Definition unchanged (ws : list kind) v v' : Prop :=
  (forall k, k ∉ ws -> store k (snd v') = store k (snd v)) /\ (wf (snd v) -> wf (snd v')).

Lemma unchanged_pods ws v v' : unchanged ws v v' -> KPod ∉ ws -> cl_pods (snd v') = cl_pods (snd v).
Proof. intros [H _]. exact (H KPod). Qed.
Lemma unchanged_pvcs ws v v' : unchanged ws v v' -> KPvc ∉ ws -> cl_pvcs (snd v') = cl_pvcs (snd v).
Proof. intros [H _]. exact (H KPvc). Qed.
Lemma unchanged_sessions ws v v' :
  unchanged ws v v' -> KSession ∉ ws -> cl_sessions (snd v') = cl_sessions (snd v).
Proof. intros [H _]. exact (H KSession). Qed.
Lemma unchanged_cnps ws v v' : unchanged ws v v' -> KCnp ∉ ws -> cl_cnps (snd v') = cl_cnps (snd v).
Proof. intros [H _]. exact (H KCnp). Qed.
Lemma unchanged_wf ws v v' : unchanged ws v v' -> wf (snd v) -> wf (snd v').
Proof. intros [_ H]. exact H. Qed.
Lemma unchanged_trans ws v1 v2 v3 : unchanged ws v1 v2 -> unchanged ws v2 v3 -> unchanged ws v1 v3.
Proof. intros [H1 W1] [H2 W2]. split; [|by auto]. intros k Hk. by rewrite H2, H1. Qed.
Lemma unchanged_mono ws ws' v v' : unchanged ws v v' -> ws ⊆ ws' -> unchanged ws' v v'.
Proof. intros [H W] Hs. split; [|done]. intros k Hk. apply H. set_solver. Qed.

Lemma unchanged_step faults ws X (e : gwE M X) v x v' :
  (forall k, writes k e = true -> k ∈ ws) -> kube_contract M faults X e v x v' -> unchanged ws v v'.
Proof.
  intros He HC. split; [|intros Hwf; exact (wf_step faults X e v x v' HC Hwf)].
  intros k Hk. apply (frame_step faults k X e v x v'); [|done].
  apply not_true_is_false. intros Hw. by apply Hk, He.
Qed.

Lemma wp_touches_bind faults {A} pan ws (p : prog (gwE M) A) (f : A -> prog (gwE M) B) Q v :
  touches pan ws p -> (pan = true -> forall v', unchanged ws v v' -> Q Panicked v') ->
  (forall a v', unchanged ws v v' -> wp (kube_contract M faults) (f a) Q v') ->
  wp (kube_contract M faults) (bind p f) Q v.
Proof.
  intros Hp HP HQ. eapply wp_only_bind; [| | |exact Hp|exact HP|exact HQ].
  - intros v1 v2 v3. apply unchanged_trans.
  - intros v'. by split.
  - intros X e v1 x v2 He HC. exact (unchanged_step faults ws X e v1 x v2 He HC).
Qed.
End served.

(** ** Automation *)

(** [only] goals about concrete programs: walk through the program, opening
    its functions. *)
Ltac head_of t := match t with ?f _ => head_of f | _ => t end.

Ltac only_step :=
  match goal with
  | |- touches _ _ _ => unfold touches
  | |- reads_memory _ => unfold reads_memory
  | |- only _ _ (bind _ _) => apply only_bind; [|intros ?]
  | |- only _ _ (call _) => apply only_call
  | |- only _ _ (Ret _) => exact I
  | |- only _ _ (Panic _) => reflexivity
  | |- only _ _ (Vis _ _) => split; [|intros ?]
  | |- only _ _ (for_each _ _) => apply only_for_each; intros ?
  | |- only _ _ (match ?x with _ => _ end) => destruct x
  | |- only _ _ ?p => let h := head_of p in progress unfold h
  | |- only _ _ ?p => progress simpl
  | |- forall k, writes k _ = true -> _ => by intros k ?%bool_decide_eq_true; set_solver
  end.

Ltac frame_auto := repeat (first [solve [eauto 2 with k8e] | only_step]); try done.
