(* ===== verification/Lifecycle.v ===== *)
(** * The life of a session

    Theorems about the session operations of [Orchestrator]: what creating,
    pausing, resuming and destroying a session leave in the cluster, what they
    refuse, and what a crash in the middle leaves behind. *)
From S2P Require Import Prelude Prog Kube SessionEnv GoTime Orchestrator Rules Samples.

Section lifecycle.
Context `{QP : QuantityParser}.

(** ** Frames of the building blocks *)

Lemma claimLoop_touches sid rc start warm cold :
  touches true [KPod] cold -> touches true [KPod] (claimLoop sid rc start warm cold).
Proof.
  intros Hcold. induction warm as [|pod warm IH]; simpl; [done|]. unfold touches in *. frame_auto.
Qed.

Lemma coldStart_touches sid rc pvc cpu memory start :
  touches true [KPod] (coldStart sid rc pvc cpu memory start).
Proof. unfold coldStart. frame_auto. Qed.

Lemma claim_touches sid rc pvc cpu memory :
  touches true [KPod] (claimOrCreatePod sid rc pvc cpu memory).
Proof.
  unfold claimOrCreatePod. pose proof (coldStart_touches sid rc pvc cpu memory).
  pose proof claimLoop_touches as Hl. unfold touches in *. frame_auto.
Qed.

Lemma getMatrixConfig_touches : touches false [] getMatrixConfig.
Proof. frame_auto. Qed.

Lemma ensurePVC_touches id : touches false [KPvc] (ensureWorkspacePVC id).
Proof. frame_auto. Qed.

Lemma applyCNP_touches s : touches false [KCnp] (applySessionCNP s).
Proof. frame_auto. Qed.

(** ** Claiming a pod *)

(** A pod the pool may hand out to a session of runtime class [rc]. *)
Definition adoptable (rc : string) (q : Pod) : Prop :=
  let q_rc := default "" (m_labels (p_meta q) !! labelRuntimeClass) in
  m_labels (p_meta q) !! labelState = Some stateWarm /\
  pst_phase (p_status q) = PodRunning /\ pst_podIP (p_status q) <> "" /\
  PodReadyCondition q = true /\ (q_rc = "" \/ q_rc = rc).

Definition pod_key (p : Pod) : key := (m_ns (p_meta p), m_name (p_meta p)).

(** The pod [p] handed to session [sid] by a cluster whose pods were [pods]. *)
Definition handed_out (sid rc pvc : string) (pods : gmap key Pod) (p : Pod) : Prop :=
  m_labels (p_meta p) !! labelSessionID = Some sid /\
  m_labels (p_meta p) !! labelState = Some stateActive /\
  match pods !! pod_key p with
  | None => ("workspace", if decide (pvc <> "") then PersistentVolumeClaim pvc else EmptyDir)
              ∈ ps_volumes (p_spec p) /\
            ps_runtimeClassName (p_spec p) = if decide (rc <> "") then Some rc else None
  | Some q => pvc = "" /\ adoptable rc q
  end.

Definition claim_post (sid rc pvc : string) (pods : gmap key Pod) (o : outcome (res Pod))
    (v' : Orch * Cluster) : Prop :=
  forall p, o = Done (Ok p) -> handed_out sid rc pvc pods p.

Lemma wp_quiet_end faults {A} (p : orchP A) (r : res Pod) Q v :
  touches false [] p -> (forall v', Q (Done r) v') ->
  wp (kube_contract Orch faults) (bind p (fun _ => Ret r)) Q v.
Proof. intros Hp HQ. eapply (wp_touches_bind faults false []); [exact Hp|done|]. intros. apply HQ. Qed.

Lemma coldStart_hands_out faults sid rc pvc cpu memory start pods v :
  cl_pods (snd v) = pods ->
  wp (kube_contract Orch faults) (coldStart sid rc pvc cpu memory start)
    (claim_post sid rc pvc pods) v.
Proof.
  intros Hpods. unfold coldStart. destruct (SandboxPodSpec _ _ _ _ _) as [spec|] eqn:Hspec; [|done].
  apply (wp_create_cases faults (k := KPod)); [|by intros].
  intros name rv Hlt Hname o' Habs. apply wp_quiet_end; [frame_auto|]. intros v' p [= <-].
  split; [done|]. split; [done|]. simpl in Habs. rewrite Hpods in Habs.
  replace (pods !! pod_key o') with (@None Pod) by (symmetry; exact Habs).
  apply SandboxPodSpec_Some in Hspec as [Hvol Hrc]. split; [|exact Hrc].
  change (ps_volumes (p_spec o')) with (ps_volumes spec). rewrite Hvol. set_solver.
Qed.

Lemma wp_health faults pod (f : bool -> orchP (res Pod)) Q v :
  (pst_phase (p_status pod) = PodRunning -> pst_podIP (p_status pod) <> "" ->
   PodReadyCondition pod = true -> wp (kube_contract Orch faults) (f true) Q v) ->
  wp (kube_contract Orch faults) (f false) Q v ->
  wp (kube_contract Orch faults) (bind (defaultWarmPodHealthCheck pod) f) Q v.
Proof.
  intros HT HF. unfold defaultWarmPodHealthCheck.
  destruct (_ || _) eqn:E1; [by apply wp_ret_bind|].
  apply orb_false_iff in E1 as [E1%negb_false_iff%bool_decide_eq_true E2%bool_decide_eq_false].
  destruct (PodReadyCondition pod) eqn:E3; cbv beta iota delta [negb]; [|by apply wp_ret_bind].
  specialize (HT E1 E2 eq_refl). apply wp_assoc. unfold readyHandshake. apply wp_assoc.
  intros r v' Hr. simpl in Hr. subst v'. apply wp_ret_bind. destruct (match r with Ok _ => _ | Err _ => _ end).
  - by apply wp_ret_bind.
  - intros [] v' Hv; simpl in Hv; subst v'; done.
Qed.

Lemma claimLoop_hands_out faults sid rc start warm cold pods v :
  wf (snd v) -> cl_pods (snd v) = pods ->
  Forall (fun p => pods !! pod_key p = Some p /\ m_labels (p_meta p) !! labelState = Some stateWarm) warm ->
  (forall v', cl_pods (snd v') = pods -> wp (kube_contract Orch faults) cold (claim_post sid rc "" pods) v') ->
  wp (kube_contract Orch faults) (claimLoop sid rc start warm cold) (claim_post sid rc "" pods) v.
Proof.
  intros Hwf Hpods Hwarm Hcold. induction Hwarm as [|pod warm [Hst Hlab] Hw IH]; simpl; [by apply Hcold|].
  apply wp_health; [|done]. intros Hrun Hip Hready. simpl.
  case_decide as Hrc; [done|].
  apply (wp_update_cases faults (k := KPod)); [|by intros].
  intros cur rv Hlt Hcur.
  eapply (wp_touches_bind faults false []); [frame_auto|done|]. intros ? v1 _.
  eapply (wp_touches_bind faults false []); [frame_auto|done|]. intros ? v2 _.
  apply wp_ret_bind, wp_ret. intros p [= <-]. unfold handed_out. simpl.
  split; [apply claimed_labels_session|]. split; [apply claimed_labels_state|].
  change (pod_key _) with (pod_key pod). rewrite Hst. split; [done|].
  unfold adoptable. repeat split; try done.
  destruct (decide (default "" (m_labels (p_meta pod) !! labelRuntimeClass) = "")); [by left|].
  destruct (decide (default "" (m_labels (p_meta pod) !! labelRuntimeClass) = rc)); [by right|tauto].
Qed.

(** What [claimOrCreatePod] hands out: the returned pod is labelled with
    the session and active; either it is new, mounts the session's workspace
    claim (or an empty directory) and runs in its runtime class, or it was a
    warm pod of the pool, running, ready and of a compatible runtime class,
    and the session has no workspace claim. *)
Theorem claim_hands_out faults sid rc pvc cpu memory v :
  wf (snd v) ->
  wp (kube_contract Orch faults) (claimOrCreatePod sid rc pvc cpu memory)
    (fun o v' => forall p, o = Done (Ok p) -> handed_out sid rc pvc (cl_pods (snd v)) p) v.
Proof.
  intros Hwf. unfold claimOrCreatePod.
  eapply (wp_touches_bind faults false []); [frame_auto|done|]. intros start v1 H1.
  pose proof (unchanged_pods _ _ _ H1 ltac:(set_solver)) as E1.
  case_decide as Hpvc; [subst pvc|by apply coldStart_hands_out].
  apply (wp_list_cases faults KPod); [|intros e; by apply coldStart_hands_out].
  intros warm Hwarm. apply claimLoop_hands_out; [by eapply unchanged_wf|done| |].
  - rewrite Forall_forall. intros p Hp.
    apply (elem_of_listed KPod _ _ _ _ p Hwarm) in Hp as [Hsel [i Hi]].
    apply andb_true_iff in Hsel as [_ Hst%bool_decide_eq_true]. simpl in *. rewrite E1 in Hi.
    destruct (Hwf KPod i p Hi) as [<- _]. by split.
  - intros v' Hv'. by apply coldStart_hands_out.
Qed.

(** ** Creating a session *)

Lemma unchanged_store ws v v' k : unchanged (M := Orch) ws v v' -> k ∉ ws -> store k (snd v') = store k (snd v).
Proof. intros [H _]. apply H. Qed.

(** The identifier of a session, given or generated, is never empty. *)
Lemma wp_session_id faults (given : string) (v : Orch * Cluster) :
  wp (kube_contract Orch faults)
    (if decide (given = "") then do t <- now; Ret ("sess-" +:+ itoa t) else Ret given)
    (fun o v' => exists id, o = Done id /\ id <> "" /\ (wf (snd v) -> wf (snd v')) /\
       (given <> "" -> id = given)) v.
Proof.
  case_decide; [|by exists given].
  intros t v' HC. exists ("sess-" +:+ itoa t). split; [done|]. split; [done|]. split; [|by intros []].
  exact (wf_step faults Z Now v t v' HC).
Qed.

(** The rest of a creation once the session object is stored: whatever
    happens, the stored object stays as it was created. *)
Lemma create_rest_pending faults (s s0 : SandboxSession) tenant id rc cpu memory t ttl v :
  wf (snd v) -> m_rv (s_meta s) = 0%N -> m_name (s_meta s) <> "" ->
  cl_sessions (snd v) !! (sandboxNS, m_name (s_meta s)) = Some s0 ->
  wp (kube_contract Orch faults)
    (try pvcName <- (if decide (tenant <> "") then ensureWorkspacePVC id else Ret (Ok ""));
     try pod <- claimOrCreatePod id rc pvcName cpu memory;
     let session := with_status (activeStatus pod pvcName t ttl) s in
     do! updateSessionStatus session;
     do r <- applySessionCNP session;
     Ret (match r with Ok _ => Ok session | Err e => Err e end)) (fun o v' =>
    forall s', o = Done (Ok s') -> wf (snd v') /\ m_name (s_meta s') = m_name (s_meta s) /\
      cl_sessions (snd v') !! (sandboxNS, m_name (s_meta s)) = Some s0 /\
      Phase (s_status s') = SandboxPhaseActive) v.
Proof.
  intros Hwf Hrv Hname Hs0.
  eapply (wp_touches_bind faults false [KPvc]); [frame_auto; by apply ensurePVC_touches|done|].
  intros r v1 [H1 W1]. destruct r as [pvcName|]; [|by apply wp_ret].
  eapply (wp_touches_bind faults true [KPod]); [apply claim_touches|done|].
  intros r v2 [H2 W2]. destruct r as [pod|]; [|by apply wp_ret]. cbv zeta.
  set (s' := with_status _ s). apply wp_assoc.
  apply (wp_update_status_unset faults (k := KSession)); [exact Hrv|done|by auto|].
  intros e. apply wp_ret_bind.
  eapply (wp_touches_bind faults false [KCnp]); [apply applyCNP_touches|done|].
  intros r v3 [H3 W3]. apply wp_ret. intros s1 [= Hs1]. destruct r; [|done].
  injection Hs1 as <-. split; [by auto|]. split; [done|]. split; [|done].
  pose proof (H1 KSession ltac:(set_solver)) as E1. pose proof (H2 KSession ltac:(set_solver)) as E2.
  pose proof (H3 KSession ltac:(set_solver)) as E3. simpl in E1, E2, E3. by rewrite E3, E2, E1.
Qed.

(** What the cluster stores of a created session: the object as it was made,
    with its empty status. *)
Lemma createSession_stored faults req ttl hosts cpu memory v :
  wf (snd v) ->
  wp (kube_contract Orch faults) (createSessionWithTTL req ttl hosts cpu memory) (fun o v' =>
    forall s, o = Done (Ok s) -> wf (snd v') /\ m_name (s_meta s) <> "" /\
      (cr_sessionID req <> "" -> m_name (s_meta s) = cr_sessionID req) /\ exists s0,
      cl_sessions (snd v') !! (sandboxNS, m_name (s_meta s)) = Some s0 /\
      TenantID (s_spec s0) = cr_tenantID req /\ s_status s0 = empty_status /\
      Phase (s_status s) = SandboxPhaseActive) v.
Proof.
  intros Hwf. unfold createSessionWithTTL. destruct (validateSessionEnv _ _); [by apply wp_ret|].
  apply wp_bind. eapply wp_mono; [|apply wp_session_id]. intros o v1 (id & -> & Hid & W1 & Hgiven).
  eapply (wp_touches_bind faults false []); [frame_auto|done|]. intros t v2 [H2 W2].
  destruct (validateSecretRefs _); [by apply wp_ret|]. cbv zeta.
  set (s := newSession _ _ _ _ _ _ _ _).
  apply wp_assoc, (wp_create_cases faults (k := KSession) s); [|intros e; by apply wp_ret].
  intros name rv Hlt Hname o' _.
  assert (name = id) as -> by (by destruct Hname).
  eapply wp_mono; [|eapply (create_rest_pending faults s o'); [|done|done|apply lookup_insert_eq]].
  - intros o1 v' H s1 Hs1. destruct (H s1 Hs1) as (W & Hn & H0 & Hp). rewrite Hn.
    split; [done|]. split; [done|]. split; [done|]. by exists o'.
  - apply wf_put; [by auto|]. unfold o', created. by rewrite rv_of_stamp.
Qed.

(** Creation never records the session's status: against every API server
    that refuses an update of a custom resource carrying no revision, whenever
    [CreateSession] reports an active session, the object the cluster stores
    for it still has an empty status (no phase, pod, workspace or expiry). *)
Theorem create_session_status_lost faults req ttl hosts cpu memory v :
  wf (snd v) ->
  wp (kube_contract Orch faults) (createSessionWithTTL req ttl hosts cpu memory) (fun o v' =>
    forall s, o = Done (Ok s) -> exists s0,
      cl_sessions (snd v') !! (sandboxNS, m_name (s_meta s)) = Some s0 /\
      s_status s0 = empty_status /\ Phase (s_status s) = SandboxPhaseActive) v.
Proof.
  intros Hwf. eapply wp_mono; [|by apply createSession_stored].
  intros o v' H s Hs. destruct (H s Hs) as (_ & _ & _ & s0 & H0 & _ & H1). by exists s0.
Qed.

(** ** Destroying a session *)

(** What release leaves of a pod. *)
Definition released_pod (p : Pod) (rv : N) : Pod :=
  let m := p_meta p in
  mkPod (mkMeta (m_ns m) (m_name m) (m_generateName m) (released_labels (m_labels m))
           (m_annots m) rv (m_created m)) (p_spec p) (p_status p).

Lemma destroyStepsDone_none s : annotation destroyStepAnnotation s = "" -> destroyStepsDone s = ∅.
Proof. intros H. unfold destroyStepsDone. by rewrite H. Qed.

Lemma markDestroyStep_touches id step : touches false [KSession] (markDestroyStep id step).
Proof. frame_auto. Qed.

Lemma findPodWithFallback_touches id s : touches false [] (findPodWithFallback id s).
Proof. frame_auto. Qed.

(** The only pod of session [id]. *)
Definition sole_pod (id : string) (p : Pod) (c : Cluster) : Prop :=
  list_objs KPod sandboxNS (SelEq labelSessionID id) c = [p] /\ pst_podIP (p_status p) <> "".

Lemma list_objs_pods ns sel c c' :
  cl_pods c' = cl_pods c -> list_objs KPod ns sel c' = list_objs KPod ns sel c.
Proof. unfold list_objs. simpl. by intros ->. Qed.

Lemma sole_pod_stored id p c :
  wf c -> sole_pod id p c ->
  cl_pods c !! (sandboxNS, m_name (p_meta p)) = Some p /\ m_ns (p_meta p) = sandboxNS.
Proof.
  intros Hwf [Hl _].
  assert (p ∈ list_objs KPod sandboxNS (SelEq labelSessionID id) c) as Hp by (rewrite Hl; set_solver).
  apply (elem_of_list_objs KPod) in Hp as [Hsel [i Hi]].
  apply andb_true_iff in Hsel as [Hns%bool_decide_eq_true _]. simpl in *.
  destruct (Hwf KPod i p Hi) as [<- _]. unfold key_of in Hi. simpl in *. by rewrite Hns in Hi.
Qed.

Lemma wp_findPod id s p {B} (f : string * string -> orchP B) Q v :
  sole_pod id p (snd v) ->
  wp (kube_contract Orch false) (f (pst_podIP (p_status p), m_name (p_meta p))) Q v ->
  wp (kube_contract Orch false) (bind (findPodWithFallback id s) f) Q v.
Proof.
  intros [Hl Hip] HQ. apply wp_assoc, wp_assoc, (wp_list KPod). intros l Hperm.
  rewrite Hl in Hperm. apply Permutation_singleton_r in Hperm as ->.
  apply wp_ret_bind. rewrite decide_False by (simpl; tauto). by apply wp_ret_bind.
Qed.

Lemma wp_releasePod p {B} (f : unit -> orchP B) Q v :
  wf (snd v) -> cl_pods (snd v) !! (sandboxNS, m_name (p_meta p)) = Some p ->
  m_ns (p_meta p) = sandboxNS ->
  (forall v' rv, wf (snd v') -> (forall k, k <> KPod -> store k (snd v') = store k (snd v)) ->
     cl_pods (snd v') = <[(sandboxNS, m_name (p_meta p)) := released_pod p rv]> (cl_pods (snd v)) ->
     wp (kube_contract Orch false) (f tt) Q v') ->
  wp (kube_contract Orch false) (bind (releasePod (m_name (p_meta p))) f) Q v.
Proof.
  intros Hwf Hp Hns HQ. apply wp_assoc, (wp_get_some KPod _ _ p); [exact Hp|].
  set (p' := with_labels _ p). assert (key_of (k := KPod) p' = (sandboxNS, m_name (p_meta p))) as Hk
    by (unfold key_of; simpl; by rewrite Hns).
  destruct (Hwf KPod _ _ Hp) as [_ Hrv]. simpl in Hrv.
  apply wp_assoc. apply (wp_update (k := KPod) p' p); [by rewrite Hk|done|simpl in *; lia|].
  intros rv Hlt. apply wp_ret_bind. apply (HQ _ rv).
  - apply wf_put; [done|exact Hlt].
  - intros k Hne. by apply (store_put_ne (k := KPod)).
  - transitivity (<[key_of (k := KPod) p' := updated (k := KPod) p' p rv]> (cl_pods (snd v))); [done|].
    by rewrite Hk.
Qed.

(** [DestroySession] returns once the session is gone, if it was there. *)
Lemma destroy_returns id s v :
  cl_sessions (snd v) !! (sandboxNS, id) = Some s ->
  wp (kube_contract Orch false) (DestroySession id) (fun o v' =>
    o = Done (Ok tt) /\ cl_sessions (snd v') !! (sandboxNS, id) = None) v.
Proof.
  intros Hs. unfold DestroySession. apply (wp_get_some KSession _ _ s); [exact Hs|]. cbv zeta.
  assert (forall {A} (p : orchP A) f Q v, only false (fun X e => deletes KSession e = false) p ->
    is_Some (cl_sessions (snd v) !! (sandboxNS, id)) ->
    (forall a v', is_Some (cl_sessions (snd v') !! (sandboxNS, id)) ->
       wp (kube_contract Orch false) (f a) Q v') ->
    wp (kube_contract Orch false) (bind (B := res unit) p f) Q v) as Hkeep.
  { intros A p f Q v0 Hp H0 HQ.
    eapply (wp_only_bind false _ _ (fun v v' => is_Some (cl_sessions (snd v) !! (sandboxNS, id)) ->
      is_Some (cl_sessions (snd v') !! (sandboxNS, id)))); [by auto|by auto| |exact Hp|done|].
    - intros X e v1 x v2 He HC Hi. exact (keeps_step false KSession X e v1 x v2 _ He HC Hi).
    - intros a v1 H1. apply HQ. by apply H1. }
  apply Hkeep; [frame_auto|by eexists|]. intros _ v1 H1.
  apply Hkeep; [case_decide; frame_auto|done|]. intros _ v2 H2.
  apply Hkeep; [frame_auto|done|]. intros [ip name] v3 H3.
  apply Hkeep; [case_decide; frame_auto|done|]. intros _ v4 [s4 H4].
  apply wp_last. intros r [m c] [_ Hr]. destruct r as [[]|e].
  - split; [done|]. destruct Hr as [_ Hc]. simpl in Hc. subst c. apply lookup_delete_eq.
  - destruct Hr as [_ Hr]. destruct e as [|[]|]; try done; destruct Hr as [? Hr]; try done.
    simpl in Hr. by rewrite H4 in Hr.
Qed.

Lemma deleteCNP_touches s : touches false [KCnp] (deleteCNP s).
Proof. frame_auto. Qed.

Lemma wp_deleteCNP s {B} (f : unit -> orchP B) Q v :
  (forall v', unchanged [KCnp] v v' ->
     cl_cnps (snd v') !! (m_ns (s_meta s), cnpName (m_name (s_meta s))) = None ->
     wp (kube_contract Orch false) (f tt) Q v') ->
  wp (kube_contract Orch false) (bind (deleteCNP s) f) Q v.
Proof.
  intros HQ. apply wp_assoc, wp_delete.
  destruct (store KCnp (snd v) !! _) eqn:E; apply wp_ret_bind, HQ.
  - split; [|intros Hwf; by apply wf_remove].
    intros k Hk. apply store_remove_ne. set_solver.
  - apply lookup_delete_eq.
  - done.
  - exact E.
Qed.

(** Resetting the workspace and releasing the pod. *)
Lemma wp_reset_release id p {B} (f : unit -> orchP B) Q v :
  wf (snd v) -> sole_pod id p (snd v) -> m_name (p_meta p) <> "" ->
  (forall v' rv, unchanged [KSession; KPod] v v' ->
     cl_pods (snd v') = <[(sandboxNS, m_name (p_meta p)) := released_pod p rv]> (cl_pods (snd v)) ->
     wp (kube_contract Orch false) (f tt) Q v') ->
  wp (kube_contract Orch false)
    (bind (do! resetWorkspace (pst_podIP (p_status p));
           do! markDestroyStep id "workspace";
           if decide (m_name (p_meta p) <> "") then
             do! releasePod (m_name (p_meta p));
             markDestroyStep id "release"
           else Ret tt) f) Q v.
Proof.
  intros Hwf Hp Hname HQ. destruct (sole_pod_stored id p (snd v) Hwf Hp) as [Hst Hpns].
  apply wp_assoc, wp_assoc, wp_sandboxd. intros _. apply wp_ret_bind, wp_assoc.
  eapply (wp_touches_bind false false [KSession]); [apply markDestroyStep_touches|done|].
  intros _ v1 H1. rewrite decide_True by done.
  pose proof (unchanged_pods _ _ _ H1 ltac:(set_solver)) as E1.
  apply wp_assoc, (wp_releasePod p); [by eapply unchanged_wf|by rewrite E1|done|].
  intros v2 rv W2 F2 E2.
  eapply (wp_touches_bind false false [KSession]); [apply markDestroyStep_touches|done|].
  intros [] v3 H3. apply (HQ _ rv).
  - split.
    + intros k Hk. etrans; [apply H3; set_solver|]. etrans; [apply F2; set_solver|]. apply H1. set_solver.
    + intros _. by apply H3.
  - rewrite (unchanged_pods _ _ _ H3 ltac:(set_solver)), E2. by rewrite E1.
Qed.

(** Only objects that are named in [P] change. *)
Definition changed_in (P : kind -> key -> Prop) (v v' : Orch * Cluster) : Prop :=
  wf (snd v') /\ forall k i, ~ P k i -> store k (snd v') !! i = store k (snd v) !! i.

Lemma changed_trans P v1 v2 v3 : changed_in P v1 v2 -> changed_in P v2 v3 -> changed_in P v1 v3.
Proof. intros [_ H1] [W H2]. split; [done|]. intros k i Hi. by rewrite H2, H1. Qed.

Lemma changed_refl P v : wf (snd v) -> changed_in P v v.
Proof. by split. Qed.

(** The object an effect writes. *)
Definition hits {X} (e : gwE Orch X) (k : kind) (i : key) : Prop :=
  match e with
  | Create k' o => k = k'
  | Update k' o | UpdateStatus k' o => k = k' /\ i = key_of o
  | Delete k' ns n => k = k' /\ i = (ns, n)
  | _ => False
  end.

Lemma step_changes faults P X (e : gwE Orch X) v x v' :
  (forall k i, hits e k i -> P k i) -> wf (snd v) -> kube_contract Orch faults X e v x v' -> changed_in P v v'.
Proof.
  intros He Hwf HC. split; [exact (wf_step faults X e v x v' HC Hwf)|]. intros k i Hi.
  assert (~ hits e k i) as Hn by (intros ?; by apply Hi, He). destruct (writes k e) eqn:Hw.
  2: { by rewrite (frame_step faults k X e v x v' Hw HC). }
  destruct v as [m c], v' as [m' c'].
  assert (forall k' (o o' : obj k') merge, (forall cur, store k' c !! key_of o = Some cur -> m_ns (meta_of (merge o cur)) = m_ns (meta_of o)) ->
    k = k' -> i <> key_of o -> update_ok merge o o' c c' -> store k c' !! i = store k c !! i) as Hu.
  { intros k' o o' merge Hm -> Hne (cur & rv & Hcur & _ & _ & Ho & ->). rewrite store_put, lookup_insert_ne; [done|].
    subst o'. rewrite key_of_stamp, (Hm cur Hcur). intros E. by apply Hne. }
  destruct e as [|k' ns name|k' ns sel|k' o|k' o|k' o|k' ns name| | |d|Y f]; simpl in *; try discriminate Hw; apply bool_decide_eq_true in Hw.
  - by destruct Hn.
  - destruct HC as [_ HC]. destruct x as [o'|]; [|by destruct HC as [[= -> ->] _]]. eapply (Hu k' o o' status_from); [|done|by intros ->; apply Hn|done].
    intros cur _. by rewrite meta_status_from.
  - destruct HC as [_ HC]. destruct x as [o'|]; [|by destruct HC as [[= -> ->] _]]. eapply (Hu k' o o'); [|done|by intros ->; apply Hn|done].
    intros cur Hcur. cbv beta. rewrite meta_status_from. destruct (Hwf _ _ _ Hcur) as [Ek _]. by injection Ek.
  - destruct HC as [_ HC]. destruct x as [o'|]; [|by destruct HC as [[= -> ->] _]].
    destruct HC as [_ ->]. subst k'. rewrite store_remove, lookup_delete_ne; [done|]. intros E. by apply Hn.
Qed.

(** A call that hits nothing outside [P]. *)
Lemma wp_hits faults P {X B} (e : gwE Orch X) (f : X -> orchP B) v0 v :
  changed_in P v0 v -> (forall k i, hits e k i -> P k i) ->
  (forall x v', kube_contract Orch faults X e v x v' -> changed_in P v0 v' ->
    wp (kube_contract Orch faults) (f x) (fun _ v' => changed_in P v0 v') v') ->
  wp (kube_contract Orch faults) (bind (call e) f) (fun _ v' => changed_in P v0 v') v.
Proof.
  intros H0 He Hf x v' Hc. apply Hf; [done|]. eapply changed_trans; [exact H0|]. eapply step_changes; [exact He|apply H0|done].
Qed.

Lemma wp_changed_bind faults P {A B} (p : orchP A) (f : A -> orchP B) v0 v :
  wp (kube_contract Orch faults) p (fun _ v' => changed_in P v0 v') v ->
  (forall a v', changed_in P v0 v' -> wp (kube_contract Orch faults) (f a) (fun _ v' => changed_in P v0 v') v') ->
  wp (kube_contract Orch faults) (bind p f) (fun _ v' => changed_in P v0 v') v.
Proof. intros Hp Hf. apply wp_bind. eapply wp_mono; [|exact Hp]. intros [a|] v' H; [by apply Hf|done]. Qed.

(** What destroying session [id] may change: the session, its policy and the
    pods. *)
Definition of_session (id : string) (k : kind) (i : key) : Prop :=
  k = KSession /\ i = (sandboxNS, id) \/ k = KCnp /\ i = (sandboxNS, cnpName id) \/ k = KPod.

Lemma get_session_at faults id v x v' s : wf (snd v) -> kube_contract Orch faults _ (Get KSession sandboxNS id) v x v' -> x = Ok s ->
  key_of (k := KSession) s = (sandboxNS, id).
Proof. intros Hwf [_ Hr] ->. by apply (Hwf KSession) in Hr as [? _]. Qed.

Lemma mark_changes faults id step v0 v : changed_in (of_session id) v0 v ->
  wp (kube_contract Orch faults) (markDestroyStep id step) (fun _ v' => changed_in (of_session id) v0 v') v.
Proof.
  intros H0. unfold markDestroyStep, getSession. apply wp_hits; [done|done|]. intros x v1 Hc H1.
  destruct x as [s|]; [|by apply wp_ret]. cbv zeta. destruct (contains _ _); [by apply wp_ret|].
  apply wp_hits; [done| |by intros]. intros k i [-> ->]. left. split; [done|].
  pose proof (get_session_at faults id v _ v1 s (proj1 H0) Hc eq_refl) as E. exact E.
Qed.

Lemma destroy_changes faults id v : wf (snd v) ->
  wp (kube_contract Orch faults) (DestroySession id) (fun _ v' => changed_in (of_session id) v v') v.
Proof.
  intros Hwf. unfold DestroySession, getSession. apply wp_hits; [by apply changed_refl|done|]. intros x v1 Hc H1.
  destruct x as [s|]; [|by apply wp_ret]. cbv zeta.
  pose proof (get_session_at faults id v _ v1 s Hwf Hc eq_refl) as Es.
  apply wp_changed_bind. { apply wp_hits; [done| |by intros]. intros k i [-> ->]. by left. }
  intros _ v2 H2. apply wp_changed_bind.
  { case_decide; [by apply wp_ret|]. apply wp_changed_bind; [|intros; by apply mark_changes].
    apply wp_hits; [done| |by intros]. intros k i [-> ->]. right. left. split; [done|].
    injection Es as Ens Enm. cbn. by rewrite Ens, Enm. }
  intros _ v3 H3. apply wp_changed_bind.
  { unfold findPodWithFallback, findPodBySession. apply wp_changed_bind; [apply wp_hits; [done|done|by intros]|].
    intros found v4 H4. case_decide; [|by apply wp_ret]. apply wp_hits; [done|done|]. intros; by apply wp_ret. }
  intros [ip name] v4 H4. apply wp_changed_bind.
  { case_decide; [|by apply wp_ret]. apply wp_changed_bind; [apply wp_hits; [done|done|by intros]|]. intros _ v5 H5.
    apply wp_changed_bind; [by apply mark_changes|]. intros _ v6 H6. case_decide; [|by apply wp_ret].
    apply wp_changed_bind; [|intros; by apply mark_changes]. unfold releasePod. apply wp_hits; [done|done|].
    intros [pod|] v7 _ H7; [|by apply wp_ret]. apply wp_hits; [done| |by intros]. intros k i [-> _]. right. by right. }
  intros _ v5 H5 x v6 Hd. apply wp_ret. eapply changed_trans; [exact H5|]. eapply step_changes; [|apply H5|exact Hd].
  intros k i [-> ->]. by left.
Qed.

(** C20. Destroying a session nobody has started to destroy, whose pod is up
    and its only one: against every server that serves its requests, and
    whatever sandboxd answers, the call succeeds; the session and its network
    policy are gone and its pod is back in the pool's hands (state
    [resetting], no session label); every other session, policy and pod and
    every object of another kind is as it was. *)
Theorem destroy_session_correct id s p v :
  wf (snd v) -> cl_sessions (snd v) !! (sandboxNS, id) = Some s ->
  annotation destroyStepAnnotation s = "" -> sole_pod id p (snd v) -> m_name (p_meta p) <> "" ->
  wp (kube_contract Orch false) (DestroySession id) (fun o v' =>
    (forall k i, k <> KPod -> (k, i) <> (KSession, (sandboxNS, id)) -> (k, i) <> (KCnp, (sandboxNS, cnpName id)) ->
       store k (snd v') !! i = store k (snd v) !! i) /\
    (o = Done (Ok tt) /\ cl_sessions (snd v') !! (sandboxNS, id) = None) /\
    cl_cnps (snd v') !! (sandboxNS, cnpName id) = None /\
    exists rv, cl_pods (snd v') =
       <[(sandboxNS, m_name (p_meta p)) := released_pod p rv]> (cl_pods (snd v))) v.
Proof.
  intros Hwf Hs Hann Hp Hname. apply wp_and.
  { eapply wp_mono; [|by apply destroy_changes]. cbv beta. intros o v' [_ H] k i Hk H1 H2. apply H.
    intros [[-> ->]|[[-> ->]| ->]]; congruence. }
  apply wp_and; [by eapply destroy_returns|].
  unfold DestroySession. apply (wp_get_some KSession _ _ s); [exact Hs|]. cbv zeta.
  destruct (Hwf KSession _ _ Hs) as [Hk _]. injection Hk as Hns Hnm.
  eapply (wp_touches_bind false false [KSession]); [frame_auto|done|]. intros _ v1 H1.
  rewrite !destroyStepsDone_none by done. rewrite decide_False by set_solver.
  apply wp_assoc, wp_deleteCNP. intros v2 H2 Hcnp. simpl in Hcnp. rewrite Hns, Hnm in Hcnp.
  eapply (wp_touches_bind false false [KSession]); [apply markDestroyStep_touches|done|].
  intros _ v3 H3.
  assert (unchanged [KSession; KCnp] v v3) as H03.
  { eapply unchanged_trans; [eapply unchanged_mono; [exact H1|set_solver]|].
    eapply unchanged_trans; eapply unchanged_mono; [exact H2|set_solver|exact H3|set_solver]. }
  pose proof (unchanged_pods _ _ _ H03 ltac:(set_solver)) as E3.
  assert (sole_pod id p (snd v3)) as Hp3 by (unfold sole_pod; by rewrite (list_objs_pods _ _ _ _ E3)).
  apply (wp_findPod id _ p); [done|]. cbv beta iota. rewrite decide_True by (split; [apply Hp|set_solver]).
  apply (wp_reset_release id p); [by eapply unchanged_wf|done|done|]. intros v4 rv H4 E4.
  apply wp_last. intros r v5 Hr.
  assert (unchanged [KSession] v4 v5) as H5
    by (eapply unchanged_step; [|exact Hr]; intros k ?%bool_decide_eq_true; set_solver).
  split.
  - rewrite (unchanged_cnps _ _ _ H5 ltac:(set_solver)), (unchanged_cnps _ _ _ H4 ltac:(set_solver)).
    by rewrite (unchanged_cnps _ _ _ H3 ltac:(set_solver)).
  - exists rv. by rewrite (unchanged_pods _ _ _ H5 ltac:(set_solver)), E4, E3.
Qed.

(** A destroy resumed after its workspace step never frees the pod: once
    the ledger records [workspace], a further [DestroySession] changes no pod
    at all, whatever the API server answers; a crash between the workspace
    step and the release step therefore leaves the pod claimed for good. *)
Theorem destroy_resumed_keeps_pods faults id s v :
  cl_sessions (snd v) !! (sandboxNS, id) = Some s -> "workspace" ∈ destroyStepsDone s ->
  wp (kube_contract Orch faults) (DestroySession id) (fun o v' =>
    cl_pods (snd v') = cl_pods (snd v)) v.
Proof.
  intros Hs Hw. unfold DestroySession. intros r v1 Hr.
  destruct Hr as [-> Hr]. destruct r as [s'|]; [|by apply wp_ret].
  simpl in Hr. rewrite Hs in Hr. injection Hr as <-. apply wp_ret_bind. cbv zeta.
  eapply (wp_touches_bind faults false [KSession]); [frame_auto|done|]. intros _ v1 H1.
  eapply (wp_touches_bind faults false [KSession; KCnp]); [case_decide; frame_auto|done|].
  intros _ v2 H2. eapply (wp_touches_bind faults false []); [apply findPodWithFallback_touches|done|].
  intros [ip name] v3 H3. rewrite decide_False by (intros [_ Hn]; by apply Hn).
  apply wp_ret_bind, wp_last. intros r v4 Hr.
  assert (unchanged [KSession] v3 v4) as H4
    by (eapply unchanged_step; [|exact Hr]; intros k ?%bool_decide_eq_true; set_solver).
  rewrite (unchanged_pods _ _ _ H4 ltac:(set_solver)), (unchanged_pods _ _ _ H3 ltac:(set_solver)).
  rewrite (unchanged_pods _ _ _ H2 ltac:(set_solver)). apply (unchanged_pods _ _ _ H1). set_solver.
Qed.

(** ** Pausing and resuming *)

(** The workspace claim a paused session keeps. *)
Definition workspace_of (id : string) (s : SandboxSession) : string :=
  if decide (WorkspacePVC (s_status s) = "") then pvcNameOf id else WorkspacePVC (s_status s).

(** [c'] has the sessions of [c], but the status of session [id] is [st]. *)
Definition status_set (id : string) (s : SandboxSession) (st : SandboxSessionStatus)
    (c c' : Cluster) : Prop :=
  exists rv, cl_sessions c' = <[(sandboxNS, id) :=
    with_status st (mkSession (mkMeta (m_ns (s_meta s)) (m_name (s_meta s)) (m_generateName (s_meta s))
      (m_labels (s_meta s)) (m_annots (s_meta s)) rv (m_created (s_meta s))) (s_spec s) (s_status s))]>
    (cl_sessions c).

Lemma wp_set_status id s st {B} (f : unit -> orchP B) Q v :
  wf (snd v) -> cl_sessions (snd v) !! (sandboxNS, id) = Some s ->
  (forall v', unchanged [KSession] v v' -> status_set id s st (snd v) (snd v') ->
     wp (kube_contract Orch false) (f tt) Q v') ->
  wp (kube_contract Orch false) (bind (updateSessionStatus (with_status st s)) f) Q v.
Proof.
  intros Hwf Hs HQ. destruct (Hwf KSession _ _ Hs) as [Hk Hrv]. apply wp_assoc.
  apply (wp_update_status (k := KSession) (with_status st s) s).
  - etrans; [|exact Hs]. by rewrite <-Hk.
  - done.
  - simpl in *. lia.
  - intros rv Hlt. apply wp_ret_bind, HQ.
    + split; [|intros _; apply wf_put; [done|exact Hlt]].
      intros k Hne. apply (store_put_ne (k := KSession)). set_solver.
    + exists rv. by rewrite <-Hk.
Qed.

Lemma wp_ensurePVC id s {B} (f : res string -> orchP B) Q v :
  is_Some (cl_pvcs (snd v) !! (sandboxNS, workspace_of id s)) ->
  wp (kube_contract Orch false) (f (Ok (workspace_of id s))) Q v ->
  wp (kube_contract Orch false)
    (bind (if decide (WorkspacePVC (s_status s) = "") then ensureWorkspacePVC id
           else Ret (Ok (WorkspacePVC (s_status s)))) f) Q v.
Proof.
  unfold workspace_of. case_decide; [|by intros _ ?; apply wp_ret_bind].
  intros [pvc Hpvc] HQ. apply wp_assoc, (wp_get_some KPvc _ _ pvc); [exact Hpvc|]. by apply wp_ret_bind.
Qed.

(** Pausing an active, persistent session keeps its workspace and gives up
    everything else: its pod is deleted, its network policy is gone, its
    status says paused and names the same workspace claim; the claims, the
    other pods and the other sessions are as they were. *)
Theorem pause_session_correct id s p v :
  wf (snd v) -> cl_sessions (snd v) !! (sandboxNS, id) = Some s ->
  Phase (s_status s) = SandboxPhaseActive ->
  TenantID (s_spec s) <> "" \/ WorkspacePVC (s_status s) <> "" ->
  is_Some (cl_pvcs (snd v) !! (sandboxNS, workspace_of id s)) ->
  sole_pod id p (snd v) -> m_name (p_meta p) <> "" ->
  wp (kube_contract Orch false) (PauseSession id) (fun o v' =>
    o = Done (Ok tt) /\
    cl_pods (snd v') = delete (sandboxNS, m_name (p_meta p)) (cl_pods (snd v)) /\
    cl_pvcs (snd v') = cl_pvcs (snd v) /\
    cl_cnps (snd v') !! (sandboxNS, cnpName id) = None /\
    status_set id s (pausedStatus (workspace_of id s) (s_status s)) (snd v) (snd v')) v.
Proof.
  intros Hwf Hs Hact Hper Hpvc Hp Hname. unfold PauseSession.
  apply (wp_get_some KSession _ _ s); [exact Hs|]. cbv zeta.
  rewrite decide_False by (by intros []). rewrite decide_False by tauto.
  apply wp_ensurePVC; [done|]. apply (wp_findPod id _ p); [done|].
  destruct (sole_pod_stored id p (snd v) Hwf Hp) as [Hst Hpns].
  destruct (Hwf KSession _ _ Hs) as [Hk _]. injection Hk as Hns Hnm.
  unfold deletePodForPause. simpl snd. rewrite decide_True by done.
  apply wp_assoc, (wp_delete_some KPod _ _ p); [exact Hst|]. apply wp_ret_bind.
  set (v1 := (_, remove _ _ _)).
  apply (wp_set_status id s); [by apply wf_remove|exact Hs|]. intros v2 H2 Hset.
  apply wp_deleteCNP. intros v3 H3 Hcnp. apply wp_ret.
  split; [done|]. split; [|split; [|split]].
  - by rewrite (unchanged_pods _ _ _ H3 ltac:(set_solver)), (unchanged_pods _ _ _ H2 ltac:(set_solver)).
  - by rewrite (unchanged_pvcs _ _ _ H3 ltac:(set_solver)), (unchanged_pvcs _ _ _ H2 ltac:(set_solver)).
  - simpl in Hcnp. by rewrite Hns, Hnm in Hcnp.
  - destruct Hset as [rv Hset]. exists rv. by rewrite (unchanged_sessions _ _ _ H3 ltac:(set_solver)), Hset.
Qed.

(** The policy in force for a session is the one its declaration asks for. *)
Definition policy_in_force (s : SandboxSession) (v v' : Orch * Cluster) : Prop :=
  let want := buildSessionCNPExposed s (o_fqdnEgressEnabled (fst v))
                (exposedPorts (m_name (s_meta s)) (fst v)) in
  exists c, cl_cnps (snd v') !! key_of (k := KCnp) want = Some c /\
    cnp_endpointSelector c = cnp_endpointSelector want /\
    cnp_ingress c = cnp_ingress want /\ cnp_egress c = cnp_egress want.

Lemma wp_applyCNP {B} s (f : res unit -> orchP B) Q v :
  wf (snd v) ->
  (forall v', unchanged [KCnp] v v' -> fst v' = fst v -> policy_in_force s v v' ->
     wp (kube_contract Orch false) (f (Ok tt)) Q v') ->
  wp (kube_contract Orch false) (bind (applySessionCNP s) f) Q v.
Proof.
  intros Hwf HQ. apply wp_assoc. apply wp_mem. apply wp_assoc, wp_mem. cbv zeta.
  set (want := buildSessionCNPExposed _ _ _). set (v1 := (snd _, _)).
  assert (snd v1 = snd v) as Hv1 by done.
  assert (forall (o : Cnp), key_of (k := KCnp) o = key_of (k := KCnp) want -> (cl_rv (snd v) < rv_of (k := KCnp) o)%N ->
    cnp_endpointSelector o = cnp_endpointSelector want -> cnp_ingress o = cnp_ingress want ->
    cnp_egress o = cnp_egress want ->
    wp (kube_contract Orch false) (f (Ok tt)) Q (fst v1, put (k := KCnp) o (snd v1))) as Hput.
  { intros o Hk Hrv He Hi Hg. apply HQ.
    - split; [|intros _; by apply wf_put]. intros k Hne. apply (store_put_ne (k := KCnp)). set_solver.
    - done.
    - exists o. split; [|done].
      transitivity (cl_cnps (put (k := KCnp) o (snd v1)) !! key_of (k := KCnp) o); [by rewrite Hk|].
      apply lookup_insert_eq. }
  apply wp_assoc, (wp_get KCnp). destruct (store KCnp _ !! _) as [cur|] eqn:E.
  - apply wp_assoc, (wp_update (k := KCnp) _ cur); [exact E|done|apply Hwf in E as [_ E]; simpl in *; lia|].
    intros rv Hlt. apply wp_ret_bind, Hput; done.
  - cbv beta iota. rewrite (bool_decide_eq_true_2 _ eq_refl : is_not_found (Api RNotFound) = true).
    apply wp_assoc, (wp_create (k := KCnp)); [done|exact E|].
    intros rv Hlt o'. apply wp_ret_bind, Hput; done.
Qed.

(** The limits a cold start may be given parse. *)
Definition limits_parse (rc pvc : string) (c : Cluster) : Prop :=
  Forall (fun '(cpu, memory) => is_Some (SandboxPodSpec rc pvc cpu memory sandboxImage))
    (("", "") :: ((fun x => (mx_cpu x, mx_memory x)) <$> list_objs KMatrix sandboxNS SelAll c)).

Lemma wp_matrixResourceDefaults rc pvc {B} (f : string * string -> orchP B) Q v :
  limits_parse rc pvc (snd v) ->
  (forall cpu memory spec, SandboxPodSpec rc pvc cpu memory sandboxImage = Some spec ->
     wp (kube_contract Orch false) (f (cpu, memory)) Q v) ->
  wp (kube_contract Orch false) (bind matrixResourceDefaults f) Q v.
Proof.
  intros Hparse HQ. apply wp_assoc, (wp_list KMatrix). intros l Hl. apply wp_ret_bind.
  unfold limits_parse in Hparse. rewrite Forall_forall in Hparse.
  destruct l as [|x l].
  - destruct (Hparse ("", "")) as [spec Hspec]; [set_solver|]. by eapply HQ.
  - destruct (Hparse (mx_cpu x, mx_memory x)) as [spec Hspec]; [|by eapply HQ].
    apply list_elem_of_further, list_elem_of_fmap. exists x. split; [done|].
    assert (x ∈ (x :: l : list (obj KMatrix))) as Hx by (apply list_elem_of_here). by rewrite Hl in Hx.
Qed.

Lemma wp_coldStart id rc pvc cpu memory start spec {B} (f : res Pod -> orchP B) Q v :
  SandboxPodSpec rc pvc cpu memory sandboxImage = Some spec ->
  cl_pods (snd v) !! (sandboxNS, coldPodName id) = None -> wf (snd v) ->
  (forall v' rv t, unchanged [KPod] v v' ->
     let pod := created (k := KPod) (coldPod id rc spec) (coldPodName id) rv t in
     cl_pods (snd v') = <[(sandboxNS, coldPodName id) := pod]> (cl_pods (snd v)) ->
     wp (kube_contract Orch false) (f (Ok pod)) Q v') ->
  wp (kube_contract Orch false) (bind (coldStart id rc pvc cpu memory start) f) Q v.
Proof.
  intros Hspec Habs Hwf HQ. unfold coldStart. rewrite Hspec.
  apply wp_assoc, (wp_create (k := KPod)); [done|exact Habs|]. intros rv Hlt pod.
  apply wp_assoc. eapply (wp_touches_bind false false []); [frame_auto|done|]. intros [] v1 H1.
  apply wp_ret_bind, (HQ _ rv (cl_clock (snd v))).
  - split.
    + intros k Hk. etrans; [apply H1; set_solver|]. apply (store_put_ne (k := KPod)). set_solver.
    + intros _. apply H1, wf_put; [done|exact Hlt].
  - by rewrite (unchanged_pods _ _ _ H1 ltac:(set_solver)).
Qed.

(** Resuming a paused session brings it back on its own workspace: a fresh
    pod of its runtime class is started under the session's name, labelled
    with the session and mounting the workspace claim recorded at pause; the
    status is active and names that pod; the policy is in force again; claims,
    other pods and other sessions are untouched. *)
Theorem resume_session_correct id s v :
  wf (snd v) -> cl_sessions (snd v) !! (sandboxNS, id) = Some s ->
  Phase (s_status s) = SandboxPhasePaused -> WorkspacePVC (s_status s) <> "" ->
  cl_pods (snd v) !! (sandboxNS, coldPodName id) = None ->
  limits_parse (RuntimeClass (s_spec s)) (WorkspacePVC (s_status s)) (snd v) ->
  wp (kube_contract Orch false) (ResumeSession id) (fun o v' => exists pod,
    o = Done (Ok pod) /\
    cl_pods (snd v') = <[(sandboxNS, coldPodName id) := pod]> (cl_pods (snd v)) /\
    m_labels (p_meta pod) !! labelSessionID = Some id /\
    ("workspace", PersistentVolumeClaim (WorkspacePVC (s_status s))) ∈ ps_volumes (p_spec pod) /\
    cl_pvcs (snd v') = cl_pvcs (snd v) /\
    status_set id s (mkSessionStatus SandboxPhaseActive (coldPodName id) (pst_podIP (p_status pod))
      (WorkspacePVC (s_status s)) (CreatedAt (s_status s)) (ExpiresAt (s_status s))) (snd v) (snd v')) v.
Proof.
  intros Hwf Hs Hph Hpvc Habs Hparse. unfold ResumeSession.
  apply (wp_get_some KSession _ _ s); [exact Hs|]. cbv zeta.
  rewrite decide_False by (by intros []). rewrite decide_False by done.
  eapply wp_matrixResourceDefaults; [done|]. intros cpu memory spec Hspec. cbn [fst snd].
  unfold claimOrCreatePod. apply wp_assoc, wp_now. intros t _.
  set (v1 := (_, set_clock _ _)). rewrite decide_False by done.
  apply (wp_coldStart id _ _ _ _ _ spec); [done|exact Habs|by apply wf_set_clock|].
  intros v2 rv t' H2 pod Hpods.
  pose proof (wf_set_clock t (snd v) Hwf) as Hwf1.
  assert (cl_sessions (snd v2) !! (sandboxNS, id) = Some s) as Hs2
    by by rewrite (unchanged_sessions _ _ _ H2 ltac:(set_solver)).
  apply (wp_set_status id s); [by eapply unchanged_wf|done|]. intros v3 H3 Hset.
  apply wp_applyCNP; [by eapply unchanged_wf, unchanged_wf|]. intros v4 H4 _ _. apply wp_ret.
  exists pod. split; [done|]. split; [|split; [done|split; [|split]]].
  - rewrite (unchanged_pods _ _ _ H4 ltac:(set_solver)), (unchanged_pods _ _ _ H3 ltac:(set_solver)). exact Hpods.
  - apply SandboxPodSpec_Some in Hspec as [Hvol _]. rewrite decide_True in Hvol by done.
    change (ps_volumes (p_spec pod)) with (ps_volumes spec). rewrite Hvol. set_solver.
  - rewrite (unchanged_pvcs _ _ _ H4 ltac:(set_solver)), (unchanged_pvcs _ _ _ H3 ltac:(set_solver)).
    by rewrite (unchanged_pvcs _ _ _ H2 ltac:(set_solver)).
  - destruct Hset as [rv' Hset]. exists rv'. rewrite (unchanged_sessions _ _ _ H4 ltac:(set_solver)), Hset.
    by rewrite (unchanged_sessions _ _ _ H2 ltac:(set_solver)).
Qed.

(** What pause and resume refuse: a session that is not active, or that is
    ephemeral (no tenant and no workspace), cannot be paused; one that is not
    paused, or has no workspace, cannot be resumed.  The answer is
    FailedPrecondition and nothing in the cluster changes. *)
Theorem pause_resume_refused id s v :
  cl_sessions (snd v) !! (sandboxNS, id) = Some s ->
  (Phase (s_status s) <> SandboxPhaseActive \/
     TenantID (s_spec s) = "" /\ WorkspacePVC (s_status s) = "" ->
   wp (kube_contract Orch false) (PauseSession id) (fun o v' =>
     o = Done (Err (Status FailedPrecondition)) /\ v' = v) v) /\
  (Phase (s_status s) <> SandboxPhasePaused \/ WorkspacePVC (s_status s) = "" ->
   wp (kube_contract Orch false) (ResumeSession id) (fun o v' =>
     o = Done (Err (Status FailedPrecondition)) /\ v' = v) v).
Proof.
  intros Hs. split; intros Hc.
  - unfold PauseSession. apply (wp_get_some KSession _ _ s); [exact Hs|]. cbv zeta.
    case_decide; [by apply wp_ret|]. rewrite decide_True by tauto. by apply wp_ret.
  - unfold ResumeSession. apply (wp_get_some KSession _ _ s); [exact Hs|]. cbv zeta.
    case_decide; [by apply wp_ret|]. rewrite decide_True by tauto. by apply wp_ret.
Qed.

(** ** Sub-agents *)

Definition depth_bounded (c : Cluster) : Prop :=
  map_Forall (fun _ s => (Depth (s_spec s) <= maxDepth)%Z) (cl_sessions c).

(** Session [child] runs for [parent]: same tenant, hosts, runtime class,
    environment and secrets, one level deeper. *)
Definition child_of (parentID : string) (parent child : SandboxSession) : Prop :=
  let p := s_spec parent in let c := s_spec child in
  TenantID c = TenantID p /\ AllowedHosts c = AllowedHosts p /\ RuntimeClass c = RuntimeClass p /\
  Env c = Env p /\ SecretRefs c = SecretRefs p /\
  ParentSessionID c = parentID /\ Depth c = (Depth p + 1)%Z.

Lemma RunSubAgent_wp faults parentID v :
  wf (snd v) ->
  wp (kube_contract Orch faults) (RunSubAgent parentID) (fun o v' =>
    unchanged [KSession] v v' /\ (depth_bounded (snd v) -> depth_bounded (snd v')) /\
    forall childID, o = Done (Ok childID) -> exists parent child,
      cl_sessions (snd v) !! (sandboxNS, parentID) = Some parent /\
      (Depth (s_spec parent) < maxDepth)%Z /\ WorkspacePVC (s_status parent) <> "" /\
      cl_sessions (snd v) !! (sandboxNS, childID) = None /\
      cl_sessions (snd v') !! (sandboxNS, childID) = Some child /\
      child_of parentID parent child) v.
Proof.
  intros Hwf. unfold RunSubAgent. intros r v1 [-> Hr].
  assert (unchanged [KSession] v v) as Hrefl by by split.
  destruct r as [parent|e]; apply wp_ret_bind; [|done]. simpl in Hr.
  destruct (Z.leb_spec maxDepth (Depth (s_spec parent))) as [|Hd]; [done|].
  case_decide as Hpvc; [done|].
  eapply (wp_touches_bind faults false []); [frame_auto|done|]. intros t v1 H1.
  set (id := parentID +:+ _). set (child := childSession _ _ _).
  pose proof (unchanged_mono _ [KSession] _ _ H1 ltac:(set_solver)) as H1'.
  pose proof (unchanged_sessions _ _ _ H1 ltac:(set_solver)) as E1.
  assert (unchanged [KSession] v v1 /\ (depth_bounded (snd v) -> depth_bounded (snd v1)) /\
    forall c, Done (Err (Status Internal)) = Done (@Ok string c) -> False) as Hfail.
  { split; [done|]. split; [|done]. unfold depth_bounded. by rewrite E1. }
  apply wp_assoc, (wp_create_cases faults (k := KSession) child);
    [|intros e; apply wp_ret_bind, wp_ret; naive_solver].
  intros name rv Hlt Hname o' Habs. apply wp_ret_bind.
  assert (name = id) as -> by (destruct Hname as [|Hn]; [done|by destruct parentID]).
  eapply (wp_touches_bind faults false []); [frame_auto|done|]. intros t' v2 H2.
  set (child' := with_status _ child). apply wp_assoc.
  apply (wp_update_status_unset faults (k := KSession)); [done|done| |].
  { eapply unchanged_wf; [exact H2|]. apply wf_put; [by eapply unchanged_wf|exact Hlt]. }
  intros e. apply wp_ret_bind, wp_ret.
  assert (cl_sessions (snd v2) = <[(sandboxNS, id) := o']> (cl_sessions (snd v))) as E2.
  { rewrite (unchanged_sessions _ _ _ H2 ltac:(set_solver)). by rewrite <-E1. }
  split; [|split].
  - eapply unchanged_trans; [exact H1'|]. eapply unchanged_trans; [|eapply unchanged_mono; [exact H2|set_solver]].
    split; [|intros _; apply wf_put; [by eapply unchanged_wf|exact Hlt]].
    intros k Hk. apply (store_put_ne (k := KSession)). set_solver.
  - intros Hb. unfold depth_bounded. rewrite E2. apply map_Forall_insert_2; [|done]. simpl. lia.
  - intros childID [= <-]. exists parent, o'. rewrite E2, <-E1 in *.
    split; [done|]. split; [done|]. split; [done|]. split; [exact Habs|].
    split; [apply lookup_insert_eq|]. by repeat split.
Qed.

(** A sub-agent stays within its parent: whatever the API server answers,
    when [RunSubAgent] reports a child, the parent was stored, above the depth
    limit and had a workspace; the child is a new session with the parent's
    tenant, egress hosts, runtime, environment and secrets, one level deeper;
    no session exceeds the depth limit if none did; and no pod, volume claim or
    network policy is created or changed. *)
Theorem sub_agent_contained faults parentID v :
  wf (snd v) ->
  wp (kube_contract Orch faults) (RunSubAgent parentID) (fun o v' =>
    unchanged [KSession] v v' /\ (depth_bounded (snd v) -> depth_bounded (snd v')) /\
    forall childID, o = Done (Ok childID) -> exists parent child,
      cl_sessions (snd v) !! (sandboxNS, parentID) = Some parent /\
      (Depth (s_spec parent) < maxDepth)%Z /\ WorkspacePVC (s_status parent) <> "" /\
      cl_sessions (snd v) !! (sandboxNS, childID) = None /\
      cl_sessions (snd v') !! (sandboxNS, childID) = Some child /\
      child_of parentID parent child) v.
Proof. apply RunSubAgent_wp. Qed.

(** Destroying a sub-agent leaves its parent running: a session without a
    pod of its own (no pod carries its label, none is recorded in its status)
    is destroyed without touching any pod or volume claim. *)
Theorem destroy_sub_agent_keeps_pods faults id s v :
  cl_sessions (snd v) !! (sandboxNS, id) = Some s -> PodName (s_status s) = "" ->
  list_objs KPod sandboxNS (SelEq labelSessionID id) (snd v) = [] ->
  wp (kube_contract Orch faults) (DestroySession id) (fun o v' =>
    cl_pods (snd v') = cl_pods (snd v) /\ cl_pvcs (snd v') = cl_pvcs (snd v)) v.
Proof.
  intros Hs Hname Hl. unfold DestroySession. intros r v1 Hr.
  destruct Hr as [-> Hr]. destruct r as [s'|]; [|by apply wp_ret].
  simpl in Hr. rewrite Hs in Hr. injection Hr as <-. apply wp_ret_bind. cbv zeta.
  eapply (wp_touches_bind faults false [KSession]); [frame_auto|done|]. intros _ v1 H1.
  eapply (wp_touches_bind faults false [KSession; KCnp]); [case_decide; frame_auto|done|].
  intros _ v2 H2.
  pose proof (unchanged_trans _ _ _ _ (unchanged_mono _ [KSession; KCnp] _ _ H1 ltac:(set_solver)) H2) as H12.
  pose proof (unchanged_pods _ _ _ H12 ltac:(set_solver)) as E2.
  assert (forall (f : string * string -> orchP (res unit)) Q,
    wp (kube_contract Orch faults) (f ("", "")) Q v2 ->
    wp (kube_contract Orch faults)
      (bind (findPodWithFallback id (with_phase SandboxPhaseTerminating s)) f) Q v2) as Hfind.
  { intros f Q HQ. apply wp_assoc, wp_assoc.
    apply (wp_list_cases faults KPod); [|intros e]; [intros l Hperm|].
    - rewrite (list_objs_pods _ _ _ _ E2), Hl in Hperm. apply Permutation_nil_r in Hperm as ->.
      apply wp_ret_bind. rewrite decide_False by (simpl; tauto). by apply wp_ret_bind.
    - apply wp_ret_bind. rewrite decide_False by (simpl; tauto). by apply wp_ret_bind. }
  apply Hfind. cbv beta iota. rewrite decide_False by (by intros []).
  apply wp_ret_bind, wp_last. intros r v4 Hr.
  assert (unchanged [KSession; KCnp] v2 v4) as H4
    by (eapply unchanged_step; [|exact Hr]; intros k ?%bool_decide_eq_true; set_solver).
  pose proof (unchanged_trans _ _ _ _ H12 H4) as H14.
  split; [apply (unchanged_pods _ _ _ H14)|apply (unchanged_pvcs _ _ _ H14)]; set_solver.
Qed.

End lifecycle.

(** ** Witnesses *)

Definition sample_request : CreateSessionRequest :=
  mkCreateSessionRequest "s2" "" "" [] ∅ [] [].

Lemma create_session_status_lost_witness :
  let r := run (live_handler Orch) (createSessionWithTTL sample_request 3600 [] "" "") warm_world in
  wf (snd warm_world) /\ is_ok (match fst r with Done x => x | Panicked => Err (Plain "") end) = true /\
  forall s, fst r = Done (Ok s) -> exists s0,
    cl_sessions (snd (snd r)) !! (sandboxNS, m_name (s_meta s)) = Some s0 /\
    s_status s0 = empty_status /\ Phase (s_status s) = SandboxPhaseActive.
Proof.
  cbv zeta. assert (wf (snd warm_world)) as Hwf by (apply wf_check_sound; by vm_compute).
  split; [exact Hwf|]. split; [by vm_compute|].
  exact (live_run _ _ _ (create_session_status_lost false sample_request 3600 [] "" "" warm_world Hwf)).
Defined.

Lemma session_world_wf : wf (snd session_world).
Proof. apply wf_check_sound. by vm_compute. Qed.

Lemma session_world_pod : sole_pod "s1" active_pod (snd session_world).
Proof. split; [by vm_compute|done]. Qed.

Lemma destroy_session_correct_witness :
  let v' := snd (run (live_handler Orch) (DestroySession "s1") session_world) in
  cl_sessions (snd v') !! (sandboxNS, "s1") = None /\
  exists rv, cl_pods (snd v') = {[(sandboxNS, "p1") := released_pod active_pod rv]}.
Proof.
  cbv zeta.
  destruct (live_run _ _ _ (destroy_session_correct "s1" active_session active_pod session_world
      session_world_wf eq_refl eq_refl session_world_pod ltac:(done))) as (_ & [_ H1] & _ & [rv H2]). split; [exact H1|]. exists rv.
  etrans; [exact H2|]. simpl. by rewrite insert_singleton_eq.
Defined.

(** Dying after nine effects: the workspace is reset and recorded, the pod is
    not yet released. *)
Definition crashed_world : Orch * Cluster :=
  (NewOrchestrator, snd (run_upto (live_handler Orch) 9 (DestroySession "s1") session_world)).

Lemma destroy_resumed_keeps_pods_witness :
  let r := run (live_handler Orch) (DestroySession "s1") crashed_world in
  fst r = Done (Ok tt) /\ cl_sessions (snd (snd r)) !! (sandboxNS, "s1") = None /\
  cl_pods (snd (snd r)) !! (sandboxNS, "p1") = Some active_pod.
Proof.
  cbv zeta. split; [by vm_compute|]. split; [by vm_compute|].
  destruct (cl_sessions (snd crashed_world) !! (sandboxNS, "s1")) as [s|] eqn:Hs; [|by vm_compute in Hs].
  assert ("workspace" ∈ destroyStepsDone s) as Hw.
  { assert (match cl_sessions (snd crashed_world) !! (sandboxNS, "s1") with
            | Some s => bool_decide ("workspace" ∈ destroyStepsDone s) | None => false end = true) as Hb
      by by vm_compute.
    rewrite Hs in Hb. by apply bool_decide_eq_true in Hb. }
  pose proof (live_run _ _ _ (destroy_resumed_keeps_pods false "s1" s crashed_world Hs Hw)) as H.
  etrans; [exact (f_equal (fun m => m !! (sandboxNS, "p1")) H)|]. by vm_compute.
Defined.

Lemma claim_hands_out_witness :
  let r := run (live_handler Orch) (claimOrCreatePod "s9" "gvisor" "" "" "") warm_world in
  is_ok (match fst r with Done x => x | Panicked => Err (Plain "") end) = true /\
  forall p, fst r = Done (Ok p) -> handed_out "s9" "gvisor" "" (cl_pods (snd warm_world)) p.
Proof.
  cbv zeta. split; [by vm_compute|].
  assert (wf (snd warm_world)) as Hwf by (apply wf_check_sound; by vm_compute).
  exact (live_run _ _ _ (claim_hands_out false "s9" "gvisor" "" "" "" warm_world Hwf)).
Defined.

Lemma pause_session_correct_witness :
  let v' := snd (run (live_handler Orch) (PauseSession "s1") session_world) in
  cl_pods (snd v') = ∅ /\ cl_pvcs (snd v') = cl_pvcs (snd session_world).
Proof.
  cbv zeta.
  destruct (live_run _ _ _ (pause_session_correct "s1" active_session active_pod session_world
    session_world_wf eq_refl eq_refl ltac:(by left) ltac:(by eexists) session_world_pod ltac:(done)))
    as (_ & H1 & H2 & _).
  split; [|exact H2]. etrans; [exact H1|]. apply delete_singleton_eq.
Defined.

Lemma resume_session_correct_witness :
  let r := run (live_handler Orch) (ResumeSession "s1") paused_world in
  exists pod, fst r = Done (Ok pod) /\ cl_pvcs (snd (snd r)) = cl_pvcs (snd paused_world) /\
    ("workspace", PersistentVolumeClaim "workspace-s1") ∈ ps_volumes (p_spec pod).
Proof.
  cbv zeta.
  destruct (live_run _ _ _ (resume_session_correct "s1" paused_session paused_world
    ltac:(apply wf_check_sound; by vm_compute) eq_refl eq_refl ltac:(done) eq_refl
    ltac:(repeat constructor; by eexists))) as (pod & H1 & _ & _ & H2 & H3 & _).
  exists pod. split; [exact H1|]. split; [exact H3|exact H2].
Defined.

Lemma pause_resume_refused_witness :
  fst (run (live_handler Orch) (PauseSession "s1") paused_world) = Done (Err (Status FailedPrecondition)) /\
  fst (run (live_handler Orch) (ResumeSession "s1") session_world) = Done (Err (Status FailedPrecondition)).
Proof.
  destruct (pause_resume_refused "s1" paused_session paused_world eq_refl) as [H1 _].
  destruct (pause_resume_refused "s1" active_session session_world eq_refl) as [_ H2].
  split; [exact (proj1 (live_run _ _ _ (H1 ltac:(by left))))
         |exact (proj1 (live_run _ _ _ (H2 ltac:(by left))))].
Defined.

Lemma sub_agent_contained_witness :
  let r := run (live_handler Orch) (RunSubAgent "s1") session_world in
  is_ok (match fst r with Done x => x | Panicked => Err (Plain "") end) = true /\
  cl_pods (snd (snd r)) = cl_pods (snd session_world) /\ depth_bounded (snd (snd r)).
Proof.
  cbv zeta. split; [by vm_compute|].
  destruct (live_run _ _ _ (sub_agent_contained false "s1" session_world session_world_wf)) as (H1 & H2 & _).
  split; [apply (unchanged_pods _ _ _ H1); set_solver|].
  apply H2. by apply map_Forall_singleton.
Defined.

Lemma destroy_sub_agent_keeps_pods_witness :
  let r := run (live_handler Orch) (DestroySession "c1") sub_agent_world in
  fst r = Done (Ok tt) /\ cl_pods (snd (snd r)) = cl_pods (snd sub_agent_world).
Proof.
  cbv zeta. split; [by vm_compute|].
  exact (proj1 (live_run _ _ _ (destroy_sub_agent_keeps_pods false "c1" sub_agent sub_agent_world
    eq_refl eq_refl ltac:(by vm_compute)))).
Defined.
