(* ===== verification/Pool.v ===== *)
(** * Warm-pool control

    Theorems about [Controller]: the size the pool is driven to, the number of
    pods it may have, what a reconcile adds, when an idle pod is reaped, and
    what the two orchestrators of one process see of each other. *)
From S2P Require Import Prelude Prog Kube SessionEnv GoTime Orchestrator Controller Rules Samples.
Open Scope Z_scope.

(** ** Sizing *)

(** Decide the comparisons of a goal, innermost first. *)
Ltac z_cases :=
  repeat match goal with
  | |- context [?a <=? ?b] =>
      lazymatch a with context [if _ then _ else _] => fail | _ =>
      lazymatch b with context [if _ then _ else _] => fail | _ => destruct (Z.leb_spec a b); cbn [andb orb negb] end end
  | |- context [?a <? ?b] =>
      lazymatch a with context [if _ then _ else _] => fail | _ =>
      lazymatch b with context [if _ then _ else _] => fail | _ => destruct (Z.ltb_spec a b); cbn [andb orb negb] end end
  | |- context [?a =? ?b] => destruct (Z.eqb_spec a b); cbn [andb orb negb]
  end; try lia.

Lemma adaptiveTarget_eq configured minSize maxSize boost :
  adaptiveTarget configured minSize maxSize boost =
    Z.max (Z.max 1 configured) (Z.min maxSize (Z.max minSize boost)).
Proof. unfold adaptiveTarget. cbv zeta. z_cases. Qed.

Lemma poolTargetSize_eq t maxPods :
  poolTargetSize t maxPods = if 0 <? maxPods then Z.min maxPods (Z.max 1 t) else Z.max 1 t.
Proof. unfold poolTargetSize. cbv zeta. z_cases. Qed.

(** The target of a pool, in closed form: the configured size (at least
    one), raised to the larger of [minSize] and the recent cold starts but not
    above [maxSize], then capped by the cluster's capacity when that is known. *)
Theorem pool_target_closed_form configured minSize maxSize boost maxPods :
  poolTargetSize (adaptiveTarget configured minSize maxSize boost) maxPods =
    let base := Z.max 1 configured in
    let t := Z.max base (Z.min maxSize (Z.max minSize boost)) in
    if 0 <? maxPods then Z.min maxPods t else t.
Proof. rewrite poolTargetSize_eq, adaptiveTarget_eq. cbv zeta. z_cases. Qed.

Lemma tighterCapacity_min a b :
  0 <= a -> 0 <= b -> 0 < tighterCapacity a b ->
  (a = 0 \/ tighterCapacity a b <= a) /\ (b = 0 \/ tighterCapacity a b <= b).
Proof.
  unfold tighterCapacity. z_cases.
Qed.

Lemma capacityFor_fits total per :
  0 <= total -> in_int64 (total * 9) -> 0 < per ->
  0 <= capacityFor total per /\ capacityFor total per * per * 10 <= total * 9.
Proof.
  intros Ht Hin Hper. unfold capacityFor.
  destruct (Z.leb_spec total 0); simpl; [lia|].
  destruct (Z.leb_spec per 0); [lia|].
  rewrite wrap64_id by done. rewrite !go_div_pos by (try apply Z.quot_pos; try apply Z.div_pos; lia).
  split; [apply Z.div_pos; [apply Z.div_pos|]; lia|].
  pose proof (Z.mul_div_le (total * 9 / 10) per ltac:(lia)).
  pose proof (Z.mul_div_le (total * 9) 10 ltac:(lia)). nia.
Qed.

(** The capacity bound is sound: with node totals that nine times over
    still fit an int64, a positive [computeMaxPods] of pods fits in nine tenths
    of the allocatable memory and of the allocatable CPU, each where known. *)
Theorem capacity_bound_fits mem cpu perMem perCpu :
  0 <= mem -> 0 <= cpu -> in_int64 (mem * 9) -> in_int64 (cpu * 9) -> 0 < perMem -> 0 < perCpu ->
  let m := tighterCapacity (capacityFor mem perMem) (capacityFor cpu perCpu) in
  0 <= m /\
  (capacityFor mem perMem = 0 \/ m * perMem * 10 <= mem * 9) /\
  (capacityFor cpu perCpu = 0 \/ m * perCpu * 10 <= cpu * 9).
Proof.
  intros Hm Hc Hm9 Hc9 Hpm Hpc. cbv zeta.
  destruct (capacityFor_fits mem perMem Hm Hm9 Hpm) as [Ha1 Ha2].
  destruct (capacityFor_fits cpu perCpu Hc Hc9 Hpc) as [Hb1 Hb2].
  unfold tighterCapacity. z_cases; nia.
Qed.

(** ** What a reconcile adds *)

Section reconcile.
Context `{QP : QuantityParser}.

Definition count (ns : string) (sel : selector) (c : Cluster) : Z :=
  Z.of_nat (length (list_objs KPod ns sel c)).

Lemma list_objs_put_new k ns sel (o : obj k) c :
  store k c !! key_of o = None ->
  list_objs k ns sel (put o c) ≡ₚ (if selected ns sel o then [o] else []) ++ list_objs k ns sel c.
Proof.
  intros Habs. unfold list_objs. rewrite store_put, (map_to_list_insert _ _ _ Habs).
  rewrite fmap_cons, filter_cons. simpl. destruct (selected ns sel o); [by rewrite decide_True|by rewrite decide_False].
Qed.

Lemma count_put_new ns sel (p : Pod) c :
  cl_pods c !! key_of (k := KPod) p = None ->
  count ns sel (put (k := KPod) p c) = count ns sel c + if selected (k := KPod) ns sel p then 1 else 0.
Proof.
  intros Habs. unfold count. rewrite (list_objs_put_new KPod ns sel p c Habs), length_app.
  destruct (selected ns sel _); simpl; lia.
Qed.

Lemma newWarmPod_meta cfg rc idle p :
  newWarmPod cfg rc idle = Some p ->
  m_name (p_meta p) = "" /\ m_ns (p_meta p) = Namespace cfg /\
  m_labels (p_meta p) !! labelState = Some stateWarm.
Proof. unfold newWarmPod. destruct (warmPodSpec rc cfg); [|done]. by intros [= <-]. Qed.

(** A stored warm pod is counted as such. *)
Lemma warm_pod_selected cfg rc idle p name rv t :
  newWarmPod cfg rc idle = Some p ->
  let q := created (k := KPod) p name rv t in
  selected (k := KPod) (Namespace cfg) (SelHas labelState) q = true /\
  selected (k := KPod) (Namespace cfg) (SelEq labelState stateWarm) q = true.
Proof.
  intros (_ & Hns & Hl)%newWarmPod_meta. unfold selected, labels_of. simpl. rewrite Hns, Hl.
  rewrite bool_decide_eq_true_2 by done. split; [done|].
  by rewrite bool_decide_eq_true_2.
Qed.

(** How many of the next [gap] pods the loop creates. *)
Definition headroom (maxPods all gap : Z) : Z :=
  if 0 <? maxPods then Z.min gap (Z.max 0 (maxPods - all)) else gap.

Lemma createWarmPods_counts cfg rc idle maxPods all i fuel pod v :
  newWarmPod cfg rc idle = Some pod ->
  wp (kube_contract Orch false) (createWarmPods cfg rc idle maxPods all i fuel) (fun o v' =>
    o = Done tt /\
    count (Namespace cfg) (SelHas labelState) (snd v') =
      count (Namespace cfg) (SelHas labelState) (snd v) + headroom maxPods (all + i) (Z.of_nat fuel) /\
    count (Namespace cfg) (SelEq labelState stateWarm) (snd v') =
      count (Namespace cfg) (SelEq labelState stateWarm) (snd v) + headroom maxPods (all + i) (Z.of_nat fuel)) v.
Proof.
  intros Hpod. revert i v. induction fuel as [|fuel IH]; intros i v; cbn [createWarmPods].
  - apply wp_ret. unfold headroom. split; [done|]. z_cases.
  - destruct (_ && _) eqn:Hcap.
    + apply wp_ret. apply andb_true_iff in Hcap as [H1 H2]. unfold headroom. rewrite H1.
      apply Z.ltb_lt in H2. split; [done|]. lia.
    + rewrite Hpod. apply (wp_create_generated (k := KPod)); [by eapply newWarmPod_meta|].
      intros suffix rv Hlt o' Habs. eapply wp_mono; [|apply IH].
      intros o v' (Ho & H1 & H2). split; [done|]. cbn [snd] in H1, H2.
      destruct (warm_pod_selected cfg rc idle pod (m_generateName (p_meta pod) +:+ suffix) rv
        (cl_clock (snd v)) Hpod) as [S1 S2]. fold o' in S1, S2.
      change (created _ _ _ _) with o' in S1, S2.
      rewrite (count_put_new _ _ o' _ Habs), S1 in H1. rewrite (count_put_new _ _ o' _ Habs), S2 in H2.
      rewrite H1, H2. unfold headroom in *. apply andb_false_iff in Hcap.
      destruct (Z.ltb_spec 0 maxPods); [|lia].
      destruct Hcap as [?|Hcap%Z.ltb_ge]; [done|]. lia.
Qed.

(** With failing creates the loop still stops at the capacity. *)
Lemma createWarmPods_capped faults cfg rc idle maxPods all i fuel v :
  0 < maxPods -> count (Namespace cfg) (SelHas labelState) (snd v) <= all + i ->
  wp (kube_contract Orch faults) (createWarmPods cfg rc idle maxPods all i fuel) (fun _ v' =>
    count (Namespace cfg) (SelHas labelState) (snd v') <= Z.max (all + i) maxPods) v.
Proof.
  intros Hmax. revert i v. induction fuel as [|fuel IH]; intros i v Hc; cbn [createWarmPods].
  - apply wp_ret. lia.
  - destruct (_ && _) eqn:Hcap; [apply wp_ret; lia|].
    apply andb_false_iff in Hcap as [Hcap%Z.ltb_ge|Hcap%Z.ltb_ge]; [lia|].
    destruct (newWarmPod cfg rc idle) as [pod|] eqn:Hpod; [|simpl; lia].
    apply (wp_create_cases faults (k := KPod)).
    + intros name rv Hlt Hname o' Habs. eapply wp_mono; [|apply IH].
      * intros o v' H. cbv beta in H. lia.
      * cbn [snd]. rewrite (count_put_new _ _ o' _ Habs).
        destruct (warm_pod_selected cfg rc idle pod name rv (cl_clock (snd v)) Hpod) as [S1 _].
        change (created _ _ _ _) with o' in S1. rewrite S1. lia.
    + intros e. eapply wp_mono; [|apply IH; lia]. intros o v' H. cbv beta in H. lia.
Qed.

(** The pool a configuration asks for. *)
Definition pool_target (pool : SandboxWarmPool) (maxPods boost : Z) : Z :=
  poolTargetSize (adaptiveTarget (default 0 (wp_size pool)) (default 0 (wp_minSize pool))
    (default 0 (wp_maxSize pool)) boost) maxPods.

Definition pool_runtime (cfg : SandboxConfig) (pool : SandboxWarmPool) : string :=
  or_default (default "" (wp_runtimeClass pool)) (DefaultRuntime cfg).

(** C39. A reconcile never grows the pool past the cluster's capacity: with a
    known capacity, whatever the API server refuses, the number of sandbox
    pods afterwards is at most the larger of what it was and the capacity. *)
Theorem reconcile_respects_capacity faults cfg maxPods boost pool v :
  0 < maxPods ->
  wp (kube_contract Orch faults) (reconcileSinglePool cfg maxPods boost pool) (fun _ v' =>
    count (Namespace cfg) (SelHas labelState) (snd v') <=
      Z.max (count (Namespace cfg) (SelHas labelState) (snd v)) maxPods) v.
Proof.
  intros Hmax. unfold reconcileSinglePool. cbv zeta.
  apply (wp_list_cases faults KPod); [|intros e; apply wp_ret; lia].
  intros all Hall. assert (Z.of_nat (length all) = count (Namespace cfg) (SelHas labelState) (snd v)) as E
    by (unfold count; by rewrite Hall).
  destruct (_ && _) eqn:Hfull; [apply wp_ret; lia|].
  apply (wp_list_cases faults KPod); [|intros e; apply wp_ret; lia]. intros warm _.
  eapply wp_mono; [|apply createWarmPods_capped; [done|lia]]. intros o v' H. cbv beta in H. lia.
Qed.

(** A reconcile fills the pool: when requests are served, it returns and
    the number of warm pods grows exactly to the target, or as far as the
    known capacity leaves room; every pod it adds is a warm one. *)
Theorem reconcile_fills_pool cfg maxPods boost pool pod v :
  newWarmPod cfg (pool_runtime cfg pool) (default 0 (wp_idleTTLSeconds pool)) = Some pod ->
  let ns := Namespace cfg in
  let all := count ns (SelHas labelState) (snd v) in
  let warm := count ns (SelEq labelState stateWarm) (snd v) in
  let n := headroom maxPods all (Z.max 0 (pool_target pool maxPods boost - warm)) in
  wp (kube_contract Orch false) (reconcileSinglePool cfg maxPods boost pool) (fun o v' =>
    o = Done tt /\
    count ns (SelEq labelState stateWarm) (snd v') = warm + n /\
    count ns (SelHas labelState) (snd v') = all + n) v.
Proof.
  intros Hpod. cbv zeta. unfold reconcileSinglePool. cbv zeta.
  fold (pool_runtime cfg pool) (pool_target pool maxPods boost).
  apply (wp_list KPod). intros all Hall.
  assert (Z.of_nat (length all) = count (Namespace cfg) (SelHas labelState) (snd v)) as E
    by (unfold count; by rewrite Hall).
  rewrite E. destruct (_ && _) eqn:Hfull.
  - apply wp_ret. apply andb_true_iff in Hfull as [H1 H2%Z.leb_le]. unfold headroom. rewrite H1. split; [done|]. lia.
  - apply (wp_list KPod). intros warm Hwarm.
    assert (Z.of_nat (length warm) = count (Namespace cfg) (SelEq labelState stateWarm) (snd v)) as E'
      by (unfold count; by rewrite Hwarm).
    rewrite E'. eapply wp_mono; [|by eapply createWarmPods_counts].
    intros o v' (Ho & H1 & H2). split; [done|]. rewrite H1, H2, Z.add_0_r.
    by replace (Z.of_nat (Z.to_nat _)) with
      (Z.max 0 (pool_target pool maxPods boost - count (Namespace cfg) (SelEq labelState stateWarm) (snd v))) by lia.
Qed.

(** ** Idle pods *)

Lemma newWarmPod_idle_annotation cfg rc ttl p :
  newWarmPod cfg rc ttl = Some p -> 0 < ttl -> pod_annotation podIdleTTLAnnotation p = itoa ttl.
Proof.
  unfold newWarmPod. cbv zeta. destruct (warmPodSpec rc cfg); [|done]. intros [= <-] Ht.
  unfold pod_annotation. simpl. rewrite (proj2 (Z.ltb_lt _ _)) by done. by rewrite lookup_insert_eq.
Qed.

(** An idle pod is reaped exactly when its pool says so: a pod built for a
    pool with an idle TTL, promoted back to warm at time [t], is due at [t']
    iff more than the TTL has passed since [t] to the second; the TTL and the
    release time both survive their trip through the pod's annotations. *)
Theorem idle_reaping_exact cfg rc ttl p defaultTTL t t' :
  newWarmPod cfg rc ttl = Some p -> 0 < ttl -> in_int64 (ttl * second) -> rfc3339_range t ->
  idle_too_long (promoted t p) defaultTTL t' = true <-> ttl * second < t' - t / second * second.
Proof.
  intros Hp Ht Hin Hrange. unfold idle_too_long, idleTTL_of.
  assert (pod_annotation podReleasedAtAnnotation (promoted t p) = format_rfc3339 t) as ->.
  { unfold pod_annotation, promoted. simpl. by rewrite lookup_insert_eq. }
  assert (pod_annotation podIdleTTLAnnotation (promoted t p) = itoa ttl) as ->.
  { rewrite <-(newWarmPod_idle_annotation cfg rc ttl p Hp Ht).
    unfold pod_annotation, promoted. simpl. by rewrite lookup_insert_ne. }
  rewrite parse_format_rfc3339 by done. cbv zeta.
  assert (ParseInt (itoa ttl) = Some ttl) as Hparse
    by (apply ParseInt_pretty; unfold in_int64, second in *; lia).
  rewrite decide_False by (intros E; by rewrite E in Hparse).
  rewrite Hparse, (proj2 (Z.ltb_lt _ _)), wrap64_id by done.
  rewrite negb_true_iff, Z.leb_gt. done.
Qed.

End reconcile.

(** ** The controller and the gateway of one process *)

Section wiring.
Context `{QP : QuantityParser}.

Lemma reconcile_reads_memory cfg d : reads_memory (reconcileWarmPools cfg d).
Proof.
  assert (forall cfg rc idle maxPods all i fuel,
    reads_memory (createWarmPods cfg rc idle maxPods all i fuel)) as Hc.
  { intros cfg' rc idle maxPods all i fuel. revert i. unfold reads_memory in *.
    induction fuel as [|fuel IH]; intros i; cbn [createWarmPods]; frame_auto. }
  unfold reads_memory in *. frame_auto.
Qed.

Lemma destroy_reads_memory id : reads_memory (DestroySession id).
Proof. frame_auto. Qed.

Lemma gc_reads_memory ns : reads_memory (gcExpiredSessions ns).
Proof. pose proof destroy_reads_memory. frame_auto. Qed.

Lemma resetting_reads_memory ns : reads_memory (detectResetting ns).
Proof. frame_auto. Qed.

Lemma reaper_reads_memory ns : reads_memory (reapIdlePods ns).
Proof. frame_auto. Qed.

(** What the controller knows of the demand it should adapt to. *)
Definition demand_unseen (pr : Process) : Prop :=
  o_coldStarts (pr_controller pr) = 0 /\ o_refill (pr_controller pr) = false /\
  wd_recentColdStarts (pr_demand pr) = 0 /\ 0 <= wd_lastColdStarts (pr_demand pr).

Lemma observe_unseen d t : wd_recentColdStarts d = 0 -> 0 <= wd_lastColdStarts d ->
  wd_recentColdStarts (observe d t 0) = 0 /\ 0 <= wd_lastColdStarts (observe d t 0).
Proof. intros H1 H2. unfold observe. cbv zeta. z_cases; simpl; lia. Qed.

(** A reconcile carries over the demand it observed, when it saw the pools. *)
Lemma reconcile_demand faults {S} (h : handler (gwE Orch) (Orch * S)) (cl : S -> Cluster) cfg d m s d' v' :
  respects h (fun '(m, s) => (m, cl s)) (kube_contract Orch faults) ->
  run h (reconcileWarmPools cfg d) (m, s) = (Done d', v') ->
  d' = d \/ exists t, d' = observe d t (o_coldStarts m).
Proof.
  intros Hh Hrun.
  assert (wp (kube_contract Orch faults) (reconcileWarmPools cfg d) (fun o _ =>
    forall d', o = Done d' -> d' = d \/ exists t, d' = observe d t (o_coldStarts m)) (m, cl s)) as Hwp.
  { unfold reconcileWarmPools. apply (wp_list_cases faults KWarmPool); [|intros e d1 [= <-]; by left].
    intros pools _. apply wp_bind.
    assert (reads_memory (computeMaxPods cfg)) as Hmax by frame_auto.
    eapply wp_mono; [|eapply (only_wp _ _ _ (fun v v' => fst v' = fst v)); [| | |exact Hmax]].
    - intros [maxPods|] v1 [_ E]; [|done]. simpl in E. intros x v2 [-> ->]. rewrite E. cbn [fst snd].
      intros t v3 _. apply wp_ret_bind, wp_bind. eapply wp_mono; [|by apply wp_true].
      intros [u4|] v4 ?; [|done]. apply wp_bind. eapply wp_mono; [|by apply wp_true].
      intros [u5|] v5 ?; [|done]. apply wp_bind. eapply wp_mono; [|by apply wp_true].
      intros [u6|] v6 ?; [|done]. apply wp_ret. intros d1 [= <-]. right. by exists t.
    - intros v1 v2 v3 E1 E2. by rewrite E2.
    - done.
    - intros X e v1 x v2 He HC. exact (memory_step faults X e v1 x v2 He HC). }
  pose proof (wp_sound (kube_contract Orch faults) h _ _ _ (m, s) Hh Hwp) as H.
  rewrite Hrun in H. by apply H.
Qed.

(** The adaptive pool never adapts: in every process that [Register]
    starts, whatever requests the gateway serves and however the controller's
    loops run, the orchestrator the reconciler reads has counted no cold start
    and its refill trigger has never fired, so the boost handed to the pool is
    zero: the claims happen on the gateway's own orchestrator. *)
Theorem adaptive_demand_unseen faults {S} (h : handler (gwE Orch) (Orch * S)) (cl : S -> Cluster)
    cfg start (s s' : S) pr :
  respects h (fun '(m, s) => (m, cl s)) (kube_contract Orch faults) ->
  rtc (process_step h cfg) (Register cfg start, s) (pr, s') -> demand_unseen pr.
Proof.
  intros Hh Hsteps. set (c' := (pr, s')) in Hsteps. change pr with (fst c').
  assert (demand_unseen (fst (Register cfg start, s))) as H0 by done. revert H0.
  induction Hsteps as [c|c1 c2 c3 Hstep _ IH]; [done|]. intros H1. apply IH. clear IH.
  assert (forall A (p : orchP A) (m : Orch) s0, reads_memory p -> fst (snd (run h p (m, s0))) = m) as Hrd
    by (intros; by eapply run_reads_memory).
  destruct H1 as (Hcold & Hrefill & Hrec & Hlast).
  inversion Hstep as [A p pr0 s0|pr0 s0 ctl s1 d Hrun|pr0 s0 st|pr0 s0|pr0 s0|pr0 s0]; subst;
    cbn [fst] in *.
  - by destruct (run h p _) as [o [gw s1]].
  - pose proof (Hrd _ _ (pr_controller pr0) s0 (reconcile_reads_memory cfg (pr_demand pr0))) as Hm.
    rewrite Hrun in Hm. cbn [fst snd] in Hm. subst ctl.
    apply (reconcile_demand faults h cl) in Hrun; [|done].
    destruct Hrun as [->|[t ->]]; [done|]. rewrite Hcold.
    destruct (observe_unseen (pr_demand pr0) t Hrec Hlast). done.
  - done.
  - pose proof (Hrd _ _ (pr_controller pr0) s0 (resetting_reads_memory (Namespace cfg))) as Hm.
    destruct (run h _ _) as [o [ctl s1]]. cbn [fst snd] in Hm. by subst ctl.
  - pose proof (Hrd _ _ (pr_controller pr0) s0 (reaper_reads_memory (Namespace cfg))) as Hm.
    destruct (run h _ _) as [o [ctl s1]]. cbn [fst snd] in Hm. by subst ctl.
  - pose proof (Hrd _ _ (pr_controller pr0) s0 (gc_reads_memory (Namespace cfg))) as Hm.
    destruct (run h _ _) as [o [ctl s1]]. cbn [fst snd] in Hm. by subst ctl.
Qed.
End wiring.

(** ** Witnesses *)

Definition sample_config : SandboxConfig := applyDefaults (mkSandboxConfig "" "" "" "" 0 "" true).

Definition sample_pool : SandboxWarmPool :=
  mkWarmPool (sample_meta "pool" ∅ 1) (Some 3) None None None (Some 600).

Lemma sample_warm_pod : { p | newWarmPod sample_config "gvisor" 600 = Some p }.
Proof. by eexists. Defined.

Lemma capacity_bound_fits_witness :
  0 <= tighterCapacity (capacityFor 1000 100) (capacityFor 400 50) /\
  tighterCapacity (capacityFor 1000 100) (capacityFor 400 50) * 100 * 10 <= 1000 * 9.
Proof.
  destruct (capacity_bound_fits 1000 400 100 50 ltac:(lia) ltac:(lia) ltac:(unfold in_int64; lia)
    ltac:(unfold in_int64; lia) ltac:(lia) ltac:(lia)) as (H1 & H2 & _).
  split; [exact H1|]. destruct H2 as [H2|H2]; [by vm_compute in H2|exact H2].
Defined.

Lemma reconcile_respects_capacity_witness :
  count sandboxNS (SelHas labelState)
    (snd (snd (run (live_handler Orch) (reconcileSinglePool sample_config 2 0 sample_pool) warm_world))) <= 2.
Proof.
  etrans; [exact (live_run _ _ _ (reconcile_respects_capacity false sample_config 2 0 sample_pool
    warm_world ltac:(lia)))|]. by vm_compute.
Defined.

Lemma reconcile_fills_pool_witness :
  count sandboxNS (SelEq labelState stateWarm)
    (snd (snd (run (live_handler Orch) (reconcileSinglePool sample_config 10 0 sample_pool) warm_world))) = 3.
Proof.
  destruct sample_warm_pod as [p Hp].
  destruct (live_run _ _ _ (reconcile_fills_pool sample_config 10 0 sample_pool p warm_world Hp)) as (_ & H & _).
  etrans; [exact H|]. by vm_compute.
Defined.

Lemma idle_reaping_exact_witness :
  exists p, newWarmPod sample_config "gvisor" 600 = Some p /\
    idle_too_long (promoted (1700000000 * second) p) 3600 (1700000601 * second) = true.
Proof.
  destruct sample_warm_pod as [p Hp]. exists p. split; [exact Hp|].
  apply (idle_reaping_exact sample_config "gvisor" 600 p 3600 (1700000000 * second) (1700000601 * second) Hp).
  - done.
  - by vm_compute.
  - by vm_compute.
  - by vm_compute.
Defined.

Lemma live_respects_pairs :
  respects (live_handler Orch) (fun '(m, c) => (m, id c)) (kube_contract Orch false).
Proof.
  intros X e [m c]. pose proof (live_handler_respects false Orch X e (m, c)) as H. unfold id in *.
  by destruct (live_handler Orch X e (m, c)) as [x [m' c']].
Qed.

(** A cold start served by the gateway. *)
Definition after_cold_start : Process * Cluster :=
  let '(_, (gw, c)) := run (live_handler Orch) (claimOrCreatePod "a" "gvisor" "" "" "")
    (pr_gateway (Register sample_config 0), empty_cluster) in
  (mkProcess (pr_controller (Register sample_config 0)) gw (pr_demand (Register sample_config 0)), c).

Lemma adaptive_demand_unseen_witness :
  o_coldStarts (pr_gateway (fst after_cold_start)) = 1 /\ demand_unseen (fst after_cold_start).
Proof.
  split; [by vm_compute|].
  apply (adaptive_demand_unseen false (live_handler Orch) id sample_config 0 empty_cluster
    (snd after_cold_start) (fst after_cold_start) live_respects_pairs).
  rewrite <-surjective_pairing. apply rtc_once. unfold after_cold_start. apply step_request.
Defined.
