(* ===== verification/Expose.v ===== *)
(** * Exposed services and egress hosts

    [pkg/sandboxmatrix/grpc/expose.go]: the registry of exposed in-pod ports,
    kept in the orchestrator's memory under [exposeMu], and the calls that
    change it and re-apply the session's network policy. *)
From S2P Require Import Prelude Prog Kube SessionEnv GoTime Orchestrator Rules Samples Lifecycle.
Open Scope Z_scope.

(** ** The registry *)

Definition entries_of (id : string) (o : Orch) : list ExposedEntry := default [] (o_exposed o !! id).

Definition has_port (port : Z) (e : ExposedEntry) : bool := ee_port e =? port.

Definition findExposedLocked (id : string) (port : Z) (o : Orch) : option ExposedEntry :=
  List.find (has_port port) (entries_of id o).

Definition addExposed (id : string) (e : ExposedEntry) (o : Orch) : Orch :=
  with_exposed (<[id := entries_of id o ++ [e]]> (o_exposed o)) o.

(** The body of [removeExposed], one critical section. *)
Definition dropExposed (id : string) (port : Z) (o : Orch) : Orch :=
  let rest := filter (fun e => ee_port e <> port) (entries_of id o) in
  with_exposed (if decide (rest = []) then delete id (o_exposed o)
                else <[id := rest]> (o_exposed o)) o.

Definition removeExposed (id : string) (port : Z) : orchP unit :=
  mem (fun o => (tt, dropExposed id port o)).

Definition exposeURL (baseURL id : string) (port : Z) : string :=
  baseURL +:+ "/k8e/expose/" +:+ id +:+ "/" +:+ itoa port +:+ "/".

(** ** The calls *)

Definition ExposeService (id : string) (port : Z) (host baseURL : string) : orchP (res string) :=
  if (port <=? 0) || (65535 <? port) then Ret (Err (Status InvalidArgument))
  else
    let host := if decide (host = "") then "127.0.0.1" else host in
    do found <- mem (fun o => (findExposedLocked id port o, o));
    match found with
    | Some e => Ret (Ok (ee_url e))
    | None =>
        do r <- getSession id;
        match r with
        | Err _ => Ret (Err (Status NotFound))
        | Ok session =>
            let url := exposeURL baseURL id port in
            do t <- now;
            do! mem (fun o => (tt, addExposed id (mkExposed port host url t) o));
            do r <- applySessionCNP session;
            match r with
            | Err _ => do! removeExposed id port; Ret (Err (Status Internal))
            | Ok _ => Ret (Ok url)
            end
        end
    end.

Definition UnexposeService (id : string) (port : Z) : orchP (res bool) :=
  do found <- mem (fun o => (findExposedLocked id port o, o));
  match found with
  | None => Ret (Ok false)
  | Some _ =>
      do! removeExposed id port;
      do r <- getSession id;
      match r with
      | Err _ => Ret (Ok true)
      | Ok session =>
          do r <- applySessionCNP session;
          Ret (match r with Ok _ => Ok true | Err _ => Err (Status Internal) end)
      end
  end.

(** The answer's times are in whole seconds. *)
Definition exposedView (e : ExposedEntry) : Z * string * string * Z :=
  (ee_port e, ee_url e, ee_host e, ee_startedAt e / second).

Definition ListExposed (id : string) : orchP (res (list (Z * string * string * Z))) :=
  do entries <- mem (fun o => (entries_of id o, o));
  do r <- getSession id;
  match r with
  | Ok _ => Ret (Ok (exposedView <$> entries))
  | Err _ => do! mem (fun o => (tt, with_exposed (delete id (o_exposed o)) o)); Ret (Ok [])
  end.

Definition with_hosts (hosts : list string) (s : SandboxSession) : SandboxSession :=
  let sp := s_spec s in
  mkSession (s_meta s)
    (mkSessionSpec (TenantID sp) hosts (RuntimeClass sp) (ParentSessionID sp) (Depth sp) (Env sp)
       (SecretRefs sp)) (s_status s).

Definition UpdateAllowedHosts (id : string) (hosts : list string) : orchP (res (list string)) :=
  try session <- getSession id;
  let session := with_hosts hosts session in
  do! updateSession session;
  do r <- applySessionCNP session;
  Ret (match r with Ok _ => Ok hosts | Err _ => Err (Status Internal) end).

(** ** Lemmas *)

Lemma entries_add id e o : entries_of id (addExposed id e o) = entries_of id o ++ [e].
Proof. unfold entries_of, addExposed. simpl. by rewrite lookup_insert_eq. Qed.

Lemma entries_drop id port o :
  entries_of id (dropExposed id port o) = filter (fun e => ee_port e <> port) (entries_of id o).
Proof.
  unfold dropExposed. cbv zeta. unfold entries_of at 1. simpl.
  case_decide as H; [by rewrite lookup_delete_eq, H|by rewrite lookup_insert_eq].
Qed.

Lemma findExposed_None id port o :
  findExposedLocked id port o = None <-> port ∉ exposedPorts id o.
Proof.
  unfold findExposedLocked, exposedPorts. fold (entries_of id o).
  rewrite find_None_Forall, Forall_forall. split.
  - intros H (e & He & Hin)%list_elem_of_fmap. specialize (H e Hin).
    unfold has_port in H. apply Z.eqb_neq in H. congruence.
  - intros H e Hin. apply Z.eqb_neq. intros Hp. apply H, list_elem_of_fmap. by exists e.
Qed.

Lemma filter_fresh_port port (l : list ExposedEntry) :
  port ∉ ee_port <$> l -> filter (fun e => ee_port e <> port) l = l.
Proof.
  induction l as [|e l IH]; intros H; [done|]. rewrite fmap_cons, not_elem_of_cons in H.
  rewrite filter_cons_True by naive_solver. by rewrite IH by naive_solver.
Qed.

(** Adding a new port and dropping it again leaves the session's entries. *)
Lemma entries_drop_add id port e o :
  port ∉ exposedPorts id o -> ee_port e = port ->
  entries_of id (dropExposed id port (addExposed id e o)) = entries_of id o.
Proof.
  intros Hp He. rewrite entries_drop, entries_add, filter_app.
  rewrite (filter_fresh_port port (entries_of id o) Hp).
  rewrite filter_cons_False by (intros Hn; by apply Hn). by rewrite filter_nil, app_nil_r.
Qed.

Lemma ports_add id e o : exposedPorts id (addExposed id e o) = exposedPorts id o ++ [ee_port e].
Proof. unfold exposedPorts. fold (entries_of id (addExposed id e o)). by rewrite entries_add, fmap_app. Qed.

Lemma ports_drop_add id port e o :
  port ∉ exposedPorts id o -> ee_port e = port ->
  exposedPorts id (dropExposed id port (addExposed id e o)) = exposedPorts id o.
Proof.
  intros Hp He. unfold exposedPorts. fold (entries_of id (dropExposed id port (addExposed id e o))).
  by rewrite entries_drop_add.
Qed.

Lemma applyCNP_reads s : reads_memory (applySessionCNP s).
Proof. frame_auto. Qed.

(** ** Properties *)

(** Exposing a port is all or nothing: whatever the API server answers,
    when [ExposeService] fails the session has exactly the exposed ports it had
    before, and when it succeeds the port is among them. *)
Theorem expose_all_or_nothing faults id port host baseURL v :
  wp (kube_contract Orch faults) (ExposeService id port host baseURL) (fun o v' =>
    (forall e, o = Done (Err e) -> exposedPorts id (fst v') = exposedPorts id (fst v)) /\
    (forall url, o = Done (Ok url) -> port ∈ exposedPorts id (fst v'))) v.
Proof.
  unfold ExposeService. destruct (_ || _); [by apply wp_ret|]. cbv zeta.
  apply wp_mem. destruct v as [m c]. cbn [fst snd].
  destruct (findExposedLocked id port m) as [e|] eqn:Hfind.
  - apply wp_ret. split; [done|]. intros _ _. apply find_Some_elem in Hfind as [Hin Hp%Z.eqb_eq].
    apply list_elem_of_fmap. by exists e.
  - apply findExposed_None in Hfind.
    apply wp_reads_bind; [frame_auto|done|]. intros r v1 E1. cbn [fst] in E1.
    destruct r as [s|]; [|apply wp_ret; cbn [fst]; by rewrite E1].
    apply wp_reads_bind; [frame_auto|done|]. intros t v2 E2.
    apply wp_mem. apply wp_reads_bind; [apply applyCNP_reads|done|]. intros r v3 E3.
    cbn [fst snd] in E3. rewrite E2, E1 in E3. destruct r as [[]|].
    + apply wp_ret. cbn [fst]. rewrite E3. split; [done|]. intros _ _. rewrite ports_add. set_solver.
    + apply wp_mem, wp_ret. cbn [fst snd]. rewrite E3. split; [|done]. intros _ _. by apply ports_drop_add.
Qed.

(** The policy the cluster holds for session [s] is the one of the registry. *)
Definition policy_current (s : SandboxSession) (v : Orch * Cluster) : Prop := policy_in_force s v v.

Lemma policy_in_force_current s v v' :
  policy_in_force s v v' -> fst v' = fst v -> policy_current s v'.
Proof. unfold policy_current, policy_in_force. by intros H ->. Qed.

(** An exposed port is reachable: when requests are served, exposing a new
    port of an existing session succeeds, appends the port to the session's
    exposures, and leaves in the cluster a policy that admits the gateway and
    the e2b server on that port. *)
Theorem expose_opens_port id port host baseURL s v :
  wf (snd v) -> cl_sessions (snd v) !! (sandboxNS, id) = Some s ->
  0 < port <= 65535 -> port ∉ exposedPorts id (fst v) ->
  wp (kube_contract Orch false) (ExposeService id port host baseURL) (fun o v' =>
    o = Done (Ok (exposeURL baseURL id port)) /\
    exposedPorts id (fst v') = exposedPorts id (fst v) ++ [port] /\
    exists c, cl_cnps (snd v') !! (sandboxNS, cnpName id) = Some c /\
      allows (cnp_ingress c) gatewayPeer (itoa port, "TCP") /\
      allows (cnp_ingress c) e2bPeer (itoa port, "TCP")) v.
Proof.
  intros Hwf Hs Hport Hnew. unfold ExposeService.
  rewrite (proj2 (orb_false_iff _ _)) by (split; [apply Z.leb_gt|apply Z.ltb_ge]; lia). cbv zeta.
  apply wp_mem. cbn [fst snd]. rewrite (proj2 (findExposed_None _ _ _) Hnew).
  apply (wp_get_some KSession _ _ s); [exact Hs|]. destruct (Hwf KSession _ _ Hs) as [Hk _].
  injection Hk as Hns Hnm. apply wp_now. intros t _. apply wp_mem. cbn [fst snd].
  set (host' := if decide _ then _ else _). set (e := mkExposed port host' _ t).
  apply wp_applyCNP; [by apply wf_set_clock|]. intros v1 H1 E1 (c & Hc & _ & Hi & _). cbn [fst snd] in *.
  apply wp_ret. split; [done|]. split; [by rewrite E1, ports_add|].
  exists c. rewrite Hi. unfold key_of in Hc. simpl in Hc. rewrite Hns, Hnm in *. split; [exact Hc|].
  apply exposed_port_allowed. rewrite ports_add. set_solver.
Qed.

Lemma ports_drop id port o :
  exposedPorts id (dropExposed id port o) = filter (fun p => p <> port) (exposedPorts id o).
Proof.
  unfold exposedPorts. fold (entries_of id (dropExposed id port o)) (entries_of id o).
  rewrite entries_drop. induction (entries_of id o) as [|e l IH]; [done|].
  rewrite fmap_cons, !filter_cons. simpl. by case_decide; rewrite ?fmap_cons, IH.
Qed.

Lemma ports_drop_ne id id' port o :
  id <> id' -> exposedPorts id' (dropExposed id port o) = exposedPorts id' o.
Proof.
  intros Hne. unfold exposedPorts, dropExposed. simpl.
  case_decide; [by rewrite lookup_delete_ne|by rewrite lookup_insert_ne].
Qed.

(** Unexposing removes exactly one port: afterwards the session's exposed
    ports are the earlier ones without it, in the same order, and those of
    every other session are unchanged; the answer is [ok=false] exactly when
    the port was not exposed. *)
Theorem unexpose_exact faults id port v :
  wp (kube_contract Orch faults) (UnexposeService id port) (fun o v' =>
    exposedPorts id (fst v') = filter (fun p => p <> port) (exposedPorts id (fst v)) /\
    (forall id', id' <> id -> exposedPorts id' (fst v') = exposedPorts id' (fst v)) /\
    (o = Done (Ok false) <-> port ∉ exposedPorts id (fst v))) v.
Proof.
  unfold UnexposeService. apply wp_mem. destruct v as [m c]. cbn [fst snd].
  destruct (findExposedLocked id port m) as [e|] eqn:Hfind.
  - assert (port ∈ exposedPorts id m) as Hin.
    { apply find_Some_elem in Hfind as [Hin Hp%Z.eqb_eq]. apply list_elem_of_fmap. by exists e. }
    apply wp_mem. cbn [fst snd].
    assert (forall (o : outcome (res bool)) (v' : Orch * Cluster), o <> Done (Ok false) -> fst v' = dropExposed id port m ->
      exposedPorts id (fst v') = filter (fun p => p <> port) (exposedPorts id m) /\
      (forall id', id' <> id -> exposedPorts id' (fst v') = exposedPorts id' m) /\
      (o = Done (Ok false) <-> port ∉ exposedPorts id m)) as Hend.
    { intros o v' Ho ->. split; [apply ports_drop|]. split; [|naive_solver].
      intros id' Hne. by apply ports_drop_ne. }
    apply wp_reads_bind; [frame_auto|intros; by apply Hend|]. intros r v1 E1. cbn [fst snd] in E1.
    destruct r as [s|]; [|by apply wp_ret, Hend].
    apply wp_reads_bind; [apply applyCNP_reads|intros; apply Hend; [done|congruence]|].
    intros r v2 E2. apply wp_ret, Hend; [by destruct r|congruence].
  - apply findExposed_None in Hfind. apply wp_ret. cbn [fst]. split; [|by split].
    symmetry. clear -Hfind. induction (exposedPorts id m) as [|p l IH]; [done|].
    rewrite not_elem_of_cons in Hfind. rewrite filter_cons_True by naive_solver. by rewrite IH by naive_solver.
Qed.

(** Exposures outlive their session: destroying a session does not clear
    its registry, so exposing one of its ports afterwards reports success for
    a session that no longer exists. *)
Theorem exposure_outlives_session id port host baseURL s v :
  cl_sessions (snd v) !! (sandboxNS, id) = Some s ->
  0 < port <= 65535 -> port ∈ exposedPorts id (fst v) ->
  wp (kube_contract Orch false) (do! DestroySession id; ExposeService id port host baseURL) (fun o v' =>
    (exists url, o = Done (Ok url)) /\ cl_sessions (snd v') !! (sandboxNS, id) = None) v.
Proof.
  intros Hs Hport Hin. apply wp_bind.
  assert (reads_memory (DestroySession id)) as Hrd by frame_auto.
  eapply wp_mono; [|eapply wp_and; [exact (destroy_returns id s v Hs)|
    eapply (only_wp true _ _ (fun v v' => fst v' = fst v) (DestroySession id) v); [| | |exact Hrd]]].
  - intros o v' [[-> Habs] [_ E]]. unfold ExposeService.
    rewrite (proj2 (orb_false_iff _ _)) by (split; [apply Z.leb_gt|apply Z.ltb_ge]; lia). cbv zeta.
    apply wp_mem. cbn [fst snd]. rewrite E.
    destruct (findExposedLocked id port (fst v)) as [e|] eqn:Hfind.
    + apply wp_ret. split; [by eexists|done].
    + by apply findExposed_None in Hfind.
  - intros v1 v2 v3 E1 E2. by rewrite E2.
  - done.
  - intros X e v1 x v2 He HC. exact (memory_step false X e v1 x v2 He HC).
Qed.

(** ** Witnesses *)

Lemma expose_opens_port_witness :
  let v' := snd (run (live_handler Orch) (ExposeService "s1" 8080 "" "http://gw") session_world) in
  exposedPorts "s1" (fst v') = [8080].
Proof.
  cbv zeta.
  destruct (live_run _ _ _ (expose_opens_port "s1" 8080 "" "http://gw" active_session session_world
    session_world_wf eq_refl ltac:(lia) ltac:(by apply not_elem_of_nil))) as (_ & H & _).
  exact H.
Defined.

Definition exposed_world : Orch * Cluster :=
  (addExposed "s1" (mkExposed 8080 "127.0.0.1" "http://gw/k8e/expose/s1/8080/" 0) NewOrchestrator,
   snd session_world).

Lemma exposure_outlives_session_witness :
  let r := run (live_handler Orch) (do! DestroySession "s1"; ExposeService "s1" 8080 "" "http://gw")
             exposed_world in
  (exists url, fst r = Done (Ok url)) /\ cl_sessions (snd (snd r)) !! (sandboxNS, "s1") = None.
Proof.
  cbv zeta.
  exact (live_run _ _ _ (exposure_outlives_session "s1" 8080 "" "http://gw" active_session exposed_world
    eq_refl ltac:(lia) ltac:(by apply list_elem_of_here))).
Defined.
