(* ===== verification/Runs.v ===== *)
(** * Background runs

    [pkg/sandboxmatrix/grpc/orchestrator.go]: submitting and polling background
    commands, the per-session quota, the record of run ids on the session
    object, and the rebuild of the in-memory registry after a restart. *)
From S2P Require Import Prelude Prog Kube SessionEnv GoTime Orchestrator Rules Samples Lifecycle.
Open Scope Z_scope.

Definition count_runs (id : string) (reg : gmap string string) : Z :=
  Z.of_nat (size (filter (fun e => snd e = id) reg)).

Definition countBackgroundRuns (id : string) : orchP Z :=
  mem (fun o => (count_runs id (o_runRegistry o), o)).

Definition countAllBackgroundRuns : orchP Z :=
  mem (fun o => (Z.of_nat (size (o_runRegistry o)), o)).

Definition getPodIPBySession (id : string) : orchP (res string) :=
  try session <- getSession id;
  if decide (PodIP (s_status session) <> "") then Ret (Ok (PodIP (s_status session)))
  else
    do r <- call (List KPod sandboxNS (SelEq labelSessionID id));
    Ret (match r with
         | Ok (p :: _) =>
             if decide (pst_podIP (p_status p) = "") then Err (Plain "no pod IP")
             else Ok (pst_podIP (p_status p))
         | _ => Err (Plain "no pod IP")
         end).

Definition backgroundRunAnnotation : string := "sandbox.k8e.io/background-runs".

(** The annotation with one more run. *)
Definition append_run (cur runID : string) : string :=
  (if decide (cur <> "") then cur +:+ "," else cur) +:+ runID.

Definition recordRunOnSession (id runID : string) : orchP unit :=
  do r <- getSession id;
  match r with
  | Err _ => Ret tt
  | Ok s => updateSession (with_annotation backgroundRunAnnotation
              (append_run (annotation backgroundRunAnnotation s) runID) s)
  end.

Definition ExecBackground (id command : string) (timeout : Z) (workdir : string)
    (env : gmap string string) : orchP (res string) :=
  do n <- countBackgroundRuns id;
  do max <- mem (fun o => (o_maxBackgroundRuns o, o));
  if max <=? n then Ret (Err (Status ResourceExhausted))
  else
    try podIP <- getPodIPBySession id;
    do t <- now;
    let runID := id +:+ "-bg-" +:+ itoa t in
    do r <- call (Sandboxd podIP (SBackground (sandboxdBackgroundBody id command runID timeout workdir env)));
    match r with
    | Err _ => Ret (Err (Plain "sandboxd background submit"))
    | Ok _ =>
        do! mem (fun o => (tt, with_registry (<[runID := id]> (o_runRegistry o)) o));
        do! recordRunOnSession id runID;
        Ret (Ok runID)
    end.

(** [None]: sandboxd's answer did not decode, and the empty one is returned. *)
Definition PollRun (runID : string) : orchP (res (option string)) :=
  do found <- mem (fun o => (o_runRegistry o !! runID, o));
  match found with
  | None => Ret (Err (Plain "run not found"))
  | Some id =>
      try podIP <- getPodIPBySession id;
      do r <- call (Sandboxd podIP (SPoll runID));
      Ret (match r with Err _ => Err (Plain "sandboxd poll") | Ok (_, body) => Ok body end)
  end.

(** The run ids a session object lists. *)
Definition listed_runs (s : SandboxSession) : list string :=
  filter (fun r => r <> "") (split_on comma (annotation backgroundRunAnnotation s)).

Definition add_run (id : string) (reg : gmap string string) (runID : string) : gmap string string :=
  match reg !! runID with Some _ => reg | None => <[runID := id]> reg end.

Definition rebuild (sessions : list SandboxSession) (reg : gmap string string) : gmap string string :=
  foldl (fun reg s => foldl (add_run (m_name (s_meta s))) reg (listed_runs s)) reg sessions.

Definition RebuildRunRegistry (ns : string) : orchP unit :=
  do r <- call (List KSession ns SelAll);
  match r with
  | Err _ => Ret tt
  | Ok sessions => mem (fun o => (tt, with_registry (rebuild sessions (o_runRegistry o)) o))
  end.

(** ** Lemmas *)

Lemma add_runs_spec id runs reg r :
  foldl (add_run id) reg runs !! r =
    match reg !! r with Some x => Some x | None => if decide (r ∈ runs) then Some id else None end.
Proof.
  revert reg. induction runs as [|r' runs IH]; intros reg; cbn [foldl].
  - destruct (reg !! r); [done|]. by rewrite decide_False by apply not_elem_of_nil.
  - rewrite IH. unfold add_run. destruct (reg !! r') eqn:E.
    + destruct (reg !! r) eqn:E2; [done|]. repeat case_decide; set_solver.
    + destruct (decide (r = r')) as [->|Hne].
      * rewrite lookup_insert_eq, E, decide_True by set_solver. done.
      * rewrite lookup_insert_ne by done. destruct (reg !! r); [done|]. repeat case_decide; set_solver.
Qed.

Lemma rebuild_keeps sessions reg r x : reg !! r = Some x -> rebuild sessions reg !! r = Some x.
Proof.
  revert reg. induction sessions as [|s l IH]; intros reg H; simpl; [done|].
  apply IH. by rewrite add_runs_spec, H.
Qed.

Lemma rebuild_has sessions reg r s :
  s ∈ sessions -> r ∈ listed_runs s -> is_Some (rebuild sessions reg !! r).
Proof.
  revert reg. induction sessions as [|s' l IH]; intros reg Hs Hr; [set_solver|]. simpl.
  apply elem_of_cons in Hs as [->|Hs]; [|by apply IH].
  assert (is_Some (foldl (add_run (m_name (s_meta s'))) reg (listed_runs s') !! r)) as [x Hx].
  { rewrite add_runs_spec, (decide_True _ _ Hr). by destruct (reg !! r). }
  exists x. by apply rebuild_keeps.
Qed.

Lemma rebuild_from sessions reg r x :
  rebuild sessions reg !! r = Some x ->
  reg !! r = Some x \/ exists s, s ∈ sessions /\ m_name (s_meta s) = x /\ r ∈ listed_runs s.
Proof.
  revert reg. induction sessions as [|s l IH]; intros reg H; simpl in *; [by left|].
  apply IH in H as [H|(s' & H)]; [|right; exists s'; set_solver].
  rewrite add_runs_spec in H. destruct (reg !! r) as [y|]; [left; congruence|].
  case_decide as Hr; [|done]. injection H as <-. right. exists s. set_solver.
Qed.

(** ** The registry survives a restart *)

Lemma listed_append cur runID :
  no_char comma runID = true -> runID <> "" ->
  filter (fun r => r <> "") (split_on comma (append_run cur runID)) =
    filter (fun r => r <> "") (split_on comma cur) ++ [runID].
Proof.
  intros Hc Hne. unfold append_run. destruct (decide (cur = "")) as [->|Hcur].
  - rewrite decide_False by tauto. rewrite append_nil_l, split_on_no_char by done.
    by rewrite filter_cons_True.
  - rewrite decide_True, append_assoc by done. change ("," +:+ runID) with (String comma runID).
    rewrite split_on_snoc, filter_app by done. by rewrite filter_cons_True.
Qed.

(** Run ids survive a restart: once [recordRunOnSession] has recorded a run
    on a stored session, a gateway that starts with an empty memory and
    rebuilds its registry knows the run and every run recorded before it, each
    under a session that lists it; if no other session lists the run, under
    that very session. *)
Theorem runs_survive_restart id runID s v :
  wf (snd v) -> cl_sessions (snd v) !! (sandboxNS, id) = Some s ->
  no_char comma runID = true -> runID <> "" ->
  map_Forall (fun i s' => i <> (sandboxNS, id) -> runID ∉ listed_runs s') (cl_sessions (snd v)) ->
  wp (kube_contract Orch false)
    (do! recordRunOnSession id runID;
     do! mem (fun _ => (tt, NewOrchestrator));
     RebuildRunRegistry sandboxNS) (fun o v' =>
    o = Done tt /\ o_runRegistry (fst v') !! runID = Some id /\
    forall r, r ∈ listed_runs s -> is_Some (o_runRegistry (fst v') !! r)) v.
Proof.
  intros Hwf Hs Hc Hne Huniq. destruct (Hwf KSession _ _ Hs) as [Hk Hrv].
  apply wp_assoc, (wp_get_some KSession _ _ s); [exact Hs|].
  set (s' := with_annotation _ _ s). apply wp_assoc.
  apply (wp_update (k := KSession) s' s); [etrans; [|exact Hs]; by rewrite <-Hk|done|simpl in *; lia|].
  intros rv Hlt. apply wp_ret_bind, wp_mem. cbn [fst snd].
  set (s1 := updated (k := KSession) s' s rv : SandboxSession). set (c1 := put (k := KSession) s1 (snd v)).
  assert (cl_sessions c1 = <[(sandboxNS, id) := s1]> (cl_sessions (snd v))) as Ec1
    by (rewrite <-Hk; done).
  assert (listed_runs s1 = listed_runs s ++ [runID]) as Hl1.
  { unfold listed_runs. rewrite <-(listed_append (annotation backgroundRunAnnotation s)) by done.
    do 2 f_equal. unfold annotation, s1, s', with_annotation. simpl. by rewrite lookup_insert_eq. }
  apply (wp_list KSession). intros l Hl v' v'' Hm. destruct Hm as [_ ->]. cbn [snd] in Hl.
  assert (s1 ∈ l) as Hs1.
  { apply (elem_of_listed KSession _ _ _ _ s1 Hl). split; [|exists (sandboxNS, id);
      change (cl_sessions c1 !! (sandboxNS, id) = Some s1); by rewrite Ec1, lookup_insert_eq].
    injection Hk as Hns _. unfold selected. by rewrite bool_decide_eq_true_2. }
  split; [by destruct v'|]. cbn [fst snd o_runRegistry with_registry NewOrchestrator].
  split.
  - destruct (rebuild_has l ∅ runID s1 Hs1) as [x Hx]; [rewrite Hl1; set_solver|]. rewrite Hx. f_equal.
    apply rebuild_from in Hx as [Hx|(s2 & Hs2 & <- & Hr2)]; [by rewrite lookup_empty in Hx|].
    apply (elem_of_listed KSession _ _ _ _ s2 Hl) in Hs2 as [_ [i Hi]].
    change (cl_sessions c1 !! i = Some s2) in Hi. rewrite Ec1, lookup_insert in Hi. case_decide as Hd.
    + injection Hi as <-. by injection Hk.
    + by apply (Huniq i s2 Hi) in Hr2.
  - intros r Hr. apply (rebuild_has l ∅ r s1 Hs1). rewrite Hl1. set_solver.
Qed.

(** ** The quota *)

(** What a client can do about the runs of session [id]. *)
Inductive run_call :=
  | CExec (command : string) (timeout : Z) (workdir : string) (env : gmap string string)
  | CPoll (runID : string)
  | CDestroy (id' : string)
  | CPause (id' : string)
  | CRebuild.

Definition run_call_prog (id : string) (c : run_call) : orchP unit :=
  match c with
  | CExec command timeout workdir env => do! ExecBackground id command timeout workdir env; Ret tt
  | CPoll runID => do! PollRun runID; Ret tt
  | CDestroy id' => do! DestroySession id'; Ret tt
  | CPause id' => do! PauseSession id'; Ret tt
  | CRebuild => RebuildRunRegistry sandboxNS
  end.

(** The runs of [id] in the registry stay there. *)
Definition runs_kept (id : string) (m m' : Orch) : Prop :=
  o_maxBackgroundRuns m' = o_maxBackgroundRuns m /\
  forall r, o_runRegistry m !! r = Some id -> o_runRegistry m' !! r = Some id.

Definition keeps_runs {A} (id : string) (p : orchP A) : Prop :=
  only false (fun X e => match e with Mem f => forall m, runs_kept id m (snd (f m)) | _ => True end) p.

Lemma runs_kept_count id m m' :
  runs_kept id m m' -> count_runs id (o_runRegistry m) <= count_runs id (o_runRegistry m').
Proof.
  intros [_ H]. unfold count_runs. apply Nat2Z.inj_le, map_subseteq_size, map_subseteq_spec.
  intros r x. rewrite !map_lookup_filter_Some. simpl. intros [Hr ->]. split; [by apply H|done].
Qed.

Lemma runs_kept_trans id m1 m2 m3 : runs_kept id m1 m2 -> runs_kept id m2 m3 -> runs_kept id m1 m3.
Proof. intros [E1 H1] [E2 H2]. split; [congruence|auto]. Qed.

Lemma runs_kept_refl id m : runs_kept id m m.
Proof. by split. Qed.

Lemma runs_kept_insert id runID m : runs_kept id m (with_registry (<[runID := id]> (o_runRegistry m)) m).
Proof.
  split; [done|]. simpl. intros r Hr. rewrite lookup_insert. by case_decide.
Qed.

Lemma runs_kept_rebuild id l m : runs_kept id m (with_registry (rebuild l (o_runRegistry m)) m).
Proof. split; [done|]. simpl. intros r. apply rebuild_keeps. Qed.

#[local] Hint Resolve runs_kept_refl runs_kept_insert runs_kept_rebuild : k8e.

Lemma run_call_keeps id c : keeps_runs id (run_call_prog id c).
Proof.
  unfold keeps_runs. destruct c; cbn [run_call_prog].
  - unfold ExecBackground, countBackgroundRuns, recordRunOnSession, getPodIPBySession.
    frame_auto; intros m; auto with k8e.
  - unfold PollRun, getPodIPBySession. frame_auto; intros m; auto with k8e.
  - frame_auto; intros m; auto with k8e.
  - frame_auto; intros m; auto with k8e.
  - unfold RebuildRunRegistry. frame_auto; intros m; auto with k8e.
Qed.

Lemma memory_relates faults (R : Orch -> Orch -> Prop) X (e : gwE Orch X) v x v' :
  (forall m, R m m) ->
  match e with Mem f => forall m, R m (snd (f m)) | _ => True end ->
  kube_contract Orch faults X e v x v' -> R (fst v) (fst v').
Proof.
  intros Hrefl He HC. destruct v as [m c], v' as [m' c'].
  destruct e; simpl in *; try (by destruct HC as [[= -> ->] _]); try (by destruct HC as [-> _]).
  - by destruct HC as [_ [= -> ->]].
  - by injection HC as -> ->.
  - by injection HC as -> ->.
  - by destruct HC as (t & _ & _ & [= -> ->]).
  - destruct HC as [_ [= -> ->]]. apply He.
Qed.

(** The background-run quota is never given back: once a session has as
    many registered runs as the limit allows, a further background command is
    refused after any sequence of submissions, polls, pauses, destroys and
    registry rebuilds, whatever they return; waiting for completion and
    polling, which the refusal advises, do not help. *)
Theorem run_quota_not_returned faults id calls command timeout workdir env v :
  o_maxBackgroundRuns (fst v) <= count_runs id (o_runRegistry (fst v)) ->
  wp (kube_contract Orch faults)
    (do! for_each calls (run_call_prog id); ExecBackground id command timeout workdir env)
    (fun o v' => o = Done (Err (Status ResourceExhausted))) v.
Proof.
  intros Hfull.
  eapply (wp_only_bind false _ _ (fun v v' => runs_kept id (fst v) (fst v'))).
  - intros v1 v2 v3. apply runs_kept_trans.
  - intros v'. apply runs_kept_refl.
  - intros X e v1 x v2 He HC. exact (memory_relates faults (runs_kept id) X e v1 x v2 (runs_kept_refl id) He HC).
  - apply only_for_each. intros c. apply run_call_keeps.
  - done.
  - intros _ v' Hk. pose proof (runs_kept_count _ _ _ Hk) as Hc. destruct Hk as [Hmax _].
    unfold ExecBackground. apply wp_mem, wp_mem. cbn [fst snd].
    rewrite (proj2 (Z.leb_le _ _)) by lia. by apply wp_ret.
Qed.

(** ** Witnesses *)

Definition busy_world : Orch * Cluster :=
  (with_registry {["r1" := "s1"; "r2" := "s1"; "r3" := "s1"; "r4" := "s1"; "r5" := "s1"]} NewOrchestrator,
   snd session_world).

Lemma run_quota_not_returned_witness :
  fst (run (live_handler Orch)
    (do! for_each [CPoll "r1"; CPoll "r2"; CDestroy "s1"] (run_call_prog "s1");
     ExecBackground "s1" "true" 0 "" ∅) busy_world) = Done (Err (Status ResourceExhausted)).
Proof.
  exact (live_run _ _ _ (run_quota_not_returned false "s1" [CPoll "r1"; CPoll "r2"; CDestroy "s1"]
    "true" 0 "" ∅ busy_world ltac:(by vm_compute))).
Defined.

Lemma runs_survive_restart_witness :
  o_runRegistry (fst (snd (run (live_handler Orch)
    (do! recordRunOnSession "s1" "s1-bg-7"; do! mem (fun _ => (tt, NewOrchestrator));
     RebuildRunRegistry sandboxNS) session_world))) !! "s1-bg-7" = Some "s1".
Proof.
  apply (live_run _ _ _ (runs_survive_restart "s1" "s1-bg-7" active_session session_world
    session_world_wf eq_refl eq_refl ltac:(done)
    ltac:(apply map_Forall_singleton; by intros []))).
Defined.
