(* ===== verification/Approvals.v ===== *)
(** * Human approvals

    [ConfirmAction], [Approve] and the approval GC of
    [pkg/sandboxmatrix/grpc/orchestrator.go].  A pending approval is a channel
    of capacity one; callers wait on it, an approver sends on it, the GC closes
    it.  The calls run concurrently: the map of approvals is guarded by a lock,
    the channel operations are not, so the model is a step relation over a pool
    of calls, each at one of its program points. *)
From S2P Require Import Prelude SessionEnv.
Open Scope Z_scope.

Definition approvalTTL : Z := 5 * minute.

(** A channel; [ch_for] names the approval it was made for (not part of the
    code's state). *)
Record Chan := mkChan { ch_buf : option bool; ch_closed : bool; ch_for : string }.

Record pendingApproval := mkPending { pa_approved : nat; pa_createdAt : Z }.

Record AState := mkAState {
  a_approvals : gmap string pendingApproval;
  a_chans : gmap nat Chan;
}.

(** Where a call stands. *)
Inductive acall :=
  | CNew (sessionID : string)                   (* ConfirmAction, no approval id *)
  | CNewDone (id : string)
  | CConfirm (id : string)                      (* ConfirmAction, before the lookup *)
  | CWait (id : string) (ch : nat)              (* at the select *)
  | CForget (id : string) (r : res bool)        (* about to delete the entry *)
  | CConfirmed (id : string) (r : res bool)
  | CApprove (id : string) (b : bool)           (* Approve, before the lookup *)
  | CSend (id : string) (ch : nat) (b : bool)   (* at the send *)
  | CApproved (id : string) (r : res bool)      (* returned; [Ok b]: [b] was sent *)
  | CPanic.

Definition approvalID (sessionID : string) (t : Z) : string :=
  "approval-" +:+ sessionID +:+ "-" +:+ itoa t.

(** ** The critical sections and channel operations *)

Definition new_approval (id : string) (ch : nat) (t : Z) (s : AState) : AState :=
  mkAState (<[id := mkPending ch t]> (a_approvals s)) (<[ch := mkChan None false id]> (a_chans s)).

Definition forget (id : string) (s : AState) : AState :=
  mkAState (delete id (a_approvals s)) (a_chans s).

Definition set_chan (ch : nat) (c : Chan) (s : AState) : AState :=
  mkAState (a_approvals s) (<[ch := c]> (a_chans s)).

(** A receive: the value and the channel afterwards, or it blocks. *)
Definition recv (c : Chan) : option (bool * Chan) :=
  match ch_buf c with
  | Some b => Some (b, mkChan None (ch_closed c) (ch_for c))
  | None => if ch_closed c then Some (false, c) else None
  end.

(** A send on an open channel with room. *)
Definition send (b : bool) (c : Chan) : option Chan :=
  match ch_buf c with
  | Some _ => None
  | None => if ch_closed c then None else Some (mkChan (Some b) false (ch_for c))
  end.

(** The approvals a GC tick at [t] finds too old. *)
Definition expired (t : Z) (s : AState) : gmap string pendingApproval :=
  filter (fun e => pa_createdAt (snd e) < t - approvalTTL) (a_approvals s).

Definition expired_chans (t : Z) (s : AState) : list nat :=
  (fun e => pa_approved (snd e)) <$> map_to_list (expired t s).

(** Closing a closed channel panics. *)
Definition gc_panics (t : Z) (s : AState) : Prop :=
  ~ NoDup (expired_chans t s) \/
  exists ch c, ch ∈ expired_chans t s /\ a_chans s !! ch = Some c /\ ch_closed c = true.

Definition close (c : Chan) : Chan := mkChan (ch_buf c) true (ch_for c).

Definition gc (t : Z) (s : AState) : AState :=
  mkAState (filter (fun e => ~ pa_createdAt (snd e) < t - approvalTTL) (a_approvals s))
    (map_imap (fun ch c => Some (if decide (ch ∈ expired_chans t s) then close c else c)) (a_chans s)).

(** ** Steps *)

(** What one call does next. *)
Inductive acall_step : AState -> acall -> AState -> acall -> Prop :=
  | s_new s sessionID t ch :
      a_chans s !! ch = None ->
      acall_step s (CNew sessionID) (new_approval (approvalID sessionID t) ch t s)
        (CNewDone (approvalID sessionID t))
  | s_confirm s id pa :
      a_approvals s !! id = Some pa ->
      acall_step s (CConfirm id) s (CWait id (pa_approved pa))
  | s_confirm_unknown s id :
      a_approvals s !! id = None ->
      acall_step s (CConfirm id) s (CConfirmed id (Err (Status NotFound)))
  | s_recv s id ch c b c' :
      a_chans s !! ch = Some c -> recv c = Some (b, c') ->
      acall_step s (CWait id ch) (set_chan ch c' s) (CForget id (Ok b))
  | s_cancel s id ch :
      acall_step s (CWait id ch) s (CForget id (Err (Status Canceled)))
  | s_timeout s id ch :
      acall_step s (CWait id ch) s (CForget id (Err (Status DeadlineExceeded)))
  | s_forget s id r :
      acall_step s (CForget id r) (forget id s) (CConfirmed id r)
  | s_approve s id b pa :
      a_approvals s !! id = Some pa ->
      acall_step s (CApprove id b) s (CSend id (pa_approved pa) b)
  | s_approve_unknown s id b :
      a_approvals s !! id = None ->
      acall_step s (CApprove id b) s (CApproved id (Err (Status NotFound)))
  | s_send s id ch b c c' :
      a_chans s !! ch = Some c -> send b c = Some c' ->
      acall_step s (CSend id ch b) (set_chan ch c' s) (CApproved id (Ok b))
  | s_send_closed s id ch b c :
      a_chans s !! ch = Some c -> ch_closed c = true ->
      acall_step s (CSend id ch b) s CPanic.

Definition aconfig : Type := AState * list acall.

Inductive astep : aconfig -> aconfig -> Prop :=
  | a_call s calls i c s' c' :
      calls !! i = Some c -> acall_step s c s' c' ->
      astep (s, calls) (s', <[i := c']> calls)
  | a_gc s calls t :
      astep (s, calls) (gc t s, calls).

(** A call that has not begun. *)
Definition fresh_call (c : acall) : Prop :=
  match c with CNew _ | CConfirm _ | CApprove _ _ => True | _ => False end.

Definition start (calls : list acall) : aconfig := (mkAState ∅ ∅, calls).

(** ** Invariants *)

Definition sent_true (id : string) (calls : list acall) : Prop := CApproved id (Ok true) ∈ calls.

Record ainv (cfg : aconfig) : Prop := mkAInv {
  (** entries point to open channels made for them *)
  i_entries : forall id pa, a_approvals (fst cfg) !! id = Some pa ->
    exists c, a_chans (fst cfg) !! pa_approved pa = Some c /\ ch_for c = id /\ ch_closed c = false;
  (** calls hold channels made for their approval *)
  i_calls : forall c id ch, c ∈ snd cfg -> (c = CWait id ch \/ exists b, c = CSend id ch b) ->
    exists x, a_chans (fst cfg) !! ch = Some x /\ ch_for x = id;
  (** a buffered [true] was sent by an approver *)
  i_buf : forall ch c, a_chans (fst cfg) !! ch = Some c -> ch_buf c = Some true ->
    sent_true (ch_for c) (snd cfg);
  (** and so was a received one *)
  i_true : forall id, CForget id (Ok true) ∈ snd cfg \/ CConfirmed id (Ok true) ∈ snd cfg ->
    sent_true id (snd cfg);
}.

(** ** Lemmas *)

Section pools.
Context {A : Type}.
Implicit Types (l : list A).

Lemma elem_insert_inv l i x y : x ∈ <[i := y]> l -> x = y \/ x ∈ l.
Proof.
  intros [j Hj]%list_elem_of_lookup. destruct (decide (i = j)) as [<-|Hne].
  - destruct (decide (i < length l)%nat) as [Hi|Hi].
    + rewrite list_lookup_insert_eq in Hj by done. left; congruence.
    + rewrite list_insert_ge in Hj by lia. right. by eapply list_elem_of_lookup_2.
  - rewrite list_lookup_insert_ne in Hj by done. right. by eapply list_elem_of_lookup_2.
Qed.

Lemma elem_insert_keep l i x y z : l !! i = Some z -> x <> z -> x ∈ l -> x ∈ <[i := y]> l.
Proof.
  intros Hi Hne [j Hj]%list_elem_of_lookup. apply (list_elem_of_lookup_2 _ j).
  rewrite list_lookup_insert_ne; [done|]. intros <-. congruence.
Qed.

Lemma elem_insert_new l i y z : l !! i = Some z -> y ∈ <[i := y]> l.
Proof. intros Hi%lookup_lt_Some. apply (list_elem_of_lookup_2 _ i). by apply list_lookup_insert_eq. Qed.
End pools.

Lemma sent_true_insert id calls i c c' :
  calls !! i = Some c -> c <> CApproved id (Ok true) ->
  sent_true id calls -> sent_true id (<[i := c']> calls).
Proof. intros Hi Hc. unfold sent_true. by eapply elem_insert_keep. Qed.

(** A finished approver takes no step. *)
Lemma approved_final s id r s' c' : ~ acall_step s (CApproved id r) s' c'.
Proof. intros H. inversion H. Qed.

(** A step that keeps the entries, and the channels up to what they buffer. *)
Lemma ainv_start calls : Forall fresh_call calls -> ainv (start calls).
Proof.
  intros Hf. rewrite Forall_forall in Hf. split; simpl.
  - intros id pa. by rewrite lookup_empty.
  - intros c id ch Hc [->|[b ->]]; by apply Hf in Hc.
  - intros ch c. by rewrite lookup_empty.
  - intros id [Hc|Hc]; by apply Hf in Hc.
Qed.

Section step.
Context (s : AState) (calls : list acall) (i : nat) (c : acall).
Hypothesis Hinv : ainv (s, calls).
Hypothesis Hi : calls !! i = Some c.
Hypothesis Hc : forall id, c <> CApproved id (Ok true).

Lemma i_mem : c ∈ calls.
Proof. by eapply list_elem_of_lookup_2. Qed.

(** The shared part of every call step: entries and channels are given. *)
Lemma ainv_call s' c' :
  (forall id pa, a_approvals s' !! id = Some pa ->
     exists x, a_chans s' !! pa_approved pa = Some x /\ ch_for x = id /\ ch_closed x = false) ->
  (forall ch x, a_chans s !! ch = Some x -> exists x', a_chans s' !! ch = Some x' /\ ch_for x' = ch_for x) ->
  (forall id ch, c' = CWait id ch \/ (exists b, c' = CSend id ch b) ->
     exists x, a_chans s' !! ch = Some x /\ ch_for x = id) ->
  (forall ch x, a_chans s' !! ch = Some x -> ch_buf x = Some true ->
     (exists y, a_chans s !! ch = Some y /\ ch_buf y = Some true /\ ch_for y = ch_for x) \/
     c' = CApproved (ch_for x) (Ok true)) ->
  (forall id, c' = CForget id (Ok true) \/ c' = CConfirmed id (Ok true) -> sent_true id calls) ->
  ainv (s', <[i := c']> calls).
Proof.
  intros He Hch Hw Hb Ht. split; simpl; [exact He|..].
  - intros x id ch [->|Hx]%elem_insert_inv Hf; [by apply Hw|].
    destruct (i_calls _ Hinv x id ch Hx Hf) as (y & Hy & <-).
    destruct (Hch ch y Hy) as (y' & Hy' & E). by exists y'.
  - intros ch x Hx Hbuf. destruct (Hb ch x Hx Hbuf) as [(y & Hy & Hby & <-)| ->].
    + eapply sent_true_insert; [exact Hi|apply Hc|]. exact (i_buf _ Hinv ch y Hy Hby).
    + by eapply elem_insert_new.
  - intros id Hf.
    assert (c' = CForget id (Ok true) \/ c' = CConfirmed id (Ok true) \/
      CForget id (Ok true) ∈ calls \/ CConfirmed id (Ok true) ∈ calls) as Hcases
      by (destruct Hf as [[->|Hf]%elem_insert_inv|[->|Hf]%elem_insert_inv]; tauto).
    eapply sent_true_insert; [exact Hi|apply Hc|].
    destruct Hcases as [E|[E|Hin]]; [apply Ht; by left|apply Ht; by right|exact (i_true _ Hinv id Hin)].
Qed.

(** Steps that leave the shared state alone. *)
Lemma ainv_quiet c' :
  (forall id ch, c' = CWait id ch \/ (exists b, c' = CSend id ch b) ->
     exists x, a_chans s !! ch = Some x /\ ch_for x = id) ->
  (forall id, c' = CForget id (Ok true) \/ c' = CConfirmed id (Ok true) -> sent_true id calls) ->
  ainv (s, <[i := c']> calls).
Proof.
  intros Hw Ht. apply ainv_call; [exact (i_entries _ Hinv)|by eauto|exact Hw| |exact Ht].
  intros ch x Hx Hbuf. left. by exists x.
Qed.

(** Steps that replace one channel by one for the same approval. *)
Lemma ainv_chan c' ch x x' :
  a_chans s !! ch = Some x -> ch_for x' = ch_for x -> ch_closed x' = ch_closed x ->
  (forall id ch, ~ (c' = CWait id ch \/ (exists b, c' = CSend id ch b))) ->
  (ch_buf x' = Some true -> ch_buf x = Some true \/ c' = CApproved (ch_for x) (Ok true)) ->
  (forall id, c' = CForget id (Ok true) \/ c' = CConfirmed id (Ok true) -> sent_true id calls) ->
  ainv (set_chan ch x' s, <[i := c']> calls).
Proof.
  intros Hx Hfor Hcl Hw Hb Ht. apply ainv_call; simpl; [| |by intros id ch' ?%Hw| |exact Ht].
  - intros id pa Hpa. destruct (i_entries _ Hinv id pa Hpa) as (y & Hy & Hyf & Hyc). simpl in Hy.
    rewrite lookup_insert. case_decide as E; [|by exists y].
    subst ch. rewrite Hx in Hy. injection Hy as <-. exists x'. by rewrite Hfor, Hcl.
  - intros ch' y Hy. rewrite lookup_insert. case_decide as E; [|by exists y].
    subst ch'. rewrite Hx in Hy. injection Hy as <-. by exists x'.
  - intros ch' y. rewrite lookup_insert. case_decide as E; [|intros Hy Hby; left; by exists y].
    subst ch'. intros [= <-] Hby. rewrite Hfor. destruct (Hb Hby); [left; by exists x|by right].
Qed.
End step.

Lemma elem_of_expired t s ch :
  ch ∈ expired_chans t s <-> exists id pa, a_approvals s !! id = Some pa /\
    pa_createdAt pa < t - approvalTTL /\ pa_approved pa = ch.
Proof.
  unfold expired_chans, expired. rewrite list_elem_of_fmap. split.
  - intros ([id pa] & -> & He%elem_of_map_to_list). apply map_lookup_filter_Some in He as [He Ht].
    by exists id, pa.
  - intros (id & pa & Hpa & Ht & <-). exists (id, pa). split; [done|].
    apply elem_of_map_to_list, map_lookup_filter_Some. done.
Qed.

Lemma ainv_call_step s calls i c s' c' :
  ainv (s, calls) -> calls !! i = Some c -> acall_step s c s' c' -> ainv (s', <[i := c']> calls).
Proof.
  intros Hinv Hi Hstep.
  assert (forall id, c <> CApproved id (Ok true)) as Hc
    by (intros id ->; by apply approved_final in Hstep).
  pose proof (list_elem_of_lookup_2 calls i c Hi) as Hin.
  destruct Hstep as [s sid t ch Hfr|s id pa Hpa|s id Hpa|s id ch x b x' Hx Hr|s id ch|s id ch
    |s id r|s id b pa Hpa|s id b Hpa|s id ch b x x' Hx Hs|s id ch b x Hx Hcl].
  - apply (ainv_call s calls i _ Hinv Hi Hc); simpl; [| |naive_solver| |naive_solver].
    + intros id pa. rewrite lookup_insert. case_decide as E.
      * intros [= <-]. subst id. exists (mkChan None false (approvalID sid t)). by rewrite lookup_insert_eq.
      * intros Hpa. destruct (i_entries _ Hinv id pa Hpa) as (y & Hy & Hyf). simpl in Hy. exists y.
        rewrite lookup_insert_ne; [done|]. intros ->. congruence.
    + intros ch' y Hy. exists y. rewrite lookup_insert_ne; [done|]. intros ->. congruence.
    + intros ch' y. rewrite lookup_insert. case_decide; [by intros [= <-]|]. intros Hy Hb. left. by exists y.
  - apply (ainv_quiet s calls i _ Hinv Hi Hc); [|naive_solver].
    intros id' ch' [[= <- <-]|[b [=]]]. destruct (i_entries _ Hinv id pa Hpa) as (y & Hy & Hf & _). by exists y.
  - apply (ainv_quiet s calls i _ Hinv Hi Hc); naive_solver.
  - destruct (i_calls _ Hinv (CWait id ch) id ch Hin (or_introl eq_refl)) as (y & Hy & Hf).
    simpl in Hy. rewrite Hx in Hy. injection Hy as <-.
    unfold recv in Hr. destruct (ch_buf x) as [b'|] eqn:Eb.
    + injection Hr as -> <-. apply (ainv_chan s calls i _ Hinv Hi Hc _ ch x _ Hx); try naive_solver.
      intros id' [[= <- ->]|[=]]. pose proof (i_buf _ Hinv ch x Hx Eb) as Hsent. by rewrite Hf in Hsent.
    + destruct (ch_closed x) eqn:Ec; [|done]. injection Hr as <- <-.
      apply (ainv_chan s calls i _ Hinv Hi Hc _ ch x _ Hx); try naive_solver.
  - apply (ainv_quiet s calls i _ Hinv Hi Hc); naive_solver.
  - apply (ainv_quiet s calls i _ Hinv Hi Hc); naive_solver.
  - apply (ainv_call s calls i _ Hinv Hi Hc); simpl; [|by eauto|naive_solver|by eauto 6|].
    + intros id' pa [_ Hpa]%lookup_delete_Some. exact (i_entries _ Hinv id' pa Hpa).
    + intros id' [[=]|[= <- ->]]. apply (i_true _ Hinv). by left.
  - apply (ainv_quiet s calls i _ Hinv Hi Hc); [|naive_solver].
    intros id' ch' [[=]|[b' [= <- <- <-]]].
    destruct (i_entries _ Hinv id pa Hpa) as (y & Hy & Hf & _). by exists y.
  - apply (ainv_quiet s calls i _ Hinv Hi Hc); naive_solver.
  - destruct (i_calls _ Hinv (CSend id ch b) id ch Hin (or_intror (ex_intro _ b eq_refl))) as (y & Hy & Hf).
    simpl in Hy. rewrite Hx in Hy. injection Hy as <-. unfold send in Hs.
    destruct (ch_buf x) eqn:Eb, (ch_closed x) eqn:Ec; simplify_eq/=.
    apply (ainv_chan s calls i _ Hinv Hi Hc _ ch x _ Hx); naive_solver.
  - apply (ainv_quiet s calls i _ Hinv Hi Hc); naive_solver.
Qed.

Lemma ainv_gc s calls t : ainv (s, calls) -> ainv (gc t s, calls).
Proof.
  intros Hinv.
  assert (forall ch x, a_chans (gc t s) !! ch = Some x ->
    exists y, a_chans s !! ch = Some y /\ x = (if decide (ch ∈ expired_chans t s) then close y else y)) as Hch.
  { intros ch x. simpl. rewrite map_lookup_imap. destruct (a_chans s !! ch) as [y|]; [|done].
    simpl. intros [= <-]. by exists y. }
  assert (forall ch y, a_chans s !! ch = Some y ->
    a_chans (gc t s) !! ch = Some (if decide (ch ∈ expired_chans t s) then close y else y)) as Hch'.
  { intros ch y Hy. simpl. by rewrite map_lookup_imap, Hy. }
  split; cbn [fst snd].
  - intros id pa Hpa. apply map_lookup_filter_Some in Hpa as [Hpa Ht].
    destruct (i_entries _ Hinv id pa Hpa) as (y & Hy & Hf & Hcl). exists y.
    rewrite (Hch' _ y Hy), decide_False; [done|].
    rewrite elem_of_expired. intros (id' & pa' & Hpa' & Ht' & E).
    destruct (i_entries _ Hinv id' pa' Hpa') as (y' & Hy' & Hf' & _). simpl in Hy, Hy', Ht.
    rewrite E, Hy in Hy'. injection Hy' as <-. assert (id' = id) as -> by congruence.
    rewrite Hpa in Hpa'. injection Hpa' as <-. by apply Ht.
  - intros c id ch Hc Hf. destruct (i_calls _ Hinv c id ch Hc Hf) as (y & Hy & <-).
    eexists. split; [by apply Hch'|]. by case_decide.
  - intros ch x Hx Hb. destruct (Hch ch x Hx) as (y & Hy & ->).
    assert (ch_for (if decide (ch ∈ expired_chans t s) then close y else y) = ch_for y) as -> by by case_decide.
    apply (i_buf _ Hinv ch y Hy). by case_decide.
  - exact (i_true _ Hinv).
Qed.

Lemma ainv_reachable calls cfg : Forall fresh_call calls -> rtc astep (start calls) cfg -> ainv cfg.
Proof.
  intros Hf Hsteps. pose proof (ainv_start calls Hf) as H0. revert H0.
  induction Hsteps as [x|x y z Hxy _ IH]; [done|]. intros Hx. apply IH.
  destruct Hxy as [s cs i c s' c' Hi Hstep|s cs t]; [by eapply ainv_call_step|by apply ainv_gc].
Qed.

(** ** Properties *)

(** No action is approved without an approver: in every interleaving of
    confirmations, approvals and GC ticks, from calls that have not begun, a
    [ConfirmAction] that answers approved was answered by an [Approve] call for
    the same approval id that sent [true]. *)
Theorem approval_needs_approver calls s calls' id :
  Forall fresh_call calls -> rtc astep (start calls) (s, calls') ->
  CConfirmed id (Ok true) ∈ calls' -> CApproved id (Ok true) ∈ calls'.
Proof.
  intros Hf Hsteps Hin. pose proof (ainv_reachable calls _ Hf Hsteps) as Hinv.
  apply (i_true _ Hinv). by right.
Qed.

(** The approval GC never closes a channel twice, whatever has happened
    before: a tick at any time finds distinct, open channels. *)
Theorem approval_gc_safe calls s calls' t :
  Forall fresh_call calls -> rtc astep (start calls) (s, calls') -> ~ gc_panics t s.
Proof.
  intros Hf Hsteps. pose proof (ainv_reachable calls _ Hf Hsteps) as Hinv. intros [Hnd|(ch & c & Hch & Hc & Hcl)].
  - apply Hnd. unfold expired_chans. apply NoDup_fmap_2_strong; [|apply NoDup_map_to_list].
    intros [id pa] [id' pa'] He He' E. simpl in E.
    apply elem_of_map_to_list, map_lookup_filter_Some in He as [He _].
    apply elem_of_map_to_list, map_lookup_filter_Some in He' as [He' _].
    destruct (i_entries _ Hinv id pa He) as (y & Hy & Hf1 & _).
    destruct (i_entries _ Hinv id' pa' He') as (y' & Hy' & Hf2 & _).
    simpl in Hy, Hy', He, He'. rewrite E, Hy' in Hy. injection Hy as <-.
    assert (id = id') as <- by congruence. congruence.
  - apply elem_of_expired in Hch as (id & pa & Hpa & _ & <-).
    destruct (i_entries _ Hinv id pa Hpa) as (y & Hy & _ & Hcl'). simpl in Hy. congruence.
Qed.

(** One step of the [i]-th call. *)
Lemma step_call s calls i c s' c' cfg :
  calls !! i = Some c -> acall_step s c s' c' ->
  rtc astep (s', <[i := c']> calls) cfg -> rtc astep (s, calls) cfg.
Proof. intros Hi Hs. apply rtc_l. by eapply a_call. Qed.

Definition sample_id : string := approvalID "s1" 0.

(** Approving can crash the gateway: there is an interleaving in which an
    [Approve] call that has found its approval sends on a channel the GC has
    closed in the meantime, which panics. *)
Theorem approve_can_panic :
  exists calls s calls', Forall fresh_call calls /\
    rtc astep (start calls) (s, calls') /\ CPanic ∈ calls'.
Proof.
  exists [CNew "s1"; CApprove sample_id true].
  eexists (gc (approvalTTL + 1) (new_approval sample_id 0 0 (mkAState ∅ ∅))),
    [CNewDone sample_id; CPanic]. split; [by repeat constructor|]. split; [|set_solver].
  eapply (step_call _ _ 0); [done|by apply (s_new _ "s1" 0 0)|].
  eapply (step_call _ _ 1); [done|by apply (s_approve _ sample_id true (mkPending 0 0))|].
  eapply rtc_l; [apply (a_gc _ _ (approvalTTL + 1))|].
  eapply (step_call _ _ 1); [done| |apply rtc_refl].
  by apply (s_send_closed _ sample_id 0 true (mkChan None true sample_id)).
Qed.

(** ** Witnesses *)

Definition approved_calls : list acall := [CNew "s1"; CConfirm sample_id; CApprove sample_id true].

(** A confirmation that is asked for, waited on, approved and answered. *)
Lemma approved_run : exists s, rtc astep (start approved_calls)
  (s, [CNewDone sample_id; CConfirmed sample_id (Ok true); CApproved sample_id (Ok true)]).
Proof.
  eexists. eapply (step_call _ _ 0); [done|by apply (s_new _ "s1" 0 0)|].
  eapply (step_call _ _ 1); [done|by apply (s_confirm _ sample_id (mkPending 0 0))|].
  eapply (step_call _ _ 2); [done|by apply (s_approve _ sample_id true (mkPending 0 0))|].
  eapply (step_call _ _ 2);
    [done|by apply (s_send _ sample_id 0 true (mkChan None false sample_id) (mkChan (Some true) false sample_id))|].
  eapply (step_call _ _ 1);
    [done|by apply (s_recv _ sample_id 0 (mkChan (Some true) false sample_id) true (mkChan None false sample_id))|].
  eapply (step_call _ _ 1); [done|by apply s_forget|]. apply rtc_refl.
Qed.

Lemma approval_needs_approver_witness :
  exists s calls', rtc astep (start approved_calls) (s, calls') /\
    CConfirmed sample_id (Ok true) ∈ calls' /\ CApproved sample_id (Ok true) ∈ calls'.
Proof.
  destruct approved_run as [s Hs]. eexists s, _. split; [exact Hs|].
  split; [set_solver|].
  apply (approval_needs_approver approved_calls s _ sample_id ltac:(by repeat constructor) Hs). set_solver.
Defined.

Lemma approval_gc_safe_witness : exists s, ~ gc_panics hour s.
Proof.
  destruct approved_run as [s Hs]. exists s.
  exact (approval_gc_safe approved_calls s _ hour ltac:(by repeat constructor) Hs).
Defined.
