(* ===== verification/Sha256.v ===== *)
(** * SHA-256 in hexadecimal

    [crypto/sha256] and [encoding/hex] of Go's standard library, as the layer
    store uses them: FIPS 180-4 on 32-bit words held in [Z]. *)
From S2P Require Import Prelude.
From Stdlib Require Import ZArith Lia Strings.Byte.

Abbreviation bytes := (list byte).

Open Scope Z_scope.

(** ** Words *)

Definition w32 (x : Z) : Z := x mod 2 ^ 32.
Definition add32 (x y : Z) : Z := w32 (x + y).
Definition rotr (n x : Z) : Z := Z.lor (Z.shiftr x n) (w32 (Z.shiftl x (32 - n))).

Definition Sigma0 (x : Z) : Z := Z.lxor (Z.lxor (rotr 2 x) (rotr 13 x)) (rotr 22 x).
Definition Sigma1 (x : Z) : Z := Z.lxor (Z.lxor (rotr 6 x) (rotr 11 x)) (rotr 25 x).
Definition sigma0 (x : Z) : Z := Z.lxor (Z.lxor (rotr 7 x) (rotr 18 x)) (Z.shiftr x 3).
Definition sigma1 (x : Z) : Z := Z.lxor (Z.lxor (rotr 17 x) (rotr 19 x)) (Z.shiftr x 10).
Definition Ch (x y z : Z) : Z := Z.lxor (Z.land x y) (Z.land (2 ^ 32 - 1 - x) z).
Definition Maj (x y z : Z) : Z := Z.lxor (Z.lxor (Z.land x y) (Z.land x z)) (Z.land y z).

(** ** The constants

    They are defined rather than listed: the first 32 bits of the fractional
    parts of the cube roots of the first 64 primes, and of the square roots of
    the first 8. *)

Definition prime (n : Z) : bool :=
  forallb (fun d => negb (n mod d =? 0)) (map Z.of_nat (seq 2 (Z.to_nat n - 2))).

Definition primes : list Z := List.filter prime (map Z.of_nat (seq 2 310)).

(** The integer cube root of [x], bit [n - 1] first, from the candidate [r]. *)
Fixpoint cube_root (n : nat) (r x : Z) : Z :=
  match n with
  | O => r
  | S n =>
      let r' := r + 2 ^ Z.of_nat n in
      cube_root n (if r' * r' * r' <=? x then r' else r) x
  end.

Definition round_constants : list Z :=
  Eval vm_compute in map (fun p => w32 (cube_root 36 0 (p * 2 ^ 96))) primes.

Definition initial_words : list Z :=
  Eval vm_compute in map (fun p => w32 (Z.sqrt (p * 2 ^ 64))) (firstn 8 primes).

Example constants_count : (length primes, length round_constants) = (64%nat, 64%nat).
Proof. reflexivity. Qed.

(** ** The compression function *)

(** The message schedule; the argument holds the last sixteen words, newest
    first. *)
Fixpoint expand (n : nat) (last : list Z) : list Z :=
  match n with
  | O => []
  | S n =>
      match last with
      | _ :: w2 :: _ :: _ :: _ :: _ :: w7 :: _ :: _ :: _ :: _ :: _ :: _ :: _ :: w15 :: w16 :: _ =>
          let w := add32 (add32 (sigma1 w2) w7) (add32 (sigma0 w15) w16) in
          w :: expand n (w :: last)
      | _ => []
      end
  end.

Definition schedule (block : list Z) : list Z := block ++ expand 48 (rev block).

Record chain := mkChain { ha : Z; hb : Z; hc : Z; hd : Z; he : Z; hf : Z; hg : Z; hh : Z }.

Definition round (s : chain) (kw : Z * Z) : chain :=
  let '(mkChain a b c d e f g h) := s in
  let t1 := add32 (add32 (add32 h (Sigma1 e)) (add32 (Ch e f g) kw.1)) kw.2 in
  let t2 := add32 (Sigma0 a) (Maj a b c) in
  mkChain (add32 t1 t2) a b c (add32 d t1) e f g.

Definition compress_block (s : chain) (block : list Z) : chain :=
  let '(mkChain a b c d e f g h) := foldl round s (zip round_constants (schedule block)) in
  let '(mkChain a0 b0 c0 d0 e0 f0 g0 h0) := s in
  mkChain (add32 a0 a) (add32 b0 b) (add32 c0 c) (add32 d0 d)
          (add32 e0 e) (add32 f0 f) (add32 g0 g) (add32 h0 h).

Definition initial : chain :=
  match initial_words with
  | [a; b; c; d; e; f; g; h] => mkChain a b c d e f g h
  | _ => mkChain 0 0 0 0 0 0 0 0
  end.

(** ** Padding and blocks *)

Definition byte_Z (b : byte) : Z := Z.of_N (Byte.to_N b).

(** The [n] big-endian bytes of [z]. *)
Fixpoint be_bytes (n : nat) (z : Z) : list Z :=
  match n with
  | O => []
  | S n => be_bytes n (Z.shiftr z 8) ++ [Z.land z 255]
  end.

Definition pad (m : list Z) : list Z :=
  let len := Z.of_nat (length m) in
  m ++ 128 :: repeat 0 (Z.to_nat ((55 - len) mod 64)) ++ be_bytes 8 (8 * len).

Fixpoint words (m : list Z) : list Z :=
  match m with
  | a :: b :: c :: d :: m =>
      (Z.shiftl a 24 + Z.shiftl b 16 + Z.shiftl c 8 + d)%Z :: words m
  | _ => []
  end.

Fixpoint blocks (fuel : nat) (ws : list Z) : list (list Z) :=
  match fuel, ws with
  | S fuel, _ :: _ => take 16 ws :: blocks fuel (drop 16 ws)
  | _, _ => []
  end.

Definition sha256 (b : bytes) : list Z :=
  let ws := words (pad (byte_Z <$> b)) in
  let '(mkChain a b c d e f g h) := foldl compress_block initial (blocks (length ws) ws) in
  mjoin (be_bytes 4 <$> [a; b; c; d; e; f; g; h]).

(** ** Hexadecimal *)

Definition hex_digit (n : Z) : Ascii.ascii :=
  Ascii.ascii_of_N (Z.to_N (if (n <? 10)%Z then 48 + n else 87 + n)).

Fixpoint hex (l : list Z) : string :=
  match l with
  | [] => EmptyString
  | b :: l => String (hex_digit (Z.shiftr b 4)) (String (hex_digit (Z.land b 15)) (hex l))
  end.

Definition is_hex (c : Ascii.ascii) : bool :=
  let n := Z.of_N (Ascii.N_of_ascii c) in
  ((48 <=? n) && (n <=? 57)) || ((97 <=? n) && (n <=? 102)).

(** ** Lemmas *)

Lemma be_bytes_length (n : nat) (z : Z) : length (be_bytes n z) = n.
Proof. revert z. induction n as [|n IH]; intros z; simpl; [done|]. rewrite length_app, IH. simpl. lia. Qed.

Lemma be_bytes_range (n : nat) (z : Z) : Forall (fun b => 0 <= b < 256) (be_bytes n z).
Proof.
  revert z. induction n as [|n IH]; intros z; simpl; [constructor|].
  apply Forall_app. split; [apply IH|]. constructor; [|constructor].
  change 255 with (Z.ones 8). rewrite Z.land_ones by lia.
  apply Z.mod_pos_bound. lia.
Qed.

Lemma sha256_length (b : bytes) : length (sha256 b) = 32%nat.
Proof.
  unfold sha256. destruct (foldl _ _ _) as [? ? ? ? ? ? ? ?].
  cbn [fmap list_fmap mjoin list_join].
  by rewrite !length_app, !be_bytes_length.
Qed.

Lemma sha256_range (b : bytes) : Forall (fun b => 0 <= b < 256) (sha256 b).
Proof.
  unfold sha256. destruct (foldl _ _ _) as [? ? ? ? ? ? ? ?]. cbn [fmap list_fmap mjoin list_join].
  rewrite !Forall_app. repeat split; apply be_bytes_range || constructor.
Qed.

Lemma hex_length (l : list Z) : String.length (hex l) = (2 * length l)%nat.
Proof. induction l as [|b l IH]; simpl; [done|]. rewrite IH. lia. Qed.

Lemma hex_digit_is_hex (n : Z) : 0 <= n < 16 -> is_hex (hex_digit n) = true.
Proof.
  intros H. rewrite <-(Z2Nat.id n) by lia.
  assert (Z.to_nat n < 16)%nat as Hn by lia. revert Hn.
  generalize (Z.to_nat n) as k. intros k Hk.
  do 16 (destruct k as [|k]; [done|]). lia.
Qed.

Lemma hex_is_hex (l : list Z) :
  Forall (fun b => 0 <= b < 256) l -> all_chars is_hex (hex l) = true.
Proof.
  induction 1 as [|b l Hb _ IH]; simpl; [done|].
  rewrite !hex_digit_is_hex, IH; [done|..].
  - change 15 with (Z.ones 4). rewrite Z.land_ones by lia. by apply Z.mod_pos_bound.
  - rewrite Z.shiftr_div_pow2 by lia. change (2 ^ 4) with 16. split.
    + apply Z.div_pos; lia.
    + apply Z.div_lt_upper_bound; lia.
Qed.

(** The published test vectors of the standard. *)
Example sha256_empty :
  hex (sha256 []) = "e3b0c44298fc1c149afbf4c8996fb92427ae41e4649b934ca495991b7852b855".
Proof. vm_compute. reflexivity. Qed.

Example sha256_abc :
  hex (sha256 [x61; x62; x63]) = "ba7816bf8f01cfea414140de5dae2223b00361a396177a9cb410ff61f20015ad".
Proof. vm_compute. reflexivity. Qed.
