(* ===== verification/Os.v ===== *)
(** * The operating system

    What the node-side code asks of it: files with their modification times,
    random bytes and the clock.  A write truncates first, so a process that
    dies between the two leaves an empty file; a rename is atomic. *)
From Stdlib Require Import Lia.
From stdpp Require Import sorting.
From S2P Require Import Prelude Prog Sha256.
From Stdlib Require Import ZArith Lia.

Record file := mkFile { f_content : string; f_mtime : Z }.
#[export] Instance file_eq_dec : EqDecision file.
Proof. solve_decision. Defined.

Inductive osE : Type -> Type :=
  | ReadFile (p : string) : osE (res string)
  | Create (p : string) : osE (res unit)
  | Chmod (p : string) : osE (res unit)
  | Write (p content : string) : osE (res unit)
  | Rename (p q : string) : osE (res unit)
  | Remove (p : string) : osE (res unit)
  | Stat (p : string) : osE (res Z)
  | Chtimes (p : string) (t : Z) : osE (res unit)
  | MkdirAll (p : string) : osE (res unit)
  | ReadDir (p : string) : osE (res (list string))
  | Random (n : nat) : osE (res string)
  | Now : osE Z.

Abbreviation osP := (prog osE).

(** [os.WriteFile] *)
Definition WriteFile (p content : string) : osP (res unit) :=
  try _u <- call (Create p); call (Write p content).

Definition slash : Ascii.ascii := Ascii.ascii_of_nat 47.

(** [filepath.Dir] of a clean absolute path: the part before the last slash. *)
Fixpoint before_slash (p : string) : option string :=
  match p with
  | EmptyString => None
  | String c r =>
      match before_slash r with
      | Some d => Some (String c d)
      | None => if Ascii.eqb c slash then Some "" else None
      end
  end.
Definition filepath_Dir (p : string) : string :=
  match before_slash p with Some EmptyString => "/" | Some d => d | None => "." end.

Abbreviation fs := (gmap string file).

Definition disk_contents (m : fs) : gmap string string := f_content <$> m.

(** The hexadecimal text of [n] bytes. *)
Definition random_text (n : nat) (s : string) : bool := (String.length s =? 2 * n)%nat && all_chars is_hex s.

(** ** Contract

    With [faults] every call may be refused without an effect; a refused
    write may have written any part of the file. *)
Definition os_contract (faults : bool) : contract osE fs := fun X e m x m' =>
  match e in osE X return X -> Prop with
  | ReadFile p => fun r => m' = m /\
      match m !! p with
      | Some f => r = Ok (f_content f) \/ faults = true /\ exists e, e <> not_exist /\ r = Err e
      | None => exists e, r = Err e /\ (faults = false -> e = not_exist)
      end
  | Create p => fun r =>
      (r = Ok tt /\ exists t, m' = <[p := mkFile "" t]> m) \/ (faults = true /\ m' = m /\ exists e, r = Err e)
  | Chmod p => fun r => m' = m /\ (r = Ok tt \/ faults = true /\ exists e, r = Err e)
  | Write p c => fun r =>
      (r = Ok tt /\ exists t, m' = <[p := mkFile c t]> m) \/
      (faults = true /\ (exists e, r = Err e) /\ exists f, m' = <[p := f]> m)
  | Rename p q => fun r =>
      (r = Ok tt /\ exists f, m !! p = Some f /\ m' = <[q := f]> (delete p m)) \/
      ((faults = true \/ m !! p = None) /\ m' = m /\ exists e, r = Err e)
  | Remove p => fun r =>
      (r = Ok tt /\ m' = delete p m /\ is_Some (m !! p)) \/
      ((faults = true \/ m !! p = None) /\ m' = m /\ exists e, r = Err e)
  | Stat p => fun r => m' = m /\
      match m !! p with
      | Some f => r = Ok (f_mtime f) \/ faults = true /\ exists e, e <> not_exist /\ r = Err e
      | None => exists e, r = Err e /\ (faults = false -> e = not_exist)
      end
  | Chtimes p t => fun r =>
      (r = Ok tt /\ exists f, m !! p = Some f /\ m' = <[p := mkFile (f_content f) t]> m) \/
      ((faults = true \/ m !! p = None) /\ m' = m /\ exists e, r = Err e)
  | MkdirAll p => fun r => m' = m /\ (r = Ok tt \/ faults = true /\ exists e, r = Err e)
  | ReadDir p => fun r => m' = m /\ (faults = false -> is_ok r = true)
  | Random n => fun r => m' = m /\ ((exists s, r = Ok s /\ random_text n s = true) \/ faults = true /\ exists e, r = Err e)
  | Now => fun _ => m' = m
  end x.

(** ** An executable system *)

(** The names of the files directly below a directory. *)
Definition entries (d : string) (m : fs) : list string :=
  omap (fun p => match strip_prefix (d +:+ "/") p with
                 | Some r => if no_char slash r then Some r else Some (default "" (head (split_on slash r)))
                 | None => None
                 end) (map_to_list m).*1.

(** A disk that serves every call, with a clock and a supply of random
    bytes. *)
Record Os := mkOs { os_fs : fs; os_clock : Z; os_random : list string }.
Definition with_fs (m : fs) (o : Os) : Os := mkOs m (os_clock o) (os_random o).

Definition live_os : handler osE Os := fun X e o =>
  let m := os_fs o in
  let missing {A} (p : string) (f : file -> A * Os) (fail : A) : A * Os :=
    match m !! p with Some x => f x | None => (fail, o) end in
  match e in osE X return X * Os with
  | ReadFile p => missing p (fun f => (Ok (f_content f), o)) (Err not_exist)
  | Create p => (Ok tt, with_fs (<[p := mkFile "" (os_clock o)]> m) o)
  | Chmod p => (Ok tt, o)
  | Write p c => (Ok tt, with_fs (<[p := mkFile c (os_clock o)]> m) o)
  | Rename p q => missing p (fun f => (Ok tt, with_fs (<[q := f]> (delete p m)) o)) (Err not_exist)
  | Remove p => missing p (fun _ => (Ok tt, with_fs (delete p m) o)) (Err not_exist)
  | Stat p => missing p (fun f => (Ok (f_mtime f), o)) (Err not_exist)
  | Chtimes p t => missing p (fun f => (Ok tt, with_fs (<[p := mkFile (f_content f) t]> m) o)) (Err not_exist)
  | MkdirAll p => (Ok tt, o)
  | ReadDir p => (match entries p m with [] => Err not_exist | l => Ok l end, o)
  | Random n => (match os_random o with
                 | s :: _ => if random_text n s then Ok s else Err (Plain "random")
                 | [] => Err (Plain "random")
                 end, mkOs m (os_clock o) (tail (os_random o)))
  | Now => (os_clock o, o)
  end.

(** It keeps the contract, with faults since the supply may run out. *)
Lemma live_os_ok : respects live_os os_fs (os_contract true).
Proof.
  intros X e o. destruct e; cbn; try (destruct (os_fs o !! p) as [f|] eqn:E; cbn; rewrite ?E).
  - split; [done|by left].
  - split; [done|]. by exists not_exist.
  - left. split; [done|]. by eexists.
  - left. split; [done|]. by eexists.
  - split; [done|by left].
  - split; [done|by left].
  - left. split; [done|]. by eexists.
  - left. split; [done|]. by eexists.
  - left. split; [done|]. by eexists.
  - right. split_and!; [by left|done|by eexists].
  - left. split_and!; [done..|by eexists].
  - right. split_and!; [by left|done|by eexists].
  - split; [done|by left].
  - split; [done|]. by exists not_exist.
  - left. split; [done|]. by eexists.
  - right. split_and!; [by left|done|by eexists].
  - split; [done|by left].
  - split; [done|by left].
  - by split.
  - by split.
  - split; [done|]. destruct (os_random o) as [|s l]; [right; by split; [|eexists]|].
    destruct (random_text n s) eqn:Hl; [left; by eexists|right; by split; [|eexists]].
  - done.
Qed.

(** * Sorting and paths

    [sort.Slice], and [Clean], [Join], [Base] and [Dir] of [path] and
    [filepath]; the selection of the oldest entries that several retention
    rules share. *)

(** ** [sort.Slice] *)

(** Not stable: any order in which no element stands behind one it is less
    than. *)
Class SortSlice := mkSortSlice {
  sort_slice : forall A, (A -> A -> bool) -> list A -> list A;
  sort_slice_perm : forall A less (l : list A), sort_slice A less l ≡ₚ l;
  sort_slice_sorted : forall A less (l : list A),
    (forall x y, less x y = true -> less y x = false) ->
    (forall x y z, less x y = false -> less y z = false -> less x z = false) ->
    Sorted.StronglySorted (fun x y => less y x = false) (sort_slice A less l);
}.
Arguments sort_slice {_ A} less l.

(** The newest [keep] entries by time, and the rest. *)
Definition newest_first `{SortSlice} {A} (time : A -> Z) (l : list A) : list A :=
  sort_slice (fun x y => Z.ltb (time y) (time x)) l.

Lemma newest_first_sorted `{SortSlice} {A} (time : A -> Z) (l : list A) :
  Sorted.StronglySorted (fun x y => (time y <= time x)%Z) (newest_first time l).
Proof.
  assert (Sorted.StronglySorted (fun x y => Z.ltb (time x) (time y) = false) (newest_first time l)) as Hs.
  { apply sort_slice_sorted; intros; lia. }
  induction Hs as [|a m _ IH Ha]; constructor; [done|]. eapply Forall_impl; [exact Ha|]. cbn. lia.
Qed.

(** What is kept is at least as new as what is dropped. *)
Lemma kept_newer `{SortSlice} {A} (time : A -> Z) (n : nat) (l : list A) x y :
  x ∈ take n (newest_first time l) -> y ∈ drop n (newest_first time l) -> (time y <= time x)%Z.
Proof.
  pose proof (newest_first_sorted time l) as Hs. revert Hs. generalize (newest_first time l) as m. clear l.
  revert n. intros n m. revert n.
  induction m as [|a m IH]; intros n Hs Hx Hy; [by rewrite take_nil in Hx; apply elem_of_nil in Hx|].
  apply Sorted.StronglySorted_inv in Hs as [Hs Ha]. destruct n as [|n]; [by apply elem_of_nil in Hx|].
  cbn [take drop] in Hx, Hy. apply elem_of_cons in Hx as [->|Hx]; [|by eapply IH].
  rewrite Forall_forall in Ha. apply Ha. rewrite <-(take_drop n m). apply elem_of_app. by right.
Qed.

(** ** Paths *)

Definition path_step (rooted : bool) (acc : list string) (s : string) : list string :=
  if decide (s = "" \/ s = ".") then acc
  else if decide (s = "..") then
    match acc with
    | top :: r => if decide (top = "..") then ".." :: acc else r
    | [] => if rooted then [] else [".."]
    end
  else s :: acc.

Definition path_Clean (p : string) : string :=
  if decide (p = "") then "."
  else
    let rooted := has_prefix p "/" in
    let parts := rev (fold_left (path_step rooted) (split_on slash p) []) in
    if rooted then "/" +:+ join_with "/" parts
    else match parts with [] => "." | _ => join_with "/" parts end.

Definition path_Join (parts : list string) : string :=
  match filter (fun s => s <> "") parts with [] => "" | l => path_Clean (join_with "/" l) end.

(** The last part; trailing slashes are dropped. *)
Definition path_Base (p : string) : string :=
  if decide (p = "") then "."
  else default "/" (last (filter (fun s => s <> "") (split_on slash p))).

(** The cleaned path without its last part. *)
Definition path_Dir (p : string) : string :=
  match before_slash p with None => "." | Some d => path_Clean (d +:+ "/") end.

Example paths :
  (path_Join ["/var/lib"; ".."; ".metadata"; "a"], path_Join [""; "a//b/"; "../c"], path_Base "a/b//", path_Dir "/a/b",
   path_Dir "a", path_Clean "../x/..") = ("/var/.metadata/a", "a/c", "b", "/a", ".", "..").
Proof. reflexivity. Qed.

(** An instance: insertion. *)
Section insertion.
Context {A : Type} (less : A -> A -> bool).

Fixpoint insert_sorted (x : A) (l : list A) : list A :=
  match l with
  | [] => [x]
  | y :: r => if less y x then y :: insert_sorted x r else x :: l
  end.
Definition insertion_sort (l : list A) : list A := foldr insert_sorted [] l.

Lemma insert_sorted_perm x l : insert_sorted x l ≡ₚ x :: l.
Proof. induction l as [|y l IH]; simpl; [done|]. destruct (less y x); [|done]. rewrite IH. constructor. Qed.

Lemma insertion_sort_perm l : insertion_sort l ≡ₚ l.
Proof. induction l as [|x l IH]; simpl; [done|]. by rewrite insert_sorted_perm, IH. Qed.

Lemma insertion_sort_sorted l :
  (forall x y, less x y = true -> less y x = false) ->
  (forall x y z, less x y = false -> less y z = false -> less x z = false) ->
  Sorted.StronglySorted (fun x y => less y x = false) (insertion_sort l).
Proof.
  intros Hasym Htrans. induction l as [|x l IH]; simpl; [constructor|].
  revert IH. generalize (insertion_sort l). clear l. induction l as [|y l IH]; intros Hs; simpl; [by repeat constructor|].
  apply Sorted.StronglySorted_inv in Hs as [Hs Hy]. destruct (less y x) eqn:E.
  - constructor; [by apply IH|]. rewrite insert_sorted_perm. constructor; [by apply Hasym|done].
  - constructor; [by constructor|]. constructor; [done|]. eapply Forall_impl; [exact Hy|].
    intros z Hz. exact (Htrans _ _ _ Hz E).
Qed.
End insertion.

Definition insertion_order : SortSlice :=
  mkSortSlice (fun A => insertion_sort) (fun A => insertion_sort_perm) (fun A => insertion_sort_sorted).
