(* ===== verification/LayerStore.v ===== *)
(** * The content-addressed layer store

    [pkg/sandboxlayer/layerstore.go]: publishing layers under the digest of
    their content, manifests that reference them, autosquash and garbage
    collection.  The operations are programs over file-system effects; a file
    whose data has not been synced may hold anything after a crash.

    The zstd encoder and decoder are parameters, each of which may decline. *)
From S2P Require Import Prelude Prog Sha256.
From Stdlib Require Import Strings.Byte.
From stdpp Require Import sorting.

#[local] Open Scope nat_scope.

(** ** The file system *)

(** [DSnapshots] holds the legacy archives: the name [n] stands for
    [<snapshots>/n/workspace.tar.gz]. *)
Inductive dir := DLayers | DStaging | DManifests | DSnapshots.
#[export] Instance dir_eq_dec : EqDecision dir.
Proof. solve_decision. Defined.
#[export] Instance dir_countable : Countable dir.
Proof.
  refine (inj_countable' (fun d => match d with DLayers => 0 | DStaging => 1 | DManifests => 2 | DSnapshots => 3 end)
    (fun n => match n with 0 => DLayers | 1 => DStaging | 2 => DManifests | _ => DSnapshots end) _).
  by intros [].
Defined.

Definition path : Type := dir * string.

Record Manifest := mkManifest { SchemaVersion : Z; Layers : list string }.

(** What a file holds: raw bytes, or the JSON form of a manifest. *)
Inductive data := Raw (b : bytes) | Json (m : Manifest).

Record file := mkFile { f_data : data; f_synced : bool }.

Abbreviation fs := (gmap path file).

(** System calls; [false] and [None] are failures. *)
Inductive fsE : Type -> Type :=
  | Mkdir (d : dir) : fsE bool
  | Stat (p : path) : fsE bool
  | CreateTemp (d : dir) (prefix : string) : fsE (option string)
  | Write (p : path) (d : data) : fsE bool
  | Sync (p : path) : fsE bool
  | Close (p : path) : fsE bool
  | Rename (p q : path) : fsE bool
  | Remove (p : path) : fsE bool
  | RemoveAll (p : path) : fsE bool
  | ReadFile (p : path) : fsE (option data)
  | ReadDir (d : dir) : fsE (option (list string))
  | Info (p : path) : fsE (option Z).

Definition names_in (d : dir) (s : fs) : list string :=
  omap (fun e : path * file => if decide (e.1.1 = d) then Some e.1.2 else None) (map_to_list s).

Definition is_digit (c : Ascii.ascii) : bool :=
  let n := Ascii.nat_of_ascii c in (48 <=? n)%nat && (n <=? 57)%nat.

(** What the store relies on: [os.CreateTemp] makes a new file whose name is
    the prefix and random digits, and a [Rename] is atomic; [faults] says whether calls may fail. *)
Definition fs_contract (faults : bool) : contract fsE fs :=
  fun X e s =>
    match e in fsE X return X -> fs -> Prop with
    | Mkdir _ => fun x s' => s' = s /\ (x = false -> faults = true)
    | Stat p => fun x s' => s' = s /\ (x = true -> is_Some (s !! p)) /\
        (x = false -> faults = true \/ s !! p = None)
    | CreateTemp d prefix => fun x s' =>
        match x with
        | Some name => (exists suffix, all_chars is_digit suffix = true /\ name = prefix +:+ suffix) /\ s !! (d, name) = None /\
            s' = <[(d, name) := mkFile (Raw []) false]> s
        | None => faults = true /\ s' = s
        end
    | Write p d => fun x s' =>
        if x then s' = <[p := mkFile d false]> s
        else faults = true /\ exists junk, s' = <[p := mkFile junk false]> s
    | Sync p => fun x s' =>
        if x then exists f, s !! p = Some f /\ s' = <[p := mkFile (f_data f) true]> s
        else s' = s /\ (faults = true \/ s !! p = None)
    | Close p => fun x s' => s' = s /\ (x = false -> faults = true)
    | Rename p q => fun x s' =>
        if x then exists f, s !! p = Some f /\ s' = <[q := f]> (delete p s)
        else s' = s /\ (faults = true \/ s !! p = None)
    | Remove p => fun x s' =>
        if x then is_Some (s !! p) /\ s' = delete p s
        else s' = s /\ (faults = true \/ s !! p = None)
    | RemoveAll p => fun x s' => if x then s' = delete p s else faults = true /\ s' = s
    | ReadFile p => fun x s' => s' = s /\
        match x with
        | Some d => exists f, s !! p = Some f /\ f_data f = d
        | None => faults = true \/ s !! p = None
        end
    | ReadDir d => fun x s' => s' = s /\
        match x with Some l => l ≡ₚ names_in d s | None => faults = true end
    | Info p => fun x s' => s' = s /\ (x = None -> faults = true \/ s !! p = None)
    end.

Definition sys {X} (e : fsE X) : prog fsE X := call e.

(** ** The store *)

Definition Digest (b : bytes) : string := hex (sha256 b).

Class LayerCodec := mkLayerCodec {
  zstd_encode : bytes -> option bytes;
  zstd_decode : bytes -> option bytes;
}.

Section store.
Context `{LC : LayerCodec}.

Abbreviation fsP := (prog fsE).

Definition compress (content : bytes) : bytes := default content (zstd_encode content).
Definition decompress (b : bytes) : bytes := default b (zstd_decode b).

(** [New]. *)
Fixpoint mkdirs (l : list dir) : fsP (res unit) :=
  match l with
  | [] => Ret (Ok tt)
  | d :: l => do r <- sys (Mkdir d); if r then mkdirs l else Ret (Err (Plain "mkdir"))
  end.

Definition New : fsP (res unit) := mkdirs [DLayers; DStaging; DManifests].

Definition layerPath (digest : string) : path := (DLayers, digest).
Definition manifestPath (name : string) : path := (DManifests, name +:+ ".json").

(** Stage [d] in [where_] and publish it at [final]: write, sync, close,
    rename; the temporary file is removed on the way out (after a successful
    rename there is nothing left to remove). *)
Definition publish (where_ : dir) (prefix : string) (d : data) (final : path) : fsP (res unit) :=
  do tmp <- sys (CreateTemp where_ prefix);
  match tmp with
  | None => Ret (Err (Plain "stage"))
  | Some name =>
      let p := (where_, name) in
      do w <- sys (Write p d);
      if negb w then do! sys (Close p); do! sys (Remove p); Ret (Err (Plain "write"))
      else
        do y <- sys (Sync p);
        if negb y then do! sys (Close p); do! sys (Remove p); Ret (Err (Plain "fsync"))
        else
          do c <- sys (Close p);
          if negb c then do! sys (Remove p); Ret (Err (Plain "close"))
          else
            do r <- sys (Rename p final);
            do! sys (Remove p);
            Ret (if r then Ok tt else Err (Plain "publish"))
  end.

Definition Put (content : bytes) : fsP (res string) :=
  let digest := Digest content in
  do present <- sys (Stat (layerPath digest));
  if present then Ret (Ok digest)
  else
    try _ <- publish DStaging "layer-" (Raw (compress content)) (layerPath digest);
    Ret (Ok digest).

Definition Has (digest : string) : fsP bool := sys (Stat (layerPath digest)).

Definition Get (digest : string) : fsP (res bytes) :=
  do r <- sys (ReadFile (layerPath digest));
  Ret (match r with Some (Raw b) => Ok (decompress b) | _ => Err (Plain "get") end).

(** The chunks of [content], [size] bytes each; [fuel] bounds their number. *)
Fixpoint chunks (fuel size : nat) (content : bytes) : list bytes :=
  match fuel, content with
  | S fuel, _ :: _ => take size content :: chunks fuel size (drop size content)
  | _, _ => []
  end.

Definition chunk_size (n : Z) : nat := Z.to_nat (if (n <=? 0)%Z then 4 * 1024 * 1024 else n).

Fixpoint put_all (l : list bytes) (acc : list string) : fsP (res (list string)) :=
  match l with
  | [] => Ret (Ok acc)
  | c :: l => try d <- Put c; put_all l (acc ++ [d])
  end.

Definition PutChunks (content : bytes) (chunkSize : Z) : fsP (res (list string)) :=
  try digests <- put_all (chunks (length content) (chunk_size chunkSize) content) [];
  match content with
  | [] => try d <- Put []; Ret (Ok (digests ++ [d]))
  | _ => Ret (Ok digests)
  end.

(** The loop of [Assemble] and of [squash]. *)
Fixpoint Assemble_from (digests : list string) (out : bytes) : fsP (res bytes) :=
  match digests with
  | [] => Ret (Ok out)
  | d :: digests => try b <- Get d; Assemble_from digests (out ++ b)
  end.

Definition Assemble (digests : list string) : fsP (res bytes) := Assemble_from digests [].

(** ** Manifests *)

Definition ManifestVersion : Z := 1.
Definition SquashThreshold : nat := 32.

Definition squash (layers : list string) : fsP (res string) :=
  try out <- Assemble_from layers [];
  Put out.

Definition SaveManifest (name : string) (layers : list string) : fsP (res unit) :=
  try layers <- (if decide (SquashThreshold < length layers)%nat
                 then try d <- squash layers; Ret (Ok [d]) else Ret (Ok layers));
  publish DManifests "manifest-" (Json (mkManifest ManifestVersion layers)) (manifestPath name).

Definition LoadManifest (name : string) : fsP (res Manifest) :=
  do r <- sys (ReadFile (manifestPath name));
  Ret (match r with Some (Json m) => Ok m | _ => Err (Plain "manifest") end).

Definition DeleteManifest (name : string) : fsP (res unit) :=
  do r <- sys (Remove (manifestPath name));
  Ret (if r then Ok tt else Err (Plain "remove")).

Definition dot : Ascii.ascii := Ascii.Ascii false true true true false true false false.

(** The text before the last dot. *)
Fixpoint before_last_dot (s : string) : option string :=
  match s with
  | EmptyString => None
  | String c s =>
      match before_last_dot s with
      | Some r => Some (String c r)
      | None => if Ascii.eqb c dot then Some EmptyString else None
      end
  end.

Definition trimExt (name : string) : string := default name (before_last_dot name).

Definition ListManifests : fsP (res (list string)) :=
  do r <- sys (ReadDir DManifests);
  Ret (match r with
       | Some names => Ok (sort_strings (trimExt <$> names))
       | None => Err (Plain "readdir")
       end).

(** ** Transfer and collection *)

Definition Delta (have want : Manifest) : list string :=
  filter (fun d => d ∉ Layers have) (Layers want).

Fixpoint collect (names : list string) (acc : list string) : fsP (list string) :=
  match names with
  | [] => Ret acc
  | n :: names =>
      do m <- LoadManifest n;
      collect names (match m with Ok m => acc ++ Layers m | Err _ => acc end)
  end.

Definition referencedLayers : fsP (list string) :=
  do names <- ListManifests;
  match names with
  | Err _ => Ret []
  | Ok names => collect names []
  end.

Definition removeLayer (name : string) : fsP (res Z) :=
  do info <- sys (Info (layerPath name));
  match info with
  | None => Ret (Err (Plain "info"))
  | Some size =>
      do r <- sys (Remove (layerPath name));
      Ret (if r then Ok size else Err (Plain "remove"))
  end.

Fixpoint sweep (referenced : list string) (entries : list string) (removed : Z) : fsP (res Z) :=
  match entries with
  | [] => Ret (Ok removed)
  | name :: entries =>
      if decide (name ∈ referenced) then sweep referenced entries removed
      else
        do r <- removeLayer name;
        sweep referenced entries (match r with Ok n => wrap64 (removed + n) | Err _ => removed end)
  end.

Definition GC : fsP (res Z) :=
  do referenced <- referencedLayers;
  do entries <- sys (ReadDir DLayers);
  match entries with
  | None => Ret (Err (Plain "readdir"))
  | Some entries => sweep referenced entries 0
  end.

Fixpoint sum_sizes (entries : list string) (total : Z) : fsP Z :=
  match entries with
  | [] => Ret total
  | name :: entries =>
      do info <- sys (Info (layerPath name));
      sum_sizes entries (match info with Some n => wrap64 (total + n) | None => total end)
  end.

Definition SizeBytes : fsP (res Z) :=
  do entries <- sys (ReadDir DLayers);
  match entries with
  | None => Ret (Err (Plain "readdir"))
  | Some entries => do total <- sum_sizes entries 0; Ret (Ok total)
  end.

End store.

(** ** An executable file system *)

Definition zero : Ascii.ascii := Ascii.Ascii false false false false true true false false.

Fixpoint zeros (n : nat) : string :=
  match n with O => EmptyString | S n => String zero (zeros n) end.

Definition longest (d : dir) (s : fs) : nat := max_list (String.length <$> names_in d s).

Definition temp_name (d : dir) (prefix : string) (s : fs) : string :=
  prefix +:+ zeros (S (longest d s)).

(** Every call succeeds that can. *)
Definition live_fs : handler fsE fs :=
  fun X e s =>
    match e in fsE X return X * fs with
    | Mkdir _ => (true, s)
    | Stat p => (bool_decide (is_Some (s !! p)), s)
    | CreateTemp d prefix =>
        let name := temp_name d prefix s in
        (Some name, <[(d, name) := mkFile (Raw []) false]> s)
    | Write p d => (true, <[p := mkFile d false]> s)
    | Sync p =>
        match s !! p with
        | Some f => (true, <[p := mkFile (f_data f) true]> s)
        | None => (false, s)
        end
    | Close _ => (true, s)
    | Rename p q =>
        match s !! p with
        | Some f => (true, <[q := f]> (delete p s))
        | None => (false, s)
        end
    | Remove p =>
        match s !! p with Some _ => (true, delete p s) | None => (false, s) end
    | RemoveAll p => (true, delete p s)
    | ReadFile p => (f_data <$> s !! p, s)
    | ReadDir d => (Some (names_in d s), s)
    | Info p =>
        (f ← s !! p;
         Some match f_data f with Raw b => Z.of_nat (length b) | Json _ => 0%Z end, s)
    end.

(** What a power loss leaves: some files are gone, an unsynced file holds
    anything, a synced file what was synced. *)
Definition power_loss (s s' : fs) : Prop :=
  forall p f', s' !! p = Some f' -> exists f, s !! p = Some f /\ (f_synced f = true -> f' = f).

(** ** Lemmas: names and the executable file system *)

Lemma elem_of_names_in (d : dir) (s : fs) (n : string) :
  n ∈ names_in d s <-> is_Some (s !! (d, n)).
Proof.
  unfold names_in. rewrite list_elem_of_omap. split.
  - intros ([[d' n'] f] & Hin & H). apply elem_of_map_to_list in Hin. simpl in H.
    destruct (decide (d' = d)) as [->|]; [|done]. injection H as ->. eauto.
  - intros [f Hf]. exists ((d, n), f). split; [by apply elem_of_map_to_list|].
    simpl. by rewrite decide_True.
Qed.

Lemma length_zeros (n : nat) : String.length (zeros n) = n.
Proof. induction n as [|n IH]; simpl; auto. Qed.

Lemma zeros_digits (n : nat) : all_chars is_digit (zeros n) = true.
Proof. induction n as [|n IH]; [done|]. cbn [zeros all_chars]. by rewrite IH. Qed.

Lemma temp_name_fresh (d : dir) (prefix : string) (s : fs) :
  s !! (d, temp_name d prefix s) = None.
Proof.
  destruct (s !! _) as [f|] eqn:E; [|done].
  assert (temp_name d prefix s ∈ names_in d s) as Hin by (apply elem_of_names_in; eauto).
  assert (String.length (temp_name d prefix s) <= longest d s) as Hle.
  { apply max_list_elem_of_le, list_elem_of_fmap. eauto. }
  unfold temp_name in Hle. rewrite length_append, length_zeros in Hle. lia.
Qed.

Lemma live_fs_ok (faults : bool) : respects live_fs (fun s => s) (fs_contract faults).
Proof.
  intros X e s. destruct e as [d|p|d prefix|p d|p|p|p q|p|p|p|d|p]; cbn [live_fs fs_contract fst snd].
  - done.
  - split; [done|]. split; [by intros H%bool_decide_eq_true|].
    intros H%bool_decide_eq_false. right. by apply eq_None_not_Some.
  - split; [exists (zeros (S (longest d s))); split; [apply zeros_digits|done]|].
    split; [apply temp_name_fresh|done].
  - done.
  - destruct (s !! p) as [f|] eqn:E; cbn [fst snd]; eauto.
  - done.
  - destruct (s !! p) as [f|] eqn:E; cbn [fst snd]; eauto.
  - destruct (s !! p) as [f|] eqn:E; cbn [fst snd]; eauto.
  - done.
  - split; [done|]. destruct (s !! p) as [f|] eqn:E; simpl; eauto.
  - done.
  - split; [done|]. destruct (s !! p) as [f|] eqn:E; simpl; [done|auto].
Qed.

Lemma before_last_dot_app (a b r : string) :
  before_last_dot b = Some r -> before_last_dot (a +:+ b) = Some (a +:+ r).
Proof.
  intros Hb. induction a as [|c a IH]; [done|]. rewrite !append_cons. simpl. by rewrite IH.
Qed.

Lemma trimExt_json (name : string) : trimExt (name +:+ ".json") = name.
Proof.
  unfold trimExt. rewrite (before_last_dot_app _ _ EmptyString) by done.
  simpl. apply append_empty_r.
Qed.

Lemma append_inj_r (c a b : string) : a +:+ c = b +:+ c -> a = b.
Proof.
  revert b. induction a as [|x a IH]; intros [|y b] H; [done| | |].
  - apply (f_equal String.length) in H. rewrite !length_append in H. simpl in H. lia.
  - apply (f_equal String.length) in H. rewrite !length_append in H. simpl in H. lia.
  - rewrite !append_cons in H. injection H as -> H. by rewrite (IH _ H).
Qed.

Lemma no_dot_digits (s : string) : all_chars is_digit s = true -> before_last_dot s = None.
Proof.
  induction s as [|c s IH]; simpl; [done|]. intros [Hc Hs]%andb_true_iff. rewrite IH by done.
  destruct (Ascii.eqb_spec c dot) as [->|]; done.
Qed.

(** A staged manifest is never taken for a published one. *)
Lemma temp_not_manifest (suffix name : string) :
  all_chars is_digit suffix = true -> "manifest-" +:+ suffix <> name +:+ ".json".
Proof.
  intros Hs H. apply (f_equal before_last_dot) in H.
  rewrite (before_last_dot_app _ ".json" EmptyString) in H by reflexivity.
  simpl in H. by rewrite no_dot_digits in H.
Qed.

(** ** Lemmas: publishing *)

Definition same_except (p : path) (s s' : fs) : Prop := forall q, q <> p -> s' !! q = s !! q.

Lemma same_except_refl (p : path) (s : fs) : same_except p s s.
Proof. done. Qed.

Lemma same_except_insert (p : path) (f : file) (s s' : fs) :
  same_except p s s' -> same_except p s (<[p := f]> s').
Proof. intros H q Hq. rewrite lookup_insert_ne by done. by apply H. Qed.

Lemma same_except_delete (p : path) (s s' : fs) :
  same_except p s s' -> same_except p s (delete p s').
Proof. intros H q Hq. rewrite lookup_delete_ne by done. by apply H. Qed.

(** What one call may do to the file it names. *)
Lemma fs_touches (faults : bool) X (e : fsE X) (p : path) (s0 s : fs) (x : X) (s' : fs) :
  fs_contract faults X e s x s' ->
  (match e with Sync q | Close q | Remove q | Write q _ => q = p | _ => False end) ->
  same_except p s0 s -> same_except p s0 s'.
Proof.
  intros Hc He Hs. destruct e as [| | |q d|q|q| |q| | | |]; try done; subst; simpl in Hc.
  - destruct x; [subst|destruct Hc as [_ [? ->]]]; by apply same_except_insert.
  - destruct x; [destruct Hc as (f & _ & ->)|by destruct Hc as [-> _]].
    by apply same_except_insert.
  - by destruct Hc as [-> _].
  - destruct x; [destruct Hc as (_ & ->)|by destruct Hc as [-> _]].
    by apply same_except_delete.
Qed.

(** What [publish] may leave before the rename: nothing, or a stray temporary
    file. *)
Definition residue (w : dir) (prefix : string) (s s' : fs) : Prop :=
  s' = s \/
  exists suffix, all_chars is_digit suffix = true /\ s !! (w, prefix +:+ suffix) = None /\
    same_except (w, prefix +:+ suffix) s s'.

Lemma residue_scratch (w : dir) (prefix suffix : string) (s s' : fs) :
  all_chars is_digit suffix = true -> s !! (w, prefix +:+ suffix) = None ->
  same_except (w, prefix +:+ suffix) s s' -> residue w prefix s s'.
Proof. right. eauto. Qed.

Lemma same_except_gone (p : path) (s s' : fs) :
  s !! p = None -> s' !! p = None -> same_except p s s' -> s' = s.
Proof.
  intros H1 H2 Hs. apply map_eq. intros q. destruct (decide (q = p)) as [->|]; [congruence|auto].
Qed.

Section publish.
Context (faults : bool) (I : fs -> Prop) (Q : res unit -> fs -> Prop).
Context (w : dir) (prefix suffix : string) (d : data) (final : path) (s : fs).
Let p : path := (w, prefix +:+ suffix).
Hypothesis Hdigits : all_chars is_digit suffix = true.
Hypothesis Hfresh : s !! p = None.
Hypothesis Hfinal : p <> final.
Hypothesis HI : forall s', residue w prefix s s' -> I s'.
Hypothesis HE : forall s' e, faults = true -> residue w prefix s s' -> Q (Err e) s'.
Hypothesis HQ : forall s', s' !! final = Some (mkFile d true) -> same_except final s s' ->
  I s' /\ Q (Ok tt) s'.

Lemma scratch_I (s' : fs) : same_except p s s' -> I s'.
Proof using Hdigits Hfresh HI. intros. by eapply HI, residue_scratch. Qed.

Lemma cleanup_awp (e : error) (s1 : fs) :
  faults = true -> same_except p s s1 ->
  awp (fs_contract faults) I (do! sys (Remove p); Ret (Err e)) Q s1.
Proof using Hdigits Hfresh HI HE.
  intros Hf H1. split; [by apply scratch_I|]. intros x s2 H2.
  pose proof (fs_touches _ _ _ p s _ _ _ H2 eq_refl H1).
  split; [by apply scratch_I|]. by eapply HE, residue_scratch.
Qed.

Lemma abandon_awp (e : error) (s1 : fs) :
  faults = true -> same_except p s s1 ->
  awp (fs_contract faults) I (do! sys (Close p); do! sys (Remove p); Ret (Err e)) Q s1.
Proof using Hdigits Hfresh HI HE.
  intros Hf H1. split; [by apply scratch_I|]. intros x s2 H2.
  apply cleanup_awp; [done|]. by apply (fs_touches _ _ _ p s _ _ _ H2 eq_refl).
Qed.

Lemma rename_awp (s1 : fs) :
  same_except p s s1 -> s1 !! p = Some (mkFile d true) ->
  awp (fs_contract faults) I
    (do r <- sys (Rename p final); do! sys (Remove p);
     Ret (if r then Ok tt else Err (Plain "publish"))) Q s1.
Proof using Hdigits Hfresh HI HE HQ Hfinal.
  intros H1 Hp. split; [by apply scratch_I|]. intros [] s2; cbn [fs_contract].
  - intros (f & Hf & ->). assert (f = mkFile d true) as -> by congruence. clear Hf.
    assert (forall s', s' = <[final:=mkFile d true]> (delete p s1) -> I s' /\ Q (Ok tt) s') as Hs2.
    { intros s' ->. apply HQ; [by rewrite lookup_insert_eq|]. intros q Hq.
      rewrite lookup_insert_ne by done. destruct (decide (q = p)) as [->|].
      - by rewrite lookup_delete_eq.
      - rewrite lookup_delete_ne by done. by apply H1. }
    split; [by apply Hs2|]. intros [] s3; cbn [fs_contract].
    + intros [[f Hf] _]. by rewrite lookup_insert_ne, lookup_delete_eq in Hf.
    + intros [-> _]. by apply Hs2.
  - intros [-> Hf]. destruct Hf as [Hf|]; [|congruence].
    apply cleanup_awp; done.
Qed.

Lemma sync_awp (s1 : fs) :
  same_except p s s1 -> s1 !! p = Some (mkFile d false) ->
  awp (fs_contract faults) I
    (do y <- sys (Sync p);
     if negb y then do! sys (Close p); do! sys (Remove p); Ret (Err (Plain "fsync"))
     else
       do c <- sys (Close p);
       if negb c then do! sys (Remove p); Ret (Err (Plain "close"))
       else
         do r <- sys (Rename p final); do! sys (Remove p);
         Ret (if r then Ok tt else Err (Plain "publish"))) Q s1.
Proof using Hdigits Hfresh HI HE HQ Hfinal.
  intros H1 Hp. split; [by apply scratch_I|]. intros [] s2 H2; cbn [negb].
  - pose proof (fs_touches _ _ _ p s _ _ _ H2 eq_refl H1) as Hs2.
    destruct H2 as (f & Hf & ->). assert (f = mkFile d false) as -> by congruence.
    split; [by apply scratch_I|]. intros [] s3 [-> H3]; cbn [negb].
    + apply rename_awp; [done|]. by rewrite lookup_insert_eq.
    + apply cleanup_awp; [by apply H3|done].
  - destruct H2 as [-> [?|]]; [|congruence]. by apply abandon_awp.
Qed.
End publish.

(** [publish] leaves the final file as it was or whole and synced, after every
    effect: [I] and [Q] need only hold of such states. *)
Lemma publish_awp (faults : bool) (I : fs -> Prop) (Q : res unit -> fs -> Prop)
    (w : dir) (prefix : string) (d : data) (final : path) (s : fs) :
  (forall suffix, all_chars is_digit suffix = true -> (w, prefix +:+ suffix) <> final) ->
  (forall s', residue w prefix s s' -> I s') ->
  (forall s' e, faults = true -> residue w prefix s s' -> Q (Err e) s') ->
  (forall s', s' !! final = Some (mkFile d true) -> same_except final s s' -> I s' /\ Q (Ok tt) s') ->
  awp (fs_contract faults) I (publish w prefix d final) Q s.
Proof.
  intros Hfinal HI HE HQ. assert (residue w prefix s s) as Hrefl by by left.
  split; [by apply HI|]. intros [name|] s1; cbn [fs_contract].
  2:{ intros [? ->]. split; auto. }
  intros [(suffix & Hd & ->) [Hfresh ->]].
  assert (same_except (w, prefix +:+ suffix) s (<[(w, prefix +:+ suffix):=mkFile (Raw []) false]> s))
    as Hs1 by by apply same_except_insert.
  split; [by eapply HI, residue_scratch|]. intros x s2 H2.
  pose proof (fs_touches _ _ _ _ s _ _ _ H2 eq_refl Hs1) as Hs2.
  destruct x; cbn [negb].
  - simpl in H2. subst. eapply sync_awp; eauto. by rewrite lookup_insert_eq.
  - destruct H2 as [? _]. eapply abandon_awp; eauto.
Qed.

(** ** What the store holds *)

Section facts.
Context `{LC : LayerCodec}.
(** The contents that are ever stored: SHA-256 does not collide on them, and
    zstd gives them back. *)
Context (P : bytes -> Prop).
Hypothesis P_inj : forall a b, P a -> P b -> Digest a = Digest b -> a = b.
Hypothesis P_zstd : forall a, P a -> exists b, zstd_encode a = Some b /\ zstd_decode b = Some a.

(** Every published layer is whole, synced and named by its content. *)
Definition layers_ok (s : fs) : Prop :=
  forall name f, s !! layerPath name = Some f ->
    f_synced f = true /\
    exists c, P c /\ Digest c = name /\ f_data f = Raw (compress c).

Definition layers_kept (s s' : fs) : Prop :=
  forall name f, s !! layerPath name = Some f -> s' !! layerPath name = Some f.

(** [s'] differs from [s] by new layers and stray staging files only. *)
Definition grown (s s' : fs) : Prop :=
  layers_ok s' /\ layers_kept s s' /\
  forall q, q.1 <> DLayers -> q.1 <> DStaging -> s' !! q = s !! q.

Definition holds (s : fs) (d : string) (c : bytes) : Prop :=
  exists f b, s !! layerPath d = Some f /\ f_data f = Raw b /\ decompress b = c.

Definition holds_all (s : fs) (ds : list string) (c : bytes) : Prop :=
  exists cs, Forall2 (holds s) ds cs /\ c = mjoin cs.

(** What reading from disk gives back, or an error if calls may fail. *)
Definition answers {A : Type} (faults : bool) (s : fs) (a : A) (r : res A) (s' : fs) : Prop :=
  s' = s /\ (r = Ok a \/ faults = true /\ exists e, r = Err e).

Lemma grown_refl (s : fs) : layers_ok s -> grown s s.
Proof using. intros H. split; [exact H|]. split; [by intros n f|done]. Qed.

Lemma grown_trans (s1 s2 s3 : fs) : grown s1 s2 -> grown s2 s3 -> grown s1 s3.
Proof using.
  intros (_ & K1 & F1) (O2 & K2 & F2). split; [done|]. split.
  - intros n f H. by apply K2, K1.
  - intros q Hl Hs. by rewrite F2, F1.
Qed.

Lemma decompress_compress (c : bytes) : P c -> decompress (compress c) = c.
Proof using P_zstd.
  intros (b & He & Hd)%P_zstd. unfold compress, decompress. by rewrite He; simpl; rewrite Hd.
Qed.

Lemma holds_kept (s s' : fs) (d : string) (c : bytes) :
  layers_kept s s' -> holds s d c -> holds s' d c.
Proof using. intros K (f & b & Hf & ?). exists f, b. split; [by apply K|done]. Qed.

Lemma holds_all_kept (s s' : fs) (ds : list string) (c : bytes) :
  layers_kept s s' -> holds_all s ds c -> holds_all s' ds c.
Proof using.
  intros K (cs & H & ->). exists cs. split; [|done].
  eapply Forall2_impl; [exact H|]. intros d c. by apply holds_kept.
Qed.

Lemma holds_all_nil (s : fs) : holds_all s [] [].
Proof using. by exists []. Qed.

Lemma holds_all_single (s : fs) (d : string) (c : bytes) : holds s d c -> holds_all s [d] c.
Proof using. intros H. exists [c]. split; [by repeat constructor|]. simpl. by rewrite app_nil_r. Qed.

Lemma holds_all_cons (s : fs) (d : string) (ds : list string) (c : bytes) :
  holds_all s (d :: ds) c <-> exists a b, holds s d a /\ holds_all s ds b /\ c = a ++ b.
Proof using.
  split.
  - intros (cs & H & ->). inversion H as [|? a ? cs' Ha Hcs]; subst.
    exists a, (mjoin cs'). repeat split; [done|by exists cs'].
  - intros (a & b & Ha & (cs & Hcs & ->) & ->). exists (a :: cs). by split; [constructor|].
Qed.

Lemma layers_ok_holds (s : fs) (c : bytes) :
  layers_ok s -> P c -> is_Some (s !! layerPath (Digest c)) -> holds s (Digest c) c.
Proof using P_inj P_zstd.
  intros Hok Hc [f Hf]. destruct (Hok _ _ Hf) as [_ (c' & Hc' & Hd & Hdata)].
  exists f, (compress c'). split; [done|]. split; [done|].
  rewrite decompress_compress by done. by apply P_inj.
Qed.

(** ** Layers *)

Lemma residue_grown (prefix : string) (s s' : fs) :
  layers_ok s -> residue DStaging prefix s s' -> grown s s'.
Proof using.
  intros Hok [->|(suffix & _ & _ & Hs)]; [by apply grown_refl|].
  assert (forall q, q.1 <> DStaging -> s' !! q = s !! q) as Hq.
  { intros q Hq. apply Hs. intros ->. by apply Hq. }
  split; [|split].
  - intros n f. rewrite Hq by done. apply Hok.
  - intros n f. by rewrite Hq.
  - intros q _. by apply Hq.
Qed.

Lemma published_grown (c : bytes) (s s' : fs) :
  layers_ok s -> P c -> s !! layerPath (Digest c) = None ->
  s' !! layerPath (Digest c) = Some (mkFile (Raw (compress c)) true) ->
  same_except (layerPath (Digest c)) s s' -> grown s s'.
Proof using.
  intros Hok Hc Hnone Hnew Hs. split; [|split].
  - intros n f Hf. destruct (decide (n = Digest c)) as [->|Hn].
    + assert (f = mkFile (Raw (compress c)) true) as -> by congruence. eauto.
    + apply Hok. rewrite <-Hs; [done|]. unfold layerPath. congruence.
  - intros n f Hf. rewrite Hs; [done|]. unfold layerPath in *. congruence.
  - intros q Hq _. apply Hs. intros ->. by apply Hq.
Qed.

Lemma Put_awp (faults : bool) (c : bytes) (s : fs) :
  layers_ok s -> P c ->
  awp (fs_contract faults) (grown s) (Put c)
    (fun r s' => match r with Ok d => d = Digest c /\ holds s' d c | Err _ => faults = true end) s.
Proof using P_inj P_zstd.
  intros Hok Hc. split; [by apply grown_refl|]. intros x s1 (-> & Hyes & Hno).
  destruct x.
  { split; [by apply grown_refl|]. split; [done|]. apply layers_ok_holds; auto. }
  (* a file that [Stat] fails to see may be there nevertheless *)
  assert (forall s', s' !! layerPath (Digest c) = Some (mkFile (Raw (compress c)) true) ->
    same_except (layerPath (Digest c)) s s' -> grown s s') as Hpub.
  { intros s' Hnew Hs. destruct (s !! layerPath (Digest c)) as [f|] eqn:Hf.
    - destruct (Hok _ _ Hf) as [Hsync (c' & Hc' & Hd & Hdata)].
      assert (c' = c) as -> by by apply P_inj. assert (s' = s) as ->; [|by apply grown_refl].
      apply map_eq. intros q. destruct (decide (q = layerPath (Digest c))) as [->|]; [|by apply Hs].
      rewrite Hnew, Hf. destruct f; simpl in *; by subst.
    - by eapply published_grown. }
  apply (awp_bind _ _ (publish DStaging "layer-" (Raw (compress c)) (layerPath (Digest c)))).
  apply publish_awp.
  - done.
  - intros s'. by apply residue_grown.
  - intros s' e Hf Hs. split; [|done]. by eapply residue_grown.
  - intros s' Hnew Hs. split; [by apply Hpub|]. split; [by apply Hpub|]. split; [done|].
    eexists _, _. split; [exact Hnew|]. split; [done|]. by apply decompress_compress.
Qed.

Lemma Get_awp (faults : bool) (I : fs -> Prop) (d : string) (c : bytes) (s : fs) :
  I s -> holds s d c -> awp (fs_contract faults) I (Get d) (answers faults s c) s.
Proof using.
  intros HI (f & b & Hf & Hb & <-). split; [done|].
  intros x s' [-> Hx]. split; [done|]. split; [done|].
  destruct x as [dt|].
  - destruct Hx as (f' & Hf' & <-). assert (f' = f) as -> by congruence. rewrite Hb. by left.
  - destruct Hx as [|]; [|congruence]. right. eauto.
Qed.

Lemma Assemble_from_awp (faults : bool) (I : fs -> Prop) (ds : list string) (out c : bytes) (s : fs) :
  I s -> holds_all s ds c ->
  awp (fs_contract faults) I (Assemble_from ds out) (answers faults s (out ++ c)) s.
Proof using.
  intros HI. revert out c. induction ds as [|d ds IH]; intros out c.
  - intros (cs & H%Forall2_nil_inv_l & ->). subst. simpl. rewrite app_nil_r.
    split; [done|]. split; [done|by left].
  - intros (a & b & Ha & Hb & ->)%holds_all_cons. apply awp_bind.
    eapply awp_mono; [|by apply (Get_awp faults I d a)].
    intros r s' _ [-> [->|[Hf [e ->]]]].
    + rewrite app_assoc. by apply IH.
    + split; [done|]. split; [done|]. right. eauto.
Qed.

(** ** Chunks *)

Lemma chunks_concat (fuel size : nat) (content : bytes) :
  0 < size -> length content <= fuel -> mjoin (chunks fuel size content) = content.
Proof using.
  intros Hsize. revert content. induction fuel as [|fuel IH]; intros [|x content] Hlen;
    [done|simpl in Hlen; lia|done|].
  cbn [chunks mjoin list_join]. fold (mjoin (M := list) (A := byte)).
  rewrite IH; [apply take_drop|]. rewrite length_drop. simpl in *. lia.
Qed.

Lemma chunk_size_pos (n : Z) : 0 < chunk_size n.
Proof using. unfold chunk_size. case_match; lia. Qed.

(** The layers [PutChunks] makes. *)
Definition pieces (content : bytes) (n : Z) : list bytes :=
  match content with [] => [[]] | _ => chunks (length content) (chunk_size n) content end.

Lemma pieces_concat (content : bytes) (n : Z) : mjoin (pieces content n) = content.
Proof using.
  unfold pieces. destruct content as [|x content]; [done|].
  apply chunks_concat; [apply chunk_size_pos|done].
Qed.

Lemma put_all_awp (faults : bool) (l : list bytes) (acc : list string) (c : bytes) (s0 s : fs) :
  grown s0 s -> Forall P l -> holds_all s acc c ->
  awp (fs_contract faults) (grown s0) (put_all l acc)
    (fun r s' => match r with
                 | Ok ds => ds = acc ++ (Digest <$> l) /\ holds_all s' ds (c ++ mjoin l)
                 | Err _ => faults = true
                 end) s.
Proof using P_inj P_zstd.
  intros Hg HP. revert acc c s Hg. induction HP as [|a l Ha _ IH]; intros acc c s Hg Hacc.
  - split; [done|]. cbn [fmap list_fmap mjoin list_join]. rewrite !app_nil_r. by split.
  - apply awp_bind. eapply awp_inv_mono; [intros s'; by apply grown_trans|].
    eapply awp_mono; [|apply Put_awp; [apply Hg|done]].
    intros [d|e] s' Hs'; [|intros ->; split; [by eapply grown_trans|done]].
    intros [-> Hd]. cbn [put_all].
    eapply awp_mono; [|apply (IH _ (c ++ a)); [by eapply grown_trans|]].
    + intros [ds|e] s'' _; [|done]. intros [-> Hds]. cbn [fmap list_fmap mjoin list_join].
      rewrite <-!app_assoc in *. done.
    + destruct Hacc as (cs & Hcs & ->). exists (cs ++ [a]). split.
      * apply Forall2_app; [|by repeat constructor].
        eapply Forall2_impl; [exact Hcs|]. intros x y. apply holds_kept, Hs'.
      * rewrite join_app. simpl. by rewrite app_nil_r.
Qed.

Lemma PutChunks_awp (faults : bool) (content : bytes) (n : Z) (s : fs) :
  layers_ok s -> Forall P (pieces content n) ->
  awp (fs_contract faults) (grown s) (PutChunks content n)
    (fun r s' => match r with
                 | Ok ds => ds = Digest <$> pieces content n /\ holds_all s' ds content
                 | Err _ => faults = true
                 end) s.
Proof using P_inj P_zstd.
  intros Hok HP. pose proof (pieces_concat content n) as Hcat.
  unfold PutChunks, pieces in *. destruct content as [|x content].
  - apply Forall_cons in HP as [HP _]. cbn [chunks put_all length].
    apply (awp_bind _ _ (Put [])). eapply awp_mono; [|by apply Put_awp].
    intros [d|e] s' Hs'; [|done]. intros [-> Hd]. split; [done|]. split; [done|].
    by apply holds_all_single.
  - apply awp_bind. eapply awp_mono; [|apply (put_all_awp faults _ [] []);
      [by apply grown_refl|exact HP|apply holds_all_nil]].
    intros [ds|e] s' Hs'; [|done]. intros [-> Hds]. split; [done|]. split; [done|].
    rewrite Hcat in Hds. exact Hds.
Qed.

(** ** Snapshots: the abstract state *)

(** The snapshot [name] is on disk and its layers give [content]. *)
Definition snapshot (s : fs) (name : string) (content : bytes) : Prop :=
  exists f m, s !! manifestPath name = Some f /\ f_data f = Json m /\
    Layers m <> [] /\ holds_all s (Layers m) content.

(** The store, seen as a map from names to contents. *)
Definition represents (s : fs) (σ : gmap string bytes) : Prop :=
  layers_ok s /\ forall name content, σ !! name = Some content -> snapshot s name content.

Lemma manifestPath_inj (a b : string) : manifestPath a = manifestPath b -> a = b.
Proof using. unfold manifestPath. intros [= H]. by eapply append_inj_r. Qed.

Lemma snapshot_kept (s s' : fs) (name : string) (content : bytes) :
  layers_kept s s' -> s' !! manifestPath name = s !! manifestPath name ->
  snapshot s name content -> snapshot s' name content.
Proof using.
  intros K H (f & m & Hf & Hm & Hne & Hh). exists f, m. rewrite H.
  split; [done|]. split; [done|]. split; [done|]. by eapply holds_all_kept.
Qed.

Lemma represents_grown (s s' : fs) (σ : gmap string bytes) :
  grown s s' -> represents s σ -> represents s' σ.
Proof using.
  intros (Hok & K & F) [_ Hσ]. split; [done|]. intros n c Hn%Hσ.
  apply (snapshot_kept s); [done|by apply F|done].
Qed.

(** Saving [content] as [name] leaves the old map or the new one. *)
Definition saving (σ : gmap string bytes) (name : string) (content : bytes) (s : fs) : Prop :=
  represents s σ \/ represents s (<[name := content]> σ).

Lemma manifest_residue (s s' : fs) (σ : gmap string bytes) :
  represents s σ -> residue DManifests "manifest-" s s' -> represents s' σ.
Proof using.
  intros Hr [->|(suffix & Hd & _ & Hs)]; [done|]. destruct Hr as [Hok Hσ].
  assert (forall n, s' !! layerPath n = s !! layerPath n) as Hl by (intros n; by apply Hs).
  split; [by intros n f; rewrite Hl; apply Hok|].
  intros n c Hn%Hσ. apply (snapshot_kept s); [by intros n' f; rewrite Hl| |done].
  apply Hs. unfold manifestPath. intros [= H]. by eapply temp_not_manifest.
Qed.

Lemma manifest_published (s s' : fs) (σ : gmap string bytes) (name : string) (content : bytes)
    (m : Manifest) :
  represents s σ -> Layers m <> [] -> holds_all s (Layers m) content ->
  s' !! manifestPath name = Some (mkFile (Json m) true) ->
  same_except (manifestPath name) s s' ->
  represents s' (<[name := content]> σ).
Proof using.
  intros [Hok Hσ] Hne Hh Hnew Hs.
  assert (forall n, s' !! layerPath n = s !! layerPath n) as Hl by (intros n; by apply Hs).
  assert (layers_kept s s') as K by by intros n f; rewrite Hl.
  split; [by intros n f; rewrite Hl; apply Hok|].
  intros n c. rewrite lookup_insert_Some. intros [[<- <-]|[Hn Hc%Hσ]].
  - exists (mkFile (Json m) true), m. split; [done|]. split; [done|]. split; [done|].
    by eapply holds_all_kept.
  - apply (snapshot_kept s); [done| |done]. apply Hs. by intros ?%manifestPath_inj.
Qed.

Lemma squash_awp (faults : bool) (ds : list string) (content : bytes) (s : fs) :
  layers_ok s -> P content -> holds_all s ds content ->
  awp (fs_contract faults) (grown s) (squash ds)
    (fun r s' => match r with
                 | Ok d => d = Digest content /\ holds s' d content
                 | Err _ => faults = true
                 end) s.
Proof using P_inj P_zstd.
  intros Hok HP Hh. apply awp_bind.
  eapply awp_mono; [|by apply (Assemble_from_awp faults (grown s) ds []); [apply grown_refl|exact Hh]].
  intros r s' Hg [-> [->|[Hf [e ->]]]].
  - by apply Put_awp.
  - split; [done|done].
Qed.

Lemma SaveManifest_awp (faults : bool) (name : string) (ds : list string) (content : bytes)
    (s : fs) (σ : gmap string bytes) :
  represents s σ -> P content -> ds <> [] -> holds_all s ds content ->
  awp (fs_contract faults) (saving σ name content) (SaveManifest name ds)
    (fun r s' => match r with
                 | Ok _ => represents s' (<[name := content]> σ)
                 | Err _ => faults = true /\ represents s' σ
                 end) s.
Proof using P_inj P_zstd.
  intros Hr HP Hne Hh. apply awp_bind.
  eapply (awp_mono _ _ _ (fun r s' => represents s' σ /\
    match r with
    | Ok ds' => ds' <> [] /\ holds_all s' ds' content
    | Err _ => faults = true
    end)).
  - intros [ds'|e] s' _ [Hs' Hr']; [|split; [by left|by split]].
    destruct Hr' as [Hne' Hh']. apply publish_awp.
    + intros suffix Hd. unfold manifestPath. intros [= H]. by eapply temp_not_manifest.
    + intros s'' Hs''. left. by eapply manifest_residue.
    + intros s'' e Hf Hs''. split; [done|]. by eapply manifest_residue.
    + intros s'' Hnew Hs''.
      assert (represents s'' (<[name:=content]> σ)) 
        by by apply (manifest_published s' _ _ _ _ (mkManifest ManifestVersion ds')).
      split; [by right|done].
  - destruct (decide _) as [_|_].
    + apply awp_bind. eapply awp_inv_mono; [intros s' Hg; left; by eapply represents_grown|].
      eapply awp_mono; [|apply squash_awp; [apply Hr|done|done]].
      intros [d|e] s' Hs'; (assert (represents s' σ) as Hr' by by eapply represents_grown).
      * intros [-> Hd]. split; [by left|]. split; [done|]. split; [done|]. by apply holds_all_single.
      * intros ->. split; [by left|]. by split.
    + split; [by left|]. by split.
Qed.

Lemma LoadManifest_awp (faults : bool) (I : fs -> Prop) (name : string) (f : file) (m : Manifest)
    (s : fs) :
  I s -> s !! manifestPath name = Some f -> f_data f = Json m ->
  awp (fs_contract faults) I (LoadManifest name) (answers faults s m) s.
Proof using.
  intros HI Hf Hm. split; [done|]. intros x s' [-> Hx]. split; [done|]. split; [done|].
  destruct x as [d|].
  - destruct Hx as (f' & Hf' & <-). assert (f' = f) as -> by congruence. rewrite Hm. by left.
  - destruct Hx as [|]; [|congruence]. right. eauto.
Qed.

(** ** Collection *)

(** A saved manifest refers to the layer [d]. *)
Definition leased (s : fs) (d : string) : Prop :=
  exists name f m, s !! manifestPath name = Some f /\ f_data f = Json m /\ d ∈ Layers m.

(** [s'] is [s] less some layers that [keep] does not hold for. *)
Definition swept (keep : string -> Prop) (s s' : fs) : Prop :=
  forall q, s' !! q = s !! q \/ s' !! q = None /\ exists d, q = layerPath d /\ ~ keep d.

Lemma swept_refl (keep : string -> Prop) (s : fs) : swept keep s s.
Proof using. by left. Qed.

Lemma swept_other (keep : string -> Prop) (s s' : fs) (q : path) :
  swept keep s s' -> (forall d, q = layerPath d -> keep d) -> s' !! q = s !! q.
Proof using. intros H Hq. destruct (H q) as [?|(_ & d & -> & Hd)]; [done|]. by destruct Hd; apply Hq. Qed.

Lemma swept_represents (s s' : fs) (σ : gmap string bytes) :
  swept (leased s) s s' -> represents s σ -> represents s' σ.
Proof using.
  intros Hs [Hok Hσ]. split.
  - intros n f Hf. destruct (Hs (layerPath n)) as [He|[He _]]; [|congruence].
    apply Hok. congruence.
  - intros n c (f & m & Hf & Hm & Hne & cs & Hcs & ->)%Hσ. exists f, m.
    assert (s' !! manifestPath n = s !! manifestPath n) as -> by (by apply (swept_other _ _ _ _ Hs)).
    split; [done|]. split; [done|]. split; [done|]. exists cs. split; [|done].
    apply (Forall2_impl (fun d c => d ∈ Layers m /\ holds s d c)).
    + apply Forall2_same_length_lookup. split; [by eapply Forall2_length|].
      intros i d c Hd Hc. split; [by eapply list_elem_of_lookup_2|].
      by eapply (Forall2_lookup_lr (holds s)).
    + intros d c [Hd (g & b & Hg & ?)]. exists g, b. split; [|done].
      rewrite <-Hg. apply (swept_other _ _ _ _ Hs). intros d' [= <-]. by exists n, f, m.
Qed.

Lemma elem_of_ListManifests (s : fs) (names : list string) (name : string) (f : file) :
  names ≡ₚ names_in DManifests s -> s !! manifestPath name = Some f ->
  name ∈ sort_strings (trimExt <$> names).
Proof using.
  intros Hn Hf. rewrite sort_strings_perm, Hn.
  apply list_elem_of_fmap. exists (name +:+ ".json"). split; [by rewrite trimExt_json|].
  apply elem_of_names_in. by exists f.
Qed.

Definition leased_by (s : fs) (n : string) (d : string) : Prop :=
  exists f m, s !! manifestPath n = Some f /\ f_data f = Json m /\ d ∈ Layers m.

(** With every call served, [collect] finds the layers of the named manifests. *)
Lemma collect_wp (names : list string) (acc : list string) (s : fs) :
  wp (fs_contract false) (collect names acc)
    (fun o s' => s' = s /\ exists l, o = Done l /\
       forall d, d ∈ l <-> d ∈ acc \/ exists n, n ∈ names /\ leased_by s n d) s.
Proof using.
  revert acc. induction names as [|n names IH]; intros acc.
  - split; [done|]. exists acc. split; [done|]. intros d. split; [by left|].
    intros [?|(n & Hn & _)]; [done|]. by apply elem_of_nil in Hn.
  - apply wp_bind, wp_bind. intros x s1 [-> Hx]. cbn [wp].
    eapply wp_mono; [|apply IH]. intros o s2 [-> (l & -> & Hl)].
    split; [done|]. exists l. split; [done|]. intros d. rewrite Hl.
    assert (d ∈ match match x with Some (Json m) => Ok m | _ => Err (Plain "manifest") end with
                | Ok m => acc ++ Layers m | Err _ => acc end
            <-> d ∈ acc \/ leased_by s n d) as ->.
    { destruct x as [dt|].
      - destruct Hx as (f & Hf & <-). destruct (f_data f) as [b|m] eqn:Hd.
        + split; [by left|]. intros [?|(f' & m & ? & ? & _)]; [done|congruence].
        + rewrite elem_of_app. split; [intros [?|?]; [by left|right; by exists f, m]|].
          intros [?|(f' & m' & ? & ? & ?)]; [by left|right].
          by assert (m' = m) as -> by congruence.
      - destruct Hx as [|Hx]; [done|]. split; [by left|].
        intros [?|(f' & m & ? & _)]; [done|congruence]. }
    split.
    + intros [[?|?]|(n' & ? & ?)]; [by left| |].
      * right. exists n. split; [apply elem_of_cons; by left|done].
      * right. exists n'. split; [apply elem_of_cons; by right|done].
    + intros [?|(n' & [->|Hn]%elem_of_cons & ?)]; [by left; left|by left; right|].
      right. by exists n'.
Qed.

Lemma referencedLayers_wp (s : fs) :
  wp (fs_contract false) referencedLayers
    (fun o s' => s' = s /\ exists l, o = Done l /\ forall d, d ∈ l <-> leased s d) s.
Proof using.
  apply wp_bind, wp_bind. intros [names|] s1 [-> Hx]; [|done].
  simpl. eapply wp_mono; [|apply collect_wp].
  intros o s2 [-> (l & -> & Hl)]. split; [done|]. exists l. split; [done|].
  intros d. rewrite Hl. split.
  - intros [H|(n & _ & f & m & ?)]; [by apply elem_of_nil in H|]. by exists n, f, m.
  - intros (n & f & m & Hf & ?). right. exists n. split; [by eapply elem_of_ListManifests|].
    by exists f, m.
Qed.

(** [sweep] removes layers that are not referenced; with every call served it
    leaves none of those it was given. *)
Lemma sweep_wp (referenced entries : list string) (removed : Z) (s : fs) :
  wp (fs_contract false) (sweep referenced entries removed)
    (fun o s' => (exists n, o = Done (Ok n)) /\ swept (fun d => d ∈ referenced) s s' /\
       forall d, d ∈ entries -> d ∉ referenced -> s' !! layerPath d = None) s.
Proof using.
  revert removed s. induction entries as [|n entries IH]; intros removed s.
  - split; [by eexists|]. split; [apply swept_refl|]. by intros d ?%elem_of_nil.
  - cbn [sweep]. destruct (decide (n ∈ referenced)) as [Hin|Hn].
    { eapply wp_mono; [|apply IH]. intros o s' (? & ? & H). split; [done|]. split; [done|].
      intros d [->|?]%elem_of_cons ?; [done|auto]. }
    apply wp_bind.
    eapply (wp_mono _ _ (fun o s' => o <> Panicked /\ s' = delete (layerPath n) s)).
    + intros [r|] s1 [Hp ->]; [|done]. eapply wp_mono; [|apply IH].
      intros o s' (Hok & Hs & Hgone). split; [done|]. split.
      * intros q. destruct (Hs q) as [->|?]; [|by right].
        destruct (decide (q = layerPath n)) as [->|Hq].
        -- right. rewrite lookup_delete_eq. split; [done|]. by exists n.
        -- left. by rewrite lookup_delete_ne.
      * intros d [->|Hd]%elem_of_cons Hr; [|by apply Hgone].
        destruct (Hs (layerPath n)) as [->|[-> _]]; [apply lookup_delete_eq|done].
    + apply wp_bind. intros [z|] s1 [-> Hx]; cbn [wp].
      * apply wp_bind. intros [] s2 Hr; cbn [wp]; (split; [done|]).
        -- by destruct Hr as [_ ->].
        -- destruct Hr as [-> [|Hr]]; [done|]. by rewrite delete_id.
      * split; [done|]. destruct (Hx eq_refl) as [|Hr]; [done|]. by rewrite delete_id.
Qed.

Lemma GC_wp (s : fs) :
  wp (fs_contract false) GC
    (fun o s' => (exists n, o = Done (Ok n)) /\ swept (leased s) s s' /\
       forall d, ~ leased s d -> s' !! layerPath d = None) s.
Proof using.
  apply wp_bind. eapply wp_mono; [|apply referencedLayers_wp].
  intros o s1 [-> (l & -> & Hl)]. apply wp_bind. intros [entries|] s2 [-> He]; [|done].
  cbn [wp]. eapply wp_mono; [|apply sweep_wp]. intros o s' (Hok & Hs & Hgone).
  split; [done|]. split.
  - intros q. destruct (Hs q) as [?|(Hq & d & -> & Hd)]; [by left|]. right. split; [done|].
    exists d. by rewrite <-Hl.
  - intros d Hd. destruct (s !! layerPath d) as [f|] eqn:Hf.
    + apply Hgone; [|by rewrite Hl]. rewrite He. apply elem_of_names_in. by exists f.
    + destruct (Hs (layerPath d)) as [->|[? _]]; done.
Qed.

Lemma leased_or_not (s : fs) (d : string) : leased s d \/ ~ leased s d.
Proof using.
  pose proof (wp_sound _ live_fs (fun s => s) _ _ s (live_fs_ok false) (referencedLayers_wp s))
    as (_ & l & _ & Hl).
  rewrite <-Hl. destruct (decide (d ∈ l)); [by left|by right].
Qed.

(** ** Power loss *)

Lemma power_loss_ok (s s' : fs) : layers_ok s -> power_loss s s' -> layers_ok s'.
Proof using.
  intros Hok Hl n f' Hf'. destruct (Hl _ _ Hf') as (f & Hf & Hsync).
  destruct (Hok _ _ Hf) as [Hy Hd]. by rewrite (Hsync Hy).
Qed.

End facts.

(** Wherever a [Put] is cut short, by the death of the process or by a
    loss of power that drops files and garbles unsynced ones, and whatever
    calls fail or write torn data: every layer under its final name is whole
    and named by its content, and every earlier layer is still there. *)
Theorem put_crash_safe `{LC : LayerCodec} (P : bytes -> Prop) (S : Type) (h : handler fsE S)
    (view : S -> fs) (c : bytes) (s : S) (n : nat) (lost : fs)
    (P_inj : forall a b, P a -> P b -> Digest a = Digest b -> a = b)
    (P_zstd : forall a, P a -> exists b, zstd_encode a = Some b /\ zstd_decode b = Some a)
    (Hh : respects h view (fs_contract true))
    (Hok : layers_ok P (view s)) (Hc : P c)
    (Hlost : power_loss (view (run_upto h n (Put c) s)) lost) :
  layers_ok P lost /\ layers_kept (view s) (view (run_upto h n (Put c) s)).
Proof.
  pose proof (awp_crash _ _ h view _ _ n s Hh (Put_awp P P_inj P_zstd true c _ Hok Hc))
    as (Hok' & Hk & _).
  split; [by eapply power_loss_ok|done].
Qed.

(** With every call served, [GC] keeps exactly the layers that some saved
    manifest refers to, and touches nothing else. *)
Theorem gc_exact `{LC : LayerCodec} (s : fs) :
  wp (fs_contract false) GC
    (fun o s' => (exists n, o = Done (Ok n)) /\
       (forall d, leased s d -> s' !! layerPath d = s !! layerPath d) /\
       (forall d, ~ leased s d -> s' !! layerPath d = None) /\
       (forall q, q.1 <> DLayers -> s' !! q = s !! q)) s.
Proof.
  eapply wp_mono; [|apply GC_wp]. intros o s' (Hok & Hs & Hgone).
  split; [done|]. split; [|split; [done|]].
  - intros d Hd. apply (swept_other _ _ _ _ Hs). by intros d' [= <-].
  - intros q Hq. apply (swept_other _ _ _ _ Hs). intros d ->. by destruct Hq.
Qed.

(** The file system in which the manifest directory cannot be read. *)
Definition blind_fs : handler fsE fs :=
  fun X e s =>
    match e in fsE X return X * fs -> X * fs with
    | ReadDir DManifests => fun _ => (None, s)
    | _ => fun r => r
    end (live_fs X e s).

Lemma blind_fs_ok : respects blind_fs (fun s => s) (fs_contract true).
Proof.
  intros X e s. pose proof (live_fs_ok true X e s) as H.
  destruct e as [| | | | | | | | | |[]|]; try exact H. done.
Qed.

Lemma blind_sweep `{LC : LayerCodec} (referenced entries : list string) (removed : Z) (s : fs) :
  run blind_fs (sweep referenced entries removed) s =
  run live_fs (sweep referenced entries removed) s.
Proof.
  revert removed s. induction entries as [|n entries IH]; intros removed s; [done|].
  cbn [sweep]. destruct (decide _) as [_|_]; [apply IH|]. rewrite !run_bind.
  assert (run blind_fs (removeLayer n) s = run live_fs (removeLayer n) s) as ->.
  { unfold removeLayer. rewrite !run_bind. cbn.
    destruct (s !! layerPath n) as [f|] eqn:Hf; cbn; [|done]. by rewrite !run_bind; cbn; rewrite Hf. }
  destruct (run live_fs (removeLayer n) s) as [[r|] s']; [apply IH|done].
Qed.

(** When the manifest directory cannot be read, [GC] takes no layer to be
    leased: it reports success and deletes every layer. *)
Theorem gc_blind `{LC : LayerCodec} (s : fs) :
  exists n s', run blind_fs GC s = (Done (Ok n), s') /\ forall d, s' !! layerPath d = None.
Proof.
  assert (run blind_fs GC s = run blind_fs (sweep [] (names_in DLayers s) 0) s) as ->.
  { unfold GC, referencedLayers, ListManifests. by rewrite !run_bind. }
  rewrite blind_sweep.
  pose proof (wp_sound _ live_fs (fun s => s) _ _ s (live_fs_ok false)
    (sweep_wp [] (names_in DLayers s) 0 s)) as ([n Hn] & Hs & Hgone).
  destruct (run live_fs _ s) as [o s']. simpl in *. exists n, s'. split; [by rewrite Hn|].
  intros d. destruct (s !! layerPath d) as [f|] eqn:Hf.
  - apply Hgone; [apply elem_of_names_in; by exists f|apply not_elem_of_nil].
  - destruct (Hs (layerPath d)) as [->|[? _]]; done.
Qed.

(** ** A concrete codec *)

(** Compression that only marks what it has compressed. *)
#[export] Instance marking_codec : LayerCodec := {
  zstd_encode := fun c => Some (x28 :: c);
  zstd_decode := fun b => match b with x28 :: c => Some c | _ => None end;
}.

Lemma marking_zstd (a : bytes) : exists b, zstd_encode a = Some b /\ zstd_decode b = Some a.
Proof. by exists (x28 :: a). Qed.

Definition words_of (l : list bytes) (a : bytes) : Prop := a ∈ l.

(** Distinct digests, checked by computing them. *)
Lemma words_inj (l : list bytes) :
  bool_decide (NoDup (Digest <$> l)) = true ->
  forall a b, words_of l a -> words_of l b -> Digest a = Digest b -> a = b.
Proof.
  intros Hnd%bool_decide_eq_true a b Ha%list_elem_of_lookup Hb%list_elem_of_lookup Hab.
  destruct Ha as [i Ha], Hb as [j Hb].
  assert (i = j) as ->; [|congruence].
  apply (NoDup_lookup _ i j (Digest a) Hnd).
  - by rewrite list_lookup_fmap, Ha.
  - rewrite list_lookup_fmap, Hb. simpl. congruence.
Qed.

(** Power fails after five of the effects of a first [Put]: the staged file is
    lost, and no layer is. *)
Lemma put_crash_safe_witness :
  layers_ok (words_of [[x61]]) ∅ /\
  layers_ok (words_of [[x61]]) (run_upto live_fs 5 (Put [x61]) ∅) /\
  layers_kept ∅ (run_upto live_fs 5 (Put [x61]) ∅).
Proof.
  assert (layers_ok (words_of [[x61]]) ∅) as Hok by (intros n f H; by rewrite lookup_empty in H).
  split; [exact Hok|].
  apply (put_crash_safe (words_of [[x61]]) fs live_fs (fun s => s) [x61] ∅ 5
    (run_upto live_fs 5 (Put [x61]) ∅)).
  - apply words_inj. vm_compute. reflexivity.
  - intros a _. apply marking_zstd.
  - apply live_fs_ok.
  - exact Hok.
  - by apply list_elem_of_singleton.
  - intros p f' Hf. by exists f'.
Defined.
