(* ===== verification/Snapshot.v ===== *)
(** * Workspace snapshots

    The part of [pkg/sandboxcli/snapshot.go] that keeps snapshots on disk: the
    payload is cut into layers and leased by a manifest ([storeSnapshotLayer]),
    read back ([readSnapshotPayload]), and deleted with a garbage collection.
    Specification: the store is a map from names to contents
    ([LayerStore.represents]). *)
From S2P Require Import Prelude Prog Sha256 LayerStore.
From Stdlib Require Import Strings.Byte.

#[local] Open Scope nat_scope.

Section snapshot.
Context `{LC : LayerCodec}.

Definition snapshotChunkSize : Z := 4 * 1024 * 1024.

Definition snapshotTarPath (name : string) : path := (DSnapshots, name).

Definition storeSnapshotLayer (name : string) (content : bytes) : prog fsE (res unit) :=
  try _ <- New;
  try layers <- PutChunks content snapshotChunkSize;
  SaveManifest name layers.

(** The legacy archive, for snapshots without a manifest. *)
Definition readTar (name : string) : prog fsE (res bytes) :=
  do r <- sys (ReadFile (snapshotTarPath name));
  Ret (match r with Some (Raw b) => Ok b | _ => Err (Plain "read") end).

Definition readSnapshotPayload (name : string) : prog fsE (res bytes) :=
  do store <- New;
  match store with
  | Err _ => readTar name
  | Ok _ =>
      do m <- LoadManifest name;
      match m with
      | Err _ => readTar name
      | Ok m => if decide (0 < length (Layers m)) then Assemble (Layers m) else readTar name
      end
  end.

(** The local steps of [snapshot save]: the archive, then the layers. *)
Definition saveSnapshot (name : string) (content : bytes) : prog fsE (res unit) :=
  do dir <- sys (Mkdir DSnapshots);
  if negb dir then Ret (Err (Plain "create snapshot dir"))
  else
    do tar <- sys (Write (snapshotTarPath name) (Raw content));
    if negb tar then Ret (Err (Plain "write snapshot"))
    else storeSnapshotLayer name content.

(** The numbers [reportIncrementalDelta] prints: all layers, shared, missing. *)
Definition reportIncrementalDelta (target base : string) : prog fsE (res (Z * Z * Z)) :=
  try _ <- New;
  try targetM <- LoadManifest target;
  try baseM <- LoadManifest base;
  let total := Z.of_nat (length (Layers targetM)) in
  let missing := Z.of_nat (length (Delta baseM targetM)) in
  Ret (Ok (total, (total - missing)%Z, missing)).

(** [snapshot delete]: the archive, the manifest, and a collection. *)
Definition deleteSnapshot (name : string) : prog fsE (res unit) :=
  do r <- sys (RemoveAll (snapshotTarPath name));
  if negb r then Ret (Err (Plain "delete snapshot"))
  else
    do store <- New;
    match store with
    | Err _ => Ret (Ok tt)
    | Ok _ =>
        do! DeleteManifest name;
        do! GC;
        Ret (Ok tt)
    end.

(** ** The registry RPCs of the gateway

    [enabled]: a layer store is configured. *)

Definition requireLayerStore (enabled : bool) : res unit :=
  if enabled then Ok tt else Err (Status FailedPrecondition).

Definition SnapshotPut (enabled : bool) (name : string) (layers : list string)
    : prog fsE (res (string * Z)) :=
  match requireLayerStore enabled with
  | Err e => Ret (Err e)
  | Ok _ =>
      if decide (name = "" \/ layers = []) then Ret (Err (Status InvalidArgument))
      else
        do r <- SaveManifest name layers;
        Ret (match r with
             | Err _ => Err (Status Internal)
             | Ok _ => Ok (name, Z.of_nat (length layers))
             end)
  end.

Definition SnapshotGet (enabled : bool) (name : string) : prog fsE (res (string * list string)) :=
  match requireLayerStore enabled with
  | Err e => Ret (Err e)
  | Ok _ =>
      do m <- LoadManifest name;
      Ret (match m with Err _ => Err (Status NotFound) | Ok m => Ok (name, Layers m) end)
  end.

Definition SnapshotList (enabled : bool) : prog fsE (res (list string)) :=
  match requireLayerStore enabled with
  | Err e => Ret (Err e)
  | Ok _ =>
      do names <- ListManifests;
      Ret (match names with Err _ => Err (Status Internal) | Ok l => Ok l end)
  end.

End snapshot.

(** ** Lemmas *)

Section lemmas.
Context `{LC : LayerCodec}.
Context (P : bytes -> Prop).
Hypothesis P_inj : forall a b, P a -> P b -> Digest a = Digest b -> a = b.
Hypothesis P_zstd : forall a, P a -> exists b, zstd_encode a = Some b /\ zstd_decode b = Some a.

Lemma New_awp (faults : bool) (I : fs -> Prop) (s : fs) :
  I s ->
  awp (fs_contract faults) I New (fun r s' => s' = s /\ (r = Ok tt \/ faults = true /\ exists e, r = Err e)) s.
Proof using.
  intros HI. unfold New. generalize [DLayers; DStaging; DManifests]. intros l.
  induction l as [|d l IH].
  - split; [done|]. split; [done|by left].
  - split; [done|]. intros [] s' [-> Hx]; [apply IH|].
    split; [done|]. split; [done|]. right. eauto.
Qed.

Lemma storeSnapshotLayer_awp (faults : bool) (name : string) (content : bytes) (s : fs)
    (σ : gmap string bytes) :
  represents P s σ -> P content -> Forall P (pieces content snapshotChunkSize) ->
  awp (fs_contract faults) (saving P σ name content) (storeSnapshotLayer name content)
    (fun r s' => match r with
                 | Ok _ => represents P s' (<[name := content]> σ)
                 | Err _ => faults = true /\ represents P s' σ
                 end) s.
Proof using P_inj P_zstd.
  intros Hr HP Hpieces. apply awp_bind.
  eapply awp_mono; [|apply New_awp; by left].
  intros r s' _ [-> [->|[Hf [e ->]]]]; [|by split; [left|split]].
  apply awp_bind. eapply awp_inv_mono; [intros s' Hg; left; by eapply represents_grown|].
  eapply awp_mono; [|apply PutChunks_awp; [done|done|apply Hr|exact Hpieces]].
  intros [ds|e] s' Hg; (assert (represents P s' σ) as Hr' by by eapply represents_grown).
  - intros [-> Hh]. apply SaveManifest_awp; try done.
    unfold pieces. by destruct content.
  - intros Hf. split; [by left|by split].
Qed.

Lemma readSnapshotPayload_awp (I : fs -> Prop) (name : string) (content : bytes) (s : fs) :
  I s -> snapshot s name content ->
  awp (fs_contract false) I (readSnapshotPayload name) (fun r s' => s' = s /\ r = Ok content) s.
Proof using.
  intros HI (f & m & Hf & Hm & Hne & Hh). apply awp_bind.
  eapply awp_mono; [|by apply New_awp]. intros r s' _ [-> [->|[? _]]]; [|done].
  apply awp_bind. eapply awp_mono; [|by eapply LoadManifest_awp].
  intros r s' _ [-> [->|[? _]]]; [|done].
  rewrite decide_True by (destruct (Layers m); [done|simpl; lia]).
  eapply awp_mono; [|by apply (Assemble_from_awp false I (Layers m) [])].
  intros r s' _ [-> [->|[? _]]]; [|done]. done.
Qed.

Lemma pieces_small (content : bytes) (n : Z) :
  content <> [] -> length content <= chunk_size n -> pieces content n = [content].
Proof using.
  intros Hne Hlen. unfold pieces. destruct content as [|x content]; [done|].
  cbn [length chunks]. rewrite take_ge by done. rewrite drop_ge by done.
  by destruct (length content).
Qed.

Lemma represents_delete (s : fs) (σ : gmap string bytes) (name : string) :
  represents P s σ -> represents P (delete (manifestPath name) s) (delete name σ).
Proof using.
  intros [Hok Hσ]. split.
  - intros n f. rewrite lookup_delete_ne by done. apply Hok.
  - intros n c. rewrite lookup_delete_Some. intros [Hn Hc%Hσ].
    apply (snapshot_kept s); [| |done].
    + intros n' f. by rewrite lookup_delete_ne.
    + rewrite lookup_delete_ne; [done|]. by intros ?%manifestPath_inj.
Qed.

Lemma represents_tar (s s' : fs) (σ : gmap string bytes) (name : string) :
  represents P s σ -> same_except (snapshotTarPath name) s s' -> represents P s' σ.
Proof using.
  intros [Hok Hσ] Hs.
  assert (forall n, s' !! layerPath n = s !! layerPath n) as Hl by (intros n; by apply Hs).
  split; [by intros n f; rewrite Hl; apply Hok|]. intros n c Hc%Hσ.
  apply (snapshot_kept s); [by intros n' f; rewrite Hl| |done]. by apply Hs.
Qed.

End lemmas.

(** ** Theorems *)

Section theorems.
Context `{LC : LayerCodec}.
Context (P : bytes -> Prop).
Hypothesis P_inj : forall a b, P a -> P b -> Digest a = Digest b -> a = b.
Hypothesis P_zstd : forall a, P a -> exists b, zstd_encode a = Some b /\ zstd_decode b = Some a.

Lemma saveSnapshot_awp (faults : bool) (name : string) (content : bytes) (s : fs)
    (σ : gmap string bytes) :
  represents P s σ -> P content -> Forall P (pieces content snapshotChunkSize) ->
  awp (fs_contract faults) (saving P σ name content) (saveSnapshot name content)
    (fun r s' => match r with
                 | Ok _ => represents P s' (<[name := content]> σ)
                 | Err _ => faults = true /\ represents P s' σ
                 end) s.
Proof using P_inj P_zstd.
  intros Hr HP Hpieces. split; [by left|]. intros [] s1 [-> Hx]; cbn [negb].
  2:{ split; [by left|by split; [apply Hx|]]. }
  split; [by left|]. intros x s2 H2.
  assert (represents P s2 σ) as Hr2.
  { eapply represents_tar; [exact Hr|]. by apply (fs_touches _ _ _ _ _ _ _ _ H2 eq_refl). }
  destruct x; cbn [negb].
  - by apply storeSnapshotLayer_awp.
  - split; [by left|]. split; [apply H2|done].
Qed.

(** C21. [snapshot save] is atomic: wherever the process dies and whatever calls
    fail, the store represents the old map or the map with the new snapshot,
    and it is the new one if success was reported. *)
Theorem snapshot_save_atomic (faults : bool) (name : string) (content : bytes) (s : fs)
    (σ : gmap string bytes)
    (Hr : represents P s σ) (HP : P content)
    (Hpieces : Forall P (pieces content snapshotChunkSize))
    (h : handler fsE fs) (Hh : respects h (fun s => s) (fs_contract faults)) (n : nat) :
  saving P σ name content (run_upto h n (saveSnapshot name content) s) /\
  (forall s', run h (saveSnapshot name content) s = (Done (Ok tt), s') ->
     represents P s' (<[name := content]> σ)) /\
  (faults = false -> fst (run h (saveSnapshot name content) s) = Done (Ok tt)).
Proof using P_inj P_zstd.
  pose proof (saveSnapshot_awp faults name content s σ Hr HP Hpieces) as Hawp.
  split; [by apply (awp_crash _ _ h (fun s => s) _ _ n s Hh Hawp)|].
  destruct (wp_sound _ h (fun s => s) _ _ s Hh (awp_wp _ _ _ _ _ Hawp)) as (_ & r & Ho & HQ).
  destruct (run h _ s) as [o s1]. cbn [fst snd] in *. subst o. split.
  - by intros s' [= -> ->].
  - intros Hf. destruct r as [[]|e]; [done|]. destruct HQ. congruence.
Qed.

(** Reading a saved snapshot gives back exactly the content that was
    saved, however it was cut into layers, shared with other snapshots or
    squashed, and changes nothing. *)
Theorem snapshot_read_back (name : string) (content : bytes) (s : fs) (σ : gmap string bytes)
    (Hr : represents P s σ) (Hname : σ !! name = Some content) :
  wp (fs_contract false) (readSnapshotPayload name)
    (fun o s' => s' = s /\ o = Done (Ok content)) s.
Proof using.
  destruct Hr as [_ Hσ].
  eapply wp_mono; [|eapply awp_wp, (readSnapshotPayload_awp (fun s' => s' = s));
    [done|by apply Hσ]].
  intros o s' [_ (r & -> & -> & ->)]. done.
Qed.

(** Deleting a snapshot keeps every other one readable and collects
    exactly the layers that no other manifest refers to. *)
Theorem snapshot_delete_reclaims (name : string) (s : fs) (σ : gmap string bytes)
    (Hr : represents P s σ) :
  wp (fs_contract false) (deleteSnapshot name)
    (fun o s' => o = Done (Ok tt) /\ represents P s' (delete name σ) /\
       s' !! manifestPath name = None /\
       (forall d, is_Some (s' !! layerPath d) <-> is_Some (s !! layerPath d) /\ leased s' d)) s.
Proof using.
  apply wp_bind. intros [] s1 H1; [|by destruct H1]. simpl in H1. subst s1. cbn [wp negb].
  set (s1 := delete (snapshotTarPath name) s).
  assert (represents P s1 σ) as Hr1 by by eapply represents_tar; [exact Hr|apply same_except_delete].
  assert (forall d, s1 !! layerPath d = s !! layerPath d) as Hl1.
  { intros d. unfold s1. by rewrite lookup_delete_ne. }
  apply wp_bind. eapply wp_mono; [|eapply awp_wp, (New_awp false (fun s' => s' = s1)); done].
  intros o s2 [_ (r & -> & -> & [->|[? _]])]; [|done].
  apply wp_bind, wp_bind. intros x s3 H3. cbn [wp].
  set (s4 := delete (manifestPath name) s1).
  assert (s3 = s4) as -> by (destruct x; [by destruct H3|destruct H3 as [-> [|?]];
    [done|unfold s4; by rewrite delete_id]]).
  apply wp_bind. eapply wp_mono; [|apply GC_wp].
  intros o s' ([n ->] & Hs & Hgone). cbn [wp].
  assert (forall d, leased s' d <-> leased s4 d) as Hleased.
  { intros d. unfold leased. by setoid_rewrite (fun n => swept_other _ _ _ (manifestPath n) Hs
      (fun d' (H : manifestPath n = layerPath d') => False_ind _ ltac:(discriminate H))). }
  split; [done|]. split; [|split].
  - eapply swept_represents; [exact Hs|]. by apply represents_delete.
  - rewrite (swept_other _ _ _ _ Hs) by done. apply lookup_delete_eq.
  - intros d. rewrite Hleased, <-Hl1.
    assert (s4 !! layerPath d = s1 !! layerPath d) as <- by (unfold s4; by rewrite lookup_delete_ne).
    split.
    + intros [f Hf]. destruct (Hs (layerPath d)) as [He|[He _]]; [|congruence].
      split; [exists f; congruence|]. destruct (leased_or_not s4 d) as [|Hd]; [done|].
      by rewrite Hgone in Hf.
    + intros [[f Hf] Hd]. exists f. rewrite (swept_other _ _ _ _ Hs); [done|]. by intros d' [= <-].
Qed.
End theorems.

(** ** Witnesses *)

Definition two_words : list bytes := [[x61]; [x61; x62]].

Lemma two_words_inj : forall a b, words_of two_words a -> words_of two_words b ->
  Digest a = Digest b -> a = b.
Proof. apply words_inj. vm_compute. reflexivity. Qed.

Lemma two_words_zstd : forall a, words_of two_words a ->
  exists b, zstd_encode a = Some b /\ zstd_decode b = Some a.
Proof. intros a _. apply marking_zstd. Qed.

Lemma empty_represents : represents (words_of two_words) ∅ ∅.
Proof.
  split.
  - intros n f H. by rewrite lookup_empty in H.
  - intros n c H. by rewrite lookup_empty in H.
Qed.

Lemma two_words_pieces (a : bytes) :
  words_of two_words a -> Forall (words_of two_words) (pieces a snapshotChunkSize).
Proof.
  intros Ha. rewrite pieces_small; [by apply Forall_singleton| |].
  - unfold words_of, two_words in Ha. intros ->. set_solver.
  - assert (length a <= 2) as Hl.
    { unfold words_of, two_words in Ha. apply elem_of_cons in Ha as [->|Ha]; [simpl; lia|].
      apply list_elem_of_singleton in Ha as ->. done. }
    unfold chunk_size, snapshotChunkSize. case_match; lia.
Qed.

Definition first_word : words_of two_words [x61] := list_elem_of_here _ _.

(** The empty store saves a first snapshot; the effects are cut after seven. *)
Lemma snapshot_save_atomic_witness :
  saving (words_of two_words) ∅ "a" [x61] (run_upto live_fs 7 (saveSnapshot "a" [x61]) ∅) /\
  fst (run live_fs (saveSnapshot "a" [x61]) ∅) = Done (Ok tt).
Proof.
  destruct (snapshot_save_atomic (words_of two_words) two_words_inj two_words_zstd false "a" [x61] ∅ ∅
    empty_represents first_word (two_words_pieces _ first_word) live_fs (live_fs_ok false) 7)
    as (H1 & _ & H3).
  split; [exact H1|by apply H3].
Defined.

(** The store that a first save leaves. *)
Definition saved_once : fs := snd (run live_fs (saveSnapshot "a" [x61]) ∅).

Lemma saved_once_represents : represents (words_of two_words) saved_once {[ "a" := [x61] ]}.
Proof.
  pose proof (saveSnapshot_awp (words_of two_words) two_words_inj two_words_zstd false "a" [x61] ∅ ∅
    empty_represents first_word (two_words_pieces _ first_word)) as Hawp.
  destruct (wp_sound _ live_fs (fun s => s) _ _ ∅ (live_fs_ok false) (awp_wp _ _ _ _ _ Hawp))
    as (_ & r & _ & HQ).
  destruct r as [[]|e]; [exact HQ|by destruct HQ].
Qed.

Lemma snapshot_read_back_witness :
  wp (fs_contract false) (readSnapshotPayload "a")
    (fun o s' => s' = saved_once /\ o = Done (Ok [x61])) saved_once.
Proof.
  apply (snapshot_read_back (words_of two_words) "a" [x61] saved_once {[ "a" := [x61] ]}
    saved_once_represents).
  reflexivity.
Defined.

Lemma snapshot_delete_reclaims_witness :
  is_Some (saved_once !! layerPath (Digest [x61])) /\
  wp (fs_contract false) (deleteSnapshot "a")
    (fun o s' => o = Done (Ok tt) /\
       represents (words_of two_words) s' (delete "a" {[ "a" := [x61] ]}) /\
       s' !! manifestPath "a" = None /\
       (forall d, is_Some (s' !! layerPath d) <->
          is_Some (saved_once !! layerPath d) /\ leased s' d)) saved_once.
Proof.
  split; [vm_compute; by eexists|].
  apply (snapshot_delete_reclaims (words_of two_words) "a" saved_once {[ "a" := [x61] ]}
    saved_once_represents).
Defined.

(** ** A collection beside a save *)

(** Whether a call reported success. *)
Definition reports {A} (p : prog fsE (res A)) : prog fsE bool := do r <- p; Ret (is_ok r).

(** A collection between the layers and the manifest of a save deletes
    the layers: both calls report success and the snapshot cannot be read. *)
Theorem gc_race_loses_snapshot :
  exists s, rtc (pstep live_fs)
    ([reports (storeSnapshotLayer "a" [x61]); reports GC], ∅)
    ([Ret true; Ret true], s) /\
  exists e, run live_fs (readSnapshotPayload "a") s = (Done (Err e), s).
Proof.
  set (l := repeat 0 10 ++ repeat 1 20 ++ repeat 0 20).
  set (c := sched live_fs l ([reports (storeSnapshotLayer "a" [x61]); reports GC], ∅)).
  assert (fst c = [Ret true; Ret true]) as Hc by (vm_compute; reflexivity).
  exists (snd c). split.
  - rewrite <-Hc, <-surjective_pairing. apply sched_steps.
  - eexists. vm_compute. reflexivity.
Qed.
