(* ===== verification/Connect.v ===== *)
(** * The wire format and the errors of the E2B surface

    [pkg/sandbox/e2b/protocol.go] and [gwerror.go]: the enveloped frames of a
    Connect stream, the two error dialects, and the mapping of gateway errors
    onto them.  JSON is a parameter. *)
From Stdlib Require Import ZArith Lia Strings.Byte.
From S2P Require Import Prelude Sha256.

#[local] Open Scope Z_scope.

(** ** Errors *)

(** The control plane answers with numeric codes, the envd dialect with
    strings. *)
Record E2bError := mkE2bError { StatusCode : Z; Code : Z + string }.

#[export] Instance E2bError_eq_dec : EqDecision E2bError.
Proof. solve_decision. Defined.

Definition apiError (status : Z) : E2bError := mkE2bError status (inl status).

Definition connectStatus : list (string * Z) :=
  [("invalid_argument", 400); ("unauthenticated", 401); ("not_found", 404);
   ("already_exists", 409); ("resource_exhausted", 429); ("internal", 500);
   ("unimplemented", 501); ("unavailable", 502)].

Definition status_of (code : string) : Z :=
  match find (fun e => bool_decide (e.1 = code)) connectStatus with
  | Some e => e.2
  | None => 0
  end.

Definition connectError (code : string) : E2bError :=
  let status := status_of code in
  mkE2bError (if status =? 0 then 500 else status) (inr code).

(** The HTTP status of a gateway error. *)
Definition gwErrorToE2B (err : error) : E2bError :=
  match err with
  | Status NotFound => apiError 404
  | Status ResourceExhausted => apiError 409
  | Status Unavailable => apiError 503
  | Status FailedPrecondition => apiError 409
  | Status Canceled | Status DeadlineExceeded => apiError 504
  | _ => apiError 500
  end.

(** The text of the error decides too: [strings.Contains] looks for "paus" in
    it, whatever the code. *)
Definition isConflictError (err : error) (message_lower : string) : bool :=
  match err with
  | Status FailedPrecondition | Status Unavailable => true
  | Status _ => contains message_lower "paus"
  | _ => false
  end.

(** ** Big-endian words *)

Definition byte_of_Z (z : Z) : byte := default x00 (Byte.of_N (Z.to_N (z mod 256))).

Definition put_uint32 (n : Z) : bytes := byte_of_Z <$> be_bytes 4 n.

Definition get_uint32 (a b c d : byte) : Z :=
  ((byte_Z a * 256 + byte_Z b) * 256 + byte_Z c) * 256 + byte_Z d.

(** ** Frames *)

Definition FlagMessage : Z := 0.
Definition FlagEndStream : Z := 2.

(** [encoding/json]: payloads, decoded objects ([nil_object] is the nil map),
    and the JSON of the error object that replaces a payload that cannot be
    marshalled, whose text is the given one. *)
Class JSON := mkJSON {
  payload : Type;
  object : Type;
  nil_object : object;
  Marshal : payload -> bytes + string;
  error_object : string -> bytes;
  Unmarshal : bytes -> option object;
}.

Section frames.
Context `{J : JSON}.

Record frame := mkFrame { fr_flags : Z; fr_json : object }.

Definition envelope_bytes (flags : Z) (body : bytes) : bytes :=
  byte_of_Z flags :: put_uint32 (Z.of_nat (length body)) ++ body.

Definition envelope (flags : Z) (p : payload) : bytes :=
  envelope_bytes flags (match Marshal p with inl body => body | inr msg => error_object msg end).

(** The loop over the payload from an offset on; each frame takes at least
    five bytes, so that [fuel] is at most the length. *)
Fixpoint parse_from (fuel : nat) (bs : bytes) : res (list frame) :=
  match fuel, bs with
  | S fuel, f :: a :: b :: c :: d :: rest =>
      let len := get_uint32 a b c d in
      if (len <? 0) || (Z.of_nat (length rest) <? len) then Err (Plain "truncated")
      else
        let n := Z.to_nat len in
        match (if 0 <? len then Unmarshal (take n rest) else Some nil_object) with
        | None => Err (Plain "not JSON")
        | Some body =>
            match parse_from fuel (drop n rest) with
            | Ok frames => Ok (mkFrame (byte_Z f) body :: frames)
            | Err e => Err e
            end
        end
  | _, _ => Ok []
  end.

Definition parseEnvelopes (bs : bytes) : res (list frame) := parse_from (length bs) bs.

Definition readFirstMessage (bs : bytes) : object + E2bError :=
  match parseEnvelopes bs with
  | Err _ => inr (connectError "invalid_argument")
  | Ok [] => inr (connectError "invalid_argument")
  | Ok (f :: _) => inl (fr_json f)
  end.

(** ** Lemmas *)

Lemma byte_Z_range (b : byte) : 0 <= byte_Z b < 256.
Proof. by destruct b. Qed.

Lemma byte_Z_of_Z (z : Z) : byte_Z (byte_of_Z z) = z mod 256.
Proof.
  unfold byte_Z, byte_of_Z. pose proof (Z.mod_pos_bound z 256 ltac:(lia)) as H.
  destruct (Byte.of_N (Z.to_N (z mod 256))) as [b|] eqn:E; simpl.
  - apply Byte.to_of_N in E. rewrite E. lia.
  - apply Byte.of_N_None_iff in E. lia.
Qed.

Lemma byte_of_Z_byte (b : byte) : byte_of_Z (byte_Z b) = b.
Proof. by destruct b. Qed.

(** The bytes of a length, written out. *)
Lemma put_uint32_bytes (n : Z) :
  put_uint32 n = [byte_of_Z (n / 16777216); byte_of_Z (n / 65536); byte_of_Z (n / 256); byte_of_Z n].
Proof.
  unfold put_uint32. simpl. rewrite !Z.shiftr_div_pow2 by lia. rewrite !Z.div_div by lia.
  change 255 with (Z.ones 8). rewrite !Z.land_ones by lia.
  assert (forall z, byte_of_Z (z mod 2 ^ 8) = byte_of_Z z) as Hm.
  { intros z. unfold byte_of_Z. by rewrite Z.mod_mod by lia. }
  by rewrite !Hm.
Qed.

Lemma get_put_uint32 (n : Z) (a b c d : byte) :
  0 <= n < 2 ^ 32 -> put_uint32 n = [a; b; c; d] -> get_uint32 a b c d = n.
Proof.
  intros Hn. rewrite put_uint32_bytes. intros [= <- <- <- <-].
  unfold get_uint32. rewrite !byte_Z_of_Z.
  pose proof (Z.div_mod n 256 ltac:(lia)).
  pose proof (Z.div_mod (n / 256) 256 ltac:(lia)).
  pose proof (Z.div_mod (n / 65536) 256 ltac:(lia)).
  rewrite Z.div_div in * by lia. change (256 * 256) with 65536 in *.
  change (65536 * 256) with 16777216 in *.
  assert (0 <= n / 16777216 < 256) by (split; [apply Z.div_pos|apply Z.div_lt_upper_bound]; lia).
  rewrite (Z.mod_small (n / 16777216)) in * by lia. lia.
Qed.

Lemma put_get_uint32 (a b c d : byte) : put_uint32 (get_uint32 a b c d) = [a; b; c; d].
Proof.
  rewrite put_uint32_bytes. unfold get_uint32.
  pose proof (byte_Z_range a). pose proof (byte_Z_range b).
  pose proof (byte_Z_range c). pose proof (byte_Z_range d).
  set (n := _ * 256 + byte_Z d).
  assert (n / 256 = (byte_Z a * 256 + byte_Z b) * 256 + byte_Z c) as E1
    by (unfold n; rewrite Z.div_add_l by lia; rewrite (Z.div_small (byte_Z d)); lia).
  assert (n / 65536 = byte_Z a * 256 + byte_Z b) as E2.
  { change 65536 with (256 * 256). rewrite <- Z.div_div, E1 by lia.
    rewrite Z.div_add_l by lia. rewrite (Z.div_small (byte_Z c)); lia. }
  assert (n / 16777216 = byte_Z a) as E3.
  { change 16777216 with (65536 * 256). rewrite <- Z.div_div, E2 by lia.
    rewrite Z.div_add_l by lia. rewrite (Z.div_small (byte_Z b)); lia. }
  rewrite E3, E2, E1. unfold n.
  assert (forall z b', 0 <= byte_Z b' < 256 -> byte_of_Z (z * 256 + byte_Z b') = b') as Hb.
  { intros z b' Hb'. rewrite <- (byte_of_Z_byte b') at 2. unfold byte_of_Z.
    by rewrite Z.add_comm, Z.mod_add. }
  rewrite !Hb by done. by rewrite byte_of_Z_byte.
Qed.

Lemma get_uint32_range (a b c d : byte) : 0 <= get_uint32 a b c d < 2 ^ 32.
Proof.
  unfold get_uint32. pose proof (byte_Z_range a). pose proof (byte_Z_range b).
  pose proof (byte_Z_range c). pose proof (byte_Z_range d). lia.
Qed.

(** A frame on the wire: flags, body. *)
Definition chunk : Type := Z * bytes.

Definition chunk_ok (k : chunk) : Prop := 0 <= k.1 < 256 /\ Z.of_nat (length k.2) < 2 ^ 32.

(** What a frame on the wire reads as. *)
Definition reads_as (k : chunk) (f : frame) : Prop :=
  fr_flags f = k.1 /\ (if decide (k.2 = []) then fr_json f = nil_object else Unmarshal k.2 = Some (fr_json f)).

Definition wire (k : chunk) : bytes := envelope_bytes k.1 k.2.

Lemma wire_length (k : chunk) : length (wire k) = (5 + length k.2)%nat.
Proof. unfold wire, envelope_bytes. rewrite put_uint32_bytes. simpl. lia. Qed.

(** One turn of the loop over a whole frame, whatever follows it. *)
Lemma parse_wire (fuel : nat) (k : chunk) (rest : bytes) :
  chunk_ok k ->
  parse_from (S fuel) (wire k ++ rest) =
    match (if decide (k.2 = []) then Some nil_object else Unmarshal k.2) with
    | None => Err (Plain "not JSON")
    | Some body =>
        match parse_from fuel rest with
        | Ok frames => Ok (mkFrame k.1 body :: frames)
        | Err e => Err e
        end
    end.
Proof.
  destruct k as [flags body]. intros [Hf Hb]. cbn [fst snd] in *.
  unfold wire, envelope_bytes. cbn [fst snd].
  destruct (put_uint32 (Z.of_nat (length body))) as [|a [|b [|c [|d [|? ?]]]]] eqn:E;
    rewrite put_uint32_bytes in E; try done.
  rewrite <- put_uint32_bytes in E. apply get_put_uint32 in E; [|lia].
  cbn [app parse_from]. rewrite E, length_app.
  destruct (Z.ltb_spec (Z.of_nat (length body)) 0); [lia|].
  destruct (Z.ltb_spec (Z.of_nat (length body + length rest)) (Z.of_nat (length body))); [lia|].
  simpl orb. cbv iota. rewrite Nat2Z.id, take_app_length, drop_app_length, byte_Z_of_Z.
  rewrite (Z.mod_small flags) by lia.
  destruct (decide (body = [])) as [->|Hne]; [done|].
  destruct (Z.ltb_spec 0 (Z.of_nat (length body))); [done|]. by destruct body; simpl in *; [|lia].
Qed.

(** Bytes that hold a whole frame split into it and the rest. *)
Lemma split_wire (f a b c d : byte) (rest : bytes) :
  get_uint32 a b c d <= Z.of_nat (length rest) ->
  let n := Z.to_nat (get_uint32 a b c d) in
  f :: a :: b :: c :: d :: rest = wire (byte_Z f, take n rest) ++ drop n rest /\
  chunk_ok (byte_Z f, take n rest).
Proof.
  intros Hlen n. pose proof (get_uint32_range a b c d) as Hr.
  assert (length (take n rest) = n) as Hn by (rewrite length_take; unfold n; lia).
  split.
  - unfold wire, envelope_bytes. cbn [fst snd]. rewrite Hn. unfold n at 1. rewrite Z2Nat.id by lia.
    rewrite put_get_uint32, byte_of_Z_byte. simpl. by rewrite take_drop.
  - split; [apply byte_Z_range|]. simpl. rewrite Hn. unfold n. lia.
Qed.

Lemma parse_from_sound (fuel : nat) (bs : bytes) (frames : list frame) :
  (length bs <= fuel)%nat -> parse_from fuel bs = Ok frames ->
  exists chunks tail, bs = mjoin (wire <$> chunks) ++ tail /\ (length tail < 5)%nat /\
    Forall chunk_ok chunks /\ Forall2 reads_as chunks frames.
Proof.
  revert bs frames. induction fuel as [|fuel IH]; intros bs frames Hfuel.
  { destruct bs; [|simpl in Hfuel; lia]. intros [= <-]. exists [], []. simpl. eauto with lia. }
  assert (forall t, (length t < 5)%nat -> exists chunks tail, t = mjoin (wire <$> chunks) ++ tail /\
    (length tail < 5)%nat /\ Forall chunk_ok chunks /\ Forall2 reads_as chunks []) as Hshort.
  { intros t Ht. by exists [], t. }
  destruct bs as [|f [|a [|b [|c [|d rest]]]]]; cbn [parse_from];
    try (intros [= <-]; apply Hshort; simpl; lia).
  pose proof (get_uint32_range a b c d) as Hr.
  destruct (Z.ltb_spec (get_uint32 a b c d) 0); [done|].
  destruct (Z.ltb_spec (Z.of_nat (length rest)) (get_uint32 a b c d)); [done|].
  destruct (split_wire f a b c d rest) as [Hw Hok]; [done|].
  set (n := Z.to_nat (get_uint32 a b c d)) in *. simpl orb. cbv iota.
  destruct (if 0 <? get_uint32 a b c d then _ else _) as [body|] eqn:Hbody; [|done].
  destruct (parse_from fuel (drop n rest)) as [fs|e] eqn:Hrest; [|done]. intros [= <-].
  destruct (IH (drop n rest) fs) as (chunks & tail & H1 & H2 & H3 & H4);
    [rewrite length_drop; simpl in Hfuel; lia|done|].
  exists ((byte_Z f, take n rest) :: chunks), tail. split.
  { rewrite Hw, H1. simpl. by rewrite app_assoc. }
  split; [done|]. split; [by constructor|]. constructor; [|done]. split; [done|]. simpl.
  assert (length (take n rest) = n) as Hn by (rewrite length_take; unfold n; lia).
  destruct (decide (take n rest = [])) as [Hnil|Hnil].
  - rewrite Hnil in Hn. simpl in Hn. destruct (Z.ltb_spec 0 (get_uint32 a b c d)); [lia|].
    by injection Hbody.
  - destruct (Z.ltb_spec 0 (get_uint32 a b c d)); [done|]. destruct Hnil.
    apply nil_length_inv. lia.
Qed.

Lemma parse_from_complete (chunks : list chunk) (fuel : nat) (tail : bytes) (frames : list frame) :
  (length chunks <= fuel)%nat -> (length tail < 5)%nat ->
  Forall chunk_ok chunks -> Forall2 reads_as chunks frames ->
  parse_from fuel (mjoin (wire <$> chunks) ++ tail) = Ok frames.
Proof.
  revert fuel frames. induction chunks as [|k chunks IH]; intros fuel frames Hfuel Htail Hok Hread.
  { apply Forall2_nil_inv_l in Hread as ->. simpl.
    destruct fuel; [done|]. by destruct tail as [|? [|? [|? [|? [|? ?]]]]]; simpl in *; try lia. }
  apply Forall_cons in Hok as [Hk Hok]. apply Forall2_cons_inv_l in Hread as (f & fs & [Hflags Hjson] & Hfs & ->).
  destruct fuel as [|fuel]; [simpl in Hfuel; lia|]. change (mjoin (wire <$> k :: chunks)) with (wire k ++ mjoin (wire <$> chunks)).
  rewrite <- app_assoc, parse_wire by done.
  rewrite (IH fuel fs) by (done || (simpl in Hfuel; lia)).
  destruct f as [fl js]. simpl in *. subst.
  destruct (decide (k.2 = [])) as [E|E]; [by rewrite Hjson|by rewrite Hjson].
Qed.

Lemma wires_length (chunks : list chunk) : (length chunks <= length (mjoin (wire <$> chunks)))%nat.
Proof.
  induction chunks as [|k chunks IH]; [done|].
  change (mjoin (wire <$> k :: chunks)) with (wire k ++ mjoin (wire <$> chunks)).
  rewrite length_app, wire_length. simpl length in *. lia.
Qed.

(** [parseEnvelopes] accepts exactly the concatenations of whole frames
    whose bodies are JSON, with fewer than five bytes after them, and returns
    those frames; the loop ends on every input. *)
Theorem parse_envelopes_exact (bs : bytes) (frames : list frame) :
  parseEnvelopes bs = Ok frames <->
  exists chunks tail, bs = mjoin (wire <$> chunks) ++ tail /\ (length tail < 5)%nat /\
    Forall chunk_ok chunks /\ Forall2 reads_as chunks frames.
Proof.
  split; [by apply parse_from_sound|]. intros (chunks & tail & -> & Ht & Hok & Hread).
  apply parse_from_complete; [|done..]. rewrite length_app. pose proof (wires_length chunks). lia.
Qed.

(** What is sent is what is read: frames built by [envelope] from payloads
    that marshal to a non-empty text of less than 4 GiB. *)
Lemma envelopes_roundtrip (decoded : payload -> object) (msgs : list (Z * payload)) :
  (forall p b, Marshal p = inl b -> b <> [] /\ Unmarshal b = Some (decoded p)) ->
  Forall (fun m => 0 <= m.1 < 256 /\
    exists b, Marshal m.2 = inl b /\ Z.of_nat (length b) < 2 ^ 32) msgs ->
  parseEnvelopes (mjoin ((fun m => envelope m.1 m.2) <$> msgs)) =
    Ok ((fun m => mkFrame m.1 (decoded m.2)) <$> msgs).
Proof.
  intros Hlaw Hmsgs.
  set (body := fun m : Z * payload => match Marshal m.2 with inl b => b | inr e => error_object e end).
  set (chunks := (fun m : Z * payload => (m.1, body m)) <$> msgs).
  assert (mjoin ((fun m => envelope m.1 m.2) <$> msgs) = mjoin (wire <$> chunks) ++ []) as ->.
  { rewrite app_nil_r. unfold chunks. by rewrite <- list_fmap_compose. }
  apply parse_from_complete.
  - rewrite app_nil_r. apply wires_length.
  - simpl. lia.
  - unfold chunks. apply Forall_fmap. eapply Forall_impl; [exact Hmsgs|].
    intros m (Hm & b & Hb & Hl). split; [done|]. simpl. unfold body. by rewrite Hb.
  - unfold chunks. apply Forall2_fmap. apply Forall_Forall2_diag.
    eapply Forall_impl; [exact Hmsgs|]. intros m (Hm & b & Hb & Hl).
    split; [done|]. simpl. unfold body. rewrite Hb.
    destruct (Hlaw _ _ Hb) as [Hne Hdec]. by destruct (decide (b = [])).
Qed.

End frames.

(** ** Examples *)

#[export] Instance byte_eq_dec : EqDecision byte := Byte.byte_eq_dec.

(** JSON of which only the empty object is used. *)
#[local] Instance empty_json : JSON :=
  mkJSON unit unit tt (fun _ => inl [x7b; x7d]) (fun _ => [x7b; x7d])
    (fun b => if decide (b = [x7b; x7d]) then Some tt else None).

Example two_frames :
  parseEnvelopes (envelope FlagMessage tt ++ envelope FlagEndStream tt ++ [x00; x00]) =
    Ok [mkFrame 0 tt; mkFrame 2 tt].
Proof. by vm_compute. Qed.

Example truncated_frame : parseEnvelopes [x00; x00; x00; x00; x02; x7b] = Err (Plain "truncated").
Proof. by vm_compute. Qed.

Example no_whole_frame : readFirstMessage [x00; x00; x00; x00] = inr (connectError "invalid_argument").
Proof. by vm_compute. Qed.
