(* ===== verification/Signed.v ===== *)
(** * Access tokens and signed file URLs

    [pkg/sandbox/e2b/protocol.go] and [files.go]: the token of a sandbox is an
    HMAC of its id, the signature of a URL a digest over its parts and that
    token.  Everything here runs on the SHA-256 of [Sha256]. *)
From Stdlib Require Import ZArith Lia Strings.Byte Strings.String.
From S2P Require Import Prelude GoTime SessionEnv Sha256 Connect.

#[local] Open Scope Z_scope.

(** ** HMAC *)

Definition bytes_of (s : string) : bytes := list_byte_of_string s.

Definition block_key (key : bytes) : list Z :=
  let k := if (64 <? Z.of_nat (length key)) then sha256 key else byte_Z <$> key in
  k ++ repeat 0 (64 - length k).

Definition xor_all (m : Z) (l : list Z) : bytes := (fun b => byte_of_Z (Z.lxor b m)) <$> l.

(** [hmac.New(sha256.New, key)] over one message. *)
Definition hmac_sha256 (key msg : bytes) : list Z :=
  let k := block_key key in
  sha256 (xor_all 0x5c k ++ (byte_of_Z <$> sha256 (xor_all 0x36 k ++ msg))).

(** The test vectors of RFC 4231, cases 1 and 2. *)
Example hmac_case_1 :
  hex (hmac_sha256 (repeat x0b 20) (bytes_of "Hi There")) =
  "b0344c61d8db38535ca8afceaf0bf12b881dc200c9833da726e9376c2e32cff7".
Proof. by vm_compute. Qed.

Example hmac_case_2 :
  hex (hmac_sha256 (bytes_of "Jefe") (bytes_of "what do ya want for nothing?")) =
  "5bdcc146bf60754e6a042426089575c75a003f089d2739839dec58b964ec3843".
Proof. by vm_compute. Qed.

(** ** Tokens *)

Definition mintEnvdToken (signingSecret sandboxID : string) : string :=
  hex (hmac_sha256 (bytes_of signingSecret) (bytes_of ("envd:" +:+ sandboxID))).

Definition sha256Hex (s : string) : string := hex (sha256 (bytes_of s)).

Definition verifyEnvdToken (signingSecret sandboxID presented : string) : bool :=
  bool_decide (sha256Hex (mintEnvdToken signingSecret sandboxID) = sha256Hex presented).

(** [envdKeyAuth]: the sandbox a request may act on, if any.  Health probes
    and signed file requests pass without a token. *)
Definition envdKeyAuth (signingSecret path : string) (signature sandboxID token : string) : bool :=
  if (Z.of_nat (String.length path) >=? 7) &&
     bool_decide (String.substring (String.length path - 7) 7 path = "/health") then true
  else if bool_decide (path = "/files") && negb (bool_decide (signature = "")) then true
  else negb (bool_decide (sandboxID = "")) && negb (bool_decide (token = "")) &&
       verifyEnvdToken signingSecret sandboxID token.

(** ** Base64 *)

Definition base64_alphabet : string :=
  "ABCDEFGHIJKLMNOPQRSTUVWXYZabcdefghijklmnopqrstuvwxyz0123456789+/".

Definition base64_char (n : Z) : Ascii.ascii := default Ascii.zero (String.get (Z.to_nat n) base64_alphabet).

(** The 6-bit digits of bytes, most significant first. *)
Fixpoint sextets (l : list Z) : list Z :=
  match l with
  | a :: b :: c :: l =>
      a / 4 :: (a mod 4) * 16 + b / 16 :: (b mod 16) * 4 + c / 64 :: c mod 64 :: sextets l
  | [a; b] => [a / 4; (a mod 4) * 16 + b / 16; (b mod 16) * 4]
  | [a] => [a / 4; (a mod 4) * 16]
  | [] => []
  end.

Definition equals_sign : Ascii.ascii := Ascii.Ascii true false true true true true false false.

(** [base64.StdEncoding.EncodeToString] *)
Definition base64 (l : list Z) : string :=
  string_of_list_ascii (base64_char <$> sextets l) +:+
  match (length l mod 3)%nat with O => "" | 1%nat => "==" | _ => "=" end.

(** [strings.TrimRight(s, "=")] *)
Fixpoint trim_equals (s : string) : string :=
  match s with
  | EmptyString => EmptyString
  | String c s =>
      match trim_equals s with
      | EmptyString => if Ascii.eqb c equals_sign then EmptyString else String c EmptyString
      | r => String c r
      end
  end.

(** ** Signatures *)

Record signatureMaterial := mkMaterial {
  sm_path : string; sm_operation : string; sm_username : string; sm_expirationUnix : option Z;
}.

Definition material_parts (token : string) (m : signatureMaterial) : list string :=
  [sm_path m; sm_operation m; sm_username m; token] ++
  match sm_expirationUnix m with Some n => [itoa n] | None => [] end.

Definition fileSignature (token : string) (m : signatureMaterial) : string :=
  "v1_" +:+ trim_equals (base64 (sha256 (bytes_of (join_with ":" (material_parts token m))))).

Definition signatureMatches (presented sandboxID signingSecret : string) (m : signatureMaterial) : bool :=
  if decide (presented = "") then false
  else bool_decide (sha256Hex (fileSignature (mintEnvdToken signingSecret sandboxID) m) = sha256Hex presented).

(** [now]: [unixNow]. *)
Definition checkSignatureExpiration (now : Z) (m : signatureMaterial) : option E2bError :=
  match sm_expirationUnix m with
  | Some n => if n <? now then Some (connectError "unauthenticated") else None
  | None => None
  end.

Definition firstValue (query : gmap string (list string)) (key : string) : string :=
  default "" (query !! key ≫= head).

Definition signedMaterialFromQuery (query : gmap string (list string)) (operation : string)
    : signatureMaterial :=
  let raw := firstValue query "signature_expiration" in
  mkMaterial (firstValue query "path") operation (firstValue query "username")
    (if decide (raw = "") then None else ParseInt raw).

(** [ids]: the registered sandboxes. *)
Definition identifySignedSandbox (ids : list string) (signingSecret : string)
    (query : gmap string (list string)) (operation : string) : string + E2bError :=
  let sig := firstValue query "signature" in
  if decide (sig = "") then inr (connectError "unauthenticated")
  else
    match find (fun id => signatureMatches sig id signingSecret (signedMaterialFromQuery query operation)) ids with
    | Some id => inl id
    | None => inr (connectError "unauthenticated")
    end.

(** [handleSignedFiles] up to the file: the sandbox the request may use. *)
Definition authorizeSigned (ids : list string) (signingSecret : string) (now : Z)
    (query : gmap string (list string)) (post : bool) : string + E2bError :=
  let operation := if post then "write" else "read" in
  match identifySignedSandbox ids signingSecret query operation with
  | inr e => inr e
  | inl id =>
      match checkSignatureExpiration now (signedMaterialFromQuery query operation) with
      | Some e => inr e
      | None => inl id
      end
  end.

Example base64_vectors :
  (base64 (byte_Z <$> bytes_of "f"), base64 (byte_Z <$> bytes_of "fo"), base64 (byte_Z <$> bytes_of "foobar")) =
  ("Zg==", "Zm8=", "Zm9vYmFy").
Proof. by vm_compute. Qed.

(** ** Lemmas *)

Definition colon : Ascii.ascii := Ascii.Ascii false true false true true true false false.

Lemma join_snoc (sep : string) (p w : string) (ws : list string) :
  join_with sep (p :: ws ++ [w]) = join_with sep (p :: ws) +:+ sep +:+ w.
Proof.
  revert p. induction ws as [|v ws IH]; intros p; [done|].
  change (join_with sep (p :: (v :: ws) ++ [w])) with (p +:+ sep +:+ join_with sep (v :: ws ++ [w])).
  change (join_with sep (p :: v :: ws)) with (p +:+ sep +:+ join_with sep (v :: ws)).
  by rewrite IH, !append_assoc.
Qed.

(** Only the first word may hold the separator. *)
Lemma split_join_first (sep : Ascii.ascii) (p : string) (ws : list string) :
  Forall (fun w => no_char sep w = true) ws ->
  split_on sep (join_with (String sep "") (p :: ws)) = split_on sep p ++ ws.
Proof.
  induction ws as [|w ws IH] using rev_ind; intros Hws; [by rewrite app_nil_r|].
  apply Forall_app in Hws as [Hws [Hw _]%Forall_cons].
  rewrite join_snoc. change (String sep "" +:+ w) with (String sep w).
  by rewrite split_on_snoc, IH, app_assoc.
Qed.

Lemma join_split (sep : Ascii.ascii) (s : string) : join_with (String sep "") (split_on sep s) = s.
Proof.
  induction s as [|c s IH]; [done|]. simpl.
  pose proof (split_on_ne sep s) as Hne.
  destruct (Ascii.eqb_spec c sep) as [->|Hc].
  - destruct (split_on sep s) as [|w ws]; [done|].
    change (join_with (String sep "") ("" :: w :: ws)) with ("" +:+ String sep (join_with (String sep "") (w :: ws))).
    by rewrite IH, append_nil_l.
  - destruct (split_on sep s) as [|w ws]; [done|]. rewrite <- IH. by destruct ws.
Qed.

Lemma pretty_N_length (k : nat) (n : N) (s : string) :
  (n < 10 ^ N.of_nat k)%N -> (String.length (pretty_N_go n s) <= k + String.length s)%nat.
Proof.
  revert n s. induction k as [|k IH]; intros n s Hn.
  - assert (n = 0%N) as -> by (simpl in Hn; lia). by rewrite pretty_N_go_0.
  - destruct (decide (n = 0%N)) as [->|Hne]; [rewrite pretty_N_go_0; lia|].
    rewrite pretty_N_go_step by lia. etransitivity.
    + apply IH. apply N.Div0.div_lt_upper_bound.
      by rewrite Nat2N.inj_succ, N.pow_succ_r' in Hn.
    + simpl. lia.
Qed.

Lemma itoa_length (n : Z) : in_int64 n -> (String.length (itoa n) <= 20)%nat.
Proof.
  unfold in_int64, itoa. intros Hn.
  assert (forall p, (N.pos p < 10 ^ 19)%N -> (String.length (pretty (N.pos p)) <= 19)%nat) as Hp.
  { intros p H. pose proof (pretty_N_length 19 (N.pos p) "" H). simpl in *. unfold pretty, pretty_N.
    case_decide; simpl in *; lia. }
  destruct n as [|p|p]; [simpl; lia|..].
  - change (pretty (Z.pos p)) with (pretty (N.pos p)). specialize (Hp p). lia.
  - change (pretty (Z.neg p)) with ("-" +:+ pretty (N.pos p)). rewrite append_cons, append_nil_l.
    cbn [String.length]. specialize (Hp p). lia.
Qed.

Lemma no_colon_itoa (n : Z) : no_char colon (itoa n) = true.
Proof.
  assert (forall d, (d < 10)%N -> Ascii.eqb (pretty_N_char d) colon = false) as Hd.
  { intros d Hd. destruct d as [|p]; [done|]. by do 4 (try destruct p as [p|p|]; try done; try lia). }
  assert (forall m s, no_char colon (pretty_N_go m s) = no_char colon s) as Hgo.
  { intros m. induction (N.lt_wf_0 m) as [m _ IH]. intros s.
    destruct (decide (m = 0%N)) as [->|Hm]; [by rewrite pretty_N_go_0|].
    rewrite pretty_N_go_step by lia. rewrite IH by (apply N.div_lt; lia).
    cbn [no_char]. by rewrite Hd by (apply N.mod_lt; lia). }
  assert (forall m : N, no_char colon (pretty m) = true) as Hp.
  { intros m. unfold pretty, pretty_N. case_decide; [done|]. by rewrite Hgo. }
  unfold itoa. destruct n as [|p|p]; [done|exact (Hp (N.pos p))|].
  change (pretty (Z.neg p)) with ("-" +:+ pretty (N.pos p)). rewrite append_cons, append_nil_l.
  exact (Hp (N.pos p)).
Qed.

Lemma no_colon_hex (s : string) : all_chars is_hex s = true -> no_char colon s = true.
Proof.
  induction s as [|c s IH]; [done|]. cbn [all_chars no_char]. intros [Hc Hs]%andb_true_iff.
  rewrite IH by done. destruct (Ascii.eqb_spec c colon) as [->|]; [done|done].
Qed.

Lemma mintEnvdToken_hex (secret id : string) :
  all_chars is_hex (mintEnvdToken secret id) = true /\ String.length (mintEnvdToken secret id) = 64%nat.
Proof.
  unfold mintEnvdToken, hmac_sha256. split.
  - apply hex_is_hex, sha256_range.
  - by rewrite hex_length, sha256_length.
Qed.

(** The fields a signature covers can be read off the digested text. *)
Lemma material_injective (t1 t2 : string) (m1 m2 : signatureMaterial) :
  all_chars is_hex t1 = true -> String.length t1 = 64%nat ->
  all_chars is_hex t2 = true -> String.length t2 = 64%nat ->
  Forall (fun m => no_char colon (sm_operation m) = true /\ no_char colon (sm_username m) = true /\
    (forall n, sm_expirationUnix m = Some n -> in_int64 n)) [m1; m2] ->
  join_with ":" (material_parts t1 m1) = join_with ":" (material_parts t2 m2) -> m1 = m2 /\ t1 = t2.
Proof.
  intros Ht1 Hl1 Ht2 Hl2 Hm Heq.
  apply Forall_cons in Hm as [(Ho1 & Hu1 & He1) [(Ho2 & Hu2 & He2) _]%Forall_cons].
  apply no_colon_hex in Ht1, Ht2.
  destruct m1 as [p1 o1 u1 e1], m2 as [p2 o2 u2 e2].
  unfold material_parts in Heq.
  cbn [sm_path sm_operation sm_username sm_expirationUnix app] in *.
  apply (f_equal (split_on colon)) in Heq.
  change ":" with (String colon "") in Heq.
  assert (forall e, Forall (fun w => no_char colon w = true) match e with Some n => [itoa n] | None => [] end) as He.
  { intros [n|]; repeat constructor. apply no_colon_itoa. }
  rewrite !split_join_first in Heq by (repeat constructor; auto).
  assert (forall (n : Z) (t : string), in_int64 n -> String.length t = 64%nat -> itoa n <> t) as Hneq.
  { intros n t Hn Ht <-. pose proof (itoa_length n Hn). lia. }
  destruct e1 as [n1|], e2 as [n2|].
  - apply app_inj_2 in Heq as [Hp [= -> -> -> Hn]]; [|done]. apply itoa_inj in Hn as ->.
    apply (f_equal (join_with (String colon ""))) in Hp. by rewrite !join_split in Hp; subst.
  - apply (f_equal last) in Heq. rewrite !last_app in Heq. injection Heq as Heq.
    by destruct (Hneq n1 t2 (He1 _ eq_refl) Hl2).
  - apply (f_equal last) in Heq. rewrite !last_app in Heq. injection Heq as Heq.
    by destruct (Hneq n2 t1 (He2 _ eq_refl) Hl1).
  - apply app_inj_2 in Heq as [Hp [= -> -> ->]]; [|done].
    apply (f_equal (join_with (String colon ""))) in Hp. by rewrite !join_split in Hp; subst.
Qed.

Definition is_byte (z : Z) : Prop := 0 <= z < 256.

(** A table of distinct characters, checked entry by entry. *)
Lemma char_table_inj (f : Z -> Ascii.ascii) (n : nat) (a b : Z) :
  forallb (fun i => forallb (fun j => implb (Ascii.eqb (f (Z.of_nat i)) (f (Z.of_nat j))) (i =? j)%nat)
    (seq 0 n)) (seq 0 n) = true ->
  0 <= a < Z.of_nat n -> 0 <= b < Z.of_nat n -> f a = f b -> a = b.
Proof.
  intros H Ha Hb E.
  rewrite forallb_forall in H. specialize (H (Z.to_nat a) ltac:(apply in_seq; lia)).
  rewrite forallb_forall in H. specialize (H (Z.to_nat b) ltac:(apply in_seq; lia)).
  rewrite !Z2Nat.id in H by lia. rewrite E, Ascii.eqb_refl in H.
  apply Nat.eqb_eq in H. lia.
Qed.

Lemma hex_inj (l1 l2 : list Z) : Forall is_byte l1 -> Forall is_byte l2 -> hex l1 = hex l2 -> l1 = l2.
Proof.
  assert (forall a b, 0 <= a < 16 -> 0 <= b < 16 -> hex_digit a = hex_digit b -> a = b) as Hd
    by (intros a b; by apply (char_table_inj hex_digit 16)).
  intros H1. revert l2. induction H1 as [|a l1 Ha _ IH]; intros [|b l2] H2; simpl; try done.
  apply Forall_cons in H2 as [Hb H2]. intros [= Ehi Elo E].
  rewrite !Z.shiftr_div_pow2 in Ehi by lia. change 15 with (Z.ones 4) in Elo.
  rewrite !Z.land_ones in Elo by lia. change (2 ^ 4) with 16 in *. unfold is_byte in *.
  apply Hd in Ehi; [|split; [apply Z.div_pos|apply Z.div_lt_upper_bound]; lia..].
  apply Hd in Elo; [|apply Z.mod_pos_bound; lia..].
  f_equal; [|by apply IH].
  rewrite (Z.div_mod a 16), (Z.div_mod b 16) by lia. congruence.
Qed.

(** A six-bit digit and back. *)
Lemma base64_char_inj (a b : Z) :
  0 <= a < 64 -> 0 <= b < 64 -> base64_char a = base64_char b -> a = b.
Proof. apply (char_table_inj base64_char 64). by vm_compute. Qed.

Lemma base64_char_not_equals (a : Z) : 0 <= a < 64 -> Ascii.eqb (base64_char a) equals_sign = false.
Proof.
  intros Ha.
  assert (forallb (fun i => negb (Ascii.eqb (base64_char (Z.of_nat i)) equals_sign)) (seq 0 64) = true) as H
    by by vm_compute.
  rewrite forallb_forall in H. specialize (H (Z.to_nat a) ltac:(apply in_seq; lia)).
  rewrite Z2Nat.id in H by lia. by apply negb_true_iff in H.
Qed.

(** Induction on lists three elements at a time. *)
Lemma list_ind3 {A} (P : list A -> Prop) :
  P [] -> (forall a, P [a]) -> (forall a b, P [a; b]) ->
  (forall a b c l, P l -> P (a :: b :: c :: l)) -> forall l, P l.
Proof.
  intros H0 H1 H2 H3. fix IH 1. intros [|a [|b [|c l]]]; [exact H0|apply H1|apply H2|apply H3, IH].
Qed.

Lemma sextets_range (l : list Z) : Forall is_byte l -> Forall (fun z => 0 <= z < 64) (sextets l).
Proof.
  unfold is_byte. induction l as [|a|a b|a b c l IH] using list_ind3; intros Hl; simpl;
    repeat (apply Forall_cons in Hl as [? Hl]); repeat constructor; try (by apply IH);
    Z.to_euclidean_division_equations; lia.
Qed.

Lemma sextets_inj (l1 l2 : list Z) :
  Forall is_byte l1 -> Forall is_byte l2 -> length l1 = length l2 -> sextets l1 = sextets l2 -> l1 = l2.
Proof.
  unfold is_byte. revert l2.
  induction l1 as [|a|a b|a b c l IH] using list_ind3; intros l2 H1 H2 Hlen E;
    destruct l2 as [|a' [|b' [|c' l2]]]; try done;
    repeat (apply Forall_cons in H1 as [? H1]); repeat (apply Forall_cons in H2 as [? H2]).
  - injection E as E1 E2. f_equal. Z.to_euclidean_division_equations. lia.
  - injection E as E1 E2 E3. assert (a = a') as -> by (Z.to_euclidean_division_equations; lia).
    f_equal. f_equal. Z.to_euclidean_division_equations. lia.
  - injection Hlen as Hlen. injection E as E1 E2 E3 E4 E5.
    assert (a = a') as -> by (Z.to_euclidean_division_equations; lia).
    assert (c = c') as -> by (Z.to_euclidean_division_equations; lia).
    assert (b = b') as -> by (Z.to_euclidean_division_equations; lia).
    do 3 f_equal. by apply IH.
Qed.

Lemma trim_equals_app (w : list Ascii.ascii) (e : string) :
  Forall (fun c => Ascii.eqb c equals_sign = false) w -> trim_equals e = "" ->
  trim_equals (string_of_list_ascii w +:+ e) = string_of_list_ascii w.
Proof.
  intros Hw He. induction Hw as [|c w Hc _ IH]; simpl; [by rewrite append_nil_l|].
  rewrite ?append_cons. cbn [trim_equals]. rewrite IH.
  destruct (string_of_list_ascii w); [by rewrite Hc|done].
Qed.

Lemma base64_inj (l1 l2 : list Z) :
  Forall is_byte l1 -> Forall is_byte l2 -> length l1 = length l2 ->
  trim_equals (base64 l1) = trim_equals (base64 l2) -> l1 = l2.
Proof.
  intros H1 H2 Hlen. unfold base64.
  assert (forall l, Forall is_byte l -> Forall (fun c => Ascii.eqb c equals_sign = false) (base64_char <$> sextets l)) as Hne.
  { intros l Hl. apply Forall_fmap. eapply Forall_impl; [by apply sextets_range|].
    intros z Hz. by apply base64_char_not_equals. }
  rewrite !trim_equals_app by (auto || by repeat case_match).
  intros E. apply (f_equal list_ascii_of_string) in E.
  rewrite !list_ascii_of_string_of_list_ascii in E.
  apply sextets_inj; [done..|].
  pose proof (sextets_range l1 H1) as R1. pose proof (sextets_range l2 H2) as R2.
  revert E R1 R2. generalize (sextets l1) (sextets l2). intros s1.
  induction s1 as [|x s1 IH]; intros [|y s2]; simpl; try done.
  intros [= Exy E] [Hx Hs1]%Forall_cons [Hy Hs2]%Forall_cons.
  f_equal; [by apply base64_char_inj|by apply IH].
Qed.

Lemma bytes_of_inj (s t : string) : bytes_of s = bytes_of t -> s = t.
Proof.
  unfold bytes_of. intros E. apply (f_equal string_of_list_byte) in E.
  by rewrite !string_of_list_byte_of_string in E.
Qed.

(** ** What a signature opens *)

(** The digest tells the two texts apart. *)
Definition no_collision (s t : string) : Prop := sha256 (bytes_of s) = sha256 (bytes_of t) -> s = t.

Lemma sha256Hex_inj (s t : string) : no_collision s t -> sha256Hex s = sha256Hex t -> s = t.
Proof.
  intros H E. apply H. apply hex_inj; [apply sha256_range..|exact E].
Qed.

(** A signature made for one sandbox, file, operation, user and expiry is
    accepted for no other, unless SHA-256 maps two of the texts involved to
    the same digest; users must not contain the separator. *)
Theorem signature_binds (secret id1 id2 : string) (m1 m2 : signatureMaterial) :
  let t1 := mintEnvdToken secret id1 in
  let t2 := mintEnvdToken secret id2 in
  Forall (fun m => no_char colon (sm_operation m) = true /\ no_char colon (sm_username m) = true /\
    (forall n, sm_expirationUnix m = Some n -> in_int64 n)) [m1; m2] ->
  no_collision (fileSignature t2 m2) (fileSignature t1 m1) ->
  no_collision (join_with ":" (material_parts t1 m1)) (join_with ":" (material_parts t2 m2)) ->
  signatureMatches (fileSignature t1 m1) id2 secret m2 = true -> m1 = m2 /\ t1 = t2.
Proof.
  intros t1 t2 Hm Hsig Hmat. unfold signatureMatches. case_decide; [done|].
  intros E%bool_decide_eq_true. apply sha256Hex_inj in E; [|done].
  unfold fileSignature in E. apply (f_equal (strip_prefix "v1_")) in E.
  rewrite !strip_prefix_app in E. injection E as E.
  apply base64_inj in E; [|apply sha256_range|apply sha256_range|by rewrite !sha256_length].
  symmetry in E. apply Hmat in E.
  destruct (mintEnvdToken_hex secret id1), (mintEnvdToken_hex secret id2).
  by apply (material_injective t1 t2).
Qed.

(** * Base64 decoding

    [encoding/base64]: [StdEncoding.DecodeString], and [RawStdEncoding] both
    ways, for the encoder of Signed.v.  Line breaks are skipped, and the bits
    that pad the last digit are not looked at, as in the Go library. *)

#[local] Open Scope Z_scope.

Fixpoint index_of (c : Ascii.ascii) (s : string) (n : Z) : option Z :=
  match s with
  | EmptyString => None
  | String a s => if Ascii.eqb a c then Some n else index_of c s (n + 1)
  end.

Definition base64_digit (c : Ascii.ascii) : option Z := index_of c base64_alphabet 0.

(** Groups of four digits, and a group of two or three at the end. *)
Fixpoint unsextets (l : list Z) : option (list Z) :=
  match l with
  | a :: b :: c :: d :: l =>
      l' ← unsextets l; Some ((a * 4 + b / 16) mod 256 :: (b * 16 + c / 4) mod 256 :: (c * 64 + d) mod 256 :: l')
  | [a; b; c] => Some [(a * 4 + b / 16) mod 256; (b * 16 + c / 4) mod 256]
  | [a; b] => Some [(a * 4 + b / 16) mod 256]
  | [a] => None
  | [] => Some []
  end.

Definition line_break (c : Ascii.ascii) : bool := (Ascii.N_of_ascii c =? 10)%N || (Ascii.N_of_ascii c =? 13)%N.

Definition base64_text (s : string) : list Ascii.ascii := filter (fun c => line_break c = false) (list_ascii_of_string s).

(** [RawStdEncoding.DecodeString] *)
Definition raw_decode (s : string) : option (list Z) := mapM base64_digit (base64_text s) ≫= unsextets.

(** [StdEncoding.DecodeString] *)
Definition base64_decode (s : string) : option (list Z) :=
  let t := string_of_list_ascii (base64_text s) in
  let body := trim_equals t in
  let pads := (String.length t - String.length body)%nat in
  if ((pads =? 0) && (String.length body mod 4 =? 0) || (pads =? 1) && (String.length body mod 4 =? 3) ||
      (pads =? 2) && (String.length body mod 4 =? 2))%nat
  then raw_decode body else None.

(** [RawStdEncoding.EncodeToString] *)
Definition raw_base64 (l : list Z) : string := string_of_list_ascii (base64_char <$> sextets l).

(** ** Round trips *)

Lemma digit_of_char (n : Z) : 0 <= n < 64 ->
  base64_digit (base64_char n) = Some n /\ line_break (base64_char n) = false /\
  Ascii.eqb (base64_char n) equals_sign = false.
Proof.
  intros H. rewrite <-(Z2Nat.id n) by lia. assert (Z.to_nat n < 64)%nat as Hn by lia. revert Hn.
  generalize (Z.to_nat n) as k. intros k Hk.
  do 64 (destruct k as [|k]; [done|]). lia.
Qed.

Lemma unsextets_sextets l : Forall is_byte l -> unsextets (sextets l) = Some l.
Proof.
  unfold is_byte. induction l as [|a|a b|a b c l IH] using list_ind3; intros Hl; rewrite ?Forall_cons in Hl; cbn [sextets unsextets].
  - done.
  - destruct Hl as [Ha _]. repeat f_equal; Z.to_euclidean_division_equations; lia.
  - destruct Hl as (Ha & Hb & _). repeat f_equal; Z.to_euclidean_division_equations; lia.
  - destruct Hl as (Ha & Hb & Hc & Hl). rewrite IH by done. cbn [mbind option_bind].
    repeat f_equal; Z.to_euclidean_division_equations; lia.
Qed.

Lemma sextets_length l : (length (sextets l) mod 4 = match length l mod 3 with 0 => 0 | 1 => 2 | _ => 3 end)%nat.
Proof.
  induction l as [|a|a b|a b c l IH] using list_ind3; [done..|].
  cbn [sextets length].
  replace (S (S (S (S (length (sextets l)))))) with (length (sextets l) + 1 * 4)%nat by lia.
  replace (S (S (S (length l)))) with (length l + 1 * 3)%nat by lia.
  by rewrite !Nat.Div0.mod_add.
Qed.

Lemma base64_text_chars l : Forall (fun d => 0 <= d < 64) l ->
  base64_text (string_of_list_ascii (base64_char <$> l)) = base64_char <$> l /\
  mapM base64_digit (base64_char <$> l) = Some l /\
  trim_equals (string_of_list_ascii (base64_char <$> l)) = string_of_list_ascii (base64_char <$> l).
Proof.
  unfold base64_text. rewrite list_ascii_of_string_of_list_ascii.
  induction 1 as [|d l Hd _ (IH1 & IH2 & IH3)]; [done|].
  destruct (digit_of_char d Hd) as (H1 & H2 & H3). rewrite fmap_cons, filter_cons_True by done. split_and!; [by f_equal| |].
  - cbn [mapM]. rewrite H1. cbn [mbind option_bind]. setoid_rewrite IH2. done.
  - cbn [string_of_list_ascii trim_equals]. rewrite IH3, H3.
    by destruct (string_of_list_ascii (base64_char <$> l)).
Qed.

(** What was encoded is decoded. *)
Lemma raw_round_trip l : Forall is_byte l -> raw_decode (raw_base64 l) = Some l.
Proof.
  intros Hl. unfold raw_decode, raw_base64. destruct (base64_text_chars (sextets l)) as (-> & -> & _).
  - by apply sextets_range.
  - cbn [mbind option_bind]. by apply unsextets_sextets.
Qed.

Lemma list_ascii_app a b : list_ascii_of_string (a +:+ b) = list_ascii_of_string a ++ list_ascii_of_string b.
Proof. induction a as [|c a IH]; [done|]. rewrite append_cons. cbn [list_ascii_of_string]. by rewrite IH. Qed.

Lemma string_of_list_app (a b : list Ascii.ascii) :
  string_of_list_ascii (a ++ b) = string_of_list_ascii a +:+ string_of_list_ascii b.
Proof. induction a as [|c a IH]; [done|]. cbn [string_of_list_ascii app]. by rewrite IH. Qed.

Lemma string_of_list_length (l : list Ascii.ascii) : String.length (string_of_list_ascii l) = length l.
Proof. induction l as [|c l IH]; [done|]. cbn [string_of_list_ascii String.length length]. by rewrite IH. Qed.

Lemma base64_round_trip l : Forall is_byte l -> base64_decode (base64 l) = Some l.
Proof.
  intros Hl. pose proof (sextets_range l Hl) as Hs. pose proof (sextets_length l) as Hn.
  set (w := base64_char <$> sextets l).
  destruct (base64_text_chars (sextets l) Hs) as (Ht & _ & Htrim). fold w in Ht, Htrim.
  assert (forall e, e ∈ [""; "="; "=="] -> String.length e = match (length l mod 3)%nat with O => 0 | 1 => 2 | _ => 1 end%nat ->
    base64_decode (string_of_list_ascii w +:+ e) = Some l) as H.
  { intros e He Hlen.
    assert (base64_text (string_of_list_ascii w +:+ e) = w ++ list_ascii_of_string e) as Hte.
    { unfold base64_text in *. rewrite list_ascii_app, filter_app. rewrite Ht. f_equal.
      repeat (apply elem_of_cons in He as [->|He]; [done|]). by apply elem_of_nil in He. }
    unfold base64_decode. rewrite Hte, string_of_list_app, string_of_list_ascii_of_string.
    rewrite trim_equals_app.
    - rewrite length_append, Nat.add_sub_swap, Nat.sub_diag, Nat.add_0_l by lia.
      rewrite string_of_list_length. unfold w at 1 2 3. rewrite length_fmap, Hn, Hlen.
      assert (raw_decode (string_of_list_ascii w) = Some l) as -> by by apply raw_round_trip.
      destruct (length l mod 3)%nat as [|[|[|]]] eqn:E; done.
    - apply Forall_fmap. eapply Forall_impl; [exact Hs|]. intros d Hd. by apply digit_of_char.
    - repeat (apply elem_of_cons in He as [->|He]; [done|]). by apply elem_of_nil in He. }
  unfold base64. apply H; destruct (length l mod 3)%nat as [|[|]]; done || set_solver.
Qed.

(** [EncodeToString] and [DecodeString] of the bytes of a text. *)
Definition encode_text (s : string) : string := base64 (byte_Z <$> bytes_of s).
Definition decode_text (s : string) : option string :=
  (fun l => string_of_list_byte (Connect.byte_of_Z <$> l)) <$> base64_decode s.

Lemma text_round_trip s : decode_text (encode_text s) = Some s.
Proof.
  unfold decode_text, encode_text. rewrite base64_round_trip.
  - cbn [fmap option_fmap option_map]. f_equal. rewrite <-list_fmap_compose.
    rewrite <-(string_of_list_byte_of_string s) at 2. f_equal. unfold bytes_of.
    rewrite <-(list_fmap_id (list_byte_of_string s)) at 2. apply list_fmap_ext. intros _ b _. apply Connect.byte_of_Z_byte.
  - apply Forall_fmap, Forall_forall. intros b _. apply Connect.byte_Z_range.
Qed.

Lemma encode_text_empty s : encode_text s = "" -> s = "".
Proof. intros E. pose proof (text_round_trip s) as H. rewrite E in H. by injection H. Qed.
