(* ===== verification/Hash.v ===== *)
(** * Password hashes

    [pkg/authenticator/hash]: the [Hasher] interface and its scrypt
    implementation, whose hashes carry version, salt and cost. *)
From Stdlib Require Import ZArith Lia Strings.Byte Strings.String.
From S2P Require Import Prelude GoTime GoText Prog Os SessionEnv Sha256 Signed.

#[local] Open Scope Z_scope.

(** [hash.Hasher], with the salt as an argument, and what its users rely on. *)
Class Hasher := mkHasher {
  hash_with : string -> string -> res string;
  VerifyHash : string -> string -> res unit;
  verify_created : forall salt secretKey h,
    random_text 8 salt = true -> hash_with salt secretKey = Ok h -> VerifyHash h secretKey = Ok tt;
}.

Definition CreateHash `{Hasher} (secretKey : string) : osP (res string) :=
  try salt <- call (Random 8); Ret (hash_with salt secretKey).

(** [golang.org/x/crypto/scrypt]: the salt as the hexadecimal text that is
    stored. *)
Class ScryptKey := mkScryptKey {
  scrypt_Key : string -> string -> Z -> Z -> Z -> Z -> option (list Z);
  scrypt_length : forall s salt N r p k dk, scrypt_Key s salt N r p k = Some dk ->
    Forall is_byte dk /\ Z.of_nat (length dk) = k;
}.

Definition Version : Z := 1.

Record SCrypt := mkSCrypt { N : Z; R : Z; P : Z; KeyLen : Z; SaltLen : nat }.
Definition NewSCrypt : SCrypt := mkSCrypt 15 8 1 64 8.

(** [1 << n] of an [int] and an unsigned [n]. *)
Definition shl1 (n : Z) : Z := if n <? 63 then 2 ^ n else if n =? 63 then - 2 ^ 63 else 0.

(** [fmt.Sprintf] and [fmt.Sscanf] with [hashFormat] ["$%d:%x:%d:%d:%d:%s"],
    the latter without the blanks and signs it would also skip. *)
Definition print_hash (version : Z) (salt : string) (n r p : Z) (enc : string) : string :=
  "$" +:+ join_with ":" [itoa version; salt; itoa n; itoa r; itoa p; enc].

Definition scan_hash (h : string) : option (Z * string * Z * Z * Z * string) :=
  match strip_prefix "$" h with
  | None => None
  | Some h =>
      match split_on colon h with
      | v :: salt :: n :: r :: p :: ((_ :: _) as encs) =>
          let enc := join_with ":" encs in
          match ParseInt v, ParseInt n, ParseInt r, ParseInt p with
          | Some v, Some n, Some r, Some p =>
              if (0 <=? v) && (0 <=? n) && all_chars is_hex (ToLower salt) && Nat.even (String.length salt) &&
                 negb (bool_decide (salt = "")) && negb (bool_decide (enc = ""))
              then Some (v, ToLower salt, n, r, p, enc) else None
          | _, _, _, _ => None
          end
      | _ => None
      end
  end.

Section scrypt.
Context `{SK : ScryptKey}.

Definition scrypt_hash_with (s : SCrypt) (salt secretKey : string) : res string :=
  match scrypt_Key secretKey salt (shl1 (N s)) (R s) (P s) (KeyLen s) with
  | None => Err (Plain "scrypt")
  | Some dk => Ok (print_hash Version salt (N s) (R s) (P s) (raw_base64 dk))
  end.

Definition scrypt_VerifyHash (hash secretKey : string) : res unit :=
  match scan_hash hash with
  | None => Err (Plain "scan")
  | Some (version, salt, n, r, p, enc) =>
      if negb (version =? Version) then Err (Plain "hash version does not match package version")
      else
        match raw_decode enc with
        | None => Err (Plain "base64")
        | Some dk =>
            match scrypt_Key secretKey salt (shl1 n) r p (Z.of_nat (length dk)) with
            | None => Err (Plain "scrypt")
            | Some verify => if decide (dk = verify) then Ok tt else Err (Plain "hash does not match")
            end
        end
  end.

(** ** Properties *)

Lemma no_colon_base64 l : Forall is_byte l -> no_char colon (raw_base64 l) = true.
Proof.
  intros Hl. unfold raw_base64. induction (sextets_range l Hl) as [|d l' Hd _ IH]; [done|].
  rewrite fmap_cons. cbn [string_of_list_ascii no_char]. rewrite IH, andb_true_r. clear -Hd.
  rewrite <-(Z2Nat.id d) by lia. assert (Z.to_nat d < 64)%nat as Hn by lia. revert Hn.
  generalize (Z.to_nat d) as k. intros k Hk. do 64 (destruct k as [|k]; [done|]). lia.
Qed.

Lemma lower_hex s : all_chars is_hex s = true -> ToLower s = s.
Proof.
  unfold ToLower. induction s as [|c s IH]; [done|]. cbn [all_chars map_str]. intros [Hc Hs]%andb_true_iff.
  rewrite IH by done. f_equal. by destruct c as [[] [] [] [] [] [] [] []].
Qed.

Lemma scan_print salt n r p dk :
  all_chars is_hex salt = true -> salt <> "" -> Nat.even (String.length salt) = true ->
  0 < n < 2 ^ 63 -> 0 < r < 2 ^ 63 -> 0 < p < 2 ^ 63 -> Forall is_byte dk -> dk <> [] ->
  scan_hash (print_hash Version salt n r p (raw_base64 dk)) = Some (Version, salt, n, r, p, raw_base64 dk).
Proof.
  intros Hs Hne He Hn Hr Hp Hdk Hdk0. pose proof (lower_hex salt Hs) as Hl.
  unfold scan_hash, print_hash. rewrite strip_prefix_app.
  change ":" with (String colon ""). rewrite split_join.
  - unfold itoa. rewrite !ParseInt_pretty by (done || unfold Version; lia).
    cbn [join_with]. rewrite Hl, Hs, He.
    rewrite (bool_decide_eq_false_2 (salt = "")) by done.
    rewrite (bool_decide_eq_false_2 (raw_base64 dk = "")) by by destruct dk as [|? [|? [|]]].
    replace (0 <=? n) with true by lia. done.
  - done.
  - repeat constructor; try apply no_colon_itoa; [by apply no_colon_hex|by apply no_colon_base64].
Qed.

(** A stored hash accepts exactly the secrets that scrypt maps to the same
    key under the hash's own salt and cost; the secret it was made from is one
    of them. *)
Lemma hash_keeps (s : SCrypt) (salt secretKey h secret : string) :
  all_chars is_hex salt = true -> salt <> "" -> Nat.even (String.length salt) = true ->
  0 < N s < 2 ^ 63 -> 0 < R s < 2 ^ 63 -> 0 < P s < 2 ^ 63 -> 0 < KeyLen s ->
  scrypt_hash_with s salt secretKey = Ok h ->
  (scrypt_VerifyHash h secret = Ok tt <->
   scrypt_Key secret salt (shl1 (N s)) (R s) (P s) (KeyLen s) =
   scrypt_Key secretKey salt (shl1 (N s)) (R s) (P s) (KeyLen s)) /\
  scrypt_VerifyHash h secretKey = Ok tt.
Proof.
  intros Hs Hne He Hn Hr Hp Hk. unfold scrypt_hash_with.
  destruct (scrypt_Key secretKey salt _ _ _ _) as [dk|] eqn:E; [|done]. intros [= <-].
  destruct (scrypt_length _ _ _ _ _ _ _ E) as [Hdk Hlen].
  assert (forall q, scrypt_VerifyHash (print_hash Version salt (N s) (R s) (P s) (raw_base64 dk)) q = Ok tt <->
    scrypt_Key q salt (shl1 (N s)) (R s) (P s) (KeyLen s) = Some dk) as H.
  { intros q. unfold scrypt_VerifyHash. rewrite scan_print; [|done..|intros ->; simpl in Hlen; lia].
    cbn [negb Z.eqb]. rewrite raw_round_trip by done. change (negb (Version =? Version)) with false. cbn iota.
    rewrite Hlen. destruct (scrypt_Key q _ _ _ _ _) as [v|]; [|done].
    case_decide; [subst; by split|]. split; [done|congruence]. }
  split; [apply H|by apply H].
Qed.

(** The hasher of the program keeps the interface's promise. *)
#[export] Program Instance scrypt_hasher : Hasher :=
  {| hash_with := scrypt_hash_with NewSCrypt; VerifyHash := scrypt_VerifyHash |}.
Next Obligation.
  intros salt secretKey h [Hlen%Nat.eqb_eq Hs]%andb_true_iff Hh.
  eapply (hash_keeps NewSCrypt salt secretKey h secretKey); try done.
  - intros ->. done.
  - by rewrite Hlen.
Qed.

End scrypt.

Lemma CreateHash_wp `{Hasher} (faults : bool) (secretKey : string) (d : fs) :
  wp (os_contract faults) (CreateHash secretKey) (fun o d' => d' = d /\ exists r, o = Done r /\
    forall h, r = Ok h -> VerifyHash h secretKey = Ok tt) d.
Proof.
  unfold CreateHash. apply wp_bind. cbn. intros s d' [-> Hs]. destruct s as [salt|e]; (split; [done|]); eexists; (split; [done|]).
  - destruct Hs as [(s & [= <-] & Hs)|(_ & e & [=])]. intros h. by apply verify_created.
  - done.
Qed.
