(* ===== verification/RateLimit.v ===== *)
(** * Per-tenant rate limiting

    [pkg/sandboxmatrix/ratelimit/ratelimit.go]: token buckets, one per tenant,
    the configuration taken from the SandboxMatrix, and the tenant a request
    counts for.  Tokens and rates are exact rationals where the code has
    [float64]; times are nanoseconds of a monotonic clock. *)
From Stdlib Require Import QArith Lqa Qminmax.
From S2P Require Import Prelude Kube.

#[local] Open Scope Z_scope.

Definition defaultWriteBurst : Z := 10.
Definition defaultWriteRate : Q := 5.
Definition defaultReadBurst : Z := 30.
Definition defaultReadRate : Q := 20.

Record RateConfig := mkRateConfig {
  WriteBurst : Z; WriteRate : Q; ReadBurst : Z; ReadRate : Q;
}.

Record tokenBucket := mkBucket { tokens : Q; lastFill : Z; burst : Z; rate : Q }.

Record Limiter := mkLimiter { cache : gmap string tokenBucket; config : RateConfig }.

Definition DefaultRateConfig : RateConfig :=
  mkRateConfig defaultWriteBurst defaultWriteRate defaultReadBurst defaultReadRate.

Definition NewLimiter (cfg : RateConfig) : Limiter := mkLimiter ∅ cfg.

Definition Qpos (q : Q) : bool := negb (Qle_bool q 0).

(** The defaults, overridden by the positive fields of the spec. *)
Definition config_of (spec : option RateLimitSpec) : RateConfig :=
  match spec with
  | None => DefaultRateConfig
  | Some s =>
      mkRateConfig
        (if 0 <? rl_writeBurst s then rl_writeBurst s else defaultWriteBurst)
        (if Qpos (rl_writeRate s) then rl_writeRate s else defaultWriteRate)
        (if 0 <? rl_readBurst s then rl_readBurst s else defaultReadBurst)
        (if Qpos (rl_readRate s) then rl_readRate s else defaultReadRate)
  end.

Definition NewLimiterFromSpec (spec : option RateLimitSpec) : Limiter := NewLimiter (config_of spec).

Definition ReloadConfig (spec : option RateLimitSpec) (l : Limiter) : Limiter :=
  mkLimiter ∅ (config_of spec).

Definition burst_for (cfg : RateConfig) (isWrite : bool) : Z :=
  if isWrite then WriteBurst cfg else ReadBurst cfg.
Definition rate_for (cfg : RateConfig) (isWrite : bool) : Q :=
  if isWrite then WriteRate cfg else ReadRate cfg.

(** [Duration.Seconds()]. *)
Definition Seconds (d : Z) : Q := inject_Z d / inject_Z second.

(** One use of a bucket at [now]: refill, then take a token if there is one. *)
Definition take_token (now : Z) (b : tokenBucket) : bool * tokenBucket :=
  let t := Qmin (inject_Z (burst b)) (tokens b + Seconds (now - lastFill b) * rate b)%Q in
  if Qle_bool 1 t then (true, mkBucket (t - 1) now (burst b) (rate b))
  else (false, mkBucket t now (burst b) (rate b)).

(** The part of [Allow] under the lock, for the configuration [cfg] that was
    read before; [t0] and [now]: the two readings of the clock. *)
Definition allowed (cfg : RateConfig) (t0 now : Z) (tenant : string) (isWrite : bool) (l : Limiter)
    : bool * Limiter :=
  if Qle_bool (rate_for cfg isWrite) 0 then (true, l)
  else
    let b := default (mkBucket (inject_Z (burst_for cfg isWrite)) t0 (burst_for cfg isWrite)
                        (rate_for cfg isWrite)) (cache l !! tenant) in
    let '(ok, b) := take_token now b in
    (ok, mkLimiter (<[tenant := b]> (cache l)) (config l)).

Definition Allow (t0 now : Z) (tenant : string) (isWrite : bool) (l : Limiter) : bool * Limiter :=
  allowed (config l) t0 now tenant isWrite l.

Definition ReapStale (now maxAge : Z) (l : Limiter) : Limiter :=
  mkLimiter (filter (fun e => ~ lastFill e.2 < now - maxAge) (cache l)) (config l).

(** The incoming metadata: the values of a (lower-cased) header. *)
Definition extractTenant (md : option (gmap string (list string))) : string :=
  match md with
  | None => ""
  | Some md =>
      match default [] (md !! "x-sandbox-tenant") with
      | v :: _ => v
      | [] =>
          match default [] (md !! "authorization") with
          | token :: _ =>
              if has_prefix token "Bearer " && (7 <? String.length token)%nat then
                let key := trim_prefix token "Bearer " in
                "key:" +:+ (if (8 <? String.length key)%nat then take_str 8 key else key)
              else "key:anon"
          | [] => "anon"
          end
      end
  end.

Definition writeRPCs : list string :=
  ["CreateSession"; "DestroySession"; "Exec"; "ExecStream"; "PipInstall"; "RunSubAgent";
   "WriteFile"; "GetCACert"; "ConfirmAction"; "ApproveAction"].

Definition isWriteRPC (method : string) : bool :=
  bool_decide (method ∈ (fun m => "/sandbox.v1.SandboxService/" +:+ m) <$> writeRPCs).

(** The check both interceptors make before the handler runs. *)
Definition admit_call (t0 now : Z) (md : option (gmap string (list string))) (method : string)
    (l : Limiter) : option error * Limiter :=
  let '(ok, l) := Allow t0 now (extractTenant md) (isWriteRPC method) l in
  (if ok then None else Some (Status ResourceExhausted), l).

(** ** Runs *)

Record request := mkRequest { rq_t0 : Z; rq_now : Z; rq_tenant : string; rq_write : bool }.

(** What happens to a limiter: a call, with the configuration it works with
    where a reload has overtaken it between reading and locking; a reload
    ([reloadConfigLoop], every 30 s); and the removal of buckets not used for
    [maxAge] (every 5 min, 10 min). *)
Inductive event :=
  | Called (read : option RateConfig) (r : request)
  | Reloaded (spec : option RateLimitSpec)
  | Reaped (now maxAge : Z).

(** An event's answer, where it has one, and the limiter after it. *)
Definition react (e : event) (l : Limiter) : option (request * bool) * Limiter :=
  match e with
  | Called read r =>
      let '(ok, l) := allowed (default (config l) read) (rq_t0 r) (rq_now r) (rq_tenant r) (rq_write r) l in
      (Some (r, ok), l)
  | Reloaded spec => (None, ReloadConfig spec l)
  | Reaped now maxAge => (None, ReapStale now maxAge l)
  end.

(** The answers in a run. *)
Fixpoint serve (es : list event) (l : Limiter) : list (request * bool) :=
  match es with
  | [] => []
  | e :: es => let '(a, l) := react e l in option_list a ++ serve es l
  end.

(** How many requests of [tenant] are let through. *)
Definition admitted (tenant : string) (es : list event) (l : Limiter) : nat :=
  length (filter (fun a : request * bool => rq_tenant a.1 = tenant /\ a.2 = true) (serve es l)).

(** Time does not run backwards, from [t] on. *)
Fixpoint monotone (t : Z) (es : list event) : Prop :=
  match es with
  | [] => True
  | Called _ r :: es => t <= rq_t0 r /\ rq_t0 r <= rq_now r /\ monotone (rq_now r) es
  | Reloaded _ :: es => monotone t es
  | Reaped now _ :: es => t <= now /\ monotone now es
  end.

Fixpoint end_of (t : Z) (es : list event) : Z :=
  match es with
  | [] => t
  | Called _ r :: es => end_of (rq_now r) es
  | Reloaded _ :: es => end_of t es
  | Reaped now _ :: es => end_of now es
  end.

Definition is_reload (e : event) : bool := match e with Reloaded _ => true | _ => false end.
Definition reloads (es : list event) : nat := length (filter (fun e => is_reload e = true) es).

(** Both kinds of call are limited, by at most [B] and [R]. *)
Definition within (B : Z) (R : Q) (cfg : RateConfig) : Prop :=
  forall w, (0 < rate_for cfg w /\ rate_for cfg w <= R)%Q /\ 0 < burst_for cfg w <= B.

(** So is every configuration of a run; and a bucket is forgotten only after
    the time in which the burst flows back. *)
Definition event_within (B : Z) (R : Q) (e : event) : Prop :=
  match e with
  | Called read _ => forall cfg, read = Some cfg -> within B R cfg
  | Reloaded spec => within B R (config_of spec)
  | Reaped _ maxAge => (inject_Z B <= Seconds maxAge * R)%Q
  end.

Definition bucket_ok (b : tokenBucket) : Prop :=
  (0 <= tokens b /\ tokens b <= inject_Z (burst b) /\ 0 < rate b)%Q.

(** ** Lemmas *)

Lemma Qpos_true (q : Q) : Qpos q = true -> (0 < q)%Q.
Proof.
  unfold Qpos. intros H%negb_true_iff. apply Qnot_le_lt. intros Hle.
  apply Qle_bool_iff in Hle. congruence.
Qed.

Lemma config_of_positive (spec : option RateLimitSpec) (w : bool) :
  (0 < rate_for (config_of spec) w)%Q /\ 0 < burst_for (config_of spec) w.
Proof.
  destruct spec as [s|]; [|by destruct w].
  destruct w; simpl; split.
  - destruct (Qpos _) eqn:E; [by apply Qpos_true|done].
  - case_match eqn:E; [by apply Z.ltb_lt|done].
  - destruct (Qpos _) eqn:E; [by apply Qpos_true|done].
  - case_match eqn:E; [by apply Z.ltb_lt|done].
Qed.

Lemma Seconds_nonneg (d : Z) : 0 <= d -> (0 <= Seconds d)%Q.
Proof.
  intros Hd. unfold Seconds. apply Qle_shift_div_l; [done|].
  rewrite Qmult_0_l. change 0%Q with (inject_Z 0). by rewrite <-Zle_Qle.
Qed.

Lemma Seconds_add (a b : Z) : (Seconds (a + b) == Seconds a + Seconds b)%Q.
Proof. unfold Seconds. rewrite inject_Z_plus. field. done. Qed.

Lemma inject_nat_S (n : nat) : (inject_Z (Z.of_nat (S n)) == inject_Z (Z.of_nat n) + 1)%Q.
Proof. rewrite Nat2Z.inj_succ, <-Z.add_1_r, inject_Z_plus. reflexivity. Qed.

(** A use leaves at most what was there, what flowed in, less what was taken. *)
Lemma take_token_spec (now : Z) (b : tokenBucket) :
  bucket_ok b -> lastFill b <= now ->
  let '(ok, b') := take_token now b in
  bucket_ok b' /\ lastFill b' = now /\ burst b' = burst b /\ rate b' = rate b /\
  (tokens b' + (if ok then 1 else 0) <= tokens b + Seconds (now - lastFill b) * rate b)%Q.
Proof.
  intros (H0 & H1 & Hr) Ht.
  assert (0 <= Seconds (now - lastFill b) * rate b)%Q as Hin.
  { apply Qmult_le_0_compat; [apply Seconds_nonneg; lia|lra]. }
  unfold take_token.
  pose proof (Q.le_min_l (inject_Z (burst b)) (tokens b + Seconds (now - lastFill b) * rate b)) as Hl.
  pose proof (Q.le_min_r (inject_Z (burst b)) (tokens b + Seconds (now - lastFill b) * rate b)) as Hr'.
  assert (0 <= Qmin (inject_Z (burst b)) (tokens b + Seconds (now - lastFill b) * rate b))%Q as Hm.
  { apply Q.min_glb; lra. }
  destruct (Qle_bool 1 _) eqn:E.
  - apply Qle_bool_iff in E. unfold bucket_ok. simpl. repeat split; try done; lra.
  - unfold bucket_ok. simpl. repeat split; try done; lra.
Qed.

(** What a tenant can still be let through until [T], but for reloads. *)
Definition credit (B : Z) (R : Q) (t T : Z) (o : option tokenBucket) : Q :=
  match o with
  | Some b => tokens b + Seconds (T - lastFill b) * R
  | None => inject_Z B + Seconds (T - t) * R
  end.

(** A bucket as the limiter leaves it, filling no faster than [R]. *)
Definition bucket_at (R : Q) (t : Z) (o : option tokenBucket) : Prop :=
  forall b, o = Some b -> bucket_ok b /\ (rate b <= R)%Q /\ lastFill b <= t.

Lemma Seconds_split (a b c : Z) : (Seconds (a - c) == Seconds (a - b) + Seconds (b - c))%Q.
Proof. rewrite <-Seconds_add. by replace (a - b + (b - c))%Z with (a - c)%Z by lia. Qed.

Lemma flow_nonneg (R : Q) (d : Z) : (0 <= R)%Q -> 0 <= d -> (0 <= Seconds d * R)%Q.
Proof. intros. apply Qmult_le_0_compat; [by apply Seconds_nonneg|done]. Qed.

(** The call of a tenant costs it what it was let through. *)
Lemma allowed_credit (B : Z) (R : Q) (cfg : RateConfig) (t t0 now T : Z) (tenant : string) (w : bool)
    (l : Limiter) :
  within B R cfg -> bucket_at R t (cache l !! tenant) -> t <= t0 -> t0 <= now ->
  let '(ok, l') := allowed cfg t0 now tenant w l in
  bucket_at R now (cache l' !! tenant) /\
  ((if ok then 1 else 0) + credit B R now T (cache l' !! tenant) <= credit B R t T (cache l !! tenant))%Q.
Proof.
  intros Hcfg Hb Ht0 Hnow. destruct (Hcfg w) as [[Hr HR] [Hb0 HbB]]. unfold allowed.
  destruct (Qle_bool (rate_for cfg w) 0) eqn:E; [apply Qle_bool_iff in E; lra|].
  set (b := default _ (cache l !! tenant)).
  assert (bucket_ok b /\ (rate b <= R)%Q /\ lastFill b <= now /\
    (tokens b + Seconds (T - lastFill b) * R <= credit B R t T (cache l !! tenant))%Q) as (Hok & HbR & Hlast & Hcr).
  { unfold b. destruct (cache l !! tenant) as [b0|]; cbn [default from_option id credit].
    - destruct (Hb b0 eq_refl) as (? & ? & ?). split; [done|]. split; [done|]. split; [lia|apply Qle_refl].
    - assert (0 < inject_Z (burst_for cfg w) /\ inject_Z (burst_for cfg w) <= inject_Z B)%Q as [Hi0 HiB].
      { change 0%Q with (inject_Z 0). by rewrite <-Zlt_Qlt, <-Zle_Qle. }
      pose proof (flow_nonneg R (t0 - t) ltac:(lra) ltac:(lia)) as Hf.
      rewrite (Seconds_split T t0 t). unfold bucket_ok. simpl. repeat split; try lia; lra. }
  pose proof (take_token_spec now b Hok Hlast) as Hspec.
  destruct (take_token now b) as [ok b']. destruct Hspec as (Hok' & Hl' & _ & Hr' & Htok).
  simpl. rewrite lookup_insert_eq. simpl. split.
  - intros ? [= <-]. split; [done|]. rewrite Hr'. split; [done|lia].
  - rewrite Hl'. rewrite (Seconds_split T now (lastFill b)) in Hcr.
    assert (Seconds (now - lastFill b) * rate b <= Seconds (now - lastFill b) * R)%Q as Hle.
    { rewrite !(Qmult_comm (Seconds _)). apply Qmult_le_compat_r; [done|apply Seconds_nonneg; lia]. }
    destruct ok; lra.
Qed.

(** Requests of other tenants leave a tenant's bucket alone. *)
Lemma allowed_other (cfg : RateConfig) (t0 now : Z) (tenant other : string) (w : bool) (l : Limiter) :
  other <> tenant -> cache (snd (allowed cfg t0 now other w l)) !! tenant = cache l !! tenant.
Proof.
  intros Hne. unfold allowed. destruct (Qle_bool _ 0); [done|].
  destruct (take_token now _) as [ok b]. simpl. by rewrite lookup_insert_ne.
Qed.

Lemma allowed_config (cfg : RateConfig) (t0 now : Z) (tenant : string) (w : bool) (l : Limiter) :
  config (snd (allowed cfg t0 now tenant w l)) = config l.
Proof. unfold allowed. destruct (Qle_bool _ 0); [done|]. by destruct (take_token now _). Qed.

Lemma admitted_called (tenant : string) (read : option RateConfig) (r : request) (es : list event) (l : Limiter) :
  admitted tenant (Called read r :: es) l =
    let '(ok, l') := allowed (default (config l) read) (rq_t0 r) (rq_now r) (rq_tenant r) (rq_write r) l in
    ((if decide (rq_tenant r = tenant /\ ok = true) then 1 else 0) + admitted tenant es l')%nat.
Proof.
  unfold admitted. cbn [serve react]. destruct (allowed _ _ _ _ _ l) as [ok l']. change (option_list (Some (r, ok))) with [(r, ok)].
  rewrite filter_app, length_app. f_equal. rewrite filter_cons. simpl. by destruct (decide _).
Qed.

Lemma end_of_ge (t : Z) (es : list event) : monotone t es -> t <= end_of t es.
Proof.
  revert t. induction es as [|[read r|spec|now maxAge] es IH]; intros t; simpl; [lia| |by apply IH|].
  - intros (? & ? & H%IH). lia.
  - intros (? & H%IH). lia.
Qed.

Lemma ReapStale_lookup (now maxAge : Z) (tenant : string) (l : Limiter) :
  cache (ReapStale now maxAge l) !! tenant =
    match cache l !! tenant with
    | Some b => if decide (lastFill b < now - maxAge) then None else Some b
    | None => None
    end.
Proof.
  simpl. destruct (cache l !! tenant) as [b|] eqn:E.
  - case_decide as Hold.
    + apply map_lookup_filter_None_2. right. intros b' Hb' Hn. rewrite E in Hb'. by injection Hb' as <-.
    + by apply map_lookup_filter_Some_2.
  - apply map_lookup_filter_None_2. by left.
Qed.

(** Forgetting a bucket gives a tenant nothing. *)
Lemma ReapStale_credit (B : Z) (R : Q) (t now maxAge T : Z) (o : option tokenBucket) :
  (0 <= R)%Q -> (inject_Z B <= Seconds maxAge * R)%Q -> bucket_at R t o -> t <= now ->
  let o' := match o with
            | Some b => if decide (lastFill b < now - maxAge) then None else Some b
            | None => None
            end in
  bucket_at R now o' /\ (credit B R now T o' <= credit B R t T o)%Q.
Proof.
  intros HR Hage Hb Ht. destruct o as [b|]; cbv zeta.
  - destruct (Hb b eq_refl) as (Hok & HbR & Hlast). case_decide as Hold.
    + split; [done|]. simpl. rewrite (Seconds_split T now (lastFill b)).
      assert (Seconds (now - lastFill b) == Seconds (now - lastFill b - maxAge) + Seconds maxAge)%Q as ->.
      { rewrite <-Seconds_add. by replace (now - lastFill b - maxAge + maxAge)%Z with (now - lastFill b)%Z by lia. }
      pose proof (flow_nonneg R (now - lastFill b - maxAge) HR ltac:(lia)). destruct Hok. lra.
    + split; [|apply Qle_refl]. intros ? [= <-]. split; [done|]. split; [done|lia].
  - split; [done|]. simpl. rewrite (Seconds_split T now t). pose proof (flow_nonneg R (now - t) HR ltac:(lia)). lra.
Qed.

Lemma admitted_credit (B : Z) (R : Q) (tenant : string) (es : list event) (l : Limiter) (t : Z) :
  within B R (config l) -> Forall (event_within B R) es -> monotone t es ->
  bucket_at R t (cache l !! tenant) ->
  (inject_Z (Z.of_nat (admitted tenant es l)) <=
     credit B R t (end_of t es) (cache l !! tenant) + inject_Z (Z.of_nat (reloads es)) * inject_Z B)%Q.
Proof.
  revert l t. induction es as [|e es IH]; intros l t Hcfg Hes Hm Hb;
    destruct (Hcfg true) as [[Hr0 HrR] [Hb0 HbB]]; (assert (0 <= R)%Q as HR by lra);
    (assert (0 <= inject_Z B)%Q as HB0 by (change 0%Q with (inject_Z 0); rewrite <-Zle_Qle; lia)).
  - change (inject_Z (Z.of_nat (admitted tenant [] l))) with 0%Q. change (inject_Z (Z.of_nat (reloads []))) with 0%Q. cbn [end_of].
    destruct (cache l !! tenant) as [b|]; simpl.
    + destruct (Hb b eq_refl) as ((H0 & _) & _ & Hl). pose proof (flow_nonneg R (t - lastFill b) HR ltac:(lia)). lra.
    + pose proof (flow_nonneg R (t - t) HR ltac:(lia)). lra.
  - inversion_clear Hes as [|? ? He Hes']. destruct e as [read r|spec|now maxAge]; cbn [end_of].
    + destruct Hm as (H1 & H2 & Hm). rewrite admitted_called.
      assert (within B R (default (config l) read)) as Hread by (destruct read as [cfg|]; [by apply He|done]).
      change (reloads (Called read r :: es)) with (reloads es).
      pose proof (allowed_config (default (config l) read) (rq_t0 r) (rq_now r) (rq_tenant r) (rq_write r) l) as Hcl.
      destruct (decide (rq_tenant r = tenant)) as [Htenant|Hne].
      * pose proof (allowed_credit B R _ t (rq_t0 r) (rq_now r) (end_of (rq_now r) es) tenant (rq_write r) l
          Hread Hb H1 H2) as Hstep.
        rewrite Htenant in *. destruct (allowed _ _ _ _ _ l) as [ok l']. simpl in Hcl. destruct Hstep as [Hb' Hcr].
        pose proof (IH l' (rq_now r) ltac:(by rewrite Hcl) Hes' Hm Hb') as HIH. destruct ok.
        -- rewrite decide_True by done. rewrite (inject_nat_S (admitted _ _ _)). lra.
        -- rewrite decide_False by naive_solver. simpl. lra.
      * pose proof (allowed_other (default (config l) read) (rq_t0 r) (rq_now r) tenant _ (rq_write r) l Hne) as Hc.
        destruct (allowed _ _ _ _ _ l) as [ok l']. simpl in Hcl, Hc. rewrite decide_False by naive_solver. simpl.
        assert (bucket_at R (rq_now r) (cache l' !! tenant)) as Hb'.
        { rewrite Hc. intros b E. destruct (Hb b E) as (? & ? & ?). split; [done|]. split; [done|lia]. }
        pose proof (IH l' (rq_now r) ltac:(by rewrite Hcl) Hes' Hm Hb') as HIH. rewrite Hc in HIH.
        destruct (cache l !! tenant) as [b|]; simpl in *; [lra|].
        rewrite (Seconds_split _ (rq_now r) t). pose proof (flow_nonneg R (rq_now r - t) HR ltac:(lia)). lra.
    + change (admitted tenant (Reloaded spec :: es) l) with (admitted tenant es (ReloadConfig spec l)).
      change (reloads (Reloaded spec :: es)) with (S (reloads es)). rewrite inject_nat_S.
      pose proof (IH (ReloadConfig spec l) t He Hes' Hm) as HIH. simpl in HIH. rewrite lookup_empty in HIH.
      specialize (HIH ltac:(done)). simpl in HIH. pose proof (end_of_ge _ _ Hm) as Hend.
      destruct (cache l !! tenant) as [b|]; simpl; [|lra].
      destruct (Hb b eq_refl) as ((H0 & _) & _ & Hl). rewrite (Seconds_split _ t (lastFill b)).
      pose proof (flow_nonneg R (t - lastFill b) HR ltac:(lia)). lra.
    + destruct Hm as [H1 Hm].
      change (admitted tenant (Reaped now maxAge :: es) l) with (admitted tenant es (ReapStale now maxAge l)).
      change (reloads (Reaped now maxAge :: es)) with (reloads es).
      destruct (ReapStale_credit B R t now maxAge (end_of now es) _ HR He Hb H1) as [Hb' Hcr].
      rewrite <-ReapStale_lookup in Hb', Hcr. pose proof (IH (ReapStale now maxAge l) now Hcfg Hes' Hm Hb') as HIH. lra.
Qed.

(** ** Theorems *)

(** C40. In a run of calls of all tenants, reloads of the configuration and
    removals of unused buckets, a tenant that the limiter does not remember is
    let through at most once the burst, once more for every reload in the run,
    plus the rate times the elapsed seconds.  Burst and rate are the largest,
    over reads and writes, of the configurations in force, the one read by a
    call that a reload overtakes included; both are positive, and buckets are
    removed only when unused for the time in which the burst flows back. *)
Theorem admissions_bounded (B : Z) (R : Q) (tenant : string) (es : list event) (l : Limiter) (t : Z)
    (Hcfg : within B R (config l)) (Hes : Forall (event_within B R) es)
    (Hnew : cache l !! tenant = None) (Hm : monotone t es) :
  (inject_Z (Z.of_nat (admitted tenant es l)) <=
     inject_Z (1 + Z.of_nat (reloads es)) * inject_Z B + Seconds (end_of t es - t) * R)%Q.
Proof.
  pose proof (admitted_credit B R tenant es l t Hcfg Hes Hm) as H. rewrite Hnew in H. specialize (H ltac:(done)).
  simpl in H. rewrite inject_Z_plus. change (inject_Z 1) with 1%Q. lra.
Qed.

(** Calls at the same instant. *)
Definition burst_of_calls (w : bool) (n : nat) : list event :=
  repeat (Called None (mkRequest 0 0 "t1" w)) n.

(** A busy tenant over a reload and a removal. *)
Definition busy_minute : list event :=
  burst_of_calls true 50 ++ [Reloaded None] ++ burst_of_calls false 50 ++
  [Reaped (60 * second) (600 * second); Called (Some DefaultRateConfig) (mkRequest (60 * second) (60 * second) "t1" true)].

Lemma admissions_bounded_witness :
  (inject_Z (Z.of_nat (admitted "t1" busy_minute (NewLimiterFromSpec None))) <=
     inject_Z (1 + 1) * inject_Z 30 + Seconds (60 * second - 0) * 20)%Q.
Proof.
  apply (admissions_bounded 30 20 "t1" busy_minute (NewLimiterFromSpec None) 0).
  - intros [|]; by vm_compute.
  - unfold busy_minute, burst_of_calls. cbn [repeat app].
    repeat first [apply List.Forall_nil | apply List.Forall_cons; [try (by intros ? [=])|]].
    + intros [|]; by vm_compute.
    + by vm_compute.
    + intros cfg [= <-]. intros [|]; by vm_compute.
  - reflexivity.
  - vm_compute. repeat split; discriminate.
Defined.

(** Reads and writes draw on one bucket: after a single read a tenant may
    make 29 writes at once although the write burst is 10, and after a single
    write only 9 reads although the read burst is 30. *)
Theorem one_bucket_for_both_kinds :
  WriteBurst DefaultRateConfig = 10 /\ ReadBurst DefaultRateConfig = 30 /\
  snd <$> serve (burst_of_calls false 1 ++ burst_of_calls true 50) (NewLimiterFromSpec None) =
    repeat true 30 ++ repeat false 21 /\
  snd <$> serve (burst_of_calls true 1 ++ burst_of_calls false 50) (NewLimiterFromSpec None) =
    repeat true 10 ++ repeat false 41.
Proof. by vm_compute. Qed.

(** Every reload, though it reads the same configuration, gives the whole
    burst again. *)
Theorem reload_refills :
  snd <$> serve (burst_of_calls true 11 ++ [Reloaded None] ++ burst_of_calls true 11) (NewLimiterFromSpec None) =
    repeat true 10 ++ [false] ++ repeat true 10 ++ [false].
Proof. by vm_compute. Qed.
