(* ===== verification/ApiKey.v ===== *)
(** * The API key store

    [pkg/sandbox/apikey/store.go]: named keys with an optional expiry, the two
    formats of the Secret payload, and the TTL strings of the command line.
    Times and durations are nanoseconds; a [time.Duration] wraps at 64 bits.
    The payload is taken as a decoded JSON object: what its fields decode to
    is a parameter. *)
From S2P Require Import Prelude GoTime GoText.

#[local] Open Scope Z_scope.

Definition DefaultTTLDays : Z := 30.
Definition FileVersion : Z := 2.

Record KeyRecord := mkKeyRecord {
  Key : string; CreatedAt : Z; ExpiresAt : option Z; TTLDays : Z;
}.

(** ** The payload *)

(** JSON values, as far as [Parse] decodes them. *)
Class JsonValues := mkJsonValues {
  jv : Type;
  as_string : jv -> option string;
  as_int : jv -> option Z;
  as_records : jv -> option (gmap string KeyRecord);
  of_int : Z -> jv;
  of_records : gmap string KeyRecord -> jv;
}.

(** What encoding and decoding again gives. *)
Class JsonRoundTrip (J : JsonValues) := mkJsonRoundTrip {
  int_round_trip : forall z, as_int (of_int z) = Some z;
  records_round_trip : forall m, as_records (of_records m) = Some m;
}.

Inductive payload `{J : JsonValues} :=
  | Empty
  | Invalid                                (* not a JSON object *)
  | Object (fields : gmap string jv).

Section parse.
Context `{J : JsonValues}.

Definition looksStructured (fields : gmap string jv) : bool :=
  bool_decide (is_Some (fields !! "keys")) || bool_decide (is_Some (fields !! "version")).

(** Every field decodes, or none is used. *)
Definition all_strings (fields : gmap string jv) : option (gmap string string) :=
  if decide (map_Forall (fun _ v => is_Some (as_string v)) fields)
  then Some (omap as_string fields) else None.

Definition Parse (data : payload) : res (gmap string KeyRecord) :=
  match data with
  | Empty => Ok ∅
  | Invalid => Err (Plain "parse api keys")
  | Object fields =>
      if looksStructured fields then
        if match fields !! "version" with Some v => bool_decide (as_int v = None) | None => false end
        then Err (Plain "parse api keys v2")
        else match fields !! "keys" with
             | None => Ok ∅
             | Some v => match as_records v with
                         | Some m => Ok m
                         | None => Err (Plain "parse api keys v2")
                         end
             end
      else
        match all_strings fields with
        | None => Err (Plain "parse api keys")
        | Some m => Ok ((fun key => mkKeyRecord key 0 None 0) <$> m)
        end
  end.

Definition Encode (keys : gmap string KeyRecord) : payload :=
  Object {[ "version" := of_int FileVersion; "keys" := of_records keys ]}.

End parse.

(** ** Expiry *)

Definition Expired (r : KeyRecord) (now : Z) : bool :=
  match ExpiresAt r with None => false | Some e => negb (now <? e) end.

Definition ActiveSecrets (keys : gmap string KeyRecord) (now : Z) : gmap string string :=
  omap (fun r => if bool_decide (Key r = "") || Expired r now then None else Some (Key r)) keys.

Definition NewRecord (key : string) (ttlDays : Z) (never : bool) (now : Z) : KeyRecord :=
  if never then mkKeyRecord key now None 0
  else
    let ttlDays := if ttlDays <=? 0 then DefaultTTLDays else ttlDays in
    mkKeyRecord key now (Some (now + wrap64 (wrap64 (ttlDays * 24) * hour))) ttlDays.

(** ** TTL strings *)

(** The text before a last character [c]. *)
Fixpoint before_suffix (c : Ascii.ascii) (s : string) : option string :=
  match s with
  | EmptyString => None
  | String x EmptyString => if Ascii.eqb x c then Some EmptyString else None
  | String x s => String x <$> before_suffix c s
  end.

Definition letter_d : Ascii.ascii := Ascii.Ascii false false true false false true true false.
Definition letter_h : Ascii.ascii := Ascii.Ascii false false false true false true true false.

Definition ParseTTL (s : string) : res (Z * bool) :=
  let s := TrimSpace (ToLower s) in
  if decide (s = "") then Ok (DefaultTTLDays, false)
  else if decide (s = "never" \/ s = "none" \/ s = "0") then Ok (0, true)
  else
    let '(hours, raw) :=
      match before_suffix letter_d s with
      | Some raw => (false, raw)
      | None => match before_suffix letter_h s with
                | Some raw => (true, raw)
                | None => (false, s)
                end
      end in
    match ParseInt raw with
    | None => Err (Plain "invalid ttl")
    | Some n =>
        if n <? 0 then Err (Plain "invalid ttl")
        else if n =? 0 then Ok (0, true)
        else if hours then
          let days := go_div (wrap64 (n + 23)) 24 in
          Ok (if days <? 1 then 1 else days, false)
        else Ok (n, false)
    end.

(** ** Theorems *)

Lemma ActiveSecrets_Some (keys : gmap string KeyRecord) (t : Z) (name key : string) :
  ActiveSecrets keys t !! name = Some key <->
  exists r, keys !! name = Some r /\ Key r = key /\ key <> "" /\ Expired r t = false.
Proof.
  unfold ActiveSecrets. rewrite lookup_omap_Some. split.
  - intros (r & H & Hr). case_match eqn:E; [done|]. injection H as <-.
    apply orb_false_iff in E as [E1%bool_decide_eq_false E2]. eauto.
  - intros (r & Hr & <- & Hne & He). exists r. split; [|done].
    rewrite bool_decide_eq_false_2 by done. by rewrite He.
Qed.

Lemma ttl_no_overflow (n : Z) :
  0 < n <= 106751 -> wrap64 (wrap64 (n * 24) * hour) = n * 24 * hour.
Proof.
  intros Hn. unfold hour, minute, second.
  rewrite (wrap64_id (n * 24)) by (unfold in_int64; lia). rewrite wrap64_id; unfold in_int64; lia.
Qed.

(** A key made with a TTL of up to 106751 days authenticates from its
    creation until exactly that many days later, a key made without expiry
    always, and an empty key never. *)
Theorem key_lifetime (keys : gmap string KeyRecord) (name key : string) (ttl now t : Z) (never : bool)
    (Httl : 0 < ttl <= 106751)
    (Hkey : keys !! name = Some (NewRecord key ttl never now)) :
  is_Some (ActiveSecrets keys t !! name) <->
  key <> "" /\ (never = true \/ t < now + ttl * 24 * hour).
Proof.
  assert (Key (NewRecord key ttl never now) = key) as HK by by destruct never.
  assert (Expired (NewRecord key ttl never now) t = false <->
    never = true \/ t < now + ttl * 24 * hour) as HE.
  { unfold Expired, NewRecord. destruct never; simpl; [naive_solver|].
    destruct (Z.leb_spec ttl 0); [lia|]. simpl. rewrite ttl_no_overflow by done.
    rewrite negb_false_iff, Z.ltb_lt. naive_solver. }
  split.
  - intros [k (r & Hr & <- & Hne & He)%ActiveSecrets_Some].
    assert (r = NewRecord key ttl never now) as -> by congruence. rewrite HK in Hne. by rewrite <-HE.
  - intros [Hne He]. exists key. apply ActiveSecrets_Some. eexists. by rewrite HE.
Qed.

Lemma key_lifetime_witness :
  let keys := {[ "ci" := NewRecord "k8e-1" 30 false 0 ]} in
  is_Some (ActiveSecrets keys (30 * 24 * hour - 1) !! "ci") <->
  "k8e-1" <> "" /\ (false = true \/ 30 * 24 * hour - 1 < 0 + 30 * 24 * hour).
Proof. intros keys. apply (key_lifetime keys); [lia|reflexivity]. Defined.

(** The command line accepts TTLs whose duration overflows 64 bits; the
    key is then expired from the start. *)
Theorem long_ttl_is_expired (key : string) (now t : Z) :
  ParseTTL "200000d" = Ok (200000, false) /\
  (now <= t -> Expired (NewRecord key 200000 false now) t = true).
Proof.
  split; [by vm_compute|]. intros Ht. unfold Expired, NewRecord. cbn [ExpiresAt].
  change (200000 <=? 0) with false. cbv iota.
  assert (wrap64 (wrap64 (200000 * 24) * hour) < 0) as Hneg by by vm_compute.
  apply negb_true_iff, Z.ltb_ge. lia.
Qed.

(** Encoding the key file and parsing it again gives the same records. *)
Lemma parse_encode `{J : JsonValues, !JsonRoundTrip J} (keys : gmap string KeyRecord) :
  Parse (Encode keys) = Ok keys.
Proof.
  unfold Parse, Encode, looksStructured.
  rewrite lookup_insert_eq, lookup_insert_ne, lookup_singleton_eq by done.
  rewrite int_round_trip, records_round_trip. by rewrite !bool_decide_eq_true_2 by by eexists.
Qed.

(** A legacy file in which some key is named "version" is taken for the
    structured format and refused as a whole. *)
Lemma legacy_name_refused `{J : JsonValues} (fields : gmap string jv) (v : jv) :
  fields !! "version" = Some v -> as_int v = None -> exists e, Parse (Object fields) = Err e.
Proof.
  intros Hv Hi. exists (Plain "parse api keys v2"). unfold Parse, looksStructured. rewrite Hv.
  rewrite (bool_decide_eq_true_2 (is_Some (Some v))) by by eexists. rewrite orb_true_r.
  by rewrite bool_decide_eq_true_2.
Qed.

(** ** TTL strings *)

Fixpoint digits_only (s : string) : bool :=
  match s with
  | EmptyString => true
  | String c s => bool_decide (is_Some (digit c)) && digits_only s
  end.

Lemma digits_acc_only (s : string) (acc n : Z) : digits_acc s acc = Some n -> digits_only s = true.
Proof.
  revert acc. induction s as [|c s IH]; intros acc; simpl; [done|].
  destruct (digit c) as [d|]; [|done]. intros H. by rewrite (IH _ H).
Qed.

Lemma digit_plain (c : Ascii.ascii) :
  is_Some (digit c) -> lower c = c /\ plain c = true.
Proof.
  unfold digit, lower, plain, is_space. intros [d Hd].
  destruct (48 <=? Z.of_N (Ascii.N_of_ascii c)) eqn:E1; [|done].
  destruct (Z.of_N (Ascii.N_of_ascii c) <=? 57) eqn:E2; [|done].
  apply Z.leb_le in E1, E2.
  set (n := Ascii.N_of_ascii c) in *.
  destruct (N.leb_spec 65 n); [lia|]. split; [done|].
  destruct (N.leb_spec n 13); [lia|]. destruct (N.eqb_spec n 32); [lia|].
  destruct (N.ltb_spec n 128); [|lia]. by rewrite andb_false_r.
Qed.

Lemma ToLower_digits (s u : string) :
  digits_only s = true -> ToLower u = u -> ToLower (s +:+ u) = s +:+ u.
Proof.
  intros Hs Hu. induction s as [|c s IH]; [done|].
  apply andb_true_iff in Hs as [Hc%bool_decide_eq_true Hs].
  rewrite append_cons. unfold ToLower in *. simpl. rewrite (IH Hs).
  by rewrite (proj1 (digit_plain c Hc)).
Qed.

(** Digits and one letter. *)
Lemma TrimSpace_digits (s : string) (x : Ascii.ascii) :
  digits_only s = true -> plain x = true ->
  TrimSpace (s +:+ String x EmptyString) = s +:+ String x EmptyString.
Proof.
  intros Hs Hx. pose proof (rev_append s (String x "")) as Hrev.
  destruct s as [|c s].
  - clear Hrev. rewrite append_nil_l. by apply (TrimSpace_plain x x "" "").
  - apply andb_true_iff in Hs as [Hc%bool_decide_eq_true _]. rewrite append_cons in *.
    eapply TrimSpace_plain; [by apply digit_plain|exact Hx|]. rewrite Hrev.
    change (String.rev (String x "")) with (String x ""). by rewrite append_cons, append_nil_l.
Qed.

Lemma before_suffix_app (c x : Ascii.ascii) (s : string) :
  before_suffix c (s +:+ String x EmptyString) = if Ascii.eqb x c then Some s else None.
Proof.
  induction s as [|y s IH]; [rewrite append_nil_l; simpl; by destruct (Ascii.eqb x c)|].
  rewrite append_cons. cbn [before_suffix]. rewrite IH.
  destruct (s +:+ String x "") as [|z r] eqn:E; [by destruct s|].
  by destruct (Ascii.eqb x c).
Qed.

Lemma not_a_word (s : string) (x : Ascii.ascii) :
  digits_only s = true -> s <> "" ->
  let t := s +:+ String x EmptyString in ~ (t = "never" \/ t = "none" \/ t = "0") /\ t <> "".
Proof.
  intros Hs Hne t. destruct s as [|c s]; [done|]. unfold t. rewrite append_cons.
  apply andb_true_iff in Hs as [Hc%bool_decide_eq_true _].
  split; [|done]. intros [[= -> _]|[[= -> _]|[= _ E]]]; [by destruct Hc..|].
  by destruct s.
Qed.

Lemma ParseTTL_unit (s : string) (x : Ascii.ascii) (n : Z) :
  x = letter_d \/ x = letter_h -> digits_only s = true -> ParseInt s = Some n -> 0 < n ->
  ParseTTL (s +:+ String x EmptyString) =
    Ok (if bool_decide (x = letter_h)
        then let days := go_div (wrap64 (n + 23)) 24 in if days <? 1 then 1 else days
        else n, false).
Proof.
  intros Hx Hs Hn Hpos. unfold ParseTTL.
  assert (s <> "") as Hne by by intros ->.
  destruct (not_a_word s x Hs Hne) as [Hword Hempty].
  rewrite ToLower_digits by (by destruct Hx as [-> | ->]).
  rewrite TrimSpace_digits by (done || by destruct Hx as [-> | ->]).
  rewrite decide_False by done. rewrite decide_False by done.
  rewrite !before_suffix_app.
  destruct Hx as [-> | ->]; simpl; rewrite Hn;
    (destruct (Z.ltb_spec n 0); [lia|]; destruct (Z.eqb_spec n 0); [lia|]); reflexivity.
Qed.

(** [ParseTTL] reads "<n>d" as n days and "<n>h" as the least number of
    days that covers n hours. *)
Theorem ttl_rounds_up (n : Z) (Hn : 0 < n < 2 ^ 63 - 23) :
  ParseTTL (pretty n +:+ "d") = Ok (n, false) /\
  exists days, ParseTTL (pretty n +:+ "h") = Ok (days, false) /\ 24 * (days - 1) < n <= 24 * days.
Proof.
  assert (ParseInt (pretty n) = Some n) as Hp by (apply ParseInt_pretty; lia).
  assert (digits_only (pretty n) = true) as Hd.
  { destruct n as [|p|p]; [lia| |lia].
    pose proof (digits_acc_pretty (N.pos p) "") as H. by eapply digits_acc_only. }
  split; [by apply (ParseTTL_unit _ letter_d n); [left| | |lia]|].
  rewrite (ParseTTL_unit _ letter_h n) by (try lia; auto). rewrite bool_decide_eq_true_2 by done.
  rewrite wrap64_id by (unfold in_int64; lia). rewrite go_div_pos by lia.
  cbv zeta. pose proof (Z.div_mod (n + 23) 24 ltac:(lia)). pose proof (Z.mod_pos_bound (n + 23) 24 ltac:(lia)).
  destruct (Z.ltb_spec ((n + 23) / 24) 1); [lia|]. eexists. split; [reflexivity|]. lia.
Qed.

Lemma ttl_rounds_up_witness :
  ParseTTL "25d" = Ok (25, false) /\
  exists days, ParseTTL "25h" = Ok (days, false) /\ 24 * (days - 1) < 25 <= 24 * days.
Proof. apply (ttl_rounds_up 25). lia. Defined.
