(* ===== verification/Gateway.v ===== *)
(** * The gateway: authentication, keys and the calls into a sandbox

    [pkg/sandboxmatrix/grpc/server.go] and the certificate ledger of
    [cert.go]: the memory of one gateway process, which contains the memory of
    its orchestrator, the API keys and client certificates, the interceptors,
    and the RPC methods. *)
From Stdlib Require Import QArith_base.
From S2P Require Import Prelude Prog Kube Lens SessionEnv GoTime GoText Orchestrator RateLimit ApiKey Expose Runs.

#[local] Open Scope Z_scope.

Definition apiKeySecretName : string := "sandbox-apikeys".
Definition apiKeySecretNS : string := "sandbox-matrix".

(** ** Memory of one gateway *)

Record issuedCertRecord := mkIssued {
  ic_keyName : string; ic_fingerprint : string; ic_issuedAt : Z; ic_expiresAt : Z;
}.

Record terminalEntry := mkTerminal { te_sessionID : string; te_sandboxdID : Z }.

(** The certificate ledger and the revocation list exist once [Start] has set
    them. *)
Record Gw := mkGw {
  g_orch : Orch;
  g_apiKeys : option (gmap string string);          (* name -> key *)
  g_apiKeyByToken : option (gmap string string);    (* key -> name *)
  g_issued : option (list issuedCertRecord);
  g_revoked : option (gmap string Z);               (* fingerprint -> time *)
  g_limiter : Limiter;
  g_terminals : gmap string terminalEntry;
  g_terminalSeq : Z;
}.

Definition NewServer (fqdn : bool) : Gw :=
  mkGw (if fqdn then with_fqdn true NewOrchestrator else NewOrchestrator)
    None None None None (NewLimiter DefaultRateConfig) ∅ 0.

Definition with_orch (o : Orch) (g : Gw) : Gw :=
  mkGw o (g_apiKeys g) (g_apiKeyByToken g) (g_issued g) (g_revoked g) (g_limiter g)
    (g_terminals g) (g_terminalSeq g).
Definition with_keys (keys byToken : option (gmap string string)) (g : Gw) : Gw :=
  mkGw (g_orch g) keys byToken (g_issued g) (g_revoked g) (g_limiter g) (g_terminals g)
    (g_terminalSeq g).
Definition with_issued (l : option (list issuedCertRecord)) (g : Gw) : Gw :=
  mkGw (g_orch g) (g_apiKeys g) (g_apiKeyByToken g) l (g_revoked g) (g_limiter g)
    (g_terminals g) (g_terminalSeq g).
Definition with_revoked (m : option (gmap string Z)) (g : Gw) : Gw :=
  mkGw (g_orch g) (g_apiKeys g) (g_apiKeyByToken g) (g_issued g) m (g_limiter g)
    (g_terminals g) (g_terminalSeq g).
Definition with_limiter (l : Limiter) (g : Gw) : Gw :=
  mkGw (g_orch g) (g_apiKeys g) (g_apiKeyByToken g) (g_issued g) (g_revoked g) l
    (g_terminals g) (g_terminalSeq g).
Definition with_terminals (m : gmap string terminalEntry) (seq : Z) (g : Gw) : Gw :=
  mkGw (g_orch g) (g_apiKeys g) (g_apiKeyByToken g) (g_issued g) (g_revoked g) (g_limiter g) m seq.

Abbreviation gwP := (prog (gwE Gw)).

Definition gnow : gwP Z := call Now.
Definition gmem {X} (f : Gw -> X * Gw) : gwP X := call (Mem f).

(** A call on [s.orch]. *)
Lemma with_own_orch (g : Gw) : with_orch (g_orch g) g = g.
Proof. by destruct g. Qed.

#[export] Instance orch_lens : Lens Orch Gw :=
  mkLens _ _ g_orch with_orch (fun _ _ => eq_refl) with_own_orch (fun _ _ _ => eq_refl).

(** ** API keys *)

Section keys.
Context `{J : JsonValues, MO : MapOrder}.
(** The decoded payload of a non-empty [keys.json]. *)
Context (json_object : string -> payload).

Definition by_token (store : gmap string string) : gmap string string :=
  foldl (fun m e => <[e.2 := e.1]> m) ∅ (iter store).

Definition replaceAPIKeys (store : option (gmap string string)) : gwP unit :=
  gmem (fun g => (tt, with_keys store (by_token <$> store) g)).

Definition lookupAPIKeyName (token : string) : gwP string :=
  gmem (fun g => (default "" (g_apiKeyByToken g ≫= lookup token), g)).

Definition FindByKeyName (keyName : string) (l : list issuedCertRecord) : list issuedCertRecord :=
  filter (fun r => ic_keyName r = keyName) l.

Definition Revoke (fingerprint : string) : gwP unit :=
  do t <- gnow;
  gmem (fun g => (tt, with_revoked (<[fingerprint := t]> <$> g_revoked g) g)).

Definition IsRevoked (fingerprint : string) : gwP bool :=
  do r <- gmem (fun g => (g_revoked g, g));
  match r with
  | None => Panic "nil revocation list"
  | Some m => Ret (bool_decide (is_Some (m !! fingerprint)))
  end.

Definition RevokeByKeyName (keyName : string) : gwP unit :=
  do records <- gmem (fun g => (FindByKeyName keyName (default [] (g_issued g)), g));
  for_each records (fun r => Revoke (ic_fingerprint r)).

(** The payload of the secret; an empty one holds no keys. *)
Definition payload_of (text : string) : payload :=
  if decide (text = "") then Empty else json_object text.

Definition loadAPIKeys : gwP unit :=
  do r <- call (Get KSecret apiKeySecretNS apiKeySecretName);
  match r with
  | Err _ => replaceAPIKeys None
  | Ok secret =>
      match sec_data secret !! "keys.json" with
      | None => replaceAPIKeys None
      | Some text =>
          match Parse (payload_of text) with
          | Err _ => Ret tt
          | Ok records =>
              do t <- gnow;
              let store := ActiveSecrets records t in
              do prev <- gmem (fun g => (g_apiKeys g, g));
              do ready <- gmem (fun g => (bool_decide (is_Some (g_revoked g)) &&
                                          bool_decide (is_Some (g_issued g)), g));
              do! match prev with
                  | Some prev =>
                      if ready : bool then
                        for_each (filter (fun n => store !! n = None) (iter prev).*1) RevokeByKeyName
                      else Ret tt
                  | None => Ret tt
                  end;
              replaceAPIKeys (Some store)
          end
      end
  end.

Definition reloadRateLimits : gwP unit :=
  do r <- call (Kube.List KMatrix sandboxNS SelAll);
  match r with
  | Ok (x :: _) =>
      gmem (fun g => (tt, with_limiter (ReloadConfig
        (Some (default (mkRateLimitSpec 0 0%Q 0 0%Q) (mx_rateLimits x))) (g_limiter g)) g))
  | _ => Ret tt
  end.

(** One tick of the reload loop. *)
Definition reloadConfig : gwP unit := do! loadAPIKeys; reloadRateLimits.

(** ** The certificate ledger *)

Definition AddIssued (keyName fingerprint : string) (issuedAt expiresAt : Z) : gwP unit :=
  gmem (fun g => (tt, with_issued
    ((fun l => l ++ [mkIssued keyName fingerprint issuedAt expiresAt]) <$> g_issued g) g)).

Definition PruneExpired : gwP unit :=
  do t <- gnow;
  gmem (fun g => (tt, with_issued (filter (fun r => t < ic_expiresAt r) <$> g_issued g) g)).

(** ** Peers *)

Record Cert := mkCert {
  crt_commonName : string; crt_notBefore : Z; crt_notAfter : Z;
  crt_fingerprint : string;           (* hex SHA-256 of the DER form *)
}.

(** [pe_tls]: the verified client certificates; [None] without TLS. *)
Record Peer := mkPeer { pe_loopback : bool; pe_tls : option (list Cert) }.

(** What a gRPC context holds. *)
Record Ctx := mkCtx { cx_peer : option Peer; cx_md : option (gmap string (list string)) }.

Definition peerIdentity (cx : Ctx) : gwP (string * bool) :=
  match cx_peer cx with
  | None => Ret ("", false)
  | Some p =>
      match default [] (pe_tls p) with
      | [] => Ret ("", pe_loopback p)
      | cert :: _ =>
          do t <- gnow;
          if (t <? crt_notBefore cert) || (crt_notAfter cert <? t) then Ret ("", false)
          else Ret (crt_commonName cert, false)
      end
  end.

Definition certFingerprintFromContext (cx : Ctx) : string :=
  match cx_peer cx with
  | Some p => match default [] (pe_tls p) with cert :: _ => crt_fingerprint cert | [] => "" end
  | None => ""
  end.

(** [localAuth]: the server's configuration. *)
Definition checkMTLSAuth (localAuth : bool) (cx : Ctx) : gwP (option error) :=
  do id <- peerIdentity cx;
  if snd id && localAuth then Ret None
  else if decide (fst id = "") then Ret (Some (Status Unauthenticated))
  else
    do revoked <- IsRevoked (certFingerprintFromContext cx);
    Ret (if revoked : bool then Some (Status PermissionDenied) else None).

Definition loginMethod : string := "/sandbox.v1.SandboxService/Login".

Definition mTLSAuthInterceptor {A} (localAuth : bool) (cx : Ctx) (method : string)
    (handler : gwP (res A)) : gwP (res A) :=
  if decide (method = loginMethod) then handler
  else
    do err <- checkMTLSAuth localAuth cx;
    match err with Some e => Ret (Err e) | None => handler end.

(** Streams: no method is let off. *)
Definition mTLSStreamInterceptor {A} (localAuth : bool) (cx : Ctx) (handler : gwP (res A)) : gwP (res A) :=
  do err <- checkMTLSAuth localAuth cx;
  match err with Some e => Ret (Err e) | None => handler end.

(** The rate limiter in front of what follows it in a chain. *)
Definition rateLimited {A} (cx : Ctx) (method : string) (next : gwP (res A)) : gwP (res A) :=
  do t0 <- gnow;
  do t <- gnow;
  do err <- gmem (fun g =>
    let '(err, l) := admit_call t0 t (cx_md cx) method (g_limiter g) in (err, with_limiter l g));
  match err with
  | Some e => Ret (Err e)
  | None => next
  end.

(** The chains of [Start]: the rate limiter, then authentication. *)
Definition serveUnary {A} (localAuth : bool) (cx : Ctx) (method : string)
    (handler : gwP (res A)) : gwP (res A) :=
  rateLimited cx method (mTLSAuthInterceptor localAuth cx method handler).

Definition serveStream {A} (localAuth : bool) (cx : Ctx) (method : string)
    (handler : gwP (res A)) : gwP (res A) :=
  rateLimited cx method (mTLSStreamInterceptor localAuth cx handler).

Definition clientCertTTLDays : Z := 90.

(** [signClientCert]: certificate and fingerprint for a CSR and a name. *)
Context (signClientCert : string -> string -> Z -> option (string * string)).

Definition signAndRecord (csr keyName : string) : gwP (res (string * Z)) :=
  do t <- gnow;
  match signClientCert csr keyName t with
  | None => Ret (Err (Status Internal))
  | Some (certPEM, fingerprint) =>
      do! PruneExpired;
      do t1 <- gnow;
      do t2 <- gnow;
      do! AddIssued keyName fingerprint t1 (t2 + clientCertTTLDays * 24 * hour);
      Ret (Ok (certPEM, clientCertTTLDays))
  end.

Definition Login (cx : Ctx) (csr : string) : gwP (res (string * Z)) :=
  do id <- peerIdentity cx;
  if decide (fst id <> "") then signAndRecord csr (fst id)
  else
    match cx_md cx with
    | None => Ret (Err (Status Unauthenticated))
    | Some md =>
        match default [] (md !! "authorization") with
        | [] => Ret (Err (Status Unauthenticated))
        | auth :: _ =>
            do keyName <- lookupAPIKeyName (trim_prefix auth "Bearer ");
            if decide (keyName = "") then Ret (Err (Status Unauthenticated))
            else signAndRecord csr keyName
        end
    end.
End keys.

(** ** Pods of sessions *)

Definition sandboxdCall (ip : string) (r : sbxReq) : gwP (res (Z * option (sbxBody r))) :=
  call (Sandboxd ip r).

Definition first_ip (l : list Pod) : option string :=
  head (filter (fun ip => ip <> "") ((fun p : Pod => pst_podIP (p_status p)) <$> l)).

Definition listSessionPods (id : string) : gwP (res (list Pod)) :=
  call (Kube.List KPod sandboxNS (SelEq labelSessionID id)).

(** The polling loop; [n] rounds are left. *)
Fixpoint pollRounds (n : nat) (wait maxWait : Z) (id : string) : gwP (res string) :=
  match n with
  | O => Ret (Err (Status FailedPrecondition))
  | S n =>
      do ok <- call (Sleep wait);
      if negb ok then Ret (Err (Status Canceled))
      else
        do r <- listSessionPods id;
        match (match r with Ok l => first_ip l | Err _ => None end) with
        | Some ip => Ret (Ok ip)
        | None =>
            let wait := wait * 2 in
            pollRounds n (if maxWait <? wait then maxWait else wait) maxWait id
        end
  end.

Definition pollForPodIP (id : string) : gwP (res string) := pollRounds 12 second (5 * second) id.

Definition getPodIP (id : string) : gwP (res string) :=
  do r <- call (Get KSession sandboxNS id);
  match r with
  | Err _ => Ret (Err (Status NotFound))
  | Ok s =>
      let podIP := PodIP (s_status s) in
      if decide (podIP <> "") then
        do r <- listSessionPods id;
        Ret (match r with Ok [] => Err (Status NotFound) | _ => Ok podIP end)
      else pollForPodIP id
  end.

(** ** The environment of a command *)

Definition readSecretKey (secretName key : string) : gwP (res string) :=
  try sec <- call (Get KSecret sandboxNS secretName);
  Ret (match sec_data sec !! key with Some v => Ok v | None => Err (Plain "key not found") end).

Fixpoint resolveRefs (refs : list SecretRef) (out : gmap string string)
    : gwP (res (gmap string string)) :=
  match refs with
  | [] => Ret (Ok out)
  | ref :: refs =>
      do v <- readSecretKey (sr_secretName ref) (sr_key ref);
      match v with
      | Err _ => Ret (Err (Status FailedPrecondition))
      | Ok val => resolveRefs refs (<[sr_envVar ref := val]> out)
      end
  end.

Definition resolveSessionEnv (id : string) : gwP (res (gmap string string)) :=
  do r <- zoom (getSession id);
  match r with
  | Err _ => Ret (Ok ∅)
  | Ok sess => resolveRefs (SecretRefs (s_spec sess)) (Env (s_spec sess))
  end.

Definition getSessionEnv (id : string) : gwP (gmap string string) :=
  do r <- resolveSessionEnv id;
  Ret (match r with Ok env => env | Err _ => ∅ end).

(** ** Executing commands *)

Record ExecRequest := mkExecRequest {
  er_sessionId : string; er_command : string; er_timeout : Z; er_workdir : string;
  er_background : bool; er_language : string;
}.

Record ExecResponse := mkExecResponse {
  es_stdout : string; es_stderr : string; es_exitCode : Z; es_sessionId : string; es_runId : string;
  es_status : string; es_durationMs : Z; es_truncated : bool; es_language : string;
}.

Definition zero_result : ExecResult := mkExecResult "" "" 0 0 false false.

Definition execResponse (req : ExecRequest) (timeout elapsed : Z) (result : ExecResult) : ExecResponse :=
  let duration := if xr_durationMs result <=? 0 then elapsed else xr_durationMs result in
  let truncated := xr_truncated result || (maxExecOutputBytes <=? strlen (xr_stdout result))
                   || (maxExecOutputBytes <=? strlen (xr_stderr result)) in
  let timedOut := xr_timedOut result ||
    ((0 <? timeout) && (timeout * 1000 <=? duration) && negb (xr_exitCode result =? 0)) in
  mkExecResponse (xr_stdout result) (xr_stderr result) (xr_exitCode result) (er_sessionId req) ""
    (classifyExecStatus timedOut false) duration truncated (er_language req).

Definition Exec (req : ExecRequest) : gwP (res ExecResponse) :=
  let id := er_sessionId req in
  if er_background req then
    try env <- resolveSessionEnv id;
    do r <- zoom (ExecBackground id (er_command req) (er_timeout req) (er_workdir req) env);
    Ret (match r with
         | Err _ => Err (Status Internal)
         | Ok runID => Ok (mkExecResponse "" "" 0 id runID execStatusStarted 0 false (er_language req))
         end)
  else
    try podIP <- getPodIP id;
    let timeout := if decide (er_timeout req = 0) then 30 else er_timeout req in
    let workdir := if decide (er_workdir req = "") then "/workspace" else er_workdir req in
    try env <- resolveSessionEnv id;
    let body := sandboxdExecBody id (er_command req) timeout workdir env in
    do start <- gnow;
    do resp <- sandboxdCall podIP (SExec body);
    do t <- gnow;
    let elapsed := go_div (t - start) 1000000 in
    match resp with
    | Err _ => Ret (Err (Status Unavailable))
    | Ok (_, decoded) => Ret (Ok (execResponse req timeout elapsed (default zero_result decoded)))
    end.

(** The chunks sent on, whatever the HTTP status, and the result. *)
Definition ExecStream (req : ExecRequest) : gwP (list string * res unit) :=
  do ip <- getPodIP (er_sessionId req);
  match ip with
  | Err e => Ret ([], Err e)
  | Ok podIP =>
      let timeout := if decide (er_timeout req = 0) then 30 else er_timeout req in
      let workdir := if decide (er_workdir req = "") then "/workspace" else er_workdir req in
      do env <- resolveSessionEnv (er_sessionId req);
      match env with
      | Err e => Ret ([], Err e)
      | Ok env =>
          do r <- sandboxdCall podIP
            (SExecStream (sandboxdExecBody (er_sessionId req) (er_command req) timeout workdir env));
          Ret (match r return list string * res unit with
               | Err _ => ([], Err (Status Unavailable))
               | Ok (_, body) =>
                   let '(chunks, broken) := default ([], false) body in
                   (chunks, if broken : bool then Err (Status Internal) else Ok tt)
               end)
      end
  end.

Fixpoint sanitizeAll (packages : list string) : res (list string) :=
  match packages with
  | [] => Ok []
  | p :: packages =>
      match sanitizePipPackage p with
      | Err _ => Err (Status InvalidArgument)
      | Ok v => match sanitizeAll packages with Ok l => Ok (v :: l) | Err e => Err e end
      end
  end.

Definition PipInstall (id : string) (packages : list string) : gwP (res (string * Z)) :=
  if decide (packages = []) then Ret (Err (Status InvalidArgument))
  else
    match sanitizeAll packages with
    | Err e => Ret (Err e)
    | Ok safe =>
        let cmd := "pip install --no-cache-dir " +:+ join_with " " safe in
        try r <- Exec (mkExecRequest id cmd 120 "" false "");
        Ret (Ok (es_stdout r +:+ es_stderr r, es_exitCode r))
    end.

(** ** Files, transcripts, events *)

Definition WriteFile (id file content mode : string) : gwP (res bool) :=
  try podIP <- getPodIP id;
  let mode := if decide (mode = "") then "w" else mode in
  do r <- sandboxdCall podIP (SWrite file content mode);
  Ret (match r with Err _ => Err (Status Unavailable) | Ok (code, _) => Ok (code =? 200) end).

Definition ReadFile (id file : string) : gwP (res string) :=
  try podIP <- getPodIP id;
  match request_target ("/files/read?path=" +:+ file) with
  | None => Ret (Err (Status Unavailable))
  | Some target =>
      do r <- sandboxdCall podIP (SRead target);
      Ret (match r with Err _ => Err (Status Unavailable) | Ok (_, b) => Ok (default "" b) end)
  end.

(** Path, modification time, type and size of an entry of [ListFiles]. *)
Definition fileEntry (f : FileInfo) : FileInfo :=
  let ty := fi_type f in
  mkFileInfo (fi_path f) (fi_modified f)
    (if decide (ty = "file" \/ ty = "symlink" \/ ty = "other") then ty
     else if decide (ty = "dir") then "directory" else "")
    (if decide (ty = "") then 0 else fi_size f).

Definition ListFiles (id : string) (since : Z) : gwP (res (list FileInfo)) :=
  try podIP <- getPodIP id;
  do r <- sandboxdCall podIP (SList since);
  Ret (match r with
       | Err _ => Err (Status Unavailable)
       | Ok (_, b) => Ok (fileEntry <$> default [] b)
       end).

Definition GetTranscript (id : string) (offset limit : Z) : gwP (res Transcript) :=
  try podIP <- getPodIP id;
  do r <- sandboxdCall podIP (STranscript id offset limit);
  Ret (match r with
       | Err _ => Err (Status Unavailable)
       | Ok (code, b) =>
           if code =? 404 then Ok (mkTranscript "" 0 0 false true)
           else if negb (code =? 200) then Err (Status Internal)
           else Ok (default (mkTranscript "" 0 0 false false) b)
       end).

(** The events, their number, and whether more may follow. *)
Definition GetEvents (id : string) (limit : Z) : gwP (res (list string * Z * bool)) :=
  try podIP <- getPodIP id;
  let limit := if decide (limit = 0) then 500 else limit in
  do r <- sandboxdCall podIP (SEvents limit);
  Ret (match r with
       | Err _ => Err (Status Unavailable)
       | Ok (code, b) =>
           if code =? 404 then Ok ([], 0, false)
           else if negb (code =? 200) then Err (Status Internal)
           else match b with
                | None => Err (Status Internal)
                | Some l => Ok (l, Z.of_nat (length l), Z.of_nat (length l) =? limit)
                end
       end).

Definition GetProcesses (id : string) : gwP (res (list (Z * string * string))) :=
  try podIP <- getPodIP id;
  do r <- sandboxdCall podIP SProcesses;
  Ret (match r with
       | Err _ => Err (Status Unavailable)
       | Ok (code, b) =>
           if negb (code =? 200) then Err (Status Internal)
           else match b with None => Err (Status Internal) | Some l => Ok l end
       end).

(** ** Session RPCs *)

Definition exposeBaseURL (override advertiseHostname : string) : string :=
  if decide (override <> "") then
    match before_suffix (Ascii.Ascii true true true true false true false false) override with
    | Some base => base                      (* one trailing "/" removed *)
    | None => override
    end
  else if decide (advertiseHostname <> "") then "http://" +:+ advertiseHostname
  else "http://localhost".

(** [status.Errorf(code, ..., err)]. *)
Definition as_status {A} (c : code) (r : res A) : res A :=
  match r with Ok a => Ok a | Err _ => Err (Status c) end.

Section rpcs.
Context `{QuantityParser}.

(** Session id and pod address of the answer. *)
Definition CreateSessionRPC (req : CreateSessionRequest) : gwP (res (string * string)) :=
  match validateSessionEnv (cr_env req) (cr_envOrder req) with
  | Some _ => Ret (Err (Status InvalidArgument))
  | None =>
      match validateSecretRefs (cr_secretRefs req) with
      | Some _ => Ret (Err (Status InvalidArgument))
      | None =>
          try _ <- zoom CheckCapacity;
          do r <- zoom (CreateSession req);
          Ret (match r with
               | Err _ => Err (Status Internal)
               | Ok s => Ok (m_name (s_meta s), PodIP (s_status s))
               end)
      end
  end.

(** [keys]: the iteration order of the session's environment. *)
Definition GetSessionRPC (keys : SandboxSession -> list string) (id : string)
    : gwP (res GetSessionResponse) :=
  if decide (id = "") then Ret (Err (Status InvalidArgument))
  else
    do r <- zoom (getSession id);
    match r with
    | Err _ => Ret (Err (Status NotFound))
    | Ok s => do n <- zoom (countBackgroundRuns id); Ret (Ok (sessionToProtoView s n (keys s)))
    end.

Fixpoint viewAll (keys : SandboxSession -> list string) (l : list SandboxSession)
    : gwP (list GetSessionResponse) :=
  match l with
  | [] => Ret []
  | s :: l =>
      do n <- zoom (countBackgroundRuns (m_name (s_meta s)));
      do out <- viewAll keys l;
      Ret (sessionToProtoView s n (keys s) :: out)
  end.

Definition ListSessionsRPC (keys : SandboxSession -> list string) (phase : string)
    : gwP (res (list GetSessionResponse)) :=
  let phase := if decide (phase = "") then SandboxPhaseActive else phase in
  do r <- zoom (listSessions sandboxNS phase);
  match r with
  | Err _ => Ret (Err (Status Internal))
  | Ok l => do out <- viewAll keys l; Ret (Ok out)
  end.

Definition DestroySessionRPC (id : string) : gwP (res unit) :=
  do r <- zoom (DestroySession id); Ret (as_status Internal r).

Definition PauseSessionRPC (id : string) : gwP (res unit) :=
  if decide (id = "") then Ret (Err (Status InvalidArgument)) else zoom (PauseSession id).

Definition ResumeSessionRPC (id : string) : gwP (res unit) :=
  if decide (id = "") then Ret (Err (Status InvalidArgument))
  else do r <- zoom (ResumeSession id); Ret (match r with Ok _ => Ok tt | Err e => Err e end).

Definition ExposeServiceRPC (override advertiseHostname id : string) (port : Z) (host : string)
    : gwP (res string) :=
  zoom (ExposeService id port host (exposeBaseURL override advertiseHostname)).

End rpcs.
