(* ===== verification/E2bKeys.v ===== *)
(** * Keys, tokens and signatures of the E2B surface

    [pkg/sandbox/e2b/apikey.go], the credential functions of [server.go], the
    access tokens and signed URLs of [protocol.go] and [files.go], and the key
    ring of the embedded server ([pkg/server/e2b_embedded.go]). *)
From Stdlib Require Import ZArith Lia Strings.Byte.
From S2P Require Import Prelude Prog Kube GoTime GoText Sha256 ApiKey Gateway Connect.

#[local] Open Scope Z_scope.

(** ** Bare tokens *)

Definition hex_only (s : string) : bool := negb (bool_decide (s = "")) && all_chars is_hex s.

Definition NormalizeE2BAPIKey (key : string) : string := trim_prefix (TrimSpace key) "e2b_".

Definition ValidateE2BAPIKey (key : string) : option error :=
  let bare := NormalizeE2BAPIKey key in
  if decide (bare = "") then None
  else if hex_only bare then None else Some (Plain "not compatible").

Definition SDKAPIKey (bare : string) : string :=
  let bare := NormalizeE2BAPIKey bare in
  if decide (bare = "") then "" else "e2b_" +:+ bare.

(** The loop, with what it has seen. *)
Fixpoint normalize_from (seen : gset string) (keys : list string) : list string :=
  match keys with
  | [] => []
  | k :: keys =>
      let k := NormalizeE2BAPIKey k in
      if decide (k = "" \/ k ∈ seen) then normalize_from seen keys
      else k :: normalize_from ({[k]} ∪ seen) keys
  end.

Definition normalizeKeyList (keys : list string) : list string := normalize_from ∅ keys.

Definition stripE2BPrefix (presented : string) : string := trim_prefix presented "e2b_".

(** The bytes of two strings, or-ed differences. *)
Fixpoint differences (a b : string) (v : Z) : Z :=
  match a, b with
  | String x a, String y b =>
      differences a b (Z.lor v (Z.lxor (Z.of_N (Ascii.N_of_ascii x)) (Z.of_N (Ascii.N_of_ascii y))))
  | _, _ => v
  end.

Definition constantTimeEqual (a b : string) : bool :=
  if negb (String.length a =? String.length b)%nat then false
  else differences a b 0 =? 0.

(** ** The key of a request *)

(** The header fields; [X-API-Key] and [X-API-KEY] are one field to
    [http.Header.Get]. *)
Record Headers := mkHeaders { h_authorization : string; h_apikey : string }.

Definition credentialFromHeaders (h : Headers) : string :=
  if has_prefix (h_authorization h) "Bearer " then
    stripE2BPrefix (trim_prefix (h_authorization h) "Bearer ")
  else if decide (h_apikey h <> "") then stripE2BPrefix (h_apikey h)
  else "".

(** [apiKeys]: the key ring of the server. *)
Definition acceptKey (apiKeys : list string) (bare : string) : bool :=
  if decide (bare = "") then false else existsb (fun k => constantTimeEqual k bare) apiKeys.

(** ** The keys of the secret *)

Definition SecretKeySet : Type := gmap string KeyRecord.

Section active.
Context `{MO : MapOrder}.

Definition Active (s : SecretKeySet) (now : Z) : list string :=
  normalizeKeyList ((iter (ActiveSecrets s now)).*2).

Record e2bAPIKeyCache := mkCache { kc_static : string; kc_snapshot : SecretKeySet; kc_have : bool }.

(** The keys to install, if any, and the cache afterwards. *)
Definition refresh (ok : bool) (set : SecretKeySet) (now : Z) (c : e2bAPIKeyCache)
    : option (list string) * e2bAPIKeyCache :=
  if ok then
    (Some (kc_static c :: Active set now), mkCache (kc_static c) set true)
  else if negb (kc_have c) then (None, c)
  else (Some [kc_static c], mkCache (kc_static c) ∅ false).

(** [ReplaceAPIKeys] *)
Definition ReplaceAPIKeys (keys : list string) : list string := normalizeKeyList keys.

(** One reload: the key ring and the cache after it. *)
Definition reload (load : option SecretKeySet * Z) (s : list string * e2bAPIKeyCache)
    : list string * e2bAPIKeyCache :=
  let '(keys, c) := refresh (bool_decide (is_Some load.1)) (default ∅ load.1) load.2 s.2 in
  (match keys with Some keys => ReplaceAPIKeys keys | None => s.1 end, c).

(** The embedded server: [NewServer], then one reload after the other. *)
Definition boot (static : string) : list string * e2bAPIKeyCache :=
  (normalizeKeyList [static], mkCache static ∅ false).

Definition keyring (static : string) (loads : list (option SecretKeySet * Z)) : list string :=
  (foldl (fun s load => reload load s) (boot static) loads).1.
End active.

(** [loadSandboxAPIKeys]: [None] when the snapshot is not authoritative. *)
Definition loadSandboxAPIKeys {M} `{J : JsonValues} (json_object : string -> ApiKey.payload)
    : prog (gwE M) (option SecretKeySet) :=
  do r <- call (Get KSecret apiKeySecretNS apiKeySecretName);
  Ret (match r with
       | Err e => if is_not_found e then Some ∅ else None
       | Ok secret =>
           match sec_data secret !! "keys.json" with
           | None => Some ∅
           | Some text =>
               match Parse (payload_of json_object text) with
               | Ok records => Some records
               | Err _ => None
               end
           end
       end).

(** ** Comparison *)

Lemma differences_zero (a b : string) (v : Z) :
  String.length a = String.length b -> 0 <= v ->
  (differences a b v = 0 <-> v = 0 /\ a = b).
Proof.
  revert b v. induction a as [|x a IH]; intros [|y b] v Hlen Hv; simpl in *; try done.
  - split; [by intros ->|by intros []].
  - injection Hlen as Hlen.
    set (xn := Z.of_N (Ascii.N_of_ascii x)). set (yn := Z.of_N (Ascii.N_of_ascii y)).
    assert (0 <= Z.lxor xn yn) by (apply Z.lxor_nonneg; unfold xn, yn; lia).
    rewrite IH by (done || by apply Z.lor_nonneg). rewrite Z.lor_eq_0_iff, Z.lxor_eq_0_iff.
    split.
    + intros [[-> Hxy] ->]. split; [done|]. f_equal.
      unfold xn, yn in Hxy. apply N2Z.inj in Hxy.
      by rewrite <- (Ascii.ascii_N_embedding x), Hxy, Ascii.ascii_N_embedding.
    + intros [-> [= -> ->]]. done.
Qed.

Lemma constantTimeEqual_eq (a b : string) :
  constantTimeEqual a b = bool_decide (a = b).
Proof.
  unfold constantTimeEqual. apply eq_bool_prop_intro. rewrite bool_decide_spec.
  destruct (Nat.eqb_spec (String.length a) (String.length b)) as [Hlen|Hlen]; simpl.
  - rewrite Is_true_true, Z.eqb_eq, differences_zero by done. naive_solver.
  - split; [done|]. by intros ->.
Qed.

Lemma acceptKey_spec (apiKeys : list string) (bare : string) :
  acceptKey apiKeys bare = true <-> bare <> "" /\ bare ∈ apiKeys.
Proof.
  unfold acceptKey. case_decide as Hb; [by split; [|intros []]|].
  rewrite existsb_exists. split.
  - intros (k & Hin & Heq). split; [done|].
    rewrite constantTimeEqual_eq in Heq. apply bool_decide_eq_true in Heq as <-.
    by apply list_elem_of_In.
  - intros [_ Hin]. exists bare. rewrite constantTimeEqual_eq.
    split; [by apply list_elem_of_In|by apply bool_decide_eq_true].
Qed.

(** ** The key ring *)

Lemma elem_of_normalize_from (k : string) (seen : gset string) (keys : list string) :
  k ∈ normalize_from seen keys <-> k <> "" /\ k ∉ seen /\ exists x, x ∈ keys /\ k = NormalizeE2BAPIKey x.
Proof.
  revert seen. induction keys as [|x keys IH]; intros seen; simpl.
  { split; [by intros ?%not_elem_of_nil|]. by intros (_ & _ & x & ?%not_elem_of_nil & _). }
  set (y := NormalizeE2BAPIKey x). setoid_rewrite elem_of_cons.
  case_decide as Hy; [|rewrite elem_of_cons]; rewrite IH.
  - split; [naive_solver|]. intros (Hk & Hseen & z & [->|Hz] & ->); [|naive_solver].
    by destruct Hy.
  - assert (y <> "" /\ y ∉ seen) as [Hne Hseen] by tauto. rewrite not_elem_of_union, not_elem_of_singleton.
    split.
    + intros [->|(? & [? ?] & z & ? & ?)]; [|naive_solver]. split; [done|]. split; [done|]. eauto.
    + intros (Hk & Hks & z & [->|Hz] & ->); [by left|].
      destruct (decide (NormalizeE2BAPIKey z = y)) as [->|]; [by left|]. right. naive_solver.
Qed.

Lemma elem_of_normalizeKeyList (k : string) (keys : list string) :
  k ∈ normalizeKeyList keys <-> k <> "" /\ exists x, x ∈ keys /\ k = NormalizeE2BAPIKey x.
Proof. unfold normalizeKeyList. rewrite elem_of_normalize_from. set_solver. Qed.

Section ring.
Context `{MO : MapOrder}.

(** The keys the ring holds after the last load. *)
Definition ring_after (static : string) (load : option (option SecretKeySet * Z)) : list string :=
  match load with
  | Some (Some set, t) => normalizeKeyList (static :: Active set t)
  | _ => normalizeKeyList [static]
  end.

Lemma keyring_state (static : string) (loads : list (option SecretKeySet * Z)) :
  let s := foldl (fun s load => reload load s) (boot static) loads in
  s.1 = ring_after static (last loads) /\ kc_static s.2 = static /\
  (kc_have s.2 = false -> s.1 = normalizeKeyList [static]).
Proof.
  induction loads as [|[[set|] t] loads IH] using rev_ind; [done|..];
    rewrite foldl_snoc, last_snoc; cbn zeta in *; destruct IH as (H1 & H2 & H3);
    set (s := foldl _ _ _) in *; unfold reload, refresh; simpl.
  - by rewrite H2.
  - destruct (kc_have s.2); simpl; [by rewrite H2|]. by rewrite H3.
Qed.

Lemma elem_of_Active (k : string) (set : SecretKeySet) (t : Z) :
  k ∈ Active set t <-> k <> "" /\ exists name r, set !! name = Some r /\ Expired r t = false /\
    Key r <> "" /\ k = NormalizeE2BAPIKey (Key r).
Proof.
  unfold Active. rewrite elem_of_normalizeKeyList. apply and_iff_compat_l. split.
  - intros (x & Hx & ->). apply list_elem_of_fmap in Hx as ([name secret] & -> & Hin).
    apply elem_of_iter, ActiveSecrets_Some in Hin as (r & ? & <- & ? & ?).
    by exists name, r.
  - intros (name & r & Hr & Hexp & Hne & ->). exists (Key r). split; [|done].
    apply list_elem_of_fmap. exists (name, Key r). split; [done|].
    apply elem_of_iter, ActiveSecrets_Some. by exists r.
Qed.

(** After any sequence of reloads, failed ones included, a bare token is
    accepted exactly when it is the static key or a key of the secret that
    the last load read and that had not expired then; a failed load leaves the
    static key only. *)
Theorem keyring_exact (static : string) (loads : list (option SecretKeySet * Z)) (bare : string) :
  acceptKey (keyring static loads) bare = true <->
  bare <> "" /\
  (bare = NormalizeE2BAPIKey static \/
   exists set t name r, last loads = Some (Some set, t) /\ set !! name = Some r /\
     Expired r t = false /\ Key r <> "" /\
     NormalizeE2BAPIKey (Key r) <> "" /\ bare = NormalizeE2BAPIKey (NormalizeE2BAPIKey (Key r))).
Proof.
  rewrite acceptKey_spec. unfold keyring.
  destruct (keyring_state static loads) as (-> & _ & _). unfold ring_after.
  assert (forall x l, bare ∈ normalizeKeyList (x :: l) <-> bare <> "" /\
    (bare = NormalizeE2BAPIKey x \/ exists y, y ∈ l /\ bare = NormalizeE2BAPIKey y)) as Hcons.
  { intros x l. rewrite elem_of_normalizeKeyList. setoid_rewrite elem_of_cons. naive_solver. }
  destruct (last loads) as [[[set|] t]|]; rewrite Hcons.
  - split.
    + intros (Hne & _ & [->|(y & Hy & ->)]); [naive_solver|].
      apply elem_of_Active in Hy as (Hy & name & r & ? & ? & ? & ->). split; [done|]. right.
      by exists set, t, name, r.
    + intros (Hne & [->|(set' & t' & name & r & [= <- <-] & ? & ? & ? & ? & ->)]); [naive_solver|].
      split; [done|]. split; [done|]. right. exists (NormalizeE2BAPIKey (Key r)). split; [|done].
      apply elem_of_Active. eauto 10.
  - split; [|naive_solver]. intros (Hne & _ & [->|(y & ?%elem_of_nil & _)]); [naive_solver|done].
  - split; [|naive_solver]. intros (Hne & _ & [->|(y & ?%elem_of_nil & _)]); [naive_solver|done].
Qed.

(** The key the SDK is given, in either header, is accepted whatever the
    reloads did. *)
Lemma sdk_key_accepted (static : string) (loads : list (option SecretKeySet * Z)) (h : Headers) :
  NormalizeE2BAPIKey static <> "" ->
  h_authorization h = "Bearer " +:+ SDKAPIKey static \/
  has_prefix (h_authorization h) "Bearer " = false /\ h_apikey h = SDKAPIKey static ->
  acceptKey (keyring static loads) (credentialFromHeaders h) = true.
Proof.
  intros Hne Hh. assert (credentialFromHeaders h = NormalizeE2BAPIKey static) as ->.
  { unfold credentialFromHeaders, SDKAPIKey in *. rewrite decide_False in Hh by done.
    assert (forall s, stripE2BPrefix ("e2b_" +:+ s) = s) as Hstrip.
    { intros s. unfold stripE2BPrefix, trim_prefix. by rewrite strip_prefix_app. }
    destruct Hh as [-> | [-> ->]].
    - rewrite (proj2 (has_prefix_spec _ _)) by (by eexists).
      unfold trim_prefix at 1. by rewrite strip_prefix_app, Hstrip.
    - rewrite decide_True by done. apply Hstrip. }
  apply acceptKey_spec. split; [done|]. unfold keyring.
  destruct (keyring_state static loads) as (-> & _ & _). unfold ring_after.
  destruct (last loads) as [[[set|] t]|]; apply elem_of_normalizeKeyList; set_solver.
Qed.
End ring.
