(* ===== verification/E2bState.v ===== *)
(** * The bookkeeping of the E2B server

    [pkg/sandbox/e2b/state_store.go], [registry.go] and [crd_state.go]: the
    deadline, pause mark and metadata of each sandbox, behind one interface.
    One implementation keeps them in memory, the other in an annotation of the
    session object, so that the control-plane nodes share them.

    JSON and the local time zone are parameters. *)
From Stdlib Require Import ZArith Lia.
From S2P Require Import Prelude Prog Kube GoTime Sha256 Orchestrator Rules Gateway.

#[local] Open Scope Z_scope.

(** A [time.Time] that may be zero is an [option Z]. *)
Record registryEntry := mkEntry {
  re_sandboxID : string;
  re_deadlineAt : option Z;
  re_onDeadline : string;             (* "kill" | "pause" *)
  re_createdAt : option Z;
  re_metadata : gmap string string;
  re_runtimeName : string;
  re_pausedByUser : bool;
}.

Definition with_deadline (d : option Z) (e : registryEntry) : registryEntry :=
  mkEntry (re_sandboxID e) d (re_onDeadline e) (re_createdAt e) (re_metadata e) (re_runtimeName e)
    (re_pausedByUser e).
Definition with_paused (b : bool) (e : registryEntry) : registryEntry :=
  mkEntry (re_sandboxID e) (re_deadlineAt e) (re_onDeadline e) (re_createdAt e) (re_metadata e)
    (re_runtimeName e) b.

Definition metadata_name (e : registryEntry) : string := default "" (re_metadata e !! "name").

(** [candidate.After(deadline)] *)
Definition after (candidate : Z) (deadline : option Z) : bool :=
  match deadline with None => true | Some d => d <? candidate end.

(** [time.Now().Add(time.Duration(seconds) * time.Second)] *)
Definition seconds_from (t seconds : Z) : Z := t + wrap64 (seconds * second).

(** ** The interface *)

Class StateStore (M : Type) := mkStore {
  put : registryEntry -> prog (gwE M) unit;
  get : string -> prog (gwE M) (option registryEntry);
  byKeyName : string -> prog (gwE M) (option string);
  del : string -> prog (gwE M) unit;
  ids : prog (gwE M) (list string);
  deadlineOf : string -> prog (gwE M) (option Z);
  extendDeadline : string -> Z -> prog (gwE M) (option Z);
  clearDeadline : string -> prog (gwE M) unit;
  markPaused : string -> bool -> prog (gwE M) unit;
  isPaused : string -> prog (gwE M) bool;
}.

(** ** In memory *)

Record Registry := mkRegistry {
  byID : gmap string registryEntry;
  byName : gmap string string;
}.

Definition newSandboxRegistry : Registry := mkRegistry ∅ ∅.

Section memory.
Context `{MO : MapOrder}.

Definition locked {X} (f : Registry -> X * Registry) : prog (gwE Registry) X := call (Mem f).

Definition reg_put (e : registryEntry) : prog (gwE Registry) unit :=
  locked (fun r => (tt, mkRegistry (<[re_sandboxID e := e]> (byID r))
    (if decide (metadata_name e <> "") then <[metadata_name e := re_sandboxID e]> (byName r) else byName r))).

Definition reg_get (id : string) : prog (gwE Registry) (option registryEntry) :=
  locked (fun r => (byID r !! id, r)).

Definition reg_byKeyName (name : string) : prog (gwE Registry) (option string) :=
  locked (fun r => (byName r !! name, r)).

Definition reg_del (id : string) : prog (gwE Registry) unit :=
  locked (fun r => (tt, mkRegistry (delete id (byID r))
    (match byID r !! id with
     | Some e => if decide (metadata_name e <> "") then delete (metadata_name e) (byName r) else byName r
     | None => byName r
     end))).

Definition reg_deadlineOf (id : string) : prog (gwE Registry) (option Z) :=
  do e <- reg_get id; Ret (e ≫= re_deadlineAt).

(** The clock is read under the lock. *)
Definition reg_extendDeadline (id : string) (seconds : Z) : prog (gwE Registry) (option Z) :=
  do t <- call Now;
  locked (fun r =>
    match byID r !! id with
    | None => (None, r)
    | Some e =>
        let candidate := seconds_from t seconds in
        if after candidate (re_deadlineAt e)
        then (Some candidate, mkRegistry (<[id := with_deadline (Some candidate) e]> (byID r)) (byName r))
        else (re_deadlineAt e, r)
    end).

Definition reg_change (id : string) (f : registryEntry -> registryEntry) : prog (gwE Registry) unit :=
  locked (fun r => (tt,
    match byID r !! id with
    | Some e => mkRegistry (<[id := f e]> (byID r)) (byName r)
    | None => r
    end)).

Definition reg_clearDeadline (id : string) : prog (gwE Registry) unit := reg_change id (with_deadline None).
Definition reg_markPaused (id : string) (paused : bool) : prog (gwE Registry) unit :=
  reg_change id (with_paused paused).

Definition reg_isPaused (id : string) : prog (gwE Registry) bool :=
  locked (fun r => (match byID r !! id with Some e => re_pausedByUser e | None => false end, r)).

Definition reg_ids : prog (gwE Registry) (list string) := locked (fun r => ((iter (byID r)).*1, r)).

#[export] Instance sandboxRegistry : StateStore Registry :=
  mkStore Registry reg_put reg_get reg_byKeyName reg_del reg_ids reg_deadlineOf reg_extendDeadline
    reg_clearDeadline reg_markPaused reg_isPaused.
End memory.

(** ** In the session objects *)

Definition e2bStateAnnotation : string := "sandbox.k8e.io/e2b-state".
Definition e2bNameIndexAnnotation : string := "sandbox.k8e.io/e2b-name".

(** Times are RFC 3339 texts; the empty text is the zero time. *)
Record e2bState := mkE2bState {
  es_deadlineAt : string; es_onDeadline : string; es_createdAt : string;
  es_metadata : gmap string string; es_runtimeName : string; es_pausedByUser : bool;
}.

Definition is_ascii (c : Ascii.ascii) : bool := (Ascii.N_of_ascii c <? 128)%N.

(** [encoding/json] on [e2bState]: strings must be valid UTF-8 to come back. *)
Class StateJSON := mkStateJSON {
  utf8 : string -> Prop;
  utf8_ascii : forall s, all_chars is_ascii s = true -> utf8 s;
  marshal : e2bState -> string;
  unmarshal : string -> option e2bState;
  marshal_not_empty : forall st, marshal st <> "";
  unmarshal_marshal : forall st,
    utf8 (es_deadlineAt st) -> utf8 (es_onDeadline st) -> utf8 (es_createdAt st) ->
    utf8 (es_runtimeName st) -> map_Forall (fun k v => utf8 k /\ utf8 v) (es_metadata st) ->
    unmarshal (marshal st) = Some st;
}.

(** [t.Format(time.RFC3339)] in the zone of the process: offsets are whole
    minutes between 1970 and 2200. *)
Definition in_service (t : Z) : Prop := 0 <= t < 7258118400 * second.

Class LocalZone := mkZone {
  Format : Z -> string;
  Format_ascii : forall t, in_service t -> all_chars is_ascii (Format t) = true;
  parse_Format : forall t, in_service t -> parse_rfc3339 (Format t) = Some (t / second * second);
}.

Section crd.
Context `{SJ : StateJSON, LZ : LocalZone}.

(** The name cache of one process. *)
Definition NameCache : Type := gmap string string.

Definition parseRFC3339 (s : string) : option Z := if decide (s = "") then None else parse_rfc3339 s.

Definition entry_of_state (id : string) (st : e2bState) : registryEntry :=
  mkEntry id (parseRFC3339 (es_deadlineAt st)) (es_onDeadline st) (parseRFC3339 (es_createdAt st))
    (es_metadata st) (es_runtimeName st) (es_pausedByUser st).

Definition state_of_entry (e : registryEntry) : e2bState :=
  mkE2bState (default "" (Format <$> re_deadlineAt e)) (re_onDeadline e)
    (default "" (Format <$> re_createdAt e)) (re_metadata e) (re_runtimeName e) (re_pausedByUser e).

Definition empty_state : e2bState := mkE2bState "" "" "" ∅ "" false.

Definition readState (u : SandboxSession) : e2bState :=
  match m_annots (s_meta u) !! e2bStateAnnotation with
  | None => empty_state
  | Some raw => if decide (raw = "") then empty_state else default empty_state (unmarshal raw)
  end.

Definition with_annots (a : gmap string string) (u : SandboxSession) : SandboxSession :=
  let m := s_meta u in
  mkSession (mkMeta (m_ns m) (m_name m) (m_generateName m) (m_labels m) a (m_rv m) (m_created m))
    (s_spec u) (s_status u).

Abbreviation crdP := (prog (gwE NameCache)).

(** [namespace] of the store. *)
Context (namespace : string).

Definition crd_getSession (id : string) : crdP (option SandboxSession) :=
  do r <- call (Get KSession namespace id);
  Ret (match r with Ok u => Some u | Err _ => None end).

(** Forget the names of a sandbox. *)
Definition forget_names (id : string) (m : NameCache) : NameCache := filter (fun kv => kv.2 <> id) m.

Definition writeState (id : string) (st : e2bState) : crdP (option error) :=
  do u <- crd_getSession id;
  match u with
  | None => Ret (Some (Plain "not found"))
  | Some u =>
      let name := default "" (es_metadata st !! "name") in
      let ann := <[e2bStateAnnotation := marshal st]> (m_annots (s_meta u)) in
      let ann := if decide (name <> "") then <[e2bNameIndexAnnotation := id]> ann
                 else delete e2bNameIndexAnnotation ann in
      do r <- call (Update KSession (with_annots ann u));
      match r with
      | Err e => Ret (Some e)
      | Ok _ =>
          do! call (Mem (fun m => (tt, if decide (name <> "") then <[name := id]> m else forget_names id m)));
          Ret None
      end
  end.

Definition crd_put (e : registryEntry) : crdP unit :=
  do! writeState (re_sandboxID e) (state_of_entry e); Ret tt.

Definition crd_get (id : string) : crdP (option registryEntry) :=
  do u <- crd_getSession id; Ret ((fun u => entry_of_state id (readState u)) <$> u).

(** The first listed session that carries the name. *)
Definition named (name : string) (u : SandboxSession) : bool :=
  negb (bool_decide (default "" (m_annots (s_meta u) !! e2bNameIndexAnnotation) = "")) &&
  bool_decide (default "" (es_metadata (readState u) !! "name") = name).

Definition find_name (name : string) (l : list SandboxSession) : option string :=
  (fun u => m_name (s_meta u)) <$> find (named name) l.

Definition crd_byKeyName (name : string) : crdP (option string) :=
  do cached <- call (Mem (fun m : NameCache => (m !! name, m)));
  match cached with
  | Some id => Ret (Some id)
  | None =>
      do r <- call (Kube.List KSession namespace SelAll);
      Ret (match r with Ok l => find_name name l | Err _ => None end)
  end.

(** The names are forgotten only if the session was still there. *)
Definition crd_del (id : string) : crdP unit :=
  do u <- crd_getSession id;
  match u with
  | None => Ret tt
  | Some u =>
      do! call (Update KSession
        (with_annots (delete e2bNameIndexAnnotation (delete e2bStateAnnotation (m_annots (s_meta u)))) u));
      call (Mem (fun m => (tt, forget_names id m)))
  end.

Definition annotated (l : list SandboxSession) : list string :=
  (fun u => m_name (s_meta u)) <$> filter (fun u => is_Some (m_annots (s_meta u) !! e2bStateAnnotation)) l.

Definition crd_ids : crdP (list string) :=
  do r <- call (Kube.List KSession namespace SelAll);
  Ret (match r with Ok l => annotated l | Err _ => [] end).

Definition crd_deadlineOf (id : string) : crdP (option Z) :=
  do e <- crd_get id; Ret (e ≫= re_deadlineAt).

Definition crd_change (id : string) (f : registryEntry -> registryEntry) : crdP unit :=
  do e <- crd_get id;
  match e with
  | None => Ret tt
  | Some e => do! writeState id (state_of_entry (f e)); Ret tt
  end.

Definition crd_extendDeadline (id : string) (seconds : Z) : crdP (option Z) :=
  do e <- crd_get id;
  match e with
  | None => Ret None
  | Some e =>
      do t <- call Now;
      let candidate := seconds_from t seconds in
      if after candidate (re_deadlineAt e) then
        do! writeState id (state_of_entry (with_deadline (Some candidate) e));
        Ret (Some candidate)
      else Ret (re_deadlineAt e)
  end.

Definition crd_clearDeadline (id : string) : crdP unit := crd_change id (with_deadline None).
Definition crd_markPaused (id : string) (paused : bool) : crdP unit := crd_change id (with_paused paused).

Definition crd_isPaused (id : string) : crdP bool :=
  do e <- crd_get id; Ret (match e with Some e => re_pausedByUser e | None => false end).

#[export] Instance crdStateStore : StateStore NameCache :=
  mkStore NameCache crd_put crd_get crd_byKeyName crd_del crd_ids crd_deadlineOf crd_extendDeadline
    crd_clearDeadline crd_markPaused crd_isPaused.
End crd.
