(* ===== verification/E2bLaws.v ===== *)
(** * What the E2B bookkeeping promises

    The contract of the [StateStore] interface, as laws over an abstract view
    of a store: the entry each sandbox has.  Both implementations of
    [E2bState] keep it; the HTTP handlers and the deadline scanner are
    verified against it. *)
From Stdlib Require Import ZArith Lia.
From S2P Require Import Prelude Prog Kube GoTime Sha256 Orchestrator Rules Gateway E2bState.

#[local] Open Scope Z_scope.

(** ** Steps that concern one session *)

Definition session_at (ns id : string) (c : Cluster) : option SandboxSession := cl_sessions c !! (ns, id).

(** Equal but for annotations and revision. *)
Definition same_session (s s' : option SandboxSession) : Prop :=
  match s, s' with
  | Some s, Some s' => s_spec s' = s_spec s /\ s_status s' = s_status s
  | None, None => True
  | _, _ => False
  end.

#[export] Instance same_session_refl : Reflexive same_session.
Proof. by intros [s|]. Qed.
#[export] Instance same_session_trans : Transitive same_session.
Proof.
  intros [s1|] [s2|] [s3|]; simpl; try done. intros [-> ->] [-> ->]. done.
Qed.

(** Every session but [id] is as it was, and of the other kinds of objects
    only those in [ws] may have changed. *)
Definition spares {M} (ws : list kind) (ns id : string) (v v' : M * Cluster) : Prop :=
  unchanged ws v v' /\ forall j, j <> id -> session_at ns j (snd v') = session_at ns j (snd v).

Lemma spares_refl {M} ws ns id (v : M * Cluster) : spares ws ns id v v.
Proof. by split; [split|]. Qed.

Lemma spares_memory {M} ws ns id (m m' : M) (c : Cluster) : spares ws ns id (m, c) (m', c).
Proof. by split; [split|]. Qed.

Lemma spares_clock {M} ws ns id (m m' : M) (t : Z) (c : Cluster) :
  spares ws ns id (m, c) (m', set_clock t c).
Proof.
  split; [|done]. split; simpl; [|apply wf_set_clock]. intros k _. apply store_set_clock.
Qed.

Lemma spares_trans {M} ws ns id (v1 v2 v3 : M * Cluster) :
  spares ws ns id v1 v2 -> spares ws ns id v2 v3 -> spares ws ns id v1 v3.
Proof.
  intros [U1 S1] [U2 S2]. split; [by eapply unchanged_trans|].
  intros j Hj. by rewrite S2, S1.
Qed.

Lemma spares_mono {M} ws ws' ns id (v v' : M * Cluster) :
  ws ⊆ ws' -> spares ws ns id v v' -> spares ws' ns id v v'.
Proof. intros Hw [U S]. split; [by eapply unchanged_mono|done]. Qed.

Lemma unchanged_spares {M} ws ns id (v v' : M * Cluster) :
  KSession ∉ ws -> unchanged ws v v' -> spares ws ns id v v'.
Proof. intros Hw U. split; [done|]. intros j _. unfold session_at. by rewrite (unchanged_sessions _ _ _ U). Qed.

(** ** The laws *)

Class StoreLaws (faults : bool) (ns : string) (M : Type) `{StateStore M} := mkLaws {
  (** The entry of a sandbox, and what a store keeps of one it is given. *)
  entry_of : M * Cluster -> string -> option registryEntry;
  stored : registryEntry -> registryEntry;
  valid : registryEntry -> Prop;
  (** An entry depends on the store's memory and the sandbox's session. *)
  entry_frame : forall v v' id,
    fst v' = fst v -> session_at ns id (snd v') = session_at ns id (snd v) -> entry_of v' id = entry_of v id;
  get_law : forall id v, wf (snd v) ->
    wp (kube_contract M faults) (get id)
      (fun o v' => v' = v /\ (o = Done (entry_of v id) \/ faults = true /\ o = Done None)) v;
  ids_law : forall v, wf (snd v) ->
    wp (kube_contract M faults) ids (fun o v' => v' = v /\ exists l, o = Done l /\
      (faults = false -> forall id e d, entry_of v id = Some e -> re_deadlineAt e = Some d -> id ∈ l)) v;
  put_law : forall e v, wf (snd v) -> wp (kube_contract M faults) (put e) (fun o v' => o = Done tt /\
    let id := re_sandboxID e in
    spares [KSession] ns id v v' /\ same_session (session_at ns id (snd v)) (session_at ns id (snd v')) /\
    (forall j, j <> id -> entry_of v' j = entry_of v j) /\
    (faults = false -> is_Some (session_at ns id (snd v)) -> valid e -> entry_of v' id = Some (stored e))) v;
  del_law : forall id v, wf (snd v) -> wp (kube_contract M faults) (del id) (fun o v' => o = Done tt /\
    spares [KSession] ns id v v' /\ same_session (session_at ns id (snd v)) (session_at ns id (snd v')) /\
    (forall j, j <> id -> entry_of v' j = entry_of v j) /\
    (faults = false -> forall e, entry_of v' id = Some e -> re_deadlineAt e = None /\ re_metadata e = ∅)) v;
  extend_law : forall id seconds v, wf (snd v) ->
    wp (kube_contract M faults) (extendDeadline id seconds) (fun o v' =>
    spares [KSession] ns id v v' /\ same_session (session_at ns id (snd v)) (session_at ns id (snd v')) /\
    (forall j, j <> id -> entry_of v' j = entry_of v j) /\
    (faults = false ->
      match entry_of v id with
      | None => o = Done None /\ entry_of v' id = None
      | Some e => exists t, cl_clock (snd v) <= t /\
          let candidate := seconds_from t seconds in
          if after candidate (re_deadlineAt e) then
            o = Done (Some candidate) /\
            (valid (with_deadline (Some candidate) e) ->
             entry_of v' id = Some (stored (with_deadline (Some candidate) e)))
          else o = Done (re_deadlineAt e) /\ entry_of v' id = Some e
      end)) v;
  clear_law : forall id v, wf (snd v) -> wp (kube_contract M faults) (clearDeadline id) (fun o v' => o = Done tt /\
    spares [KSession] ns id v v' /\ same_session (session_at ns id (snd v)) (session_at ns id (snd v')) /\
    (forall j, j <> id -> entry_of v' j = entry_of v j) /\
    (faults = false -> forall e, entry_of v id = Some e -> valid (with_deadline None e) ->
      entry_of v' id = Some (stored (with_deadline None e)))) v;
  paused_law : forall id b v, wf (snd v) -> wp (kube_contract M faults) (markPaused id b) (fun o v' => o = Done tt /\
    spares [KSession] ns id v v' /\ same_session (session_at ns id (snd v)) (session_at ns id (snd v')) /\
    (forall j, j <> id -> entry_of v' j = entry_of v j) /\
    (faults = false -> forall e, entry_of v id = Some e -> valid (with_paused b e) ->
      entry_of v' id = Some (stored (with_paused b e)))) v;
}.

(** ** The registry in memory keeps them *)

Section memory.
Context `{MO : MapOrder} (faults : bool) (ns : string).
#[local] Notation C := (kube_contract Registry faults).

Definition reg_entry (v : Registry * Cluster) (id : string) : option registryEntry := byID (fst v) !! id.

(** A critical section touches no session. *)
Lemma wp_locked {X} (f : Registry -> X * Registry) (Q : outcome X -> Registry * Cluster -> Prop) r c :
  Q (Done (fst (f r))) (snd (f r), c) -> wp C (locked f) Q (r, c).
Proof. by intros H x v' [-> ->]. Qed.

Lemma reg_change_wp id f r c :
  wp C (reg_change id f) (fun o v' => o = Done tt /\
    spares [KSession] ns id (r, c) v' /\
    same_session (session_at ns id c) (session_at ns id (snd v')) /\
    (forall j, j <> id -> reg_entry v' j = reg_entry (r, c) j) /\
    reg_entry v' id = f <$> reg_entry (r, c) id) (r, c).
Proof.
  apply wp_locked. unfold reg_entry. simpl. split; [done|]. split; [apply spares_memory|]. split; [done|].
  destruct (byID r !! id) as [e|] eqn:E; simpl.
  - rewrite lookup_insert_eq. split; [|done]. intros j Hj. by rewrite lookup_insert_ne.
  - by rewrite E.
Qed.

#[export] Program Instance registry_laws : StoreLaws faults ns Registry :=
  mkLaws faults ns Registry _ reg_entry (fun e => e) (fun _ => True) _ _ _ _ _ _ _ _.
Next Obligation. intros v v' id E _. unfold reg_entry. by rewrite E. Qed.
Next Obligation.
  intros id [r c] Hwf. intros x v' [-> ->]. cbn [fst snd]. simpl. split; [done|]. by left.
Qed.
Next Obligation.
  intros [r c] Hwf. intros x v' [-> ->]. cbn [fst snd]. simpl. split; [done|]. eexists. split; [done|].
  intros _ id e d He _. apply list_elem_of_fmap. exists (id, e). split; [done|].
  by apply elem_of_iter.
Qed.
Next Obligation.
  intros e [r c] Hwf. intros x v' [-> ->]. cbn [fst snd]. unfold reg_entry. simpl. split; [done|]. split; [apply spares_memory|].
  split; [done|]. rewrite lookup_insert_eq. split; [|done]. intros j Hj. by rewrite lookup_insert_ne.
Qed.
Next Obligation.
  intros id [r c] Hwf. intros x v' [-> ->]. cbn [fst snd]. unfold reg_entry. simpl. split; [done|]. split; [apply spares_memory|].
  split; [done|]. rewrite lookup_delete_eq. split; [|done]. intros j Hj. by rewrite lookup_delete_ne.
Qed.
Next Obligation.
  intros id seconds [r c] Hwf t v' [Ht ->]. cbn [fst snd]. intros x v' [-> ->]. cbn [fst snd].
  unfold reg_entry. cbn [fst snd].
  destruct (byID r !! id) as [e|] eqn:E; cbn [fst snd].
  2:{ split; [apply spares_clock|]. done. }
  destruct (after _ _) eqn:Ha; cbn [fst snd byID].
  - split; [apply spares_clock|]. split; [done|].
    simpl. split; [intros j Hj; by rewrite lookup_insert_ne|]. intros _. exists t. split; [done|].
    by rewrite Ha, lookup_insert_eq.
  - split; [apply spares_clock|]. split; [done|]. simpl.
    split; [done|]. intros _. exists t. by rewrite Ha.
Qed.
Next Obligation.
  intros id [r c] Hwf. eapply wp_mono; [|apply (reg_change_wp id (with_deadline None))].
  intros o v' (-> & H1 & H2 & H3 & H4). split; [done|]. split; [done|]. split; [done|]. split; [done|].
  intros _ e He _. by rewrite H4, He.
Qed.
Next Obligation.
  intros id b [r c] Hwf. eapply wp_mono; [|apply (reg_change_wp id (with_paused b))].
  intros o v' (-> & H1 & H2 & H3 & H4). split; [done|]. split; [done|]. split; [done|]. split; [done|].
  intros _ e He _. by rewrite H4, He.
Qed.
End memory.

(** ** The session annotations keep them *)

Section crd.
Context `{SJ : StateJSON, LZ : LocalZone} (faults : bool) (ns : string).
#[local] Notation C := (kube_contract NameCache faults).
Implicit Types v : NameCache * Cluster.

Definition crd_entry v (id : string) : option registryEntry :=
  (fun u => entry_of_state id (readState u)) <$> session_at ns id (snd v).

(** Times in the annotation are whole seconds. *)
Definition to_second (t : Z) : Z := t / second * second.

Definition crd_stored (e : registryEntry) : registryEntry :=
  mkEntry (re_sandboxID e) (to_second <$> re_deadlineAt e) (re_onDeadline e) (to_second <$> re_createdAt e)
    (re_metadata e) (re_runtimeName e) (re_pausedByUser e).

Definition time_ok (t : option Z) : Prop := match t with Some t => in_service t | None => True end.

Definition crd_valid (e : registryEntry) : Prop :=
  time_ok (re_deadlineAt e) /\ time_ok (re_createdAt e) /\ utf8 (re_onDeadline e) /\
  utf8 (re_runtimeName e) /\ map_Forall (fun k x => utf8 k /\ utf8 x) (re_metadata e).

Lemma utf8_time (t : option Z) : time_ok t -> utf8 (default "" (Format <$> t)).
Proof. destruct t as [t|]; intros Ht; apply utf8_ascii; [by apply Format_ascii|done]. Qed.

Lemma parse_time (t : option Z) : time_ok t -> parseRFC3339 (default "" (Format <$> t)) = to_second <$> t.
Proof.
  destruct t as [t|]; intros Ht; [|done]. simpl. unfold parseRFC3339. rewrite decide_False.
  - by apply parse_Format.
  - intros E. pose proof (parse_Format t Ht) as Hp. by rewrite E in Hp.
Qed.

(** What is written is what is read back. *)
Lemma state_round_trip (id : string) (e : registryEntry) (u : SandboxSession) :
  crd_valid e -> re_sandboxID e = id ->
  m_annots (s_meta u) !! e2bStateAnnotation = Some (marshal (state_of_entry e)) ->
  entry_of_state id (readState u) = crd_stored e.
Proof.
  intros (Hd & Hc & Ho & Hr & Hm) <- Ha. unfold readState. rewrite Ha, decide_False by apply marshal_not_empty.
  rewrite unmarshal_marshal by (simpl; auto using utf8_time). simpl.
  unfold entry_of_state, crd_stored. simpl. by rewrite !parse_time.
Qed.

Lemma wp_get_session {B} id (f : option SandboxSession -> prog (gwE NameCache) B) Q v :
  (forall u, session_at ns id (snd v) = Some u -> wp C (f (Some u)) Q v) ->
  (faults = true \/ session_at ns id (snd v) = None -> wp C (f None) Q v) ->
  wp C (bind (crd_getSession ns id) f) Q v.
Proof.
  intros HS HN. unfold crd_getSession. apply wp_assoc. intros r v' [-> Hr]. apply wp_ret_bind.
  destruct r as [u|e]; [by apply HS|]. apply HN.
  destruct e as [|r|]; simpl in Hr; [by left| |by left].
  destruct r; try (by left); right; by destruct Hr.
Qed.

(** A write of the annotations of one session. *)
Lemma wp_annotate {B} id u ann (f : res SandboxSession -> prog (gwE NameCache) B) Q v :
  wf (snd v) -> session_at ns id (snd v) = Some u ->
  (forall rv v', fst v' = fst v -> spares [KSession] ns id v v' ->
     session_at ns id (snd v') = Some (updated (k := KSession) (with_annots ann u) u rv) ->
     wp C (f (Ok (updated (k := KSession) (with_annots ann u) u rv))) Q v') ->
  (faults = true -> forall e, wp C (f (Err e)) Q v) ->
  wp C (bind (call (Update KSession (with_annots ann u))) f) Q v.
Proof.
  intros Hwf Hu HO HE. destruct (Hwf KSession _ _ Hu) as [Hk Hrv].
  assert (store KSession (snd v) !! key_of (k := KSession) (with_annots ann u) = Some u) as Hcur.
  { unfold key_of in *. simpl in *. by rewrite Hk. }
  assert (forall rv, (cl_rv (snd v) < rv)%N ->
    wp C (f (Ok (updated (k := KSession) (with_annots ann u) u rv))) Q
      (fst v, Kube.put (updated (k := KSession) (with_annots ann u) u rv) (snd v))) as Hok.
  { intros rv Hlt. set (u' := updated _ _ _).
    assert (key_of (k := KSession) u' = (ns, id)) as Hk' by exact Hk.
    apply HO; [done| |].
    - split; [split|].
      + intros k Hk2. apply (store_put_ne k u' (snd v)). set_solver.
      + intros _. by apply (wf_put u' (snd v)).
      + intros j Hj. change (store KSession (Kube.put u' (snd v)) !! (ns, j) = store KSession (snd v) !! (ns, j)).
        by rewrite store_put, Hk', lookup_insert_ne by congruence.
    - change (store KSession (Kube.put u' (snd v)) !! (ns, id) = Some u').
      by rewrite store_put, Hk', lookup_insert_eq. }
  destruct faults eqn:Hf.
  - apply (wp_update_cases true (k := KSession)); [|by intros e; apply HE].
    intros cur rv Hlt Hc. pose proof (eq_trans (eq_sym Hcur) Hc) as [= <-]. by apply Hok.
  - eapply (wp_update (k := KSession)); [exact Hcur|done|unfold rv_of in *; simpl in *; lia|exact Hok].
Qed.

(** Everything a write of one sandbox's state does. *)
Definition writes_entry id v (o : outcome (option error)) v' (e : registryEntry) : Prop :=
  (exists r, o = Done r) /\ spares [KSession] ns id v v' /\
  same_session (session_at ns id (snd v)) (session_at ns id (snd v')) /\
  (forall j, j <> id -> crd_entry v' j = crd_entry v j) /\
  (faults = false -> is_Some (session_at ns id (snd v)) -> crd_valid e -> crd_entry v' id = Some (crd_stored e)).

Lemma crd_entry_frame v v' id :
  fst v' = fst v -> session_at ns id (snd v') = session_at ns id (snd v) -> crd_entry v' id = crd_entry v id.
Proof. intros _ E. unfold crd_entry. by rewrite E. Qed.

Lemma writeState_wp e v :
  wf (snd v) ->
  wp C (writeState ns (re_sandboxID e) (state_of_entry e))
    (fun o v' => writes_entry (re_sandboxID e) v o v' e) v.
Proof.
  intros Hwf. set (id := re_sandboxID e).
  assert (forall r, faults = true \/ session_at ns id (snd v) = None -> writes_entry id v (Done r) v e) as Hnone.
  { intros r Hr. split; [by eexists|]. split; [apply spares_refl|]. split; [done|]. split; [done|].
    intros Hf [u Hu]. destruct Hr; congruence. }
  apply wp_get_session; [|intros Hr; by apply Hnone].
  intros u Hu. cbv zeta. cbn [es_metadata state_of_entry].
  set (ann := if decide _ then _ else _).
  assert (ann !! e2bStateAnnotation = Some (marshal (state_of_entry e))) as Hann.
  { unfold ann. case_decide.
    - rewrite lookup_insert_ne by done. apply lookup_insert_eq.
    - rewrite lookup_delete_ne by done. apply lookup_insert_eq. }
  apply (wp_annotate id); [done|done| |].
  - intros rv v1 Hm Hsp Hs. intros x v2 [-> ->]. cbn [fst snd].
    split; [by eexists|]. split; [by destruct Hsp as [[U W] S]|]. cbn [snd]. rewrite Hu, Hs.
    split; [by split|]. split.
    + intros j Hj. unfold crd_entry. cbn [snd]. by rewrite (proj2 Hsp j Hj).
    + intros _ _ Hv. unfold crd_entry. cbn [snd]. rewrite Hs. simpl. f_equal. by apply state_round_trip.
  - intros Hf err. apply Hnone. by left.
Qed.

(** [get] in front of a continuation. *)
Lemma wp_crd_get {B} id (f : option registryEntry -> prog (gwE NameCache) B) Q v :
  wp C (f (crd_entry v id)) Q v -> (faults = true -> wp C (f None) Q v) ->
  wp C (bind (crd_get ns id) f) Q v.
Proof.
  intros H HN. unfold crd_get. apply wp_assoc, wp_get_session.
  - intros u Hu. apply wp_ret_bind. unfold crd_entry in H. by rewrite Hu in H.
  - intros [Hf|Hn]; apply wp_ret_bind; [by apply HN|]. unfold crd_entry in H. by rewrite Hn in H.
Qed.

Lemma crd_entry_id v id e : crd_entry v id = Some e -> re_sandboxID e = id.
Proof. unfold crd_entry. destruct (session_at _ _ _); simpl; [by intros [= <-]|done]. Qed.

Lemma crd_entry_session v id e : crd_entry v id = Some e -> is_Some (session_at ns id (snd v)).
Proof. unfold crd_entry. destruct (session_at _ _ _); [by eexists|done]. Qed.

Lemma writes_nothing {X} id v (o : outcome X) :
  spares [KSession] ns id v v /\ same_session (session_at ns id (snd v)) (session_at ns id (snd v)) /\
  (forall j, j <> id -> crd_entry v j = crd_entry v j).
Proof. split; [apply spares_refl|done]. Qed.

Lemma crd_change_wp id f v :
  wf (snd v) -> (forall e, re_sandboxID (f e) = re_sandboxID e) ->
  wp C (crd_change ns id f) (fun o v' => o = Done tt /\
    spares [KSession] ns id v v' /\ same_session (session_at ns id (snd v)) (session_at ns id (snd v')) /\
    (forall j, j <> id -> crd_entry v' j = crd_entry v j) /\
    (faults = false -> forall e, crd_entry v id = Some e -> crd_valid (f e) ->
      crd_entry v' id = Some (crd_stored (f e)))) v.
Proof.
  intros Hwf Hid. apply wp_crd_get.
  - destruct (crd_entry v id) as [e|] eqn:E.
    2:{ split; [done|]. destruct (writes_nothing id v (Done tt)) as (? & ? & ?). by split. }
    assert (re_sandboxID (f e) = id) as He by (by rewrite Hid; eapply crd_entry_id).
    apply wp_bind. pose proof (writeState_wp (f e) v Hwf) as Hw. rewrite He in Hw.
    eapply wp_mono; [|exact Hw]. intros o v' ([r ->] & H1 & H2 & H3 & H4). simpl.
    split; [done|]. split; [done|]. split; [done|]. split; [done|].
    intros Hf e' [= <-] Hv. apply H4; [done| |done]. by eapply crd_entry_session.
  - intros Hf. split; [done|]. destruct (writes_nothing id v (Done tt)) as (? & ? & ?).
    split; [done|]. split; [done|]. split; [done|]. congruence.
Qed.

Lemma crd_extend_wp id seconds v :
  wf (snd v) ->
  wp C (crd_extendDeadline ns id seconds) (fun o v' =>
    spares [KSession] ns id v v' /\ same_session (session_at ns id (snd v)) (session_at ns id (snd v')) /\
    (forall j, j <> id -> crd_entry v' j = crd_entry v j) /\
    (faults = false ->
      match crd_entry v id with
      | None => o = Done None /\ crd_entry v' id = None
      | Some e => exists t, cl_clock (snd v) <= t /\
          let candidate := seconds_from t seconds in
          if after candidate (re_deadlineAt e) then
            o = Done (Some candidate) /\
            (crd_valid (with_deadline (Some candidate) e) ->
             crd_entry v' id = Some (crd_stored (with_deadline (Some candidate) e)))
          else o = Done (re_deadlineAt e) /\ crd_entry v' id = Some e
      end)) v.
Proof.
  intros Hwf. apply wp_crd_get.
  2:{ intros Hf. destruct (writes_nothing id v (Done (@None Z))) as (? & ? & ?).
      split; [done|]. split; [done|]. split; [done|]. congruence. }
  destruct (crd_entry v id) as [e|] eqn:E.
  2:{ destruct (writes_nothing id v (Done (@None Z))) as (? & ? & ?).
      split; [done|]. split; [done|]. split; [done|]. intros _. done. }
  apply (wp_call C Now). intros t v1 [Ht ->]. cbn [fst snd]. destruct v as [m c]. cbn [fst snd] in *.
  destruct (after _ _) eqn:Ha.
  - set (e' := with_deadline _ e).
    assert (re_sandboxID e' = id) as He by exact (crd_entry_id (m, c) id e E).
    apply wp_bind. pose proof (writeState_wp e' (m, set_clock t c) (wf_set_clock _ _ Hwf)) as Hw.
    rewrite He in Hw. eapply wp_mono; [|exact Hw]. intros o v' ([r ->] & H1 & H2 & H3 & H4). simpl.
    split; [eapply spares_trans; [apply spares_clock|exact H1]|]. split; [exact H2|]. split; [exact H3|].
    intros Hf. exists t. split; [done|]. rewrite Ha. split; [done|].
    intros Hv. apply H4; [done| |done]. exact (crd_entry_session (m, c) id e E).
  - simpl. split; [apply spares_clock|]. split; [done|]. split; [done|]. intros Hf. exists t.
    split; [done|]. rewrite Ha. split; [done|]. exact E.
Qed.

Lemma crd_del_wp id v :
  wf (snd v) ->
  wp C (crd_del ns id) (fun o v' => o = Done tt /\
    spares [KSession] ns id v v' /\ same_session (session_at ns id (snd v)) (session_at ns id (snd v')) /\
    (forall j, j <> id -> crd_entry v' j = crd_entry v j) /\
    (faults = false -> forall e, crd_entry v' id = Some e -> re_deadlineAt e = None /\ re_metadata e = ∅)) v.
Proof.
  intros Hwf. apply wp_get_session.
  - intros u Hu. set (ann := delete _ _).
    assert (ann !! e2bStateAnnotation = None) as Hann.
    { unfold ann. rewrite lookup_delete_ne by done. apply lookup_delete_eq. }
    apply (wp_annotate id); [done|done| |].
    + intros rv v1 Hm Hsp Hs x v2 [-> ->]. cbn [fst snd]. split; [done|].
      split; [by destruct Hsp as [[U W] S]|]. cbn [snd]. rewrite Hu, Hs. split; [by split|]. split.
      * intros j Hj. unfold crd_entry. cbn [snd]. by rewrite (proj2 Hsp j Hj).
      * intros _ e He. unfold crd_entry in He. cbn [snd] in He. rewrite Hs in He. simpl in He.
        injection He as <-. unfold readState. simpl. by rewrite Hann.
    + intros Hf err x v2 [-> ->]. destruct v as [m c]. simpl.
      split; [done|]. split; [apply spares_memory|]. split; [done|]. split; [done|]. congruence.
  - intros Hr. destruct (writes_nothing id v (Done tt)) as (? & ? & ?).
    split; [done|]. split; [done|]. split; [done|]. split; [done|].
    intros Hf e He. apply crd_entry_session in He as [u Hu]. destruct Hr; congruence.
Qed.

Lemma crd_put_wp e v :
  wf (snd v) ->
  wp C (crd_put ns e) (fun o v' => o = Done tt /\
    let id := re_sandboxID e in
    spares [KSession] ns id v v' /\ same_session (session_at ns id (snd v)) (session_at ns id (snd v')) /\
    (forall j, j <> id -> crd_entry v' j = crd_entry v j) /\
    (faults = false -> is_Some (session_at ns id (snd v)) -> crd_valid e ->
      crd_entry v' id = Some (crd_stored e))) v.
Proof.
  intros Hwf. apply wp_bind. eapply wp_mono; [|by apply writeState_wp].
  by intros o v' ([r ->] & H1 & H2 & H3 & H4).
Qed.

Lemma crd_ids_wp v :
  wf (snd v) ->
  wp C (crd_ids ns) (fun o v' => v' = v /\ exists l, o = Done l /\
    (faults = false -> forall id e d, crd_entry v id = Some e -> re_deadlineAt e = Some d -> id ∈ l)) v.
Proof.
  intros Hwf r v' [-> Hr]. simpl. split; [done|]. eexists. split; [done|].
  intros Hf id e d He Hd. subst faults. destruct r as [l|er]; [|by destruct er as [|[]|]].
  unfold crd_entry in He. destruct (session_at ns id (snd v)) as [u|] eqn:Hu; [|done].
  injection He as <-. destruct (Hwf KSession _ _ Hu) as [Hk _]. injection Hk as Hns Hnm.
  apply list_elem_of_fmap. exists u. split; [done|]. apply list_elem_of_filter. split.
  - destruct (m_annots (s_meta u) !! e2bStateAnnotation) as [raw|] eqn:Ha; [by eexists|].
    simpl in Hd. unfold readState in Hd. by rewrite Ha in Hd.
  - apply (elem_of_listed KSession ns SelAll (snd v) l u Hr). split; [|by eexists].
    unfold selected. simpl. rewrite Hns. by rewrite bool_decide_eq_true_2.
Qed.

Lemma crd_get_wp id v :
  wf (snd v) ->
  wp C (crd_get ns id)
    (fun o v' => v' = v /\ (o = Done (crd_entry v id) \/ faults = true /\ o = Done None)) v.
Proof.
  intros _. apply wp_get_session; unfold crd_entry.
  - intros u ->. split; [done|]. by left.
  - intros [Hf | ->]; (split; [done|]); [by right|by left].
Qed.

#[export] Instance crd_laws : @StoreLaws faults ns NameCache (crdStateStore ns) :=
  @mkLaws faults ns NameCache (crdStateStore ns) crd_entry crd_stored crd_valid crd_entry_frame
    crd_get_wp crd_ids_wp crd_put_wp crd_del_wp crd_extend_wp
    (fun id v Hwf => crd_change_wp id (with_deadline None) v Hwf (fun _ => eq_refl))
    (fun id b v Hwf => crd_change_wp id (with_paused b) v Hwf (fun _ => eq_refl)).
End crd.
