(* ===== verification/E2bControl.v ===== *)
(** * The control plane of the E2B server

    [pkg/sandbox/e2b/control.go], the session views of [gateway.go], and the
    deadline scanner of [registry.go]: the HTTP handlers as programs over the
    gateway and the bookkeeping.  The server runs in the process of the
    gateway and calls it over loopback; the calls are the gateway's methods.

    Bodies are taken as decoded; [None] is a body that does not decode. *)
From Stdlib Require Import ZArith Lia.
From stdpp Require Import sorting.
From S2P Require Import Prelude Prog Kube Lens SessionEnv GoTime GoText Sha256 Orchestrator Gateway Connect Signed E2bState.

#[local] Open Scope Z_scope.

Definition DefaultTimeoutSeconds : Z := 300.
Definition NeverTimeout : Z := -1.
Definition maxTimeoutSeconds : Z := 30 * 24 * 60 * 60.

(** ** Pure parts *)

(** Seconds, never-timeout, or an error message. *)
Definition parseSandboxTimeout (t : option Z) : (Z * bool) + E2bError :=
  match t with
  | None => inl (DefaultTimeoutSeconds, false)
  | Some t =>
      if t =? NeverTimeout then inl (DefaultTimeoutSeconds, true)
      else if (t <=? 0) || (maxTimeoutSeconds <? t) then inr (apiError 400)
      else inl (t, false)
  end.

Definition validTimeout (seconds : Z) : bool :=
  (seconds =? NeverTimeout) || ((0 <? seconds) && (seconds <=? maxTimeoutSeconds)).

Definition resolveRuntimeClass (runtimes : gset string) (templateID : string) : option string :=
  if decide (templateID = "") then Some ""
  else if decide (templateID ∈ runtimes) then Some templateID
  else if decide (templateID <> "base") then None
  else Some "".

(** [^[a-zA-Z0-9._-]{1,64}$] *)
Definition name_char (c : Ascii.ascii) : bool :=
  let n := Ascii.N_of_ascii c in
  ((97 <=? n) && (n <=? 122) || (65 <=? n) && (n <=? 90) || (48 <=? n) && (n <=? 57) ||
   (n =? 46) || (n =? 95) || (n =? 45))%N.

Definition namePattern (s : string) : bool :=
  (1 <=? String.length s)%nat && (String.length s <=? 64)%nat && all_chars name_char s.

Definition sanitizeMetadata (meta : gmap string string) : gmap string string :=
  filter (fun kv => kv.1 <> "name" \/ namePattern kv.2 = true) meta.

Inductive sandboxState := stateRunning | statePaused | stateDead.

#[export] Instance sandboxState_eq_dec : EqDecision sandboxState.
Proof. solve_decision. Defined.

Definition sessionState (phase : string) : sandboxState :=
  if decide (phase = "Active" \/ phase = "") then stateRunning
  else if decide (phase = "Paused") then statePaused else stateDead.

Definition state_name (s : sandboxState) : string :=
  match s with stateRunning => "running" | statePaused => "paused" | stateDead => "dead" end.

Definition templateIDFor (runtimes : gset string) (runtimeClass : string) : string :=
  if decide (runtimeClass = "") then "base"
  else if decide (runtimeClass ∈ runtimes) then runtimeClass else "base".

(** ** Answers *)

Record SessionView := mkSessionView {
  sv_sandboxID : string; sv_templateID : string; sv_envdAccessToken : string;
}.

Record InfoView := mkInfoView {
  iv_sandboxID : string; iv_templateID : string; iv_metadata : gmap string string;
  iv_state : sandboxState; iv_startedAt : Z; iv_endAt : option Z;
}.

Inductive body := NoBody | Failed (e : E2bError) | View (v : SessionView) | Infos (l : list InfoView).

(** Status, [Retry-After], [x-next-token], body. *)
Record Response := mkResponse {
  rs_status : Z; rs_retryAfter : option Z; rs_nextToken : option Z; rs_body : body;
}.

Definition answer (status : Z) (b : body) : Response := mkResponse status None None b.
Definition controlError (e : E2bError) : Response := answer (StatusCode e) (Failed e).
Definition conflict (e : E2bError) (retrySeconds : Z) : Response :=
  mkResponse (StatusCode e) (Some retrySeconds) None (Failed e).

(** ** The server *)

Record Config := mkConfig { cf_signingSecret : string; cf_runtimes : gset string }.

(** The memory of the process: the gateway's, the store's, and the last
    gateway error of each sandbox. *)
Record E2B (R : Type) := mkE2B { x_gw : Gw; x_reg : R; x_lastErr : gmap string error }.
Arguments mkE2B {R}.
Arguments x_gw {R}.
Arguments x_reg {R}.
Arguments x_lastErr {R}.

Definition with_gw {R} (g : Gw) (x : E2B R) : E2B R := mkE2B g (x_reg x) (x_lastErr x).
Definition with_reg {R} (r : R) (x : E2B R) : E2B R := mkE2B (x_gw x) r (x_lastErr x).
Definition with_lastErr {R} (m : gmap string error) (x : E2B R) : E2B R := mkE2B (x_gw x) (x_reg x) m.

Lemma with_own_gw {R} (x : E2B R) : with_gw (x_gw x) x = x.
Proof. by destruct x. Qed.
Lemma with_own_reg {R} (x : E2B R) : with_reg (x_reg x) x = x.
Proof. by destruct x. Qed.

#[export] Instance gw_lens {R} : Lens Gw (E2B R) :=
  mkLens _ _ x_gw with_gw (fun _ _ => eq_refl) with_own_gw (fun _ _ _ => eq_refl).
#[export] Instance reg_lens {R} : Lens R (E2B R) :=
  mkLens _ _ x_reg with_reg (fun _ _ => eq_refl) with_own_reg (fun _ _ _ => eq_refl).

Section server.
Context `{QP : QuantityParser} {R : Type} `{ST : StateStore R}.
(** The iteration order of a session's environment. *)
Context (keys : SandboxSession -> list string) (cfg : Config).

Abbreviation e2bP := (prog (gwE (E2B R))).

Definition gw {A} (p : gwP A) : e2bP A := zoom p.
Definition registry {A} (p : prog (gwE R) A) : e2bP A := zoom p.

Definition sessionView (id runtimeClass : string) : SessionView :=
  mkSessionView id (templateIDFor (cf_runtimes cfg) runtimeClass)
    (mintEnvdToken (cf_signingSecret cfg) id).

Definition infoView (sess : GetSessionResponse) (state : sandboxState) : e2bP InfoView :=
  do now <- call Now;
  do e <- registry (get (gs_SessionId sess));
  let created := default now (e ≫= re_createdAt) in
  do e <- registry (get (gs_SessionId sess));
  let meta := match e with Some e => re_metadata e | None => ∅ end in
  do endAt <- registry (deadlineOf (gs_SessionId sess));
  Ret (mkInfoView (gs_SessionId sess) (templateIDFor (cf_runtimes cfg) (gs_RuntimeClass sess))
         meta state created endAt).

(** [findLive]: the session and its state, if the protocol sees it alive. *)
Definition findLive (id : string) : e2bP (option (GetSessionResponse * sandboxState)) :=
  do r <- gw (GetSessionRPC keys id);
  match r with
  | Err err =>
      do! call (Mem (fun x => (tt, with_lastErr (<[id := err]> (x_lastErr x)) x)));
      Ret None
  | Ok sess =>
      do! call (Mem (fun x => (tt, with_lastErr (delete id (x_lastErr x)) x)));
      let st := sessionState (gs_Phase sess) in
      if decide (st = stateDead) then Ret None
      else
        do e <- registry (get id);
        match e with
        | Some e =>
            match re_deadlineAt e with
            | None => Ret (Some (sess, st))
            | Some d =>
                do now <- call Now;
                if d <? now then
                  if decide (re_onDeadline e <> "pause") then Ret None
                  else Ret (Some (sess, statePaused))
                else Ret (Some (sess, st))
            end
        | None => Ret (Some (sess, st))
        end
  end.

Definition lastSessionErr (id : string) : e2bP (option error) :=
  call (Mem (fun x => (x_lastErr x !! id, x))).

(** The text of the gateway's [GetSession] errors. *)
Definition session_error_text (id : string) (err : error) : string :=
  match err with
  | Status InvalidArgument => "session_id required"
  | _ => "session " +:+ id +:+ " not found"
  end.

(** ASCII lower case; "paus" has no other preimage under [strings.ToLower]. *)
Definition lower_ascii (s : string) : string := ToLower s.

Definition goneOrNotFound (err : option error) (id : string) : Response :=
  match err with
  | Some e =>
      if isConflictError e (lower_ascii (session_error_text id e)) then conflict (apiError 503) 2
      else controlError (apiError 404)
  | None => controlError (apiError 404)
  end.

(** ** Creating *)

Record createBody := mkCreateBody {
  cb_templateID : string; cb_timeout : option Z; cb_metadata : gmap string string;
  cb_envVars : gmap string string; cb_envOrder : list (string * string); cb_autoPause : bool;
}.

(** [Some]: the response was written. *)
Definition reacquireByKey (key : string) (timeoutSeconds : Z) : e2bP (option Response) :=
  if decide (key = "") then Ret None
  else
    do id <- registry (byKeyName key);
    match id with
    | None => Ret None
    | Some id =>
        do r <- gw (GetSessionRPC keys id);
        match r with
        | Ok sess =>
            if decide (sessionState (gs_Phase sess) = stateRunning) then
              do! registry (extendDeadline id timeoutSeconds);
              Ret (Some (answer 201 (View (sessionView (gs_SessionId sess) (gs_RuntimeClass sess)))))
            else
              do! gw (DestroySessionRPC id);
              do! registry (del id);
              Ret None
        | Err _ =>
            do! gw (DestroySessionRPC id);
            do! registry (del id);
            Ret None
        end
    end.

(** [randomID]: what [randomID()] gives. *)
Definition handleCreate (randomID : string) (b : option createBody) : e2bP Response :=
  match b with
  | None => Ret (controlError (apiError 400))
  | Some b =>
      match parseSandboxTimeout (cb_timeout b) with
      | inr e => Ret (controlError e)
      | inl (timeoutSeconds, neverTimeout) =>
          let meta := sanitizeMetadata (cb_metadata b) in
          let requestedKey := default "" (meta !! "name") in
          match resolveRuntimeClass (cf_runtimes cfg) (cb_templateID b) with
          | None => Ret (controlError (apiError 404))
          | Some runtimeClass =>
              do done <- reacquireByKey requestedKey timeoutSeconds;
              match done with
              | Some resp => Ret resp
              | None =>
                  let sessionID := if decide (requestedKey = "") then "e2b-" +:+ randomID else requestedKey in
                  do r <- gw (CreateSessionRPC
                    (mkCreateSessionRequest sessionID "" runtimeClass [] (cb_envVars b) (cb_envOrder b) []));
                  match r with
                  | Err e => Ret (controlError (gwErrorToE2B e))
                  | Ok _ =>
                      do created <- call Now;
                      do deadline <- (if neverTimeout : bool then Ret None
                                      else do t <- call Now; Ret (Some (seconds_from t timeoutSeconds)));
                      do! registry (put (mkEntry sessionID deadline (if cb_autoPause b then "pause" else "kill")
                            (Some created) meta runtimeClass false));
                      Ret (answer 201 (View (sessionView sessionID runtimeClass)))
                  end
              end
          end
      end
  end.

(** ** The handlers of one sandbox *)

(** [timeout]: the decoded body; a body that does not decode counts as empty. *)
Definition handleConnect (id : string) (timeout : option Z) : e2bP Response :=
  match parseSandboxTimeout timeout with
  | inr e => Ret (controlError e)
  | inl (timeoutSeconds, neverTimeout) =>
      do r <- gw (GetSessionRPC keys id);
      match r with
      | Err e => Ret (controlError (gwErrorToE2B e))
      | Ok sess =>
          let st := sessionState (gs_Phase sess) in
          if decide (st = stateDead) then Ret (controlError (apiError 404))
          else
            do status <- (if decide (st = statePaused) then
                            do r <- gw (ResumeSessionRPC id);
                            match r with
                            | Err e => Ret (inr (gwErrorToE2B e))
                            | Ok _ => do! registry (markPaused id false); Ret (inl 201)
                            end
                          else Ret (inl 200));
            match status with
            | inr e => Ret (controlError e)
            | inl status =>
                do e <- registry (get id);
                do! match e with
                    | None => Ret tt
                    | Some _ =>
                        if neverTimeout : bool then registry (clearDeadline id)
                        else do! registry (extendDeadline id timeoutSeconds); Ret tt
                    end;
                Ret (answer status (View (sessionView (gs_SessionId sess) (gs_RuntimeClass sess))))
            end
      end
  end.

Definition handleGet (id : string) : e2bP Response :=
  do live <- findLive id;
  match live with
  | None => Ret (controlError (apiError 404))
  | Some (sess, state) => do v <- infoView sess state; Ret (answer 200 (Infos [v]))
  end.

Definition handleKill (id : string) : e2bP Response :=
  do live <- findLive id;
  match live with
  | None => do err <- lastSessionErr id; Ret (goneOrNotFound err id)
  | Some _ =>
      do r <- gw (DestroySessionRPC id);
      match r with
      | Err err =>
          let e := gwErrorToE2B err in
          Ret (if StatusCode e =? 409 then conflict e 2 else controlError e)
      | Ok _ => do! registry (del id); Ret (answer 204 NoBody)
      end
  end.

Definition handleTimeout (id : string) (timeout : option Z) : e2bP Response :=
  match timeout with
  | None => Ret (controlError (apiError 400))
  | Some timeout =>
      if negb (validTimeout timeout) then Ret (controlError (apiError 400))
      else
        do live <- findLive id;
        match live with
        | None => Ret (controlError (apiError 404))
        | Some _ =>
            do e <- registry (get id);
            do! match e with
                | None => Ret tt
                | Some _ =>
                    if timeout =? NeverTimeout then registry (clearDeadline id)
                    else do! registry (extendDeadline id timeout); Ret tt
                end;
            Ret (answer 204 NoBody)
        end
  end.

Definition handlePause (id : string) : e2bP Response :=
  do live <- findLive id;
  match live with
  | None => do err <- lastSessionErr id; Ret (goneOrNotFound err id)
  | Some _ =>
      do r <- gw (PauseSessionRPC id);
      match r with
      | Err err => Ret (controlError (gwErrorToE2B err))
      | Ok _ => do! registry (markPaused id true); Ret (answer 204 NoBody)
      end
  end.

Definition handleResume (id : string) : e2bP Response :=
  do live <- findLive id;
  match live with
  | None => do err <- lastSessionErr id; Ret (goneOrNotFound err id)
  | Some (sess, _) =>
      do r <- gw (ResumeSessionRPC id);
      match r with
      | Err err => Ret (controlError (gwErrorToE2B err))
      | Ok _ =>
          do! registry (markPaused id false);
          Ret (answer 201 (View (sessionView (gs_SessionId sess) (gs_RuntimeClass sess))))
      end
  end.

Definition handleMetrics (id : string) : e2bP Response :=
  do live <- findLive id;
  Ret (match live with None => controlError (apiError 404) | Some _ => answer 200 (Infos []) end).

(** ** The deadline scanner *)

(** One sandbox of a sweep. *)
Definition gcOne (now : Z) (id : string) : e2bP unit :=
  do e <- registry (get id);
  match e with
  | None => Ret tt
  | Some e =>
      match re_deadlineAt e with
      | None => Ret tt
      | Some d =>
          if now <? d then Ret tt
          else
            let destroy :=
              do r <- gw (DestroySessionRPC id);
              match r with Ok _ => registry (del id) | Err _ => Ret tt end in
            if decide (re_onDeadline e = "pause") then
              do r <- gw (PauseSessionRPC id);
              match r with
              | Err _ => destroy
              | Ok _ => registry (markPaused id true)
              end
            else destroy
      end
  end.

Definition gcExpired : e2bP unit :=
  do now <- call Now;
  do l <- registry ids;
  for_each l (gcOne now).

(** [n] ticks of the scanner; [false] when it is told to stop. *)
Fixpoint gcLoop (n : nat) : e2bP bool :=
  match n with
  | O => Ret true
  | S n =>
      do ticked <- call (Sleep (15 * second));
      if negb ticked then Ret false
      else do! gcExpired; gcLoop n
  end.

(** ** Traffic *)

(** [wakeForTraffic]: a paused sandbox is resumed. *)
Definition wakeForTraffic (id : string) : e2bP ((GetSessionResponse * bool) + E2bError) :=
  do r <- gw (GetSessionRPC keys id);
  match r with
  | Err _ => Ret (inr (connectError "unavailable"))
  | Ok sess =>
      let st := sessionState (gs_Phase sess) in
      if decide (st = stateDead) then Ret (inr (connectError "unavailable"))
      else if decide (st = statePaused) then
        do r <- gw (ResumeSessionRPC id);
        match r with
        | Err _ => Ret (inr (connectError "unavailable"))
        | Ok _ => do! registry (markPaused id false); Ret (inl (sess, true))
        end
      else Ret (inl (sess, false))
  end.

(** [handleEnvdHealth] *)
Definition handleEnvdHealth (id : string) : e2bP Z :=
  if decide (id = "") then Ret 400
  else
    do r <- gw (GetSessionRPC keys id);
    match r with
    | Err _ => Ret 502
    | Ok sess =>
        if decide (sessionState (gs_Phase sess) = stateDead) then Ret 502
        else
          do e <- registry (get id);
          match e ≫= re_deadlineAt with
          | None => Ret 204
          | Some d =>
              do now <- call Now;
              Ret (if (d / 1000000 <? (now / second) * 1000) then 502 else 204)
          end
    end.
End server.

(** * Listing the sandboxes

    [GET /v2/sandboxes] of [pkg/sandbox/e2b/control.go]: the query, the
    filters, and the pages with their continuation token. *)

#[local] Open Scope Z_scope.

Record listQuery := mkListQuery {
  lq_states : list string; lq_limit : Z; lq_offset : Z; lq_nameFilter : string;
}.

(** [strconv.Atoi], 64-bit. *)
Definition positive_int (s : string) : option Z :=
  match ParseInt s with Some n => if 0 <? n then Some n else None | None => None end.

(** The last [name=] pair wins. *)
Definition name_filter (meta : string) : string :=
  foldl (fun acc pair => if has_prefix pair "name=" then trim_prefix pair "name=" else acc) ""
    (split_on (Ascii.ascii_of_N 38) meta).

Definition parseListQuery (query : gmap string (list string)) : listQuery :=
  let state := firstValue query "state" in
  let limit := match positive_int (firstValue query "limit") with
               | Some n => if n <=? 1000 then n else 100 | None => 100 end in
  let offset := default 0 (positive_int (firstValue query "nextToken")) in
  mkListQuery (if decide (state <> "") then TrimSpace <$> split_on comma state else ["running"; "paused"])
    limit offset (name_filter (firstValue query "metadata")).

(** [all[offset:end]] and the next token; [None]: the slice panics. *)
Definition list_page {A} (all : list A) (offset limit : Z) : option (list A * option Z) :=
  let len := Z.of_nat (length all) in
  let stop := wrap64 (offset + limit) in
  let offset := if len <? offset then len else offset in
  let stop := if len <? stop then len else stop in
  if (offset <=? stop) && (0 <=? offset)
  then Some (take (Z.to_nat (stop - offset)) (drop (Z.to_nat offset) all), if stop <? len then Some stop else None)
  else None.

Section server.
Context `{QP : QuantityParser} {R : Type} `{ST : StateStore R}.
Context (keys : SandboxSession -> list string) (cfg : Config).

(** The filters, in the order of the gateway's answer. *)
Fixpoint keep_listed (q : listQuery) (l : list GetSessionResponse) : prog (gwE (E2B R)) (list GetSessionResponse) :=
  match l with
  | [] => Ret []
  | sess :: l =>
      let st := sessionState (gs_Phase sess) in
      if decide (st = stateDead) then keep_listed q l
      else if decide (lq_states q <> [] /\ state_name st ∉ lq_states q) then keep_listed q l
      else
        do skip <- (if decide (lq_nameFilter q <> "") then
                      do e <- registry (get (gs_SessionId sess));
                      Ret (match e with
                           | None => true
                           | Some e => bool_decide (default "" (re_metadata e !! "name") <> lq_nameFilter q)
                           end)
                    else Ret false);
        do out <- keep_listed q l;
        Ret (if skip : bool then out else sess :: out)
  end.

Definition by_id (a b : GetSessionResponse) : Prop := String.le (gs_SessionId a) (gs_SessionId b).

#[export] Instance by_id_dec a b : Decision (by_id a b).
Proof. unfold by_id. apply _. Defined.

Definition listLiveSessions (q : listQuery) : prog (gwE (E2B R)) (res (list GetSessionResponse)) :=
  do r <- gw (ListSessionsRPC keys "all");
  match r with
  | Err e => Ret (Err e)
  | Ok l => do all <- keep_listed q l; Ret (Ok (merge_sort by_id all))
  end.

Fixpoint infoViews (l : list GetSessionResponse) : prog (gwE (E2B R)) (list InfoView) :=
  match l with
  | [] => Ret []
  | sess :: l =>
      do v <- infoView cfg sess (sessionState (gs_Phase sess));
      do out <- infoViews l;
      Ret (v :: out)
  end.

Definition handleList (query : gmap string (list string)) : prog (gwE (E2B R)) Response :=
  let q := parseListQuery query in
  do r <- listLiveSessions q;
  match r with
  | Err _ => Ret (controlError (apiError 500))
  | Ok all =>
      match list_page all (lq_offset q) (lq_limit q) with
      | None => Panic "slice bounds out of range"
      | Some (page, token) =>
          do out <- infoViews page;
          Ret (mkResponse 200 None token (Infos out))
      end
  end.
End server.

(** ** Following the token *)

(** What a client gets that follows the token from [offset] on. *)
Fixpoint all_pages {A} (fuel : nat) (all : list A) (offset limit : Z) : option (list A) :=
  match fuel with
  | O => None
  | S fuel =>
      match list_page all offset limit with
      | None => None
      | Some (page, None) => Some page
      | Some (page, Some next) => option_map (app page) (all_pages fuel all next limit)
      end
  end.

Lemma list_page_spec {A} (all : list A) (k : nat) (limit : Z) :
  (k <= length all)%nat -> 1 <= limit <= 1000 -> Z.of_nat (length all) < 2 ^ 62 ->
  list_page all (Z.of_nat k) limit =
    let n := (k + Z.to_nat limit)%nat in
    Some (take (Z.to_nat limit) (drop k all), if (n <? length all)%nat then Some (Z.of_nat n) else None).
Proof.
  intros Hk Hl Hlen. unfold list_page. cbv zeta.
  rewrite wrap64_id by (unfold in_int64; lia).
  replace (Z.of_nat (length all) <? Z.of_nat k) with false by lia.
  destruct (Z.ltb_spec (Z.of_nat (length all)) (Z.of_nat k + limit)) as [H|H].
  - replace ((Z.of_nat k <=? Z.of_nat (length all)) && (0 <=? Z.of_nat k)) with true by lia.
    rewrite Z.ltb_irrefl. rewrite (proj2 (Nat.ltb_ge _ _)) by lia. rewrite Nat2Z.id. do 2 f_equal.
    rewrite !take_ge; [done|rewrite length_drop; lia..].
  - replace ((Z.of_nat k <=? Z.of_nat k + limit) && (0 <=? Z.of_nat k)) with true by lia. rewrite Nat2Z.id.
    replace (Z.of_nat k + limit - Z.of_nat k) with limit by lia. do 2 f_equal.
    destruct (Z.ltb_spec (Z.of_nat k + limit) (Z.of_nat (length all))).
    + rewrite (proj2 (Nat.ltb_lt _ _)) by lia. f_equal. lia.
    + by rewrite (proj2 (Nat.ltb_ge _ _)) by lia.
Qed.

(** Following the tokens from the start ends, and gives every sandbox of a
    list that does not change exactly once and in order. *)
Theorem pages_complete {A} (all : list A) (limit : Z) :
  1 <= limit <= 1000 -> Z.of_nat (length all) < 2 ^ 62 ->
  all_pages (S (length all)) all 0 limit = Some all.
Proof.
  intros Hl Hlen.
  assert (forall fuel k, (k <= length all)%nat -> (length all - k < fuel)%nat ->
    all_pages fuel all (Z.of_nat k) limit = Some (drop k all)) as H; [|exact (H (S (length all)) 0%nat ltac:(lia) ltac:(lia))].
  induction fuel as [|fuel IH]; intros k Hk Hf; [lia|]. cbn [all_pages].
  rewrite list_page_spec by done. cbv zeta.
  destruct (Nat.ltb_spec (k + Z.to_nat limit) (length all)) as [H|H].
  - rewrite IH by lia. cbn [option_map]. f_equal.
    etrans; [|apply (take_drop (Z.to_nat limit) (drop k all))]. by rewrite drop_drop.
  - rewrite take_ge; [done|rewrite length_drop; lia].
Qed.

Lemma ParseInt_range s n : ParseInt s = Some n -> - 2 ^ 63 <= n < 2 ^ 63.
Proof. unfold ParseInt. intros H. repeat case_match; simplify_eq; lia. Qed.

(** The token comes from the client: whatever page is asked for, with a
    limit the query parser lets through, the answer is a page unless offset
    and limit overflow together; then the handler panics. *)
Theorem list_page_total {A} (all : list A) query :
  let q := parseListQuery query in
  Z.of_nat (length all) < 2 ^ 62 ->
  1 <= lq_limit q <= 1000 /\ 0 <= lq_offset q < 2 ^ 63 /\
  (list_page all (lq_offset q) (lq_limit q) = None <-> 2 ^ 63 <= lq_offset q + lq_limit q).
Proof.
  intros q Hlen.
  assert (1 <= lq_limit q <= 1000) as Hl.
  { subst q. unfold parseListQuery, positive_int. simpl. repeat case_match; simplify_eq; lia. }
  assert (0 <= lq_offset q < 2 ^ 63) as Ho.
  { subst q. unfold parseListQuery, positive_int. cbn [lq_offset].
    destruct (ParseInt (firstValue query "nextToken")) as [n|] eqn:E; [|simpl; lia].
    destruct (Z.ltb_spec 0 n); simpl; [|lia]. split; [lia|]. by eapply ParseInt_range. }
  split; [done|]. split; [done|]. unfold list_page. cbv zeta. set (len := Z.of_nat (length all)) in *.
  destruct (Z.le_gt_cases (2 ^ 63) (lq_offset q + lq_limit q)) as [H|H].
  - assert (wrap64 (lq_offset q + lq_limit q) = lq_offset q + lq_limit q - 2 ^ 64) as ->
    by (unfold wrap64; rewrite <-(Z.mod_unique (lq_offset q + lq_limit q + 2 ^ 63) (2 ^ 64) 1 (lq_offset q + lq_limit q - 2 ^ 63)); lia).
    assert (0 <= len) by lia.
    replace (len <? lq_offset q) with true by lia.
    replace (len <? lq_offset q + lq_limit q - 2 ^ 64) with false by lia.
    replace ((len <=? lq_offset q + lq_limit q - 2 ^ 64) && (0 <=? len)) with false by lia. tauto.
  - rewrite wrap64_id by (unfold in_int64; lia). split; [|lia].
    case_match eqn:E; [done|]. exfalso. apply andb_false_iff in E.
    destruct (Z.ltb_spec len (lq_offset q)), (Z.ltb_spec len (lq_offset q + lq_limit q)); destruct E; lia.
Qed.

(** ** Witnesses *)

Lemma pages_complete_witness : all_pages 6 [1; 2; 3; 4; 5] 0 2 = Some [1; 2; 3; 4; 5].
Proof. exact (pages_complete [1; 2; 3; 4; 5] 2 ltac:(lia) ltac:(by vm_compute)). Defined.

(** A token that no server gave, and a page nobody can serve. *)
Definition hostile_query : gmap string (list string) :=
  {["nextToken" := ["9223372036854775807"]; "limit" := ["10"]]}.

Lemma list_page_total_witness :
  let q := parseListQuery hostile_query in
  lq_limit q = 10 /\ list_page [1; 2] (lq_offset q) (lq_limit q) = None.
Proof.
  cbv zeta. split; [by vm_compute|].
  destruct (list_page_total [1; 2] hostile_query ltac:(by vm_compute)) as (_ & _ & H).
  apply H. by vm_compute.
Defined.
