(* ===== verification/E2bFiles.v ===== *)
(** * Paths, byte ranges and file metadata of the envd surface

    The pure parts of [pkg/sandbox/e2b/files.go], [envd.go] and [gateway.go]:
    how a path of the E2B world becomes a path of the workspace, which bytes a
    [Range] header asks for, and how entries are described. *)
From Stdlib Require Import ZArith Lia.
From S2P Require Import Prelude Kube GoTime GoText ApiKey.

#[local] Open Scope Z_scope.

Definition slash : Ascii.ascii := Ascii.Ascii true true true true false true false false.
Definition dot : Ascii.ascii := Ascii.Ascii false true true true false true false false.

(** ** Paths *)

Definition dotted (part : string) : bool := bool_decide (part = ".." \/ part = ".").

(** [None] is the error. *)
Definition resolveSandboxPath (raw : string) : option string :=
  if decide (raw = "") then None
  else
    let p := if has_prefix raw "/workspace" then trim_prefix (trim_prefix raw "/workspace") "/" else raw in
    if existsb dotted (split_on slash p) then None
    else Some ("/workspace/" +:+ trim_prefix p "/").

(** What follows the last [c]. *)
Fixpoint after_last (c : Ascii.ascii) (s : string) : option string :=
  match s with
  | EmptyString => None
  | String a s =>
      match after_last c s with
      | Some r => Some r
      | None => if Ascii.eqb a c then Some s else None
      end
  end.

Definition baseName (p : string) : string := default p (after_last slash p).

(** [strings.Count(rel, "/") + 1], and 0 for the empty path. *)
Definition depthOf (rel : string) : Z :=
  if decide (rel = "") then 0 else Z.of_nat (length (split_on slash rel)).

(** ** Content types *)

Definition mimeByExtension : list (string * string) :=
  [("txt", "text/plain; charset=utf-8"); ("md", "text/markdown; charset=utf-8");
   ("csv", "text/csv; charset=utf-8"); ("html", "text/html; charset=utf-8");
   ("htm", "text/html; charset=utf-8"); ("css", "text/css; charset=utf-8");
   ("js", "text/javascript; charset=utf-8"); ("json", "application/json");
   ("xml", "text/xml; charset=utf-8"); ("pdf", "application/pdf");
   ("png", "image/png"); ("jpg", "image/jpeg"); ("jpeg", "image/jpeg");
   ("gif", "image/gif"); ("svg", "image/svg+xml"); ("webp", "image/webp");
   ("ico", "image/x-icon"); ("mp3", "audio/mpeg"); ("wav", "audio/wav");
   ("mp4", "video/mp4"); ("webm", "video/webm");
   ("zip", "application/zip"); ("gz", "application/gzip");
   ("tar", "application/x-tar"); ("wasm", "application/wasm")].

Definition contentTypeOf (name : string) : string :=
  match after_last dot name with
  | None => "application/octet-stream"
  | Some ext =>
      match find (fun e => bool_decide (e.1 = ToLower ext)) mimeByExtension with
      | Some e => e.2
      | None => "application/octet-stream"
      end
  end.

(** ** Modes *)

Definition octal_digit (c : Ascii.ascii) : option Z :=
  match digit c with Some d => if d <? 8 then Some d else None | None => None end.

Fixpoint octal_acc (s : string) (acc : Z) : option Z :=
  match s with
  | EmptyString => Some acc
  | String c s => match octal_digit c with Some d => octal_acc s (8 * acc + d) | None => None end
  end.

(** [strconv.ParseUint(s, 8, 32)] *)
Definition parse_octal32 (s : string) : option Z :=
  if decide (s = "") then None
  else match octal_acc s 0 with
       | Some n => if n <? 2 ^ 32 then Some n else None
       | None => None
       end.

Definition flag_char (bits flag : Z) (c : string) : string := if Z.land bits flag =? 0 then "-" else c.

Definition permTriplet (bits : Z) : string :=
  flag_char bits 4 "r" +:+ flag_char bits 2 "w" +:+ flag_char bits 1 "x".

Definition modePerms (octal : string) : string :=
  match parse_octal32 octal with
  | None => ""
  | Some n => permTriplet (Z.land (Z.shiftr n 6) 7) +:+ permTriplet (Z.land (Z.shiftr n 3) 7) +:+
              permTriplet (Z.land (Z.shiftr n 0) 7)
  end.

(** ** Entries *)

Record EntryInfo := mkEntryInfo {
  ei_path : string; ei_size : Z; ei_mode : string; ei_owner : Z; ei_group : Z; ei_modifiedTime : Z;
  ei_name : string; ei_type : string; ei_permissions : string; ei_symlinkTarget : option string;
}.

Definition file_type (t : string) : string :=
  if decide (t = "file") then "FILE_TYPE_FILE"
  else if decide (t = "dir") then "FILE_TYPE_DIRECTORY" else "FILE_TYPE_UNSPECIFIED".

Definition statEntryToInfo (e : statEntry) (fallbackPath : string) : EntryInfo :=
  mkEntryInfo (st_Name e) (st_Size e) (st_Mode e) (st_UID e) (st_GID e) (st_Mtime e)
    (if decide (baseName (st_Name e) = "") then baseName fallbackPath else baseName (st_Name e))
    (file_type (st_Type e)) (modePerms (st_Mode e))
    (if decide (st_SymlinkTarget e <> "") then Some (st_SymlinkTarget e) else None).

Definition eventTypeName (t : Z) : string :=
  if t =? 1 then "EVENT_TYPE_CREATE" else if t =? 2 then "EVENT_TYPE_WRITE"
  else if t =? 3 then "EVENT_TYPE_REMOVE" else if t =? 4 then "EVENT_TYPE_RENAME"
  else if t =? 5 then "EVENT_TYPE_CHMOD" else "EVENT_TYPE_UNSPECIFIED".

(** ** Ranges *)

(** The longest run of digits, and the rest. *)
Fixpoint span_digits (s : string) : string * string :=
  match s with
  | EmptyString => (EmptyString, EmptyString)
  | String c s' =>
      match digit c with
      | Some _ => let '(d, r) := span_digits s' in (String c d, r)
      | None => (EmptyString, s)
      end
  end.

(** [%d] of [fmt.Sscanf]: white space, a sign, digits; a header value has no
    line break. *)
Definition scan_int (s : string) : option (Z * string) :=
  let s := trim_left s in
  let '(sign, body) :=
    match s with
    | String c s' => if bool_decide (String c "" = "-" \/ String c "" = "+") then (String c "", s') else ("", s)
    | EmptyString => ("", s)
    end in
  let '(d, rest) := span_digits body in
  match ParseInt (sign +:+ d) with
  | Some z => Some (z, rest)
  | None => None
  end.

(** [fmt.Sscanf(header, "bytes=%d-%d", &start, &end)]: how many values were
    read, whether without error, and the values. *)
Definition Sscanf_range (header : string) : nat * bool * Z * Z :=
  match strip_prefix "bytes=" header with
  | None => (0%nat, false, 0, 0)
  | Some s =>
      match scan_int s with
      | None => (0%nat, false, 0, 0)
      | Some (start, s) =>
          match strip_prefix "-" s with
          | None => (1%nat, false, start, 0)
          | Some s =>
              match scan_int s with
              | None => (1%nat, false, start, 0)
              | Some (stop, _) => (2%nat, true, start, stop)
              end
          end
      end
  end.

(** Offset and length. *)
Definition parseSingleRange (header : string) (size : Z) : option (Z * Z) :=
  if size =? 0 then None
  else
    let '(n, ok, start, stop) := Sscanf_range header in
    if negb ok || (n <? 1)%nat then None
    else if (start <? 0) || (size <=? start) then None
    else
      let stop := if (n =? 1)%nat || (size <=? stop) then size - 1 else stop in
      if stop <? start then None else Some (start, stop - start + 1).

(** Status, body and [Content-Range] of a download of [content]. *)
Definition download (rangeHeader content : string) : Z * string * option (Z * Z * Z) :=
  if decide (rangeHeader = "") then (200, content, None)
  else match parseSingleRange rangeHeader (Z.of_nat (String.length content)) with
       | Some (offset, length) =>
           (206, String.substring (Z.to_nat offset) (Z.to_nat length) content,
            Some (offset, offset + length - 1, Z.of_nat (String.length content)))
       | None => (200, content, None)
       end.

(** ** Paths stay in the workspace *)

(** Walking down a path: [..] goes up, [.] and empty parts stay. *)
Definition step_path (at_ : list string) (part : string) : list string :=
  if decide (part = "" \/ part = ".") then at_
  else if decide (part = "..") then tail at_ else part :: at_.
Definition walk (p : string) : list string := foldl step_path [] (split_on slash p).

Lemma walk_down (l at_ : list string) : Forall (fun x => dotted x = false) l ->
  foldl step_path at_ l = reverse (filter (fun x => x <> "") l) ++ at_.
Proof.
  revert at_. induction l as [|x l IH]; intros at_ H; [done|]. inversion H as [|? ? Hx Hl]; subst.
  apply bool_decide_eq_false in Hx. cbn [foldl]. rewrite IH by done. unfold step_path.
  rewrite filter_cons. destruct (decide (x = "")) as [->|Hne].
  - rewrite decide_True by tauto. by rewrite decide_False by (by intros []).
  - rewrite (decide_False (P := x = "" \/ x = ".")) by tauto. rewrite decide_False by tauto.
    rewrite decide_True by done. by rewrite reverse_cons, <-app_assoc.
Qed.

Lemma split_slash (s : string) : split_on slash (String slash s) = "" :: split_on slash s.
Proof. done. Qed.

Lemma split_workspace (q : string) :
  split_on slash ("/workspace/" +:+ q) = "" :: "workspace" :: split_on slash q.
Proof. exact (f_equal (cons "") (split_on_app slash "workspace" q eq_refl)). Qed.

(** Dropping a leading slash drops an empty part. *)
Lemma split_trim_slash (p : string) :
  split_on slash (trim_prefix p "/") = split_on slash p \/
  split_on slash p = "" :: split_on slash (trim_prefix p "/").
Proof.
  unfold trim_prefix. destruct (strip_prefix "/" p) as [r|] eqn:E; [|by left].
  right. apply strip_prefix_Some in E as ->. done.
Qed.

Lemma trim_undotted (p : string) :
  existsb dotted (split_on slash p) = existsb dotted (split_on slash (trim_prefix p "/")).
Proof. by destruct (split_trim_slash p) as [->| ->]. Qed.

Lemma existsb_Forall {A} (f : A -> bool) l : existsb f l = false -> Forall (fun x => f x = false) l.
Proof.
  induction l as [|x l IH]; [by constructor|]. simpl. intros [H1 H2]%orb_false_iff. constructor; auto.
Qed.

(** The parts of a path that begins with the workspace root. *)
Lemma split_after_root (r : string) :
  existsb dotted (split_on slash (trim_prefix r "/")) = false ->
  existsb dotted (split_on slash ("/workspace" +:+ r)) = false.
Proof.
  rewrite <-trim_undotted. intros H.
  change (existsb dotted (split_on slash ("workspace" +:+ r)) = false).
  assert (forall w, no_char slash w = true -> (2 < String.length w)%nat ->
    existsb dotted (split_on slash (w +:+ r)) = false) as Hw; [|apply Hw; [done|simpl; lia]].
  intros w Hw Hlen. assert (exists a l, split_on slash r = a :: l /\ split_on slash (w +:+ r) = (w +:+ a) :: l)
    as (a & l & Hr & Hwr).
  { clear Hlen H. induction w as [|c w IH].
    - pose proof (split_on_ne slash r). destruct (split_on slash r) as [|a l] eqn:E; [done|].
      exists a, l. by rewrite append_nil_l, E.
    - cbn [no_char] in Hw. apply andb_true_iff in Hw as [Hc Hw]. apply negb_true_iff in Hc.
      destruct (IH Hw) as (a & l & E1 & E2). exists a, l. split; [done|].
      rewrite append_cons. cbn [split_on]. by rewrite Hc, E2, append_cons. }
  rewrite Hr in H. rewrite Hwr. cbn [existsb] in *. apply orb_false_iff in H as [_ H]. rewrite H, orb_false_r.
  apply bool_decide_eq_false. intros He.
  destruct w as [|c1 [|c2 [|c3 w]]]; simpl in Hlen; try lia. rewrite !append_cons in He.
  destruct He as [He|He]; discriminate He.
Qed.

(** A path that is accepted leads below the workspace root however it is
    walked, and a path with a [.] or [..] part is refused. *)
Theorem resolved_path_contained raw :
  match resolveSandboxPath raw with
  | Some p => exists parts, split_on slash p = "" :: "workspace" :: parts /\
      Forall (fun x => x <> ".." /\ x <> ".") parts /\
      walk p = reverse (filter (fun x => x <> "") parts) ++ ["workspace"] /\
      existsb dotted (split_on slash raw) = false
  | None => raw = "" \/ existsb dotted (split_on slash (trim_prefix raw "/workspace")) = true
  end.
Proof.
  unfold resolveSandboxPath. destruct (decide (raw = "")); [by left|]. cbv zeta. set (p := if has_prefix _ _ then _ else _).
  destruct (existsb dotted (split_on slash p)) eqn:E.
  - right. subst p. unfold has_prefix in E. unfold trim_prefix at 1. unfold trim_prefix in E at 2.
    destruct (strip_prefix "/workspace" raw) as [r|]; [|done]. by rewrite trim_undotted.
  - exists (split_on slash (trim_prefix p "/")). rewrite split_workspace. split; [done|].
    pose proof E as E'. rewrite trim_undotted in E'.
    pose proof (existsb_Forall _ _ E') as HF.
    split; [eapply Forall_impl; [exact HF|]; intros x Hx; apply bool_decide_eq_false in Hx; tauto|]. split.
    + unfold walk. rewrite split_workspace. cbn [foldl]. by rewrite walk_down.
    + subst p. unfold has_prefix in E. destruct (strip_prefix "/workspace" raw) as [r|] eqn:Hr; [|done].
      apply strip_prefix_Some in Hr as ->. apply split_after_root.
      unfold trim_prefix in E at 2. by rewrite strip_prefix_app in E.
Qed.

(** The home directory of the E2B world is not the workspace. *)
Example home_is_below_workspace :
  resolveSandboxPath "/home/user/a.txt" = Some "/workspace/home/user/a.txt" /\
  resolveSandboxPath "/workspace" = Some "/workspace/" /\ resolveSandboxPath "/workspaces/x" = Some "/workspace/s/x" /\
  resolveSandboxPath "a/../b" = None.
Proof. done. Qed.

(** ** Ranges *)

(** The part of a file that a range request answers with lies inside the
    file and is not empty: the slice never panics. *)
Theorem range_in_bounds header content :
  let '(status, body, range) := download header content in
  match range with
  | Some (first, last, total) =>
      status = 206 /\ 0 <= first <= last /\ last < total /\ total = Z.of_nat (String.length content) /\
      Z.of_nat (String.length body) = last - first + 1
  | None => status = 200 /\ body = content
  end.
Proof.
  unfold download. case_decide; [done|].
  destruct (parseSingleRange _ _) as [[off len]|] eqn:E; [|done].
  unfold parseSingleRange in E. set (size := Z.of_nat (String.length content)) in *.
  destruct (size =? 0) eqn:E0; [done|]. destruct (Sscanf_range header) as [[[n ok] start] stop].
  destruct (negb ok || _); [done|]. destruct ((start <? 0) || (size <=? start)) eqn:E1; [done|].
  set (stop' := if (_ : bool) then size - 1 else stop) in E. destruct (stop' <? start) eqn:E2; [done|].
  assert (stop' < size) as Hs.
  { subst stop'. destruct ((n =? 1)%nat || (size <=? stop)) eqn:E3; [lia|].
    apply orb_false_iff in E3 as [_ E3]. lia. }
  apply orb_false_iff in E1 as [E1 E1']. injection E as <- <-.
  split; [done|]. split; [lia|]. split; [lia|]. split; [done|].
  assert (forall (s : string) (m : nat), (m <= String.length s)%nat -> String.length (String.substring 0 m s) = m) as H0.
  { intros s. induction s as [|c s IH]; intros [|m] Hm; simpl in *; try lia. by rewrite IH by lia. }
  assert (forall (s : string) (k m : nat), (k + m <= String.length s)%nat ->
    String.length (String.substring k m s) = m) as Hsub.
  { intros s. induction s as [|c s IH]; intros [|k] m Hm; simpl in Hm |- *.
    - destruct m; [done|lia].
    - lia.
    - destruct m as [|m]; [done|]. simpl. by rewrite H0 by lia.
    - apply IH. lia. }
  rewrite Hsub; lia.
Qed.

(** Decimal digits, read as a number. *)
Definition decimal (s : string) (z : Z) : Prop :=
  s <> "" /\ all_chars (fun c => bool_decide (is_Some (digit c))) s = true /\ ParseInt s = Some z.

Definition no_digit (s : string) : Prop := match s with String c _ => digit c = None | EmptyString => True end.

Lemma span_digits_app d s :
  all_chars (fun c => bool_decide (is_Some (digit c))) d = true -> no_digit s -> span_digits (d +:+ s) = (d, s).
Proof.
  intros Hd Hs. induction d as [|c d IH].
  - rewrite append_nil_l. destruct s as [|c s]; [done|]. cbn [span_digits]. unfold no_digit in Hs. by rewrite Hs.
  - cbn [all_chars] in Hd. apply andb_true_iff in Hd as [[z Hc]%bool_decide_eq_true Hd].
    rewrite append_cons. cbn [span_digits]. by rewrite Hc, IH.
Qed.

Lemma digit_not_space c z : digit c = Some z ->
  is_space c = false /\ bool_decide (String c "" = "-" \/ String c "" = "+") = false /\
  (Ascii.N_of_ascii c < 128)%N /\ 0 <= z.
Proof.
  unfold digit, is_space. cbv zeta. set (n := Ascii.N_of_ascii c). intros H.
  destruct ((48 <=? Z.of_N n) && (Z.of_N n <=? 57)) eqn:E; [|done]. apply andb_true_iff in E as [E1 E2].
  assert (48 <= n <= 57)%N as Hn by lia.
  split; [|split; [|split; [lia|injection H as <-; lia]]].
  - apply orb_false_iff. split; [|by apply N.eqb_neq; lia]. apply andb_false_iff. right. apply N.leb_gt. lia.
  - apply bool_decide_eq_false. intros [[= ->]|[= ->]]; by vm_compute in Hn; destruct Hn.
Qed.

Lemma trim_left_digit c s z : digit c = Some z -> trim_left (String c s) = String c s.
Proof.
  intros Hc. destruct (digit_not_space _ _ Hc) as (H1 & _ & H2 & _). unfold trim_left. cbn [trim_front]. rewrite H1.
  assert (forall k, (128 <= k)%N -> (Ascii.N_of_ascii c =? k)%N = false) as Hk by (intros k Hk; apply N.eqb_neq; lia).
  destruct s as [|b s]; [done|]. unfold is_space2. cbv zeta. rewrite (Hk 194%N) by done. cbn [andb].
  destruct s as [|d s]; [done|]. unfold is_space3. cbv zeta.
  by rewrite (Hk 225%N), (Hk 226%N), (Hk 227%N) by done.
Qed.

Lemma scan_decimal d z s : decimal d z -> no_digit s -> scan_int (d +:+ s) = Some (z, s).
Proof.
  intros (Hne & Hd & Hz) Hs. unfold scan_int. destruct d as [|c d]; [done|].
  pose proof Hd as Hd'. cbn [all_chars] in Hd'. apply andb_true_iff in Hd' as [[z0 Hc]%bool_decide_eq_true _].
  destruct (digit_not_space _ _ Hc) as (_ & H2 & _). rewrite append_cons, (trim_left_digit _ _ _ Hc), H2.
  rewrite <-append_cons, span_digits_app by done. by rewrite append_nil_l, Hz.
Qed.

Lemma digits_acc_nonneg s acc z : 0 <= acc -> digits_acc s acc = Some z -> 0 <= z.
Proof.
  revert acc. induction s as [|c s IH]; intros acc Ha H; simpl in H; [by simplify_eq|].
  destruct (digit c) as [d|] eqn:E; [|done]. destruct (digit_not_space _ _ E) as (_ & _ & _ & Hd).
  eapply IH; [|exact H]. lia.
Qed.

Lemma decimal_nonneg d z : decimal d z -> 0 <= z.
Proof.
  intros (Hne & Hd & Hz). destruct d as [|c d]; [done|]. cbn [all_chars] in Hd.
  apply andb_true_iff in Hd as [[z0 Hc]%bool_decide_eq_true _].
  destruct (digit_not_space _ _ Hc) as (_ & H2 & _). apply bool_decide_eq_false in H2. unfold ParseInt in Hz.
  assert ((Ascii.N_of_ascii c =? 45)%N = false /\ (Ascii.N_of_ascii c =? 43)%N = false) as [E1 E2].
  { split; apply N.eqb_neq; intros E; apply H2; [left|right];
      rewrite <-(Ascii.ascii_N_embedding c), E; done. }
  rewrite E1, E2 in Hz. destruct (digits_acc _ _) as [n|] eqn:En; [|done].
  pose proof (digits_acc_nonneg (String c d) 0 n ltac:(lia) En). case_match; simplify_eq. done.
Qed.

(** A range with both ends asks for the bytes between them, cut at the end
    of the file; a range that leaves the end open is not understood, and the
    whole file is sent. *)
Theorem range_ends da db a b content :
  decimal da a -> decimal db b -> content <> "" ->
  let size := Z.of_nat (String.length content) in
  parseSingleRange ("bytes=" +:+ da +:+ "-" +:+ db) size =
    (if (a <? size) && (a <=? Z.min b (size - 1)) then Some (a, Z.min b (size - 1) - a + 1) else None) /\
  download ("bytes=" +:+ da +:+ "-") content = (200, content, None).
Proof.
  intros Ha Hb Hc. cbv zeta. set (size := Z.of_nat (String.length content)).
  assert (0 < size) as Hsize by (destruct content; [done|subst size; simpl; lia]).
  pose proof (decimal_nonneg _ _ Ha) as Ha0.
  assert (no_digit ("-" +:+ db) /\ no_digit "-") as [Hn1 Hn2] by done.
  split.
  - unfold parseSingleRange. replace (size =? 0) with false by lia. unfold Sscanf_range.
    rewrite strip_prefix_app, (scan_decimal da a) by done. rewrite strip_prefix_app.
    pose proof (scan_decimal db b "" Hb I) as Hs. rewrite append_empty_r in Hs. rewrite Hs. cbn [negb orb Nat.ltb Nat.leb Nat.eqb].
    replace (a <? 0) with false by lia. cbn [orb]. destruct (Z.ltb_spec a size).
    + rewrite (proj2 (Z.leb_gt size a)) by lia. cbn [andb].
      destruct (Z.leb_spec size b).
      * rewrite Z.min_r by lia. replace (size - 1 <? a) with false by lia. by replace (a <=? size - 1) with true by lia.
      * rewrite Z.min_l by lia. destruct (Z.ltb_spec b a), (Z.leb_spec a b); try lia; done.
    + by rewrite (proj2 (Z.leb_le size a)) by lia.
  - unfold download. rewrite decide_False by done. fold size. unfold parseSingleRange.
    replace (size =? 0) with false by lia. unfold Sscanf_range.
    rewrite strip_prefix_app, (scan_decimal da a) by done. done.
Qed.

Lemma range_ends_witness :
  parseSingleRange ("bytes=" +:+ "2" +:+ "-" +:+ "100") 5 = Some (2, 3) /\
  download ("bytes=" +:+ "2" +:+ "-") "hello" = (200, "hello", None).
Proof.
  assert (decimal "2" 2) as Ha by (split; [done|]; split; by vm_compute).
  assert (decimal "100" 100) as Hb by (split; [done|]; split; by vm_compute).
  destruct (range_ends "2" "100" 2 100 "hello" Ha Hb ltac:(done)) as [H1 H2].
  split; [|exact H2]. etrans; [exact H1|by vm_compute].
Defined.

(** ** Modes *)

Lemma land_pow2 x j : 0 <= j -> (Z.land x (2 ^ j) =? 0) = negb (Z.testbit x j).
Proof.
  intros Hj. destruct (Z.testbit x j) eqn:E; simpl.
  - apply Z.eqb_neq. intros H. apply (f_equal (fun y => Z.testbit y j)) in H.
    rewrite Z.land_spec, E, Z.pow2_bits_true, Z.bits_0 in H by done. done.
  - apply Z.eqb_eq, Z.bits_inj'. intros n Hn. rewrite Z.land_spec, Z.bits_0, Z.pow2_bits_eqb by done.
    destruct (Z.eqb_spec j n) as [->|]; [by rewrite E|by rewrite andb_false_r].
Qed.

Lemma flag_of_mode n k j c : 0 <= k -> 0 <= j < 3 ->
  flag_char (Z.land (Z.shiftr n k) 7) (2 ^ j) c = if Z.testbit n (k + j) then c else "-".
Proof.
  intros Hk Hj. unfold flag_char. rewrite land_pow2 by lia. rewrite Z.land_spec, Z.shiftr_spec by lia.
  assert (Z.testbit 7 j = true) as -> by (assert (j = 0 \/ j = 1 \/ j = 2) as [->|[->| ->]] by lia; done).
  rewrite andb_true_r, Z.add_comm. by destruct (Z.testbit n (k + j)).
Qed.

(** The permission text of an octal mode shows the lower nine bits, from
    the owner's read bit down. *)
Theorem mode_text octal n :
  parse_octal32 octal = Some n ->
  modePerms octal = foldr String.append "" (imap (fun i c =>
    if Z.testbit n (8 - Z.of_nat i) then c else "-") ["r"; "w"; "x"; "r"; "w"; "x"; "r"; "w"; "x"]).
Proof.
  intros H. unfold modePerms. rewrite H. unfold permTriplet.
  assert (forall k c, 0 <= k -> flag_char (Z.land (Z.shiftr n k) 7) 4 c = if Z.testbit n (k + 2) then c else "-") as H4
    by (intros k c Hk; exact (flag_of_mode n k 2 c Hk ltac:(lia))).
  assert (forall k c, 0 <= k -> flag_char (Z.land (Z.shiftr n k) 7) 2 c = if Z.testbit n (k + 1) then c else "-") as H2
    by (intros k c Hk; exact (flag_of_mode n k 1 c Hk ltac:(lia))).
  assert (forall k c, 0 <= k -> flag_char (Z.land (Z.shiftr n k) 7) 1 c = if Z.testbit n (k + 0) then c else "-") as H1
    by (intros k c Hk; exact (flag_of_mode n k 0 c Hk ltac:(lia))).
  rewrite !H4, !H2, !H1 by lia.
  simpl. by rewrite !append_assoc, append_empty_r.
Qed.

Lemma mode_text_witness : parse_octal32 "0754" = Some 492 /\ modePerms "0754" = "rwxr-xr--".
Proof. split; [done|]. etrans; [exact (mode_text "0754" 492 eq_refl)|by vm_compute]. Defined.
