(* ===== verification/E2bStream.v ===== *)
(** * Process output on the envd surface

    The framing of [pkg/sandbox/e2b/gateway.go] and the reader of
    [runProcessStream] in [envd.go]: sandboxd sends a process's output as
    server-sent events, the gateway passes the bytes on in chunks, and the E2B
    server takes the frames out again, looking in each batch for the frames
    that carry the pid and the exit code. *)
From Stdlib Require Import ZArith Lia.
From S2P Require Import Prelude GoTime GoText.

#[local] Open Scope Z_scope.

Definition quote : Ascii.ascii := Ascii.Ascii false true false false false true false false.
Definition newline : Ascii.ascii := Ascii.Ascii false true false true false false false false.
Definition blank_line : string := String newline (String newline "").

(** ** The framer *)

(** What is before and after the first blank line. *)
Fixpoint cut_frame (buf : string) : option (string * string) :=
  match strip_prefix blank_line buf with
  | Some rest => Some (EmptyString, rest)
  | None =>
      match buf with
      | EmptyString => None
      | String c buf =>
          match cut_frame buf with Some (line, rest) => Some (String c line, rest) | None => None end
      end
  end.

Definition stripDataPrefix (line : string) : string := trim_prefix (trim_prefix line "data:") " ".

(** The payloads of the complete frames, joined, and what stays in the buffer;
    every frame takes two bytes, so that the length is fuel enough. *)
Fixpoint frames_out (fuel : nat) (buf : string) : string * string :=
  match fuel with
  | O => (EmptyString, buf)
  | S fuel =>
      match cut_frame buf with
      | None => (EmptyString, buf)
      | Some (line, rest) => let '(out, buf) := frames_out fuel rest in (stripDataPrefix line +:+ out, buf)
      end
  end.

Definition push (buf chunk : string) : string * string :=
  let buf := buf +:+ chunk in frames_out (String.length buf) buf.

(** [drain] leaves the buffer empty. *)
Definition drain (buf : string) : string := stripDataPrefix buf.

(** [splitSSEFrames] *)
Fixpoint split_frames (fuel : nat) (body : string) : list string :=
  match fuel with
  | O => []
  | S fuel =>
      match cut_frame body with
      | None => if decide (body = "") then [] else [body]
      | Some (line, rest) => line :: split_frames fuel rest
      end
  end.
Definition splitSSEFrames (body : string) : list string := split_frames (S (String.length body)) body.

(** ** The reader *)

(** [json.Unmarshal] of an object's [exit] or [pid] member, 0 if it has none. *)
Class FrameJSON := mkFrameJSON {
  exit_member : string -> option Z;
  pid_member : string -> option Z;
}.

Definition member_prefix (name : string) : string :=
  String.append "{" (String quote (name +:+ String quote ":")).

Section reader.
Context `{FJ : FrameJSON}.

Definition parseExitFrame (frame : string) : option Z :=
  let frame := TrimSpace frame in
  if has_prefix frame (member_prefix "exit") then exit_member frame else None.

Definition parsePidFrame (frame : string) : option Z :=
  let frame := TrimSpace frame in
  if has_prefix frame (member_prefix "pid") then
    match pid_member frame with Some n => if n =? 0 then None else Some n | None => None end
  else None.

(** The state of the reading goroutine: the framer's buffer, whether the pid
    was looked for, the guest pid, what the exit channel (of capacity one)
    holds, the broadcasts so far, and whether it is stuck on a full channel. *)
Record Reader := mkReader {
  rd_buf : string; rd_pidSeen : bool; rd_guest : option Z; rd_exit : option Z;
  rd_out : list string; rd_stuck : bool;
}.

Definition new_reader : Reader := mkReader "" false None None [] false.

(** A batch that is not the pid. *)
Definition take_output (out : string) (s : Reader) : Reader :=
  match parseExitFrame out with
  | Some code =>
      match rd_exit s with
      | None => mkReader (rd_buf s) (rd_pidSeen s) (rd_guest s) (Some code) (rd_out s) false
      | Some _ => mkReader (rd_buf s) (rd_pidSeen s) (rd_guest s) (rd_exit s) (rd_out s) true
      end
  | None => mkReader (rd_buf s) (rd_pidSeen s) (rd_guest s) (rd_exit s) (rd_out s ++ [out]) false
  end.

Definition take_batch (out : string) (s : Reader) : Reader :=
  if rd_pidSeen s then take_output out s
  else
    let s' := mkReader (rd_buf s) true (rd_guest s) (rd_exit s) (rd_out s) false in
    match parsePidFrame out with
    | Some pid => mkReader (rd_buf s) true (Some pid) (rd_exit s) (rd_out s) false
    | None => take_output out s'
    end.

(** One chunk received. *)
Definition recv (chunk : string) (s : Reader) : Reader :=
  if rd_stuck s then s
  else
    let '(out, buf) := push (rd_buf s) chunk in
    let s := mkReader buf (rd_pidSeen s) (rd_guest s) (rd_exit s) (rd_out s) false in
    if decide (out = "") then s else take_batch out s.

(** The stream ends, and the goroutine with it, unless it is stuck; then
    [runProcessStream] never returns. *)
Definition finish (s : Reader) : option (list string * Z) :=
  if rd_stuck s then None
  else
    let out := drain (rd_buf s) in
    Some (if decide (out = "") then rd_out s else rd_out s ++ [out], default (-1) (rd_exit s)).

Definition runProcessStream (chunks : list string) : option (list string * Z) :=
  finish (foldl (fun s chunk => recv chunk s) new_reader chunks).

(** Replaying the output of a process of another node: the payloads sent on. *)
Definition attached (raw : string) : list string :=
  let step (acc : bool * list string) (frame : string) :=
    let '(pidSeen, sent) := acc in
    let out := stripDataPrefix frame in
    if contains out (String quote ("done" +:+ String quote ":true")) then acc
    else if negb pidSeen && bool_decide (is_Some (parsePidFrame out)) then (true, sent)
    else (true, if decide (out = "") then sent else sent ++ [out]) in
  snd (foldl step (false, []) (splitSSEFrames raw)).
End reader.

Definition exitStatus (code : Z) : string := if (code =? 137) || (code =? -1) then "killed" else "exited".

(** ** Commands *)

(** [strings.HasSuffix(s, "bash")] *)
Definition ends_in_bash (s : string) : bool :=
  (4 <=? String.length s)%nat && bool_decide (String.substring (String.length s - 4) 4 s = "bash").

Definition extractShellCommand (cmd : string) (args : list string) : string :=
  if negb (ends_in_bash cmd) then ""
  else match args with
       | [a; b; c] => if bool_decide (a = "-l") && bool_decide (b = "-c") then c else ""
       | [a; b] => if bool_decide (a = "-c") then b else ""
       | _ => ""
       end.

(** ** The framer does not depend on the chunks *)

Lemma length_app_str (a b : string) : String.length (a +:+ b) = (String.length a + String.length b)%nat.
Proof. induction a as [|c a IH]; [done|]. rewrite append_cons. simpl. by rewrite IH. Qed.

Lemma strip_prefix_longer p s r b : strip_prefix p s = Some r -> strip_prefix p (s +:+ b) = Some (r +:+ b).
Proof. intros ->%strip_prefix_Some. by rewrite append_assoc, strip_prefix_app. Qed.

Lemma cut_frame_Some buf line rest : cut_frame buf = Some (line, rest) -> buf = line +:+ blank_line +:+ rest.
Proof.
  revert line. induction buf as [|c buf IH]; intros line H; [done|]. cbn [cut_frame] in H.
  destruct (strip_prefix blank_line (String c buf)) as [r|] eqn:E.
  - injection H as <- <-. by apply strip_prefix_Some in E.
  - destruct (cut_frame buf) as [[l r]|]; [|done]. injection H as <- <-.
    rewrite append_cons. f_equal. by apply IH.
Qed.

Lemma cut_frame_app a b line rest : cut_frame a = Some (line, rest) -> cut_frame (a +:+ b) = Some (line, rest +:+ b).
Proof.
  revert line. induction a as [|c a IH]; intros line H; [done|]. cbn [cut_frame] in H. rewrite append_cons. cbn [cut_frame].
  rewrite <-append_cons.
  destruct (strip_prefix blank_line (String c a)) as [r|] eqn:E.
  - injection H as <- <-. by rewrite (strip_prefix_longer _ _ _ b E).
  - destruct (cut_frame a) as [[l r]|] eqn:Ea; [|done]. injection H as <- <-. rewrite (IH l eq_refl).
    destruct (strip_prefix blank_line (String c a +:+ b)) as [r'|] eqn:E'; [|done]. exfalso.
    pose proof (cut_frame_Some _ _ _ Ea) as ->. apply strip_prefix_Some in E'. unfold blank_line in E, E'.
    rewrite !append_cons, append_nil_l in E'. injection E' as -> E'.
    destruct l as [|c2 l].
    + cbn [strip_prefix] in E. rewrite append_nil_l, append_cons in E. by rewrite !Ascii.eqb_refl in E.
    + rewrite append_cons in E, E'. rewrite append_cons in E'. injection E' as -> E'. cbn [strip_prefix] in E.
      by rewrite !Ascii.eqb_refl in E.
Qed.

Lemma cut_frame_shorter buf line rest : cut_frame buf = Some (line, rest) ->
  (String.length rest < String.length buf)%nat.
Proof. intros ->%cut_frame_Some. rewrite !length_app_str. simpl. lia. Qed.

Lemma frames_out_fuel n m buf : (String.length buf <= n)%nat -> (String.length buf <= m)%nat ->
  frames_out n buf = frames_out m buf.
Proof.
  revert m buf. induction n as [|n IH]; intros m buf Hn Hm.
  { destruct buf; [|simpl in Hn; lia]. by destruct m. }
  destruct m as [|m]; [destruct buf; [done|simpl in Hm; lia]|]. cbn [frames_out].
  destruct (cut_frame buf) as [[line rest]|] eqn:E; [|done].
  apply cut_frame_shorter in E. by rewrite (IH m rest) by lia.
Qed.

(** All complete frames of a buffer. *)
Definition frames (buf : string) : string * string := frames_out (String.length buf) buf.

Lemma frames_unfold buf : frames buf =
  match cut_frame buf with
  | None => ("", buf)
  | Some (line, rest) => (stripDataPrefix line +:+ fst (frames rest), snd (frames rest))
  end.
Proof.
  unfold frames at 1. destruct buf as [|c buf]; [done|]. cbn [String.length frames_out].
  destruct (cut_frame (String c buf)) as [[line rest]|] eqn:E; [|done].
  apply cut_frame_shorter in E. simpl in E. rewrite (frames_out_fuel _ (String.length rest) rest) by lia.
  fold (frames rest). by destruct (frames rest).
Qed.

Lemma frames_app a b : frames (a +:+ b) =
  (fst (frames a) +:+ fst (frames (snd (frames a) +:+ b)), snd (frames (snd (frames a) +:+ b))).
Proof.
  remember (String.length a) as n eqn:Hn. revert a Hn. induction (Nat.lt_wf_0 n) as [n _ IH]. intros a ->.
  rewrite (frames_unfold a). destruct (cut_frame a) as [[line rest]|] eqn:E.
  - rewrite frames_unfold, (cut_frame_app _ b _ _ E). cbn [fst snd].
    rewrite (IH (String.length rest) (cut_frame_shorter _ _ _ E) rest eq_refl). cbn [fst snd].
    by rewrite append_assoc.
  - cbn [fst snd]. rewrite append_nil_l. by destruct (frames (a +:+ b)).
Qed.

Definition join_all (l : list string) : string := foldr String.append "" l.

Lemma split_frames_join n body : (String.length body < n)%nat ->
  join_all (stripDataPrefix <$> split_frames n body) = fst (frames body) +:+ drain (snd (frames body)).
Proof.
  revert body. induction n as [|n IH]; intros body Hn; [lia|]. cbn [split_frames]. rewrite frames_unfold.
  destruct (cut_frame body) as [[line rest]|] eqn:E.
  - rewrite fmap_cons. cbn [join_all foldr fst snd]. fold (join_all (stripDataPrefix <$> split_frames n rest)).
    rewrite IH by (apply cut_frame_shorter in E; lia). by rewrite append_assoc.
  - cbn [fst snd]. rewrite append_nil_l. case_decide as Hb; [by rewrite Hb|]. simpl. by rewrite append_empty_r.
Qed.

(** What the framer has given, and its buffer, after some chunks. *)
Definition push_all (chunks : list string) (buf : string) : string * string :=
  foldl (fun s chunk => let '(out, buf) := push (snd s) chunk in (fst s +:+ out, buf)) ("", buf) chunks.

Lemma push_all_from chunks out buf :
  foldl (fun s chunk => let '(out, buf) := push (snd s) chunk in (fst s +:+ out, buf)) (out, buf) chunks =
  (out +:+ fst (push_all chunks buf), snd (push_all chunks buf)).
Proof.
  unfold push_all. revert out buf. induction chunks as [|c chunks IH]; intros out buf; simpl.
  { by rewrite append_empty_r. }
  destruct (push buf c) as [o b]. rewrite IH, (IH ("" +:+ o)). simpl. by rewrite append_nil_l, append_assoc.
Qed.

Lemma push_all_frames chunks buf : snd (frames buf) = buf ->
  fst (frames buf) = "" -> push_all chunks buf = frames (buf +:+ join_all chunks).
Proof.
  revert buf. induction chunks as [|c chunks IH]; intros buf Hb Ho.
  - simpl. rewrite append_empty_r. unfold push_all. simpl. rewrite (surjective_pairing (frames buf)). by rewrite Hb, Ho.
  - unfold push_all. cbn [foldl fst snd]. change (push buf c) with (frames (buf +:+ c)).
    destruct (frames (buf +:+ c)) as [o b] eqn:E. rewrite push_all_from, append_nil_l.
    assert (forall n a, (String.length a <= n)%nat -> fst (frames (snd (frames a))) = "" /\ snd (frames (snd (frames a))) = snd (frames a)) as Hidem.
    { induction n as [|n IHn]; intros a Ha; [destruct a; [done|simpl in Ha; lia]|].
      rewrite (frames_unfold a). destruct (cut_frame a) as [[line rest]|] eqn:Ea; cbn [snd].
      - apply IHn. apply cut_frame_shorter in Ea. lia.
      - rewrite frames_unfold. by rewrite Ea. }
    destruct (Hidem _ (buf +:+ c) (le_n _)) as [H1 H2]. rewrite E in H1, H2. simpl in H1, H2.
    rewrite IH by done. simpl. rewrite <-append_assoc, (frames_app (buf +:+ c)), E. done.
Qed.

(** C37. However the gateway cuts the stream into chunks, the framer gives, all
    in all, the payloads of the server-sent events of the whole stream. *)
Theorem framer_chunking chunks :
  fst (push_all chunks "") +:+ drain (snd (push_all chunks "")) =
  join_all (stripDataPrefix <$> splitSSEFrames (join_all chunks)).
Proof.
  unfold splitSSEFrames. rewrite split_frames_join by lia.
  by rewrite push_all_frames, append_nil_l.
Qed.

(** ** The exit code *)

(** What sandboxd writes for one payload. *)
Definition wire (s : string) : string := "data: " +:+ s +:+ blank_line.

Lemma cut_frame_line s r : no_char newline s = true -> cut_frame (s +:+ blank_line +:+ r) = Some (s, r).
Proof.
  induction s as [|c s IH]; intros Hs.
  - rewrite append_nil_l. unfold blank_line. rewrite !append_cons, append_nil_l. simpl. done.
  - cbn [no_char] in Hs. apply andb_true_iff in Hs as [Hc Hs]. apply negb_true_iff in Hc.
    rewrite append_cons. cbn [cut_frame]. rewrite (IH Hs).
    assert (strip_prefix blank_line (String c (s +:+ blank_line +:+ r)) = None) as ->; [|done].
    unfold blank_line at 1. cbn [strip_prefix]. destruct (Ascii.eqb_spec newline c) as [<-|Hne]; [|done].
    by rewrite Ascii.eqb_refl in Hc.
Qed.

Lemma frames_wire s r : no_char newline s = true ->
  frames (wire s +:+ r) = (s +:+ fst (frames r), snd (frames r)).
Proof.
  intros Hs. unfold wire. rewrite !append_assoc. rewrite frames_unfold.
  replace ("data: " +:+ s +:+ blank_line +:+ r) with (("data: " +:+ s) +:+ blank_line +:+ r) by (by rewrite append_assoc).
  rewrite cut_frame_line by exact Hs. unfold stripDataPrefix.
  replace (trim_prefix ("data: " +:+ s) "data:") with (" " +:+ s) by done. done.
Qed.

Lemma push_wire s : no_char newline s = true -> push "" (wire s) = (s, "").
Proof.
  intros Hs. change (push "" (wire s)) with (frames ("" +:+ wire s)). rewrite append_nil_l.
  pose proof (frames_wire s "" Hs) as H. rewrite !append_empty_r in H. by rewrite H.
Qed.

Section reading.
Context `{FJ : FrameJSON}.

(** A line of output: not empty, without line breaks, and not mistaken for an
    exit frame. *)
Definition plain_output (s : string) : Prop :=
  s <> "" /\ no_char newline s = true /\ parseExitFrame s = None.

Definition exit_frame (s : string) (code : Z) : Prop :=
  s <> "" /\ no_char newline s = true /\ parseExitFrame s = Some code /\ parsePidFrame s = None.

Lemma recv_wire s st : no_char newline s = true -> s <> "" -> rd_buf st = "" -> rd_stuck st = false ->
  recv (wire s) st = take_batch s (mkReader "" (rd_pidSeen st) (rd_guest st) (rd_exit st) (rd_out st) false).
Proof.
  intros Hs Hne Hb Hst. unfold recv. rewrite Hst, Hb, push_wire by done. by rewrite decide_False.
Qed.

Lemma recv_outputs outs st : Forall plain_output outs -> rd_pidSeen st = true -> rd_buf st = "" -> rd_stuck st = false ->
  foldl (fun s chunk => recv chunk s) st (wire <$> outs) =
  mkReader "" true (rd_guest st) (rd_exit st) (rd_out st ++ outs) false.
Proof.
  intros H. revert st. induction H as [|s outs (Hne & Hs & Hp) _ IH]; intros st Hseen Hb Hst.
  { destruct st; simpl in *. subst. by rewrite app_nil_r. }
  rewrite fmap_cons. cbn [foldl]. rewrite recv_wire by done. unfold take_batch, take_output. cbn [rd_pidSeen rd_exit].
  rewrite Hseen, Hp. rewrite IH by done. cbn [rd_guest rd_exit rd_out]. by rewrite <-app_assoc.
Qed.

(** When each frame comes in a chunk of its own, the process's output is
    broadcast frame by frame, and the exit code is the one sandboxd reports. *)
Theorem stream_reports_exit (pid outs : list string) (last : string) code :
  Forall (fun s => s <> "" /\ no_char newline s = true /\ is_Some (parsePidFrame s)) pid -> length pid = 1%nat ->
  Forall plain_output outs -> exit_frame last code ->
  runProcessStream (wire <$> pid ++ outs ++ [last]) = Some (outs, code).
Proof.
  intros Hpid Hlen Houts (Hne & Hs & He & _). destruct pid as [|p [|? ?]]; [done| |done]. clear Hlen.
  inversion Hpid as [|? ? (Hpne & Hps & [g Hg]) _]; subst. unfold runProcessStream.
  rewrite !fmap_app, !foldl_app. cbn [fmap list_fmap foldl].
  rewrite (recv_wire p) by done. unfold take_batch at 1. cbn [rd_pidSeen new_reader]. rewrite Hg.
  rewrite recv_outputs by done. rewrite recv_wire by done. unfold take_batch, take_output.
  cbn [rd_pidSeen rd_exit rd_guest rd_out app new_reader]. rewrite He. done.
Qed.

(** The exit frame counts only when it is alone in its chunk: behind a line
    of output in the same chunk it is broadcast as output, and the process is
    reported as killed. *)
Theorem merged_exit_lost text last code :
  plain_output text -> parsePidFrame text = None -> exit_frame last code ->
  parseExitFrame (text +:+ last) = None -> parsePidFrame (text +:+ last) = None ->
  runProcessStream [wire text; wire last] = Some ([text], code) /\
  runProcessStream [wire text +:+ wire last] = Some ([text +:+ last], -1).
Proof.
  intros (Hne & Hs & Ht) Htp (Hlne & Hls & Hl & _) Hm Hmp. unfold runProcessStream. cbn [foldl]. split.
  - rewrite (recv_wire text) by done. unfold take_batch at 1. cbn [rd_pidSeen new_reader]. rewrite Htp.
    unfold take_output at 1. rewrite Ht. rewrite (recv_wire last) by done. unfold take_batch, take_output.
    cbn [rd_pidSeen rd_exit rd_guest rd_out app new_reader]. by rewrite Hl.
  - unfold recv. cbn [rd_stuck rd_buf new_reader].
    assert (push "" (wire text +:+ wire last) = (text +:+ last, "")) as ->.
    { change (push "" (wire text +:+ wire last)) with (frames ("" +:+ (wire text +:+ wire last))).
      rewrite append_nil_l, frames_wire by done. rewrite <-(append_empty_r (wire last)), frames_wire by done.
      cbn [fst snd]. by rewrite append_empty_r. }
    rewrite decide_False by (destruct text; [done|by rewrite append_cons]).
    unfold take_batch, take_output. cbn [rd_pidSeen rd_exit rd_guest rd_out new_reader]. by rewrite Hmp, Hm.
Qed.

Lemma stuck_stays chunks st : rd_stuck st = true -> foldl (fun s chunk => recv chunk s) st chunks = st.
Proof.
  revert st. induction chunks as [|c chunks IH]; intros st H; [done|]. simpl.
  assert (recv c st = st) as -> by (unfold recv; by rewrite H). by apply IH.
Qed.

(** A process that itself prints what looks like an exit frame hangs the
    stream: with the exit code already in the channel the second such frame
    blocks the reader, and the handler waits for the reader for ever. *)
Theorem second_exit_hangs first second c1 c2 rest :
  exit_frame first c1 -> exit_frame second c2 ->
  runProcessStream (wire first :: wire second :: rest) = None.
Proof.
  intros (H1 & N1 & E1 & P1) (H2 & N2 & E2 & _). unfold runProcessStream. cbn [foldl].
  rewrite (recv_wire first) by done. unfold take_batch at 1. cbn [rd_pidSeen new_reader]. rewrite P1.
  unfold take_output. rewrite E1. cbn [rd_exit]. rewrite recv_wire by done.
  unfold take_batch, take_output. cbn [rd_pidSeen rd_exit]. rewrite E2. by rewrite stuck_stays.
Qed.
End reading.

(** ** Witnesses *)

(** Members read off texts of the form [{"name":digits}]. *)
Definition member_of (name : string) (s : string) : option Z :=
  match strip_prefix (member_prefix name) s with
  | Some r => ParseInt (String.substring 0 (String.length r - 1) r)
  | None => None
  end.
#[local] Instance sample_frames : FrameJSON := mkFrameJSON (member_of "exit") (member_of "pid").

Definition sample_exit (digits : string) : string := member_prefix "exit" +:+ digits +:+ "}".
Definition sample_pid : string := member_prefix "pid" +:+ "77" +:+ "}".

Lemma sample_exit_frame d z : member_of "exit" (TrimSpace (sample_exit d)) = Some z ->
  parseExitFrame (sample_exit d) = Some z -> parsePidFrame (sample_exit d) = None ->
  no_char newline (sample_exit d) = true -> exit_frame (sample_exit d) z.
Proof. intros _ H1 H2 H3. split; [done|]. split; [done|]. by split. Qed.

Lemma stream_reports_exit_witness :
  runProcessStream [wire sample_pid; wire "a"; wire "b"; wire (sample_exit "3")] = Some (["a"; "b"], 3).
Proof.
  refine (stream_reports_exit [sample_pid] ["a"; "b"] (sample_exit "3") 3 _ eq_refl _ _).
  - apply Forall_singleton. split; [done|]. split; [by vm_compute|]. by exists 77; vm_compute.
  - do 2 (apply Forall_cons; split; [by split; [|split; vm_compute]|]). by apply Forall_nil.
  - by apply sample_exit_frame; vm_compute.
Defined.

Lemma merged_exit_lost_witness :
  runProcessStream [wire "ok"; wire (sample_exit "0")] = Some (["ok"], 0) /\
  runProcessStream [wire "ok" +:+ wire (sample_exit "0")] = Some (["ok" +:+ sample_exit "0"], -1).
Proof.
  refine (merged_exit_lost "ok" (sample_exit "0") 0 _ _ _ _ _); [|by vm_compute| |by vm_compute..].
  - by split; [|split; vm_compute].
  - by apply sample_exit_frame; vm_compute.
Defined.

Lemma second_exit_hangs_witness :
  runProcessStream [wire (sample_exit "1"); wire (sample_exit "0")] = None.
Proof.
  refine (second_exit_hangs (sample_exit "1") (sample_exit "0") 1 0 [] _ _); by apply sample_exit_frame; vm_compute.
Defined.
