(* ===== verification/Isolation.v ===== *)
(** * Session operations keep to their session

    Destroying, pausing and resuming a session writes no other session object,
    whatever the API server refuses, and never brings a session into being.
    The E2B scanner and handlers, which call these for one sandbox after the
    other, rely on it. *)
From Stdlib Require Import ZArith Lia.
From S2P Require Import Prelude Prog Kube Lens SessionEnv Orchestrator Gateway Rules Lifecycle E2bState E2bLaws.

(** The effect may write session [id], and nothing else among the sessions. *)
Definition keeps_to {M X} (ns id : string) (e : gwE M X) : Prop :=
  match e with
  | Create k _ => k <> KSession
  | Update k o | UpdateStatus k o => k = KSession -> key_of o = (ns, id)
  | Delete k n name => k = KSession -> (n, name) = (ns, id)
  | _ => True
  end.

Definition ok_for {M} (ws : list kind) (ns id : string) X (e : gwE M X) : Prop :=
  (forall k, writes k e = true -> k ∈ ws) /\ keeps_to ns id e.

(** Sessions never come into being. *)
Definition nothing_new {M} (v v' : M * Cluster) : Prop :=
  forall i, store KSession (snd v) !! i = None -> store KSession (snd v') !! i = None.

Definition stays {M} (ws : list kind) (ns id : string) (v v' : M * Cluster) : Prop :=
  spares ws ns id v v' /\ nothing_new v v'.

Lemma stays_refl {M} ws ns id (v : M * Cluster) : stays ws ns id v v.
Proof. split; [apply spares_refl|]. by intros i. Qed.

Lemma stays_trans {M} ws ns id (v1 v2 v3 : M * Cluster) :
  stays ws ns id v1 v2 -> stays ws ns id v2 v3 -> stays ws ns id v1 v3.
Proof.
  intros [S1 N1] [S2 N2]. split; [by eapply spares_trans|]. intros i Hi. auto.
Qed.

Lemma stays_mono {M} ws ws' ns id (v v' : M * Cluster) : ws ⊆ ws' -> stays ws ns id v v' -> stays ws' ns id v v'.
Proof. intros Hw [S N]. split; [by eapply spares_mono|done]. Qed.

Lemma stays_wf {M} ws ns id (v v' : M * Cluster) : stays ws ns id v v' -> wf (snd v) -> wf (snd v').
Proof. intros [[[_ W] _] _]. exact W. Qed.

(** An object of kind session put under the key of the session. *)
Lemma stays_put {M} ws ns id (v v' : M * Cluster) (o : SandboxSession) :
  unchanged ws v v' -> is_Some (store KSession (snd v) !! (ns, id)) ->
  key_of (k := KSession) o = (ns, id) -> snd v' = Kube.put (k := KSession) o (snd v) ->
  stays ws ns id v v'.
Proof.
  intros U [o0 Hold] Ho E.
  assert (store KSession (snd v') = <[(ns, id) := o]> (store KSession (snd v))) as Es
    by (by rewrite E, store_put, Ho).
  split; [split; [done|]|].
  - intros j Hj. change (store KSession (snd v') !! (ns, j) = store KSession (snd v) !! (ns, j)).
    by rewrite Es, lookup_insert_ne by congruence.
  - intros i Hn. rewrite Es, lookup_insert_ne; [done|]. intros <-.
    pose proof (eq_trans (eq_sym Hn) Hold) as H. discriminate H.
Qed.

Lemma stays_step {M} faults ws ns id X (e : gwE M X) v x v' :
  ok_for ws ns id X e -> kube_contract M faults X e v x v' -> wf (snd v) -> stays ws ns id v v'.
Proof.
  intros [Hw Hk] HC Hwf. pose proof (unchanged_step faults ws X e v x v' Hw HC) as U.
  assert (writes KSession e = false -> stays ws ns id v v') as Hother.
  { intros Hs. pose proof (frame_step faults KSession X e v x v' Hs HC) as E.
    split; [split; [done|]|].
    - intros j _. change (store KSession (snd v') !! (ns, j) = store KSession (snd v) !! (ns, j)). by rewrite E.
    - intros i Hi. by rewrite E. }
  destruct e as [|k ns' name|k ns' sel|k o|k o|k o|k ns' name|ip r|ip|d|Y f]; try (by apply Hother).
  - apply Hother. by apply bool_decide_eq_false_2, not_eq_sym.
  - destruct (decide (k = KSession)) as [->|Hne]; [|apply Hother; by apply bool_decide_eq_false_2, not_eq_sym].
    destruct HC as [Hm HC]. destruct x as [o'|e]; [|destruct HC as [-> _]; apply stays_refl].
    destruct HC as (cur & rv & Hcur & _ & Hlt & Ho & Hc). rewrite (Hk eq_refl) in Hcur.
    apply (stays_put _ _ _ _ _ o'); [done|by eexists| |done].
    subst o'. rewrite key_of_stamp, meta_status_from. exact (Hk eq_refl).
  - destruct (decide (k = KSession)) as [->|Hne]; [|apply Hother; by apply bool_decide_eq_false_2, not_eq_sym].
    destruct HC as [Hm HC]. destruct x as [o'|e]; [|destruct HC as [-> _]; apply stays_refl].
    destruct HC as (cur & rv & Hcur & _ & Hlt & Ho & Hc). rewrite (Hk eq_refl) in Hcur.
    destruct (Hwf KSession _ _ Hcur) as [Hkc _].
    apply (stays_put _ _ _ _ _ o'); [done|by eexists| |done].
    subst o'. rewrite key_of_stamp, meta_status_from. specialize (Hk eq_refl).
    unfold key_of in *. congruence.
  - destruct (decide (k = KSession)) as [->|Hne]; [|apply Hother; by apply bool_decide_eq_false_2, not_eq_sym].
    destruct HC as [Hm HC]. destruct x as [u|e]; [|destruct HC as [-> _]; apply stays_refl].
    destruct HC as [_ Hc]. specialize (Hk eq_refl).
    assert (store KSession (snd v') = delete (ns, id) (store KSession (snd v))) as Es
      by (by rewrite Hc, store_remove, Hk).
    split; [split; [done|]|].
    + intros j Hj. change (store KSession (snd v') !! (ns, j) = store KSession (snd v) !! (ns, j)).
      by rewrite Es, lookup_delete_ne by congruence.
    + intros i Hn. rewrite Es. apply lookup_delete_None. by right.
Qed.

(** A subprogram all of whose effects keep to the session. *)
Lemma wp_stays_bind {M A B} faults pan ws ns id (p : prog (gwE M) A) (f : A -> prog (gwE M) B) Q v :
  only pan (ok_for ws ns id) p -> wf (snd v) ->
  (pan = true -> forall v', stays ws ns id v v' -> Q Panicked v') ->
  (forall a v', stays ws ns id v v' -> wp (kube_contract M faults) (f a) Q v') ->
  wp (kube_contract M faults) (bind p f) Q v.
Proof.
  intros Hp Hwf HP HQ.
  eapply (wp_only_bind pan _ _ (fun v v' => wf (snd v) -> stays ws ns id v v')); [| | |exact Hp| |].
  - intros v1 v2 v3 H1 H2 W. specialize (H1 W). eapply stays_trans; [exact H1|].
    apply H2. by eapply stays_wf.
  - intros v0 _. apply stays_refl.
  - intros X e v0 x v1 He HC. by apply (stays_step faults ws ns id X e v0 x v1).
  - intros Hpan v' H. by apply HP, H.
  - intros a v' H. by apply HQ, H.
Qed.

Lemma only_stays {M A} faults ws ns id (p : prog (gwE M) A) v :
  only false (ok_for ws ns id) p -> wf (snd v) ->
  wp (kube_contract M faults) p (fun o v' => (exists a, o = Done a) /\ stays ws ns id v v') v.
Proof.
  intros Hp Hwf. eapply wp_mono; [|eapply (only_wp false _ _ (fun v v' => wf (snd v) -> stays ws ns id v v'));
    [| | |exact Hp]].
  - intros o v' [Ho H]. split; [|by apply H]. destruct o as [a|]; [by eexists|by discriminate (Ho eq_refl)].
  - intros v1 v2 v3 H1 H2 W. specialize (H1 W). eapply stays_trans; [exact H1|].
    apply H2. by eapply stays_wf.
  - intros v0 _. apply stays_refl.
  - intros X e v0 x v1 He HC. by apply (stays_step faults ws ns id X e v0 x v1).
Qed.

(** What writes no session keeps to any. *)
Lemma touches_keeps {M A} pan ws ns id (p : prog (gwE M) A) :
  touches pan ws p -> KSession ∉ ws -> only pan (ok_for ws ns id) p.
Proof.
  intros Hp Hs. eapply only_mono; [|exact Hp]. intros X e He. split; [exact He|].
  destruct e; simpl in *; try done; try (intros ->); try (destruct Hs; apply He; by apply bool_decide_eq_true).
Qed.

(** ** The operations *)

Section operations.
Context (faults : bool) (id : string).

Definition session_kinds : list kind := [KPod; KPvc; KSession; KCnp].

(** [p] returns, and keeps to session [id]. *)
Definition kept {A} (p : orchP A) : Prop := forall v, wf (snd v) ->
  wp (kube_contract Orch faults) p
    (fun o v' => (exists a, o = Done a) /\ stays session_kinds sandboxNS id v v') v.

Lemma kept_ret {A} (a : A) : kept (Ret a).
Proof. intros v _. split; [by eexists|apply stays_refl]. Qed.

Lemma kept_bind {A B} (p : orchP A) (f : A -> orchP B) :
  kept p -> (forall a, kept (f a)) -> kept (bind p f).
Proof.
  intros Hp Hf v Hwf. apply wp_bind. eapply wp_mono; [|by apply Hp].
  intros o v' [[a ->] S]. eapply wp_mono; [|apply Hf; by eapply stays_wf].
  intros o' v'' [Ho S']. split; [done|]. by eapply stays_trans.
Qed.

Lemma kept_only {A} (p : orchP A) : only false (ok_for session_kinds sandboxNS id) p -> kept p.
Proof. intros Hp v Hwf. by apply only_stays. Qed.

Lemma kept_touches {A} ws (p : orchP A) :
  touches false ws p -> KSession ∉ ws -> ws ⊆ session_kinds -> kept p.
Proof.
  intros Hp Hs Hw v Hwf. eapply wp_mono; [|eapply only_stays; [by eapply touches_keeps|done]].
  intros o v' [Ho S]. split; [done|]. by eapply stays_mono.
Qed.

(** The session that was read sits under its own key. *)
Lemma kept_session {B} (f : res SandboxSession -> orchP B) :
  (forall s, key_of (k := KSession) s = (sandboxNS, id) -> kept (f (Ok s))) ->
  (forall e, kept (f (Err e))) -> kept (bind (getSession id) f).
Proof.
  intros HS HE v Hwf r v' [-> Hr]. destruct r as [s|e]; [|by apply HE].
  apply HS; [|done]. by destruct (Hwf KSession _ _ Hr).
Qed.

Lemma kept_status s : key_of (k := KSession) s = (sandboxNS, id) -> kept (updateSessionStatus s).
Proof.
  intros Hk. apply kept_only. split; [|by intros x]. split; [|by intros _].
  intros k ->%bool_decide_eq_true. set_solver.
Qed.

Lemma kept_update s : key_of (k := KSession) s = (sandboxNS, id) -> kept (updateSession s).
Proof.
  intros Hk. apply kept_only. split; [|by intros x]. split; [|by intros _].
  intros k ->%bool_decide_eq_true. set_solver.
Qed.

Lemma kept_delete : kept (call (Delete KSession sandboxNS id)).
Proof.
  apply kept_only. split; [|by intros x]. split; [|by intros _].
  intros k ->%bool_decide_eq_true. set_solver.
Qed.

Lemma kept_markDestroyStep step : kept (markDestroyStep id step).
Proof.
  apply kept_session; [|intros e; apply kept_ret]. intros s Hk. cbv zeta.
  case_match; [apply kept_ret|]. by apply kept_update.
Qed.

Lemma kept_DestroySession : kept (DestroySession id).
Proof.
  apply kept_session; [|intros e; apply kept_ret]. intros s Hk. cbv zeta.
  apply kept_bind; [by apply kept_status|intros _].
  apply kept_bind.
  { case_decide; [apply kept_ret|]. apply kept_bind; [|intros _; apply kept_markDestroyStep].
    eapply kept_touches; [apply deleteCNP_touches|set_solver|set_solver]. }
  intros _. apply kept_bind.
  { eapply kept_touches; [apply findPodWithFallback_touches|set_solver|set_solver]. }
  intros [podIP podName]. apply kept_bind; [|intros _; apply kept_delete].
  case_decide; [|apply kept_ret]. apply kept_bind.
  { apply (kept_touches []); [unfold resetWorkspace; frame_auto|set_solver|set_solver]. }
  intros _. apply kept_bind; [apply kept_markDestroyStep|intros _].
  case_decide; [|apply kept_ret]. apply kept_bind; [|intros _; apply kept_markDestroyStep].
  apply (kept_touches [KPod]); [unfold releasePod; frame_auto|set_solver|set_solver].
Qed.

Lemma kept_PauseSession : kept (PauseSession id).
Proof.
  apply kept_session; [|intros e; apply kept_ret]. intros s Hk. cbv zeta.
  case_decide; [apply kept_ret|]. case_decide; [apply kept_ret|]. apply kept_bind.
  { case_decide; [|apply kept_ret]. eapply kept_touches; [apply ensurePVC_touches|set_solver|set_solver]. }
  intros [pvcName|e]; [|apply kept_ret]. apply kept_bind.
  { eapply kept_touches; [apply findPodWithFallback_touches|set_solver|set_solver]. }
  intros pod. apply kept_bind.
  { apply (kept_touches [KPod]); [unfold deletePodForPause; frame_auto|set_solver|set_solver]. }
  intros [u|e]; [|apply kept_ret]. apply kept_bind; [by apply kept_status|intros _].
  apply kept_bind; [|intros _; apply kept_ret].
  eapply kept_touches; [apply deleteCNP_touches|set_solver|set_solver].
Qed.
End operations.

(** ** The same through the gateway *)

Section gateway.
Context (faults : bool) (id : string).

Lemma stays_part {M N} `{Lens M N} ws ns (n : N) (c : Cluster) (v' : M * Cluster) :
  stays ws ns id (part n, c) v' -> stays ws ns id (n, c) (with_part (fst v') n, snd v').
Proof. intros [[U S] E]. by split. Qed.

Lemma DestroySessionRPC_stays v : wf (snd v) ->
  wp (kube_contract Gw faults) (DestroySessionRPC id)
    (fun o v' => (exists r, o = Done r) /\ stays session_kinds sandboxNS id v v') v.
Proof.
  destruct v as [g c]. intros Hwf. apply wp_bind. apply wp_zoom.
  eapply wp_mono; [|by apply kept_DestroySession]. intros o v' [[a ->] S].
  split; [by eexists|]. by apply (stays_part (M := Orch) (N := Gw)).
Qed.

Lemma PauseSessionRPC_stays v : wf (snd v) ->
  wp (kube_contract Gw faults) (PauseSessionRPC id)
    (fun o v' => (exists r, o = Done r) /\ stays session_kinds sandboxNS id v v') v.
Proof.
  destruct v as [g c]. intros Hwf. unfold PauseSessionRPC. case_decide.
  - split; [by eexists|apply stays_refl].
  - apply wp_zoom. eapply wp_mono; [|by apply kept_PauseSession]. intros o v' [[a ->] S].
    split; [by eexists|]. by apply (stays_part (M := Orch) (N := Gw)).
Qed.
End gateway.

(** Destroying or pausing a session returns, writes no other session, and
    creates none, whatever the API server refuses. *)
Theorem sessions_isolated (faults : bool) (id other : string) (v : Gw * Cluster) (pause : bool) :
  wf (snd v) -> other <> id ->
  wp (kube_contract Gw faults) (if pause then PauseSessionRPC id else DestroySessionRPC id)
    (fun o v' => (exists r, o = Done r) /\
       cl_sessions (snd v') !! (sandboxNS, other) = cl_sessions (snd v) !! (sandboxNS, other) /\
       (cl_sessions (snd v) !! (sandboxNS, id) = None -> cl_sessions (snd v') !! (sandboxNS, id) = None)) v.
Proof.
  intros Hwf Hne.
  assert (forall o v', (exists r : res unit, o = Done r) /\ stays session_kinds sandboxNS id v v' ->
    (exists r, o = Done r) /\
    cl_sessions (snd v') !! (sandboxNS, other) = cl_sessions (snd v) !! (sandboxNS, other) /\
    (cl_sessions (snd v) !! (sandboxNS, id) = None -> cl_sessions (snd v') !! (sandboxNS, id) = None)) as H.
  { intros o v' (Ho & [_ S] & N). split; [done|]. split; [exact (S other Hne)|exact (N (sandboxNS, id))]. }
  destruct pause; (eapply wp_mono; [exact H|]); [by apply PauseSessionRPC_stays|by apply DestroySessionRPC_stays].
Qed.
