(* ===== verification/E2bReaper.v ===== *)
(** * The deadline scanner of the E2B server

    Theorems about [E2bControl.gcExpired], proved against the interface of the
    bookkeeping ([E2bLaws.StoreLaws]): which sandboxes a sweep may touch, that
    it ends those whose deadline has passed, and what becomes of a sandbox
    that it pauses. *)
From Stdlib Require Import ZArith Lia.
From S2P Require Import Prelude Prog Kube Lens SessionEnv GoTime Sha256 Orchestrator Gateway Rules Lifecycle Connect E2bState E2bLaws E2bControl Isolation.

#[local] Open Scope Z_scope.

(** ** The clock *)

Lemma clock_step {M} faults X (e : gwE M X) v x v' :
  kube_contract M faults X e v x v' -> cl_clock (snd v) <= cl_clock (snd v').
Proof.
  intros HC. destruct v as [m c], v' as [m' c'].
  assert (forall k (o : obj k), cl_clock (Kube.put o c) = cl_clock c) as Hp by (by intros []).
  assert (forall k i, cl_clock (remove k i c) = cl_clock c) as Hr by (by intros []).
  destruct e; simpl in *; try (by destruct HC as [[= -> ->] _]).
  - by destruct HC as [? [= -> ->]].
  - destruct HC as [_ HC]. destruct x; [|by destruct HC as [[= -> ->] _]].
    destruct HC as (? & ? & _ & _ & _ & _ & ->). by rewrite Hp.
  - destruct HC as [_ HC]. destruct x; [|by destruct HC as [[= -> ->] _]].
    destruct HC as (? & ? & _ & _ & _ & _ & ->). by rewrite Hp.
  - destruct HC as [_ HC]. destruct x; [|by destruct HC as [[= -> ->] _]].
    destruct HC as (? & ? & _ & _ & _ & _ & ->). by rewrite Hp.
  - destruct HC as [_ HC]. destruct x; [|by destruct HC as [[= -> ->] _]].
    destruct HC as (_ & ->). by rewrite Hr.
  - by injection HC as -> ->.
  - by injection HC as -> ->.
  - by destruct HC as (t & ? & _ & [= -> ->]).
  - by destruct HC as [_ [= -> ->]].
Qed.

Lemma wp_clock {M A} faults (p : prog (gwE M) A) v :
  wp (kube_contract M faults) p (fun _ v' => cl_clock (snd v) <= cl_clock (snd v')) v.
Proof.
  revert v. induction p as [a|X e k IH|m]; intros v; simpl; [lia| |lia].
  intros x v' HC. eapply wp_mono; [|apply IH]. intros o v'' Hc. pose proof (clock_step _ _ _ _ _ _ HC).
  cbn beta in Hc. lia.
Qed.

(** Every program of the server keeps the cluster well formed. *)
Lemma wp_wf {M A} faults (p : prog (gwE M) A) v :
  wf (snd v) -> wp (kube_contract M faults) p (fun _ v' => wf (snd v')) v.
Proof.
  revert v. induction p as [a|X e k IH|m]; intros v Hwf; simpl; [done| |done].
  intros x v' HC. apply IH. by eapply wf_step.
Qed.

(** ** A sweep *)

Section reaper.
Context `{QP : QuantityParser} {R : Type} `{ST : StateStore R} (faults : bool).
Context {SL : StoreLaws faults sandboxNS R}.
#[local] Notation C := (kube_contract (E2B R) faults).
Implicit Types v : E2B R * Cluster.

(** The entry and the session of a sandbox. *)
Definition ent v (id : string) : option registryEntry := entry_of (faults := faults) (x_reg (fst v), snd v) id.
Definition sess v (id : string) : option SandboxSession := session_at sandboxNS id (snd v).

(** The sandbox has a deadline, and it has passed. *)
Definition due v (id : string) (now : Z) : Prop :=
  exists e d, ent v id = Some e /\ re_deadlineAt e = Some d /\ d <= now.

Definition same_at v v' (id : string) : Prop := sess v' id = sess v id /\ ent v' id = ent v id.

(** A step that concerns sandbox [id] only, and does not bring it to life. *)
Definition about v v' (id : string) : Prop :=
  (wf (snd v) -> wf (snd v')) /\ (sess v id = None -> sess v' id = None) /\
  forall j, j <> id -> same_at v v' j.

Lemma about_refl v id : about v v id.
Proof. by split; [|split]. Qed.

Lemma about_trans v1 v2 v3 id : about v1 v2 id -> about v2 v3 id -> about v1 v3 id.
Proof.
  intros (W1 & N1 & S1) (W2 & N2 & S2). split; [auto|]. split; [auto|].
  intros j Hj. destruct (S1 j Hj) as [E1 F1], (S2 j Hj) as [E2 F2]. split; congruence.
Qed.

(** The bookkeeping in front of a continuation. *)
Lemma wp_store {A B} (p : prog (gwE R) A) (f : A -> prog (gwE (E2B R)) B) Q x c P :
  wp (kube_contract R faults) p P (x_reg x, c) ->
  (forall o r c', P o (r, c') -> match o with
     | Done a => wp C (f a) Q (with_reg r x, c') | Panicked => Q Panicked (with_reg r x, c') end) ->
  wp C (bind (registry p) f) Q (x, c).
Proof.
  intros Hp HQ. apply wp_bind, wp_zoom. eapply wp_mono; [|exact Hp].
  intros o [r c'] HP. specialize (HQ o r c' HP). by destruct o.
Qed.

Lemma wp_gateway {A B} (p : gwP A) (f : A -> prog (gwE (E2B R)) B) Q x c P :
  wp (kube_contract Gw faults) p P (x_gw x, c) ->
  (forall o g c', P o (g, c') -> match o with
     | Done a => wp C (f a) Q (with_gw g x, c') | Panicked => Q Panicked (with_gw g x, c') end) ->
  wp C (bind (gw p) f) Q (x, c).
Proof.
  intros Hp HQ. apply wp_bind, wp_zoom. eapply wp_mono; [|exact Hp].
  intros o [g c'] HP. specialize (HQ o g c' HP). by destruct o.
Qed.

Lemma wp_store_get {B} id (f : option registryEntry -> prog (gwE (E2B R)) B) Q v :
  wf (snd v) -> wp C (f (ent v id)) Q v -> (faults = true -> wp C (f None) Q v) ->
  wp C (bind (registry (get id)) f) Q v.
Proof.
  destruct v as [x c]. intros Hwf H1 H2. eapply wp_store; [by apply get_law|].
  intros o r c' [[= -> ->] [-> |[Hf ->]]]; rewrite with_own_reg; [exact H1|exact (H2 Hf)].
Qed.

(** A gateway call that keeps to a session is about its sandbox. *)
Lemma about_gateway x c g c' id :
  wf c -> stays session_kinds sandboxNS id (x_gw x, c) (g, c') -> about (x, c) (with_gw g x, c') id.
Proof.
  intros Hwf S. split; [intros _; exact (stays_wf _ _ _ _ _ S Hwf)|]. destruct S as [[U S] N].
  split; [exact (N (sandboxNS, id))|].
  intros j Hj. split; [exact (S j Hj)|]. apply entry_frame; [done|exact (S j Hj)].
Qed.

(** A write of the bookkeeping is about its sandbox. *)
Lemma about_store x c r c' id :
  spares [KSession] sandboxNS id (x_reg x, c) (r, c') ->
  same_session (session_at sandboxNS id c) (session_at sandboxNS id c') ->
  (forall j, j <> id -> entry_of (faults := faults) (r, c') j = entry_of (faults := faults) (x_reg x, c) j) ->
  about (x, c) (with_reg r x, c') id.
Proof.
  intros [U S] Hs He. split; [apply U|]. split.
  - unfold sess. simpl. intros Hn. rewrite Hn in Hs. by destruct (session_at sandboxNS id c').
  - intros j Hj. split; [exact (S j Hj)|]. exact (He j Hj).
Qed.

Lemma about_del id v : wf (snd v) ->
  wp C (registry (del id)) (fun o v' => o = Done tt /\ about v v' id) v.
Proof.
  destruct v as [x c]. intros Hwf. apply wp_zoom. eapply wp_mono; [|by apply del_law].
  intros o [r c'] (-> & H1 & H2 & H3 & _). split; [done|]. by apply about_store.
Qed.

Lemma about_paused id b v : wf (snd v) ->
  wp C (registry (markPaused id b)) (fun o v' => o = Done tt /\ about v v' id) v.
Proof.
  destruct v as [x c]. intros Hwf. apply wp_zoom. eapply wp_mono; [|by apply paused_law].
  intros o [r c'] (-> & H1 & H2 & H3 & _). split; [done|]. by apply about_store.
Qed.

Lemma about_Destroy id v : wf (snd v) ->
  wp C (gw (DestroySessionRPC id)) (fun o v' => (exists r, o = Done r) /\ about v v' id) v.
Proof.
  destruct v as [x c]. intros Hwf. apply wp_zoom. eapply wp_mono; [|by apply DestroySessionRPC_stays].
  intros o [g c'] ([r ->] & S). split; [by eexists|]. by apply about_gateway.
Qed.

Lemma about_Pause id v : wf (snd v) ->
  wp C (gw (PauseSessionRPC id)) (fun o v' => (exists r, o = Done r) /\ about v v' id) v.
Proof.
  destruct v as [x c]. intros Hwf. apply wp_zoom. eapply wp_mono; [|by apply PauseSessionRPC_stays].
  intros o [g c'] ([r ->] & S). split; [by eexists|]. by apply about_gateway.
Qed.

(** [PauseSession] refuses the session: it is not active, or has no place to
    keep its workspace. *)
Definition refuses_pause (s : SandboxSession) : Prop :=
  Phase (s_status s) <> SandboxPhaseActive \/ TenantID (s_spec s) = "" /\ WorkspacePVC (s_status s) = "".

Lemma pause_refused_orch id (u : Orch * Cluster) :
  (forall s, session_at sandboxNS id (snd u) = Some s -> refuses_pause s) ->
  wp (kube_contract Orch faults) (PauseSession id) (fun o u' => (exists e, o = Done (Err e)) /\ u' = u) u.
Proof.
  intros Hu r u1 [-> Hr]. destruct r as [s|e]; [|by split; [eexists|]].
  specialize (Hu s Hr). unfold refuses_pause in Hu. apply wp_ret_bind. cbv zeta.
  case_decide; [by split; [eexists|]|]. rewrite decide_True by tauto. by split; [eexists|].
Qed.

Lemma pause_refused id v :
  (forall s, sess v id = Some s -> refuses_pause s) ->
  wp C (gw (PauseSessionRPC id)) (fun o v' => (exists e, o = Done (Err e)) /\ v' = v) v.
Proof.
  destruct v as [x c]. intros Hu. apply wp_zoom. unfold PauseSessionRPC.
  case_decide; [split; [by eexists|]; cbn; by rewrite with_own_gw|].
  apply wp_zoom. eapply wp_mono; [|by apply pause_refused_orch].
  intros o u [Ho ->]. split; [done|]. cbn [fst snd]. by rewrite with_part_part; cbn; rewrite with_own_gw.
Qed.

(** In sequence. *)
Lemma about_bind {A B} (p : prog (gwE (E2B R)) A) (f : A -> prog (gwE (E2B R)) B) id v Q :
  wf (snd v) ->
  wp C p (fun o v' => (exists r, o = Done r) /\ about v v' id) v ->
  (forall a v', wf (snd v') -> about v v' id -> wp C (f a) Q v') -> wp C (bind p f) Q v.
Proof.
  intros Hwf Hp HQ. apply wp_bind. eapply wp_mono; [|exact Hp]. intros o v' [[r ->] Ha].
  apply HQ; [by apply Ha|done].
Qed.

Lemma about_weaken (p : prog (gwE (E2B R)) unit) id v v0 :
  about v0 v id ->
  wp C p (fun o v' => o = Done tt /\ about v v' id) v -> wp C p (fun o v' => o = Done tt /\ about v0 v' id) v.
Proof. intros H0. apply wp_mono. intros o v' [-> H1]. split; [done|]. by eapply about_trans. Qed.

(** The destruction of a sandbox in [gcOne]. *)
Definition reap (id : string) : prog (gwE (E2B R)) unit :=
  do r <- gw (DestroySessionRPC id);
  match r with Ok _ => registry (del id) | Err _ => Ret tt end.

Lemma reap_about id v : wf (snd v) -> wp C (reap id) (fun o v' => o = Done tt /\ about v v' id) v.
Proof.
  intros Hwf. apply (about_bind _ _ id); [done|by apply about_Destroy|]. intros r v1 W1 H1.
  destruct r; [|by split]. eapply about_weaken; [exact H1|by apply about_del].
Qed.

Lemma gc_one_about now id v : wf (snd v) ->
  wp C (gcOne now id) (fun o v' => o = Done tt /\ about v v' id /\ (~ due v id now -> v' = v)) v.
Proof.
  intros Hwf.
  assert (wp C (Ret tt) (fun o v' => o = Done tt /\ about v v' id /\ (~ due v id now -> v' = v)) v) as Hskip
    by (split; [done|]; split; [apply about_refl|done]).
  apply wp_store_get; [done| |by intros _].
  destruct (ent v id) as [e|] eqn:E; [|exact Hskip].
  destruct (re_deadlineAt e) as [d|] eqn:D; [|exact Hskip].
  destruct (now <? d) eqn:L; [exact Hskip|].
  assert (due v id now) as Hdue by (exists e, d; split; [done|]; split; [done|lia]).
  apply (wp_mono C _ (fun o v' => o = Done tt /\ about v v' id)).
  { intros o v' [Ho Ha]. split; [done|]. split; [done|]. by intros []. }
  fold (reap id). cbv zeta. case_decide; [|by apply reap_about].
  apply (about_bind _ _ id); [done|by apply about_Pause|]. intros r v1 W1 H1.
  eapply about_weaken; [exact H1|]. destruct r; [by apply about_paused|by apply reap_about].
Qed.

(** What a sweep has done so far. *)
Definition swept now v v' : Prop :=
  wf (snd v') /\ forall id, (sess v id = None -> sess v' id = None) /\ (~ due v id now -> same_at v v' id).

Lemma due_same v v' id now : same_at v v' id -> due v' id now -> due v id now.
Proof. intros [_ E] (e & d & He & Hd). exists e, d. by rewrite <-E. Qed.

Lemma swept_step now v v1 v2 id :
  swept now v v1 -> about v1 v2 id -> (~ due v1 id now -> v2 = v1) -> swept now v v2.
Proof.
  intros [W1 H1] (W & N & S) Hid. split; [auto|]. intros j. destruct (H1 j) as [Hn Hs]. split.
  - intros Hj. specialize (Hn Hj). destruct (decide (j = id)) as [->|Hne]; [by apply N|].
    destruct (S j Hne) as [E _]. congruence.
  - intros Hj. specialize (Hs Hj). destruct (decide (j = id)) as [->|Hne].
    + rewrite Hid; [done|]. intros Hd. apply Hj. by eapply due_same.
    + destruct (S j Hne) as [E1 E2], Hs as [F1 F2]. split; congruence.
Qed.

Lemma sweep_swept now l v : wf (snd v) ->
  wp C (for_each l (gcOne now)) (fun o v' => o = Done tt /\ swept now v v') v.
Proof.
  intros Hwf. eapply wp_mono; [|apply (wp_for_each C l (gcOne now) (swept now v) v)].
  - intros [[]|] v' [Hp Hs]; by split.
  - intros id v1 _ Hs. eapply wp_mono; [|apply (gc_one_about now id v1), Hs].
    intros o v2 (-> & Ha & Hid). split; [done|]. by eapply swept_step.
  - split; [done|]. intros id. split; [done|]. intros _. by split.
Qed.

(** The clock read at the start of a sweep. *)
Lemma tick_same v t id : same_at v (fst v, set_clock t (snd v)) id.
Proof. split; [done|]. by apply entry_frame. Qed.

Lemma gcExpired_wp v (Q : outcome unit -> E2B R * Cluster -> Prop) : wf (snd v) ->
  (forall t l, cl_clock (snd v) <= t ->
    (faults = false -> forall id e d, ent v id = Some e -> re_deadlineAt e = Some d -> id ∈ l) ->
    wp C (for_each l (gcOne t)) Q (fst v, set_clock t (snd v))) ->
  wp C gcExpired Q v.
Proof.
  intros Hwf H1 t v1 [Ht ->]. destruct v as [x c]. cbn [fst snd] in *.
  eapply wp_store; [apply ids_law; simpl; by apply wf_set_clock|].
  intros o r c' [[= -> ->] (l & -> & Hl)]. rewrite with_own_reg. apply H1; [done|].
  intros Hf id e d He Hd. apply (Hl Hf id e d); [|done]. rewrite <-He. by apply entry_frame.
Qed.
End reaper.

(** ** What becomes of an expired sandbox

    On an API server that answers. *)

Section reaping.
Context `{QP : QuantityParser} {R : Type} `{ST : StateStore R}.
Context {SL : StoreLaws false sandboxNS R}.
#[local] Notation C := (kube_contract (E2B R) false).
Implicit Types v : E2B R * Cluster.

(** The sandbox cannot be paused, and is not. *)
Definition unpausable (s : SandboxSession) : Prop :=
  Phase (s_status s) <> SandboxPhasePaused /\
  (Phase (s_status s) <> SandboxPhaseActive \/ TenantID (s_spec s) = "" /\ WorkspacePVC (s_status s) = "").

(** The sandbox has a deadline, at which it is to be killed, or cannot be
    paused. *)
Definition to_end v (id : string) (d : Z) : Prop :=
  exists e, ent false v id = Some e /\ re_deadlineAt e = Some d /\
    (re_onDeadline e <> "pause" \/ forall s, sess v id = Some s -> unpausable s).

(** The scanner's attempt to pause it at its deadline, if there is one, will
    be refused. *)
Definition doomed v (id : string) (d : Z) : Prop :=
  exists e, ent false v id = Some e /\ re_deadlineAt e = Some d /\
    (re_onDeadline e <> "pause" \/ forall s, sess v id = Some s -> refuses_pause s).

Lemma doomed_same v v' id d : same_at false v v' id -> doomed v id d -> doomed v' id d.
Proof. intros [E F] (e & He & Hd & Hk). exists e. rewrite E, F. done. Qed.

Lemma destroy_ends id v : wf (snd v) ->
  wp C (gw (DestroySessionRPC id)) (fun o v' =>
    ((exists r, o = Done r) /\ about false v v' id) /\ sess v' id = None) v.
Proof.
  intros Hwf. apply wp_and; [by apply about_Destroy|]. destruct v as [x c]. apply wp_zoom, wp_bind, wp_zoom.
  destruct (session_at sandboxNS id c) as [s|] eqn:Hs.
  - eapply wp_mono; [|by apply (destroy_returns id s)]. by intros o v' [-> Hn].
  - apply (wp_get_none KSession); [exact Hs|]. exact Hs.
Qed.

Lemma reap_ends id v : wf (snd v) ->
  wp C (reap id) (fun o v' => o = Done tt /\ sess v' id = None) v.
Proof.
  intros Hwf. apply wp_bind. eapply wp_mono; [|by apply destroy_ends].
  intros o v1 [[[r ->] Ha] Hn]. destruct r; [|by split].
  eapply wp_mono; [|apply (about_del false); by apply Ha]. intros o v2 [-> (_ & N & _)]. split; [done|auto].
Qed.

Lemma gc_one_ends now id d v : wf (snd v) -> doomed v id d -> d <= now ->
  wp C (gcOne now id) (fun o v' => o = Done tt /\ sess v' id = None) v.
Proof.
  intros Hwf (e & He & Hd & Hk) Hle. apply (wp_store_get false); [done| |done].
  rewrite He, Hd. replace (now <? d) with false by lia. cbv zeta. fold (reap (R := R) id).
  case_decide as Hp; [|by apply reap_ends]. destruct Hk as [Hk|Hk]; [done|].
  apply wp_bind. eapply wp_mono; [|by apply pause_refused]. intros o v' [[err ->] ->]. by apply reap_ends.
Qed.

Lemma sweep_ends now id d l v : wf (snd v) -> doomed v id d -> d <= now -> id ∈ l ->
  wp C (for_each l (gcOne now)) (fun o v' => o = Done tt /\ sess v' id = None) v.
Proof.
  revert v. induction l as [|j l IH]; intros v Hwf Hd Hle Hin; [set_solver|].
  cbn [for_each]. destruct (decide (j = id)) as [->|Hne].
  - apply wp_bind. eapply wp_mono; [|eapply wp_and; [by apply (gc_one_about false)|by eapply gc_one_ends]].
    intros o v1 [(-> & Ha & _) [_ Hn]]. eapply wp_mono; [|apply (sweep_swept false); by apply Ha].
    intros o v2 [-> [_ H2]]. split; [done|]. by apply (H2 id).
  - apply wp_bind. eapply wp_mono; [|by apply (gc_one_about false)].
    intros o v1 (-> & (W & _ & S) & _). apply IH; [auto| |done|set_solver].
    eapply doomed_same; [|done]. by apply S.
Qed.

(** A sweep at or after the deadline ends the sandbox. *)
Lemma gcExpired_ends id d v : wf (snd v) -> doomed v id d -> d <= cl_clock (snd v) ->
  wp C gcExpired (fun o v' => o = Done tt /\ sess v' id = None) v.
Proof.
  intros Hwf Hd Hle. apply (gcExpired_wp false); [done|]. intros t l Ht Hl.
  destruct (Hd) as (e & He & Hde & _).
  apply (sweep_ends t id d); [simpl; by apply wf_set_clock| |lia|by eapply Hl].
  eapply doomed_same; [by apply tick_same|done].
Qed.
End reaping.

(** ** Theorems *)

Section theorems.
Context `{QP : QuantityParser} {R : Type} `{ST : StateStore R} (faults : bool).
Context {SL : StoreLaws faults sandboxNS R}.
Implicit Types v : E2B R * Cluster.

(** A sweep, with the time it went by. *)
Lemma gcExpired_swept v : wf (snd v) ->
  wp (kube_contract (E2B R) faults) gcExpired (fun o v' => o = Done tt /\
    exists now, cl_clock (snd v) <= now <= cl_clock (snd v') /\ swept faults now v v') v.
Proof.
  intros Hwf. apply (gcExpired_wp faults); [done|]. intros t l Ht _.
  eapply wp_mono; [|eapply wp_and; [apply (wp_clock faults)|apply (sweep_swept faults t)]].
  - cbn beta. intros o v' (Hc & -> & [W Hs]). split; [done|]. exists t. simpl in Hc. split; [lia|]. split; [done|].
    intros id. destruct (Hs id) as [H1 H2]. split; [exact H1|]. intros Hn.
    pose proof (tick_same faults v t id) as Ht1.
    destruct H2 as [E F]; [|destruct Ht1; split; congruence].
    intros Hd. apply Hn. eapply due_same; [exact Ht1|exact Hd].
  - simpl. by apply wf_set_clock.
Qed.

(** C34. Whatever the API server refuses, a sweep of the deadline scanner
    returns, and at some moment of the sweep every sandbox whose deadline had
    not passed at that moment keeps its session and its bookkeeping. *)
Theorem gc_spares_living v :
  wf (snd v) ->
  wp (kube_contract (E2B R) faults) gcExpired (fun o v' => o = Done tt /\
    exists now, cl_clock (snd v) <= now <= cl_clock (snd v') /\ forall id, ~ due faults v id now ->
      cl_sessions (snd v') !! (sandboxNS, id) = cl_sessions (snd v) !! (sandboxNS, id) /\
      ent faults v' id = ent faults v id) v.
Proof.
  intros Hwf. eapply wp_mono; [|by apply gcExpired_swept].
  intros o v' (-> & now & Hc & _ & Hs). split; [done|]. exists now. split; [done|].
  intros id Hn. by apply Hs.
Qed.
End theorems.

Section liveness.
Context `{QP : QuantityParser} {R : Type} `{ST : StateStore R}.
Context {SL : StoreLaws false sandboxNS R}.
#[local] Notation C := (kube_contract (E2B R) false).
Implicit Types v : E2B R * Cluster.

(** One sweep, seen by one sandbox that will not be paused. *)
Lemma gcExpired_doomed v id d : wf (snd v) -> doomed v id d ->
  wp C gcExpired (fun o v' => o = Done tt /\ wf (snd v') /\ cl_clock (snd v) <= cl_clock (snd v') /\
    (sess v' id = None \/ doomed v' id d /\ cl_clock (snd v) < d)) v.
Proof.
  intros Hwf Hd. destruct (Z.le_gt_cases d (cl_clock (snd v))) as [Hle|Hgt].
  - eapply wp_mono; [|eapply wp_and; [by apply (gcExpired_swept false)|by eapply gcExpired_ends]].
    intros o v' [(-> & now & Hc & W & _) [_ Hn]]. split; [done|]. split; [done|]. split; [lia|by left].
  - apply (gcExpired_wp false); [done|]. intros t l Ht Hl.
    set (v1 := (fst v, set_clock t (snd v))).
    assert (wf (snd v1)) as W1 by (simpl; by apply wf_set_clock).
    assert (doomed v1 id d) as Hd1 by (eapply doomed_same; [apply tick_same|done]).
    assert (id ∈ l) as Hin by (destruct Hd as (e & He & Hde & _); by eapply Hl).
    destruct (Z.le_gt_cases d t) as [Hle|Hgt'].
    + eapply wp_mono; [|eapply wp_and; [by apply (wp_clock false)|eapply wp_and;
        [by apply (sweep_swept false t)|by eapply (sweep_ends t)]]].
      cbn beta. intros o v' (Hc & (-> & W & _) & _ & Hn). simpl in Hc. split; [done|]. split; [done|].
      split; [lia|by left].
    + eapply wp_mono; [|eapply wp_and; [by apply (wp_clock false)|by apply (sweep_swept false t)]].
      cbn beta. intros o v' (Hc & -> & W & Hs). simpl in Hc. split; [done|]. split; [done|].
      split; [lia|]. right. split; [|lia]. eapply doomed_same; [|exact Hd1]. apply Hs.
      intros (e & d' & He & Hde & Hle). destruct Hd1 as (e1 & He1 & Hde1 & _). congruence || (assert (d' = d) by congruence; lia).
Qed.

Lemma gcExpired_gone v id : wf (snd v) -> sess v id = None ->
  wp C gcExpired (fun o v' => o = Done tt /\ wf (snd v') /\ sess v' id = None) v.
Proof.
  intros Hwf Hn. eapply wp_mono; [|by apply (gcExpired_swept false)].
  intros o v' (-> & now & _ & W & Hs). split; [done|]. split; [done|]. by apply Hs.
Qed.

Lemma gcLoop_ends n v id d : wf (snd v) ->
  sess v id = None \/ doomed v id d /\ (0 < n)%nat /\ d <= cl_clock (snd v) + Z.of_nat n * (15 * second) ->
  wp C (gcLoop n) (fun o v' => (exists b, o = Done b) /\ (o = Done true -> sess v' id = None)) v.
Proof.
  revert v. induction n as [|n IH]; intros v Hwf Hc.
  { destruct Hc as [Hn|(_ & Hn & _)]; [|lia]. split; [by eexists|done]. }
  cbn [gcLoop]. apply (wp_call C (Sleep _)). intros ticked v1 (t & Ht & Hs & ->).
  destruct ticked; [|by split; [eexists|]]. specialize (Hs eq_refl). cbn [negb].
  set (v1 := (fst v, set_clock t (snd v))) in *.
  assert (wf (snd v1)) as W1 by (simpl; by apply wf_set_clock).
  apply wp_bind. destruct Hc as [Hn|(Hd & _ & Hle)].
  - eapply wp_mono; [|by apply (gcExpired_gone v1 id)].
    intros o v2 (-> & W2 & Hn2). apply IH; [done|by left].
  - eapply wp_mono; [|apply (gcExpired_doomed v1 id d); [done|]].
    2:{ eapply doomed_same; [apply tick_same|done]. }
    intros o v2 (-> & W2 & Hc2 & Hd2). apply IH; [done|]. destruct Hd2 as [Hn2|[Hd2 Hlt]]; [by left|right].
    subst v1. unfold second in *. simpl in Hc2, Hlt. split; [done|]. lia.
Qed.

(** C33. A sandbox whose policy is not to pause it, or that cannot be paused and
    is not paused, is ended: once the scanner has ticked [n] times, its
    deadline lying within that time, its session is gone, on an API server that
    answers. *)
Theorem gc_loop_reaps n v id d :
  wf (snd v) -> to_end v id d -> (0 < n)%nat -> d <= cl_clock (snd v) + Z.of_nat n * (15 * second) ->
  wp C (gcLoop n) (fun o v' => (exists b, o = Done b) /\
    (o = Done true -> cl_sessions (snd v') !! (sandboxNS, id) = None)) v.
Proof.
  intros Hwf (e & He & Hd & Hk) Hn Hle. apply (gcLoop_ends n v id d); [done|]. right. split; [|done].
  exists e. split; [done|]. split; [done|]. destruct Hk as [Hk|Hk]; [by left|right]. intros s Hs. by apply Hk.
Qed.

(** A sandbox that is paused when its deadline has passed is not kept:
    the next sweep destroys it, also when it was the scanner that paused it
    and when its user asked for pausing. *)
Theorem paused_sandbox_reaped v id s e d :
  wf (snd v) -> cl_sessions (snd v) !! (sandboxNS, id) = Some s -> Phase (s_status s) = SandboxPhasePaused ->
  ent false v id = Some e -> re_deadlineAt e = Some d -> d <= cl_clock (snd v) ->
  wp C gcExpired (fun o v' => o = Done tt /\ cl_sessions (snd v') !! (sandboxNS, id) = None) v.
Proof.
  intros Hwf Hs Hp He Hd Hle. apply (gcExpired_ends id d); [done| |done].
  exists e. split; [done|]. split; [done|]. right. intros s' Hs'.
  pose proof (eq_trans (eq_sym Hs) Hs') as [= <-]. left. by rewrite Hp.
Qed.
End liveness.
