(* ===== verification/Auth.v ===== *)
(** * Who may call the gateway

    Properties of [Gateway]: the interceptor chain lets no call through
    without an identity, removing an API key locks its certificates out, and
    the cases in which it does not. *)
From Stdlib Require Import QArith_base.
From S2P Require Import Prelude Prog Kube Lens SessionEnv GoTime Orchestrator RateLimit ApiKey Gateway Rules.

#[local] Open Scope Z_scope.

(** ** Lemmas *)

(** No verified certificate, and not a trusted local connection. *)
Definition anonymous (localAuth : bool) (cx : Ctx) : Prop :=
  match cx_peer cx with
  | None => True
  | Some p => default [] (pe_tls p) = [] /\ (pe_loopback p && localAuth) = false
  end.

(** The connection's certificate is on the revocation list. *)
Definition revoked_peer (m : gmap string Z) (cx : Ctx) : Prop :=
  exists p cert l, cx_peer cx = Some p /\ pe_tls p = Some (cert :: l) /\
    is_Some (m !! crt_fingerprint cert).

Definition cluster_kept (c c' : Cluster) : Prop := forall k, store k c' = store k c.

Lemma cluster_kept_clock (t : Z) (c : Cluster) : cluster_kept c (set_clock t c).
Proof. intros k. apply store_set_clock. Qed.

Section auth.
Context (faults : bool).
Implicit Types (g : Gw) (c : Cluster).

Abbreviation C := (kube_contract Gw faults).

Lemma peerIdentity_wp cx Q g c :
  (forall id t, (cl_clock c <= t)%Z ->
     match cx_peer cx with
     | Some (mkPeer _ (Some (cert :: _))) =>
         id = ("", false) \/
         id = (crt_commonName cert, false) /\ crt_notBefore cert <= t <= crt_notAfter cert
     | Some p => id = ("", pe_loopback p)
     | None => id = ("", false)
     end -> Q (Done id) (g, c) /\ Q (Done id) (g, set_clock t c)) ->
  wp C (peerIdentity cx) Q (g, c).
Proof.
  intros H. unfold peerIdentity.
  destruct (cx_peer cx) as [[lo [[|cert l]|]]|]; cbn [pe_tls default pe_loopback] in *;
    try (by apply (H _ (cl_clock c)); [lia|]).
  apply (wp_call C Now). intros t [g' c'] [Hle [= -> ->]]. cbn [snd fst] in *.
  destruct ((t <? crt_notBefore cert) || (crt_notAfter cert <? t)) eqn:E.
  - by apply (H ("", false) t); [done|left].
  - apply orb_false_iff in E as [E1%Z.ltb_ge E2%Z.ltb_ge]. apply (H _ t); [done|right; done].
Qed.

Lemma checkMTLSAuth_wp localAuth cx m g c :
  g_revoked g = Some m -> anonymous localAuth cx \/ revoked_peer m cx ->
  wp C (checkMTLSAuth localAuth cx)
    (fun o v' => (o = Done (Some (Status Unauthenticated)) \/ o = Done (Some (Status PermissionDenied))) /\
       fst v' = g /\ cluster_kept c (snd v')) (g, c).
Proof.
  intros Hm Hcx. apply wp_bind, peerIdentity_wp. intros id t Ht Hid.
  assert (forall c', cluster_kept c c' ->
    wp C (if snd id && localAuth then Ret None
          else if decide (fst id = "") then Ret (Some (Status Unauthenticated))
          else do revoked <- IsRevoked (certFingerprintFromContext cx);
               Ret (if revoked : bool then Some (Status PermissionDenied) else None))
      (fun o v' => (o = Done (Some (Status Unauthenticated)) \/ o = Done (Some (Status PermissionDenied))) /\
         fst v' = g /\ cluster_kept c (snd v')) (g, c')) as Hc.
  2:{ split; apply Hc; [done|apply cluster_kept_clock]. }
  intros c' Hk. destruct Hcx as [Ha|(p & cert & l & Hp & Htls & Hr)].
  - assert ((snd id && localAuth) = false /\ fst id = "") as [-> ->].
    2:{ cbn [andb]. rewrite decide_True by done. cbn [wp]. auto. }
    unfold anonymous in Ha. destruct (cx_peer cx) as [[lo [[|cert l]|]]|]; cbn in *.
    + destruct Ha as [_ Ha]. by subst id.
    + by destruct Ha.
    + destruct Ha as [_ Ha]. by subst id.
    + by subst id.
  - rewrite Hp in Hid. destruct p as [lo tls]. simpl in Htls. subst tls.
    assert (snd id = false) as -> by (by destruct Hid as [-> | [-> _]]).
    cbn [andb]. case_decide; [cbn [wp]; auto|].
    apply wp_bind. unfold IsRevoked. apply wp_mem. cbn [fst snd]. rewrite Hm. cbn [wp].
    unfold certFingerprintFromContext. rewrite Hp. cbn [pe_tls default].
    rewrite bool_decide_eq_true_2 by done. auto.
Qed.

(** A call refused by the chain: its handler does not run, and at most the
    rate limiter remembers it. *)
Definition refused {A} (g : Gw) (c : Cluster) (o : outcome (res A)) (v' : Gw * Cluster) : Prop :=
  (exists code, o = Done (Err (Status code)) /\
     (code = ResourceExhausted \/ code = Unauthenticated \/ code = PermissionDenied)) /\
  (exists l, fst v' = with_limiter l g) /\ cluster_kept c (snd v').

(** The rate limiter refuses, or leaves it to what follows. *)
Lemma rateLimited_refused {A} cx method (next : gwP (res A)) g c :
  (forall l c', cluster_kept c c' ->
     wp C next (fun o v' => (exists code, o = Done (Err (Status code)) /\
         (code = Unauthenticated \/ code = PermissionDenied)) /\
       fst v' = with_limiter l g /\ cluster_kept c (snd v')) (with_limiter l g, c')) ->
  wp C (rateLimited cx method next) (refused g c) (g, c).
Proof.
  intros Hnext. unfold rateLimited.
  apply (wp_call C Now). intros t0 [g1 c1] [_ [= -> ->]]. cbn [fst snd].
  apply (wp_call C Now). intros t [g2 c2] [_ [= -> ->]]. cbn [fst snd].
  apply wp_mem. cbn [fst snd].
  destruct (admit_call t0 t (cx_md cx) method (g_limiter g)) as [err l] eqn:E. cbn [fst snd].
  assert (cluster_kept c (set_clock t (set_clock t0 c))) as Hk.
  { intros k. by rewrite !store_set_clock. }
  destruct err as [e|].
  - unfold admit_call in E. destruct (Allow _ _ _ _ _) as [[] l'] in E; [done|].
    injection E as <- <-. split; [by eauto|]. split; [by eexists|done].
  - eapply wp_mono; [|by apply (Hnext l)]. intros o [g' c'] ((code & Ho & Hcode) & Hg & Hc).
    split; [exists code; naive_solver|]. split; [by exists l|done].
Qed.

Lemma auth_refused {A} localAuth cx (handler : gwP (res A)) m l g c c' :
  g_revoked g = Some m -> anonymous localAuth cx \/ revoked_peer m cx -> cluster_kept c c' ->
  wp C (mTLSStreamInterceptor localAuth cx handler)
    (fun o v' => (exists code, o = Done (Err (Status code)) /\
         (code = Unauthenticated \/ code = PermissionDenied)) /\
       fst v' = with_limiter l g /\ cluster_kept c (snd v')) (with_limiter l g, c').
Proof.
  intros Hm Hcx Hk. apply wp_bind. eapply wp_mono; [|by apply (checkMTLSAuth_wp localAuth cx m)].
  intros o [g' c''] (Ho & Hg & Hc). cbn [fst snd] in *.
  assert (cluster_kept c c'') as Hk' by (intros k; by rewrite Hc).
  destruct Ho as [-> | ->]; cbn [wp]; (split; [by eauto|by split]).
Qed.

Lemma serveUnary_refused {A} localAuth cx method (handler : gwP (res A)) m g c :
  method <> loginMethod -> g_revoked g = Some m ->
  anonymous localAuth cx \/ revoked_peer m cx ->
  wp C (serveUnary localAuth cx method handler) (refused g c) (g, c).
Proof.
  intros Hmethod Hm Hcx. apply rateLimited_refused. intros l c' Hk.
  unfold mTLSAuthInterceptor. rewrite decide_False by done. by eapply auth_refused.
Qed.

Lemma serveStream_refused {A} localAuth cx method (handler : gwP (res A)) m g c :
  g_revoked g = Some m -> anonymous localAuth cx \/ revoked_peer m cx ->
  wp C (serveStream localAuth cx method handler) (refused g c) (g, c).
Proof. intros Hm Hcx. apply rateLimited_refused. intros l c' Hk. by eapply auth_refused. Qed.

(** ** Revocation by key name *)

Lemma Revoke_wp fp m g c :
  g_revoked g = Some m ->
  wp C (Revoke fp)
    (fun o v' => o = Done tt /\ cl_clock c <= cl_clock (snd v') /\ cluster_kept c (snd v') /\
       exists t, fst v' = with_revoked (Some (<[fp := t]> m)) g) (g, c).
Proof.
  intros Hm. apply (wp_call C Now). intros t [g1 c1] [Ht [= -> ->]]. cbn [fst snd] in *.
  intros x [g2 c2] [-> [= -> ->]]. cbn [fst snd wp].
  split; [done|]. split; [exact Ht|]. split; [apply cluster_kept_clock|].
  exists t. by rewrite Hm.
Qed.

(** The revocation list [m'] extends [m] by the fingerprints [fps]. *)
Definition revokes (fps : list string) (m m' : gmap string Z) : Prop :=
  forall fp, is_Some (m !! fp) \/ fp ∈ fps -> is_Some (m' !! fp).

Lemma with_revoked_twice a b g : with_revoked a (with_revoked b g) = with_revoked a g.
Proof. done. Qed.

Lemma revoke_all_wp (records : list issuedCertRecord) m g c :
  g_revoked g = Some m ->
  wp C (for_each records (fun r => Revoke (ic_fingerprint r)))
    (fun o v' => o = Done tt /\ cl_clock c <= cl_clock (snd v') /\ cluster_kept c (snd v') /\
       exists m', fst v' = with_revoked (Some m') g /\ revokes (ic_fingerprint <$> records) m m') (g, c).
Proof.
  revert m g c. induction records as [|r records IH]; intros m g c Hm; cbn [for_each].
  - split; [done|]. split; [cbn [snd]; lia|]. split; [done|]. exists m. split; [by destruct g; simpl in *; subst|].
    intros fp [?|H]; [done|]. by apply elem_of_nil in H.
  - apply wp_bind. eapply wp_mono; [|by apply Revoke_wp].
    intros o [g1 c1] (-> & Hc1 & Hk1 & t & Hg1). cbn [fst snd] in *. subst g1.
    eapply wp_mono; [|by apply (IH (<[ic_fingerprint r := t]> m))].
    intros o [g2 c2] (-> & Hc2 & Hk2 & m' & Hg2 & Hr). cbn [fst snd] in *. subst g2.
    split; [done|]. split; [lia|]. split; [intros k; by rewrite Hk2|].
    exists m'. split; [done|]. intros fp Hfp. apply Hr. cbn [fmap list_fmap] in Hfp.
    destruct (decide (fp = ic_fingerprint r)) as [->|Hne].
    + left. rewrite lookup_insert_eq. by eexists.
    + destruct Hfp as [Hfp|[->|Hfp]%elem_of_cons]; [left; by rewrite lookup_insert_ne|done|by right].
Qed.

Lemma revoke_names_wp (names : list string) (l : list issuedCertRecord) m g c :
  g_revoked g = Some m -> g_issued g = Some l ->
  wp C (for_each names RevokeByKeyName)
    (fun o v' => o = Done tt /\ cl_clock c <= cl_clock (snd v') /\ cluster_kept c (snd v') /\
       exists m', fst v' = with_revoked (Some m') g /\
         revokes (ic_fingerprint <$> filter (fun r => ic_keyName r ∈ names) l) m m') (g, c).
Proof.
  revert m g c. induction names as [|n names IH]; intros m g c Hm Hl; cbn [for_each].
  - split; [done|]. split; [cbn [snd]; lia|]. split; [done|]. exists m. split; [by destruct g; simpl in *; subst|].
    intros fp [?|H]; [done|]. apply list_elem_of_fmap in H as (r & _ & [H _]%list_elem_of_filter).
    by apply elem_of_nil in H.
  - apply wp_bind. unfold RevokeByKeyName at 1. apply wp_mem. cbn [fst snd]. rewrite Hl. cbn [default].
    eapply wp_mono; [|by apply revoke_all_wp].
    intros o [g1 c1] (-> & Hc1 & Hk1 & m1 & Hg1 & Hr1). cbn [fst snd] in *. subst g1.
    eapply wp_mono; [|by apply (IH m1)].
    intros o [g2 c2] (-> & Hc2 & Hk2 & m2 & Hg2 & Hr2). cbn [fst snd] in *. subst g2.
    split; [done|]. split; [lia|]. split; [intros k; by rewrite Hk2|].
    exists m2. split; [done|]. intros fp [Hfp|Hfp]; apply Hr2.
    + left. apply Hr1. by left.
    + apply list_elem_of_fmap in Hfp as (r & -> & [Hn Hr]%list_elem_of_filter).
      apply elem_of_cons in Hn as [Hn|Hn].
      * left. apply Hr1. right. apply list_elem_of_fmap. exists r. split; [done|].
        unfold FindByKeyName. by apply list_elem_of_filter.
      * right. apply list_elem_of_fmap. exists r. split; [done|]. by apply list_elem_of_filter.
Qed.
End auth.

(** ** Loading keys *)

Section load.
Context `{J : JsonValues, MO : MapOrder}.
Context (json_object : string -> payload).
Context (faults : bool).
Implicit Types (g : Gw) (c : Cluster).

Abbreviation C := (kube_contract Gw faults).

Lemma by_token_Some (l : list (string * string)) (m0 : gmap string string) (token name : string) :
  foldl (fun m e => <[e.2 := e.1]> m) m0 l !! token = Some name ->
  m0 !! token = Some name \/ (name, token) ∈ l.
Proof using.
  revert m0. induction l as [|[n k] l IH]; intros m0; simpl; [by left|].
  intros [H|H]%IH; [|right; by apply elem_of_cons; right].
  rewrite lookup_insert in H. destruct (decide (k = token)) as [->|]; [|by left].
  injection H as ->. right. apply elem_of_cons. by left.
Qed.

Lemma by_token_active (store : gmap string string) (token name : string) :
  by_token store !! token = Some name -> store !! name = Some token.
Proof using.
  intros [H|H]%by_token_Some; [by rewrite lookup_empty in H|by apply elem_of_iter].
Qed.

(** The keys of the secret's payload, or a reason to keep the old ones. *)
Definition stored_keys (c : Cluster) (records : gmap string KeyRecord) : Prop :=
  exists secret text, store KSecret c !! (apiKeySecretNS, apiKeySecretName) = Some secret /\
    sec_data secret !! "keys.json" = Some text /\ Parse (payload_of json_object text) = Ok records.

Lemma loadAPIKeys_wp (records : gmap string KeyRecord) prev l m g c :
  faults = false -> stored_keys c records ->
  g_apiKeys g = Some prev -> g_issued g = Some l -> g_revoked g = Some m ->
  wp C (loadAPIKeys json_object)
    (fun o v' => o = Done tt /\ cl_clock c <= cl_clock (snd v') /\ cluster_kept c (snd v') /\
       exists t m', cl_clock c <= t /\
         fst v' = with_keys (Some (ActiveSecrets records t)) (Some (by_token (ActiveSecrets records t)))
           (with_revoked (Some m') g) /\
         revokes (ic_fingerprint <$> filter (fun r => is_Some (prev !! ic_keyName r) /\
            ActiveSecrets records t !! ic_keyName r = None) l) m m') (g, c).
Proof using.
  intros -> (secret & text & Hsec & Htext & Hparse) Hprev Hl Hm. unfold loadAPIKeys.
  apply (wp_get_some KSecret _ _ secret); [done|]. rewrite Htext, Hparse.
  apply wp_now. intros t Ht. cbn [fst snd] in *.
  apply wp_mem. cbn [fst snd]. rewrite Hprev. apply wp_mem. cbn [fst snd]. rewrite Hl, Hm.
  rewrite !bool_decide_eq_true_2 by by eexists. cbn [andb].
  apply wp_bind. eapply wp_mono; [|by apply (revoke_names_wp false _ l m)].
  intros o [g1 c1] (-> & Hc1 & Hk1 & m' & Hg1 & Hr). cbn [fst snd] in *. subst g1.
  apply wp_last. intros x [g2 c2] [-> [= -> ->]]. cbn [fst snd].
  split; [done|]. split; [simpl in Hc1; lia|]. split; [intros k; by rewrite Hk1, store_set_clock|].
  exists t, m'. split; [done|]. split; [done|].
  intros fp Hfp. apply Hr. destruct Hfp as [Hfp|Hfp]; [by left|right].
  apply list_elem_of_fmap in Hfp as (r & -> & [[[k Hp] Hn] Hrl]%list_elem_of_filter).
  apply list_elem_of_fmap. exists r. split; [done|]. apply list_elem_of_filter. split; [|done].
  apply list_elem_of_filter. split; [done|].
  apply list_elem_of_fmap. exists (ic_keyName r, k). split; [done|]. by apply elem_of_iter.
Qed.

Lemma loadAPIKeys_no_prev g c :
  g_apiKeys g = None ->
  wp C (loadAPIKeys json_object) (fun o v' => g_revoked (fst v') = g_revoked g) (g, c).
Proof using.
  intros Hnone. apply (wp_call C (Get KSecret _ _)). intros r v' [-> Hr]. clear Hr. cbn [fst snd].
  assert (forall s c', wp C (replaceAPIKeys s) (fun o v' => g_revoked (fst v') = g_revoked g) (g, c')) as Hrep.
  { intros s c' x v' [-> ->]. done. }
  destruct r as [secret|e]; [|apply Hrep].
  destruct (sec_data secret !! "keys.json") as [text|]; [|apply Hrep].
  destruct (Parse _) as [records|e]; [|done].
  apply (wp_call C Now). intros t [g1 c1] [_ [= -> ->]]. cbn [fst snd].
  apply wp_mem. cbn [fst snd]. rewrite Hnone. apply wp_mem. cbn [fst snd].
  apply wp_ret_bind, Hrep.
Qed.

Lemma loadAPIKeys_missing g c :
  store KSecret c !! (apiKeySecretNS, apiKeySecretName) = None -> faults = false ->
  wp C (loadAPIKeys json_object)
    (fun o v' => o = Done tt /\ g_apiKeys (fst v') = None /\ g_revoked (fst v') = g_revoked g) (g, c).
Proof using.
  intros Hnone ->. apply (wp_get_none KSecret); [done|].
  intros x v' [-> ->]. done.
Qed.
End load.

(** ** Theorems *)

(** C36. On a started server a call of a peer without a client certificate,
    unless it is local and local access is allowed, and a call of a peer whose
    certificate is on the revocation list is refused before its handler runs:
    every unary method but Login, and every streaming method, ExecStream
    included.  Nothing but the rate limiter's memory changes. *)
Theorem refused_without_identity (faults : bool) (A : Type) (localAuth : bool) (cx : Ctx)
    (method stream : string) (handler streamed : gwP (res A)) (m : gmap string Z) (g : Gw) (c : Cluster)
    (Hmethod : method <> loginMethod) (Hm : g_revoked g = Some m)
    (Hcx : anonymous localAuth cx \/ revoked_peer m cx) :
  wp (kube_contract Gw faults) (serveUnary localAuth cx method handler) (refused g c) (g, c) /\
  wp (kube_contract Gw faults) (serveStream localAuth cx stream streamed) (refused g c) (g, c).
Proof. split; [by eapply serveUnary_refused|by eapply serveStream_refused]. Qed.

(** C32. A reload locks a removed key out, where the API server answers and
    serves the secret, its keys.json is there and can be read, the key was
    among those loaded before, and it is no longer an active one of the file:
    then the key's name is handed to no token, and a call with a certificate
    that was issued for it and stands on the ledger is refused, unary or
    streaming, unless it is a Login.  (A reload that finds no secret, or that
    starts without keys, revokes nothing.) *)
Theorem removed_key_locked_out `{J : JsonValues, MO : MapOrder} (json_object : string -> payload)
    (A : Type) (localAuth : bool) (cx : Ctx) (method : string) (handler : gwP (res A))
    (records : gmap string KeyRecord) (name : string) (prev : gmap string string)
    (l : list issuedCertRecord) (m : gmap string Z) (r : issuedCertRecord) (p : Peer) (cert : Cert)
    (others : list Cert) (g : Gw) (c : Cluster)
    (Hstored : stored_keys json_object c records)
    (Hprev : g_apiKeys g = Some prev) (Hl : g_issued g = Some l) (Hm : g_revoked g = Some m)
    (Hname : is_Some (prev !! name)) (Hgone : forall t, cl_clock c <= t -> ActiveSecrets records t !! name = None)
    (Hr : r ∈ l) (Hrn : ic_keyName r = name)
    (Hp : cx_peer cx = Some p) (Htls : pe_tls p = Some (cert :: others))
    (Hfp : crt_fingerprint cert = ic_fingerprint r) (Hmethod : method <> loginMethod) :
  wp (kube_contract Gw false) (loadAPIKeys json_object)
    (fun o v' => o = Done tt /\
       (forall token, g_apiKeyByToken (fst v') ≫= lookup token <> Some name) /\
       wp (kube_contract Gw false) (serveUnary localAuth cx method handler)
         (refused (fst v') (snd v')) v' /\
       wp (kube_contract Gw false) (serveStream localAuth cx method handler)
         (refused (fst v') (snd v')) v') (g, c).
Proof.
  eapply wp_mono; [|by apply (loadAPIKeys_wp json_object false records prev l m)].
  intros o [g' c'] (-> & _ & _ & t & m' & Ht & Hg & Hrev). cbn [fst snd] in *. subst g'.
  split; [done|]. split.
  - intros token H. cbn in H. apply by_token_active in H. by rewrite Hgone in H.
  - assert (revoked_peer m' cx) as Hpeer.
    { exists p, cert, others. split; [done|]. split; [done|]. rewrite Hfp. apply Hrev. right.
      apply list_elem_of_fmap. exists r. split; [done|]. apply list_elem_of_filter. split; [|done].
      rewrite Hrn. split; [done|]. by apply Hgone. }
    split; [by apply (serveUnary_refused _ _ _ _ _ m'); [| |right]|].
    by apply (serveStream_refused _ _ _ _ _ m'); [|right].
Qed.

(** A reload that finds no secret forgets the keys without revoking, and
    a reload that starts without keys, the first after a start included,
    revokes nothing, whatever the secret holds. *)
Theorem forgotten_keys_never_revoked `{J : JsonValues, MO : MapOrder}
    (json_object : string -> payload) (faults : bool) (g : Gw) (c : Cluster) :
  (store KSecret c !! (apiKeySecretNS, apiKeySecretName) = None ->
   wp (kube_contract Gw false) (loadAPIKeys json_object)
     (fun o v' => g_apiKeys (fst v') = None /\ g_revoked (fst v') = g_revoked g) (g, c)) /\
  (g_apiKeys g = None ->
   wp (kube_contract Gw faults) (loadAPIKeys json_object)
     (fun o v' => g_revoked (fst v') = g_revoked g) (g, c)).
Proof.
  split.
  - intros Hnone. eapply wp_mono; [|by apply loadAPIKeys_missing]. by intros o v' [_ H].
  - intros Hnone. by apply loadAPIKeys_no_prev.
Qed.

(** ** Logging in *)

Section login.
Context (signClientCert : string -> string -> Z -> option (string * string)).
Context (faults : bool).

(** Who the caller of [Login] is: the name in its certificate, or the name of
    the API key it shows. *)
Definition identified (g : Gw) (cx : Ctx) (name : string) : Prop :=
  (exists p cert l, cx_peer cx = Some p /\ pe_tls p = Some (cert :: l) /\ name = crt_commonName cert) \/
  (exists md auth l, cx_md cx = Some md /\ md !! "authorization" = Some (auth :: l) /\
     g_apiKeyByToken g ≫= lookup (trim_prefix auth "Bearer ") = Some name).

(** A certificate was signed for [name] and put on the ledger, from which the
    expired ones were dropped. *)
Definition issued_for (csr name pem : string) (ttl : Z) (g : Gw) (c : Cluster) (v' : Gw * Cluster) : Prop :=
  ttl = clientCertTTLDays /\
  exists t tp t1 t2 fp, cl_clock c <= t /\ t <= tp /\ tp <= t1 /\ t1 <= t2 /\
    signClientCert csr name t = Some (pem, fp) /\
    fst v' = with_issued
      ((fun l => filter (fun r => tp < ic_expiresAt r) l ++
                 [mkIssued name fp t1 (t2 + clientCertTTLDays * 24 * hour)]) <$> g_issued g) g.

Lemma signAndRecord_wp csr name g c :
  wp (kube_contract Gw faults) (signAndRecord signClientCert csr name)
    (fun o v' => o = Done (Err (Status Internal)) /\ fst v' = g \/
       exists pem ttl, o = Done (Ok (pem, ttl)) /\ issued_for csr name pem ttl g c v') (g, c).
Proof.
  apply (wp_call _ Now). intros t [g1 c1] [Ht [= -> ->]]. cbn [fst snd] in *.
  destruct (signClientCert csr name t) as [[pem fp]|] eqn:Hsign; [|by left].
  unfold PruneExpired. apply wp_assoc.
  apply (wp_call _ Now). intros tp [g2 c2] [Hp [= -> ->]]. cbn [fst snd] in *.
  apply wp_mem. cbn [fst snd].
  apply (wp_call _ Now). intros t1 [g3 c3] [H1 [= -> ->]]. cbn [fst snd] in *.
  apply (wp_call _ Now). intros t2 [g4 c4] [H2 [= -> ->]]. cbn [fst snd] in *.
  apply wp_mem. cbn [fst snd wp]. right. exists pem, clientCertTTLDays. split; [done|].
  split; [done|]. exists t, tp, t1, t2, fp.
  split; [exact Ht|]. split; [exact Hp|]. split; [exact H1|]. split; [exact H2|]. split; [done|].
  by destruct (g_issued g).
Qed.
End login.

(** [Login] hands out a certificate only to a peer that shows a client
    certificate or a loaded API key, in that name, for 90 days, and records it
    on the ledger; otherwise it changes nothing. *)
Theorem login_identifies (signClientCert : string -> string -> Z -> option (string * string))
    (faults : bool) (cx : Ctx) (csr : string) (g : Gw) (c : Cluster) :
  wp (kube_contract Gw faults) (Login signClientCert cx csr)
    (fun o v' => (exists code, o = Done (Err (Status code))) /\ fst v' = g \/
       exists name pem ttl, o = Done (Ok (pem, ttl)) /\ name <> "" /\ identified g cx name /\
         issued_for signClientCert csr name pem ttl g c v') (g, c).
Proof.
  assert (forall name c', name <> "" -> identified g cx name -> cl_clock c <= cl_clock c' ->
    wp (kube_contract Gw faults) (signAndRecord signClientCert csr name)
      (fun o v' => (exists code, o = Done (Err (Status code))) /\ fst v' = g \/
       exists name pem ttl, o = Done (Ok (pem, ttl)) /\ name <> "" /\ identified g cx name /\
         issued_for signClientCert csr name pem ttl g c v') (g, c')) as Hsign.
  { intros name c' Hne Hid Hle. eapply wp_mono; [|apply signAndRecord_wp].
    intros o v' [[-> Hg]|(pem & ttl & -> & Httl & t & tp & t1 & t2 & fp & Ht & H)].
    - left. split; [by eexists|done].
    - right. exists name, pem, ttl. split; [done|]. split; [done|]. split; [done|].
      split; [done|]. exists t, tp, t1, t2, fp. split; [lia|done]. }
  apply wp_bind, peerIdentity_wp. intros id t Ht Hid.
  assert (forall c', cl_clock c <= cl_clock c' ->
    wp (kube_contract Gw faults)
      (if decide (fst id <> "") then signAndRecord signClientCert csr (fst id)
       else match cx_md cx with
            | None => Ret (Err (Status Unauthenticated))
            | Some md =>
                match default [] (md !! "authorization") with
                | [] => Ret (Err (Status Unauthenticated))
                | auth :: _ =>
                    do keyName <- lookupAPIKeyName (trim_prefix auth "Bearer ");
                    if decide (keyName = "") then Ret (Err (Status Unauthenticated))
                    else signAndRecord signClientCert csr keyName
                end
            end)
      (fun o v' => (exists code, o = Done (Err (Status code))) /\ fst v' = g \/
       exists name pem ttl, o = Done (Ok (pem, ttl)) /\ name <> "" /\ identified g cx name /\
         issued_for signClientCert csr name pem ttl g c v') (g, c')) as Hrest.
  2:{ split; apply Hrest; simpl; lia. }
  intros c' Hle. destruct (decide (fst id <> "")) as [Hne|_].
  - apply Hsign; [done| |done]. left.
    destruct (cx_peer cx) as [[lo [[|cert l]|]]|]; try (by subst id).
    exists (mkPeer lo (Some (cert :: l))), cert, l. split; [done|]. split; [done|].
    by destruct Hid as [-> | [-> _]].
  - destruct (cx_md cx) as [md|] eqn:Hmd; [|by left; split; [by eexists|]].
    destruct (md !! "authorization") as [[|auth l]|] eqn:Hauth; cbn [default];
      [by left; split; [by eexists|]| |by left; split; [by eexists|]].
    apply wp_mem. cbn [fst snd]. case_decide as Hname; [by left; split; [by eexists|]|].
    apply Hsign; [done| |done]. right. exists md, auth, l. split; [done|]. split; [done|].
    revert Hname. by destruct (g_apiKeyByToken g ≫= lookup (trim_prefix auth "Bearer ")).
Qed.

(** ** Witnesses *)

(** JSON values that are what they decode to. *)
#[export] Instance sample_json : JsonValues := {|
  jv := string + Z + gmap string KeyRecord;
  as_string := fun v => match v with inl (inl s) => Some s | _ => None end;
  as_int := fun v => match v with inl (inr z) => Some z | _ => None end;
  as_records := fun v => match v with inr m => Some m | _ => None end;
  of_int := fun z => inl (inr z);
  of_records := fun m => inr m;
|}.

#[export] Instance sample_json_round_trip : JsonRoundTrip sample_json.
Proof. by split. Qed.

#[export] Instance sample_order : MapOrder := {|
  iter := fun V m => map_to_list m;
  iter_perm := fun V m => reflexivity _;
|}.

(** A gateway that has loaded the key "ci", for which one certificate is out. *)
Definition ci_cert : Cert := mkCert "ci" 0 (90 * 24 * hour) "fp1".
Definition ci_peer : Peer := mkPeer false (Some [ci_cert]).
Definition ci_context : Ctx := mkCtx (Some ci_peer) None.
Definition ci_issued : issuedCertRecord := mkIssued "ci" "fp1" 0 (90 * 24 * hour).

Definition ci_gateway : Gw :=
  with_keys (Some {["ci" := "k8e-1"]}) (Some {["k8e-1" := "ci"]})
    (with_issued (Some [ci_issued]) (with_revoked (Some ∅) (NewServer false))).

(** The secret, in which the key is no longer. *)
Definition emptied_secret : Secret :=
  mkSecret (mkMeta apiKeySecretNS apiKeySecretName "" ∅ ∅ 1 0) {["keys.json" := "{}"]}.

Definition emptied_cluster : Cluster :=
  mkCluster 0 1 ∅ ∅ ∅ ∅ ∅ ∅ ∅ {[(apiKeySecretNS, apiKeySecretName) := emptied_secret]}.

Definition no_keys : string -> payload := fun _ => Encode ∅.

Definition ping : gwP (res unit) := Ret (Ok tt).

Lemma refused_without_identity_witness :
  wp (kube_contract Gw true) (serveUnary false (mkCtx None None) "/sandbox.v1.SandboxService/Exec" ping)
    (refused ci_gateway emptied_cluster) (ci_gateway, emptied_cluster) /\
  wp (kube_contract Gw true) (serveStream false (mkCtx None None) "/sandbox.v1.SandboxService/ExecStream" ping)
    (refused ci_gateway emptied_cluster) (ci_gateway, emptied_cluster).
Proof.
  apply (refused_without_identity true unit false (mkCtx None None) "/sandbox.v1.SandboxService/Exec"
    "/sandbox.v1.SandboxService/ExecStream" ping ping ∅ ci_gateway emptied_cluster); [done|reflexivity|by left].
Defined.

Lemma removed_key_locked_out_witness :
  wp (kube_contract Gw false) (loadAPIKeys no_keys)
    (fun o v' => o = Done tt /\
       (forall token, g_apiKeyByToken (fst v') ≫= lookup token <> Some "ci") /\
       wp (kube_contract Gw false) (serveUnary false ci_context "/sandbox.v1.SandboxService/Exec" ping)
         (refused (fst v') (snd v')) v' /\
       wp (kube_contract Gw false) (serveStream false ci_context "/sandbox.v1.SandboxService/Exec" ping)
         (refused (fst v') (snd v')) v') (ci_gateway, emptied_cluster).
Proof.
  apply (removed_key_locked_out no_keys unit false ci_context "/sandbox.v1.SandboxService/Exec" ping
    ∅ "ci" {["ci" := "k8e-1"]} [ci_issued] ∅ ci_issued ci_peer ci_cert []); try reflexivity.
  - exists emptied_secret, "{}". split; [by vm_compute|]. split; [by vm_compute|].
    apply parse_encode.
  - by eexists.
  - by apply list_elem_of_singleton.
  - done.
Defined.

Lemma forgotten_keys_never_revoked_witness :
  let none := mkCluster 0 1 ∅ ∅ ∅ ∅ ∅ ∅ ∅ ∅ in
  let started := with_keys None None ci_gateway in
  wp (kube_contract Gw false) (loadAPIKeys no_keys)
    (fun o v' => g_apiKeys (fst v') = None /\ g_revoked (fst v') = g_revoked ci_gateway) (ci_gateway, none) /\
  wp (kube_contract Gw true) (loadAPIKeys no_keys)
    (fun o v' => g_revoked (fst v') = g_revoked ci_gateway) (started, emptied_cluster).
Proof.
  split.
  - apply (forgotten_keys_never_revoked no_keys true ci_gateway); reflexivity.
  - apply (forgotten_keys_never_revoked no_keys true (with_keys None None ci_gateway) emptied_cluster). reflexivity.
Defined.

(** A certificate that is refused as revoked still renews itself: [Login]
    takes its name and issues a fresh one, which is not on the list. *)
Theorem revoked_certificate_renews :
  let sign := fun (csr name : string) (t : Z) => Some ("pem", "fp2") in
  let g := with_revoked (Some {["fp1" := 0]}) ci_gateway in
  revoked_peer {["fp1" := 0]} ci_context /\
  fst (run (mem_handler Gw) (serveUnary false ci_context "/sandbox.v1.SandboxService/Exec" ping)
         (g, emptied_cluster)) = Done (Err (Status PermissionDenied)) /\
  fst (run (mem_handler Gw)
         (serveUnary false ci_context loginMethod (Login sign ci_context "csr"))
         (g, emptied_cluster)) = Done (Ok ("pem", 90)) /\
  ({["fp1" := 0]} : gmap string Z) !! "fp2" = None.
Proof.
  split.
  - exists ci_peer, ci_cert, []. split; [done|]. split; [done|]. by eexists.
  - by vm_compute.
Qed.
