(* ===== verification/E2bFacts.v ===== *)
(** * What becomes of a sandbox of the E2B server

    Theorems about the handlers of [E2bControl] and the two stores of
    [E2bState], and the worlds on which the theorems of [E2bReaper],
    [Isolation] and [Signed] are witnessed. *)
From Stdlib Require Import ZArith Lia.
From S2P Require Import Prelude Prog Kube Lens SessionEnv GoTime Sha256 Orchestrator Samples Gateway Rules Lifecycle Connect Signed E2bState E2bLaws E2bControl Isolation E2bReaper Auth.

#[local] Open Scope Z_scope.

(** ** Reading a session *)

Lemma gwErrorToE2B_status e : 400 <= StatusCode (gwErrorToE2B e).
Proof. destruct e as [[]| |]; simpl; lia. Qed.

Lemma GetSessionRPC_reads faults keys id (u : Gw * Cluster) :
  wp (kube_contract Gw faults) (GetSessionRPC keys id) (fun o u' => (exists r, o = Done r) /\ u' = u) u.
Proof.
  destruct u as [g c]. unfold GetSessionRPC. case_decide; [by split; [eexists|]|].
  apply wp_bind, wp_zoom. intros r u1 [-> _]. apply wp_ret. cbn [fst snd]. rewrite with_part_part.
  destruct r as [s|e]; [|by split; [eexists|]].
  apply wp_bind, wp_zoom. intros n u2 [_ ->]. apply wp_ret. cbn [fst snd].
  split; [by eexists|]. by rewrite with_part_part.
Qed.

(** ** Creation *)

Section creation.
Context `{QP : QuantityParser} {R : Type} `{ST : StateStore R} (faults : bool).
Context {SL : StoreLaws faults sandboxNS R}.
Context (keys : SandboxSession -> list string) (cfg : Config).
#[local] Notation C := (kube_contract (E2B R) faults).

(** A session as a creation without tenant leaves it in the cluster. *)
Definition bare (id : string) (c : Cluster) : Prop :=
  exists s, session_at sandboxNS id c = Some s /\ TenantID (s_spec s) = "" /\ s_status s = empty_status.

Lemma bare_same id c c' : same_session (session_at sandboxNS id c) (session_at sandboxNS id c') ->
  bare id c -> bare id c'.
Proof.
  intros Hs (s & Es & H1 & H2). rewrite Es in Hs. unfold bare.
  destruct (session_at sandboxNS id c') as [s'|]; [|done]. destruct Hs as [E1 E2].
  exists s'. by rewrite E1, E2.
Qed.

Lemma CreateSessionRPC_bare req (u : Gw * Cluster) :
  wf (snd u) -> cr_sessionID req <> "" -> cr_tenantID req = "" ->
  wp (kube_contract Gw faults) (CreateSessionRPC req) (fun o u' =>
    forall p, o = Done (Ok p) -> bare (cr_sessionID req) (snd u')) u.
Proof.
  destruct u as [g c]. intros Hwf Hid Ht. unfold CreateSessionRPC.
  destruct (validateSessionEnv _ _); [by intros p|]. destruct (validateSecretRefs _); [by intros p|].
  apply wp_bind, wp_zoom. eapply wp_mono; [|by apply wp_wf].
  intros o [m1 c1] W1. destruct o as [[u1|e]|]; [|by intros p|by intros p].
  apply wp_bind, wp_zoom. unfold CreateSession.
  apply wp_bind. eapply wp_mono; [|by apply wp_wf].
  intros o [m2 c2] W2. destruct o as [[[[hosts ttl] cpu] memory]|]; [|by intros p].
  eapply wp_mono; [|by apply createSession_stored].
  intros o [m3 c3] H3. destruct o as [[s|e]|]; [|by intros p|by intros p].
  intros p _. destruct (H3 s eq_refl) as (_ & _ & Hn & s0 & H0 & T0 & S0 & _).
  exists s0. unfold session_at. rewrite (Hn Hid) in H0. by rewrite T0, Ht.
Qed.

(** The creation of a sandbox without a name, up to its answer. *)
Lemma handleCreate_bare rand b v :
  wf (snd v) -> default "" (sanitizeMetadata (cb_metadata b) !! "name") = "" ->
  wp C (handleCreate keys cfg rand (Some b)) (fun o v' =>
    forall r, o = Done r -> rs_status r = 201 -> bare ("e2b-" +:+ rand) (snd v')) v.
Proof.
  intros Hwf Hname. unfold handleCreate.
  destruct (parseSandboxTimeout _) as [[seconds never]|err] eqn:Hp.
  2:{ intros r [= <-] Hst. unfold parseSandboxTimeout in Hp. repeat case_match; simplify_eq. }
  cbv zeta. rewrite Hname. destruct (resolveRuntimeClass _ _) as [rc|]; [|intros r [= <-]; done].
  unfold reacquireByKey. rewrite decide_True by done. apply wp_ret_bind. rewrite decide_True by done.
  destruct v as [x c]. apply wp_gateway with (P := fun o u' => wf (snd u') /\
    forall p, o = Done (Ok p) -> bare ("e2b-" +:+ rand) (snd u')).
  { apply wp_and; [by apply wp_wf|]. by apply CreateSessionRPC_bare. }
  intros o g c1 [W1 H1]. destruct o as [[p|e]|]; [|intros r [= <-] Hst; pose proof (gwErrorToE2B_status e); simpl in Hst; lia|by intros r].
  specialize (H1 p eq_refl). cbn [snd] in *.
  apply (wp_call C Now). intros t1 v1 [_ ->]. cbn [fst snd].
  apply wp_bind. apply (wp_mono _ _ (fun o v' => wf (snd v') /\ bare ("e2b-" +:+ rand) (snd v'))).
  2:{ destruct never; [split; [simpl; by apply wf_set_clock|exact H1]|]. apply (wp_call C Now). intros t2 v2 [_ ->].
      split; [simpl; by apply wf_set_clock, wf_set_clock|exact H1]. }
  intros o [x2 c2] [W2 H2]. destruct o as [deadline|]; [|by intros r].
  apply (wp_store faults) with (P := fun o u' => bare ("e2b-" +:+ rand) (snd u')).
  { eapply wp_mono; [|by apply put_law]. intros o' [r3 c3] (-> & _ & Hs & _). by eapply bare_same. }
  intros o' r3 c3 H3. destruct o'; by intros r.
Qed.

(** A sandbox the E2B API has created without a name can never be paused:
    it belongs to no tenant and records no workspace, so the pause that
    follows is refused, whatever [autoPause] was asked for. *)
Theorem created_cannot_pause rand b v :
  wf (snd v) -> default "" (sanitizeMetadata (cb_metadata b) !! "name") = "" ->
  wp C (do r <- handleCreate keys cfg rand (Some b);
        if rs_status r =? 201 then do p <- gw (PauseSessionRPC ("e2b-" +:+ rand)); Ret (Some p)
        else Ret None)
    (fun o v' => forall p, o = Done (Some p) -> exists e, p = Err e) v.
Proof.
  intros Hwf Hname. apply wp_bind. eapply wp_mono; [|by apply handleCreate_bare].
  intros o v1 H1. destruct o as [r|]; [|by intros p].
  destruct (rs_status r =? 201) eqn:Hst; [|by intros p].
  apply Z.eqb_eq in Hst. destruct (H1 r eq_refl Hst) as (s & Hs & Ht & Hstat).
  apply wp_bind. eapply wp_mono; [|apply (pause_refused faults)].
  - intros o' v2 [[e ->] _]. intros p [= <-]. by exists e.
  - intros s' Hs'. pose proof (eq_trans (eq_sym Hs) Hs') as [= <-]. right. by rewrite Hstat.
Qed.
End creation.

(** ** The bookkeeping in the session objects *)

Section crd.
Context `{SJ : StateJSON, LZ : LocalZone} (ns : string).
#[local] Notation C := (kube_contract NameCache false).

(** An entry written to the annotation of an existing session is read
    back, times rounded down to the second, on an API server that answers. *)
Theorem crd_entry_round_trip e (u : NameCache * Cluster) :
  wf (snd u) -> is_Some (cl_sessions (snd u) !! (ns, re_sandboxID e)) -> crd_valid e ->
  wp C (do! crd_put ns e; crd_get ns (re_sandboxID e)) (fun o u' =>
    o = Done (Some (mkEntry (re_sandboxID e) (to_second <$> re_deadlineAt e) (re_onDeadline e)
                      (to_second <$> re_createdAt e) (re_metadata e) (re_runtimeName e) (re_pausedByUser e)))) u.
Proof.
  intros Hwf Hs Hv. apply wp_bind. eapply wp_mono; [|apply (@put_law _ _ _ _ (crd_laws false ns)); exact Hwf].
  intros o u1 (-> & [[_ W] _] & _ & _ & He). specialize (He eq_refl Hs Hv).
  eapply wp_mono; [|apply (@get_law _ _ _ _ (crd_laws false ns)); by apply W].
  intros o u2 [_ [->|[H _]]]; [|done]. by rewrite He.
Qed.
End crd.

(** ** A session made by other means *)

Section native.
Context `{QP : QuantityParser, SJ : StateJSON, LZ : LocalZone}.
Context (keys : SandboxSession -> list string) (cfg : Config).
#[local] Instance session_store : StateStore NameCache := crdStateStore sandboxNS.
#[local] Instance session_store_laws : StoreLaws false sandboxNS NameCache := crd_laws false sandboxNS.
#[local] Notation C := (kube_contract (E2B NameCache) false).
Implicit Types v : E2B NameCache * Cluster.

(** The session carries no E2B bookkeeping. *)
Definition native (id : string) (c : Cluster) : Prop :=
  exists u, session_at sandboxNS id c = Some u /\ m_annots (s_meta u) !! e2bStateAnnotation = None.

Lemma native_entry id v : native id (snd v) ->
  ent false v id = Some (mkEntry id None "" None ∅ "" false).
Proof. intros (u & Hu & Ha). unfold ent. simpl. unfold crd_entry. simpl. rewrite Hu. simpl. unfold readState. by rewrite Ha. Qed.

(** [extendDeadline] on it. *)
Lemma extend_native id seconds v : wf (snd v) -> native id (snd v) ->
  wp C (registry (extendDeadline id seconds)) (fun o v' => (exists r, o = Done r) /\ exists t, cl_clock (snd v) <= t /\
    (in_service (seconds_from t seconds) -> doomed v' id (to_second (seconds_from t seconds)))) v.
Proof.
  destruct v as [x c]. intros Hwf Hn. pose proof (native_entry id (x, c) Hn) as He.
  apply wp_zoom. eapply wp_mono; [|by apply extend_law]. intros o [r c'] (_ & _ & _ & H).
  specialize (H eq_refl). change (entry_of (part x, c) id) with (ent false (x, c) id) in H. rewrite He in H.
  destruct H as (t & Ht & -> & H). split; [by eexists|]. exists t. split; [done|]. intros Hs.
  eexists. split; [apply H|]; [|split; [done|by left]].
  split; [done|]. split; [done|]. split; [by apply utf8_ascii|]. split; [by apply utf8_ascii|]. apply map_Forall_empty.
Qed.

(** Connecting through the E2B API to a session that was not made through
    it gives the session a deadline, after which the scanner destroys it: the
    sandbox is then one of those of [gc_loop_reaps]. *)
Theorem connect_dooms_native id timeout v :
  wf (snd v) -> native id (snd v) -> timeout <> Some NeverTimeout ->
  wp C (handleConnect keys cfg id timeout) (fun o v' =>
    forall r, o = Done r -> rs_status r = 200 -> exists t, cl_clock (snd v) <= t /\
      let d := seconds_from t (default DefaultTimeoutSeconds timeout) in
      (in_service d -> doomed v' id (to_second d))) v.
Proof.
  intros Hwf Hn Ht. unfold handleConnect.
  destruct (parseSandboxTimeout timeout) as [[seconds never]|err] eqn:Hp.
  2:{ intros r [= <-] Hst. unfold parseSandboxTimeout in Hp. repeat case_match; simplify_eq. }
  assert (never = false /\ seconds = default DefaultTimeoutSeconds timeout) as [-> ->].
  { unfold parseSandboxTimeout in Hp. repeat case_match; simplify_eq; try done.
    destruct Ht. f_equal. by apply Z.eqb_eq. }
  destruct v as [x c]. apply (wp_gateway false) with (P := fun o u' => (exists r, o = Done r) /\ u' = (x_gw x, c)).
  { apply GetSessionRPC_reads. }
  intros o g c1 [[r ->] [= -> ->]]. rewrite with_own_gw. cbv zeta.
  destruct r as [sess|e].
  2:{ intros r [= <-] Hst. pose proof (gwErrorToE2B_status e). simpl in Hst. lia. }
  destruct (decide (sessionState (gs_Phase sess) = stateDead)) as [Hd|Hd]; [by intros r [= <-]|].
  destruct (decide (sessionState (gs_Phase sess) = statePaused)) as [Hs|Hs].
  - apply wp_bind, wp_bind. eapply wp_mono; [|apply wp_true]. intros o v1 _.
    destruct o as [[u|e]|]; [| |by intros r].
    + apply wp_bind. eapply wp_mono; [|apply wp_true]. intros o v2 _. destruct o; [|by intros r].
      apply wp_bind. eapply wp_mono; [|apply wp_true]. intros o v3 _. destruct o as [e|]; [|by intros r].
      apply wp_bind. eapply wp_mono; [|apply wp_true]. intros o v4 _. destruct o; [|by intros r].
      by intros r [= <-].
    + intros r [= <-] Hst. pose proof (gwErrorToE2B_status e). simpl in Hst. lia.
  - apply wp_ret_bind. apply (wp_store_get false); [done| |done].
    rewrite (native_entry id (x, c) Hn). apply wp_assoc, wp_bind.
    eapply wp_mono; [|by apply extend_native]. intros o v1 ([r ->] & t & Hc & Hdoom).
    intros r' [= <-] _. by exists t.
Qed.
End native.

(** ** Sample texts *)

(** A process in UTC. *)
Lemma service_range t : in_service t -> rfc3339_range t.
Proof.
  intros H. unfold rfc3339_range, civil_of_days. unfold in_service, second in *.
  set (z := t / 1000000000 / 86400 + 719468).
  assert (719468 <= z < 803474) as Hz.
  { unfold z. pose proof (Z.div_pos t 1000000000). pose proof (Z.div_lt_upper_bound t 1000000000 7258118400).
    pose proof (Z.div_pos (t / 1000000000) 86400).
    pose proof (Z.div_lt_upper_bound (t / 1000000000) 86400 84006). lia. }
  assert (0 <= z / 146097 <= 5) by (split; [apply Z.div_pos; lia|]; apply Z.lt_succ_r, Z.div_lt_upper_bound; lia).
  pose proof (Z.mod_pos_bound z 146097 ltac:(lia)) as Hm. set (doe := z `mod` 146097) in *.
  unfold civil_of_doe, year_of_doe.
  set (c := Z.min (doe / 36524) 3). set (r := doe - c * 36524). set (r2 := r - r / 1461 * 1461).
  assert (0 <= doe / 36524 <= 4) by (split; [apply Z.div_pos; lia|]; apply Z.lt_succ_r, Z.div_lt_upper_bound; lia).
  assert (0 <= c <= 3) by lia.
  assert (0 <= r <= 36525).
  { unfold r, c. pose proof (Z.div_mod doe 36524 ltac:(lia)). pose proof (Z.mod_pos_bound doe 36524 ltac:(lia)). lia. }
  assert (0 <= r / 1461 <= 25) by (split; [apply Z.div_pos; lia|]; apply Z.lt_succ_r, Z.div_lt_upper_bound; lia).
  assert (0 <= r2) by (unfold r2; pose proof (Z.div_mod r 1461 ltac:(lia)); pose proof (Z.mod_pos_bound r 1461 ltac:(lia)); lia).
  assert (0 <= r2 / 365) by (apply Z.div_pos; lia).
  destruct (month_of_doy _) as [m d]. case_match; lia.
Qed.

Lemma pad_ascii n z : all_chars is_ascii (GoTime.pad n z) = true.
Proof.
  induction n as [|n IH]; [done|]. cbn [GoTime.pad all_chars]. rewrite IH, andb_true_r.
  pose proof (Z.mod_pos_bound (z / 10 ^ Z.of_nat n) 10 ltac:(lia)) as Hd.
  set (d := (z / 10 ^ Z.of_nat n) `mod` 10) in *.
  assert (d = 0 \/ d = 1 \/ d = 2 \/ d = 3 \/ d = 4 \/ d = 5 \/ d = 6 \/ d = 7 \/ d = 8 \/ d = 9) as H by lia.
  repeat destruct H as [->|H]; try reflexivity. by rewrite H.
Qed.

Lemma format_ascii t : all_chars is_ascii (format_rfc3339 t) = true.
Proof.
  unfold format_rfc3339. destruct (civil_of_days _) as [[y m] d].
  rewrite !all_chars_app, !pad_ascii. done.
Qed.

#[local] Instance utc : LocalZone.
Proof.
  refine (mkZone format_rfc3339 _ _); [intros t _; apply format_ascii|].
  intros t Ht. by apply parse_format_rfc3339, service_range.
Defined.

Definition tuple_of_state (s : e2bState) :=
  (es_deadlineAt s, es_onDeadline s, es_createdAt s, es_metadata s, es_runtimeName s, es_pausedByUser s).
Definition state_of_tuple (t : string * string * string * gmap string string * string * bool) : e2bState :=
  let '(a, b, c, d, e, f) := t in mkE2bState a b c d e f.

#[local] Instance sample_state_json : StateJSON.
Proof.
  refine (mkStateJSON (fun _ => True) _ (fun s => String Ascii.one (bits (encode (tuple_of_state s))))
    (fun s => match s with EmptyString => None | String _ s => state_of_tuple <$> decode (unbits s) end) _ _);
    [done|done|].
  intros st _ _ _ _ _. rewrite unbits_bits, decode_encode. by destruct st.
Defined.

(** ** Sample worlds *)

(** A postcondition proved against the contract holds of a run against the
    sample server. *)
Lemma sample_run {M A} (p : prog (gwE M) A) (Q : outcome A -> M * Cluster -> Prop) v :
  wp (kube_contract M false) p Q v ->
  Q (fst (run (live_handler M) p v)) (snd (run (live_handler M) p v)).
Proof. exact (wp_sound (kube_contract M false) (live_handler M) id p Q v (live_handler_respects false M)). Qed.

Definition env_keys (s : SandboxSession) : list string := (map_to_list (Env (s_spec s))).*1.
Definition sample_config : Config := mkConfig "secret" ∅.

(** Sandbox [s1] of the cluster [c], to be killed or paused at [d]. *)
Definition sample_entry (onDeadline : string) (d : Z) : registryEntry :=
  mkEntry "s1" (Some d) onDeadline (Some 0) ∅ "gvisor" false.
Definition sandbox_world (onDeadline : string) (d : Z) (c : Cluster) : E2B Registry * Cluster :=
  (mkE2B (NewServer false) (mkRegistry {["s1" := sample_entry onDeadline d]} ∅) ∅, c).

(** A cluster with room and a warm pod. *)
Definition big_node : Node := mkNode (mkMeta "" "n1" "" ∅ ∅ 2 0) (mkQuantity (2 ^ 40) (2 ^ 40 * 1000)) (mkQuantity 64 64000).
Definition roomy : Cluster :=
  mkCluster 0 3 (cl_pods (snd warm_world)) ∅ ∅ ∅ ∅ ∅ {[("", "n1") := big_node]} ∅.
Definition empty_server : E2B Registry * Cluster := (mkE2B (NewServer false) newSandboxRegistry ∅, roomy).

(** The same server on the session objects. *)
Definition crd_world (c : Cluster) : E2B NameCache * Cluster := (mkE2B (NewServer false) ∅ ∅, c).

Definition status_of_run (r : outcome Response) : Z := match r with Done r => rs_status r | Panicked => 0 end.

Definition pauseBody : createBody := mkCreateBody "" (Some 60) ∅ ∅ [] true.

(** ** Witnesses *)

Lemma gc_spares_living_witness :
  let v := sandbox_world "kill" (100 * second) (snd session_world) in
  let v' := snd (run (live_handler _) gcExpired v) in
  cl_sessions (snd v') !! (sandboxNS, "s1") = Some active_session.
Proof.
  cbv zeta. destruct (sample_run _ _ _ (gc_spares_living false
    (sandbox_world "kill" (100 * second) (snd session_world)) session_world_wf)) as (_ & now & Hc & H).
  destruct (H "s1") as [H1 _]; [|exact H1].
  intros (e & d & He & Hd & Hle). injection He as <-. injection Hd as <-.
  assert (cl_clock (snd (snd (run (live_handler (E2B Registry)) gcExpired
    (sandbox_world "kill" (100 * second) (snd session_world))))) < 100 * second) as Hlt by by vm_compute.
  destruct Hc as [_ Hc]. apply (Z.lt_irrefl now). eapply Z.le_lt_trans; [exact Hc|].
  eapply Z.lt_le_trans; [exact Hlt|exact Hle].
Defined.

Lemma gc_loop_reaps_witness :
  let v := sandbox_world "kill" (20 * second) (snd session_world) in
  let r := run (live_handler _) (gcLoop 2) v in
  fst r = Done true /\ cl_sessions (snd (snd r)) !! (sandboxNS, "s1") = None.
Proof.
  cbv zeta. split; [by vm_compute|].
  destruct (sample_run _ _ _ (gc_loop_reaps 2 (sandbox_world "kill" (20 * second) (snd session_world)) "s1"
    (20 * second) session_world_wf ltac:(eexists; split; [reflexivity|split; [done|by left]]) ltac:(lia)
    ltac:(by vm_compute))) as [_ H]. apply H. by vm_compute.
Defined.

(** The user asked for the sandbox to be paused at its deadline: the first
    sweep pauses it, the second destroys it. *)
Lemma paused_sandbox_reaped_witness :
  let v := sandbox_world "pause" 0 (snd session_world) in
  let v1 := snd (run (live_handler _) gcExpired v) in
  (Phase ∘ s_status <$> cl_sessions (snd v1) !! (sandboxNS, "s1")) = Some SandboxPhasePaused /\
  cl_sessions (snd (snd (run (live_handler _) gcExpired v1))) !! (sandboxNS, "s1") = None.
Proof.
  cbv zeta. set (v1 := snd (run (live_handler (E2B Registry)) gcExpired (sandbox_world "pause" 0 (snd session_world)))).
  assert ((Phase ∘ s_status <$> cl_sessions (snd v1) !! (sandboxNS, "s1")) = Some SandboxPhasePaused) as Hp
    by by vm_compute.
  split; [exact Hp|].
  destruct (cl_sessions (snd v1) !! (sandboxNS, "s1")) as [s|] eqn:Hs; [|discriminate Hp].
  assert (wf (snd v1)) as Hwf by (apply wf_check_sound; by vm_compute).
  assert (exists e, ent false v1 "s1" = Some e /\ re_deadlineAt e = Some 0) as (e & He & Hd)
    by (eexists; split; by vm_compute).
  assert (0 <= cl_clock (snd v1)) as Hc by (by vm_compute).
  injection Hp as Hp.
  exact (proj2 (sample_run _ _ _ (paused_sandbox_reaped v1 "s1" s e 0 Hwf Hs Hp He Hd Hc))).
Defined.

Lemma created_cannot_pause_witness :
  let r := run (live_handler _)
    (do r <- handleCreate env_keys sample_config "x1" (Some pauseBody);
     if rs_status r =? 201 then do p <- gw (PauseSessionRPC ("e2b-" +:+ "x1")); Ret (Some p) else Ret None)
    empty_server in
  exists p e, fst r = Done (Some p) /\ p = Err e.
Proof.
  cbv zeta. assert (wf (snd empty_server)) as Hwf by (apply wf_check_sound; by vm_compute).
  pose proof (sample_run _ _ _ (created_cannot_pause false env_keys sample_config "x1" pauseBody empty_server
    Hwf eq_refl)) as H.
  destruct (fst (run _ _ _)) as [[p|]|] eqn:E in H |- *; [|by vm_compute in E..].
  destruct (H p eq_refl) as [e ->]. clear E H. by exists (Err e), e.
Defined.

Lemma crd_entry_round_trip_witness :
  fst (run (live_handler _) (do! crd_put sandboxNS (sample_entry "pause" (5 * second + 7)); crd_get sandboxNS "s1")
         (∅, snd session_world)) =
    Done (Some (sample_entry "pause" (5 * second))).
Proof.
  exact (sample_run _ _ _ (crd_entry_round_trip sandboxNS (sample_entry "pause" (5 * second + 7)) (∅, snd session_world)
    session_world_wf ltac:(by eexists)
    ltac:(split; [by unfold time_ok, in_service, second; simpl; lia|];
          split; [by unfold time_ok, in_service, second; simpl; lia|];
          split; [done|]; split; [done|]; apply map_Forall_empty))).
Defined.

Lemma connect_dooms_native_witness :
  let r := run (live_handler _) (handleConnect (ST := crdStateStore sandboxNS) env_keys sample_config "s1" None)
    (crd_world (snd session_world)) in
  status_of_run (fst r) = 200 /\
  exists t, 0 <= t /\ (in_service (seconds_from t 300) -> doomed (SL := crd_laws false sandboxNS)
    (snd r) "s1" (to_second (seconds_from t 300))).
Proof.
  cbv zeta. assert (status_of_run (fst (run (live_handler _) (handleConnect (ST := crdStateStore sandboxNS) env_keys
    sample_config "s1" None) (crd_world (snd session_world)))) = 200) as Hst by by vm_compute.
  split; [exact Hst|].
  pose proof (sample_run _ _ _ (connect_dooms_native env_keys sample_config "s1" None (crd_world (snd session_world))
    session_world_wf ltac:(by eexists) ltac:(done))) as H.
  destruct (fst (run _ _ _)) as [r|] eqn:E in H, Hst; [|discriminate Hst].
  exact (H r eq_refl Hst).
Defined.

Lemma sessions_isolated_witness :
  let v : Gw * Cluster := (NewServer false, snd sub_agent_world) in
  cl_sessions (snd (snd (run (live_handler _) (DestroySessionRPC "s1") v))) !! (sandboxNS, "c1") = Some sub_agent.
Proof.
  cbv zeta. assert (wf (snd sub_agent_world)) as Hwf by (apply wf_check_sound; by vm_compute).
  destruct (sample_run _ _ _ (sessions_isolated false "s1" "c1" (NewServer false, snd sub_agent_world) false Hwf
    ltac:(done))) as (_ & H & _). exact H.
Defined.

Definition sample_material : signatureMaterial := mkMaterial "a.txt" "read" "" (Some 100).

Lemma signature_binds_witness :
  signatureMatches (fileSignature (mintEnvdToken "k" "s1") sample_material) "s1" "k" sample_material = true /\
  sample_material = sample_material.
Proof.
  assert (forall n, Some 100 = Some n -> in_int64 n) as Hn by (intros n [= <-]; unfold in_int64; lia).
  assert (Forall (fun m => no_char colon (sm_operation m) = true /\ no_char colon (sm_username m) = true /\
    (forall n, sm_expirationUnix m = Some n -> in_int64 n)) [sample_material; sample_material]) as Hf.
  { apply Forall_cons; split; [by split|]. apply Forall_cons; split; [by split|]. by apply Forall_nil. }
  assert (signatureMatches (fileSignature (mintEnvdToken "k" "s1") sample_material) "s1" "k" sample_material = true)
    as Hm by by vm_compute.
  exact (conj Hm (proj1 (signature_binds "k" "s1" "s1" sample_material sample_material Hf
    (fun _ => eq_refl) (fun _ => eq_refl) Hm))).
Defined.
