(* ===== verification/Access.v ===== *)
(** * Reaching a sandbox

    Properties of [Gateway]'s calls into a pod: the environment a command
    gets, the address it is sent to, package specifiers, and the answers. *)
From Stdlib Require Import QArith_base.
From S2P Require Import Prelude Prog Kube Lens SessionEnv GoTime Orchestrator RateLimit ApiKey Gateway Rules Samples Lifecycle.

#[local] Open Scope Z_scope.

(** ** The environment *)

(** What the secrets in the cluster give for a list of references: the values
    of later references win, and a missing secret or key is fatal. *)
Fixpoint overlay (c : Cluster) (refs : list SecretRef) (out : gmap string string)
    : option (gmap string string) :=
  match refs with
  | [] => Some out
  | r :: refs =>
      match store KSecret c !! (sandboxNS, sr_secretName r) ≫= (fun s => sec_data s !! sr_key r) with
      | Some v => overlay c refs (<[sr_envVar r := v]> out)
      | None => None
      end
  end.

Section env.
Implicit Types (g : Gw) (c : Cluster).

Abbreviation C := (kube_contract Gw false).

Lemma resolveRefs_wp refs out g c :
  wp C (resolveRefs refs out)
    (fun o v' => v' = (g, c) /\
       o = Done (match overlay c refs out with
                 | Some env => Ok env | None => Err (Status FailedPrecondition) end)) (g, c).
Proof.
  revert out. induction refs as [|r refs IH]; intros out; [done|].
  cbn [resolveRefs overlay]. unfold readSecretKey. apply wp_assoc.
  destruct (store KSecret c !! (sandboxNS, sr_secretName r)) as [sec|] eqn:Hsec; cbn [option_bind mbind].
  - apply (wp_get_some KSecret _ _ sec); [done|]. apply wp_ret_bind.
    destruct (sec_data sec !! sr_key r) as [v|]; [apply IH|done].
  - by apply (wp_get_none KSecret).
Qed.

(** What a command of session [id] gets for its environment. *)
Definition env_of (c : Cluster) (id : string) : res (gmap string string) :=
  match store KSession c !! (sandboxNS, id) with
  | None => Ok ∅
  | Some s => match overlay c (SecretRefs (s_spec s)) (Env (s_spec s)) with
              | Some env => Ok env
              | None => Err (Status FailedPrecondition)
              end
  end.

Lemma resolveSessionEnv_wp id g c :
  wp C (resolveSessionEnv id) (fun o v' => v' = (g, c) /\ o = Done (env_of c id)) (g, c).
Proof.
  unfold env_of. change (resolveSessionEnv id) with
    (do r <- call (Get KSession sandboxNS id);
     match r with
     | Err _ => Ret (Ok ∅)
     | Ok sess => resolveRefs (SecretRefs (s_spec sess)) (Env (s_spec sess))
     end : gwP _).
  destruct (store KSession c !! (sandboxNS, id)) as [s|] eqn:Hs.
  - apply (wp_get_some KSession _ _ s); [done|]. apply resolveRefs_wp.
  - by apply (wp_get_none KSession).
Qed.

(** ** Addresses *)

(** The pod of a session, as [getPodIP] answers when the address is recorded. *)
Definition recorded_ip (c : Cluster) (s : SandboxSession) (id : string) : res string :=
  if decide (list_objs KPod sandboxNS (SelEq labelSessionID id) c = [])
  then Err (Status NotFound) else Ok (PodIP (s_status s)).

Lemma getPodIP_recorded id s g c :
  store KSession c !! (sandboxNS, id) = Some s -> PodIP (s_status s) <> "" ->
  wp C (getPodIP id) (fun o v' => v' = (g, c) /\ o = Done (recorded_ip c s id)) (g, c).
Proof.
  intros Hs Hip. unfold getPodIP. apply (wp_get_some KSession _ _ s); [done|].
  rewrite decide_True by done. apply (wp_list KPod). intros l Hl. split; [done|].
  unfold recorded_ip. cbn [snd] in Hl. destruct l as [|p l].
  - apply Permutation_nil_l in Hl. by rewrite <-Hl, decide_True.
  - rewrite decide_False; [done|]. intros He. rewrite He in Hl. by apply Permutation_nil_r in Hl.
Qed.

Lemma first_ip_Some (l : list Pod) (ip : string) :
  first_ip l = Some ip -> ip <> "" /\ exists p, p ∈ l /\ pst_podIP (p_status p) = ip.
Proof.
  unfold first_ip. intros H%head_Some_elem_of.
  apply list_elem_of_filter in H as [Hne (p & -> & Hp)%list_elem_of_fmap]. eauto.
Qed.

Lemma first_ip_None (l : list Pod) :
  first_ip l = None -> Forall (fun p : Pod => pst_podIP (p_status p) = "") l.
Proof.
  unfold first_ip. rewrite head_None. intros H. apply Forall_forall. intros p Hp.
  apply dec_stable. intros Hne.
  assert (pst_podIP (p_status p) ∈ filter (fun ip => ip <> "") ((fun p : Pod => pst_podIP (p_status p)) <$> l))
    as Hin by (apply list_elem_of_filter; split; [done|apply list_elem_of_fmap; by exists p]).
  rewrite H in Hin. by apply elem_of_nil in Hin.
Qed.

(** The time the next [n] rounds wait. *)
Fixpoint waits (n : nat) (wait maxWait : Z) : Z :=
  match n with
  | O => 0
  | S n => wait + waits n (if maxWait <? wait * 2 then maxWait else wait * 2) maxWait
  end.

Definition pod_of (c : Cluster) (id ip : string) : Prop :=
  exists p, p ∈ list_objs KPod sandboxNS (SelEq labelSessionID id) c /\ pst_podIP (p_status p) = ip.

Lemma pollRounds_wp n wait maxWait id g c :
  wp C (pollRounds n wait maxWait id)
    (fun o v' => fst v' = g /\ (exists t, cl_clock c <= t /\ snd v' = set_clock t c) /\
       ((exists ip, o = Done (Ok ip) /\ ip <> "" /\ pod_of c id ip) \/
        o = Done (Err (Status Canceled)) \/
        o = Done (Err (Status FailedPrecondition)) /\
          cl_clock c + waits n wait maxWait <= cl_clock (snd v') /\
          (n <> 0%nat -> forall ip, ip <> "" -> ~ pod_of c id ip))) (g, c).
Proof.
  revert wait c. induction n as [|n IH]; intros wait c.
  - split; [done|]. split; [exists (cl_clock c); split; [lia|by destruct c]|].
    right; right. cbn [waits snd]. split; [done|]. split; [lia|done].
  - cbn [pollRounds waits]. apply (wp_call C (Sleep wait)).
    intros ok [g1 c1] (t & Ht & Hok & [= -> ->]). cbn [fst snd] in *.
    destruct ok; cbn [negb].
    2:{ split; [done|]. split; [by exists t|]. by right; left. }
    specialize (Hok eq_refl). apply (wp_list KPod). intros l Hl. cbn [snd] in Hl.
    assert (list_objs KPod sandboxNS (SelEq labelSessionID id) (set_clock t c) =
            list_objs KPod sandboxNS (SelEq labelSessionID id) c) as He by done.
    rewrite He in Hl.
    destruct (first_ip l) as [ip|] eqn:Hip.
    + apply first_ip_Some in Hip as (Hne & p & Hp & Hpip). split; [done|]. split; [by exists t|].
      left. exists ip. split; [done|]. split; [done|]. exists p. split; [by rewrite <-Hl|done].
    + eapply wp_mono; [|apply IH]. intros o [g2 c2] (Hg & (t' & Ht' & Hc2) & Ho). cbn [fst snd] in *.
      subst. split; [done|]. split; [exists t'; split; [simpl in Ht'; lia|done]|].
      destruct Ho as [Ho|[Ho|(Ho & Htime & Hno)]]; [by left|by right; left|].
      right; right. split; [done|]. split; [simpl in *; lia|].
      intros _ ip Hne (p & Hp & Hpip). apply first_ip_None in Hip.
      rewrite Forall_forall in Hip. rewrite <-Hl in Hp. apply Hip in Hp. congruence.
Qed.
End env.

(** ** The requests sent to pods *)

Definition gwlog : Type := list (string * sbxReq).

Definition sent {X} (e : gwE Gw X) : gwlog :=
  match e with Sandboxd ip r => [(ip, r)] | _ => [] end.

(** The contract, with a record of the requests to sandboxd. *)
Definition logged : contract (gwE Gw) (Gw * Cluster * gwlog) :=
  fun X e v x v' => kube_contract Gw false X e (fst v) x (fst v') /\ snd v' = snd v ++ sent e.

Definition quiet_pods {A} (p : gwP A) : Prop := only true (fun X (e : gwE Gw X) => sent e = []) p.

Lemma logged_quiet {A} (p : gwP A) Q v log :
  quiet_pods p -> wp (kube_contract Gw false) p Q v ->
  wp logged p (fun o v' => Q o (fst v') /\ snd v' = log) (v, log).
Proof.
  revert v. induction p as [a|X e k IH|m]; intros v Hq; simpl; [done| |done].
  destruct Hq as [He Hq]. intros H x [v' log'] [HC Hlog]. simpl in HC, Hlog.
  rewrite He, app_nil_r in Hlog. subst log'. apply IH; [apply Hq|apply H, HC].
Qed.

Lemma pollRounds_quiet n wait maxWait id : quiet_pods (pollRounds n wait maxWait id).
Proof.
  revert wait. induction n as [|n IH]; intros wait; [done|].
  unfold quiet_pods. cbn [pollRounds]. apply only_bind; [by apply only_call|]. intros [|]; [|done].
  apply only_bind; [by apply only_call|]. intros r.
  destruct (match r with Ok l => first_ip l | Err _ => None end); [done|apply IH].
Qed.

Lemma getPodIP_quiet id : quiet_pods (getPodIP id).
Proof.
  apply only_bind; [by apply only_call|]. intros [s|e]; cbv beta iota zeta; [|done].
  case_decide; [|apply pollRounds_quiet]. apply only_bind; [by apply only_call|]. intros r. done.
Qed.

Lemma resolveSessionEnv_quiet id : quiet_pods (resolveSessionEnv id).
Proof.
  apply only_bind; [split; [done|]; intros x; exact I|]. intros [s|e]; [|done].
  generalize (Env (s_spec s)) as out. induction (SecretRefs (s_spec s)) as [|r refs IH]; intros out; [done|].
  apply only_bind; [apply only_bind; [by apply only_call|by intros []]|].
  intros [v|e]; [apply IH|done].
Qed.

(** A foreground command of a session whose pod address is recorded and
    whose pod exists: if one of the session's secret references cannot be
    resolved the call fails and nothing is sent; otherwise exactly one request
    is sent, to that address, with the command, the defaults for a missing
    timeout and working directory, and the session's environment overlaid with
    its secrets. *)
Theorem exec_request (req : ExecRequest) (s : SandboxSession) (g : Gw) (c : Cluster) (log : gwlog)
    (Hfg : er_background req = false)
    (Hs : store KSession c !! (sandboxNS, er_sessionId req) = Some s)
    (Hip : PodIP (s_status s) <> "")
    (Hpod : list_objs KPod sandboxNS (SelEq labelSessionID (er_sessionId req)) c <> []) :
  let timeout := if decide (er_timeout req = 0) then 30 else er_timeout req in
  let workdir := if decide (er_workdir req = "") then "/workspace" else er_workdir req in
  wp logged (Exec req)
    (fun o v' => match env_of c (er_sessionId req) with
       | Err e => o = Done (Err e) /\ snd v' = log
       | Ok env =>
           snd v' = log ++ [(PodIP (s_status s),
             SExec (sandboxdExecBody (er_sessionId req) (er_command req) timeout workdir env))] /\
           (o = Done (Err (Status Unavailable)) \/
            exists elapsed result, o = Done (Ok (execResponse req timeout elapsed result)))
       end) (g, c, log).
Proof.
  intros timeout workdir. unfold Exec. rewrite Hfg. apply wp_bind.
  eapply wp_mono; [|eapply logged_quiet; [apply getPodIP_quiet|by apply (getPodIP_recorded _ s)]].
  intros o [[g1 c1] log1] [[[= -> ->] ->] Hlog]. cbn [fst snd] in Hlog. subst log1.
  unfold recorded_ip. rewrite decide_False by done. apply wp_bind.
  eapply wp_mono; [|eapply logged_quiet; [apply resolveSessionEnv_quiet|apply resolveSessionEnv_wp]].
  intros o [[g1 c1] log1] [[[= -> ->] ->] Hlog]. cbn [fst snd] in Hlog. subst log1.
  destruct (env_of c (er_sessionId req)) as [env|e]; [|done].
  fold timeout workdir.
  apply (wp_call logged Now). intros start [v1 log1] [_ Hl1]. cbn [snd sent] in Hl1. rewrite app_nil_r in Hl1.
  apply (wp_call logged (Sandboxd _ _)). intros resp [v2 log2] [_ Hl2]. cbn [snd sent] in Hl2.
  apply (wp_call logged Now). intros t [v3 log3] [_ Hl3]. cbn [snd sent] in Hl3. rewrite app_nil_r in Hl3.
  subst. destruct resp as [[code body]|e]; cbn [wp snd]; (split; [done|]); [right; by eexists _, _|by left].
Qed.

(** ** Sub-agents *)

Lemma getPodIP_no_pod id g c :
  list_objs KPod sandboxNS (SelEq labelSessionID id) c = [] ->
  wp (kube_contract Gw false) (getPodIP id) (fun o _ => forall ip, o <> Done (Ok ip)) (g, c).
Proof.
  intros Hnone. unfold getPodIP. apply (wp_get KSession). cbn [snd].
  destruct (store KSession c !! (sandboxNS, id)) as [s|]; [|done].
  case_decide.
  - apply (wp_list KPod). intros l Hl. cbn [snd] in Hl. rewrite Hnone in Hl.
    apply Permutation_nil_r in Hl. by subst.
  - eapply wp_mono; [|apply pollRounds_wp]. intros o [g' c'] (_ & _ & Ho) ip ->.
    destruct Ho as [(ip' & _ & _ & p & Hp & _)|[Ho|[Ho _]]]; [|done..].
    rewrite Hnone in Hp. by apply elem_of_nil in Hp.
Qed.

(** Every pod's session label names a stored session. *)
Definition labels_name_sessions (c : Cluster) : Prop :=
  forall (i : key) (p : Pod) (id : string), store KPod c !! i = Some p ->
    labels_of (k := KPod) p !! labelSessionID = Some id ->
    is_Some (store KSession c !! (sandboxNS, id)).

(** A sub-agent cannot be reached: when [RunSubAgent] reports a child, in
    a cluster whose pods are labelled with existing sessions only, the address
    of the child's pod is refused, although the child shares its parent's. *)
Theorem sub_agent_unreachable (parentID : string) (g : Gw) (c : Cluster) (Hwf : wf c)
    (Hlabels : labels_name_sessions c) :
  wp (kube_contract Gw false) (zoom (RunSubAgent parentID))
    (fun o v' => forall child, o = Done (Ok child) ->
       wp (kube_contract Gw false) (getPodIP child) (fun o _ => forall ip, o <> Done (Ok ip)) v') (g, c).
Proof.
  apply wp_zoom. eapply wp_mono; [|by apply (RunSubAgent_wp false)].
  intros o [o' c'] (Hun & _ & Hchild) child Ho. cbn [fst snd] in *.
  destruct (Hchild child Ho) as (parent & cs & _ & _ & _ & Hnew & _ & _).
  pose proof (unchanged_pods _ _ _ Hun ltac:(set_solver)) as Hpods. cbn [snd] in Hpods.
  apply getPodIP_no_pod. apply elem_of_nil_inv. intros p.
  rewrite elem_of_list_objs. intros [Hsel [i Hi]].
  change (store KPod c') with (cl_pods c') in Hi. rewrite Hpods in Hi.
  unfold selected in Hsel. apply andb_true_iff in Hsel as [_ Hsel%bool_decide_eq_true].
  destruct (Hlabels i p child Hi Hsel) as [x Hx].
  change (cl_sessions c !! (sandboxNS, child) = Some x) in Hx. discriminate (eq_trans (eq_sym Hnew) Hx).
Qed.

(** ** Package specifiers *)

Lemma contains_app (a b sub : string) : contains b sub = true -> contains (a +:+ b) sub = true.
Proof. rewrite !contains_spec. intros (x & y & ->). exists (a +:+ x), y. by rewrite append_assoc. Qed.

(** A one-byte string occurs in a concatenation only if it occurs in a part. *)
Lemma contains_char_app (a b : string) (ch : Ascii.ascii) :
  contains (a +:+ b) (String ch "") = contains a (String ch "") || contains b (String ch "").
Proof.
  induction a as [|x a IH]; [done|]. rewrite append_cons. cbn [contains]. rewrite IH.
  unfold has_prefix. cbn [strip_prefix]. destruct (Ascii.eqb ch x); [|done]. done.
Qed.

Lemma contains_char_join (sep : string) (l : list string) (ch : Ascii.ascii) :
  contains sep (String ch "") = false ->
  Forall (fun w => contains w (String ch "") = false) l ->
  contains (join_with sep l) (String ch "") = false.
Proof.
  intros Hsep. induction 1 as [|w l Hw Hl IH]; [done|].
  destruct l as [|w' l]; [done|].
  change (join_with sep (w :: w' :: l)) with (w +:+ sep +:+ join_with sep (w' :: l)).
  by rewrite !contains_char_app, Hw, Hsep, IH.
Qed.

Lemma sanitizeAll_Ok (packages safe : list string) :
  sanitizeAll packages = Ok safe ->
  safe = packages /\ Forall (fun p => Forall (fun ch => contains p ch = false) pip_banned) packages.
Proof.
  revert safe. induction packages as [|p packages IH]; intros safe; cbn [sanitizeAll]; [by intros [= <-]|].
  unfold sanitizePipPackage.
  destruct (negb (pipPkgNameRe (cut_first p pip_seps))); [done|].
  destruct (existsb (contains p) pip_banned) eqn:E; [done|].
  destruct (sanitizeAll packages) as [l|e]; [|done]. intros [= <-].
  destruct (IH l eq_refl) as [-> H]. split; [done|]. constructor; [|done].
  by apply existsb_false_iff.
Qed.

Lemma sanitizeAll_Err (packages : list string) (e : error) :
  sanitizeAll packages = Err e -> e = Status InvalidArgument.
Proof.
  induction packages as [|p packages IH]; cbn [sanitizeAll]; [done|].
  destruct (sanitizePipPackage p); [|by intros [= <-]].
  destruct (sanitizeAll packages); [done|]. intros [= <-]. by apply IH.
Qed.

(** [PipInstall] either refuses without any effect, or runs one command
    that names exactly the given packages and holds none of the banned shell
    characters. *)
Theorem pip_install_command (id : string) (packages : list string) :
  PipInstall id packages = Ret (Err (Status InvalidArgument)) \/
  packages <> [] /\
  let cmd := "pip install --no-cache-dir " +:+ join_with " " packages in
  Forall (fun ch => contains cmd ch = false) pip_banned /\
  PipInstall id packages =
    (try r <- Exec (mkExecRequest id cmd 120 "" false "");
     Ret (Ok (es_stdout r +:+ es_stderr r, es_exitCode r))).
Proof.
  unfold PipInstall. destruct (decide (packages = [])) as [->|Hne]; [by left|].
  destruct (sanitizeAll packages) as [safe|e] eqn:E.
  - right. split; [done|]. apply sanitizeAll_Ok in E as [-> Hall]. cbv zeta. split; [|done].
    apply Forall_forall. intros ch Hch.
    assert (exists x, ch = String x "") as [x ->].
    { clear -Hch. unfold pip_banned in Hch.
      repeat (apply elem_of_cons in Hch as [->|Hch]; [by eexists|]). by apply elem_of_nil in Hch. }
    rewrite contains_char_app. apply orb_false_iff. split.
    + clear -Hch. unfold pip_banned in Hch.
      repeat (apply elem_of_cons in Hch as [[= ->]|Hch]; [by vm_compute|]). by apply elem_of_nil in Hch.
    + apply contains_char_join.
      * clear -Hch. unfold pip_banned in Hch.
        repeat (apply elem_of_cons in Hch as [[= ->]|Hch]; [by vm_compute|]). by apply elem_of_nil in Hch.
      * apply Forall_forall. intros p Hp. rewrite Forall_forall in Hall.
        specialize (Hall p Hp). rewrite Forall_forall in Hall. by apply Hall.
  - left. by rewrite (sanitizeAll_Err _ _ E).
Qed.

(** ** Waiting for an address *)

(** Waiting for a pod's address ends, at the latest after twelve rounds
    that wait 52 seconds in all: with the non-empty address of a pod labelled
    with the session, with the caller giving up, or, after at least the 52
    seconds, with the refusal, when no such pod has an address. *)
Theorem poll_for_pod_ip (id : string) (g : Gw) (c : Cluster) :
  wp (kube_contract Gw false) (pollForPodIP id)
    (fun o v' => fst v' = g /\ (exists t, cl_clock c <= t /\ snd v' = set_clock t c) /\
       ((exists ip, o = Done (Ok ip) /\ ip <> "" /\ pod_of c id ip) \/
        o = Done (Err (Status Canceled)) \/
        o = Done (Err (Status FailedPrecondition)) /\
          cl_clock c + 52 * second <= cl_clock (snd v') /\
          (forall ip, ip <> "" -> ~ pod_of c id ip))) (g, c).
Proof.
  eapply wp_mono; [|apply pollRounds_wp]. intros o v' (Hg & Ht & Ho). split; [done|]. split; [done|].
  change (waits 12 second (5 * second)) with (52 * second) in Ho. naive_solver.
Qed.

(** ** What an answer of sandboxd says *)

(** sandboxd answers every request with an HTTP error and no decodable body. *)
Definition failing_sandboxd : handler (gwE Gw) (Gw * Cluster) :=
  fun X e =>
    match e in gwE _ X return Gw * Cluster -> X * (Gw * Cluster) with
    | Sandboxd ip r => fun v => (Ok (500, None), v)
    | e => mem_handler Gw _ e
    end.

Definition session_gateway : Gw * Cluster := (NewServer false, snd session_world).

(** [Exec] does not look at the HTTP status: when sandboxd fails with 500,
    the command is reported as completed with exit code 0. *)
Theorem exec_ignores_http_status :
  fst (run failing_sandboxd (Exec (mkExecRequest "s1" "make test" 0 "" false "")) session_gateway) =
    Done (Ok (mkExecResponse "" "" 0 "s1" "" "completed" 0 false "")).
Proof. by vm_compute. Qed.

(** ** Witnesses *)

Lemma exec_request_witness :
  wp logged (Exec (mkExecRequest "s1" "ls" 0 "" false ""))
    (fun o v' =>
       snd v' = [] ++ [("10.0.0.1", SExec (sandboxdExecBody "s1" "ls" 30 "/workspace" ∅))] /\
       (o = Done (Err (Status Unavailable)) \/
        exists elapsed result, o = Done (Ok
          (execResponse (mkExecRequest "s1" "ls" 0 "" false "") 30 elapsed result))))
    (session_gateway, []).
Proof.
  exact (exec_request (mkExecRequest "s1" "ls" 0 "" false "") active_session (NewServer false)
    (snd session_world) [] eq_refl eq_refl ltac:(done) ltac:(by vm_compute)).
Defined.

Lemma sub_agent_unreachable_witness :
  wp (kube_contract Gw false) (zoom (RunSubAgent "s1"))
    (fun o v' => forall child, o = Done (Ok child) ->
       wp (kube_contract Gw false) (getPodIP child) (fun o _ => forall ip, o <> Done (Ok ip)) v')
    session_gateway /\
  is_ok (match fst (run (live_handler Gw) (zoom (RunSubAgent "s1")) session_gateway) with
         | Done r => r | Panicked => Err (Plain "") end) = true.
Proof.
  split; [|by vm_compute].
  apply (sub_agent_unreachable "s1" (NewServer false) (snd session_world)).
  - apply wf_check_sound. by vm_compute.
  - intros i p id Hp Hid.
    change (({[(sandboxNS, "p1") := active_pod]} : gmap key Pod) !! i = Some p) in Hp.
    apply lookup_singleton_Some in Hp as [<- <-].
    assert (id = "s1") as -> by (vm_compute in Hid; congruence). by eexists.
Defined.
