(* ===== verification/Terminal.v ===== *)
(** * Terminals

    [pkg/sandboxmatrix/grpc/terminal.go]: the registry that maps the
    gateway's terminal ids to terminals of sandboxd, the calls proxied
    through it, and the output stream.  The JSON decoding of a control frame
    and base64 are parameters. *)
From Stdlib Require Import QArith_base.
From S2P Require Import Prelude Prog Kube Lens SessionEnv GoTime Orchestrator RateLimit ApiKey Gateway Rules Samples Access.

#[local] Open Scope Z_scope.

Definition maxTerminals : Z := 10000.

Inductive TermSignal :=
  | SIGNAL_UNSPECIFIED | SIGNAL_INT | SIGNAL_TERM | SIGNAL_KILL | SIGNAL_TSTP | SIGNAL_HUP.

Definition terminalSignalName (sig : TermSignal) : res string :=
  match sig with
  | SIGNAL_INT => Ok "SIGINT"
  | SIGNAL_TERM => Ok "SIGTERM"
  | SIGNAL_KILL => Ok "SIGKILL"
  | SIGNAL_TSTP => Ok "SIGTSTP"
  | SIGNAL_HUP => Ok "SIGHUP"
  | SIGNAL_UNSPECIFIED => Err (Status InvalidArgument)
  end.

(** ** The registry *)

Definition forget_terminal (id : string) (g : Gw) : Gw :=
  with_terminals (delete id (g_terminals g)) (g_terminalSeq g) g.

Definition dropTerminal (id : string) : gwP unit := gmem (fun g => (tt, forget_terminal id g)).

Definition resolveTerminal (id : string) : gwP (res (string * Z)) :=
  do e <- gmem (fun g => (g_terminals g !! id, g));
  match e with
  | None => Ret (Err (Status NotFound))
  | Some e =>
      do r <- getPodIP (te_sessionID e);
      match r with
      | Err err => do! dropTerminal id; Ret (Err err)
      | Ok podIP => Ret (Ok (podIP, te_sandboxdID e))
      end
  end.

(** [terminalSeq] is a [uint64]. *)
Definition next_seq (seq : Z) : Z := (seq + 1) mod 2 ^ 64.

Definition terminalName (seq : Z) : string := "term-" +:+ itoa seq.

(** The critical section that records a terminal; [None]: the registry is
    full. *)
Definition addTerminal (sessionID : string) (sandboxdID : Z) (g : Gw) : option string * Gw :=
  if maxTerminals <=? Z.of_nat (size (g_terminals g)) then (None, g)
  else
    let seq := next_seq (g_terminalSeq g) in
    (Some (terminalName seq),
     with_terminals (<[terminalName seq := mkTerminal sessionID sandboxdID]> (g_terminals g)) seq g).

Record CreateTerminalRequest := mkCreateTerminal {
  ct_sessionId : string; ct_argv : list string; ct_workdir : string; ct_env : gmap string string;
  ct_rows : Z; ct_cols : Z;
}.

Definition ptyCreate (req : CreateTerminalRequest) : sbxReq :=
  SPtyCreate (ct_argv req) (ct_workdir req) (ct_env req)
    (if ct_rows req <=? 0 then 24 else ct_rows req) (if ct_cols req <=? 0 then 80 else ct_cols req).

(** Terminal id and pid. *)
Definition CreateTerminal (req : CreateTerminalRequest) : gwP (res (string * Z)) :=
  if decide (ct_sessionId req = "") then Ret (Err (Status InvalidArgument))
  else if decide (ct_argv req = []) then Ret (Err (Status InvalidArgument))
  else
    try podIP <- getPodIP (ct_sessionId req);
    do r <- sandboxdCall podIP (ptyCreate req);
    match r with
    | Err _ => Ret (Err (Status Unavailable))
    | Ok (_, None) => Ret (Err (Status Internal))
    | Ok (_, Some created) =>
        do id <- gmem (addTerminal (ct_sessionId req) (fst created));
        Ret (match id with
             | None => Err (Status ResourceExhausted)
             | Some id => Ok (id, snd created)
             end)
    end.

(** ** Proxied calls *)

Definition TerminalWrite (id text : string) : gwP (res bool) :=
  try t <- resolveTerminal id;
  do r <- sandboxdCall (fst t) (SPtyInput (snd t) text);
  Ret (match r with Err _ => Err (Status Unavailable) | Ok (code, _) => Ok (code =? 200) end).

Definition TerminalResize (id : string) (rows cols : Z) : gwP (res bool) :=
  try t <- resolveTerminal id;
  do r <- sandboxdCall (fst t) (SPtyResize (snd t) rows cols);
  Ret (match r with Err _ => Err (Status Unavailable) | Ok (code, _) => Ok (code =? 200) end).

Definition TerminalForeground (id : string) : gwP (res (Z * bool)) :=
  try t <- resolveTerminal id;
  do r <- sandboxdCall (fst t) (SPtyForeground (snd t));
  Ret (match r return res (Z * bool) with
       | Err _ => Err (Status Unavailable)
       | Ok (_, None) => Err (Status Internal)
       | Ok (_, Some fg) => Ok fg
       end).

Definition TerminalSignal (id : string) (sig : TermSignal) : gwP (res Z) :=
  match terminalSignalName sig with
  | Err e => Ret (Err e)
  | Ok name =>
      try t <- resolveTerminal id;
      do r <- sandboxdCall (fst t) (SPtySignal (snd t) name);
      Ret (match r return res Z with
           | Err _ => Err (Status Unavailable)
           | Ok (_, None) => Err (Status Internal)
           | Ok (_, Some pgid) => Ok pgid
           end)
  end.

Definition TerminalDestroy (id : string) (graceMs : Z) : gwP (res bool) :=
  try t <- resolveTerminal id;
  do r <- sandboxdCall (fst t) (SPtyDestroy (snd t) graceMs);
  match r with
  | Err _ => Ret (Err (Status Unavailable))
  | Ok (code, _) => do! dropTerminal id; Ret (Ok (code =? 200))
  end.

(** ** The output stream *)

(** One parsed payload: output, the exit status and signal, or a frame with
    nothing to forward. *)
Inductive ptyStreamFrame :=
  | FData (output : string)
  | FExit (exitCode : Z) (signal : string)
  | FPid.

Section stream.
(** The [exit] and [signal] fields of a JSON control frame. *)
Context (json_frame : string -> option (option Z * string)).
Context (base64_decode : string -> option string).

Definition parsePTYStreamFrame (payload : string) : res ptyStreamFrame :=
  if has_prefix payload "{" then
    match json_frame payload with
    | None => Err (Plain "frame decode")
    | Some (Some code, signal) => Ok (FExit code signal)
    | Some (None, _) => Ok FPid
    end
  else match base64_decode payload with
       | None => Err (Plain "base64 decode")
       | Some output => Ok (FData output)
       end.

(** The frames sent for the lines of the event stream, and the result;
    [broken]: reading fails after the last line.  (An empty output is sent as
    a frame, too.) *)
Fixpoint streamLines (lines : list string) (broken : bool) : list ptyStreamFrame * res unit :=
  match lines with
  | [] => ([], if broken then Err (Status Internal) else Ok tt)
  | line :: lines =>
      match strip_prefix "data: " line with
      | None => streamLines lines broken
      | Some payload =>
          match parsePTYStreamFrame payload with
          | Err _ => ([], Err (Status Internal))
          | Ok (FExit code signal) => ([FExit code signal], Ok tt)
          | Ok (FData output) =>
              let '(frames, r) := streamLines lines broken in (FData output :: frames, r)
          | Ok FPid => streamLines lines broken
          end
      end
  end.

(** A client that takes every frame. *)
Definition TerminalStream (id : string) : gwP (list ptyStreamFrame * res unit) :=
  do t <- resolveTerminal id;
  match t with
  | Err e => Ret ([], Err e)
  | Ok t =>
      do r <- sandboxdCall (fst t) (SPtyStream (snd t));
      Ret (match r return list ptyStreamFrame * res unit with
           | Err _ => ([], Err (Status Unavailable))
           | Ok (_, body) => let '(lines, broken) := default ([], false) body in streamLines lines broken
           end)
  end.
End stream.

(** ** Lemmas *)

Definition has_id (seq : Z) (id : string) : Prop := exists n, 1 <= n <= seq /\ id = terminalName n.

(** The registry is within its bound and holds ids that were handed out. *)
Definition terminals_ok (g : Gw) : Prop :=
  Z.of_nat (size (g_terminals g)) <= maxTerminals /\
  forall id, is_Some (g_terminals g !! id) -> has_id (g_terminalSeq g) id.

Lemma terminalName_inj (m n : Z) : terminalName m = terminalName n -> m = n.
Proof.
  unfold terminalName, itoa. intros H. apply (f_equal (strip_prefix "term-")) in H.
  rewrite !strip_prefix_app in H. injection H as H. by apply (inj pretty).
Qed.

Lemma forget_terminal_ok (id : string) (g : Gw) : terminals_ok g -> terminals_ok (forget_terminal id g).
Proof.
  intros [Hsize Hids]. split; simpl.
  - rewrite map_size_delete. destruct (g_terminals g !! id); simpl; lia.
  - intros id' H. apply Hids. destruct H as [e He]. exists e. by apply lookup_delete_Some in He as [_ ?].
Qed.

Lemma addTerminal_spec (sessionID : string) (sandboxdID : Z) (g : Gw) :
  terminals_ok g -> 0 <= g_terminalSeq g < 2 ^ 64 - 1 ->
  let '(id, g') := addTerminal sessionID sandboxdID g in
  terminals_ok g' /\
  match id with
  | None => g' = g /\ Z.of_nat (size (g_terminals g)) = maxTerminals
  | Some id => g_terminals g !! id = None /\
      g' = with_terminals (<[id := mkTerminal sessionID sandboxdID]> (g_terminals g)) (g_terminalSeq g + 1) g
  end.
Proof.
  intros [Hsize Hids] Hseq. unfold addTerminal.
  destruct (Z.leb_spec maxTerminals (Z.of_nat (size (g_terminals g)))); [split; [done|]; split; [done|lia]|].
  assert (next_seq (g_terminalSeq g) = g_terminalSeq g + 1) as -> by (unfold next_seq; rewrite Z.mod_small; lia).
  assert (g_terminals g !! terminalName (g_terminalSeq g + 1) = None) as Hnew.
  { apply eq_None_not_Some. intros (n & Hn & He)%Hids. apply terminalName_inj in He. lia. }
  split; [|done]. split; simpl.
  - rewrite map_size_insert_None by done. lia.
  - intros id. rewrite lookup_insert. case_decide as He; [intros _; exists (g_terminalSeq g + 1); split; [lia|done]|].
    intros (n & Hn & ->)%Hids. exists n. split; [lia|done].
Qed.

Lemma getPodIP_reads (id : string) : reads_memory (getPodIP id).
Proof.
  assert (forall n wait maxWait, reads_memory (pollRounds n wait maxWait id)) as Hpoll.
  { intros n. induction n as [|n IH]; intros wait maxWait; [done|].
    unfold reads_memory. cbn [pollRounds]. apply only_bind; [by apply only_call|]. intros [|]; [|done].
    apply only_bind; [by apply only_call|]. intros r.
    destruct (match r with Ok l => first_ip l | Err _ => None end); [done|apply IH]. }
  apply only_bind; [by apply only_call|]. intros [s|e]; cbv beta iota zeta; [|done].
  case_decide; [|apply Hpoll]. apply only_bind; [by apply only_call|]. intros r. done.
Qed.

(** The frames of a stream are output frames, with at most one exit frame at
    the end. *)
Lemma stream_exit_last (json_frame : string -> option (option Z * string))
    (base64_decode : string -> option string) (lines : list string) (broken : bool) :
  exists outputs last,
    fst (streamLines json_frame base64_decode lines broken) = (FData <$> outputs) ++ last /\
    (last = [] \/ exists code signal, last = [FExit code signal] /\
       snd (streamLines json_frame base64_decode lines broken) = Ok tt).
Proof.
  induction lines as [|line lines (outputs & last & Hf & Hl)]; cbn [streamLines].
  - exists [], []. split; [done|by left].
  - destruct (strip_prefix "data: " line) as [payload|]; [|by exists outputs, last].
    destruct (parsePTYStreamFrame _ _ payload) as [[output|code signal|]|e].
    + destruct (streamLines _ _ lines broken) as [frames r]. cbn [fst snd] in *. subst frames.
      by exists (output :: outputs), last.
    + exists [], [FExit code signal]. split; [done|]. right. by exists code, signal.
    + by exists outputs, last.
    + exists [], []. split; [done|by left].
Qed.

(** ** Theorems *)

(** [CreateTerminal] hands out an id that no live terminal has, recorded
    for the session and the terminal of sandboxd, and changes the registry in
    no other way; the registry keeps within its bound, and a call that fails
    leaves it alone. *)
Theorem create_terminal_registers (faults : bool) (req : CreateTerminalRequest) (g : Gw) (c : Cluster)
    (Hok : terminals_ok g) (Hseq : 0 <= g_terminalSeq g < 2 ^ 64 - 1) :
  wp (kube_contract Gw faults) (CreateTerminal req)
    (fun o v' => terminals_ok (fst v') /\
       match o with
       | Done (Ok (id, _)) => g_terminals g !! id = None /\ exists n,
           fst v' = with_terminals (<[id := mkTerminal (ct_sessionId req) n]> (g_terminals g))
                      (g_terminalSeq g + 1) g
       | Done (Err _) => fst v' = g
       | Panicked => fst v' = g
       end) (g, c).
Proof.
  unfold CreateTerminal. case_decide; [by split|]. case_decide; [by split|].
  apply wp_reads_bind; [apply getPodIP_reads|intros [g' c'] Hg; simpl in *; by subst|].
  intros [ip|e] [g1 c1] Hg1; cbn [fst] in Hg1; subst g1; [|by split].
  apply (wp_call _ (Sandboxd ip (ptyCreate req))). intros r [g2 c2] Hv. cbn in Hv. injection Hv as -> ->.
  destruct r as [[code [created|]]|e]; [|by split..].
  apply wp_mem. cbn [fst snd]. pose proof (addTerminal_spec (ct_sessionId req) (fst created) g Hok Hseq) as Hadd.
  destruct (addTerminal _ _ g) as [[id|] g']; cbn [fst snd wp]; destruct Hadd as [Hok' Hadd]; (split; [done|]).
  - destruct Hadd as [Hnew ->]. split; [done|]. by eexists.
  - by destruct Hadd.
Qed.

(** A registry that has no room left. *)
Definition full (g : Gw) : Prop := maxTerminals <= Z.of_nat (size (g_terminals g)).

(** The room in the registry is checked only after sandboxd has started
    the terminal: with a full registry every [CreateTerminal] fails, and its
    terminal is started and never destroyed. *)
Theorem full_registry_leaks (req : CreateTerminalRequest) (s : SandboxSession) (g : Gw) (c : Cluster)
    (log : gwlog) (Hfull : full g) (Hargv : ct_argv req <> []) (Hid : ct_sessionId req <> "")
    (Hs : store KSession c !! (sandboxNS, ct_sessionId req) = Some s)
    (Hip : PodIP (s_status s) <> "")
    (Hpod : list_objs KPod sandboxNS (SelEq labelSessionID (ct_sessionId req)) c <> []) :
  wp logged (CreateTerminal req)
    (fun o v' => (exists code, o = Done (Err (Status code))) /\
       snd v' = log ++ [(PodIP (s_status s), ptyCreate req)]) (g, c, log).
Proof.
  unfold CreateTerminal. rewrite !decide_False by done. apply wp_bind.
  eapply wp_mono; [|eapply logged_quiet; [apply getPodIP_quiet|by apply (getPodIP_recorded _ s)]].
  intros o [[g1 c1] log1] [[[= -> ->] ->] Hlog]. cbn [fst snd] in Hlog. subst log1.
  unfold recorded_ip. rewrite decide_False by done.
  apply (wp_call logged (Sandboxd _ _)). intros r [[g2 c2] log2] [Hv Hl2]. cbn in Hv, Hl2.
  injection Hv as -> ->. subst log2.
  destruct r as [[code [created|]]|e]; [|by split; [by eexists|]..].
  apply (wp_call logged (Mem _)). intros x [[g3 c3] log3] [[-> Hv] Hl3]. cbn [fst snd sent] in *.
  rewrite app_nil_r in Hl3. unfold addTerminal. rewrite (proj2 (Z.leb_le _ _) Hfull). cbn [fst wp snd].
  split; [by eexists|done].
Qed.

(** ** Witnesses *)

Definition bash_request : CreateTerminalRequest := mkCreateTerminal "s1" ["bash"] "" ∅ 0 0.

Lemma create_terminal_registers_witness :
  wp (kube_contract Gw false) (CreateTerminal bash_request)
    (fun o v' => terminals_ok (fst v') /\
       match o with
       | Done (Ok (id, _)) => g_terminals (NewServer false) !! id = None /\ exists n,
           fst v' = with_terminals (<[id := mkTerminal "s1" n]> (g_terminals (NewServer false)))
                      (g_terminalSeq (NewServer false) + 1) (NewServer false)
       | Done (Err _) => fst v' = NewServer false
       | Panicked => fst v' = NewServer false
       end) session_gateway /\
  fst (run (live_handler Gw) (CreateTerminal bash_request) session_gateway) = Done (Ok ("term-1", 1)).
Proof.
  split; [|by vm_compute].
  apply (create_terminal_registers false bash_request (NewServer false) (snd session_world)).
  - split; [by vm_compute|]. intros id [e He].
    change ((∅ : gmap string terminalEntry) !! id = Some e) in He. by rewrite lookup_empty in He.
  - simpl. lia.
Defined.

(** A gateway with ten thousand terminals. *)
Definition full_gateway : Gw :=
  with_terminals (list_to_map ((fun n => (terminalName (Z.of_nat n), mkTerminal "s1" 1)) <$> seq 1 10000))
    10000 (NewServer false).

Lemma full_registry_leaks_witness :
  wp logged (CreateTerminal bash_request)
    (fun o v' => (exists code, o = Done (Err (Status code))) /\
       snd v' = [] ++ [("10.0.0.1", SPtyCreate ["bash"] "" ∅ 24 80)]) (full_gateway, snd session_world, []).
Proof.
  apply (full_registry_leaks bash_request active_session full_gateway (snd session_world) []).
  - apply Z.leb_le. by vm_compute.
  - done.
  - done.
  - reflexivity.
  - done.
  - by vm_compute.
Defined.
