(* ===== verification/E2bFs.v ===== *)
(** * Files, watchers and exposed ports of the E2B server

    [pkg/sandbox/e2b/sandboxd.go], the filesystem calls of [envd.go],
    [files.go] and [expose.go]: what the E2B server asks the daemon in the pod
    directly, and the handlers built on it.  Bodies are taken as decoded. *)
From Stdlib Require Import ZArith Lia.
From S2P Require Import Prelude Prog Kube Lens SessionEnv GoTime GoText Sha256 Orchestrator Samples Expose ApiKey Gateway Rules Connect Signed E2bState E2bControl E2bFiles Auth E2bFacts.

#[local] Open Scope Z_scope.

(** ** The native client *)

Inductive callError := AlreadyExists | NotFoundError | OtherError.

#[export] Instance callError_eq_dec : EqDecision callError.
Proof. solve_decision. Defined.

(** [post] on the answer: [T] is what the caller decodes. *)
Definition post_result {T} (r : res (Z * option (string + T))) : T + callError :=
  match r with
  | Err _ => inr OtherError
  | Ok (code, b) =>
      if negb (code =? 200) then
        if match b with Some (inl text) => bool_decide (text = "already exists") | _ => false end then inr AlreadyExists
        else if code =? 404 then inr NotFoundError else inr OtherError
      else match b with Some (inr t) => inl t | _ => inr OtherError end
  end.

(** The same when nothing is decoded. *)
Definition post_done (r : res (Z * option (string + unit))) : unit + callError :=
  match post_result r with
  | inr e => if match r with Ok (code, _) => code =? 200 | Err _ => false end then inl tt else inr e
  | inl u => inl u
  end.

(** [get] and the hand-written requests. *)
Definition get_result {T} (r : res (Z * option (string + T))) : T + callError :=
  match r with
  | Ok (code, Some (inr t)) => if code =? 200 then inl t else inr OtherError
  | _ => inr OtherError
  end.

Inductive fsReply :=
  | FsError (e : E2bError)
  | FsEmpty
  | FsEntry (i : EntryInfo)
  | FsMade (path name : string)
  | FsEntries (l : list EntryInfo)
  | FsWatcher (id : Z)
  | FsEvents (l : list (string * string)).

(** Status, content type, body and [Content-Range] of a file. *)
Inductive fileReply :=
  | FileError (e : E2bError)
  | FileBytes (status : Z) (contentType body : string) (range : option (Z * Z * Z)).

Section server.
Context `{QP : QuantityParser} {R : Type} `{ST : StateStore R}.
Context (keys : SandboxSession -> list string).

Abbreviation e2bP := (prog (gwE (E2B R))).

(** The pod's address, from the gateway. *)
Definition sandbox_ip (id : string) : e2bP (option string) :=
  do r <- gw (GetSessionRPC keys id);
  Ret (match r with
       | Ok sess => if decide (gs_PodIp sess = "") then None else Some (gs_PodIp sess)
       | Err _ => None
       end).

Definition native (id : string) (r : sbxReq) : e2bP (res (Z * option (sbxBody r))) :=
  do ip <- sandbox_ip id;
  match ip with
  | None => Ret (Err (Plain "no pod IP"))
  | Some ip => call (Sandboxd ip r)
  end.

Definition stat (id path : string) : e2bP (statEntry + callError) :=
  do r <- native id (SStat path); Ret (post_result (T := statEntry) r).
Definition mkdir (id path : string) : e2bP (unit + callError) :=
  do r <- native id (SMkdir path); Ret (post_done r).
Definition move (id source destination : string) : e2bP (unit + callError) :=
  do r <- native id (SMove source destination); Ret (post_done r).
Definition remove (id path : string) : e2bP (unit + callError) :=
  do r <- native id (SRemove path); Ret (post_done r).
Definition sendStdin (id : string) (pid : Z) (data : string) : e2bP (unit + callError) :=
  do r <- native id (SStdin pid data); Ret (post_done r).
Definition closeStdin (id : string) (pid : Z) : e2bP (unit + callError) :=
  do r <- native id (SStdinClose pid); Ret (post_done r).
Definition signal (id : string) (pid : Z) (sig : string) : e2bP (unit + callError) :=
  do r <- native id (SSignal pid sig); Ret (post_done r).
Definition processList (id : string) : e2bP (list sandboxProcess + callError) :=
  do r <- native id SProcTable; Ret (get_result (T := list sandboxProcess) r).
Definition attach (id : string) (pid : Z) : e2bP (string + callError) :=
  do r <- native id (SAttach pid); Ret (get_result (T := string) r).
Definition createWatcher (id path : string) : e2bP (Z + callError) :=
  do r <- native id (SWatchCreate path); Ret (post_result (T := Z) r).
Definition getWatcherEvents (id : string) (watcherID : Z) : e2bP (list (string * Z) + callError) :=
  do r <- native id (SWatchEvents watcherID); Ret (get_result (T := list (string * Z)) r).
Definition removeWatcher (id : string) (watcherID : Z) : e2bP (unit + callError) :=
  do r <- native id (SWatchRemove watcherID); Ret (post_done r).

(** ** The filesystem calls *)

Definition invalid_path : fsReply := FsError (connectError "invalid_argument").

Definition fsReady {A} (id : string) (bad : E2bError -> A) (k : e2bP A) : e2bP A :=
  do r <- wakeForTraffic keys id;
  match r with inr e => Ret (bad e) | inl _ => k end.

Definition refused (e : callError) (special : callError) (code : string) : fsReply :=
  FsError (connectError (if decide (e = special) then code else "internal")).

Definition handleFSStat (id path : string) : e2bP fsReply :=
  match resolveSandboxPath path with
  | None => Ret invalid_path
  | Some path =>
      fsReady id FsError (
        do r <- stat id path;
        Ret (match r with
             | inr e => refused e NotFoundError "not_found"
             | inl entry => FsEntry (statEntryToInfo entry path)
             end))
  end.

(** The loop over the listed files. *)
Fixpoint list_entries (id prefix : string) (depth : Z) (files : list FileInfo) (seen : list string)
    : e2bP (list EntryInfo) :=
  match files with
  | [] => Ret []
  | f :: files =>
      if negb (has_prefix (fi_path f) prefix) then list_entries id prefix depth files seen
      else if depth <? depthOf (trim_prefix (fi_path f) prefix) then list_entries id prefix depth files seen
      else if decide (fi_path f ∈ seen) then list_entries id prefix depth files seen
      else
        do e <- stat id (fi_path f);
        do rest <- list_entries id prefix depth files (fi_path f :: seen);
        Ret (match e with inl e => statEntryToInfo e (fi_path f) :: rest | inr _ => rest end)
  end.

Definition ends_in_slash (s : string) : bool := bool_decide (after_last slash s = Some "").

Definition handleFSListDir (id path : string) (depth : Z) : e2bP fsReply :=
  let depth := if depth <? 1 then 1 else depth in
  match resolveSandboxPath path with
  | None => Ret invalid_path
  | Some path =>
      fsReady id FsError (
        do r <- stat id path;
        match r with
        | inr e => Ret (refused e NotFoundError "not_found")
        | inl dir =>
            if decide (st_Type dir <> "dir") then Ret invalid_path
            else
              do r <- gw (ListFiles id 0);
              match r with
              | Err _ => Ret (FsError (connectError "internal"))
              | Ok files =>
                  let prefix := if ends_in_slash path then path else path +:+ "/" in
                  do l <- list_entries id prefix depth files []; Ret (FsEntries l)
              end
        end)
  end.

Definition handleFSMakeDir (id path : string) : e2bP fsReply :=
  match resolveSandboxPath path with
  | None => Ret invalid_path
  | Some path =>
      fsReady id FsError (
        do r <- mkdir id path;
        Ret (match r with
             | inr e => refused e AlreadyExists "already_exists"
             | inl _ => FsMade path (baseName path)
             end))
  end.

Definition handleFSMove (id source destination : string) : e2bP fsReply :=
  match resolveSandboxPath source, resolveSandboxPath destination with
  | Some src, Some dst =>
      fsReady id FsError (
        do r <- move id src dst;
        match r with
        | inr e => Ret (refused e NotFoundError "not_found")
        | inl _ =>
            do e <- stat id dst;
            Ret (FsEntry (statEntryToInfo
              (match e with inl e => e | inr _ => mkStat "" 0 "" 0 0 0 dst "" end) dst))
        end)
  | _, _ => Ret invalid_path
  end.

Definition handleFSRemove (id path : string) : e2bP fsReply :=
  match resolveSandboxPath path with
  | None => Ret invalid_path
  | Some path =>
      fsReady id FsError (
        do r <- remove id path;
        Ret (match r with inr e => refused e NotFoundError "not_found" | inl _ => FsEmpty end))
  end.

Definition handleFSCreateWatcher (id path : string) : e2bP fsReply :=
  match resolveSandboxPath path with
  | None => Ret invalid_path
  | Some path =>
      fsReady id FsError (
        do r <- createWatcher id path;
        Ret (match r with inr e => refused e NotFoundError "not_found" | inl w => FsWatcher w end))
  end.

Definition handleFSGetWatcherEvents (id : string) (watcherID : Z) : e2bP fsReply :=
  fsReady id FsError (
    do r <- getWatcherEvents id watcherID;
    Ret (match r with
         | inr _ => FsError (connectError "not_found")
         | inl l => FsEvents ((fun e => (e.1, eventTypeName e.2)) <$> l)
         end)).

Definition handleFSRemoveWatcher (id : string) (watcherID : Z) : e2bP fsReply :=
  fsReady id FsError (
    do r <- removeWatcher id watcherID;
    Ret (match r with inr _ => FsError (connectError "not_found") | inl _ => FsEmpty end)).

(** ** Whole files *)

Definition serveFileDownload (id path rangeHeader : string) : e2bP fileReply :=
  fsReady id FileError (
    match resolveSandboxPath path with
    | None => Ret (FileError (connectError "invalid_argument"))
    | Some path =>
        do r <- gw (ReadFile id path);
        Ret (match r with
             | Err _ => FileError (connectError "not_found")
             | Ok content =>
                 let '(status, body, range) := download rangeHeader content in
                 FileBytes status (contentTypeOf (baseName path)) body range
             end)
    end).

(** [writeOne]: name and path of what was written, or the error it answered
    with. *)
Definition writeOne (id path content : string) : e2bP ((string * string) + E2bError) :=
  match resolveSandboxPath path with
  | None => Ret (inr (connectError "invalid_argument"))
  | Some resolved =>
      do r <- gw (WriteFile id resolved content "w");
      Ret (match r with
           | Err _ => inr (connectError "internal")
           | Ok _ => inl (baseName resolved, resolved)
           end)
  end.

(** The files of a request: destination and (decoded) content.  The first
    error of the loop has been written to the client, yet the loop goes on;
    the list follows it in the same answer.  [None]: no error. *)
Fixpoint write_parts (id : string) (parts : list (string * string))
    : e2bP (option E2bError * list (string * string)) :=
  match parts with
  | [] => Ret (None, [])
  | (filename, content) :: parts =>
      if decide (filename = "") then write_parts id parts
      else
        do w <- writeOne id filename content;
        do rest <- write_parts id parts;
        Ret (match w with
             | inl w => (fst rest, w :: snd rest)
             | inr e => (Some e, snd rest)
             end)
  end.

Inductive upload :=
  | Multipart (parts : list (string * string))
  | Octets (path content : string).

(** The status line is that of the first error, or 200; the body ends in the
    list of the files written, unless the handler returned early. *)
Definition serveFileUpload (id : string) (up : upload) : e2bP (Z * option (list (string * string))) :=
  fsReady id (fun e => (StatusCode e, None)) (
    match up with
    | Octets "" _ => Ret (StatusCode (connectError "invalid_argument"), None)
    | Octets path content =>
        do r <- write_parts id [(path, content)];
        Ret (match fst r with Some e => StatusCode e | None => 200 end, Some (snd r))
    | Multipart parts =>
        do r <- write_parts id parts;
        Ret (match fst r with Some e => StatusCode e | None => 200 end, Some (snd r))
    end).

(** ** Exposed ports *)

(** A plain HTTP error, or the pod's address, the port and the path that the
    request is passed to. *)
Definition path_rest (parts : list string) : string :=
  match parts with _ :: _ :: rest => join_with "/" rest | _ => "" end.

Definition handleExposeProxy (urlPath : string) : e2bP (Z + (string * Z * string)) :=
  let parts := split_on slash (trim_prefix urlPath "/k8e/expose/") in
  match parts with
  | sessionID :: portText :: _ =>
      match ParseInt portText with
      | None => Ret (inl 400)
      | Some port =>
          if (port <=? 0) || (65535 <? port) then Ret (inl 400)
          else
            do listed <- gw (zoom (ListExposed sessionID));
            match listed with
            | Err _ => Ret (inl 502)
            | Ok services =>
                if existsb (fun svc => svc.1.1.1 =? port) services then
                  do r <- gw (GetSessionRPC keys sessionID);
                  match r with
                  | Err _ => Ret (inl 503)
                  | Ok sess =>
                      if decide (gs_PodIp sess = "") then Ret (inl 503)
                      else Ret (inr (gs_PodIp sess, port, "/" +:+ path_rest parts))
                  end
                else Ret (inl 404)
            end
      end
  | _ => Ret (inl 400)
  end.
End server.

(** ** Where the file calls reach *)

Definition below_root (p : string) : bool := has_prefix p "/workspace/".
Definition resolved (p : string) : Prop := below_root p = true /\ existsb dotted (split_on slash p) = false.

(** The file a read asks for: sandboxd takes the request target apart at every
    space, then at every question mark, and [extractQueryParam] looks for the
    first pair of the query with the key, at every ampersand and equals sign,
    without decoding anything. *)
Definition question_mark : Ascii.ascii := Ascii.ascii_of_nat 63.
Definition ampersand : Ascii.ascii := Ascii.ascii_of_nat 38.
Definition equals : Ascii.ascii := Ascii.ascii_of_nat 61.
Definition space : Ascii.ascii := Ascii.ascii_of_nat 32.

Fixpoint first_pair (key : string) (pairs : list string) : option string :=
  match pairs with
  | [] => None
  | kv :: pairs =>
      match split_on equals kv with
      | k :: v :: _ => if decide (k = key) then Some v else first_pair key pairs
      | _ => first_pair key pairs
      end
  end.

Definition extractQueryParam (query key : string) : option string :=
  first_pair key (split_on ampersand query).

Definition asked_file (target : string) : option string :=
  match split_on question_mark (List.hd "" (split_on space target)) with
  | path :: query :: _ => if decide (path = "/files/read") then extractQueryParam query "path" else None
  | _ => None
  end.

(** The string up to its first byte among [stops]. *)
Fixpoint upto (stops : list Ascii.ascii) (s : string) : string :=
  match s with
  | EmptyString => EmptyString
  | String c s => if existsb (Ascii.eqb c) stops then EmptyString else String c (upto stops s)
  end.

Definition url_stops : list Ascii.ascii := [equals; ampersand; question_mark; space; number_sign].

(** Below the root, and no part but the last one goes up. *)
Definition cut_resolved (p : string) : Prop :=
  below_root p = true /\ existsb dotted (removelast (split_on slash p)) = false.

(** A request of the file calls: it names only paths below the workspace root
    with no part that goes up; but a read names such a path cut short, whose
    last part may. *)
Definition confined {M : Type} X (e : gwE M X) : Prop :=
  match e with
  | Sandboxd _ r =>
      match r with
      | SStat p | SMkdir p | SRemove p | SWatchCreate p | SWrite p _ _ => resolved p
      | SRead target => exists p q, resolved p /\ asked_file target = Some q /\ q = upto url_stops p /\ cut_resolved q
      | SMove p q => resolved p /\ resolved q
      | SList _ => True
      | _ => False
      end
  | _ => True
  end.

(** A listing asks for what the daemon has listed below the root, too. *)
Definition confined_listing {M : Type} X (e : gwE M X) : Prop :=
  match e with
  | Sandboxd _ (SStat p) => below_root p = true
  | _ => confined X e
  end.

Lemma confined_listing_of {M} X (e : gwE M X) : confined X e -> confined_listing X e.
Proof. destruct e; try done. destruct r; try done. by intros [? _]. Qed.

Lemma resolve_resolved raw p : resolveSandboxPath raw = Some p -> resolved p.
Proof.
  unfold resolveSandboxPath. case_decide; [done|]. cbv zeta. set (q := if has_prefix _ _ then _ else _).
  destruct (existsb dotted (split_on slash q)) eqn:E; [done|]. intros [= <-]. split.
  - apply has_prefix_spec. by eexists.
  - rewrite split_workspace. rewrite trim_undotted in E. exact E.
Qed.

Lemma split_on_upto c s : exists l, split_on c s = upto [c] s :: l.
Proof.
  induction s as [|a s [l IH]]; [by exists []|]. simpl. rewrite orb_false_r.
  destruct (Ascii.eqb a c); [by eexists|]. rewrite IH. by eexists.
Qed.

Lemma upto_upto c stops s : upto [c] (upto stops s) = upto (c :: stops) s.
Proof.
  induction s as [|a s IH]; [done|]. cbn [upto existsb]. destruct (existsb _ stops); [by rewrite orb_true_r|].
  cbn [upto existsb]. rewrite IH. by rewrite !orb_false_r.
Qed.

Lemma cut_at_upto c s : fst (cut_at c s) = upto [c] s.
Proof.
  induction s as [|a s IH]; [done|]. simpl. rewrite orb_false_r. destruct (Ascii.eqb a c); [done|].
  rewrite <-IH. by destruct (cut_at c s).
Qed.

Lemma upto_app stops s : exists r, s = upto stops s +:+ r.
Proof.
  induction s as [|a s [r IH]]; [by exists ""|]. simpl. destruct (existsb _ stops); [by eexists|].
  exists r. rewrite append_cons. by f_equal.
Qed.

(** The daemon reads the value up to the first byte at which it stops. *)
Lemma asked_file_path u :
  asked_file ("/files/read?path=" +:+ u) = Some (upto [equals; ampersand; question_mark; space] u).
Proof.
  unfold asked_file. destruct (split_on_upto space ("/files/read?path=" +:+ u)) as [l ->]. cbn [List.hd].
  change (upto [space] ("/files/read?path=" +:+ u)) with ("/files/read?path=" +:+ upto [space] u).
  change ("/files/read?path=" +:+ upto [space] u)
    with ("/files/read" +:+ String question_mark ("path=" +:+ upto [space] u)).
  rewrite split_on_app by done. destruct (split_on_upto question_mark ("path=" +:+ upto [space] u)) as [l1 ->].
  rewrite decide_True by done. unfold extractQueryParam.
  destruct (split_on_upto ampersand (upto [question_mark] ("path=" +:+ upto [space] u))) as [l2 ->].
  change (upto [ampersand] (upto [question_mark] ("path=" +:+ upto [space] u)))
    with ("path" +:+ String equals (upto [ampersand] (upto [question_mark] (upto [space] u)))).
  cbn [first_pair]. rewrite split_on_app by done.
  destruct (split_on_upto equals (upto [ampersand] (upto [question_mark] (upto [space] u)))) as [l3 ->].
  rewrite decide_True by done. by rewrite (upto_upto question_mark), (upto_upto ampersand), upto_upto.
Qed.

Lemma request_target_asked p target :
  request_target ("/files/read?path=" +:+ p) = Some target -> asked_file target = Some (upto url_stops p).
Proof.
  unfold request_target. destruct (all_chars _ _); [|done].
  pose proof (cut_at_upto number_sign ("/files/read?path=" +:+ p)) as Hu.
  change (upto [number_sign] ("/files/read?path=" +:+ p)) with ("/files/read?path=" +:+ upto [number_sign] p) in Hu.
  destruct (cut_at number_sign ("/files/read?path=" +:+ p)) as [u rest]. cbn [fst] in Hu. subst u.
  intros Ht. assert (target = "/files/read?path=" +:+ upto [number_sign] p) as ->.
  { destruct rest as [f|]; [|by injection Ht]. destruct (escapes_ok f); [by injection Ht|done]. }
  rewrite asked_file_path. f_equal.
  by rewrite <-(upto_upto equals), <-(upto_upto ampersand), <-(upto_upto question_mark), (upto_upto space),
    (upto_upto question_mark), (upto_upto ampersand), (upto_upto equals).
Qed.

Lemma split_on_prefix c q r : removelast (split_on c q) `prefix_of` split_on c (q +:+ r).
Proof.
  induction q as [|a q IH]; [apply prefix_nil|]. rewrite append_cons. cbn [split_on].
  destruct (split_on_upto c q) as [l E], (split_on_upto c (q +:+ r)) as [l' E']. rewrite E, E' in *.
  destruct (Ascii.eqb a c).
  - change (removelast ("" :: upto [c] q :: l)) with ("" :: removelast (upto [c] q :: l)). by apply prefix_cons.
  - destruct l as [|x l]; [apply prefix_nil|].
    change (removelast (String a (upto [c] q) :: x :: l)) with (String a (upto [c] q) :: removelast (x :: l)).
    change (removelast (upto [c] q :: x :: l)) with (upto [c] q :: removelast (x :: l)) in IH.
    rewrite (prefix_cons_inv_1 _ _ _ _ IH). apply prefix_cons. by eapply prefix_cons_inv_2.
Qed.

Lemma cut_short_resolved p : resolved p -> cut_resolved (upto url_stops p).
Proof.
  intros [Hroot Hd]. split.
  - apply has_prefix_spec in Hroot as [r ->]. apply has_prefix_spec. by eexists.
  - destruct (upto_app url_stops p) as [r Hr]. pose proof (split_on_prefix slash (upto url_stops p) r) as [l Hl].
    rewrite <-Hr in Hl. rewrite Hl in Hd. rewrite existsb_app in Hd. by apply orb_false_iff in Hd as [? _].
Qed.

(** Calls on a component. *)
Lemma only_zoom {M N A} `{Lens M N} pan (p : prog (gwE M) A) :
  only pan confined p -> only pan confined (zoom (N := N) p).
Proof.
  induction p as [a|X e k IH|m]; [done| |done]. intros [He Hk]. split; [by destruct e|]. intros x. apply IH, Hk.
Qed.

(** The store talks to no daemon. *)
Class QuietStore (R : Type) `{StateStore R} : Prop :=
  store_confined : forall id b, only true confined (markPaused (M := R) id b).

#[export] Instance registry_quiet `{MO : MapOrder} : QuietStore Registry.
Proof. intros id b. by split. Qed.

#[export] Instance crd_quiet `{SJ : StateJSON, LZ : LocalZone} ns : QuietStore (H := crdStateStore ns) NameCache.
Proof.
  intros id b. change (only true confined (crd_markPaused ns id b)).
  unfold crd_markPaused, crd_change, crd_get, crd_getSession, writeState. frame_auto.
Qed.

Section confinement.
Context `{QP : QuantityParser} {R : Type} `{ST : StateStore R} `{QS : !QuietStore R}.
Context (keys : SandboxSession -> list string).

Lemma ResumeSession_confined id : only true confined (ResumeSession id).
Proof. frame_auto. Qed.

Lemma GetSessionRPC_confined id : only true confined (GetSessionRPC keys id).
Proof.
  unfold GetSessionRPC. case_decide; [done|]. apply only_bind; [apply only_zoom; frame_auto|].
  intros [s|e]; [|done]. apply only_bind; [apply only_zoom; frame_auto|done].
Qed.

Lemma ResumeSessionRPC_confined id : only true confined (ResumeSessionRPC id).
Proof.
  unfold ResumeSessionRPC. case_decide; [done|].
  apply only_bind; [apply only_zoom, ResumeSession_confined|]. done.
Qed.

Lemma wake_confined id : only true confined (wakeForTraffic (R := R) keys id).
Proof.
  apply only_bind; [apply only_zoom, GetSessionRPC_confined|]. intros [s|e]; [|done]. cbv zeta.
  case_decide; [done|]. case_decide; [|done].
  apply only_bind; [apply only_zoom, ResumeSessionRPC_confined|]. intros [u|e]; [|done].
  apply only_bind; [apply only_zoom, store_confined|done].
Qed.

Lemma fsReady_confined {A} id (bad : E2bError -> A) k :
  only true confined k -> only true confined (fsReady (R := R) keys id bad k).
Proof. intros Hk. apply only_bind; [apply wake_confined|]. by intros [r|e]. Qed.

Lemma native_confined id r : confined _ (Sandboxd (M := E2B R) "" r) -> only true confined (native (R := R) keys id r).
Proof.
  intros Hr. apply only_bind.
  - apply only_bind; [apply only_zoom, GetSessionRPC_confined|done].
  - intros [ip|]; [|done]. by apply only_call.
Qed.

Lemma stat_confined id p : resolved p -> only true confined (stat (R := R) keys id p).
Proof. intros Hp. apply only_bind; [by apply native_confined|done]. Qed.

(** The same for a listing. *)
Lemma only_listing {M A} (p : prog (gwE M) A) : only true confined p -> only true confined_listing p.
Proof. apply only_mono. intros X e. apply confined_listing_of. Qed.

Lemma stat_listing id p : below_root p = true -> only true confined_listing (stat (R := R) keys id p).
Proof.
  intros Hp. apply only_bind; [|done]. apply only_bind.
  - apply only_listing, only_bind; [apply only_zoom, GetSessionRPC_confined|done].
  - intros [ip|]; [|done]. by apply only_call.
Qed.

Lemma getPodIP_confined id : only true confined (getPodIP id).
Proof.
  unfold getPodIP. apply only_bind; [by apply only_call|]. intros [s|e]; [|done]. cbv zeta. case_decide.
  - apply only_bind; [by apply only_call|done].
  - unfold pollForPodIP. generalize second at 1 as wait. generalize 12%nat as n.
    induction n as [|n IH]; intros wait; [done|]. cbn [pollRounds].
    apply only_bind; [by apply only_call|]. intros [|]; [|done]. apply only_bind; [by apply only_call|].
    intros r. cbv zeta. case_match; [done|apply IH].
Qed.

Lemma gateway_call_confined id r : confined _ (Sandboxd (M := Gw) "" r) -> forall {A} (f : _ -> res A),
  only true confined (try podIP <- getPodIP id; do a <- sandboxdCall podIP r; Ret (f a)).
Proof.
  intros Hr A f. apply only_bind; [apply getPodIP_confined|]. intros [ip|e]; [|done].
  apply only_bind; [by apply only_call|done].
Qed.

Lemma ReadFile_confined id p : resolved p -> only true confined (ReadFile id p).
Proof.
  intros Hp. unfold ReadFile. apply only_bind; [apply getPodIP_confined|]. intros [ip|e]; [|done].
  destruct (request_target _) as [target|] eqn:Ht; [|done]. apply only_bind; [|done]. apply only_call.
  exists p, (upto url_stops p). split; [done|]. split; [by apply request_target_asked|].
  split; [done|by apply cut_short_resolved].
Qed.

Lemma list_entries_confined id prefix depth files seen : below_root prefix = true ->
  only true confined_listing (list_entries (R := R) keys id prefix depth files seen).
Proof.
  intros Hp. revert seen. induction files as [|f files IH]; intros seen; [done|]. cbn [list_entries].
  destruct (has_prefix (fi_path f) prefix) eqn:Hf; cbn [negb]; [|apply IH]. case_match; [apply IH|].
  case_decide; [apply IH|]. apply only_bind.
  - apply stat_listing. apply has_prefix_spec in Hf as [r ->]. apply has_prefix_spec in Hp as [r' ->].
    apply has_prefix_spec. eexists. by rewrite append_assoc.
  - intros e. apply only_bind; [apply IH|done].
Qed.

Lemma write_parts_confined id parts : only true confined (write_parts (R := R) id parts).
Proof.
  induction parts as [|[name content] parts IH]; [done|]. cbn [write_parts]. case_decide; [done|].
  apply only_bind; [|intros w; apply only_bind; [done|]; by intros r].
  unfold writeOne. destruct (resolveSandboxPath name) as [p|] eqn:E; [|done].
  apply only_bind; [|done]. apply only_zoom. unfold WriteFile. rewrite decide_False by done.
  apply gateway_call_confined. by eapply resolve_resolved.
Qed.

(** C35. Whatever paths a client names and whatever comes back, the file calls
    of the E2B surface ask the pod's daemon only for paths below the workspace
    root with no part that goes up, or for the list of its files, with two
    exceptions.  A listing asks for the entries below the root as the daemon
    itself has listed them.  And a download asks for its path only up to its first number sign, space, question mark, ampersand
    or equals sign, which the gateway does not escape: only the last part of
    what is left can go up.  Paths are the strings handed over: a NUL byte, at
    which the daemon's system calls stop, is here a byte of a name. *)
Theorem file_calls_confined id (path path' range : string) (depth : Z) (up : upload) :
  only true confined (handleFSStat (R := R) keys id path) /\
  only true confined_listing (handleFSListDir (R := R) keys id path depth) /\
  only true confined (handleFSMakeDir (R := R) keys id path) /\
  only true confined (handleFSMove (R := R) keys id path path') /\
  only true confined (handleFSRemove (R := R) keys id path) /\
  only true confined (handleFSCreateWatcher (R := R) keys id path) /\
  only true confined (serveFileDownload (R := R) keys id path range) /\
  only true confined (serveFileUpload (R := R) keys id up).
Proof.
  unfold handleFSStat, handleFSListDir, handleFSMakeDir, handleFSMove, handleFSRemove, handleFSCreateWatcher,
    serveFileDownload, serveFileUpload, mkdir, move, remove, createWatcher.
  destruct (resolveSandboxPath path) as [p|] eqn:Ep.
  2:{ split; [done|]. split; [done|]. split; [done|]. split; [done|]. split; [done|]. split; [done|].
      split; [by apply fsReady_confined|]. apply fsReady_confined.
      destruct up as [parts|[|c pth] content]; [|done|];
        (apply only_bind; [apply write_parts_confined|by intros r]). }
  pose proof (resolve_resolved _ _ Ep) as Hp. destruct (Hp) as [Hroot _].
  split; [apply fsReady_confined, only_bind; [by apply stat_confined|by intros [e|e]]|].
  split.
  { apply only_bind; [apply only_listing, wake_confined|]. intros [x|e]; [|done].
    apply only_bind; [by apply stat_listing|]. intros [e|e]; [|done]. case_decide; [done|].
    apply only_bind; [by apply only_listing, only_zoom, gateway_call_confined|]. intros [files|err]; [|done]. cbv zeta.
    apply only_bind; [|done]. apply list_entries_confined. case_match; [done|].
    apply has_prefix_spec in Hroot as [r ->]. apply has_prefix_spec. eexists. by rewrite append_assoc. }
  split; [apply fsReady_confined, only_bind; [apply only_bind; [by apply native_confined|done]|by intros [u|e]]|].
  split.
  { destruct (resolveSandboxPath path') as [q|] eqn:Eq; [|done]. pose proof (resolve_resolved _ _ Eq) as Hq.
    apply fsReady_confined, only_bind; [apply only_bind; [by apply native_confined|done]|]. intros [u|e]; [|done].
    apply only_bind; [by apply stat_confined|by intros [e|e]]. }
  split; [apply fsReady_confined, only_bind; [apply only_bind; [by apply native_confined|done]|by intros [u|e]]|].
  split; [apply fsReady_confined, only_bind; [apply only_bind; [by apply native_confined|done]|by intros [u|e]]|].
  split.
  { apply fsReady_confined, only_bind; [by apply only_zoom, ReadFile_confined|]. intros [c|e]; [|done].
    by destruct (download range c) as [[? ?] ?]. }
  apply fsReady_confined. destruct up as [parts|[|c pth] content]; [|done|];
    (apply only_bind; [apply write_parts_confined|by intros r]).
Qed.
End confinement.

(** ** The proxy *)

Section proxy.
Context `{QP : QuantityParser} {R : Type} `{ST : StateStore R} (faults : bool).
Context (keys : SandboxSession -> list string).
#[local] Notation C := (kube_contract (E2B R) faults).

(** The ports a session has exposed, as the gateway remembers them. *)
Definition exposed_ports (id : string) (x : E2B R) : list Z := ee_port <$> entries_of id (g_orch (x_gw x)).

Lemma ListExposed_reads id x c (Q : outcome (res (list (Z * string * string * Z))) -> E2B R * Cluster -> Prop) :
  (forall r x', (forall l, r = Ok l -> (fun svc => svc.1.1.1) <$> l ⊆ exposed_ports id x) -> Q (Done r) (x', c)) ->
  wp C (gw (R := R) (zoom (ListExposed id))) Q (x, c).
Proof.
  intros HQ. apply wp_zoom, wp_zoom. unfold ListExposed. intros entries v1 [-> ->]. cbn [fst snd].
  intros r v2 [-> _]. apply wp_ret_bind. destruct r as [s|e].
  - apply wp_ret. cbn [fst snd]. apply HQ. intros l [= <-]. unfold exposed_ports.
    rewrite <-list_fmap_compose. done.
  - intros u v3 [-> ->]. apply wp_ret. cbn [fst snd]. apply HQ. intros l [= <-]. set_solver.
Qed.

(** A request is passed on only to a port that its session has exposed, on
    the address the session's pod is recorded under. *)
Theorem proxy_only_exposed urlPath x c :
  wp C (handleExposeProxy (R := R) keys urlPath) (fun o v' =>
    forall ip port path, o = Done (inr (ip, port, path)) ->
      exists id s, cl_sessions (snd v') !! (sandboxNS, id) = Some s /\ PodIP (s_status s) = ip /\ ip <> "" /\
        port ∈ exposed_ports id x /\ 0 < port <= 65535 /\
        (exists rest, split_on slash (trim_prefix urlPath "/k8e/expose/") = id :: rest)) (x, c).
Proof.
  unfold handleExposeProxy. set (parts := split_on slash _).
  destruct parts as [|id [|portText rest]] eqn:Hparts; [by intros|by intros|].
  destruct (ParseInt portText) as [port|]; [|by intros].
  destruct ((port <=? 0) || (65535 <? port)) eqn:Hport; [by intros|].
  apply wp_bind, ListExposed_reads. intros r x' Hports. destruct r as [services|e]; [|by intros].
  destruct (existsb _ services) eqn:He; [|by intros].
  assert (port ∈ exposed_ports id x) as Hin.
  { apply existsb_exists in He as (svc & Hsvc & Hp). apply Z.eqb_eq in Hp. eapply Hports; [done|].
    apply list_elem_of_fmap. exists svc. split; [done|]. by apply list_elem_of_In. }
  apply wp_bind, wp_zoom. unfold GetSessionRPC. case_decide; [by intros|].
  apply wp_bind, wp_zoom. intros r v1 [-> Hs]. apply wp_ret. cbn [fst snd]. rewrite with_part_part.
  destruct r as [s|e]; [|by intros]. apply wp_bind, wp_zoom. intros n v2 [_ ->]. apply wp_ret. cbn [fst snd].
  simpl. case_decide as Hip; [by intros|].
  intros ip port' path [= <- <- _]. exists id, s. split; [exact Hs|]. split; [done|]. split; [done|]. split; [done|].
  apply orb_false_iff in Hport. split; [lia|]. by exists (portText :: rest).
Qed.
End proxy.

(** ** Witnesses *)

(** sandboxd answers every request with an HTTP error and no body. *)
Definition refusing_sandboxd (M : Type) : handler (gwE M) (M * Cluster) :=
  fun X e =>
    match e in gwE _ X return M * Cluster -> X * (M * Cluster) with
    | Sandboxd ip r => fun v => (Ok (500, None), v)
    | e => mem_handler M _ e
    end.

(** An upload that the pod's daemon refuses is reported as written, and the
    download of a file the daemon does not give is an empty file: neither
    handler looks at what the gateway says of the outcome. *)
Theorem refused_files_reported_fine :
  let world := sandbox_world "kill" (100 * second) (snd session_world) in
  fst (run (refusing_sandboxd _) (serveFileUpload env_keys "s1" (Octets "a.txt" "hi")) world) =
    Done (200, Some [("a.txt", "/workspace/a.txt")]) /\
  fst (run (refusing_sandboxd _) (serveFileDownload env_keys "s1" "missing.txt" "") world) =
    Done (FileBytes 200 "text/plain; charset=utf-8" "" None).
Proof. split; by vm_compute. Qed.

(** The gateway puts the path into the query as it is: the download of one file
    asks for another, and that of a name that begins with two dots for the
    root of the pod's file system. *)
Theorem download_cut_short :
  resolveSandboxPath "plan v2.txt" = Some "/workspace/plan v2.txt" /\
  resolveSandboxPath "..#x" = Some "/workspace/..#x" /\
  request_target "/files/read?path=/workspace/plan v2.txt" ≫= asked_file = Some "/workspace/plan" /\
  request_target "/files/read?path=/workspace/..#x" ≫= asked_file = Some "/workspace/..".
Proof. by vm_compute. Qed.

(** A part that goes up passes with a NUL byte behind it, at which the path
    ends for the daemon's system calls: the removal of this one is that of
    everything in the pod. *)
Definition nul : Ascii.ascii := Ascii.ascii_of_nat 0.

Theorem nul_hides_going_up :
  let raw := ".." +:+ String nul "" in
  let p := "/workspace/.." +:+ String nul "" in
  resolveSandboxPath raw = Some p /\ upto [nul] p = "/workspace/..".
Proof. by vm_compute. Qed.

(** The first part fails, the second is written: the answer says both. *)
Example half_upload :
  fst (run (live_handler _) (serveFileUpload env_keys "s1" (Multipart [("../x", "a"); ("y", "b")]))
         (sandbox_world "kill" (100 * second) (snd session_world))) =
    Done (400, Some [("y", "/workspace/y")]).
Proof. by vm_compute. Qed.

Lemma file_calls_confined_witness :
  only true confined (handleFSRemove (R := Registry) env_keys "s1" "notes/../../etc").
Proof.
  destruct (file_calls_confined env_keys "s1" "notes/../../etc" "" "" 1 (Octets "" "")) as (_ & _ & _ & _ & H & _).
  exact H.
Defined.

(** A session that has exposed port 8080. *)
Definition exposing_world : E2B Registry * Cluster :=
  let '(r, (o, c)) := run (live_handler Orch) (ExposeService "s1" 8080 "" "http://gw") session_world in
  (mkE2B (with_orch o (NewServer false)) newSandboxRegistry ∅, c).

Lemma proxy_only_exposed_witness :
  let r := run (live_handler _) (handleExposeProxy env_keys "/k8e/expose/s1/8080/api/v1") exposing_world in
  fst r = Done (inr ("10.0.0.1", 8080, "/api/v1")) /\ 8080 ∈ exposed_ports "s1" (fst exposing_world).
Proof.
  cbv zeta. assert (fst (run (live_handler _) (handleExposeProxy env_keys "/k8e/expose/s1/8080/api/v1") exposing_world) =
    Done (inr ("10.0.0.1", 8080, "/api/v1"))) as Hr by by vm_compute.
  split; [exact Hr|].
  pose proof (sample_run _ _ _ (proxy_only_exposed false env_keys "/k8e/expose/s1/8080/api/v1"
    (fst exposing_world) (snd exposing_world))) as H.
  destruct (H "10.0.0.1" 8080 "/api/v1" Hr) as (id & s & _ & _ & _ & Hin & _ & [rest Hp]).
  injection Hp as <- _. exact Hin.
Defined.
