(* ===== verification/E2bProcess.v ===== *)
(** * Processes of the E2B surface

    [pkg/sandbox/e2b/process.go], [pty.go] and the process calls of [envd.go]:
    the table of running processes with the streams that watch them, the
    association of pids and terminals, and the calls that reach a process. *)
From Stdlib Require Import ZArith Lia.
From S2P Require Import Prelude Prog Kube Lens SessionEnv GoTime Sha256 Orchestrator Samples Gateway Rules Terminal Connect E2bState E2bControl E2bFiles E2bStream Auth E2bFacts E2bFs.

#[local] Open Scope Z_scope.

(** ** The table *)

Record ProcessConfig := mkProcessConfig {
  pc_Cmd : string; pc_Args : list string; pc_Envs : gmap string string; pc_Cwd : string; pc_Pty : bool;
}.

(** A subscriber is a pointer: a stream, or a keepalive wrapped around one. *)
Inductive Sub := Stream (n : Z) | Keepalive (n : Z).

#[export] Instance Sub_eq_dec : EqDecision Sub.
Proof. solve_decision. Defined.

Record ProcessRecord := mkRecord {
  pr_PID : Z; pr_SandboxID : string; pr_Config : ProcessConfig; pr_Subs : list Sub; pr_GuestPID : option Z;
}.

(** [t_closed]: the pids whose [done] channel is closed. *)
Record ProcessTable := mkTable {
  t_nextPid : Z; t_records : gmap Z ProcessRecord; t_closed : gset Z;
}.

Definition NewProcessTable : ProcessTable := mkTable 1000 ∅ ∅.

Definition with_records (m : gmap Z ProcessRecord) (t : ProcessTable) : ProcessTable :=
  mkTable (t_nextPid t) m (t_closed t).
Definition with_subs (l : list Sub) (r : ProcessRecord) : ProcessRecord :=
  mkRecord (pr_PID r) (pr_SandboxID r) (pr_Config r) l (pr_GuestPID r).
Definition with_guest (g : Z) (r : ProcessRecord) : ProcessRecord :=
  mkRecord (pr_PID r) (pr_SandboxID r) (pr_Config r) (pr_Subs r) (Some g).

Definition Start (sandboxID : string) (cfg : ProcessConfig) (t : ProcessTable) : Z * ProcessTable :=
  let pid := t_nextPid t in
  (pid, mkTable (pid + 1) (<[pid := mkRecord pid sandboxID cfg [] None]> (t_records t)) (t_closed t)).

Definition Get (t : ProcessTable) (sandboxID : string) (pid : Z) : option ProcessRecord :=
  match t_records t !! pid with
  | Some rec => if decide (pr_SandboxID rec <> sandboxID) then None else Some rec
  | None => None
  end.

(** In the order of the map's iteration. *)
Definition List_ (t : ProcessTable) (sandboxID : string) : list ProcessRecord :=
  filter (fun rec => pr_SandboxID rec = sandboxID) (map_to_list (t_records t)).*2.

Definition change (pid : Z) (f : ProcessRecord -> ProcessRecord) (t : ProcessTable) : ProcessTable :=
  with_records (alter f pid (t_records t)) t.

Definition SetGuestPID (pid guest : Z) : ProcessTable -> ProcessTable := change pid (with_guest guest).

Definition GuestPID (t : ProcessTable) (pid : Z) : option Z := t_records t !! pid ≫= pr_GuestPID.

Definition Subscribe (pid : Z) (sub : Sub) (t : ProcessTable) : bool * ProcessTable :=
  match t_records t !! pid with
  | None => (false, t)
  | Some rec => (true, change pid (with_subs (pr_Subs rec ++ [sub])) t)
  end.

(** The first occurrence only. *)
Fixpoint remove_first (sub : Sub) (l : list Sub) : list Sub :=
  match l with
  | [] => []
  | s :: l => if decide (s = sub) then l else s :: remove_first sub l
  end.
Fixpoint replace_first (old fresh : Sub) (l : list Sub) : list Sub :=
  match l with
  | [] => []
  | s :: l => if decide (s = old) then fresh :: l else s :: replace_first old fresh l
  end.

Definition Unsubscribe (pid : Z) (sub : Sub) : ProcessTable -> ProcessTable :=
  change pid (fun rec => with_subs (remove_first sub (pr_Subs rec)) rec).
Definition ReplaceSubscriber (pid : Z) (old fresh : Sub) : ProcessTable -> ProcessTable :=
  change pid (fun rec => with_subs (replace_first old fresh (pr_Subs rec)) rec).

(** Who a chunk is delivered to, after the lock is released. *)
Definition Broadcast (t : ProcessTable) (pid : Z) : list Sub := default [] (pr_Subs <$> t_records t !! pid).

(** Who is told of the end; [None]: the channel is closed twice. *)
Definition End_ (pid : Z) (t : ProcessTable) : option (list Sub * ProcessTable) :=
  match t_records t !! pid with
  | None => Some ([], t)
  | Some rec =>
      if decide (pid ∈ t_closed t) then None
      else Some (pr_Subs rec, mkTable (t_nextPid t) (delete pid (t_records t)) ({[pid]} ∪ t_closed t))
  end.

(** The [done] channel of a process, and whether it is closed. *)
Definition Done_ (t : ProcessTable) (pid : Z) : option bool :=
  (fun _ => bool_decide (pid ∈ t_closed t)) <$> t_records t !! pid.

(** ** The terminals *)

Record ptyRow := mkPtyRow { pt_terminalID : string; pt_sandboxID : string; pt_pid : Z; pt_rows : Z; pt_cols : Z }.

Definition registerPty (row : ptyRow) (m : gmap Z ptyRow) : gmap Z ptyRow := <[pt_pid row := row]> m.

Definition ptyForSandbox (m : gmap Z ptyRow) (pid : Z) (sandboxID : string) : option ptyRow :=
  match m !! pid with
  | Some row => if decide (pt_sandboxID row <> sandboxID) then None else Some row
  | None => None
  end.

Definition dropPty (pid : Z) (m : gmap Z ptyRow) : gmap Z ptyRow := delete pid m.

(** ** Signals *)

(** The raw JSON of the signal: absent, a string, a number, or anything else. *)
Inductive rawSignal := NoSignal | SignalText (s : string) | SignalNumber (n : Z) | SignalOther.

Definition invalid : E2bError := connectError "invalid_argument".

Definition parseSignal (raw : rawSignal) : TermSignal + E2bError :=
  match raw with
  | NoSignal | SignalOther => inr invalid
  | SignalText s =>
      if decide (s ∈ ["SIGNAL_SIGKILL"; "SIGKILL"; "9"]) then inl SIGNAL_KILL
      else if decide (s ∈ ["SIGNAL_SIGTERM"; "SIGTERM"; "15"]) then inl SIGNAL_TERM
      else if decide (s ∈ ["SIGNAL_SIGINT"; "SIGINT"; "2"]) then inl SIGNAL_INT
      else inr invalid
  | SignalNumber n =>
      if n =? 9 then inl SIGNAL_KILL else if n =? 15 then inl SIGNAL_TERM else if n =? 2 then inl SIGNAL_INT else inr invalid
  end.

Definition sigName (sig : TermSignal) : string :=
  match sig with SIGNAL_KILL => "SIGKILL" | SIGNAL_TERM => "SIGTERM" | SIGNAL_INT => "SIGINT" | _ => "SIGTERM" end.

#[export] Instance TermSignal_eq_dec : EqDecision TermSignal.
Proof. solve_decision. Defined.

(** ** Window sizes *)

(** The JSON numbers of a size object, absent ones being [None]; the
    conversion to 32 bits is exact for the sizes terminals have. *)
Definition ptyWindowSize (rows cols : option Z) : Z * Z :=
  (match rows with Some v => if 0 <? v then v else 24 | None => 24 end,
   match cols with Some v => if 0 <? v then v else 80 | None => 80 end).

Definition resizeSize (rows cols : option Z) : Z * Z := (default 0 rows, default 0 cols).

(** ** The calls *)

Record Envd (R : Type) := mkEnvd { ev_e2b : E2B R; ev_procs : ProcessTable; ev_ptys : gmap Z ptyRow }.
Arguments mkEnvd {R}.
Arguments ev_e2b {R}.
Arguments ev_procs {R}.
Arguments ev_ptys {R}.

Definition with_e2b {R} (x : E2B R) (s : Envd R) : Envd R := mkEnvd x (ev_procs s) (ev_ptys s).
Definition with_procs {R} (t : ProcessTable) (s : Envd R) : Envd R := mkEnvd (ev_e2b s) t (ev_ptys s).
Definition with_ptys {R} (m : gmap Z ptyRow) (s : Envd R) : Envd R := mkEnvd (ev_e2b s) (ev_procs s) m.

Lemma with_own_e2b {R} (s : Envd R) : with_e2b (ev_e2b s) s = s.
Proof. by destruct s. Qed.

#[export] Instance e2b_lens {R} : Lens (E2B R) (Envd R) :=
  mkLens _ _ ev_e2b with_e2b (fun _ _ => eq_refl) with_own_e2b (fun _ _ _ => eq_refl).

Section server.
Context `{QP : QuantityParser} {R : Type} `{ST : StateStore R} (keys : SandboxSession -> list string).

Abbreviation envdP := (prog (gwE (Envd R))).

Definition e2b {A} (p : prog (gwE (E2B R)) A) : envdP A := zoom p.

Definition requireGuestPID (sandboxID : string) (pid : Z) : envdP (Z + E2bError) :=
  do rec <- call (Mem (fun s : Envd R => (Get (ev_procs s) sandboxID pid, s)));
  match rec with
  | None => Ret (inr (connectError "not_found"))
  | Some _ =>
      do guest <- call (Mem (fun s : Envd R => (GuestPID (ev_procs s) pid, s)));
      Ret (match guest with None => inr (connectError "not_found") | Some g => inl g end)
  end.

Definition pty_of (sandboxID : string) (pid : Z) : envdP (option ptyRow) :=
  call (Mem (fun s : Envd R => (ptyForSandbox (ev_ptys s) pid sandboxID, s))).

(** [None]: an empty 200. *)
Definition outcome_of {A B} (r : A + B) : option E2bError :=
  match r with inl _ => None | inr _ => Some (connectError "internal") end.
Definition outcome_of_res {A} (r : res A) : option E2bError :=
  match r with Ok _ => None | Err _ => Some (connectError "internal") end.

(** [pid] is 0 when the body names none; [data] is decoded, [None] if it is not
    base64. *)
Definition handleProcessSendInput (sandboxID : string) (pid : Z) (data : option string) : envdP (option E2bError) :=
  if pid =? 0 then Ret (Some invalid)
  else match data with
  | None => Ret (Some invalid)
  | Some decoded =>
      do row <- pty_of sandboxID pid;
      match row with
      | Some row =>
          do r <- e2b (gw (TerminalWrite (pt_terminalID row) decoded)); Ret (outcome_of_res r)
      | None =>
          do g <- requireGuestPID sandboxID pid;
          match g with
          | inr e => Ret (Some e)
          | inl guest => do r <- e2b (sendStdin keys sandboxID guest decoded); Ret (outcome_of r)
          end
      end
  end.

Definition handleProcessCloseStdin (sandboxID : string) (pid : Z) : envdP (option E2bError) :=
  if pid =? 0 then Ret (Some invalid)
  else
    do g <- requireGuestPID sandboxID pid;
    match g with
    | inr e => Ret (Some e)
    | inl guest => do r <- e2b (closeStdin keys sandboxID guest); Ret (outcome_of r)
    end.

Definition handleProcessSendSignal (sandboxID : string) (pid : Z) (raw : rawSignal) : envdP (option E2bError) :=
  if pid =? 0 then Ret (Some invalid)
  else match parseSignal raw with
  | inr e => Ret (Some e)
  | inl sig =>
      do row <- pty_of sandboxID pid;
      match row with
      | Some row => do r <- e2b (gw (TerminalSignal (pt_terminalID row) sig)); Ret (outcome_of_res r)
      | None =>
          if decide (sig = SIGNAL_INT) then Ret (Some invalid)
          else
            do g <- requireGuestPID sandboxID pid;
            match g with
            | inr e => Ret (Some e)
            | inl guest =>
                do r <- e2b (signal keys sandboxID guest (sigName sig));
                Ret (match r with
                     | inr NotFoundError => Some (connectError "not_found")
                     | r => outcome_of r
                     end)
            end
      end
  end.

Definition handleProcessUpdate (sandboxID : string) (pid : Z) (rows cols : option Z) : envdP (option E2bError) :=
  if pid =? 0 then Ret (Some invalid)
  else
    do row <- pty_of sandboxID pid;
    match row with
    | None => Ret (Some invalid)
    | Some row =>
        let '(rows, cols) := resizeSize rows cols in
        if (rows <? 1) || (cols <? 1) then Ret (Some invalid)
        else
          do r <- e2b (gw (TerminalResize (pt_terminalID row) rows cols));
          match r with
          | Err _ => Ret (Some (connectError "internal"))
          | Ok _ =>
              do! call (Mem (fun s : Envd R => (tt, with_ptys
                (alter (fun row => mkPtyRow (pt_terminalID row) (pt_sandboxID row) (pt_pid row) rows cols) pid
                  (ev_ptys s)) s)));
              Ret None
          end
    end.

(** The sandbox's own table, or the records of this server. *)
Definition handleProcessList (sandboxID : string) : envdP (list sandboxProcess + list ProcessRecord) :=
  do r <- e2b (processList keys sandboxID);
  match r with
  | inl l => Ret (inl l)
  | inr _ => do l <- call (Mem (fun s : Envd R => (List_ (ev_procs s) sandboxID, s))); Ret (inr l)
  end.

(** [process.Process/Start], decoded; [sb_pty]: the rows and columns of a pty
    block. *)
Record startBody := mkStartBody {
  sb_cmd : string; sb_args : list string; sb_envs : gmap string string; sb_cwd : string;
  sb_stdin : bool; sb_pty : option (option Z * option Z);
}.

(** The pid frame, the data frames and the end frame; [Hung]: the stream never
    ends. *)
Inductive startReply :=
  | StartError (e : E2bError)
  | Streamed (pid : Z) (out : list string) (exitCode : Z) (status : string)
  | Hung (pid : Z).

Definition on_table (f : ProcessTable -> ProcessTable) : envdP unit :=
  call (Mem (fun s : Envd R => (tt, with_procs (f (ev_procs s)) s))).

(** An end whose channel were closed already would panic. *)
Definition end_process (pid : Z) : envdP unit :=
  do told <- call (Mem (fun s : Envd R =>
    match End_ pid (ev_procs s) with
    | Some (subs, t) => (Some subs, with_procs t s)
    | None => (None, s)
    end));
  match told with Some _ => Ret tt | None => Panic "close of closed channel" end.

(** A stream enters: subscribed, and replaced by its keepalive. *)
Definition watch (pid sub : Z) : envdP bool :=
  do ok <- call (Mem (fun s : Envd R =>
    let '(ok, t) := Subscribe pid (Stream sub) (ev_procs s) in (ok, with_procs t s)));
  if negb ok then Ret false
  else do! on_table (ReplaceSubscriber pid (Stream sub) (Keepalive sub)); Ret true.

Context `{FJ : FrameJSON}.

(** The whole run of a command, the reader included. *)
Definition run_command (sandboxID : string) (pid : Z) (command cwd : string) : envdP (option (list string * Z)) :=
  do r <- e2b (gw (ExecStream (mkExecRequest sandboxID command (24 * 60 * 60) cwd false "")));
  let reader := foldl (fun s chunk => recv chunk s) new_reader (fst r) in
  do! match rd_guest reader with Some g => on_table (SetGuestPID pid g) | None => Ret tt end;
  match finish reader with
  | None => Ret None
  | Some (out, code) => do! end_process pid; Ret (Some (out, code))
  end.

Context (json_frame : string -> option (option Z * string)) (base64_decode : string -> option string).

(** [drainTerminalStream]: the output, and the exit code of the first exit
    frame. *)
Fixpoint drain_frames (frames : list ptyStreamFrame) : list string * Z :=
  match frames with
  | [] => ([], -1)
  | FData data :: frames =>
      let '(out, code) := drain_frames frames in ((if decide (data = "") then out else data :: out), code)
  | FExit code _ :: _ => ([], code)
  | FPid :: frames => drain_frames frames
  end.

Definition runPtyStart (sandboxID : string) (b : startBody) (size : option Z * option Z) (sub : Z)
    : envdP startReply :=
  if decide (sandboxID = "") then Ret (StartError (connectError "unauthenticated"))
  else
    do w <- e2b (wakeForTraffic keys sandboxID);
    match w with
    | inr e => Ret (StartError e)
    | inl _ =>
        if decide (sb_cmd b = "") then Ret (StartError invalid)
        else
          let '(rows, cols) := ptyWindowSize (fst size) (snd size) in
          do r <- e2b (gw (CreateTerminal (mkCreateTerminal sandboxID (sb_cmd b :: sb_args b) (sb_cwd b) (sb_envs b) rows cols)));
          match r with
          | Err _ => Ret (StartError (connectError "internal"))
          | Ok (terminalID, guest) =>
              do pid <- call (Mem (fun s : Envd R =>
                let '(pid, t) := Start sandboxID
                  (mkProcessConfig (sb_cmd b) (sb_args b) (sb_envs b) (sb_cwd b) true) (ev_procs s) in
                (pid, with_procs t s)));
              do! on_table (SetGuestPID pid guest);
              do! call (Mem (fun s : Envd R =>
                (tt, with_ptys (registerPty (mkPtyRow terminalID sandboxID pid rows cols) (ev_ptys s)) s)));
              do ok <- watch pid sub;
              do r <- (if negb ok then Ret ([], -1)
                       else
                         do frames <- e2b (gw (TerminalStream json_frame base64_decode terminalID));
                         do! on_table (Unsubscribe pid (Stream sub));
                         Ret (drain_frames (fst frames)));
              do! e2b (gw (TerminalDestroy terminalID 1000));
              do! end_process pid;
              do! call (Mem (fun s : Envd R => (tt, with_ptys (dropPty pid (ev_ptys s)) s)));
              Ret (Streamed pid (fst r) (snd r) (exitStatus (snd r)))
          end
    end.

(** The environment of the body is recorded and goes no further. *)
Definition handleProcessStart (sandboxID : string) (body : option startBody) (sub : Z) : envdP startReply :=
  match body with
  | None => Ret (StartError invalid)
  | Some b =>
      match sb_pty b with
      | Some size => runPtyStart sandboxID b size sub
      | None =>
      let command := extractShellCommand (sb_cmd b) (sb_args b) in
      if decide (command = "") then Ret (StartError invalid)
      else if sb_stdin b then Ret (StartError (connectError "unimplemented"))
      else if decide (sandboxID = "") then Ret (StartError (connectError "unauthenticated"))
      else
        do w <- e2b (wakeForTraffic keys sandboxID);
        match w with
        | inr e => Ret (StartError e)
        | inl _ =>
            do pid <- call (Mem (fun s : Envd R =>
              let '(pid, t) := Start sandboxID
                (mkProcessConfig (sb_cmd b) (sb_args b) (sb_envs b) (sb_cwd b) false) (ev_procs s) in
              (pid, with_procs t s)));
            do ok <- watch pid sub;
            if negb ok then Ret (StartError (connectError "not_found"))
            else
              do r <- run_command sandboxID pid command (sb_cwd b);
              match r with
              | None => Ret (Hung pid)
              | Some (out, code) =>
                  do! on_table (Unsubscribe pid (Stream sub));
                  Ret (Streamed pid out code (exitStatus code))
              end
        end
      end
  end.

(** What a client that connects to a pid is given. *)
Inductive connection :=
  | ConnectError (e : E2bError)
  | TerminalOf (terminalID : string)
  | Replay (raw : string)
  | Watching (sub : Sub).

(** [sub]: the new stream; on the local path it is subscribed and at once
    replaced by its keepalive. *)
Definition handleProcessConnect (sandboxID : string) (pid sub : Z) : envdP connection :=
  if pid =? 0 then Ret (ConnectError invalid)
  else
    do rec <- call (Mem (fun s : Envd R => (Get (ev_procs s) sandboxID pid, s)));
    match rec with
    | None =>
        do r <- e2b (attach keys sandboxID pid);
        Ret (match r with inr _ => ConnectError (connectError "not_found") | inl raw => Replay raw end)
    | Some rec =>
        if pc_Pty (pr_Config rec) then
          do row <- pty_of sandboxID pid;
          Ret (match row with
               | None => ConnectError (connectError "not_found")
               | Some row => TerminalOf (pt_terminalID row)
               end)
        else
          do ok <- watch pid sub;
          Ret (if negb ok then ConnectError (connectError "not_found") else Watching (Keepalive sub))
    end.
End server.

(** ** The table stays well formed *)

Definition table_ok (t : ProcessTable) : Prop :=
  1000 <= t_nextPid t /\
  (forall pid rec, t_records t !! pid = Some rec ->
     pr_PID rec = pid /\ 1000 <= pid < t_nextPid t /\ pid ∉ t_closed t) /\
  (forall pid, pid ∈ t_closed t -> pid < t_nextPid t).

Inductive table_step (t : ProcessTable) : ProcessTable -> Prop :=
  | step_start id cfg : table_step t (snd (Start id cfg t))
  | step_guest pid g : table_step t (SetGuestPID pid g t)
  | step_subscribe pid sub : table_step t (snd (Subscribe pid sub t))
  | step_unsubscribe pid sub : table_step t (Unsubscribe pid sub t)
  | step_replace pid old fresh : table_step t (ReplaceSubscriber pid old fresh t)
  | step_end pid told t' : End_ pid t = Some (told, t') -> table_step t t'.

Lemma table_ok_change pid f t : (forall r, pr_PID (f r) = pr_PID r) -> table_ok t -> table_ok (change pid f t).
Proof.
  intros Hf (Hn & Hr & Hc). split; [done|]. split; [|done]. intros p rec. simpl.
  destruct (decide (p = pid)) as [->|Hne].
  - rewrite lookup_alter_eq. intros (r & Hp & ->)%fmap_Some. rewrite Hf. by apply Hr.
  - rewrite lookup_alter_ne by done. apply Hr.
Qed.

Lemma table_ok_step t t' : table_step t t' -> table_ok t -> table_ok t'.
Proof.
  intros [id cfg|pid g|pid sub|pid sub|pid old fresh|pid told t1 He] Ht; try (by apply table_ok_change).
  - destruct Ht as (Hn & Hr & Hc). split; [simpl; lia|]. split.
    + intros p rec. simpl. intros [[<- <-]|[Hne Hp]]%lookup_insert_Some.
      * split; [done|]. split; [lia|]. intros H%Hc. lia.
      * destruct (Hr _ _ Hp) as (H1 & H2 & H3). split; [done|]. split; [lia|done].
    + intros p Hp. simpl. pose proof (Hc p Hp). lia.
  - unfold Subscribe. destruct (t_records t !! pid); [by apply table_ok_change|done].
  - unfold End_ in He. destruct (t_records t !! pid) as [rec|] eqn:E; [|by injection He as _ <-].
    case_decide; [done|]. injection He as _ <-. destruct Ht as (Hn & Hr & Hc). split; [done|]. split.
    + intros p r. simpl. intros [Hne Hp]%lookup_delete_Some. destruct (Hr _ _ Hp) as (H1 & H2 & H3).
      split; [done|]. split; [done|]. set_solver.
    + intros p. simpl. intros [->%elem_of_singleton|Hp]%elem_of_union; [|by apply Hc].
      apply (Hr _ _ E).
Qed.

(** C38. Whatever is done to the table, each process sits under its own pid, a
    new process gets a pid no process has or had, a channel is never closed
    twice, and pids below 1000 (those of a sandbox) name no process. *)
Theorem process_table_wf t :
  rtc table_step NewProcessTable t ->
  (forall id pid rec, Get t id pid = Some rec -> pr_PID rec = pid /\ pr_SandboxID rec = id /\ 1000 <= pid) /\
  (forall id cfg, let pid := fst (Start id cfg t) in t_records t !! pid = None /\ pid ∉ t_closed t) /\
  (forall pid, End_ pid t <> None) /\
  (forall pid closed, Done_ t pid = Some closed -> closed = false).
Proof.
  intros Hreach. assert (table_ok t) as (Hn & Hr & Hc).
  { assert (table_ok NewProcessTable) as H0.
    { split; [done|]. split; [intros pid rec H; exfalso; exact (lookup_empty_Some pid rec H)|]. simpl. set_solver. }
    revert H0. induction Hreach as [t|t1 t2 t3 H12 _ IH]; [done|]. intros H1. apply IH. by eapply table_ok_step. }
  split; [|split; [|split]].
  - intros id pid rec. unfold Get. destruct (t_records t !! pid) as [r|] eqn:E; [|done].
    case_decide as Hs; [done|]. intros [= <-]. destruct (Hr _ _ E) as (H1 & H2 & _).
    split; [done|]. split; [destruct (decide (pr_SandboxID r = id)); [done|by destruct Hs]|lia].
  - intros id cfg. simpl. split; [|intros H%Hc; lia].
    destruct (t_records t !! t_nextPid t) as [r|] eqn:E; [|done]. destruct (Hr _ _ E) as (_ & H & _). lia.
  - intros pid. unfold End_. destruct (t_records t !! pid) as [r|] eqn:E; [|done].
    destruct (Hr _ _ E) as (_ & _ & H). by rewrite decide_False.
  - intros pid closed. unfold Done_. destruct (t_records t !! pid) as [r|] eqn:E; [|done].
    destruct (Hr _ _ E) as (_ & _ & H). intros [= <-]. by apply bool_decide_eq_false.
Qed.

(** ** Streams that come and go *)

Lemma remove_first_absent sub l : sub ∉ l -> remove_first sub l = l.
Proof.
  induction l as [|s l IH]; intros H; [done|]. simpl. rewrite decide_False by set_solver. by rewrite IH by set_solver.
Qed.

Lemma replace_first_last old fresh l : old ∉ l -> replace_first old fresh (l ++ [old]) = l ++ [fresh].
Proof.
  induction l as [|s l IH]; intros H; simpl; [by rewrite decide_True|].
  rewrite decide_False by set_solver. by rewrite IH by set_solver.
Qed.

(** A stream that leaves is not taken off its process: it subscribed,
    was replaced by its keepalive, and unsubscribes under its own name, which
    the list no longer holds. *)
Theorem keepalive_outlives_stream t pid rec n :
  t_records t !! pid = Some rec -> Stream n ∉ pr_Subs rec ->
  let t1 := snd (Subscribe pid (Stream n) t) in
  let t2 := ReplaceSubscriber pid (Stream n) (Keepalive n) t1 in
  Broadcast (Unsubscribe pid (Stream n) t2) pid = pr_Subs rec ++ [Keepalive n].
Proof.
  intros Hrec Hn t1 t2. unfold Broadcast, Unsubscribe, t2, ReplaceSubscriber, t1, Subscribe, change. rewrite Hrec.
  simpl. rewrite !lookup_alter_eq, Hrec. simpl. rewrite replace_first_last by done.
  apply remove_first_absent. rewrite elem_of_app, list_elem_of_singleton. by intros [H|H].
Qed.

(** ** Other sandboxes' processes *)

Inductive processCall :=
  | Input (data : option string) | CloseIn | Sig (raw : rawSignal) | Resize (rows cols : option Z).

Section isolation.
Context `{QP : QuantityParser} {R : Type} `{ST : StateStore R}.
Context (keys : SandboxSession -> list string).

(** An environment in which everything but the server's own memory may behave
    in any way: what ends in the state it began in has touched nothing else. *)
Definition wild : contract (gwE (Envd R)) (Envd R * Cluster) :=
  fun X e v =>
    match e in gwE _ X return X -> Envd R * Cluster -> Prop with
    | Mem f => fun x v' => x = fst (f (fst v)) /\ v' = (snd (f (fst v)), snd v)
    | _ => fun _ _ => True
    end.

Definition handleProcess (sandboxID : string) (pid : Z) (c : processCall) : prog (gwE (Envd R)) (option E2bError) :=
  match c with
  | Input data => handleProcessSendInput keys sandboxID pid data
  | CloseIn => handleProcessCloseStdin keys sandboxID pid
  | Sig raw => handleProcessSendSignal keys sandboxID pid raw
  | Resize rows cols => handleProcessUpdate sandboxID pid rows cols
  end.

Lemma requireGuestPID_none {B} sandboxID pid (f : Z + E2bError -> prog (gwE (Envd R)) B) Q v :
  Get (ev_procs (fst v)) sandboxID pid = None ->
  wp wild (f (inr (connectError "not_found"))) Q v -> wp wild (bind (requireGuestPID sandboxID pid) f) Q v.
Proof.
  destruct v as [s c]. intros Hg Hf. unfold requireGuestPID. apply wp_assoc. intros x v' [-> ->].
  cbn [fst snd] in *. apply wp_ret_bind. rewrite Hg. by apply wp_ret_bind.
Qed.

Lemma pty_of_none {B} sandboxID pid (f : option ptyRow -> prog (gwE (Envd R)) B) Q v :
  ptyForSandbox (ev_ptys (fst v)) pid sandboxID = None ->
  wp wild (f None) Q v -> wp wild (bind (pty_of sandboxID pid) f) Q v.
Proof.
  destruct v as [s c]. intros Hp Hf x v' [-> ->]. cbn [fst snd] in *. apply wp_ret_bind. by rewrite Hp.
Qed.

(** A call that names a pid of another sandbox, or of no process, fails; no
    request is sent to a pod and no terminal is touched, whatever those would
    do. *)
Theorem foreign_process_untouched id pid c v :
  Get (ev_procs (fst v)) id pid = None -> ptyForSandbox (ev_ptys (fst v)) pid id = None ->
  wp wild (handleProcess id pid c) (fun o v' => (exists e, o = Done (Some e)) /\ v' = v) v.
Proof.
  intros Hg Hp. assert (forall e : E2bError, wp wild (Ret (Some e)) (fun o v' => (exists e, o = Done (Some e)) /\ v' = v) v) as Hfail
    by (intros e; split; [by eexists|done]).
  destruct c as [data| |raw|rows cols]; cbn [handleProcess].
  - unfold handleProcessSendInput. case_match; [apply Hfail|]. destruct data as [d|]; [|apply Hfail].
    apply pty_of_none; [done|]. apply requireGuestPID_none; [done|apply Hfail].
  - unfold handleProcessCloseStdin. case_match; [apply Hfail|]. apply requireGuestPID_none; [done|apply Hfail].
  - unfold handleProcessSendSignal. case_match; [apply Hfail|]. destruct (parseSignal raw) as [sig|e]; [|apply Hfail].
    apply pty_of_none; [done|]. case_decide; [apply Hfail|]. apply requireGuestPID_none; [done|apply Hfail].
  - unfold handleProcessUpdate. case_match; [apply Hfail|]. apply pty_of_none; [done|apply Hfail].
Qed.
End isolation.

(** ** What is left of a process *)

Section ending.
Context `{QP : QuantityParser} {R : Type} `{ST : StateStore R, FJ : FrameJSON} (faults : bool).
Context (keys : SandboxSession -> list string).
Context (json_frame : string -> option (option Z * string)) (base64_decode : string -> option string).
#[local] Notation C := (kube_contract (Envd R) faults).
Implicit Types v : Envd R * Cluster.

Definition listed (pid : Z) v : Prop :=
  is_Some (t_records (ev_procs (fst v)) !! pid) /\ pid ∉ t_closed (ev_procs (fst v)).
Definition gone (pid : Z) v : Prop :=
  t_records (ev_procs (fst v)) !! pid = None /\ pid ∈ t_closed (ev_procs (fst v)).

(** A call on the rest of the server leaves the table alone. *)
Lemma wp_e2b {A B} (p : prog (gwE (E2B R)) A) (f : A -> prog (gwE (Envd R)) B) Q v :
  (forall v', ev_procs (fst v') = ev_procs (fst v) -> Q Panicked v') ->
  (forall a v', ev_procs (fst v') = ev_procs (fst v) -> wp C (f a) Q v') ->
  wp C (bind (e2b p) f) Q v.
Proof.
  destruct v as [s c]. intros HP HQ. apply wp_bind, wp_zoom. eapply wp_mono; [|apply wp_true].
  intros o v' _. destruct o; [by apply HQ|by apply HP].
Qed.

Lemma wp_table {B} g (f : unit -> prog (gwE (Envd R)) B) Q v pid :
  (forall t, is_Some (t_records t !! pid) -> is_Some (t_records (g t) !! pid)) ->
  (forall t, t_closed (g t) = t_closed t) ->
  listed pid v -> (forall v', listed pid v' -> wp C (f tt) Q v') -> wp C (bind (on_table g) f) Q v.
Proof.
  destruct v as [s c]. intros Hg Hc [H1 H2] HQ x v' [-> ->]. apply HQ. split; simpl in *; [by apply Hg|by rewrite Hc].
Qed.

Lemma listed_change pid p f t : is_Some (t_records t !! pid) -> is_Some (t_records (change p f t) !! pid).
Proof.
  intros H. simpl. destruct (decide (pid = p)) as [->|Hne]; [rewrite lookup_alter_eq; by apply fmap_is_Some|].
  by rewrite lookup_alter_ne.
Qed.

Lemma wp_watch {B} pid sub (f : bool -> prog (gwE (Envd R)) B) Q v :
  listed pid v -> (forall v', listed pid v' -> wp C (f true) Q v') -> wp C (bind (watch pid sub) f) Q v.
Proof.
  destruct v as [s c]. intros [H1 H2] HQ. unfold watch. apply wp_assoc. intros x v' [-> ->].
  unfold Subscribe. cbn [fst snd] in *. destruct (t_records (ev_procs s) !! pid) as [rec|] eqn:E; [|by destruct H1].
  cbn [negb]. apply wp_assoc. apply (wp_table _ _ _ _ pid); [intros t; apply listed_change|done| |].
  - split; cbn [fst ev_procs with_procs]; [apply listed_change; by rewrite E|done].
  - intros v' Hv. apply wp_ret_bind. by apply HQ.
Qed.

Lemma wp_end {B} pid (f : unit -> prog (gwE (Envd R)) B) Q v :
  listed pid v -> (forall v', gone pid v' -> wp C (f tt) Q v') -> wp C (bind (end_process pid) f) Q v.
Proof.
  destruct v as [s c]. intros [H1 H2] HQ. unfold end_process. apply wp_assoc. intros x v' [-> ->].
  unfold End_. cbn [fst snd] in *. destruct (t_records (ev_procs s) !! pid) as [rec|] eqn:E; [|by destruct H1].
  rewrite decide_False by done. cbn [fst snd]. apply wp_ret_bind. apply HQ. split; simpl; [apply lookup_delete_eq|set_solver].
Qed.

Lemma wp_start {B} id cfg (f : Z -> prog (gwE (Envd R)) B) Q v :
  table_ok (ev_procs (fst v)) ->
  (forall pid v', listed pid v' -> wp C (f pid) Q v') ->
  wp C (bind (call (Mem (fun s : Envd R => let '(pid, t) := Start id cfg (ev_procs s) in (pid, with_procs t s)))) f) Q v.
Proof.
  destruct v as [s c]. intros (Hn & Hr & Hc) HQ x v' [-> ->]. apply HQ. split; simpl in *; [by rewrite lookup_insert_eq|].
  intros H%Hc. lia.
Qed.

Lemma gone_unsubscribe pid sub v v' :
  ev_procs (fst v') = Unsubscribe pid sub (ev_procs (fst v)) -> gone pid v -> gone pid v'.
Proof. intros E [H1 H2]. unfold gone. rewrite E. split; [|done]. simpl. by rewrite lookup_alter_eq, H1. Qed.

Lemma run_pty_gone id b size sub v :
  table_ok (ev_procs (fst v)) ->
  wp C (runPtyStart keys json_frame base64_decode id b size sub) (fun o v' =>
    forall pid out code status, o = Done (Streamed pid out code status) -> gone pid v' /\ status = exitStatus code) v.
Proof.
  intros Ht. unfold runPtyStart. case_decide; [by intros|]. apply wp_e2b; [by intros|]. intros w v1 E1.
  destruct w as [w|e]; [|by intros]. case_decide; [by intros|]. destruct (ptyWindowSize _ _) as [rows cols].
  apply wp_e2b; [by intros|]. intros r v2 E2. destruct r as [[terminalID guest]|e]; [|by intros].
  apply wp_start; [by rewrite E2, E1|]. intros pid v3 H3.
  apply (wp_table _ _ _ _ pid); [intros t; apply listed_change|done|exact H3|]. intros v4 H4.
  intros u4 v5 [-> ->]. apply (wp_watch pid); [exact H4|]. intros v6 H6. cbn [negb].
  apply wp_assoc, wp_e2b; [by intros|]. intros frames v7 E7.
  apply wp_assoc, (wp_table _ _ _ _ pid); [intros t; apply listed_change|done|unfold listed; by rewrite E7|].
  intros v8 H8. apply wp_ret_bind. apply wp_e2b; [by intros|]. intros r v9 E9.
  apply wp_end; [unfold listed; by rewrite E9|]. intros v10 H10.
  intros u11 v11 [-> ->]. apply wp_ret. intros pid' out code status [= <- _ <- <-]. by split.
Qed.

(** When a started command has been streamed to its end, its process is
    off the table and its channel closed, and the status fits the exit code;
    the same holds of a terminal. *)
Theorem streamed_process_gone id body sub v :
  table_ok (ev_procs (fst v)) ->
  wp C (handleProcessStart keys json_frame base64_decode id body sub) (fun o v' =>
    forall pid out code status, o = Done (Streamed pid out code status) -> gone pid v' /\ status = exitStatus code) v.
Proof.
  intros Ht. unfold handleProcessStart. destruct body as [b|]; [|by intros].
  destruct (sb_pty b) as [size|]; [by apply run_pty_gone|].
  case_decide; [by intros|]. destruct (sb_stdin b); [by intros|]. case_decide; [by intros|].
  apply wp_e2b; [by intros|]. intros w v1 E1. destruct w as [w|e]; [|by intros].
  apply wp_start; [by rewrite E1|]. intros pid v2 H2. apply (wp_watch pid); [exact H2|]. intros v3 H3. cbn [negb].
  unfold run_command. apply wp_assoc, wp_e2b; [by intros|]. intros r v4 E4. apply wp_assoc.
  set (reader := foldl _ _ _). set (k := fun _ : unit => _).
  assert (forall v5, listed pid v5 -> wp C (k tt) (fun o v' =>
    forall pid out code status, o = Done (Streamed pid out code status) -> gone pid v' /\ status = exitStatus code) v5) as Hk.
  { intros v5 H5. subst k. cbn beta. destruct (finish reader) as [[out code]|]; [|by intros].
    apply wp_assoc, wp_end; [done|]. intros v6 H6. apply wp_ret_bind. intros u v7 [-> ->]. apply wp_ret.
    intros pid' out' code' status [= <- _ <- <-]. split; [|done]. by eapply gone_unsubscribe. }
  destruct (rd_guest reader) as [g|].
  - apply (wp_table _ _ _ _ pid); [intros t; apply listed_change|done|unfold listed; by rewrite E4|exact Hk].
  - apply wp_ret_bind, Hk. unfold listed. by rewrite E4.
Qed.
End ending.

(** ** Witnesses *)

Definition shell_config : ProcessConfig := mkProcessConfig "/bin/bash" ["-c"; "sleep 1"] ∅ "" false.

(** A table in which sandbox [s1] runs process 1000, known as 77 inside. *)
Definition busy_table : ProcessTable := SetGuestPID 1000 77 (snd (Start "s1" shell_config NewProcessTable)).

Lemma process_table_wf_witness :
  (Get busy_table "s1" 1000 ≫= pr_GuestPID) = Some 77 /\ Get busy_table "s1" 77 = None /\
  End_ 1000 busy_table <> None.
Proof.
  assert (rtc table_step NewProcessTable busy_table) as Hr.
  { eapply rtc_l; [apply (step_start _ "s1" shell_config)|]. eapply rtc_l; [apply (step_guest _ 1000 77)|]. apply rtc_refl. }
  destruct (process_table_wf busy_table Hr) as (H1 & _ & H3 & _). split; [by vm_compute|]. split; [|apply H3].
  destruct (Get busy_table "s1" 77) as [rec|] eqn:E; [|done]. destruct (H1 _ _ _ E) as (_ & _ & H). lia.
Defined.

Lemma keepalive_outlives_stream_witness :
  let t1 := snd (Subscribe 1000 (Stream 5) busy_table) in
  let t2 := ReplaceSubscriber 1000 (Stream 5) (Keepalive 5) t1 in
  Broadcast (Unsubscribe 1000 (Stream 5) t2) 1000 = [Keepalive 5].
Proof.
  assert (exists rec, t_records busy_table !! 1000 = Some rec /\ pr_Subs rec = []) as (rec & Hrec & Hs)
    by (eexists; split; by vm_compute).
  assert (Stream 5 ∉ pr_Subs rec) as Hn by (rewrite Hs; set_solver).
  etrans; [exact (keepalive_outlives_stream busy_table 1000 rec 5 Hrec Hn)|]. by rewrite Hs.
Defined.

Definition busy_server : Envd unit * Cluster :=
  (mkEnvd (mkE2B (NewServer false) tt ∅) busy_table ∅, snd session_world).

(** The pid that the sandbox itself lists is no pid of this surface. *)
Lemma foreign_process_untouched_witness :
  wp wild (handleProcess (fun _ => []) "s1" 77 (Sig (SignalNumber 9)))
    (fun o v' => (exists e, o = Done (Some e)) /\ v' = busy_server) busy_server /\
  wp wild (handleProcess (fun _ => []) "s2" 1000 (Input (Some "exit")))
    (fun o v' => (exists e, o = Done (Some e)) /\ v' = busy_server) busy_server.
Proof.
  split; apply foreign_process_untouched; by vm_compute.
Defined.

#[local] Instance sample_frames : FrameJSON := mkFrameJSON (member_of "exit") (member_of "pid").

Definition shell_start : startBody := mkStartBody "/bin/bash" ["-l"; "-c"; "ls"] ∅ "" false None.
Definition idle_server : Envd Registry * Cluster :=
  (mkEnvd (fst (sandbox_world "kill" (100 * second) (snd session_world))) NewProcessTable ∅, snd session_world).

(** The sample daemon sends nothing: the command counts as killed. *)
Lemma streamed_process_gone_witness :
  let r := run (live_handler _)
    (handleProcessStart env_keys (fun _ => None) (fun _ => None) "s1" (Some shell_start) 5) idle_server in
  fst r = Done (Streamed 1000 [] (-1) "killed") /\ gone 1000 (snd r).
Proof.
  cbv zeta. assert (table_ok (ev_procs (fst idle_server))) as Ht.
  { split; [done|]. split; [intros pid rec H; exfalso; exact (lookup_empty_Some pid rec H)|]. simpl. set_solver. }
  pose proof (sample_run _ _ _ (streamed_process_gone false env_keys (fun _ => None) (fun _ => None) "s1"
    (Some shell_start) 5 idle_server Ht)) as H.
  assert (fst (run (live_handler _) (handleProcessStart env_keys (fun _ => None) (fun _ => None) "s1"
    (Some shell_start) 5) idle_server) = Done (Streamed 1000 [] (-1) "killed")) as Hr by (vm_compute; reflexivity).
  split; [exact Hr|]. exact (proj1 (H _ _ _ _ Hr)).
Defined.
