(* ===== verification/SecretsEncrypt.v ===== *)
(** * Rotation of the keys that encrypt secrets

    [pkg/secretsencrypt/config.go] and [pkg/server/secrets-encrypt.go]: the
    encryption configuration of the API server, the stages of a key rotation
    recorded on the nodes, and the handler of [k8e secrets-encrypt].  The API
    server reads the file when it starts and again when it notices a change;
    it writes with the first provider and reads with all. *)
From S2P Require Import Prelude Prog Sha256 Signed.
From Stdlib Require Import ZArith Lia.

(** ** The configuration *)

Record EncKey := mkEncKey { ek_Name : string; ek_Secret : string }.
#[export] Instance EncKey_eq_dec : EqDecision EncKey.
Proof. solve_decision. Defined.

(** A provider: the pointers that are set. *)
Record Provider := mkProvider { pv_AESCBC : option (list EncKey); pv_Identity : bool; pv_other : bool }.

#[export] Instance Provider_eq_dec : EqDecision Provider.
Proof. solve_decision. Defined.

Definition aescbc (keys : list EncKey) : Provider := mkProvider (Some keys) false false.
Definition identity_provider : Provider := mkProvider None true false.

(** The file's JSON, with what is relied on: what was written is read back. *)
Class ConfigJSON := mkConfigJSON {
  config_marshal : list Provider -> string;
  config_unmarshal : string -> option (list Provider);
  keys_marshal : list EncKey -> string;
  config_round_trip : forall ps, config_unmarshal (config_marshal ps) = Some ps;
}.

Definition EncryptionStart : string := "start".
Definition EncryptionPrepare : string := "prepare".
Definition EncryptionRotate : string := "rotate".
Definition EncryptionRotateKeys : string := "rotate_keys".
Definition EncryptionReencryptActive : string := "reencrypt_active".
Definition EncryptionReencryptFinished : string := "reencrypt_finished".
Definition EncryptionHashAnnotation : string := "k8e.io/encryption-config-hash".
Definition ControlPlaneRoleLabelKey : string := "node-role.kubernetes.io/control-plane".

(** ** Effects *)

(** [None] for the annotations: the map is nil. *)
Record ServerNode := mkServerNode {
  sn_name : string; sn_labels : gmap string string; sn_annots : option (gmap string string); sn_version : string;
}.

Inductive secE : Type -> Type :=
  | ReadConfig : secE (res string)
  | WriteConfig (content : string) : secE (res unit)
  | ReadHash : secE (res string)
  | WriteHash (content : string) : secE (res unit)
  | GetNode (name : string) : secE (res ServerNode)
  | UpdateNode (n : ServerNode) : secE (res unit)
  | ListServers : secE (res (list ServerNode))
  | ListSecrets : secE (res (list string))
  | UpdateSecret (s : string) : secE (res unit)
  | RandomSecret : secE (res string)
  | TimeText : secE string
  | ReloadMetrics (initial : bool) : secE (res (Z * Z))
  | DeadlinePassed : secE bool
  | SaveBootstrap : secE (res unit).

Abbreviation secP := (prog secE).

Section secrets.
Context `{CJ : ConfigJSON}.
(** [NODE_NAME], and whether a kubelet version is older than 1.28 ([None]: it
    does not parse). *)
Context (nodeName : string) (old_version : string -> option bool).

(** ** [pkg/secretsencrypt] *)

Definition GetEncryptionProviders : secP (res (list Provider)) :=
  try b <- call ReadConfig;
  Ret (match config_unmarshal b with Some ps => Ok ps | None => Err (Plain "unmarshal") end).

(** The keys of the providers in order, or an error for a provider that holds
    others. *)
Fixpoint collect_keys (includeIdentity : bool) (ps : list Provider) (acc : list EncKey) : res (list EncKey) :=
  match ps with
  | [] => Ok acc
  | p :: ps =>
      let acc := if pv_Identity p && includeIdentity then acc ++ [mkEncKey "identity" "identity"] else acc in
      let acc := match pv_AESCBC p with Some keys => acc ++ keys | None => acc end in
      if pv_other p then Err (Plain "non-standard encryption keys found") else collect_keys includeIdentity ps acc
  end.

Definition GetEncryptionKeys (includeIdentity : bool) : secP (res (list EncKey)) :=
  try ps <- GetEncryptionProviders;
  Ret (if (2 <? length ps)%nat then Err (Plain "more than 2 providers") else collect_keys includeIdentity ps []).

Definition config_of (keys : list EncKey) (enable : bool) : list Provider :=
  if enable then [aescbc keys; identity_provider] else [identity_provider; aescbc keys].

Definition WriteEncryptionConfig (keys : list EncKey) (enable : bool) : secP (res unit) :=
  call (WriteConfig (config_marshal (config_of keys enable))).

Definition config_hash (content : string) : string := hex (sha256 (bytes_of content)).

Definition GenEncryptionConfigHash : secP (res string) :=
  try b <- call ReadConfig; Ret (Ok (config_hash b)).

Definition GenReencryptHash (keyName : string) : secP (res string) :=
  try keys <- GetEncryptionKeys true;
  Ret (Ok (hex (sha256 (bytes_of (keys_marshal (keys ++ [mkEncKey keyName "12345"])))))).

Definition with_annotation (ann : string) (m : gmap string string) (n : ServerNode) : ServerNode :=
  mkServerNode (sn_name n) (sn_labels n) (Some (<[EncryptionHashAnnotation := ann]> m)) (sn_version n).

(** Assigning to a nil map panics. *)
Definition BootstrapEncryptionHashAnnotation (n : ServerNode) : secP (res ServerNode) :=
  try ann <- call ReadHash;
  match sn_annots n with
  | None => Panic "assignment to entry in nil map"
  | Some m => Ret (Ok (with_annotation ann m n))
  end.

Definition WriteEncryptionHashAnnotation (n : ServerNode) (skipFile : bool) (stage : string) : secP (res unit) :=
  try h <- GenEncryptionConfigHash;
  match sn_annots n with
  | None => Ret (Err (Plain "node annotations do not exist"))
  | Some m =>
      let ann := stage +:+ "-" +:+ h in
      try u <- call (UpdateNode (with_annotation ann m n));
      if skipFile then Ret (Ok tt) else call (WriteHash ann)
  end.

(** One poll every five seconds, for a minute: thirteen at most. *)
Fixpoint poll_reload (polls : nat) (successes time : Z) : secP (res unit) :=
  match polls with
  | O => Ret (Err (Plain "timed out"))
  | S polls =>
      try m <- call (ReloadMetrics false);
      if (m.2 <=? successes) || (m.1 <=? time) then
        do late <- call DeadlinePassed;
        if late : bool then Ret (Err (Plain "timed out")) else poll_reload polls successes time
      else Ret (Ok tt)
  end.

Definition WaitForEncryptionConfigReload (successes time : Z) : secP (res unit) := poll_reload 13 successes time.

(** ** [pkg/server/secrets-encrypt.go] *)

(** [retry.RetryOnConflict] with its default of five attempts. *)
Fixpoint retry_on_conflict (attempts : nat) (p : secP (res unit)) : secP (res unit) :=
  match attempts with
  | O => Ret (Err (Api RConflict))
  | S attempts =>
      do r <- p;
      match r with
      | Err (Api RConflict) => retry_on_conflict attempts p
      | r => Ret r
      end
  end.

Definition on_node (f : ServerNode -> secP (res unit)) : secP (res unit) :=
  retry_on_conflict 5 (try n <- call (GetNode nodeName); f n).

Definition annotate (skipFile : bool) (stage : string) : secP (res unit) :=
  on_node (fun n => WriteEncryptionHashAnnotation n skipFile stage).

Definition dash : Ascii.ascii := Ascii.Ascii true false true true false true false false.

(** The stage and the hash recorded on this node. *)
Definition getEncryptionHashAnnotation : secP (res (string * string)) :=
  try n <- call (GetNode nodeName);
  Ret (match sn_labels n !! ControlPlaneRoleLabelKey with
       | None => Err (Plain "non control-plane node")
       | Some _ =>
           match sn_annots n ≫= lookup EncryptionHashAnnotation with
           | None => Err (Plain "missing annotation")
           | Some ann =>
               match split_on dash ann with
               | [stage; h] => Ok (stage, h)
               | _ => Err (Plain "invalid annotation")
               end
           end
       end).

(** Whether the nodes that have the annotation agree on it. *)
Fixpoint agree (first : option string) (l : list ServerNode) : bool :=
  match l with
  | [] => true
  | n :: l =>
      match sn_annots n ≫= lookup EncryptionHashAnnotation, first with
      | None, _ => agree first l
      | Some h, None => agree (Some h) l
      | Some h, Some f => if decide (h = f) then agree first l else false
      end
  end.

Definition verifyEncryptionHashAnnotation (prevStage : string) : secP (res unit) :=
  try nodes <- call ListServers;
  if negb (agree None nodes) then Ret (Err (Plain "hash does not match"))
  else if decide (prevStage = "") then Ret (Ok tt)
  else
    try old <- getEncryptionHashAnnotation;
    try h <- GenEncryptionConfigHash;
    if negb (contains prevStage old.1) then
      match nodes with [] => Panic "index out of range" | _ => Ret (Err (Plain "incorrect stage")) end
    else if decide (old.2 <> h) then
      match nodes with [] => Panic "index out of range" | _ => Ret (Err (Plain "invalid hash")) end
    else Ret (Ok tt).

Definition AppendNewEncryptionKey (keys : list EncKey) : secP (res (list EncKey)) :=
  try secret <- call RandomSecret;
  do now <- call TimeText;
  Ret (Ok (keys ++ [mkEncKey ("aescbckey-" +:+ now) secret])).

(** [append(keys[len-1:], keys[:len-1]...)]: slicing an empty list panics. *)
Definition right_rotate (keys : list EncKey) : option (list EncKey) :=
  match last keys with Some k => Some (k :: removelast keys) | None => None end.

(** The secrets are read and written back; a conflict means that another
    client has just written. *)
Fixpoint update_each (l : list string) : secP (res unit) :=
  match l with
  | [] => Ret (Ok tt)
  | s :: l =>
      do r <- call (UpdateSecret s);
      match r with
      | Err e => if decide (e = Api RConflict) then update_each l else Ret (Err (Plain "failed to update secret"))
      | Ok _ => update_each l
      end
  end.

Definition updateSecrets : secP (res unit) :=
  try l <- call ListSecrets; update_each l.

Definition reencryptAndRemoveKey (skip : bool) : secP (res unit) :=
  try u <- updateSecrets;
  if skip then
    on_node (fun n =>
      do r <- BootstrapEncryptionHashAnnotation n;
      call (UpdateNode (match r with Ok n => n | Err _ => n end)))
  else
    try curKeys <- GetEncryptionKeys false;
    match curKeys with
    | [] => Panic "index out of range"
    | _ =>
        try u <- WriteEncryptionConfig (removelast curKeys) true;
        try u <- annotate false EncryptionReencryptFinished;
        call SaveBootstrap
    end.

(** [verify(...); err != nil && !force] *)
Definition verified (prevStage : string) (force : bool) (k : secP (res unit)) : secP (res unit) :=
  do r <- verifyEncryptionHashAnnotation prevStage;
  match r with
  | Err e => if force then k else Ret (Err e)
  | Ok _ => k
  end.

Definition start_stages : string := EncryptionStart +:+ "-" +:+ EncryptionReencryptFinished.

Definition encryptionPrepare (force : bool) : secP (res unit) :=
  verified start_stages force (
    try curKeys <- GetEncryptionKeys false;
    try curKeys <- AppendNewEncryptionKey curKeys;
    try u <- WriteEncryptionConfig curKeys true;
    try u <- annotate false EncryptionPrepare;
    call SaveBootstrap).

Definition encryptionRotate (force : bool) : secP (res unit) :=
  verified EncryptionPrepare force (
    try curKeys <- GetEncryptionKeys false;
    match right_rotate curKeys with
    | None => Panic "slice bounds out of range"
    | Some rotated =>
        try u <- WriteEncryptionConfig rotated true;
        try u <- annotate false EncryptionRotate;
        call SaveBootstrap
    end).

Definition encryptionReencrypt (force skip : bool) : secP (res unit) :=
  verified EncryptionRotate force (
    try u <- annotate true EncryptionReencryptActive;
    reencryptAndRemoveKey skip).

Definition addAndRotateKeys : secP (res unit) :=
  try curKeys <- GetEncryptionKeys false;
  try curKeys <- AppendNewEncryptionKey curKeys;
  try u <- WriteEncryptionConfig curKeys true;
  match right_rotate curKeys with
  | None => Panic "slice bounds out of range"
  | Some rotated => WriteEncryptionConfig rotated true
  end.

Fixpoint all_support (l : list ServerNode) : res unit :=
  match l with
  | [] => Ok tt
  | n :: l =>
      match old_version (sn_version n) with
      | None => Err (Plain "failed to parse kubelet version")
      | Some true => Err (Plain "does not support rotate-keys")
      | Some false => all_support l
      end
  end.

Definition verifyRotateKeysSupport : secP (res unit) :=
  try nodes <- call ListServers; Ret (all_support nodes).

Definition encryptionRotateKeys : secP (res unit) :=
  try u <- verifyEncryptionHashAnnotation start_stages;
  try u <- verifyRotateKeysSupport;
  try m <- call (ReloadMetrics true);
  try u <- annotate true EncryptionReencryptActive;
  try u <- addAndRotateKeys;
  try u <- WaitForEncryptionConfigReload m.2 m.1;
  reencryptAndRemoveKey false.

(** The configuration has AESCBC before identity, or after. *)
Definition is_enabled (p0 p1 : Provider) : bool := pv_Identity p1 && bool_decide (is_Some (pv_AESCBC p0)).
Definition is_disabled (p0 p1 : Provider) : bool := pv_Identity p0 && bool_decide (is_Some (pv_AESCBC p1)).

(** The second provider is looked at without asking whether there is one. *)
Definition encryptionEnable (enable : bool) : secP (res unit) :=
  try ps <- GetEncryptionProviders;
  if (2 <? length ps)%nat then Ret (Err (Plain "more than 2 providers"))
  else
    try curKeys <- GetEncryptionKeys false;
    match ps with
    | p0 :: p1 :: _ =>
        let change :=
          try u <- WriteEncryptionConfig curKeys enable;
          try u <- call SaveBootstrap;
          reencryptAndRemoveKey true in
        if is_enabled p0 p1 && negb enable then change
        else if negb enable then Ret (Ok tt)
        else if is_disabled p0 p1 then change
        else Ret (Ok tt)
    | _ => Panic "index out of range"
    end.

Record EncryptionRequest := mkEncryptionRequest {
  er_Stage : option string; er_Enable : option bool; er_Force : bool; er_Skip : bool;
}.

(** [encryptionConfigHandler], once the method and the body are checked. *)
Definition encryptionConfigHandler (req : EncryptionRequest) : secP (res unit) :=
  match er_Stage req, er_Enable req with
  | Some stage, _ =>
      if decide (stage = EncryptionPrepare) then encryptionPrepare (er_Force req)
      else if decide (stage = EncryptionRotate) then encryptionRotate (er_Force req)
      else if decide (stage = EncryptionRotateKeys) then encryptionRotateKeys
      else if decide (stage = EncryptionReencryptActive) then encryptionReencrypt (er_Force req) (er_Skip req)
      else Ret (Err (Plain "unknown stage"))
  | None, Some enable => encryptionEnable enable
  | None, None => Ret (Ok tt)
  end.

(** [genEncryptionConfigAndState] of [daemons/control/deps/deps.go], at the
    start of a server: a configuration with one key, unless there is one. *)
Definition genEncryptionConfigAndState (EncryptSecrets : bool) : secP (res unit) :=
  if negb EncryptSecrets then Ret (Ok tt)
  else
    do c <- call ReadConfig;
    match c with
    | Ok (String _ _ as b) =>
        do h <- call ReadHash;
        match h with
        | Err (Plain "not exist") => call (WriteHash ("start-" +:+ config_hash b))
        | _ => Ret (Ok tt)
        end
    | _ =>
        try secret <- call RandomSecret;
        let b := config_marshal (config_of [mkEncKey "aescbckey" secret] true) in
        try u <- call (WriteConfig b);
        call (WriteHash ("start-" +:+ config_hash b))
    end.

(** ** Status *)

Record EncryptionState := mkEncryptionState {
  es_Stage : string; es_ActiveKey : string; es_Enable : option bool; es_HashMatch : bool;
  es_InactiveKeys : list string;
}.

(** The first AESCBC key is active unless the identity provider comes first. *)
Fixpoint key_names (active : bool) (ps : list Provider) (acc : string * list string) : string * list string :=
  match ps with
  | [] => acc
  | p :: ps =>
      let names := ek_Name <$> default [] (pv_AESCBC p) in
      let acc' := if active then match names with [] => acc | k :: names => (k, acc.2 ++ names) end
                  else (acc.1, acc.2 ++ names) in
      key_names (active && negb (pv_Identity p) && bool_decide (names = [])) ps acc'
  end.

Definition encryptionStatus (EncryptSecrets : bool) : secP (res EncryptionState) :=
  do r <- GetEncryptionProviders;
  match r with
  | Err (Plain "not exist") => Ret (Ok (mkEncryptionState "" "" None false []))
  | Err e => Ret (Err e)
  | Ok ps =>
      match ps with
      | p0 :: p1 :: _ =>
          let enable := if is_enabled p0 p1 then Some true
                        else if is_disabled p0 p1 || negb EncryptSecrets then Some false else None in
          do v <- verifyEncryptionHashAnnotation "";
          try s <- getEncryptionHashAnnotation;
          let '(activeKey, inactive) := key_names true ps ("", []) in
          Ret (Ok (mkEncryptionState s.1 activeKey enable (is_ok v) inactive))
      | _ => Panic "index out of range"
      end
  end.
End secrets.
