(* ===== verification/SecretsSafety.v ===== *)
(** * Key rotation and the readability of secrets

    Theorems about [SecretsEncrypt]: the stages follow each other, and a
    re-encryption that starts when the API server has loaded the file leaves
    every secret readable, whatever is refused and wherever the server dies;
    started earlier it does not. *)
From S2P Require Import Prelude Prog Sha256 Signed SecretsEncrypt.
From Stdlib Require Import ZArith Lia.

(** ** The API server and the files *)

(** The files, what the API server has loaded, the nodes, and for each secret
    the key it is encrypted with ([None]: it is stored as it is).  [w_fresh]
    are the secrets written since they were last listed. *)
Record World := mkWorld {
  w_file : option string; w_hash : option string; w_loaded : list Provider; w_reloads : Z;
  w_nodes : gmap string ServerNode; w_secrets : gmap string (option EncKey); w_fresh : gset string;
}.

Definition with_file (c : string) (w : World) : World :=
  mkWorld (Some c) (w_hash w) (w_loaded w) (w_reloads w) (w_nodes w) (w_secrets w) (w_fresh w).
Definition with_hash (c : string) (w : World) : World :=
  mkWorld (w_file w) (Some c) (w_loaded w) (w_reloads w) (w_nodes w) (w_secrets w) (w_fresh w).
Definition with_loaded (ps : list Provider) (w : World) : World :=
  mkWorld (w_file w) (w_hash w) ps (w_reloads w + 1) (w_nodes w) (w_secrets w) (w_fresh w).
Definition with_nodes (m : gmap string ServerNode) (w : World) : World :=
  mkWorld (w_file w) (w_hash w) (w_loaded w) (w_reloads w) m (w_secrets w) (w_fresh w).
Definition with_secrets (m : gmap string (option EncKey)) (f : gset string) (w : World) : World :=
  mkWorld (w_file w) (w_hash w) (w_loaded w) (w_reloads w) (w_nodes w) m f.

(** All keys of a configuration. *)
Definition all_keys (ps : list Provider) : list EncKey := mjoin ((fun p => default [] (pv_AESCBC p)) <$> ps).

(** Reading tries every provider, writing uses the first ([None]: it is not
    one the API server accepts). *)
Definition readable (ps : list Provider) (e : option EncKey) : Prop :=
  match e with Some k => k ∈ all_keys ps | None => exists p, p ∈ ps /\ pv_Identity p = true end.

#[export] Instance readable_dec ps e : Decision (readable ps e).
Proof.
  destruct e as [k|]; simpl; [apply _|].
  destruct (existsb pv_Identity ps) eqn:E; [left; apply existsb_exists in E as (p & ? & ?); exists p; by rewrite list_elem_of_In|].
  right. intros (p & Hp & Hi). rewrite existsb_false_iff, Forall_forall in E. apply E in Hp. congruence.
Defined.

Definition writes_with (ps : list Provider) : option (option EncKey) :=
  match ps with
  | p :: _ =>
      match pv_AESCBC p with
      | Some (k :: _) => Some (Some k)
      | Some [] => None
      | None => if pv_Identity p then Some None else None
      end
  | [] => None
  end.

(** The API server accepts a configuration in which no AESCBC provider is
    without keys. *)
Definition accepted (ps : list Provider) : bool :=
  negb (bool_decide (ps = [])) && forallb (fun p => match pv_AESCBC p with Some [] => false | _ => true end) ps.

Section world.
Context `{CJ : ConfigJSON}.

Definition file_config (w : World) : option (list Provider) := w_file w ≫= config_unmarshal.


(** One effect of the handler: each may be refused; a conflict on a secret
    tells that it was written since it was listed; there is a control-plane
    node. *)
Definition sec_step X (e : secE X) : World -> X -> World -> Prop :=
  match e in secE X return World -> X -> World -> Prop with
  | ReadConfig => fun w x w' => w' = w /\ forall c, x = Ok c -> w_file w = Some c
  | WriteConfig c => fun w x w' => (x = Ok tt /\ w' = with_file c w) \/ (is_ok x = false /\ w' = w)
  | ReadHash => fun w x w' => w' = w /\ forall c, x = Ok c -> w_hash w = Some c
  | WriteHash c => fun w x w' => (x = Ok tt /\ w' = with_hash c w) \/ (is_ok x = false /\ w' = w)
  | GetNode n => fun w x w' => w' = w /\ forall y, x = Ok y -> w_nodes w !! n = Some y
  | UpdateNode n => fun w x w' =>
      (x = Ok tt /\ w' = with_nodes (<[sn_name n := n]> (w_nodes w)) w) \/ (is_ok x = false /\ w' = w)
  | ListServers => fun w x w' => w' = w /\ forall l, x = Ok l -> l <> [] /\
      forall i n, w_nodes w !! i = Some n -> sn_labels n !! ControlPlaneRoleLabelKey = Some "true" -> n ∈ l
  | ListSecrets => fun w x w' =>
      (exists l, x = Ok l /\ (forall s, s ∈ l <-> is_Some (w_secrets w !! s)) /\ w' = with_secrets (w_secrets w) ∅ w) \/
      (is_ok x = false /\ w' = w)
  | UpdateSecret s => fun w x w' =>
      (exists e, x = Ok tt /\ writes_with (w_loaded w) = Some e /\ is_Some (w_secrets w !! s) /\
         w' = with_secrets (<[s := e]> (w_secrets w)) (w_fresh w) w) \/
      (is_ok x = false /\ w' = w /\ (x = Err (Api RConflict) -> s ∈ w_fresh w))
  | ReloadMetrics _ => fun w x w' => w' = w /\ forall m, x = Ok m -> m.2 = w_reloads w
  | RandomSecret | TimeText | DeadlinePassed | SaveBootstrap => fun w x w' => w' = w
  end.

Definition alone : contract secE World := sec_step.



(** ** Rules *)


Definition quiet X (e : secE X) : Prop :=
  match e with WriteConfig _ | ListSecrets | UpdateSecret _ => False | _ => True end.




Section rules.
Context (I : World -> Prop).


End rules.

(** *** Which programs are quiet *)

Context (nodeName : string).

Ltac sec_quiet :=
  repeat first
    [ done | apply only_ret | apply only_call; exact I | apply only_bind; [|intros ?] | go_case ].

Lemma quiet_keys b : only false quiet (GetEncryptionKeys b).
Proof. unfold GetEncryptionKeys, GetEncryptionProviders. sec_quiet. Qed.



End world.

(** ** Re-encryption *)

Section reencrypt.
Context `{CJ : ConfigJSON} (nodeName : string).
Context (k : EncKey) (rest : list EncKey).
Hypothesis two_keys : rest <> [].
#[local] Notation keys := (k :: rest).


















End reencrypt.

(** ** The stages *)

Section stages.
Context `{CJ : ConfigJSON} (nodeName : string).

Definition annotation (n : ServerNode) : option string := sn_annots n ≫= lookup EncryptionHashAnnotation.

(** What the check looks at: the stage this node records is part of the text
    [stages], and the hash is that of the file. *)
Definition recorded (stages : string) (w : World) : Prop :=
  exists n ann stage h c, w_nodes w !! nodeName = Some n /\ annotation n = Some ann /\
    split_on dash ann = [stage; h] /\ contains stages stage = true /\ w_file w = Some c /\ h = config_hash c.

(** This node records one of the stages [before] for the file that is there. *)
Definition at_stage (before : list string) (w : World) : Prop :=
  exists n stage c, w_nodes w !! nodeName = Some n /\ w_file w = Some c /\ stage ∈ before /\
    annotation n = Some (stage +:+ "-" +:+ config_hash c).

(** The annotation of this node, if it has one, is a stage and a hash. *)
Definition known_stages : list string := ["start"; "prepare"; "rotate"; "rotate_keys"; "reencrypt_active"; "reencrypt_finished"].
Definition stage_known (w : World) : Prop :=
  forall n ann, w_nodes w !! nodeName = Some n -> annotation n = Some ann ->
    exists stage h, stage ∈ known_stages /\ no_char dash h = true /\ ann = stage +:+ "-" +:+ h.

Lemma recorded_at stages before w : stage_known w -> (forall stage, stage ∈ known_stages -> contains stages stage = true -> stage ∈ before) ->
  recorded stages w -> at_stage before w.
Proof.
  intros Hk Hb (n & ann & stage & h & c & Hn & Ha & Hsp & Hc & Hf & ->).
  destruct (Hk n ann Hn Ha) as (stage' & h' & Hin & Hh & ->).
  assert (split_on dash (stage' +:+ "-" +:+ h') = [stage'; h']) as E.
  { change (stage' +:+ "-" +:+ h') with (stage' +:+ String dash h'). rewrite split_on_app.
    - by rewrite split_on_no_char.
    - unfold known_stages in Hin. repeat (apply elem_of_cons in Hin as [->|Hin]; [done|]). by apply elem_of_nil in Hin. }
  rewrite E in Hsp. injection Hsp as -> ->. exists n, stage, c. split_and!; [done|done|by apply Hb|done].
Qed.

(** All control-plane nodes that record a stage record the same; one that
    records none is not asked. *)
Definition agreed (w : World) : Prop :=
  forall i j n m a b, w_nodes w !! i = Some n -> w_nodes w !! j = Some m ->
    sn_labels n !! ControlPlaneRoleLabelKey = Some "true" -> sn_labels m !! ControlPlaneRoleLabelKey = Some "true" ->
    annotation n = Some a -> annotation m = Some b -> a = b.

(** A stage is noted on this node and in the state file. *)
Definition noted (stage : string) (w : World) : Prop :=
  exists n c, w_nodes w !! nodeName = Some n /\ w_file w = Some c /\
    annotation n = Some (stage +:+ "-" +:+ config_hash c) /\ w_hash w = Some (stage +:+ "-" +:+ config_hash c).

Definition own_names (w : World) : Prop := forall i n, w_nodes w !! i = Some n -> sn_name n = i.

Lemma agree_spec first l : agree first l = true ->
  forall n a, n ∈ l -> annotation n = Some a ->
    (forall f, first = Some f -> a = f) /\ (forall m b, m ∈ l -> annotation m = Some b -> a = b).
Proof.
  revert first. induction l as [|x l IH]; intros first Hag n a Hn Ha; [by apply elem_of_nil in Hn|].
  simpl in Hag. fold (annotation x) in Hag.
  destruct (annotation x) as [h|] eqn:Ex.
  2:{ apply elem_of_cons in Hn as [->|Hn]; [congruence|]. destruct (IH _ Hag n a Hn Ha) as [H1 H2].
      split; [done|]. intros m b [->|Hm]%elem_of_cons Hb; [congruence|by eapply H2]. }
  assert (Hrest : agree (Some h) l = true /\ forall f, first = Some f -> h = f).
  { destruct first as [f|]; [destruct (decide (h = f)) as [->|]; [|done]|]; (split; [done|]); by intros f' [= ->]. }
  destruct Hrest as [Hl Hf]. specialize (IH _ Hl).
  assert (Hall : forall m b, m ∈ x :: l -> annotation m = Some b -> b = h).
  { intros m b [->|Hm]%elem_of_cons Hb; [congruence|]. by apply (IH m b Hm Hb). }
  assert (a = h) as -> by (by eapply Hall). split; [done|]. intros m b Hm Hb. symmetry. by eapply Hall.
Qed.

Lemma verify_wp stages w :
  wp alone (verifyEncryptionHashAnnotation nodeName stages) (fun o w' => w' = w /\ exists r, o = Done r /\
    (is_ok r = true -> agreed w /\ (stages <> "" -> recorded stages w))) w.
Proof.
  unfold verifyEncryptionHashAnnotation. apply wp_call. intros r w1 [-> Hl].
  destruct r as [nodes|e]; [|apply wp_ret; split; [done|]; by eexists]. destruct (Hl nodes eq_refl) as [Hne Hin].
  destruct (agree None nodes) eqn:Ea; cbn [negb]; [|apply wp_ret; split; [done|]; by eexists].
  assert (Hag : agreed w).
  { intros i j n m a b Hn Hm Ln Lm An Am. eapply (proj2 (agree_spec _ _ Ea n a (Hin i n Hn Ln) An)); [|exact Am]. by eapply Hin. }
  destruct (decide (stages = "")) as [->|Hs]; [apply wp_ret; split; [done|]; by eexists|].
  unfold getEncryptionHashAnnotation. apply wp_bind, wp_call. intros r w1 [-> Hn].
  destruct r as [n|e]; [|apply wp_ret, wp_ret; split; [done|]; by eexists]. specialize (Hn n eq_refl). apply wp_ret.
  destruct (sn_labels n !! _); [|apply wp_ret; split; [done|]; by eexists]. fold (annotation n).
  destruct (annotation n) as [ann|] eqn:En; [|apply wp_ret; split; [done|]; by eexists].
  destruct (split_on dash ann) as [|stage [|h [|]]] eqn:Esp; try (apply wp_ret; split; [done|]; by eexists).
  unfold GenEncryptionConfigHash. apply wp_bind, wp_call. intros r w1 [-> Hc].
  destruct r as [c|e]; apply wp_ret; [|apply wp_ret; split; [done|]; by eexists]. specialize (Hc c eq_refl). cbn [fst snd].
  destruct (contains stages stage) eqn:Ec; cbn [negb]; [|destruct nodes; [done|apply wp_ret; split; [done|]; by eexists]].
  destruct (decide (h <> config_hash c)) as [|Hh]; [destruct nodes; [done|apply wp_ret; split; [done|]; by eexists]|].
  apply wp_ret. split; [done|]. eexists. split; [done|]. intros _. split; [done|]. intros _.
  exists n, ann, stage, h, c. split; [done|]. repeat split; try done. by apply dec_stable.
Qed.

(** Retrying on conflicts, for a body that leaves [P] when it fails. *)
Lemma retry_wp (P : World -> Prop) (Q : World -> Prop) n (p : secP (res unit)) w :
  (forall w, P w -> wp alone p (fun o w' => exists r, o = Done r /\ P w' /\ (is_ok r = true -> Q w')) w) ->
  P w -> wp alone (retry_on_conflict n p) (fun o w' => exists r, o = Done r /\ P w' /\ (is_ok r = true -> Q w')) w.
Proof.
  intros Hp. revert w. induction n as [|n IH]; intros w Hw; cbn [retry_on_conflict].
  { apply wp_ret. by eexists. }
  apply wp_bind. eapply wp_mono; [|by apply Hp]. intros o w' (r & -> & HP & HQ).
  destruct r as [u|[c|a|m]]; try (apply wp_ret; by eexists).
  destruct a; try (apply wp_ret; by eexists). by apply IH.
Qed.

Definition same_file (w0 w : World) : Prop :=
  own_names w /\ w_file w = w_file w0 /\ w_loaded w = w_loaded w0 /\ w_secrets w = w_secrets w0.

Lemma annotate_wp stage w :
  own_names w ->
  wp alone (annotate nodeName false stage) (fun o w' => exists r, o = Done r /\
    same_file w w' /\ (is_ok r = true -> noted stage w')) w.
Proof.
  intros Hown. unfold annotate, on_node. apply retry_wp; [|by split]. clear Hown. intros w1 S1.
  apply wp_call. intros r w2 [-> Hn]. destruct r as [n|e]; [|apply wp_ret; by eexists]. specialize (Hn n eq_refl).
  unfold WriteEncryptionHashAnnotation, GenEncryptionConfigHash. apply wp_bind, wp_call. intros r w2 [-> Hc].
  destruct r as [c|e]; apply wp_ret; [|apply wp_ret; by eexists]. specialize (Hc c eq_refl).
  destruct (sn_annots n) as [m|]; [|apply wp_ret; by eexists].
  destruct S1 as (Hown & Hf & Hl & Hs). pose proof (Hown _ _ Hn) as Hname.
  apply wp_call. intros r w2 [(-> & ->)|(Hr & ->)].
  2:{ destruct r; [done|]. apply wp_ret. by eexists. }
  assert (S2 : same_file w (with_nodes (<[nodeName := with_annotation (stage +:+ "-" +:+ config_hash c) m n]> (w_nodes w1)) w1)).
  { split; [|done]. intros i y; simpl; intros [[<- <-]|[_ Hy]]%lookup_insert_Some; [done|by apply Hown]. }
  change (sn_name (with_annotation _ _ n)) with (sn_name n). rewrite Hname.
  intros r w2 [(-> & ->)|(Hr & ->)]; [|apply wp_ret; eexists; split; [done|]; split; [done|]; by rewrite Hr].
  apply wp_ret. eexists. split; [done|]. split; [exact S2|]. intros _. simpl.
  eexists _, c. simpl. rewrite lookup_insert_eq. split; [done|]. split; [done|].
  split; [|done]. unfold annotation. simpl. by rewrite lookup_insert_eq.
Qed.

Lemma GetEncryptionKeys_wp keys enable w :
  w_file w = Some (config_marshal (config_of keys enable)) ->
  wp alone (GetEncryptionKeys false) (fun o w' => w' = w /\ exists r, o = Done r /\ (is_ok r = true -> r = Ok keys)) w.
Proof.
  intros Hf. unfold GetEncryptionKeys, GetEncryptionProviders. apply wp_bind, wp_call. intros r w1 [-> Hr].
  destruct r as [b|e]; [|apply wp_ret, wp_ret; split; [done|]; by eexists]. specialize (Hr b eq_refl).
  rewrite Hf in Hr. injection Hr as <-. rewrite config_round_trip. apply wp_ret, wp_ret. split; [done|].
  eexists. split; [done|]. intros _. destruct enable; simpl; by rewrite ?app_nil_r.
Qed.

(** Writing the keys, noting the stage, saving. *)
Lemma write_stage_wp keys stage w :
  own_names w ->
  wp alone (try u <- WriteEncryptionConfig keys true; try u <- annotate nodeName false stage; call SaveBootstrap)
    (fun o w' => exists r, o = Done r /\ (is_ok r = true ->
       w_file w' = Some (config_marshal (config_of keys true)) /\ noted stage w')) w.
Proof.
  intros Hown. apply wp_call. intros r w1 [(-> & ->)|(Hr & ->)].
  2:{ destruct r; [done|]. apply wp_ret. by eexists. }
  apply wp_bind. eapply wp_mono; [|apply annotate_wp; exact Hown].
  intros o w2 (r & -> & (_ & Hf & _) & Hn). destruct r as [[]|e]; [|apply wp_ret; by eexists].
  intros r w3 ->. apply wp_ret. eexists. split; [done|]. intros _. split; [exact Hf|by apply Hn].
Qed.

(** A stage that is not forced: if it succeeds, its predecessor was noted for
    the file as it was, on all nodes alike. *)
Lemma verified_wp stages (p : secP (res unit)) (Q : res unit -> World -> Prop) w :
  stages <> "" -> (forall e, Q (Err e) w) -> (agreed w -> recorded stages w -> wp alone p (fun o w' => exists r, o = Done r /\ Q r w') w) ->
  wp alone (verified nodeName stages false p) (fun o w' => exists r, o = Done r /\ Q r w') w.
Proof.
  intros Hs HQ Hp. unfold verified. apply wp_bind. eapply wp_mono; [|apply verify_wp].
  intros o w' (-> & r & -> & H). destruct r as [u|e]; [|apply wp_ret; by eexists].
  destruct (H eq_refl) as [Ha Hr]. apply Hp; auto.
Qed.

(** C28. Without force, one request at a time and whatever calls fail, a stage succeeds only
    from the one before it, which this node notes for the very file that is
    there and from which no control-plane node with a note differs, a node
    without one not being asked: preparing, from a fresh or a finished rotation,
    adds a key at the end; rotating, from prepared, brings the last key to the
    front; both note the new stage with the hash of the new file.  The file is
    one of keys, and the note is a stage with a hash.  Neither panics. *)
Theorem stages_follow keys enable w :
  own_names w -> stage_known w -> w_file w = Some (config_marshal (config_of keys enable)) -> keys <> [] ->
  wp alone (encryptionPrepare nodeName false) (fun o w' => exists r, o = Done r /\
    (is_ok r = true -> agreed w /\ at_stage ["start"; "reencrypt_finished"] w /\
       exists new, w_file w' = Some (config_marshal (config_of (keys ++ [new]) true)) /\ noted "prepare" w')) w /\
  wp alone (encryptionRotate nodeName false) (fun o w' => exists r, o = Done r /\
    (is_ok r = true -> agreed w /\ at_stage ["prepare"] w /\
       exists newest, last keys = Some newest /\
         w_file w' = Some (config_marshal (config_of (newest :: removelast keys) true)) /\ noted "rotate" w')) w.
Proof.
  intros Hown Hknown Hf Hne.
  assert (forall stages before, (forall stage, stage ∈ known_stages -> contains stages stage = true -> stage ∈ before) ->
    recorded stages w -> at_stage before w) as Hat by (intros stages before; by apply recorded_at).
  assert (recorded start_stages w -> at_stage ["start"; "reencrypt_finished"] w) as Hstart.
  { apply Hat. intros stage Hin Hc. unfold known_stages in Hin.
    repeat (apply elem_of_cons in Hin as [->|Hin]; [first [by vm_compute in Hc|apply (bool_decide_unpack _); exact I]|]). by apply elem_of_nil in Hin. }
  assert (recorded EncryptionPrepare w -> at_stage ["prepare"] w) as Hprep.
  { apply Hat. intros stage Hin Hc. unfold known_stages in Hin.
    repeat (apply elem_of_cons in Hin as [->|Hin]; [first [by vm_compute in Hc|apply (bool_decide_unpack _); exact I]|]). by apply elem_of_nil in Hin. }
  split.
  - apply verified_wp; [done|done|]. intros Ha Hr.
    apply wp_bind. eapply wp_mono; [|by apply (GetEncryptionKeys_wp keys enable)].
    intros o w1 (-> & r & -> & Hk). destruct r as [ks|e]; [|apply wp_ret; by eexists].
    specialize (Hk eq_refl). injection Hk as ->. unfold AppendNewEncryptionKey.
    apply wp_bind, wp_call. intros r w1 ->. destruct r as [secret|e]; [|apply wp_ret, wp_ret; by eexists].
    apply wp_call. intros now w1 ->. apply wp_ret.
    eapply wp_mono; [|by apply write_stage_wp]. intros o w' (r & -> & H). eexists. split; [done|].
    intros Hok. split; [done|]. split; [by apply Hstart|]. eexists. by apply H.
  - apply verified_wp; [done|done|]. intros Ha Hr.
    apply wp_bind. eapply wp_mono; [|by apply (GetEncryptionKeys_wp keys enable)].
    intros o w1 (-> & r & -> & Hk). destruct r as [ks|e]; [|apply wp_ret; by eexists].
    specialize (Hk eq_refl). injection Hk as ->. unfold right_rotate.
    destruct (last keys) as [newest|] eqn:El; [|by apply last_None in El].
    eapply wp_mono; [|by apply write_stage_wp]. intros o w' (r & -> & H). eexists. split; [done|].
    intros Hok. split; [done|]. split; [by apply Hprep|]. exists newest. split; [done|]. by apply H.
Qed.
End stages.

(** ** Samples *)

Definition key_pairs (l : list EncKey) : list (string * string) := (fun k => (ek_Name k, ek_Secret k)) <$> l.
Definition pair_keys (l : list (string * string)) : list EncKey := (fun k => mkEncKey k.1 k.2) <$> l.
Definition provider_tuple (p : Provider) : option (list (string * string)) * bool * bool :=
  (option_map key_pairs (pv_AESCBC p), pv_Identity p, pv_other p).
Definition tuple_provider (t : option (list (string * string)) * bool * bool) : Provider :=
  mkProvider (option_map pair_keys t.1.1) t.1.2 t.2.

Lemma tuple_provider_tuple p : tuple_provider (provider_tuple p) = p.
Proof.
  destruct p as [[l|] i b]; [|done]. unfold tuple_provider. simpl. do 2 f_equal.
  induction l as [|[] l IH]; [done|]. simpl. by f_equal.
Qed.

Lemma tuples_providers (ps : list Provider) : tuple_provider <$> (provider_tuple <$> ps) = ps.
Proof. induction ps as [|p ps IH]; [done|]. by rewrite !fmap_cons, tuple_provider_tuple, IH. Qed.

(** The configurations of the samples have one-letter texts, which are quick
    to hash; the text of any other is the bits of an encoding. *)
Definition key0 : EncKey := mkEncKey "aescbckey" "old".
Definition key1 : EncKey := mkEncKey "aescbckey-2" "new".
Definition short : list (list Provider) :=
  (fun l => config_of l true) <$> [[]; [key0]; [key0; key1]; [key1; key0]; [key1]].

Definition letter (i : nat) : Ascii.ascii := Ascii.ascii_of_nat (65 + i).
Definition sample_marshal (ps : list Provider) : string :=
  match list_find (ps =.) short with
  | Some (i, _) => String (letter i) ""
  | None => String Ascii.one (bits (encode (provider_tuple <$> ps)))
  end.
Definition sample_unmarshal (s : string) : option (list Provider) :=
  match s with
  | EmptyString => None
  | String c s =>
      if decide (c = Ascii.one) then option_map (fmap (M := list) tuple_provider) (decode (unbits s))
      else short !! (Ascii.nat_of_ascii c - 65)%nat
  end.

#[local] Instance sample_config_json : ConfigJSON.
Proof.
  refine (mkConfigJSON sample_marshal sample_unmarshal (fun ks => bits (encode (key_pairs ks))) _).
  intros ps. unfold sample_marshal. destruct (list_find _ short) as [[i x]|] eqn:E.
  - apply list_find_Some in E as (Hi & -> & _). do 5 (destruct i as [|i]; [exact Hi|]). by rewrite lookup_ge_None_2 in Hi by (simpl; lia).
  - cbn [sample_unmarshal]. rewrite decide_True by done.
    rewrite unbits_bits, decode_encode. cbn [option_map]. by rewrite tuples_providers.
Defined.

(** An API server that reloads the file before the effects the plan says. *)
Definition reload_now (w : World) : World :=
  match file_config w with Some ps => if accepted ps then with_loaded ps w else w | None => w end.

Definition served X (e : secE X) (w : World) : X * World :=
  match e in secE X return X * World with
  | ReadConfig => (match w_file w with Some c => Ok c | None => Err (Plain "not exist") end, w)
  | WriteConfig c => (Ok tt, with_file c w)
  | ReadHash => (match w_hash w with Some c => Ok c | None => Err (Plain "not exist") end, w)
  | WriteHash c => (Ok tt, with_hash c w)
  | GetNode n => (match w_nodes w !! n with Some y => Ok y | None => Err (Api RNotFound) end, w)
  | UpdateNode n => (Ok tt, with_nodes (<[sn_name n := n]> (w_nodes w)) w)
  | ListServers => (Ok (map_to_list (w_nodes w)).*2, w)
  | ListSecrets => (Ok (map_to_list (w_secrets w)).*1, with_secrets (w_secrets w) ∅ w)
  | UpdateSecret s =>
      match w_secrets w !! s, writes_with (w_loaded w) with
      | Some _, Some e => (Ok tt, with_secrets (<[s := e]> (w_secrets w)) (w_fresh w) w)
      | _, _ => (Err (Api RNotFound), w)
      end
  | RandomSecret => (Ok "new", w)
  | TimeText => ("2", w)
  | ReloadMetrics _ => (Ok (w_reloads w, w_reloads w), w)
  | DeadlinePassed => (false, w)
  | SaveBootstrap => (Ok tt, w)
  end.

Definition planned : handler secE (list bool * World) := fun X e '(plan, w) =>
  let w := match plan with true :: _ => reload_now w | _ => w end in
  let '(x, w) := served X e w in (x, (tail plan, w)).

Definition one_key : string := config_marshal (config_of [key0] true).
Definition server1 : ServerNode :=
  mkServerNode "n1" {[ControlPlaneRoleLabelKey := "true"]}
    (Some {[EncryptionHashAnnotation := "start-" +:+ config_hash one_key]}) "v1.30.0".
Definition world0 : World :=
  mkWorld (Some one_key) (Some ("start-" +:+ config_hash one_key)) (config_of [key0] true) 0 {["n1" := server1]}
    {["s" := Some key0; "t" := Some key0]} ∅.

(** The results of requests one after the other, and the world after them. *)
Definition requests (plan : list bool) (l : list (secP (res unit))) (w : World) : list (outcome (res unit)) * World :=
  let '(out, w) := foldl (fun acc p => let '(o, (_, w)) := run planned p (plan, acc.2) in (acc.1 ++ [o], w)) ([], w) l in (out, w).

(** The file is one the API server accepts, and the secret cannot be read with
    it. *)
Definition lost (w : World) (s : string) : bool :=
  match file_config w, w_secrets w !! s with
  | Some ps, Some e => accepted ps && negb (bool_decide (readable ps e))
  | _, _ => false
  end.

Definition three_stages : list (secP (res unit)) :=
  [encryptionPrepare "n1" false; encryptionRotate "n1" false; encryptionReencrypt "n1" false false].

(** With a reload before each stage the rotation ends well: the old key is gone
    and nothing is lost. *)
Example rotation_with_reloads :
  let '(out, w) := requests [true] three_stages world0 in
  out = [Done (Ok tt); Done (Ok tt); Done (Ok tt)] /\ lost w "s" = false /\ lost w "t" = false /\
  bool_decide (readable (default [] (file_config w)) (Some key0)) = false.
Proof. by vm_compute. Qed.

(** Nothing makes a stage wait for the reload: when the three requests come
    before the API server has looked at the file again, all succeed, the
    secrets are written with the old key once more, and that key is dropped. *)
Theorem quick_rotation_loses_secrets :
  let '(out, w) := requests [] three_stages world0 in
  out = [Done (Ok tt); Done (Ok tt); Done (Ok tt)] /\ lost w "s" = true /\ lost w "t" = true.
Proof. by vm_compute. Qed.

(** The request that does it all waits for a reload, but the file is written
    twice: a reload that falls between the two, when the old key is still
    first, is taken for the one of the rotated file. *)
Theorem rotate_keys_races_reload :
  let old _ := Some false in
  let good := requests (repeat false 13 ++ [true]) [encryptionRotateKeys "n1" old] world0 in
  let bad := requests (repeat false 12 ++ [true]) [encryptionRotateKeys "n1" old] world0 in
  fst good = [Done (Ok tt)] /\ lost (snd good) "s" = false /\
  fst bad = [Done (Ok tt)] /\ lost (snd bad) "s" = true.
Proof. by vm_compute. Qed.

(** A forced re-encryption does not ask whether a key remains: the only key is
    dropped, the API server does not accept the file, and the next one
    panics. *)
Theorem forced_reencrypt_drops_only_key :
  let again := encryptionReencrypt "n1" true false in
  let '(out, w) := requests [] [again; again] world0 in
  out = [Done (Ok tt); Panicked] /\ file_config w = Some (config_of [] true) /\ accepted (config_of [] true) = false.
Proof. by vm_compute. Qed.

(** *** Witnesses *)

Definition world1 : World :=
  mkWorld (Some (config_marshal (config_of [key1; key0] true))) None (config_of [key1; key0] true) 0 {["n1" := server1]}
    {["s" := Some key0]} ∅.


Lemma stages_follow_witness :
  wp alone (encryptionRotate "n1" false) (fun o w' => exists r, o = Done r /\
    (is_ok r = true -> at_stage "n1" ["prepare"] world1)) world1.
Proof.
  eapply wp_mono; [|refine (proj2 (stages_follow "n1" [key1; key0] true world1 _ _ _ _)); [| |done|done]].
  - intros o w' (r & -> & H). exists r. split; [done|]. intros Hr. by apply H.
  - intros i n Hn. simpl in Hn. by apply lookup_singleton_Some in Hn as [<- <-].
  - intros n ann Hn Ha. simpl in Hn. apply lookup_singleton_Some in Hn as [_ <-]. injection Ha as <-.
    exists "start", (config_hash one_key). split; [by left|]. split; [vm_compute; reflexivity|done].
Defined.

(** A server without a note is not asked, and a note without a stage passes for
    the stage before any other. *)
Example notes_not_asked :
  let fresh := mkServerNode "n2" {[ControlPlaneRoleLabelKey := "true"]} None "v1.30.0" in
  let empty := mkServerNode "n1" {[ControlPlaneRoleLabelKey := "true"]} (Some {[EncryptionHashAnnotation := "-" +:+ config_hash one_key]}) "v1.30.0" in
  fst (requests [] [encryptionPrepare "n1" false] (with_nodes (<["n2" := fresh]> (w_nodes world0)) world0)) = [Done (Ok tt)] /\
  fst (requests [] [encryptionRotate "n1" false] (with_nodes {["n1" := empty]} world0)) = [Done (Ok tt)].
Proof. by vm_compute. Qed.
