(* ===== verification/JoinToken.v ===== *)
(** * Join tokens

    [pkg/clientaccess/token.go] and [pkg/util/token.go]: the [K10] token that
    carries the hash of the cluster CA and the credentials of a node, how it is
    parsed and printed, and how a joining node finds and checks the CA bundle
    of its server before it sends any credential. *)
From S2P Require Import Prelude GoText Prog Os Sha256 Signed.
From Stdlib Require Import ZArith Lia.

(** ** Code the tokens rely on *)

Definition dot_char : Ascii.ascii := Ascii.Ascii false true true true false true false false.

(** A run of [n] characters of [[a-z0-9]]. *)
Definition token_char (c : Ascii.ascii) : bool :=
  let n := Ascii.N_of_ascii c in ((97 <=? n) && (n <=? 122) || (48 <=? n) && (n <=? 57))%N.
Definition token_part (n : nat) (s : string) : bool := (String.length s =? n)%nat && all_chars token_char s.

(** [bootstraputil] of Kubernetes: tokens have the form
    [[a-z0-9]{6}.[a-z0-9]{16}]. *)
Class BootstrapTokens := mkBootstrapTokens {
  FindStringSubmatch : string -> option (string * string);
  TokenFromIDAndSecret : string -> string -> string;
  submatch_spec : forall t i s,
    FindStringSubmatch t = Some (i, s) <->
    token_part 6 i = true /\ token_part 16 s = true /\ t = TokenFromIDAndSecret i s;
  token_from_spec : forall i s, TokenFromIDAndSecret i s = i +:+ "." +:+ s;
}.

(** The fields of an [x509.Certificate] the code looks at. *)
Record Certificate := mkCertificate { AuthorityKeyId : string; SubjectKeyId : string; Raw : string }.

(** [certutil.ParseCertsPEM], and [Verify]: a chain ends in a root. *)
Class X509 := mkX509 {
  ParseCertsPEM : string -> option (list Certificate);
  Verify : Certificate -> list Certificate -> list Certificate -> option (list (list Certificate));
  parse_nonempty : forall b certs, ParseCertsPEM b = Some certs -> certs <> [];
  verify_chains : forall c roots inter chains, Verify c roots inter = Some chains ->
    exists chain r rest, chains = (chain ++ [r]) :: rest /\ r ∈ roots;
}.

Record URL := mkURL { Scheme : string; Host : string; Path : string; url_rest : string }.

(** [net/url] *)
Class UrlText := mkUrlText { url_Parse : string -> option URL; url_String : URL -> string }.

(** The error of a body that is a [metav1.Status]. *)
Class StatusJSON := mkStatusJSON { status_error : string -> option error }.

(** ** [kubeadm.BootstrapTokenString] *)

Record BootstrapTokenString := mkBTS { bts_ID : string; bts_Secret : string }.
#[export] Instance BTS_eq_dec : EqDecision BootstrapTokenString.
Proof. solve_decision. Defined.

Definition bts_String `{BootstrapTokens} (b : BootstrapTokenString) : string :=
  if (0 <? String.length (bts_ID b))%nat && (0 <? String.length (bts_Secret b))%nat
  then TokenFromIDAndSecret (bts_ID b) (bts_Secret b) else "".

Definition NewBootstrapTokenString `{BootstrapTokens} (token : string) : res BootstrapTokenString :=
  match FindStringSubmatch token with
  | Some (i, s) => Ok (mkBTS i s)
  | None => Err (Plain "the bootstrap token was not of the form")
  end.

(** ** Parsing and printing *)

Definition tokenPrefix : string := "K10".
Definition caHashLength : nat := 64.

Record Info := mkInfo {
  i_bts : option BootstrapTokenString;
  CACerts : string; BaseURL : string; Username : string; Password : string;
  CertFile : string; KeyFile : string; caHash : string;
}.
#[export] Instance Info_eq_dec : EqDecision Info.
Proof. solve_decision. Defined.

Definition with_credentials (u p : string) (i : Info) : Info :=
  mkInfo (i_bts i) (CACerts i) (BaseURL i) u p (CertFile i) (KeyFile i) (caHash i).
Definition with_server (url cacerts : string) (i : Info) : Info :=
  mkInfo (i_bts i) cacerts url (Username i) (Password i) (CertFile i) (KeyFile i) (caHash i).

(** [WithClientCertificate], [WithUser] *)
Definition WithClientCertificate (certFile keyFile : string) (i : Info) : Info :=
  mkInfo (i_bts i) (CACerts i) (BaseURL i) (Username i) (Password i) certFile keyFile (caHash i).
Definition WithUser (username : string) (i : Info) : Info := with_credentials username (Password i) i.

(** [strings.SplitN(s, sep, 2)] for a separator that is not empty: the parts
    before and after the first [sep]. *)
Fixpoint split2 (sep s : string) : string * option string :=
  match strip_prefix sep s with
  | Some r => ("", Some r)
  | None => match s with
            | EmptyString => ("", None)
            | String c s => let '(a, b) := split2 sep s in (String c a, b)
            end
  end.

Section tokens.
Context `{BT : BootstrapTokens} `{XC : X509}.

(** The pools of the certificates after the first. *)
Definition self_signed (c : Certificate) : bool :=
  (String.length (AuthorityKeyId c) =? 0)%nat || bool_decide (AuthorityKeyId c = SubjectKeyId c).

Definition hashed_bytes (b : string) (certs : list Certificate) : string :=
  match certs with
  | first :: ((_ :: _) as rest) =>
      match Verify first (filter (fun c => self_signed c = true) rest) (filter (fun c => self_signed c = false) rest) with
      | Some (chain :: _) => match last chain with Some root => Raw root | None => b end
      | _ => b
      end
  | _ => b
  end.

Definition hashCA (b : string) : res string :=
  match ParseCertsPEM b with
  | None => Err (Plain "data does not contain any valid certificates")
  | Some certs => Ok (hex (sha256 (bytes_of (hashed_bytes b certs))))
  end.

Definition digest_of (b : string) : string := match hashCA b with Ok d => d | Err _ => "" end.

Definition validateCACerts (cacerts hash : string) : bool * string :=
  (bool_decide (hash = digest_of cacerts), digest_of cacerts).

Definition credentials (i : Info) : string :=
  match i_bts i with Some b => bts_String b | None => Username i +:+ ":" +:+ Password i end.

Definition info_String (i : Info) : string := tokenPrefix +:+ digest_of (CACerts i) +:+ "::" +:+ credentials i.

Definition info_Token (i : Info) : string := match i_bts i with Some b => bts_String b | None => "" end.

(** The token in full form, without its prefix. *)
Definition full_form (token : string) : string :=
  match strip_prefix tokenPrefix token with
  | Some r => r
  | None => if is_ok (NewBootstrapTokenString token) then "::" +:+ token else ":::" +:+ token
  end.

Definition parse_creds (token : string) (i : Info) : res Info :=
  match NewBootstrapTokenString token with
  | Ok bts => Ok (mkInfo (Some bts) (CACerts i) (BaseURL i) (Username i) (Password i) (CertFile i) (KeyFile i) (caHash i))
  | Err _ =>
      match split2 ":" token with
      | (u, Some ((String _ _) as p)) => Ok (with_credentials u p i)
      | _ => Err (Plain "invalid token format")
      end
  end.

Definition empty_info (hash : string) : Info := mkInfo None "" "" "" "" "" "" hash.

Definition parseToken (token : string) : res Info :=
  if decide (token = "") then Err (Plain "token must not be empty")
  else
    match split2 "::" (full_form token) with
    | (h, Some creds) =>
        if (0 <? String.length h)%nat && negb (String.length h =? caHashLength)%nat
        then Err (Plain "invalid token CA hash length")
        else parse_creds creds (empty_info h)
    | (t, None) => parse_creds t (empty_info "")
    end.

Definition ParseUsernamePassword (token : string) : option (string * string) :=
  match parseToken token with
  | Err _ => None
  | Ok info => match i_bts info with Some _ => None | None => Some (Username info, Password info) end
  end.

Definition FormatTokenBytes (creds b : string) : res string :=
  if decide (creds = "") then Ok ""
  else let? digest := hashCA b in Ok (tokenPrefix +:+ digest +:+ "::" +:+ creds).

(** [util.NormalizeToken] *)
Definition NormalizeToken (token : string) : res string :=
  match ParseUsernamePassword token with
  | Some (_, password) => Ok password
  | None => Err (Plain "failed to normalize server token")
  end.

(** [util.ShortHash] *)
Definition ShortHash (s : string) (n : nat) : string := take_str n (hex (sha256 (bytes_of s))).

End tokens.

(** ** Talking to the server *)

(** Whom a client trusts: the CAs of the host, anybody, or a bundle. *)
Inductive Trust := HostRoots | SkipVerify | Bundle (cacerts : string).

(** [http.Client]: its roots, the client certificate it loaded, its time-outs. *)
Record HttpClient := mkClient {
  hc_trust : Trust; hc_cert : option string; hc_timeout : Z; hc_header_timeout : Z;
}.

Inductive Authorization := NoAuth | Bearer (token : string) | BasicAuth (username password : string).

Record Request := mkRequest { rq_method : string; rq_url : string; rq_body : string; rq_auth : Authorization }.

(** [None] for a body that cannot be read. *)
Record Response := mkResponse { StatusCode : Z; resp_Body : option string }.

Inductive netE : Type -> Type :=
  | Do (c : HttpClient) (r : Request) : netE (res Response)
  | LoadX509KeyPair (certFile keyFile : string) : netE (res string).

Abbreviation netP := (prog netE).

Definition defaultClientTimeout : Z := (10 * second)%Z.
Definition defaultClient : HttpClient := mkClient HostRoots None defaultClientTimeout 0.
Definition insecureClient : HttpClient := mkClient SkipVerify None defaultClientTimeout 0.

Definition WithTimeout (d : Z) (c : HttpClient) : HttpClient := mkClient (hc_trust c) (hc_cert c) d d.

Definition GetHTTPClient (cacerts certFile keyFile : string) (options : list (HttpClient -> HttpClient)) : netP HttpClient :=
  if decide (cacerts = "") then Ret defaultClient
  else
    do cert <- call (LoadX509KeyPair certFile keyFile);
    let client := mkClient (Bundle cacerts) (match cert with Ok p => Some p | Err _ => None end) defaultClientTimeout 0 in
    Ret (fold_left (fun c o => o c) options client).

Section requests.
Context `{UT : UrlText} `{SJ : StatusJSON}.

Definition readBody (resp : Response) : res string :=
  match resp_Body resp with
  | None => Err (Plain "read body")
  | Some b =>
      if (StatusCode resp <? 200) || (299 <? StatusCode resp)
      then Err (default (Plain "status") (status_error b)) else Ok b
  end.

Definition authorization (username password token : string) : Authorization :=
  if decide (token = "") then if decide (username = "") then NoAuth else BasicAuth username password
  else Bearer token.

(** [get], [put] and [post] share this: the request is made, its body read. *)
Definition send (method u body : string) (client : HttpClient) (username password token : string) : netP (res string) :=
  match url_Parse u with
  | None => Ret (Err (Plain "new request"))
  | Some _ =>
      try resp <- call (Do client (mkRequest method u body (authorization username password token)));
      Ret (readBody resp)
  end.

Definition get (u : string) (client : HttpClient) (username password token : string) : netP (res string) :=
  send "GET" u "" client username password token.
Definition put (u body : string) (client : HttpClient) (username password token : string) : netP (res unit) :=
  try _b <- send "PUT" u body client username password token; Ret (Ok tt).
Definition post (u body : string) (client : HttpClient) (username password token : string) : netP (res string) :=
  send "POST" u body client username password token.

(** An error of the first request is what is expected. *)
Definition getCACerts (u : URL) : netP (res string) :=
  let url := url_String (mkURL (Scheme u) (Host u) "/cacerts" (url_rest u)) in
  do trusted <- get url defaultClient "" "" "";
  if is_ok trusted then Ret (Ok "")
  else
    try cacerts <- get url insecureClient "" "" "";
    do client <- GetHTTPClient cacerts "" "" [];
    try _b <- get url client "" "" "";
    Ret (Ok cacerts).

Definition setServer (server : string) (i : Info) : netP (res Info) :=
  match url_Parse server with
  | None => Ret (Err (Plain "Invalid server url"))
  | Some u =>
      if decide (Scheme u <> "https") then Ret (Err (Plain "only https:// URLs are supported"))
      else
        let u := mkURL (Scheme u) (Host u) (trim_end (Ascii.ascii_of_nat 47) (Path u)) (url_rest u) in
        try cacerts <- getCACerts u;
        Ret (Ok (with_server (url_String u) cacerts i))
  end.

Context `{BT : BootstrapTokens} `{XC : X509}.

Definition validateCAHash (i : Info) : res unit :=
  if negb (bool_decide (CACerts i = "")) && negb (bool_decide (caHash i = "")) then
    if (validateCACerts (CACerts i) (caHash i)).1 then Ok tt else Err (Plain "token CA hash does not match")
  else Ok tt.

Definition setAndValidateServer (server : string) (i : Info) : netP (res Info) :=
  try i <- setServer server i;
  match validateCAHash i with Ok _ => Ret (Ok i) | Err e => Ret (Err e) end.

Definition ParseAndValidateToken (server token : string) (options : list (Info -> Info)) : netP (res Info) :=
  match parseToken token with
  | Err e => Ret (Err e)
  | Ok info => setAndValidateServer server (fold_left (fun i o => o i) options info)
  end.

(** The URL of a path on the server, and the client, of [Get], [Put] and
    [Post]. *)
Definition server_url (i : Info) (path : string) : res string :=
  match url_Parse (BaseURL i), url_Parse path with
  | Some u, Some p => Ok (url_String (mkURL (Scheme u) (Host u) (Path p) (url_rest p)))
  | _, _ => Err (Plain "parse url")
  end.

Definition on_server {A} (i : Info) (path : string) (options : list (HttpClient -> HttpClient))
    (f : string -> HttpClient -> string -> string -> string -> netP (res A)) : netP (res A) :=
  match server_url i path with
  | Err e => Ret (Err e)
  | Ok u =>
      do client <- GetHTTPClient (CACerts i) (CertFile i) (KeyFile i) options;
      f u client (Username i) (Password i) (info_Token i)
  end.

Definition Get (i : Info) (path : string) (options : list (HttpClient -> HttpClient)) : netP (res string) :=
  on_server i path options get.
Definition Put (i : Info) (path body : string) (options : list (HttpClient -> HttpClient)) : netP (res unit) :=
  on_server i path options (fun u => put u body).
Definition Post (i : Info) (path body : string) (options : list (HttpClient -> HttpClient)) : netP (res string) :=
  on_server i path options (fun u => post u body).

End requests.

(** ** Token files *)

Section token_files.
Context `{BT : BootstrapTokens} `{XC : X509}.

Definition FormatToken (creds certFile : string) : osP (res string) :=
  if decide (creds = "") then Ret (Ok "")
  else try b <- call (ReadFile certFile); Ret (FormatTokenBytes creds b).

Definition newline : Ascii.ascii := Ascii.ascii_of_nat 10.

(** [util.ReadTokenFromFile] *)
Definition ReadTokenFromFile (serverToken certs dataDir : string) : osP (res string) :=
  do b <- call (ReadFile (dataDir +:+ "/token"));
  match b with
  | Err e => if decide (e = not_exist) then FormatToken serverToken certs else Ret (Err e)
  | Ok b => Ret (Ok (trim_end newline b))
  end.

(** [util.GetTokenHash], from the configured token. *)
Definition GetTokenHash (token serverToken certs dataDir : string) : osP (res string) :=
  try token <- (if decide (token = "") then ReadTokenFromFile serverToken certs dataDir else Ret (Ok token));
  Ret (let? normalizedToken := NormalizeToken token in Ok (ShortHash normalizedToken 12)).

End token_files.

(** ** Lemmas *)

Lemma no_char_app c a b : no_char c (a +:+ b) = no_char c a && no_char c b.
Proof. induction a as [|x a IH]; [done|]. rewrite append_cons. cbn [no_char]. rewrite IH. by rewrite andb_assoc. Qed.

Lemma split2_app c sep a b : no_char c a = true ->
  split2 (String c sep) (a +:+ String c sep +:+ b) = (a, Some b).
Proof.
  induction a as [|x a IH]; intros Ha.
  - rewrite append_nil_l. destruct (String c sep +:+ b) as [|y s] eqn:E; [done|].
    cbn [split2]. rewrite <-E, strip_prefix_app. done.
  - cbn [no_char] in Ha. apply andb_true_iff in Ha as [Hx Ha]. apply negb_true_iff in Hx.
    rewrite append_cons. cbn [split2 strip_prefix]. rewrite Ascii.eqb_sym, Hx, IH by done. done.
Qed.

Lemma split2_none c sep a : no_char c a = true -> split2 (String c sep) a = (a, None).
Proof.
  induction a as [|x a IH]; intros Ha; [done|].
  cbn [no_char] in Ha. apply andb_true_iff in Ha as [Hx Ha]. apply negb_true_iff in Hx.
  cbn [split2 strip_prefix]. by rewrite Ascii.eqb_sym, Hx, IH.
Qed.

Lemma split2_Some sep s a b : split2 sep s = (a, Some b) -> s = a +:+ sep +:+ b.
Proof.
  revert a. induction s as [|c s IH]; intros a; cbn [split2].
  - destruct (strip_prefix sep "") as [r|] eqn:E; [|done]. intros [= <- <-]. by apply strip_prefix_Some in E.
  - destruct (strip_prefix sep (String c s)) as [r|] eqn:E.
    + intros [= <- <-]. by apply strip_prefix_Some in E.
    + destruct (split2 sep s) as [a' b'] eqn:E2. intros [= <- ->]. rewrite append_cons. f_equal. by apply IH.
Qed.

Lemma token_char_no_char c s : token_char c = false -> all_chars token_char s = true -> no_char c s = true.
Proof.
  intros Hc. induction s as [|x s IH]; [done|]. cbn [all_chars no_char]. intros [Hx Hs]%andb_true_iff.
  rewrite IH by done. rewrite andb_true_r. apply negb_true_iff, Ascii.eqb_neq. congruence.
Qed.

Lemma token_part_no_char c n s : token_char c = false -> token_part n s = true -> no_char c s = true.
Proof. intros Hc [_ Hs]%andb_true_iff. by apply token_char_no_char. Qed.

Lemma token_part_length n s : token_part n s = true -> String.length s = n.
Proof. by intros [?%Nat.eqb_eq _]%andb_true_iff. Qed.

Section token_facts.
Context `{BT : BootstrapTokens} `{XC : X509}.

Lemma bootstrap_no_colon t b : NewBootstrapTokenString t = Ok b -> no_char colon t = true.
Proof.
  unfold NewBootstrapTokenString. destruct (FindStringSubmatch t) as [[i s]|] eqn:E; [|done]. intros _.
  apply submatch_spec in E as (Hi & Hs & ->). rewrite token_from_spec, !no_char_app.
  rewrite (token_part_no_char _ 6 i), (token_part_no_char _ 16 s) by done. done.
Qed.

Lemma basic_not_bootstrap u p : exists e, NewBootstrapTokenString (u +:+ ":" +:+ p) = Err e.
Proof.
  destruct (NewBootstrapTokenString _) as [b|e] eqn:E; [|by exists e].
  apply bootstrap_no_colon in E. rewrite no_char_app in E. apply andb_true_iff in E as [_ E]. done.
Qed.

Lemma bootstrap_parses i s : token_part 6 i = true -> token_part 16 s = true ->
  bts_String (mkBTS i s) = i +:+ "." +:+ s /\ NewBootstrapTokenString (i +:+ "." +:+ s) = Ok (mkBTS i s).
Proof.
  intros Hi Hs. unfold bts_String, NewBootstrapTokenString. cbn [bts_ID bts_Secret].
  rewrite (token_part_length _ _ Hi), (token_part_length _ _ Hs). split; [apply token_from_spec|].
  rewrite <-token_from_spec. by rewrite (proj2 (submatch_spec _ i s)).
Qed.

Lemma hashCA_hex b d : hashCA b = Ok d -> String.length d = 64%nat /\ all_chars is_hex d = true.
Proof.
  unfold hashCA. destruct (ParseCertsPEM b) as [certs|]; [|done]. intros [= <-].
  rewrite hex_length, sha256_length. split; [done|]. apply hex_is_hex, sha256_range.
Qed.

(** A token in full form with a hash, or none, splits into the hash and the
    credentials. *)
Lemma parse_full d creds : (d = "" \/ String.length d = 64%nat /\ all_chars is_hex d = true) ->
  parseToken (tokenPrefix +:+ d +:+ "::" +:+ creds) = parse_creds creds (empty_info d).
Proof.
  intros Hd. unfold parseToken. rewrite decide_False by done.
  assert (full_form (tokenPrefix +:+ d +:+ "::" +:+ creds) = d +:+ "::" +:+ creds) as ->.
  { unfold full_form. by rewrite strip_prefix_app. }
  change "::" with (String colon ":"). rewrite split2_app.
  2: { destruct Hd as [->|[_ Hd]]; [done|]. by apply no_colon_hex. }
  destruct Hd as [->|[-> _]]; [done|]. done.
Qed.

Lemma parse_basic u p h : no_char colon u = true -> p <> "" ->
  parse_creds (u +:+ ":" +:+ p) (empty_info h) = Ok (mkInfo None "" "" u p "" "" h).
Proof.
  intros Hu Hp. unfold parse_creds. destruct (basic_not_bootstrap u p) as [e ->].
  change ":" with (String colon ""). rewrite split2_app by done. by destruct p.
Qed.

(** ** Properties *)

(** C30. A token that was formatted for user name (without a colon) and
    password, or for a bootstrap token, and a CA bundle is parsed back into
    exactly these and the hash of the bundle. *)
Theorem token_round_trip (b t u p i s : string) :
  (no_char colon u = true -> p <> "" -> FormatTokenBytes (u +:+ ":" +:+ p) b = Ok t ->
   exists d, hashCA b = Ok d /\ parseToken t = Ok (mkInfo None "" "" u p "" "" d)) /\
  (token_part 6 i = true -> token_part 16 s = true -> FormatTokenBytes (bts_String (mkBTS i s)) b = Ok t ->
   exists d, hashCA b = Ok d /\ parseToken t = Ok (mkInfo (Some (mkBTS i s)) "" "" "" "" "" "" d)).
Proof.
  unfold FormatTokenBytes. split; intros H1 H2.
  - rewrite decide_False by (by destruct u). destruct (hashCA b) as [d|] eqn:E; [|done]. intros [= <-].
    exists d. split; [done|]. rewrite parse_full by (right; by apply hashCA_hex in E). by apply parse_basic.
  - destruct (bootstrap_parses i s H1 H2) as [-> Hp]. rewrite decide_False by (by destruct i).
    destruct (hashCA b) as [d|] eqn:E; [|done]. intros [= <-].
    exists d. split; [done|]. rewrite parse_full by (right; by apply hashCA_hex in E).
    unfold parse_creds. by rewrite Hp.
Qed.

(** The password is the same in every form of a token: bare, with a user, with
    or without the hash of the CA. *)
Theorem normalize_forms (u p d : string) :
  no_char colon u = true -> p <> "" -> (d = "" \/ String.length d = 64%nat /\ all_chars is_hex d = true) ->
  NormalizeToken (tokenPrefix +:+ d +:+ "::" +:+ u +:+ ":" +:+ p) = Ok p /\
  (has_prefix p tokenPrefix = false -> NewBootstrapTokenString p = Err (Plain "the bootstrap token was not of the form") ->
   NormalizeToken p = Ok p).
Proof.
  intros Hu Hp Hd. unfold NormalizeToken, ParseUsernamePassword. split.
  - rewrite parse_full, parse_basic by done. done.
  - unfold has_prefix. intros Hpre Hb.
    assert (parseToken p = parse_creds (":" +:+ p) (empty_info "")) as ->.
    { unfold parseToken. rewrite decide_False by done.
      replace (full_form p) with ("" +:+ String colon ":" +:+ (":" +:+ p)).
      - change "::" with (String colon ":"). by rewrite split2_app.
      - unfold full_form. destruct (strip_prefix _ _); [done|]. by rewrite Hb. }
    change (":" +:+ p) with ("" +:+ ":" +:+ p). by rewrite parse_basic.
Qed.

(** A bundle of several certificates whose first has a chain is hashed by its
    root alone: renewing the others keeps the tokens valid. *)
Theorem hash_survives_renewal (b b' : string) (certs certs' : list Certificate) (r : Certificate) :
  (forall b certs, (b, certs) ∈ [(b, certs); (b', certs')] ->
     ParseCertsPEM b = Some certs /\
     exists c x rest chain chains, certs = c :: x :: rest /\
       Verify c (filter (fun c => self_signed c = true) (x :: rest)) (filter (fun c => self_signed c = false) (x :: rest)) =
         Some ((chain ++ [r]) :: chains)) ->
  hashCA b = Ok (hex (sha256 (bytes_of (Raw r)))) /\ hashCA b' = hashCA b.
Proof.
  intros H.
  assert (forall b certs, (b, certs) ∈ [(b, certs); (b', certs')] -> hashCA b = Ok (hex (sha256 (bytes_of (Raw r))))) as Hh.
  { intros b0 certs0 Hin. destruct (H _ _ Hin) as (Hp & c & x & rest & chain & chains & -> & Hv).
    unfold hashCA, hashed_bytes. rewrite Hp. cbn [hashed_bytes]. rewrite Hv, last_snoc. done. }
  rewrite (Hh b certs), (Hh b' certs') by set_solver. done.
Qed.

End token_facts.

(** ** Joining *)

(** The requests made so far, with whether they were answered. *)
Abbreviation traffic := (list (HttpClient * Request * bool)).

(** Any network: every request may be answered in any way. *)
Definition any_network : contract netE traffic := fun X e t x t' =>
  match e in netE X return X -> Prop with
  | Do c r => fun resp => t' = (c, r, is_ok resp) :: t
  | LoadX509KeyPair _ _ => fun _ => t' = t
  end x.

(** A request was answered by a server whose certificate the roots vouch for. *)
Definition vouched (roots : Trust) (t : traffic) : Prop := exists c r, hc_trust c = roots /\ (c, r, true) ∈ t.

Definition unauthenticated (t : traffic) : Prop := Forall (fun x => rq_auth x.1.2 = NoAuth) t.

Definition roots_of (cacerts : string) : Trust := if decide (cacerts = "") then HostRoots else Bundle cacerts.

Section joining.
Context `{UT : UrlText} `{SJ : StatusJSON} `{BT : BootstrapTokens} `{XC : X509}.

Lemma get_wp u client t : unauthenticated t ->
  wp any_network (get u client "" "" "") (fun o t' =>
    exists r, o = Done r /\ unauthenticated t' /\ t ⊆ t' /\ (is_ok r = true -> vouched (hc_trust client) t')) t.
Proof.
  intros Ht. unfold get, send. destruct (url_Parse u); cbn [wp bind].
  2: { eexists. split_and!; [done|done|done|]. intros [=]. }
  cbn [call bind]. intros resp t' ->. destruct resp as [resp|e]; cbn [wp bind].
  - eexists. split_and!; [done| |set_solver|].
    + by constructor.
    + intros _. exists client. eexists. split; [done|]. left.
  - eexists. split_and!; [done| |set_solver|intros [=]]. by constructor.
Qed.

Lemma roots_client cacerts t :
  wp any_network (GetHTTPClient cacerts "" "" []) (fun o t' =>
    exists c, o = Done c /\ t' = t /\ hc_trust c = roots_of cacerts) t.
Proof.
  unfold GetHTTPClient, roots_of. case_decide; [by exists defaultClient|].
  cbn. intros x t' ->. eexists. done.
Qed.

Lemma getCACerts_wp u t : unauthenticated t ->
  wp any_network (getCACerts u) (fun o t' =>
    exists r, o = Done r /\ unauthenticated t' /\ (forall cacerts, r = Ok cacerts -> vouched (roots_of cacerts) t')) t.
Proof.
  intros Ht. unfold getCACerts. apply wp_bind. eapply wp_mono; [|by apply get_wp].
  intros o t1 (r1 & -> & Ht1 & _ & Hv). destruct r1 as [b|e1]; simpl.
  { eexists. split_and!; [done|done|]. intros ? [= <-]. by apply Hv. }
  apply wp_bind. eapply wp_mono; [|by apply get_wp].
  intros o t2 (r2 & -> & Ht2 & _ & _). destruct r2 as [cacerts|e2]; simpl; [|by eexists].
  apply wp_bind. eapply wp_mono; [|apply roots_client]. intros o t3 (c & -> & -> & Hc).
  apply wp_bind. eapply wp_mono; [|by apply get_wp].
  intros o t4 (r4 & -> & Ht4 & _ & Hv4). destruct r4 as [b|e4]; simpl; [|by eexists].
  eexists. split_and!; [done|done|]. intros ? [= <-]. rewrite <-Hc. by apply Hv4.
Qed.

(** C24. Whatever the network does, no credential leaves the node while it
    validates a token; when validation succeeds, the server's certificate is
    vouched for by the CA bundle that will be used, and either that is the
    host's own or its hash is the one in the token, if there is one. *)
Theorem join_pins_ca (server token : string) (options : list (Info -> Info)) (t : traffic) :
  unauthenticated t ->
  wp any_network (ParseAndValidateToken server token options) (fun o t' =>
    exists r, o = Done r /\ unauthenticated t' /\
    forall info, r = Ok info ->
      exists i0 url, parseToken token = Ok i0 /\
        info = with_server url (CACerts info) (fold_left (fun i o => o i) options i0) /\
        vouched (roots_of (CACerts info)) t' /\
        (CACerts info = "" \/ caHash info = "" \/ hashCA (CACerts info) = Ok (caHash info))) t.
Proof.
  intros Ht. unfold ParseAndValidateToken, setAndValidateServer, setServer.
  destruct (parseToken token) as [i0|e]; [|by eexists]. set (i := fold_left _ _ _).
  destruct (url_Parse server) as [u|]; [|by eexists]. case_decide; [by eexists|].
  do 2 apply wp_bind. eapply wp_mono; [|by apply getCACerts_wp].
  intros o t' (r & -> & Ht' & Hv). destruct r as [cacerts|e]; simpl; [|by eexists].
  destruct (validateCAHash _) eqn:E; simpl; [|by eexists]. eexists. split_and!; [done|done|].
  intros info [= <-]. eexists i0, _. split_and!; [done|done|by apply Hv|].
  unfold validateCAHash in E. cbn [CACerts with_server caHash] in *.
  destruct (decide (cacerts = "")) as [|Hc]; [by left|]. right.
  destruct (decide (caHash i = "")) as [|Hh]; [by left|]. right.
  rewrite !bool_decide_eq_false_2 in E by done. cbn in E. case_bool_decide as Hd; [|done].
  unfold digest_of in Hd. destruct (hashCA cacerts); [|done]. by f_equal.
Qed.

(** Requests that carry credentials go to clients that check the server
    against the bundle of the token. *)
Theorem requests_use_bundle (i : Info) (path body : string) (options : list (HttpClient -> HttpClient)) :
  Forall (fun o => forall c, hc_trust (o c) = hc_trust c) options ->
  let ok X (e : netE X) := match e with Do c r => hc_trust c = roots_of (CACerts i) | _ => True end in
  only true ok (Get i path options) /\ only true ok (Put i path body options) /\ only true ok (Post i path body options).
Proof.
  intros Ho ok.
  assert (forall method u b client a1 a2 a3, hc_trust client = roots_of (CACerts i) -> only true ok (send method u b client a1 a2 a3)) as Hs.
  { intros. unfold send. destruct (url_Parse u); [|done]. split; [done|]. by intros []. }
  assert (forall A (f : string -> HttpClient -> string -> string -> string -> netP (res A)),
    (forall u c a1 a2 a3, hc_trust c = roots_of (CACerts i) -> only true ok (f u c a1 a2 a3)) ->
    only true ok (on_server i path options f)) as H.
  { intros A f Hf. unfold on_server. destruct (server_url _ _); [|done].
    unfold GetHTTPClient. destruct (decide (CACerts i = "")) eqn:E; cbn [bind].
    - apply Hf. unfold roots_of. by rewrite E.
    - cbn [bind call]. split; [done|]. intros x. cbn [bind]. apply Hf.
      assert (forall c, hc_trust (fold_left (fun c o => o c) options c) = hc_trust c) as ->.
      { clear -Ho. induction Ho as [|o l Ho _ IH]; [done|]. intros c. simpl. by rewrite IH. }
      unfold roots_of. by rewrite E. }
  split_and!; apply H; intros; [by apply Hs| |by apply Hs].
  unfold put. apply only_bind; [by apply Hs|]. by intros [].
Qed.

End joining.

(** ** Samples and witnesses *)

Definition sample_submatch (t : string) : option (string * string) :=
  match split2 "." t with
  | (i, Some s) => if token_part 6 i && token_part 16 s then Some (i, s) else None
  | _ => None
  end.

Lemma sample_submatch_spec t i s :
  sample_submatch t = Some (i, s) <-> token_part 6 i = true /\ token_part 16 s = true /\ t = i +:+ "." +:+ s.
Proof.
  unfold sample_submatch. split.
  - destruct (split2 "." t) as [i' [s'|]] eqn:E; [|done]. destruct (token_part 6 i' && token_part 16 s') eqn:Hp; [|done].
    intros [= -> ->]. apply andb_true_iff in Hp as [??]. apply split2_Some in E. done.
  - intros (Hi & Hs & ->). change "." with (String dot_char "").
    rewrite (split2_app dot_char "" i s) by by apply (token_part_no_char _ 6).
    by rewrite Hi, Hs.
Qed.

Definition sample_tokens : BootstrapTokens :=
  {| FindStringSubmatch := sample_submatch; TokenFromIDAndSecret i s := i +:+ "." +:+ s;
     submatch_spec := sample_submatch_spec; token_from_spec _ _ := eq_refl |}.

(** A certificate per letter: [R] is a root, [I] its intermediate, any other
    letter a leaf below [I]. *)
Definition letter_cert (c : Ascii.ascii) : Certificate :=
  if Ascii.eqb c (Ascii.ascii_of_nat 82) then mkCertificate "" "R" "R"
  else if Ascii.eqb c (Ascii.ascii_of_nat 73) then mkCertificate "R" "I" "I"
  else mkCertificate "I" "leaf" (String c "").

Fixpoint letter_certs (s : string) : list Certificate :=
  match s with EmptyString => [] | String c s => letter_cert c :: letter_certs s end.

Definition letter_x509 : X509.
Proof.
  refine {| ParseCertsPEM b := if decide (b = "") then None else Some (letter_certs b);
            Verify c roots inter := match roots with r :: _ => Some [[c] ++ inter ++ [r]] | [] => None end |}.
  - intros b certs. case_decide; [done|]. intros [= <-]. by destruct b.
  - intros c [|r roots] inter chains [= <-]. exists ([c] ++ inter), r, []. split; [by rewrite <-app_assoc|set_solver].
Defined.

Definition sample_url : UrlText :=
  {| url_Parse s := match strip_prefix "https://" s with
                    | Some r => match split2 "/" r with
                                | (h, Some p) => Some (mkURL "https" h ("/" +:+ p) "")
                                | (h, None) => Some (mkURL "https" h "" "")
                                end
                    | None => None
                    end;
     url_String u := Scheme u +:+ "://" +:+ Host u +:+ Path u |}.
Definition sample_status : StatusJSON := {| status_error _ := None |}.

(** A server whose certificate is signed by the bundle it serves. *)
Definition honest_network (bundle : string) : handler netE traffic := fun X e t =>
  match e in netE X return X * traffic with
  | Do c r =>
      let ok := match hc_trust c with HostRoots => false | SkipVerify => true | Bundle b => bool_decide (b = bundle) end in
      ((if ok then Ok (mkResponse 200 (Some bundle)) else Err (Plain "x509")), (c, r, ok) :: t)
  | LoadX509KeyPair _ _ => (Err not_exist, t)
  end.

Definition join_result (bundle token : string) : option (string * string * string) :=
  match run (honest_network bundle)
          (ParseAndValidateToken (UT := sample_url) (SJ := sample_status) (BT := sample_tokens) (XC := letter_x509)
             "https://server:6443/" token [WithUser "node"]) [] with
  | (Done (Ok i), t) => Some (BaseURL i, CACerts i, Username i)
  | _ => None
  end.

(** The full token of the cluster joins it, also after its intermediate was
    renewed; the token of another cluster does not. *)
Example join_scenario :
  match FormatTokenBytes (XC := letter_x509) "server:pw" "LIR" with
  | Ok t => (join_result "LIR" t, join_result "MIR" t, join_result "L" t)
  | Err _ => (None, None, None)
  end = (Some ("https://server:6443", "LIR", "node"), Some ("https://server:6443", "MIR", "node"), None).
Proof. vm_compute. reflexivity. Qed.

Lemma token_round_trip_witness :
  let parse := parseToken (BT := sample_tokens) in
  exists d, parse ("K10" +:+ d +:+ "::" +:+ "server:pw") = Ok (mkInfo None "" "" "server" "pw" "" "" d).
Proof.
  pose proof (token_round_trip (BT := sample_tokens) (XC := letter_x509) "R"
    (match FormatTokenBytes (XC := letter_x509) "server:pw" "R" with Ok t => t | Err _ => "" end)
    "server" "pw" "" "") as [H _].
  destruct H as (d & Hd & H); [reflexivity|done| |].
  - unfold FormatTokenBytes. rewrite decide_False by done. reflexivity.
  - exists d. unfold FormatTokenBytes in H. rewrite decide_False in H by done. rewrite Hd in H. exact H.
Defined.

Lemma join_pins_ca_witness :
  unauthenticated [] /\
  wp any_network (ParseAndValidateToken (UT := sample_url) (SJ := sample_status) (BT := sample_tokens) (XC := letter_x509)
    "https://server:6443" "secret" [WithUser "node"]) (fun o _ => exists r, o = Done r) [].
Proof.
  split; [by constructor|].
  eapply wp_mono; [|apply (join_pins_ca (UT := sample_url) (SJ := sample_status) (BT := sample_tokens) (XC := letter_x509)
    "https://server:6443" "secret" [WithUser "node"] [])].
  - intros o t (r & -> & _). by exists r.
  - by constructor.
Defined.
