(* ===== verification/Passwd.v ===== *)
(** * The password file

    [pkg/passwd], [pkg/authenticator/passwordfile] and [basicauth], and the
    users of [pkg/daemons/control/deps]: the file of node and server
    passwords, who writes it, and the requests it lets in. *)
From Stdlib Require Import ZArith Lia.
From S2P Require Import Prelude GoText Prog Os Hash JoinToken.

(** [encoding/csv]: the records of a text, with the error the reader stops at,
    and the text of records.  A field with a carriage return, or a record of
    one empty field, is not read back as it was. *)
Definition carriage_return : Ascii.ascii := Ascii.ascii_of_nat 13.
Definition csv_record (r : list string) : Prop :=
  r <> [] /\ r <> [""] /\ Forall (fun s => no_char carriage_return s = true) r.

Class CSV := mkCSV {
  csv_parse : string -> list (list string) * option error;
  csv_print : list (list string) -> string;
  csv_round_trip : forall rs, Forall csv_record rs -> csv_parse (csv_print rs) = (rs, None);
}.

(** ** [pkg/passwd] *)

Record entry := mkEntry { pass : string; role : string }.
#[export] Instance entry_eq_dec : EqDecision entry.
Proof. solve_decision. Defined.

Record Passwd := mkPasswd { changed : bool; names : gmap string entry }.

Definition entry_of (record : list string) : res (string * entry) :=
  match record with
  | p :: name :: _ => Ok (name, mkEntry p (default "" (record !! 3%nat)))
  | _ => Err (Plain "password file must have at least 2 columns")
  end.

Fixpoint read_records (records : list (list string)) (stop : option error) (m : gmap string entry)
    : res (gmap string entry) :=
  match records with
  | [] => match stop with Some e => Err e | None => Ok m end
  | r :: records =>
      match entry_of r with
      | Err e => Err e
      | Ok (name, e) => read_records records stop (<[name := e]> m)
      end
  end.

Section passwd.
Context `{CV : CSV} `{MO : MapOrder}.

Definition Read (file : string) : osP (res Passwd) :=
  do b <- call (ReadFile file);
  match b with
  | Err e => if decide (e = not_exist) then Ret (Ok (mkPasswd false ∅)) else Ret (Err e)
  | Ok b =>
      let '(records, stop) := csv_parse b in
      Ret (let? m := read_records records stop ∅ in Ok (mkPasswd false m))
  end.

(** The password inside a full token for the user. *)
Definition token_password (name passwd : string) : string :=
  match split2 ("::" +:+ name +:+ ":") passwd with
  | (String _ _, Some p) => if has_prefix passwd "K10" then p else passwd
  | _ => passwd
  end.

Definition set_user (name : string) (e : entry) (p : Passwd) : Passwd := mkPasswd true (<[name := e]> (names p)).

Definition EnsureUser (name role passwd : string) (p : Passwd) : osP (res Passwd) :=
  let passwd := token_password name passwd in
  match names p !! name with
  | Some (mkEntry old oldRole) =>
      let new := if decide (passwd <> "" /\ old <> passwd) then passwd else old in
      Ret (Ok (mkPasswd (changed p || negb (bool_decide (new = old)) || negb (bool_decide (oldRole = role)))
                 (<[name := mkEntry new role]> (names p))))
  | None =>
      try passwd <- (if decide (passwd = "") then call (Random 16) else Ret (Ok passwd));
      Ret (Ok (set_user name (mkEntry passwd role) p))
  end.

Definition Users (p : Passwd) : list string := (iter (names p)).*1.
Definition Pass (name : string) (p : Passwd) : option string := pass <$> names p !! name.

Definition record_of (x : string * entry) : list string := [pass x.2; x.1; x.1; role x.2].

Definition writePasswords (passwdFile : string) (records : list (list string)) : osP (res unit) :=
  let tmp := passwdFile +:+ ".tmp" in
  try _u <- call (Create tmp);
  try _u <- call (Chmod tmp);
  try _u <- call (Write tmp (csv_print records));
  call (Rename tmp passwdFile).

Definition PasswdWrite (p : Passwd) (passwdFile : string) : osP (res unit) :=
  if negb (changed p) then Ret (Ok tt) else writePasswords passwdFile (record_of <$> iter (names p)).

(** ** The users of a server ([deps.go]) *)

Context `{BT : BootstrapTokens} `{XC : X509}.

Definition server_role : string := "k8e:server".
Definition agent_role : string := "k8e:agent".

Definition migratePassword (p : Passwd) : osP (res Passwd) :=
  let server := default "" (Pass "server" p) in
  let node := default "" (Pass "node" p) in
  if decide (server = "" /\ node <> "") then EnsureUser "server" server_role node p else Ret (Ok p).

Definition getServerPass (p : Passwd) (Token : string) : osP (res string) :=
  let serverPass := if decide (Token = "") then default "" (Pass "server" p) else Token in
  if decide (serverPass = "") then call (Random 16) else Ret (Ok serverPass).

Definition getNodePass (AgentToken serverPass : string) : string :=
  if decide (AgentToken = "") then
    match ParseUsernamePassword serverPass with Some (_, passwd) => passwd | None => serverPass end
  else AgentToken.

(** [genUsers]; [Token] and [AgentToken] come from the configuration. *)
Definition genUsers (PasswdFile Token AgentToken : string) : osP (res unit) :=
  try passwd <- Read PasswdFile;
  try passwd <- migratePassword passwd;
  try serverPass <- getServerPass passwd Token;
  let nodePass := getNodePass AgentToken serverPass in
  try passwd <- EnsureUser "node" agent_role nodePass passwd;
  try passwd <- EnsureUser "server" server_role serverPass passwd;
  PasswdWrite passwd PasswdFile.

(** [readTokens]: the agent's and the server's token, where there is one. *)
Definition readTokens (PasswdFile : string) : osP (res (option string * option string)) :=
  try tokens <- Read PasswdFile;
  Ret (Ok ((fun t => "node:" +:+ t) <$> Pass "node" tokens, (fun t => "server:" +:+ t) <$> Pass "server" tokens)).

(** ** [pkg/authenticator/passwordfile], [basicauth] *)

Context `{HS : Hasher}.

Record UserInfo := mkUser { u_Name : string; u_UID : string; u_Groups : list string }.

Fixpoint hash_records (records : list (list string)) (stop : option error) (users : gmap string (UserInfo * string))
    : osP (res (gmap string (UserInfo * string))) :=
  match records with
  | [] => Ret (match stop with Some e => Err e | None => Ok users end)
  | r :: records =>
      match r with
      | p :: name :: uid :: _ =>
          try hash <- CreateHash p;
          let groups := match r !! 3%nat with Some g => split_on comma g | None => [] end in
          hash_records records stop (<[name := (mkUser name uid groups, hash)]> users)
      | _ => Ret (Err (Plain "password file must have at least 3 columns"))
      end
  end.

Definition NewCSV (path : string) : osP (res (gmap string (UserInfo * string))) :=
  try b <- call (ReadFile path);
  let '(records, stop) := csv_parse b in hash_records records stop ∅.

Definition AuthenticatePassword (users : gmap string (UserInfo * string)) (username password : string)
    : option UserInfo :=
  match users !! username with
  | None => None
  | Some (info, hash) => if is_ok (VerifyHash hash password) then Some info else None
  end.

(** [basicauth.AuthenticateRequest]: [None] when the request carries no basic
    credentials, an error when they are wrong. *)
Definition AuthenticateRequest (users : gmap string (UserInfo * string)) (basic : option (string * string))
    : option (res UserInfo) :=
  match basic with
  | None => None
  | Some (username, password) =>
      Some (match AuthenticatePassword users username password with
            | Some info => Ok info
            | None => Err (Plain "invalid username/password combination")
            end)
  end.

End passwd.

(** ** [pkg/server/auth] *)

Definition hasRole (mustRoles roles : list string) : bool :=
  existsb (fun check => existsb (fun role => bool_decide (role = check)) mustRoles) roles.

Inductive verdict := Serve (user : UserInfo) | ServeLocal | Refuse (status : Z).

(** [doAuth]: [configured] when there is an authenticator; its answer may be
    no user, a user, or an error. *)
Definition doAuth (roles : list string) (configured : bool) (answer : option (res UserInfo)) : verdict :=
  if negb configured then Refuse 401
  else match answer with
       | Some (Err _) => Refuse 401
       | Some (Ok u) => if hasRole roles (u_Groups u) then Serve u else Refuse 403
       | None => Refuse 403
       end.

Definition HasRole (roles : list string) (configured : bool) (answer : option (res UserInfo)) : verdict :=
  doAuth roles configured answer.

Definition IsLocalOrHasRole (client : string) (roles : list string) (configured : bool) (answer : option (res UserInfo))
    : verdict :=
  if decide (client = "127.0.0.1" \/ client = "::1") then ServeLocal else doAuth roles configured answer.

(** ** Properties *)

Lemma tmp_ne (file : string) : file +:+ ".tmp" <> file.
Proof. intros H. apply (f_equal String.length) in H. rewrite length_append in H. simpl in H. lia. Qed.

Section facts.
Context `{CV : CSV} `{MO : MapOrder} `{HS : Hasher}.

(** The users a disk holds. *)
Definition users_on (file : string) (m : fs) : res (gmap string entry) :=
  match m !! file with
  | None => Ok ∅
  | Some f => let '(records, stop) := csv_parse (f_content f) in read_records records stop ∅
  end.

(** Names, passwords and roles that the file format keeps. *)
Definition writable (m : gmap string entry) : Prop :=
  map_Forall (fun name e => no_char carriage_return name = true /\ no_char carriage_return (pass e) = true /\
                            no_char carriage_return (role e) = true) m.

Lemma records_read (l : list (string * entry)) (m : gmap string entry) :
  read_records (record_of <$> l) None m = Ok (fold_left (fun m x => <[x.1 := x.2]> m) l m).
Proof. revert m. induction l as [|[name [p r]] l IH]; intros m; [done|]. cbn. apply IH. Qed.

Lemma fold_inserts (l : list (string * entry)) (m : gmap string entry) : NoDup l.*1 ->
  fold_left (fun m x => <[x.1 := x.2]> m) l m = list_to_map l ∪ m.
Proof.
  revert m. induction l as [|[k v] l IH]; intros m Hl; simpl; [by rewrite (left_id_L ∅ (∪))|].
  apply NoDup_cons in Hl as [Hk Hl]. rewrite IH by done.
  rewrite <-insert_union_r, insert_union_l; [done|]. by apply not_elem_of_list_to_map_1.
Qed.

Lemma iter_map (m : gmap string entry) : list_to_map (iter m) = m.
Proof.
  rewrite <-(list_to_map_to_list m) at 2. apply list_to_map_proper; [apply iter_keys|apply iter_perm].
Qed.

Lemma writable_records (m : gmap string entry) : writable m -> Forall csv_record (record_of <$> iter m).
Proof.
  intros Hm. apply Forall_fmap, Forall_forall. intros [k e] Hin. apply elem_of_iter in Hin. destruct (Hm _ _ Hin) as (H1 & H2 & H3).
  unfold csv_record. simpl. split_and!; [done|done|]. by repeat constructor.
Qed.

Lemma written_read (m : gmap string entry) : writable m ->
  read_records (csv_parse (csv_print (record_of <$> iter m))).1 (csv_parse (csv_print (record_of <$> iter m))).2 ∅ = Ok m.
Proof.
  intros Hm. rewrite csv_round_trip by by apply writable_records. cbn [fst snd].
  rewrite records_read, fold_inserts by apply iter_keys. by rewrite iter_map, (right_id_L ∅ (∪)).
Qed.

Lemma passwd_write_awp (faults : bool) (p : Passwd) (file : string) (m : fs) :
  writable (names p) ->
  awp (os_contract faults)
    (fun m' => users_on file m' = users_on file m \/ users_on file m' = Ok (names p))
    (PasswdWrite p file)
    (fun r m' => (faults = false -> r = Ok tt) /\
                 (r = Ok tt -> changed p = true -> users_on file m' = Ok (names p))) m.
Proof.
  intros Hw. unfold PasswdWrite. destruct (changed p); cbn [negb]; [|by split; [left|]].
  unfold writePasswords. set (tmp := file +:+ ".tmp"). pose proof (tmp_ne file) as Hne.
  assert (forall m' f, m' !! file = m !! file -> users_on file (<[tmp := f]> m') = users_on file m) as Hsame.
  { intros m' f Hm'. unfold users_on. by rewrite lookup_insert_ne, Hm' by done. }
  assert (forall m' e, m' !! file = m !! file -> faults = true -> awp (os_contract faults)
    (fun m' => users_on file m' = users_on file m \/ users_on file m' = Ok (names p))
    (Ret (E := osE) (A := res unit) (Err e)) (fun r m' => (faults = false -> r = Ok tt) /\ (r = Ok tt -> true = true -> users_on file m' = Ok (names p))) m') as Hfail.
  { intros m' e Hm' Hf. split; [left; unfold users_on; by rewrite Hm'|]. split; congruence. }
  split; [by left|]. intros r m1 [(-> & t & ->)|(Hf & -> & e & ->)]; [|by apply Hfail].
  cbn. split; [left; by apply Hsame|]. intros r m2 [-> [->|(Hf & e & ->)]].
  2: { apply Hfail; [|done]. by rewrite lookup_insert_ne. }
  cbn. split; [left; by apply Hsame|].
  intros r m3 [(-> & t3 & ->)|(Hf & (e & ->) & f & ->)].
  2: { apply Hfail; [|done]. by rewrite !lookup_insert_ne. }
  cbn. rewrite insert_insert_eq. split; [left; by apply Hsame|].
  intros r m4 [(-> & f & Hl & ->)|([Hf|Hnone] & -> & e & ->)].
  - rewrite lookup_insert_eq in Hl. injection Hl as <-.
    assert (users_on file (<[file := mkFile (csv_print (record_of <$> iter (names p))) t3]>
       (delete tmp (<[tmp := mkFile (csv_print (record_of <$> iter (names p))) t3]> m))) = Ok (names p)) as Hu.
    { unfold users_on. rewrite lookup_insert_eq. cbn [f_content]. rewrite <-(written_read (names p)) by done.
      by destruct (csv_parse _). }
    split; [by right|]. by split.
  - apply Hfail; [|done]. by rewrite lookup_insert_ne.
  - by rewrite lookup_insert_eq in Hnone.
Qed.

(** ** Who is let in *)

(** The authenticator's users are those of a map of names. *)
Definition authenticates (users : gmap string (UserInfo * string)) (m : gmap string entry) : Prop :=
  forall name, match m !! name with
    | Some e => exists h, users !! name = Some (mkUser name name (split_on comma (role e)), h) /\ VerifyHash h (pass e) = Ok tt
    | None => users !! name = None
    end.

Lemma hash_records_wp (faults : bool) (l : list (string * entry)) users0 m0 (d : fs) :
  authenticates users0 m0 ->
  wp (os_contract faults) (hash_records (record_of <$> l) None users0)
    (fun o d' => d' = d /\ exists r, o = Done r /\
       forall users, r = Ok users -> authenticates users (fold_left (fun m x => <[x.1 := x.2]> m) l m0)) d.
Proof.
  revert users0 m0. induction l as [|[name [p r]] l IH]; intros users0 m0 Ha.
  - split; [done|]. eexists. split; [done|]. by intros ? [= <-].
  - cbn [fmap list_fmap record_of hash_records fst snd]. apply wp_bind.
    eapply wp_mono; [|apply CreateHash_wp]. intros o d' (-> & [h|e] & -> & Hh); cbn [wp].
    2: { split; [done|]. by eexists. }
    apply IH. intros k. cbn. destruct (decide (k = name)) as [->|Hk].
    + rewrite !lookup_insert_eq. exists h. split; [done|]. by apply Hh.
    + rewrite !lookup_insert_ne by done. apply Ha.
Qed.

(** Writing the password file is atomic: wherever the process dies and
    whatever the disk refuses, the file holds the users it held or the new
    ones; after success it holds the new ones. *)
Theorem passwd_write_atomic (faults : bool) (p : Passwd) (file : string) (m : fs) :
  writable (names p) ->
  awp (os_contract faults)
    (fun m' => users_on file m' = users_on file m \/ users_on file m' = Ok (names p))
    (PasswdWrite p file)
    (fun r m' => (faults = false -> r = Ok tt) /\
                 (r = Ok tt -> changed p = true -> users_on file m' = Ok (names p))) m.
Proof. apply passwd_write_awp. Qed.

(** Against the authenticator that is built from a written password file,
    the password of a user passes exactly the routes one of the user's roles
    is asked for, and a name that is not in the file passes none. *)
Theorem written_users_authenticate (faults : bool) (p : Passwd) (file : string) (f : Os.file) (roles : list string) (d : fs) :
  writable (names p) -> d !! file = Some f -> f_content f = csv_print (record_of <$> iter (names p)) ->
  wp (os_contract faults) (NewCSV file) (fun o d' => d' = d /\ exists r, o = Done r /\
    forall users, r = Ok users ->
      (forall name e, names p !! name = Some e ->
        doAuth roles true (AuthenticateRequest users (Some (name, pass e))) =
        if hasRole roles (split_on comma (role e)) then Serve (mkUser name name (split_on comma (role e))) else Refuse 403) /\
      (forall name q, names p !! name = None -> doAuth roles true (AuthenticateRequest users (Some (name, q))) = Refuse 401)) d.
Proof.
  intros Hw Hd Hf. unfold NewCSV. apply wp_call. intros b d' [-> Hb]. rewrite Hd, Hf in Hb.
  destruct Hb as [->|(_ & e & _ & ->)]; cbn [wp].
  2: { split; [done|]. eexists. split; [done|]. done. }
  rewrite csv_round_trip by by apply writable_records.
  eapply wp_mono; [|apply (hash_records_wp faults (iter (names p)) ∅ ∅); by intros k].
  intros o d' [-> (r & -> & Hr)]. split; [done|]. exists r. split; [done|].
  intros users ->. specialize (Hr _ eq_refl). rewrite fold_inserts, iter_map, (right_id_L ∅ (∪)) in Hr by apply iter_keys.
  unfold doAuth, AuthenticateRequest, AuthenticatePassword. cbn [negb]. split.
  - intros name e He. specialize (Hr name). rewrite He in Hr. destruct Hr as (h & -> & Hv). rewrite Hv. done.
  - intros name q He. specialize (Hr name). rewrite He in Hr. by rewrite Hr.
Qed.

(** ** The server's users *)

Context `{BT : BootstrapTokens} `{XC : X509}.

Lemma EnsureUser_sets (name role passwd : string) (p : Passwd) : token_password name passwd <> "" ->
  exists p', EnsureUser name role passwd p = Ret (Ok p') /\
    names p' = <[name := mkEntry (token_password name passwd) role]> (names p) /\
    (changed p' = false -> changed p = false /\ names p' = names p).
Proof.
  intros Hne. unfold EnsureUser. set (pw := token_password name passwd) in *.
  destruct (names p !! name) as [[old oldRole]|] eqn:E.
  - eexists. split; [done|]. cbn [names changed].
    assert ((if decide (pw <> "" /\ old <> pw) then pw else old) = pw) as ->.
    { case_decide as Hd; [done|]. destruct (decide (old = pw)); [done|]. tauto. }
    split; [done|]. intros [[H1 H2%negb_false_iff%bool_decide_eq_true]%orb_false_iff
      H3%negb_false_iff%bool_decide_eq_true]%orb_false_iff. split; [done|].
    apply insert_id. by rewrite E, H2, H3.
  - rewrite decide_False by done. eexists. split; [done|]. by split.
Qed.

(** The password a server reads out of its token and the one its password file
    keeps are the same, for a full token of user [server] and for a bare
    password. *)
Lemma readings_agree (d p : string) : p <> "" ->
  (d = "" \/ String.length d = 64%nat /\ all_chars Sha256.is_hex d = true) ->
  let full := tokenPrefix +:+ d +:+ "::" +:+ "server:" +:+ p in
  (ParseUsernamePassword full = Some ("server", p) /\ token_password "server" full = p) /\
  (has_prefix p tokenPrefix = false -> token_password "server" p = p).
Proof.
  intros Hp Hd full. split; [split|].
  - unfold full. change ("server:" +:+ p) with ("server" +:+ ":" +:+ p).
    unfold ParseUsernamePassword. rewrite parse_full, parse_basic by done. done.
  - unfold token_password, full.
    replace (tokenPrefix +:+ d +:+ "::" +:+ "server:" +:+ p)
      with ((tokenPrefix +:+ d) +:+ String Signed.colon ":server:" +:+ p) by by rewrite append_assoc.
    change ("::" +:+ "server" +:+ ":") with (String Signed.colon ":server:"). rewrite split2_app.
    + destruct (tokenPrefix +:+ d) eqn:E; [done|]. rewrite <-E. done.
    + rewrite no_char_app. destruct Hd as [->|[_ Hd]]; [done|]. by rewrite (Signed.no_colon_hex d Hd).
  - unfold tokenPrefix. intros Hk. unfold token_password. rewrite Hk. by destruct (split2 _ p) as [[] []].
Qed.

Lemma Read_wp (file : string) (m : fs) (old : gmap string entry) : users_on file m = Ok old ->
  wp (os_contract false) (Read file) (fun o m' => m' = m /\ o = Done (Ok (mkPasswd false old))) m.
Proof.
  intros Hu. unfold Read. apply wp_call. intros b m' [-> Hb]. unfold users_on in Hu.
  destruct (m !! file) as [f|].
  - destruct Hb as [->|[? _]]; [|done]. destruct (csv_parse (f_content f)) as [rs stop]. cbn. by rewrite Hu.
  - destruct Hb as (e & -> & He). rewrite decide_True by by apply He. cbn. by injection Hu as <-.
Qed.

Lemma migrate_wp (old : gmap string entry) (m : fs) :
  wp (os_contract false) (migratePassword (mkPasswd false old)) (fun o m' => m' = m /\ exists p1, o = Done (Ok p1) /\
    (names p1 = old \/ exists e, names p1 = <["server" := e]> old) /\ (changed p1 = false -> names p1 = old)) m.
Proof.
  unfold migratePassword. case_decide as Hd.
  2: { split; [done|]. eexists. split; [done|]. by split; [left|]. }
  set (node := default "" (Pass "node" (mkPasswd false old))) in *. destruct (decide (token_password "server" node = "")) as [He|He].
  - unfold EnsureUser. rewrite He. destruct (names (mkPasswd false old) !! "server") as [[o r]|] eqn:E.
    + split; [done|]. eexists. split; [done|]. rewrite decide_False by tauto. cbn [names changed].
      split; [right; by eexists|]. rewrite bool_decide_eq_true_2 by done. cbn.
      intros Hb%negb_false_iff%bool_decide_eq_true. apply insert_id. by rewrite <-Hb.
    + rewrite decide_True by done. apply wp_call. intros s m' [-> [(s' & -> & _)|[? _]]]; [|done].
      cbn [wp]. split; [done|]. eexists. split; [done|]. split; [right; by eexists|done].
  - destruct (EnsureUser_sets "server" server_role _ (mkPasswd false old) He) as (p' & -> & Hn & Hc).
    split; [done|]. eexists. split; [done|]. split; [right; by eexists|]. intros H. by destruct (Hc H).
Qed.

(** With a token in the configuration (and no agent token of its own)
    start-up leaves a password file in which the server and the agents have
    the token's password and their roles, whatever passwords were there
    before, and every other user is kept. *)
Theorem genUsers_sets_tokens (file Token u pw : string) (old : gmap string entry) (m : fs) :
  users_on file m = Ok old -> writable old -> no_char carriage_return pw = true ->
  ParseUsernamePassword Token = Some (u, pw) -> token_password "server" Token = pw -> pw <> "" ->
  token_password "node" pw = pw ->
  wp (os_contract false) (genUsers file Token "") (fun o m' => o = Done (Ok tt) /\
    users_on file m' = Ok (<["server" := mkEntry pw server_role]> (<["node" := mkEntry pw agent_role]> old))) m.
Proof.
  intros Hu Hw Hcr Hp Ht Hne Hnode. unfold genUsers. apply wp_bind.
  eapply wp_mono; [|by apply Read_wp]. intros o m' [-> ->]. cbn [wp bind].
  assert (Token <> "") as HT by by intros ->.
  apply wp_bind. eapply wp_mono; [|apply migrate_wp]. intros o m' (-> & p1 & -> & Hn1 & Hc1).
  assert (getServerPass p1 Token = Ret (Ok Token)) as ->.
  { unfold getServerPass. destruct (decide (Token = "")); [done|]. by destruct (decide (Token = "")). }
  apply wp_ret_bind. assert (getNodePass "" Token = pw) as ->.
  { unfold getNodePass. by rewrite Hp. }
  destruct (EnsureUser_sets "node" agent_role pw p1) as (p2 & -> & Hn2 & Hc2); [by rewrite Hnode|].
  apply wp_ret_bind.
  destruct (EnsureUser_sets "server" server_role Token p2) as (p3 & -> & Hn3 & Hc3); [by rewrite Ht|].
  apply wp_ret_bind. rewrite Ht in Hn3. rewrite Hnode in Hn2.
  assert (names p3 = <["server" := mkEntry pw server_role]> (<["node" := mkEntry pw agent_role]> old)) as Hn.
  { rewrite Hn3, Hn2. destruct Hn1 as [->|[e ->]]; [done|].
    rewrite (insert_insert_ne _ "node" "server") by done. by rewrite insert_insert_eq. }
  assert (writable (names p3)) as Hw3.
  { rewrite Hn. apply map_Forall_insert_2; [by split_and!|]. apply map_Forall_insert_2; [by split_and!|done]. }
  destruct (changed p3) eqn:Hc.
  - eapply wp_mono; [|apply (awp_wp _ _ _ _ _ (passwd_write_awp false p3 file m Hw3))].
    intros o m' (_ & r & -> & Hok & Hnew). rewrite (Hok eq_refl) in *. split; [done|]. rewrite <-Hn. by apply Hnew.
  - unfold PasswdWrite. rewrite Hc. cbn [negb]. split; [done|].
    destruct (Hc3 eq_refl) as [Hcc Hn32]. destruct (Hc2 Hcc) as [Hccc Hn21].
    rewrite Hu, <-Hn, Hn32, Hn21, Hc1 by done. done.
Qed.

End facts.

(** ** Samples and witnesses *)

Definition sample_csv : CSV.
Proof.
  refine {| csv_print rs := bits (encode rs);
            csv_parse s := match decode (unbits s) with Some rs => (rs, None) | None => ([], Some (Plain "csv")) end |}.
  intros rs _. by rewrite unbits_bits, decode_encode.
Defined.

Definition sample_hasher : Hasher.
Proof.
  refine {| hash_with salt s := Ok ("h" +:+ s); VerifyHash h s := if decide (h = "h" +:+ s) then Ok tt else Err (Plain "") |}.
  intros salt s h _ [= <-]. by rewrite decide_True.
Defined.

Definition two_users : Passwd :=
  mkPasswd true {["server" := mkEntry "pw" server_role; "node" := mkEntry "pw" agent_role]}.

Lemma two_users_writable : writable (names two_users).
Proof. repeat apply map_Forall_insert_2; try (by split_and!); apply map_Forall_empty. Qed.

Lemma written_users_authenticate_witness :
  let users := record_of <$> iter (MapOrder := list_order) (names two_users) in
  let d : fs := {["passwd" := mkFile (csv_print (CSV := sample_csv) users) 0]} in
  wp (os_contract false) (NewCSV (CV := sample_csv) (HS := sample_hasher) "passwd")
    (fun o d' => exists r, o = Done r /\ forall users, r = Ok users ->
       doAuth [agent_role] true (AuthenticateRequest (HS := sample_hasher) users (Some ("node", "pw"))) =
         Serve (mkUser "node" "node" [agent_role]) /\
       doAuth [server_role] true (AuthenticateRequest (HS := sample_hasher) users (Some ("node", "pw"))) = Refuse 403) d.
Proof.
  pose proof (fun roles => written_users_authenticate (CV := sample_csv) (MO := list_order) (HS := sample_hasher)
    false two_users "passwd" (mkFile (csv_print (CSV := sample_csv)
      (record_of <$> iter (MapOrder := list_order) (names two_users))) 0) roles _ two_users_writable (lookup_insert_eq ∅ "passwd" _) eq_refl) as H.
  eapply wp_mono; [|apply (wp_and _ _ _ _ _ (H [agent_role]) (H [server_role]))].
  intros o d' [[_ (r & -> & H1)] [_ (r2 & [= <-] & H2)]]. exists r. split; [done|]. intros users Hu.
  destruct (H1 users Hu) as [H1' _], (H2 users Hu) as [H2' _].
  split; [exact (H1' "node" (mkEntry "pw" agent_role) eq_refl)|exact (H2' "node" (mkEntry "pw" agent_role) eq_refl)].
Defined.

Definition start_users (Token AgentToken : string) : option (gmap string entry) :=
  match run live_os (genUsers (CV := sample_csv) (MO := list_order) (BT := sample_tokens) "passwd" Token AgentToken)
          (mkOs ∅ 0 ["00112233445566778899aabbccddeeff"]) with
  | (Done (Ok _), o) => match users_on (CV := sample_csv) "passwd" (os_fs o) with Ok m => Some m | Err _ => None end
  | _ => None
  end.

(** Without a token a random one is made, the same for servers and agents. *)
Example random_token :
  (pass <$> (start_users "" "" ≫= lookup "server"), pass <$> (start_users "" "" ≫= lookup "node")) =
  (Some "00112233445566778899aabbccddeeff", Some "00112233445566778899aabbccddeeff").
Proof. vm_compute. reflexivity. Qed.

(** A full token of a user other than [server] is read in two ways: the agents
    get its password, the servers the whole text. *)
Theorem token_of_other_user :
  (pass <$> (start_users "K10::node:pw" "" ≫= lookup "node"), pass <$> (start_users "K10::node:pw" "" ≫= lookup "server")) =
  (Some "pw", Some "K10::node:pw").
Proof. vm_compute. reflexivity. Qed.

Lemma passwd_write_atomic_witness :
  writable (names two_users) /\
  awp (os_contract true) (fun m' => users_on (CV := sample_csv) "passwd" m' = users_on (CV := sample_csv) "passwd" ∅ \/
      users_on (CV := sample_csv) "passwd" m' = Ok (names two_users))
    (PasswdWrite (CV := sample_csv) (MO := list_order) two_users "passwd") (fun _ _ => True) ∅.
Proof.
  split; [apply two_users_writable|].
  eapply awp_mono; [|apply (passwd_write_atomic (CV := sample_csv) (MO := list_order) true two_users "passwd" ∅ two_users_writable)].
  done.
Defined.

Lemma genUsers_sets_tokens_witness :
  wp (os_contract false) (genUsers (CV := sample_csv) (MO := list_order) (BT := sample_tokens) "passwd" "pw" "")
    (fun o m' => o = Done (Ok tt) /\ users_on (CV := sample_csv) "passwd" m' = Ok (names two_users)) ∅.
Proof.
  apply (genUsers_sets_tokens (CV := sample_csv) (MO := list_order) (BT := sample_tokens)
    "passwd" "pw" "" "pw" ∅ ∅); try reflexivity; [apply map_Forall_empty|done].
Defined.
