(* ===== verification/NodeAuth.v ===== *)
(** * Authentication of nodes

    [pkg/nodepassword] and the node side of [pkg/server/router.go]: the secret
    that binds a node's name to its password, the verification of a node that
    asks for kubelet certificates, and the routes of the supervisor with the
    roles they ask for. *)
From Stdlib Require Import ZArith Lia.
From S2P Require Import Prelude GoText Prog Os Hash JoinToken Passwd.

(** ** State and effects *)

(** The node-password secrets (by name, their hash), whether the clients of
    the API server are there, the names whose verification was put off, and
    the goroutines started for them. *)
Record Nodes := mkNodes {
  na_secrets : gmap string string; na_core : bool; na_deferred : gset string; na_spawned : list (string * string);
}.

(** [None] for a secret without a hash. *)
Inductive naE : Type -> Type :=
  | CacheSecret (name : string) : naE (res (option string))
  | CreateSecret (name hash : string) : naE (res unit)
  | DeleteSecret (name : string) : naE (res unit)
  | CacheNode (name : string) : naE (res unit)
  | NodeNames : naE (list string)
  | CoreReady : naE bool
  | Deferred {X} (f : gset string -> X * gset string) : naE X
  | Spawn (name pass : string) : naE unit
  | Sys {X} (e : osE X) : naE X.

Abbreviation naP := (prog naE).

Definition sys {A} (p : osP A) : naP A := trans (fun X e => Sys e) p.

(** ** [pkg/nodepassword] *)

Section nodepassword.
Context `{HS : Hasher}.

Definition getSecretName (nodeName : string) : string := ToLower (nodeName +:+ ".node-password.k8e").

(** The error inside the [passwordError], if any. *)
Definition verifyHash (nodeName pass : string) : naP (option error) :=
  do secret <- call (CacheSecret (getSecretName nodeName));
  Ret (match secret with
       | Err e => Some e
       | Ok (Some hash) => if is_ok (VerifyHash hash pass) then None else Some (Plain "hash does not match")
       | Ok None => Some (Plain "password hash not found in node secret")
       end).

(** What [Ensure] returns: nothing, an error that is [ErrVerifyFailed], or
    another one. *)
Inductive ensured := Verified | VerifyFailed (e : error) | CreateFailed (e : error).

Definition Ensure (nodeName pass : string) : naP ensured :=
  do v <- verifyHash nodeName pass;
  match v with
  | None => Ret Verified
  | Some e =>
      if is_not_found e then
        do hash <- sys (CreateHash pass);
        match hash with
        | Err e => Ret (VerifyFailed e)
        | Ok hash =>
            do r <- call (CreateSecret (getSecretName nodeName) hash);
            Ret (match r with Ok _ => Verified | Err e => CreateFailed e end)
        end
      else Ret (VerifyFailed e)
  end.

Definition Delete (nodeName : string) : naP (res unit) := call (DeleteSecret (getSecretName nodeName)).

Context `{CV : CSV} `{MO : MapOrder}.

(** The entries of the file, one node after the other; a failure is logged. *)
Fixpoint migrate_each (passwd : Passwd) (nodeNames : list string) : naP unit :=
  match nodeNames with
  | [] => Ret tt
  | nodeName :: l =>
      match Pass nodeName passwd with
      | Some pass => do _e <- Ensure nodeName pass; migrate_each passwd l
      | None => migrate_each passwd l
      end
  end.

Definition MigrateFile (passwordFile : string) : naP (res unit) :=
  do st <- sys (call (Stat passwordFile));
  match st with
  | Err e => if decide (e = not_exist) then Ret (Ok tt) else Ret (Err e)
  | Ok _ =>
      try passwd <- sys (Read passwordFile);
      do nodes <- call NodeNames;
      let nodeNames := match nodes with [] => Users passwd | _ => nodes end in
      do! migrate_each passwd nodeNames;
      sys (call (Remove passwordFile))
  end.

(** ** [passwordBootstrap] *)

Record NaConfig := mkNaConfig {
  DisableAPIServer : bool; DisableAgent : bool; Rootless : bool; DataDir : string; NODE_NAME : string;
}.

(** The user of a request, if it was authenticated, and its headers. *)
Record NodeRequest := mkNodeRequest {
  nr_user : option UserInfo; nr_name : string; nr_password : string; nr_ips : string;
}.

(** [nodeidentifier] of Kubernetes: the node a user stands for, if it does. *)
Context (NodeIdentity : UserInfo -> option string).

Record nodeInfo := mkNodeInfo { ni_Name : string; ni_Password : string; ni_User : UserInfo }.

Definition getNodeInfo (req : NodeRequest) : res nodeInfo :=
  match nr_user req with
  | None => Err (Plain "auth user not set")
  | Some user =>
      if decide (nr_name req = "") then Err (Plain "node name not set")
      else if decide (nr_password req = "") then Err (Plain "node password not set")
      else Ok (mkNodeInfo (ToLower (nr_name req)) (nr_password req) user)
  end.

Inductive bootstrapped := Granted (nodeName : string) | Denied (status : Z).

Definition verifyRemotePassword (node : nodeInfo) : naP bootstrapped :=
  do fresh <- call (Deferred (fun s => (bool_decide (ni_Name node ∉ s), {[ni_Name node]} ∪ s)));
  do! (if fresh : bool then call (Spawn (ni_Name node) (ni_Password node)) else Ret tt);
  Ret (Granted (ni_Name node)).

Definition node_password_file (cfg : NaConfig) : string :=
  (if Rootless cfg then filepath_Dir (DataDir cfg) +:+ "/agent" else "") +:+ "/etc/k8e/node/password".

Definition verifyLocalPassword (cfg : NaConfig) (node : nodeInfo) : naP bootstrapped :=
  if DisableAgent cfg then Ret (Granted (ni_Name node))
  else
    do passBytes <- sys (call (ReadFile (node_password_file cfg)));
    match passBytes with
    | Err _ => Ret (Denied 500)
    | Ok passBytes =>
        do passHash <- sys (CreateHash (TrimSpace passBytes));
        match passHash with
        | Err _ => Ret (Denied 500)
        | Ok passHash =>
            if is_ok (VerifyHash passHash (ni_Password node)) then verifyRemotePassword node else Ret (Denied 403)
        end
    end.

Definition verifyNode (node : nodeInfo) : naP bool :=
  match NodeIdentity (ni_User node) with
  | None => Ret true
  | Some nodeName => do r <- call (CacheNode nodeName); Ret (is_ok r)
  end.

Definition verify_with_secret (node : nodeInfo) : naP bootstrapped :=
  do known <- verifyNode node;
  if negb known then Ret (Denied 401)
  else
    do e <- Ensure (ni_Name node) (ni_Password node);
    match e with
    | Verified => Ret (Granted (ni_Name node))
    | VerifyFailed _ => Ret (Denied 403)
    | CreateFailed _ => verifyRemotePassword node
    end.

Definition passwordBootstrap (cfg : NaConfig) (req : NodeRequest) : naP bootstrapped :=
  match getNodeInfo req with
  | Err _ => Ret (Denied 400)
  | Ok node =>
      let identity := NodeIdentity (ni_User node) in
      if bool_decide (is_Some identity) && negb (bool_decide (identity = Some (ni_Name node))) then Ret (Denied 400)
      else
        do ready <- call CoreReady;
        if ready : bool then verify_with_secret node
        else if decide (ni_Name node = NODE_NAME cfg) then verifyLocalPassword cfg node
        else if DisableAPIServer cfg && negb (bool_decide (is_Some identity)) then verifyRemotePassword node
        else Ret (Denied 503)
  end.

(** One poll of the goroutine, and its polls every five seconds. *)
Definition ensureSecret_poll (name pass : string) : naP bool :=
  do ready <- call CoreReady;
  if ready : bool then
    do e <- Ensure name pass;
    Ret (match e with Verified => true | VerifyFailed _ => true | CreateFailed _ => false end)
  else Ret false.

Fixpoint ensureSecret (polls : nat) (name pass : string) : naP unit :=
  match polls with
  | O => Ret tt
  | S polls => do done <- ensureSecret_poll name pass; if done : bool then Ret tt else ensureSecret polls name pass
  end.

(** ** Kubelet certificates *)

Record CertRequest := mkCertRequest {
  cr_CommonName : string; cr_Organization : list string; cr_server : bool; cr_DNS : list string; cr_IPs : list string;
}.

(** Reading the CA and keys, and signing, as one call of the key files; [None]
    when a file is missing or does not parse. *)
Inductive certReply := CertIssued (c : CertRequest) | CertRefused (status : Z).

Context (NodesGroup : string) (parse_ip : string -> option string).

(** [util.SendError] answers 500 when no status is given. *)
Definition issue (c : CertRequest) (sign : CertRequest -> osP bool) : naP certReply :=
  do ok <- sys (sign c); Ret (if ok : bool then CertIssued c else CertRefused 500).

Definition servingKubeletCert (cfg : NaConfig) (sign : CertRequest -> osP bool) (req : NodeRequest) : naP certReply :=
  do a <- passwordBootstrap cfg req;
  match a with
  | Denied status => Ret (CertRefused status)
  | Granted nodeName =>
      let given := if decide (nr_ips req = "") then [] else split_on comma (nr_ips req) in
      match mapM parse_ip given with
      | None => Ret (CertRefused 500)
      | Some ips => issue (mkCertRequest nodeName [] true [nodeName; "localhost"] ("127.0.0.1" :: ips)) sign
      end
  end.

Definition clientKubeletCert (cfg : NaConfig) (sign : CertRequest -> osP bool) (req : NodeRequest) : naP certReply :=
  do a <- passwordBootstrap cfg req;
  match a with
  | Denied status => Ret (CertRefused status)
  | Granted nodeName => issue (mkCertRequest ("system:node:" +:+ nodeName) [NodesGroup] false [] []) sign
  end.

End nodepassword.

(** ** Routes of the supervisor *)

Inductive endpoint :=
  | EStatic | ECACerts | EPing | ETunnel | EFile (name : string) | EServingKubelet | EClientKubelet
  | EApiServers | EConfig | EReadyz | EEncrypt (name : string) | ECertReplace | EBootstrap | EToken
  | EApiServer | EApiServerDisabled.

Section router.
Context (NodesGroup BootstrapDefaultGroup SystemPrivilegedGroup : string).

Definition version_prefix : string := "/v1-k8e".

Definition authed_roles : list string := [agent_role; NodesGroup; BootstrapDefaultGroup].

(** The routes of the nested routers, from the innermost: a path that none
    matches falls through to the next; each router asks for its roles only on
    its own routes. *)
Definition authed_routes : list (string * endpoint) :=
  [("/serving-kubelet.crt", EServingKubelet); ("/client-kubelet.crt", EClientKubelet);
   ("/client-k8e-controller.crt", EFile "client-k8e-controller"); ("/client-ca.crt", EFile "client-ca");
   ("/server-ca.crt", EFile "server-ca"); ("/apiservers", EApiServers); ("/config", EConfig); ("/readyz", EReadyz)].
Definition nodeAuthed_routes : list (string * endpoint) := [("/connect", ETunnel)].
Definition serverAuthed_routes : list (string * endpoint) :=
  [("/encrypt/status", EEncrypt "status"); ("/encrypt/config", EEncrypt "config"); ("/cert/cacerts", ECertReplace);
   ("/server-bootstrap", EBootstrap); ("/token", EToken)].

Definition find_route (routes : list (string * endpoint)) (path : string) : option endpoint :=
  snd <$> find (fun r => bool_decide (version_prefix +:+ r.1 = path)) routes.

(** The roles a request needs, if any, and what serves it. *)
Definition router (DisableAPIServer : bool) (method path : string) : option (list string) * endpoint :=
  if has_prefix path "/static/" then (None, EStatic)
  else if decide (path = "/cacerts") then (None, ECACerts)
  else if decide (path = "/ping") then (None, EPing)
  else if decide (method = "CONNECT") then (Some [SystemPrivilegedGroup], ETunnel)
  else
    match find_route serverAuthed_routes path with
    | Some e => (Some [server_role], e)
    | None =>
        match find_route nodeAuthed_routes path with
        | Some e => (Some [NodesGroup], e)
        | None =>
            match find_route authed_routes path with
            | Some e => (Some authed_roles, e)
            | None => (None, if DisableAPIServer then EApiServerDisabled else EApiServer)
            end
        end
    end.

(** What a request comes to: served by an endpoint, or refused. *)
Definition dispatch (DisableAPIServer configured : bool) (answer : option (res UserInfo)) (method path : string)
    : endpoint + Z :=
  match router DisableAPIServer method path with
  | (None, e) => inl e
  | (Some roles, e) => match HasRole roles configured answer with Refuse status => inr status | _ => inl e end
  end.

End router.

(** ** Contract

    With [fresh] the cache shows every secret that exists; without, it may lag
    behind.  With [faults] calls may be refused. *)
Definition na_contract (faults fresh : bool) : contract naE (Nodes * fs) := fun X e v x v' =>
  let n := v.1 in
  match e in naE X return X -> Prop with
  | CacheSecret s => fun r => v' = v /\
      (r = match na_secrets n !! s with Some h => Ok (Some h) | None => Err (Api RNotFound) end \/
       (faults = true /\ exists e, is_not_found e = false /\ r = Err e) \/
       (fresh = false /\ r = Err (Api RNotFound)))
  | CreateSecret s h => fun r =>
      (na_secrets n !! s = None /\ r = Ok tt /\
       v' = (mkNodes (<[s := h]> (na_secrets n)) (na_core n) (na_deferred n) (na_spawned n), v.2)) \/
      (is_Some (na_secrets n !! s) /\ r = Err (Api RAlreadyExists) /\ v' = v) \/
      (faults = true /\ (exists e, r = Err e) /\ v' = v)
  | DeleteSecret s => fun r =>
      (r = Ok tt /\ v' = (mkNodes (delete s (na_secrets n)) (na_core n) (na_deferred n) (na_spawned n), v.2)) \/
      ((exists e, r = Err e) /\ v' = v)
  | CacheNode _ => fun _ => v' = v
  | NodeNames => fun _ => v' = v
  | CoreReady => fun b => b = na_core n /\ v' = v
  | Deferred f => fun x =>
      v' = (mkNodes (na_secrets n) (na_core n) (snd (f (na_deferred n))) (na_spawned n), v.2) /\ x = fst (f (na_deferred n))
  | Spawn name pass => fun _ =>
      v' = (mkNodes (na_secrets n) (na_core n) (na_deferred n) (na_spawned n ++ [(name, pass)]), v.2)
  | Sys e => fun x => exists d, os_contract faults _ e v.2 x d /\ v' = (n, d)
  end x.

Lemma sys_wp (faults fresh : bool) {A} (p : osP A) (Q : outcome A -> fs -> Prop) (v : Nodes * fs) :
  wp (os_contract faults) p Q v.2 ->
  wp (na_contract faults fresh) (sys p) (fun o v' => v'.1 = v.1 /\ Q o v'.2) v.
Proof.
  unfold sys. revert v. induction p as [a|X e k IH|m]; intros v H; [by split| |by split].
  intros x v' (d & Hc & ->). eapply wp_mono; [|apply IH; simpl; by apply H]. done.
Qed.

(** ** Properties *)

Section facts.
Context `{HS : Hasher} `{CV : CSV} `{MO : MapOrder}.
Context (NodeIdentity : UserInfo -> option string).

(** Secrets of other names are untouched, and those that exist are kept. *)
Definition secrets_kept (name : string) (n n' : Nodes) : Prop :=
  (forall h, na_secrets n !! getSecretName name = Some h -> na_secrets n' !! getSecretName name = Some h) /\
  (forall s, s <> getSecretName name -> na_secrets n' !! s = na_secrets n !! s).

Lemma Ensure_wp (faults fresh : bool) (name pass : string) (v : Nodes * fs) :
  wp (na_contract faults fresh) (Ensure name pass) (fun o v' => exists r, o = Done r /\ secrets_kept name v.1 v'.1 /\
    (r = Verified -> exists h, na_secrets v'.1 !! getSecretName name = Some h /\ VerifyHash h pass = Ok tt) /\
    (fresh = true -> forall h, na_secrets v.1 !! getSecretName name = Some h -> VerifyHash h pass <> Ok tt ->
       exists e, r = VerifyFailed e)) v.
Proof.
  unfold Ensure, verifyHash. apply wp_bind, wp_call. intros secret v1 [-> Hs]. cbn [wp].
  assert (forall e, is_not_found e = false -> secrets_kept name v.1 v.1) as Hrefl by by split.
  destruct secret as [[hash|]|e].
  - destruct Hs as [Hs|[(_ & e & _ & ?)|[_ ?]]]; [|done..].
    destruct (na_secrets v.1 !! getSecretName name) as [h|] eqn:Hh; [|done]. injection Hs as ->.
    destruct (VerifyHash h pass) as [[]|e] eqn:Hv; cbn [is_ok wp].
    + eexists. split_and!; [done|done|by eexists|]. intros _ h' [= <-] ?. done.
    + eexists. split_and!; [done|done|done|]. intros. by eexists.
  - destruct Hs as [Hs|[(_ & e & _ & ?)|[_ ?]]]; [|done..]. destruct (na_secrets _ !! _); done.
  - destruct (is_not_found e) eqn:He; cbn [wp].
    2: { eexists. split_and!; [done|done|done|]. intros. by eexists. }
    apply wp_bind. eapply wp_mono; [|apply sys_wp, CreateHash_wp].
    intros o v1 (Hv1 & Hd & r & -> & Hr). cbn [wp]. destruct r as [hash|e']; cbn [wp].
    2: { eexists. split_and!; [done|by rewrite Hv1|done|]. intros. by eexists. }
    apply wp_call. intros c v2 Hc. cbn [wp]. cbn in Hc. rewrite Hv1 in Hc.
    assert (fresh = true -> na_secrets v.1 !! getSecretName name = None) as Hnone.
    { intros ->. destruct Hs as [Hs|[(_ & e1 & H1 & [= ->])|[? _]]]; [|congruence|done].
      destruct (na_secrets v.1 !! getSecretName name); done. }
    destruct Hc as [(Hn & -> & ->)|[(Hn & -> & ->)|(_ & [e' ->] & ->)]].
    + eexists. split; [done|]. split.
      { split; cbn; [by rewrite Hn|]. intros s Hne. by rewrite lookup_insert_ne. }
      split; [|by rewrite Hn]. intros _. exists hash. cbn. rewrite lookup_insert_eq. split; [done|]. by apply Hr.
    + eexists. rewrite Hv1. split_and!; [done|done|done|]. intros H1 h Hh. by rewrite Hnone in Hh.
    + eexists. rewrite Hv1. split_and!; [done|done|done|]. intros H1 h Hh. by rewrite Hnone in Hh.
Qed.

Lemma verifyRemote_wp (faults fresh : bool) (node : nodeInfo) (v : Nodes * fs) :
  wp (na_contract faults fresh) (verifyRemotePassword node)
    (fun o v' => o = Done (Granted (ni_Name node)) /\ na_secrets v'.1 = na_secrets v.1) v.
Proof.
  unfold verifyRemotePassword. apply wp_call. intros x v1 [-> ->]. cbn [fst].
  destruct (bool_decide _).
  - apply wp_call. by intros _ v2 ->.
  - by apply wp_ret_bind.
Qed.

Lemma verifyLocal_wp (faults fresh : bool) (cfg : NaConfig) (node : nodeInfo) (v : Nodes * fs) :
  wp (na_contract faults fresh) (verifyLocalPassword cfg node)
    (fun o v' => exists r, o = Done r /\ na_secrets v'.1 = na_secrets v.1 /\ forall name, r = Granted name -> name = ni_Name node) v.
Proof.
  unfold verifyLocalPassword. destruct (DisableAgent cfg).
  { eexists. split_and!; [done|done|by intros ? [= <-]]. }
  change (sys (call (ReadFile ?p))) with (call (Sys (ReadFile p))).
  apply wp_call. intros b v1 (d & _ & ->). destruct b as [b|e]; [|by eexists].
  apply wp_bind. eapply wp_mono; [|apply sys_wp, CreateHash_wp].
  intros o v1 (Hv1 & _ & r & -> & _). cbn [wp]. destruct r as [h|e]; cbn [wp].
  2: { eexists. by rewrite Hv1. }
  destruct (is_ok _); cbn [wp].
  2: { eexists. by rewrite Hv1. }
  eapply wp_mono; [|apply verifyRemote_wp]. intros o v2 [-> Hs]. eexists. rewrite Hs, Hv1. split_and!; [done|done|by intros ? [= <-]].
Qed.

(** A grant under the node's own name, to one who knows its password. *)
Definition grant_ok (fresh : bool) (name pass : string) (v v' : Nodes * fs) (r : bootstrapped) : Prop :=
  secrets_kept name v.1 v'.1 /\
  forall n, r = Granted n -> n = name /\
    (fresh = true -> na_core v.1 = true -> forall h, na_secrets v.1 !! getSecretName name = Some h -> VerifyHash h pass = Ok tt).

Lemma denied_ok (fresh : bool) (name pass : string) (v v' : Nodes * fs) (status : Z) :
  secrets_kept name v.1 v'.1 -> exists r, Done (Denied status) = Done r /\ grant_ok fresh name pass v v' r.
Proof. intros Hk. eexists. split; [done|]. split; [done|]. by intros n [=]. Qed.

Lemma unchanged_ok (fresh : bool) (name pass : string) (v v' : Nodes * fs) (r : bootstrapped) :
  na_core v.1 = false -> na_secrets v'.1 = na_secrets v.1 -> (forall n, r = Granted n -> n = name) ->
  exists r', Done r = Done r' /\ grant_ok fresh name pass v v' r'.
Proof.
  intros Hc Hs Hr. exists r. split; [done|]. split; [unfold secrets_kept; by rewrite Hs|].
  intros n Hn. split; [by apply Hr|]. intros _ H. congruence.
Qed.

Lemma verifyNode_wp (faults fresh : bool) (node : nodeInfo) (v : Nodes * fs) :
  wp (na_contract faults fresh) (verifyNode NodeIdentity node) (fun o v' => v' = v /\ exists b, o = Done b) v.
Proof.
  unfold verifyNode. destruct (NodeIdentity _); [|by split; [|eexists]].
  apply wp_call. intros r v' ->. by split; [|eexists].
Qed.

Lemma with_secret_wp (faults fresh : bool) (node : nodeInfo) (v : Nodes * fs) :
  wp (na_contract faults fresh) (verify_with_secret NodeIdentity node)
    (fun o v' => exists r, o = Done r /\ grant_ok fresh (ni_Name node) (ni_Password node) v v' r) v.
Proof.
  unfold verify_with_secret. apply wp_bind. eapply wp_mono; [|apply verifyNode_wp]. intros o v1 [-> [known ->]].
  cbn [wp]. destruct known; cbn [negb wp]; [|by apply denied_ok; split].
  apply wp_bind. eapply wp_mono; [|apply Ensure_wp]. intros o v' (r & -> & Hk & _ & Hf). cbn [wp].
  assert (forall v2, na_secrets v2.1 = na_secrets v'.1 -> (forall e, r <> VerifyFailed e) ->
    exists r0, Done (Granted (ni_Name node)) = Done r0 /\ grant_ok fresh (ni_Name node) (ni_Password node) v v2 r0) as Hg.
  { intros v2 Hv2 Hr. eexists. split; [done|]. split; [unfold secrets_kept in *; by rewrite Hv2|].
    intros n [= <-]. split; [done|]. intros Hfresh _ h Hh.
    destruct (decide (VerifyHash h (ni_Password node) = Ok tt)) as [|Hn]; [done|].
    destruct (Hf Hfresh h Hh Hn) as [e ->]. by destruct (Hr e). }
  destruct r; cbn [wp]; [by apply Hg|by apply denied_ok|].
  eapply wp_mono; [|apply verifyRemote_wp]. intros o v2 [-> Hs]. by apply Hg.
Qed.

Lemma node_wp (faults fresh : bool) (cfg : NaConfig) (node : nodeInfo) (isNode : bool) (v : Nodes * fs) :
  wp (na_contract faults fresh)
    (do ready <- call CoreReady;
     if ready : bool then verify_with_secret NodeIdentity node
     else if decide (ni_Name node = NODE_NAME cfg) then verifyLocalPassword cfg node
     else if DisableAPIServer cfg && negb isNode then verifyRemotePassword node
     else Ret (Denied 503))
    (fun o v' => exists r, o = Done r /\ grant_ok fresh (ni_Name node) (ni_Password node) v v' r) v.
Proof.
  apply wp_call. intros ready v1 [-> ->]. destruct (na_core v.1) eqn:Hcore; [apply with_secret_wp|].
  destruct (decide _).
  - eapply wp_mono; [|apply verifyLocal_wp]. intros o v' (r & -> & Hs & Hn). by apply unchanged_ok.
  - destruct (_ && _); [|by apply denied_ok; split].
    eapply wp_mono; [|apply verifyRemote_wp]. intros o v' [-> Hs]. apply unchanged_ok; [done..|]. by intros n' [= <-].
Qed.

(** C25. While one request is served at a time, the API server is there and
    the cache answers every read and is up to date, a name that has a password
    is granted to nobody who does not know it: a cache that lags, a server that
    is not there yet and a second request for a new name at the same time all
    admit another password.  Whatever the server and the cache do, a request is
    granted the name of its header in lower case and no other, a user that
    stands for a node only its own name, and no node's secret but the named
    one's is made, none is changed. *)
Theorem node_password_binds (faults fresh : bool) (cfg : NaConfig) (req : NodeRequest) (v : Nodes * fs) :
  wp (na_contract faults fresh) (passwordBootstrap NodeIdentity cfg req) (fun o v' => exists r, o = Done r /\
    grant_ok fresh (ToLower (nr_name req)) (nr_password req) v v' r /\
    forall name, r = Granted name -> nr_name req <> "" /\ nr_password req <> "" /\
      exists u, nr_user req = Some u /\ (NodeIdentity u = None \/ NodeIdentity u = Some name)) v.
Proof.
  unfold passwordBootstrap, getNodeInfo.
  assert (forall status, exists r, Done (Denied status) = Done r /\
    grant_ok fresh (ToLower (nr_name req)) (nr_password req) v v r /\
    forall name, r = Granted name -> nr_name req <> "" /\ nr_password req <> "" /\
      exists u, nr_user req = Some u /\ (NodeIdentity u = None \/ NodeIdentity u = Some name)) as Hdeny.
  { intros status. eexists. split; [done|]. split; [split; [by split|by intros n [=]]|by intros n [=]]. }
  destruct (nr_user req) as [u|] eqn:Hu; [|apply Hdeny].
  destruct (decide (nr_name req = "")); [apply Hdeny|]. destruct (decide (nr_password req = "")) as [|Hp]; [apply Hdeny|].
  cbn [ni_User ni_Name ni_Password]. destruct (bool_decide _ && negb _) eqn:Hid; [apply Hdeny|].
  eapply wp_mono; [|apply (node_wp faults fresh cfg (mkNodeInfo (ToLower (nr_name req)) (nr_password req) u))].
  intros o v' (r & -> & Hg). exists r. split; [done|]. split; [done|]. intros nm Hn. split_and!; [done..|].
  exists u. split; [done|]. destruct Hg as [_ Hg]. destruct (Hg nm Hn) as [-> _].
  destruct (NodeIdentity u) as [n'|]; [|by left]. right.
  rewrite bool_decide_eq_true_2 in Hid by done. cbn in Hid. by apply negb_false_iff, bool_decide_eq_true in Hid.
Qed.

End facts.

(** ** Who reaches what *)

Lemma hasRole_spec (mustRoles roles : list string) :
  hasRole mustRoles roles = true <-> exists r, r ∈ mustRoles /\ r ∈ roles.
Proof.
  unfold hasRole. rewrite existsb_exists. setoid_rewrite existsb_exists. setoid_rewrite bool_decide_eq_true.
  setoid_rewrite <-list_elem_of_In. naive_solver.
Qed.

Lemma HasRole_served (roles : list string) (configured : bool) (answer : option (res UserInfo)) :
  (forall status, HasRole roles configured answer <> Refuse status) ->
  configured = true /\ exists u, answer = Some (Ok u) /\ exists r, r ∈ roles /\ r ∈ u_Groups u.
Proof.
  intros H. unfold HasRole, doAuth in H. destruct configured; [|by destruct (H 401%Z)].
  destruct answer as [[u|e]|]; [|by destruct (H 401%Z)|by destruct (H 403%Z)].
  destruct (hasRole roles (u_Groups u)) eqn:E; [|by destruct (H 403%Z)].
  split; [done|]. exists u. split; [done|]. by apply hasRole_spec.
Qed.

Lemma find_route_in (routes : list (string * endpoint)) (path : string) (e : endpoint) :
  find_route routes path = Some e -> e ∈ routes.*2.
Proof.
  unfold find_route. destruct (find _ _) as [[p e']|] eqn:E; [|done]. intros [= <-].
  apply find_some in E as [Hin _]. apply list_elem_of_In in Hin. by apply (list_elem_of_fmap_2 snd) in Hin.
Qed.

(** The roles that open an endpoint; [None] for one that is open to all, whose
    own server is to check. *)
Definition opened_by (NodesGroup BootstrapDefaultGroup SystemPrivilegedGroup : string) (e : endpoint) : option (list string) :=
  match e with
  | EStatic | ECACerts | EPing | EApiServer | EApiServerDisabled => None
  | ETunnel => Some [NodesGroup; SystemPrivilegedGroup]
  | EEncrypt _ | ECertReplace | EBootstrap | EToken => Some [server_role]
  | _ => Some (authed_roles NodesGroup BootstrapDefaultGroup)
  end.

(** C26. Every endpoint of the supervisor is reached only by users with a role
    that opens it: the bootstrap data, the token, the CA and the encryption
    keys by servers, kubelet certificates by agents, nodes and bootstrap
    tokens, the tunnel by nodes and the system group; so an agent's password
    never reads the keys of the cluster. *)
Theorem supervisor_access (NodesGroup BootstrapDefaultGroup SystemPrivilegedGroup : string)
    (disabled configured : bool) (answer : option (res UserInfo)) (method path : string) (e : endpoint) (roles : list string) :
  dispatch NodesGroup BootstrapDefaultGroup SystemPrivilegedGroup disabled configured answer method path = inl e ->
  opened_by NodesGroup BootstrapDefaultGroup SystemPrivilegedGroup e = Some roles ->
  configured = true /\ exists u, answer = Some (Ok u) /\ exists r, r ∈ roles /\ r ∈ u_Groups u.
Proof.
  unfold dispatch. intros Hd Ho.
  assert (forall roles', match HasRole roles' configured answer with Refuse status => inr status | _ => inl e end = inl e ->
    roles' ⊆ roles -> configured = true /\ exists u, answer = Some (Ok u) /\ exists r, r ∈ roles /\ r ∈ u_Groups u) as H.
  { intros roles' Hs Hsub. destruct (HasRole_served roles' configured answer) as (Hc & u & Hu & r & Hr & Hg).
    - intros status Hr. by rewrite Hr in Hs.
    - split; [done|]. exists u. split; [done|]. exists r. split; [by apply Hsub|done]. }
  unfold router in Hd.
  destruct (has_prefix path "/static/"); [by injection Hd as <-|].
  destruct (decide (path = "/cacerts")); [by injection Hd as <-|].
  destruct (decide (path = "/ping")); [by injection Hd as <-|].
  assert (forall roles' e', match HasRole roles' configured answer with Refuse status => inr status | _ => inl e' end = inl e -> e' = e) as He.
  { intros roles' e'. destruct (HasRole roles' configured answer); congruence. }
  destruct (decide (method = "CONNECT")).
  { pose proof (He _ _ Hd) as <-. injection Ho as <-. apply (H _ Hd). set_solver. }
  destruct (find_route serverAuthed_routes path) as [e'|] eqn:E1.
  { pose proof (He _ _ Hd) as ->. apply find_route_in in E1. cbn in E1. apply (H _ Hd).
    repeat (apply elem_of_cons in E1 as [->|E1]; [by injection Ho as <-|]). by apply elem_of_nil in E1. }
  destruct (find_route nodeAuthed_routes path) as [e'|] eqn:E2.
  { pose proof (He _ _ Hd) as ->. apply find_route_in in E2. cbn in E2. apply list_elem_of_singleton in E2 as ->.
    injection Ho as <-. apply (H _ Hd). set_solver. }
  destruct (find_route authed_routes path) as [e'|] eqn:E3.
  { pose proof (He _ _ Hd) as ->. apply find_route_in in E3. cbn in E3. apply (H _ Hd).
    repeat (apply elem_of_cons in E3 as [->|E3]; [by injection Ho as <-|]). by apply elem_of_nil in E3. }
  destruct disabled; by injection Hd as <-.
Qed.

(** ** Samples, races and witnesses *)

Record World := mkWorld { wo_nodes : Nodes; wo_cache : option (gmap string string); wo_refuse : bool; wo_os : Os }.

(** An API server with a cache that is up to date, or one that still shows an
    old state, and that may refuse to create. *)
Definition live_na : handler naE World := fun X e w =>
  let n := wo_nodes w in
  let with_nodes n := mkWorld n (wo_cache w) (wo_refuse w) (wo_os w) in
  match e in naE X return X * World with
  | CacheSecret s => (match default (na_secrets n) (wo_cache w) !! s with Some h => Ok (Some h) | None => Err (Api RNotFound) end, w)
  | CreateSecret s h =>
      if wo_refuse w then (Err (Api ROther), w)
      else match na_secrets n !! s with
           | Some _ => (Err (Api RAlreadyExists), w)
           | None => (Ok tt, with_nodes (mkNodes (<[s := h]> (na_secrets n)) (na_core n) (na_deferred n) (na_spawned n)))
           end
  | DeleteSecret s => (Ok tt, with_nodes (mkNodes (delete s (na_secrets n)) (na_core n) (na_deferred n) (na_spawned n)))
  | CacheNode _ => (Ok tt, w)
  | NodeNames => ([], w)
  | CoreReady => (na_core n, w)
  | Deferred f => let '(x, s) := f (na_deferred n) in (x, with_nodes (mkNodes (na_secrets n) (na_core n) s (na_spawned n)))
  | Spawn name pass => (tt, with_nodes (mkNodes (na_secrets n) (na_core n) (na_deferred n) (na_spawned n ++ [(name, pass)])))
  | Sys e => let '(x, o) := live_os _ e (wo_os w) in (x, mkWorld n (wo_cache w) (wo_refuse w) o)
  end.

Definition salts : list string := ["0011223344556677"; "8899aabbccddeeff"].
Definition new_world (cache : option (gmap string string)) (refuse : bool) (m : fs) : World :=
  mkWorld (mkNodes ∅ true ∅ []) cache refuse (mkOs m 0 salts).

Definition agent_user : UserInfo := mkUser "node" "node" [agent_role].
Definition asks (password : string) : naP bootstrapped :=
  passwordBootstrap (HS := sample_hasher) (fun _ => None) (mkNaConfig false false false "" "server")
    (mkNodeRequest (Some agent_user) "Worker" password "").

(** One after the other, the second password is refused. *)
Example wrong_password_refused :
  let '(o1, w) := run live_na (asks "first") (new_world None false ∅) in
  let '(o2, w) := run live_na (asks "second") w in (o1, o2) = (Done (Granted "worker"), Done (Denied 403)).
Proof. vm_compute. reflexivity. Qed.

(** Two nodes of one name that ask at the same time are both granted it,
    whatever their passwords: the secret the second cannot create is taken for
    an outage. *)
Theorem two_nodes_one_name :
  fst (sched live_na [0; 1; 0; 1; 0; 1; 0; 1; 1; 1] ([asks "first"; asks "second"], new_world None false ∅)) =
  [Ret (Granted "worker"); Ret (Granted "worker")].
Proof. vm_compute. reflexivity. Qed.

(** So is a later node, while the cache does not show the secret yet. *)
Theorem stale_cache_admits :
  let '(o1, w) := run live_na (asks "first") (new_world (Some ∅) false ∅) in
  let '(o2, w) := run live_na (asks "second") w in (o1, o2) = (Done (Granted "worker"), Done (Granted "worker")).
Proof. vm_compute. reflexivity. Qed.

(** The old password file is removed although its entries could not be turned
    into secrets. *)
Theorem migration_drops_failed :
  let file := csv_print (CSV := sample_csv) (record_of <$> [("worker", mkEntry "pw" "")]) in
  let '(o, w) := run live_na (MigrateFile (HS := sample_hasher) (CV := sample_csv) (MO := list_order) "node-passwd")
                   (new_world None true {["node-passwd" := mkFile file 0]}) in
  (o, na_secrets (wo_nodes w) !! getSecretName "worker", os_fs (wo_os w) !! "node-passwd") = (Done (Ok tt), None, None).
Proof. vm_compute. reflexivity. Qed.

Lemma supervisor_access_witness :
  let go groups := dispatch "system:nodes" "system:bootstrappers" "system:masters" false true
                     (Some (Ok (mkUser "server" "server" groups))) "GET" "/v1-k8e/server-bootstrap" in
  go [server_role] = inl EBootstrap /\ go [agent_role] = inr 403%Z /\
  exists r, r ∈ [server_role] /\ r ∈ [server_role].
Proof.
  split_and!; [reflexivity|reflexivity|].
  destruct (supervisor_access "system:nodes" "system:bootstrappers" "system:masters" false true
    (Some (Ok (mkUser "server" "server" [server_role]))) "GET" "/v1-k8e/server-bootstrap" EBootstrap [server_role]
    eq_refl eq_refl) as (_ & u & [= <-] & H). exact H.
Defined.
