(* ===== verification/EtcdStore.v ===== *)
(** * The datastore of the cluster

    [pkg/etcdstorage]: keys with revisions and compare-and-set operations on
    etcd, and [pkg/cluster/encrypt.go]: the encryption of what is kept
    there. *)
From Stdlib Require Import ZArith Lia Strings.Byte Strings.String.
From S2P Require Import Prelude Prog Os Sha256 Signed JoinToken.

#[local] Open Scope Z_scope.

(** ** etcd *)

(** The current revision, and each key's value with the revision of its last
    change. *)
Record Etcd := mkEtcd { et_rev : Z; et_kvs : gmap string (string * Z) }.

Definition mod_revision (key : string) (s : Etcd) : Z := default 0 (snd <$> et_kvs s !! key).

Definition put_key (key value : string) (s : Etcd) : Etcd :=
  mkEtcd (et_rev s + 1) (<[key := (value, et_rev s + 1)]> (et_kvs s)).
Definition delete_key (key : string) (s : Etcd) : Etcd :=
  match et_kvs s !! key with
  | Some _ => mkEtcd (et_rev s + 1) (delete key (et_kvs s))
  | None => s
  end.

(** A transaction [If(ModRevision(key) = rev).Then(op)]: whether it succeeded. *)
Definition txn (key : string) (rev : Z) (op : Etcd -> Etcd) (s : Etcd) : bool * Etcd :=
  if mod_revision key s =? rev then (true, op s) else (false, s).

(** ** [etcdstorage.Client] *)

Record Value := mkValue { v_Key : string; v_Data : string; v_Modified : Z }.

Definition key_exists : error := Plain "key exists".
Definition revision_mismatch : error := Plain "revision doesnt match".
Definition not_supported_for_learner : error := Plain "etcdserver: rpc not supported for learner".

Definition kv_value (kv : string * (string * Z)) : Value := mkValue kv.1 kv.2.1 kv.2.2.

(** etcd answers a range in the order of the keys. *)
Definition List (prefix : string) (s : Etcd) : list Value :=
  kv_value <$> filter (fun kv => has_prefix kv.1 prefix = true)
    (merge_sort (fun a b => String.le a.1 b.1) (map_to_list (et_kvs s))).

Definition Get (key : string) (s : Etcd) : res Value :=
  match et_kvs s !! key with
  | Some (d, r) => Ok (mkValue key d r)
  | None => Err (Plain "key not found")
  end.

Definition Create (key value : string) (s : Etcd) : res unit * Etcd :=
  let '(ok, s) := txn key 0 (put_key key value) s in ((if ok then Ok tt else Err key_exists), s).
Definition Update (key : string) (revision : Z) (value : string) (s : Etcd) : res unit * Etcd :=
  let '(ok, s) := txn key revision (put_key key value) s in ((if ok then Ok tt else Err revision_mismatch), s).
Definition Delete (key : string) (revision : Z) (s : Etcd) : res unit * Etcd :=
  let '(ok, s) := txn key revision (delete_key key) s in ((if ok then Ok tt else Err revision_mismatch), s).

(** Revisions count up from one, and no key is newer than the store. *)
Definition etcd_wf (s : Etcd) : Prop :=
  0 <= et_rev s /\ map_Forall (fun _ kv => 0 < kv.2 <= et_rev s) (et_kvs s).

Lemma put_key_wf key value s : etcd_wf s -> etcd_wf (put_key key value s).
Proof.
  intros [H0 Hk]. split; cbn; [lia|]. apply map_Forall_insert_2; cbn; [lia|].
  intros k [d r] Hkr. specialize (Hk k _ Hkr). cbn in *. lia.
Qed.

Lemma delete_key_wf key s : etcd_wf s -> etcd_wf (delete_key key s).
Proof.
  intros [H0 Hk]. unfold delete_key. destruct (et_kvs s !! key); [|done]. split; cbn; [lia|].
  intros k [d r] Hkr. apply lookup_delete_Some in Hkr as [_ Hkr]. specialize (Hk k _ Hkr). cbn in *. lia.
Qed.

Lemma mod_revision_zero key s : etcd_wf s -> mod_revision key s = 0 <-> et_kvs s !! key = None.
Proof.
  intros [_ Hk]. unfold mod_revision. destruct (et_kvs s !! key) as [[d r]|] eqn:E; [|done].
  specialize (Hk key _ E). cbn in *. split; [lia|done].
Qed.

Lemma Create_spec key value s : etcd_wf s ->
  Create key value s = match et_kvs s !! key with
                       | None => (Ok tt, put_key key value s)
                       | Some _ => (Err key_exists, s)
                       end.
Proof.
  intros Hwf. unfold Create, txn. destruct (Z.eqb_spec (mod_revision key s) 0) as [Hz|Hz].
  - apply mod_revision_zero in Hz; [|done]. by rewrite Hz.
  - rewrite mod_revision_zero in Hz by done. destruct (et_kvs s !! key); [done|by destruct Hz].
Qed.

(** A change is made only against the revision that was read: of an existing
    key the update and the deletion find exactly that value. *)
Lemma Update_spec key rev value s : 0 < rev ->
  Update key rev value s = match et_kvs s !! key with
                           | Some (d, r) => if r =? rev then (Ok tt, put_key key value s) else (Err revision_mismatch, s)
                           | None => (Err revision_mismatch, s)
                           end.
Proof.
  intros Hr. unfold Update, txn, mod_revision. destruct (et_kvs s !! key) as [[d r]|]; cbn.
  - by destruct (r =? rev).
  - by destruct rev.
Qed.

Lemma Delete_spec key rev s : 0 < rev ->
  Delete key rev s = match et_kvs s !! key with
                     | Some (d, r) => if r =? rev then (Ok tt, delete_key key s) else (Err revision_mismatch, s)
                     | None => (Err revision_mismatch, s)
                     end.
Proof.
  intros Hr. unfold Delete, txn, mod_revision. destruct (et_kvs s !! key) as [[d r]|]; cbn.
  - by destruct (r =? rev).
  - by destruct rev.
Qed.

Lemma elem_of_List v prefix s :
  v ∈ List prefix s <-> has_prefix (v_Key v) prefix = true /\ et_kvs s !! v_Key v = Some (v_Data v, v_Modified v).
Proof.
  unfold List. rewrite list_elem_of_fmap. split.
  - intros ([k [d r]] & -> & Hin). apply list_elem_of_filter in Hin as [Hp Hin].
    rewrite merge_sort_Permutation in Hin. by apply elem_of_map_to_list in Hin.
  - intros [Hp Hk]. exists (v_Key v, (v_Data v, v_Modified v)). split; [by destruct v|].
    apply list_elem_of_filter. split; [done|]. rewrite merge_sort_Permutation. by apply elem_of_map_to_list.
Qed.

(** ** Encryption *)

(** AES-GCM under a key derived by PBKDF2: [seal] and [open] of
    [crypto/cipher], with what is relied on. *)
Class Cipher := mkCipher {
  pbkdf2_Key : string -> string -> list Z;
  gcm_Seal : list Z -> list Z -> string -> list Z;
  gcm_Open : list Z -> list Z -> list Z -> option string;
  open_seal : forall k n p, gcm_Open k n (gcm_Seal k n p) = Some p;
  seal_bytes : forall k n p, Forall is_byte (gcm_Seal k n p);
}.

Definition NonceSize : nat := 12.

(** [hex.DecodeString] of lower-case digits. *)
Definition hex_value (c : Ascii.ascii) : Z := default 0 (index_of c "0123456789abcdef" 0).
Fixpoint unhex (s : string) : list Z :=
  match s with
  | String a (String b s) => hex_value a * 16 + hex_value b :: unhex s
  | _ => []
  end.

(** [storageKey] *)
Definition storageKey (passphrase : string) : string := "/bootstrap/" +:+ ShortHash passphrase 12.

Section cipher.
Context `{CI : Cipher}.

(** The random bytes come as hexadecimal text. *)
Definition sealed (passphrase salt nonce plaintext : string) : string :=
  salt +:+ ":" +:+ base64 (unhex nonce ++ gcm_Seal (pbkdf2_Key passphrase salt) (unhex nonce) plaintext).

Definition encrypt (passphrase plaintext : string) : osP (res string) :=
  try salt <- call (Random 8);
  try nonce <- call (Random NonceSize);
  Ret (Ok (sealed passphrase salt nonce plaintext)).

(** Slicing a ciphertext that is shorter than a nonce panics. *)
Definition decrypt {E} (passphrase ciphertext : string) : prog E (res string) :=
  match split2 ":" ciphertext with
  | (_, None) => Ret (Err (Plain "invalid cipher text, not : delimited"))
  | (salt, Some text) =>
      match base64_decode text with
      | None => Ret (Err (Plain "base64"))
      | Some data =>
          if (length data <? NonceSize)%nat then Panic "slice bounds out of range"
          else Ret (match gcm_Open (pbkdf2_Key passphrase salt) (take NonceSize data) (drop NonceSize data) with
                    | Some p => Ok p
                    | None => Err (Plain "cipher: message authentication failed")
                    end)
      end
  end.

Lemma hex_value_range c : is_hex c = true -> 0 <= hex_value c < 16.
Proof. unfold hex_value. by destruct c as [[] [] [] [] [] [] [] []]. Qed.

Lemma unhex_bytes n s : random_text n s = true -> Forall is_byte (unhex s) /\ length (unhex s) = n.
Proof.
  revert s. induction n as [|n IH]; intros s [Hl%Nat.eqb_eq Hs]%andb_true_iff.
  - by destruct s.
  - destruct s as [|a [|b s]]; cbn in Hl; [lia..|]. cbn [all_chars] in Hs.
    apply andb_true_iff in Hs as [Ha [Hb Hs]%andb_true_iff].
    destruct (IH s) as [H1 H2]; [apply andb_true_iff; split; [apply Nat.eqb_eq; lia|done]|].
    cbn [unhex length]. split; [|by rewrite H2]. constructor; [|done].
    apply hex_value_range in Ha, Hb. unfold is_byte. lia.
Qed.

(** What was encrypted under a passphrase is decrypted under it. *)
Lemma decrypt_sealed {E} passphrase salt nonce plaintext :
  random_text 8 salt = true -> random_text NonceSize nonce = true ->
  decrypt (E := E) passphrase (sealed passphrase salt nonce plaintext) = Ret (Ok plaintext).
Proof.
  intros Hs Hn. unfold decrypt, sealed. destruct (unhex_bytes _ _ Hn) as [Hb Hl].
  apply andb_true_iff in Hs as [_ Hs].
  change ":" with (String Signed.colon ""). rewrite split2_app by by apply no_colon_hex.
  rewrite base64_round_trip by (apply Forall_app; split; [done|apply seal_bytes]).
  rewrite length_app, Hl. rewrite (proj2 (Nat.ltb_ge _ _)) by lia.
  rewrite <-Hl, take_app_length, drop_app_length, open_seal. done.
Qed.

Lemma encrypt_wp (faults : bool) passphrase plaintext m :
  wp (os_contract faults) (encrypt passphrase plaintext) (fun o m' => m' = m /\ exists r, o = Done r /\
    (faults = false -> is_ok r = true) /\
    forall data, r = Ok data -> data <> "" /\ forall E, decrypt (E := E) passphrase data = Ret (Ok plaintext)) m.
Proof.
  unfold encrypt. apply wp_call. intros salt m1 [-> Hs]. destruct salt as [salt|e].
  2: { split; [done|]. eexists. split; [done|]. split; [|done]. intros ->. by destruct Hs as [(s & ? & _)|[? _]]. }
  destruct Hs as [(s & [= <-] & Hs)|(_ & e & ?)]; [|done].
  apply wp_call. intros nonce m2 [-> Hn]. destruct nonce as [nonce|e].
  2: { split; [done|]. eexists. split; [done|]. split; [|done]. intros ->. by destruct Hn as [(s & ? & _)|[? _]]. }
  destruct Hn as [(s & [= <-] & Hn)|(_ & e & ?)]; [|done].
  split; [done|]. eexists. split; [done|]. split; [done|]. intros data [= <-]. split.
  - unfold sealed. by destruct salt.
  - intros E. by apply decrypt_sealed.
Qed.

End cipher.
