(* ===== verification/BootstrapData.v ===== *)
(** * Bootstrap data of a server

    [pkg/bootstrap]: the certificates and keys of a cluster as files with
    their times, read from the disk of a server and written to that of
    another; with the comparison of [pkg/cluster/bootstrap.go] that decides
    which of the two is newer. *)
From Stdlib Require Import ZArith Lia.
From S2P Require Import Prelude Prog Sha256 Os.

#[local] Open Scope Z_scope.

(** [bootstrap.File] *)
Record BFile := mkBFile { Timestamp : Z; Content : string }.
#[export] Instance BFile_eq_dec : EqDecision BFile.
Proof. solve_decision. Defined.

Abbreviation PathsDataformat := (gmap string BFile).

(** The JSON of the data, now and in old versions. *)
Class BootJSON := mkBootJSON {
  files_marshal : PathsDataformat -> string;
  files_unmarshal : string -> option PathsDataformat;
  old_unmarshal : string -> option (gmap string string);
  files_round_trip : forall m, files_unmarshal (files_marshal m) = Some m;
}.

Section data.
Context `{BJ : BootJSON} `{MO : MapOrder}.

(** [ObjToMap] of the runtime's bootstrap part: the path of each key. *)
Context (paths : gmap string string).

Definition path_of (pathKey : string) : option string :=
  match paths !! pathKey with
  | Some p => if decide (p = "") then None else Some p
  | None => None
  end.

Fixpoint read_files (l : list (string * string)) (dataMap : PathsDataformat) : osP (res PathsDataformat) :=
  match l with
  | [] => Ret (Ok dataMap)
  | (pathKey, path) :: l =>
      if decide (path = "") then read_files l dataMap
      else
        do data <- call (ReadFile path);
        match data with
        | Err _ => read_files l dataMap
        | Ok data =>
            try t <- call (Stat path);
            read_files l (<[pathKey := mkBFile t data]> dataMap)
        end
  end.

Definition ReadFromDisk : osP (res string) :=
  try dataMap <- read_files (iter paths) ∅; Ret (Ok (files_marshal dataMap)).

Fixpoint write_files (l : list (string * BFile)) : osP (res unit) :=
  match l with
  | [] => Ret (Ok tt)
  | (pathKey, bsf) :: l =>
      match path_of pathKey with
      | None => write_files l
      | Some path =>
          try _u <- call (MkdirAll (filepath_Dir path));
          try _u <- WriteFile path (Content bsf);
          try _u <- call (Chtimes path (Timestamp bsf));
          write_files l
      end
  end.

Definition WriteToDiskFromStorage (files : PathsDataformat) : osP (res unit) := write_files (iter files).

(** ** Formats *)

(** The zero [time.Time], in nanoseconds since 1970. *)
Definition zero_time : Z := -62135596800 * second.

(** [isMigrated] and [migrateBootstrapData]. *)
Definition isMigrated (buf : string) : option PathsDataformat := files_unmarshal buf.
Definition migrateBootstrapData (buf : string) : res PathsDataformat :=
  match old_unmarshal buf with
  | Some old => Ok (mkBFile zero_time <$> old)
  | None => Err (Plain "unmarshal bootstrap data")
  end.
Definition load_files (buf : string) : res PathsDataformat :=
  match isMigrated buf with Some files => Ok files | None => migrateBootstrapData buf end.

(** ** Comparison *)

Definition systemTimeSkew : Z := 3.

(** Whether the disk is to be updated, and whether it is newer. *)
Definition isNewerFile (path : string) (f : BFile) : osP (res (bool * bool)) :=
  do data <- call (ReadFile path);
  match data with
  | Err e => if decide (e = not_exist) then Ret (Ok (true, false)) else Ret (Err e)
  | Ok data =>
      if decide (Content f = data) then Ret (Ok (false, false))
      else
        try t <- call (Stat path);
        Ret (Ok (true, systemTimeSkew <=? t / second - Timestamp f / second))
  end.

Fixpoint compare_files (l : list (string * BFile)) (updateDisk : bool) (newerOnDisk : list string)
    : osP (res (bool * list string)) :=
  match l with
  | [] => Ret (Ok (updateDisk, newerOnDisk))
  | (pathKey, fileData) :: l =>
      match path_of pathKey with
      | None => compare_files l updateDisk newerOnDisk
      | Some path =>
          try u <- isNewerFile path fileData;
          compare_files l (updateDisk || u.1) (if u.2 : bool then newerOnDisk ++ [path] else newerOnDisk)
      end
  end.

(** [certDirsExist], under the data directory. *)
Fixpoint dirs_filled (l : list string) : osP bool :=
  match l with
  | [] => Ret true
  | d :: l =>
      do names <- call (ReadDir d);
      match names with Ok (_ :: _) => dirs_filled l | _ => Ret false end
  end.
Definition certDirsExist (DataDir : string) : osP bool :=
  dirs_filled [DataDir +:+ "/cred"; DataDir +:+ "/tls"; DataDir +:+ "/tls/etcd"].

(** The part of [ReconcileBootstrapData] after the data is at hand; a cluster
    reset backs the certificates up, and a newer file on disk ends the
    process. *)
Definition reconcile_files (ClusterReset : bool) (backup : osP (res unit)) (files : PathsDataformat) : osP (res unit) :=
  try c <- compare_files (iter files) false [];
  if ClusterReset then
    try _u <- backup;
    WriteToDiskFromStorage files
  else if bool_decide (c.2 <> []) then Panic "newer than datastore"
  else if (c.1 : bool) then WriteToDiskFromStorage files
  else Ret (Ok tt).

(** ** Properties *)

(** Different keys have different paths. *)
Definition paths_distinct : Prop := forall k1 k2 p, path_of k1 = Some p -> path_of k2 = Some p -> k1 = k2.

(** The disk holds the file of a key, content and time. *)
Definition restored (m : fs) (k : string) (f : BFile) : Prop :=
  forall p, path_of k = Some p -> m !! p = Some (mkFile (Content f) (Timestamp f)).

Definition untouched (keys : list string) (m m' : fs) : Prop :=
  forall p, (forall k, k ∈ keys -> path_of k <> Some p) -> m' !! p = m !! p.

Lemma write_files_wp (l : list (string * BFile)) (m : fs) : paths_distinct -> NoDup l.*1 ->
  wp (os_contract false) (write_files l) (fun o m' => o = Done (Ok tt) /\
    (forall k f, (k, f) ∈ l -> restored m' k f) /\ untouched l.*1 m m') m.
Proof.
  intros Hd. revert m. induction l as [|[k f] l IH]; intros m Hnd.
  - split_and!; [done| |done]. intros k f []%elem_of_nil.
  - cbn [fmap list_fmap fst] in Hnd. apply NoDup_cons in Hnd as [Hk Hnd]. cbn [write_files].
    destruct (path_of k) as [p|] eqn:Hp.
    + apply wp_call. intros r m1 [-> [->|[? _]]]; [|done]. unfold WriteFile. apply wp_assoc.
      apply wp_call. intros r m2 [(-> & t & ->)|[? _]]; [|done].
      apply wp_call. intros r m3 [(-> & t' & ->)|[? _]]; [|done].
      apply wp_call. intros r m4 [(-> & f' & Hf' & ->)|[[?|Hn] _]]; [| done|].
      2: { by rewrite lookup_insert_eq in Hn. }
      rewrite insert_insert_eq, lookup_insert_eq in *. injection Hf' as <-. rewrite insert_insert_eq.
      eapply wp_mono; [|by apply IH]. intros o m' (-> & Hr & Hu). split; [done|]. split.
      * intros k' f' [[= -> ->]|Hin]%elem_of_cons; [|by apply Hr].
        intros p' Hp'. rewrite Hp in Hp'. injection Hp' as <-. rewrite Hu; [by rewrite lookup_insert_eq|].
        intros k2 Hk2 Hp2. by rewrite (Hd k2 k p Hp2 Hp) in Hk2.
      * intros p' Hne. rewrite Hu by set_solver. apply lookup_insert_ne. intros ->. apply (Hne k); [set_solver|done].
    + eapply wp_mono; [|by apply IH]. intros o m' (-> & Hr & Hu). split; [done|]. split.
      * intros k' f' [[= -> ->]|Hin]%elem_of_cons; [|by apply Hr]. intros p. by rewrite Hp.
      * intros p Hne. apply Hu. set_solver.
Qed.

Lemma WriteToDisk_wp (files : PathsDataformat) (m : fs) : paths_distinct ->
  wp (os_contract false) (WriteToDiskFromStorage files) (fun o m' => o = Done (Ok tt) /\
    map_Forall (restored m') files /\ untouched (iter files).*1 m m') m.
Proof.
  intros Hd. eapply wp_mono; [|apply write_files_wp; [done|apply iter_keys]].
  intros o m' (-> & Hr & Hu). split_and!; [done| |done]. intros k f Hk. apply Hr. by apply elem_of_iter.
Qed.

(** A file on disk that would be overwritten although it is newer. *)
Definition newer_file (m : fs) (p : string) (f : BFile) : Prop :=
  exists g, m !! p = Some g /\ f_content g <> Content f /\ systemTimeSkew <= f_mtime g / second - Timestamp f / second.

Definition same_file (m : fs) (p : string) (f : BFile) : Prop :=
  exists g, m !! p = Some g /\ f_content g = Content f.

Lemma isNewerFile_wp (p : string) (f : BFile) (m : fs) :
  wp (os_contract false) (isNewerFile p f) (fun o m' => m' = m /\ exists u n, o = Done (Ok (u, n)) /\
    (n = true <-> newer_file m p f) /\ (u = false <-> same_file m p f)) m.
Proof.
  unfold isNewerFile. apply wp_call. intros d m1 [-> Hd]. destruct (m !! p) as [g|] eqn:Hp.
  - destruct Hd as [->|[? _]]; [|done]. destruct (decide (Content f = f_content g)) as [Heq|Hne].
    + split; [done|]. exists false, false. split_and!; [done| |].
      * split; [done|]. intros (g' & Hg & Hn & _). rewrite Hp in Hg. injection Hg as <-. by destruct Hn.
      * split; [|done]. intros _. by exists g.
    + apply wp_call. intros t m2 [-> Ht]. rewrite Hp in Ht. destruct Ht as [->|[? _]]; [|done].
      split; [done|]. exists true. eexists. split_and!; [done| |].
      * rewrite Z.leb_le. unfold newer_file. rewrite Hp. split; [intros H; by exists g|]. by intros (g' & [= <-] & _ & H).
      * split; [done|]. intros (g' & Hg & Hc). rewrite Hp in Hg. injection Hg as <-. done.
  - destruct Hd as (e & -> & He). rewrite decide_True by by apply He. split; [done|]. exists true, false.
    split_and!; [done| |]; (split; [done|]); intros (g & Hg & _); by rewrite Hp in Hg.
Qed.

(** The comparison of all files: what is to be updated and what is newer. *)
Lemma compare_files_wp (l : list (string * BFile)) (u : bool) (newer : list string) (m : fs) :
  wp (os_contract false) (compare_files l u newer) (fun o m' => m' = m /\ exists u' newer', o = Done (Ok (u', newer')) /\
    (newer' = [] <-> newer = [] /\ forall k f p, (k, f) ∈ l -> path_of k = Some p -> ~ newer_file m p f) /\
    (u' = false <-> u = false /\ forall k f p, (k, f) ∈ l -> path_of k = Some p -> same_file m p f)) m.
Proof.
  revert u newer. induction l as [|[k f] l IH]; intros u newer.
  - split; [done|]. exists u, newer. split_and!; [done| |]; (split; [|by intros [? _]]); intros ->; (split; [done|]);
      intros k f p []%elem_of_nil.
  - cbn [compare_files]. destruct (path_of k) as [p|] eqn:Hp.
    + apply wp_bind. eapply wp_mono; [|apply isNewerFile_wp]. intros o m' (-> & u1 & n1 & -> & Hn & Hu). cbn [wp fst snd].
      eapply wp_mono; [|apply IH]. intros o m' (-> & u' & newer' & -> & Hn' & Hu'). split; [done|]. exists u', newer'.
      split; [done|]. split.
      * rewrite Hn'. split.
        -- intros [He Hl]. destruct n1; [by apply app_nil in He as [_ ?]|]. split; [done|].
           intros k' f' p' [[= -> ->]|Hin]%elem_of_cons Hp'; [|by eapply Hl].
           rewrite Hp in Hp'. injection Hp' as <-. intros H. by apply Hn in H.
        -- intros [-> Hl]. assert (n1 = false) as ->.
           { destruct n1; [|done]. exfalso. apply (Hl k f p); [by left|done|by apply Hn]. }
           split; [done|]. intros k' f' p' Hin. apply (Hl k' f'). by right.
      * rewrite Hu'. rewrite orb_false_iff. split.
        -- intros [[-> ->] Hl]. split; [done|]. intros k' f' p' [[= -> ->]|Hin]%elem_of_cons Hp'; [|by eapply Hl].
           rewrite Hp in Hp'. injection Hp' as <-. by apply Hu.
        -- intros [-> Hl]. split.
           ++ split; [done|]. apply Hu. apply (Hl k); [by left|done].
           ++ intros k' f' p' Hin. apply (Hl k' f'). by right.
    + eapply wp_mono; [|apply IH]. intros o m' (-> & u' & newer' & -> & Hn' & Hu'). split; [done|]. exists u', newer'.
      split; [done|]. split.
      * rewrite Hn'. split; intros [-> Hl]; (split; [done|]); intros k' f' p' Hin Hp'.
        -- apply elem_of_cons in Hin as [[= -> ->]|Hin]; [by rewrite Hp in Hp'|by eapply Hl].
        -- apply (Hl k' f'); [by right|done].
      * rewrite Hu'. split; intros [-> Hl]; (split; [done|]); intros k' f' p' Hin Hp'.
        -- apply elem_of_cons in Hin as [[= -> ->]|Hin]; [by rewrite Hp in Hp'|by eapply Hl].
        -- apply (Hl k' f'); [by right|done].
Qed.

#[local] Instance newer_file_dec (m : fs) (p : string) (f : BFile) : Decision (newer_file m p f).
Proof.
  unfold newer_file. destruct (m !! p) as [g|]; [|right; naive_solver].
  destruct (decide (f_content g <> Content f /\ systemTimeSkew <= f_mtime g / second - Timestamp f / second));
    [left; naive_solver|right; naive_solver].
Defined.

Definition newer_entry (m : fs) (x : string * BFile) : Prop := from_option (fun p => newer_file m p x.2) False (path_of x.1).

#[local] Instance newer_entry_dec (m : fs) (x : string * BFile) : Decision (newer_entry m x).
Proof. unfold newer_entry. destruct (path_of x.1); apply _. Defined.

(** Reconciling the disk with the datastore (no cluster reset): if some
    file on disk differs and is newer by three seconds or more, the process
    ends with the disk as it was; otherwise it succeeds, every file of the
    datastore is on disk with its content, and files that the datastore does
    not name are untouched. *)
Theorem reconcile_agrees (files : PathsDataformat) (m : fs) (backup : osP (res unit)) : paths_distinct ->
  wp (os_contract false) (reconcile_files false backup files) (fun o m' =>
    (o = Panicked /\ m' = m /\ exists k f p, files !! k = Some f /\ path_of k = Some p /\ newer_file m p f) \/
    (o = Done (Ok tt) /\
     (forall k f p, files !! k = Some f -> path_of k = Some p -> ~ newer_file m p f /\ same_file m' p f) /\
     untouched (iter files).*1 m m')) m.
Proof.
  intros Hd. unfold reconcile_files. apply wp_bind. eapply wp_mono; [|apply compare_files_wp].
  intros o m' (-> & u & newer & -> & Hn & Hu). cbn [wp fst snd].
  case_bool_decide as Hne; cbn [wp].
  - left. split_and!; [done|done|].
    destruct (decide (Exists (newer_entry m) (iter files))) as [He|He].
    + apply Exists_exists in He as ([k f] & Hin & Hkf). unfold newer_entry in Hkf. cbn in Hkf.
      destruct (path_of k) as [p|] eqn:Hp; [|done]. exists k, f, p. by rewrite <-elem_of_iter.
    + exfalso. apply Hne, Hn. split; [done|]. intros k f p Hin Hp Hkf. apply He, Exists_exists.
      exists (k, f). split; [done|]. unfold newer_entry. cbn. by rewrite Hp.
  - apply Hn in Hne as [_ Hnot].
    assert (forall k f p, files !! k = Some f -> path_of k = Some p -> ~ newer_file m p f) as Hold.
    { intros k f p Hk. apply Hnot. by apply elem_of_iter. }
    destruct u; cbn [wp].
    + eapply wp_mono; [|by apply WriteToDisk_wp]. intros o m' (-> & Hr & Hut). right. split_and!; [done| |done].
      intros k f p Hk Hp. split; [by eapply Hold|]. exists (mkFile (Content f) (Timestamp f)).
      split; [by apply (Hr k f Hk)|done].
    + right. split_and!; [done| |by intros ??]. intros k f p Hk Hp. split; [by eapply Hold|].
      destruct Hu as [Hu _]. destruct (Hu eq_refl) as [_ Hs]. apply (Hs k); [by apply elem_of_iter|done].
Qed.

End data.

(** ** Samples and witnesses *)

Definition pair_of_file (f : BFile) : Z * string := (Timestamp f, Content f).
Definition file_of_pair (x : Z * string) : BFile := mkBFile x.1 x.2.

Definition files_of_list (l : list (string * (Z * string))) : PathsDataformat :=
  file_of_pair <$> (list_to_map l : gmap string (Z * string)).

Definition sample_boot_json : BootJSON.
Proof.
  refine {| files_marshal m := bits (encode (map_to_list (pair_of_file <$> m)));
            files_unmarshal s := files_of_list <$> decode (unbits s);
            old_unmarshal _ := None |}.
  intros m. rewrite unbits_bits, decode_encode. cbn. unfold files_of_list. rewrite list_to_map_to_list, <-map_fmap_compose. f_equal.
  rewrite <-(map_fmap_id m) at 2. apply map_fmap_ext. by intros k [t c].
Defined.

Definition ca_paths : gmap string string := {["ServerCA" := "/tls/server-ca.crt"; "ServerCAKey" := ""]}.
Definition ca_files : PathsDataformat := {["ServerCA" := mkBFile (7 * second) "ca"; "Other" := mkBFile 0 "x"]}.

Lemma ca_paths_distinct : paths_distinct ca_paths.
Proof.
  assert (forall k q, path_of ca_paths k = Some q -> k = "ServerCA") as H.
  { intros k q. unfold path_of, ca_paths. destruct (decide (k = "ServerCA")) as [|Hne]; [done|].
    rewrite lookup_insert_ne by done. destruct (decide (k = "ServerCAKey")) as [->|Hne2]; [done|].
    by rewrite lookup_singleton_ne. }
  intros k1 k2 p H1 H2. by rewrite (H k1 p), (H k2 p).
Qed.

Lemma reconcile_agrees_witness :
  wp (os_contract false) (reconcile_files (MO := list_order)
      ca_paths false (Ret (Ok tt)) ca_files)
    (fun o m' => o = Panicked \/ exists g, m' !! "/tls/server-ca.crt" = Some g /\ f_content g = "ca") ∅.
Proof.
  eapply wp_mono; [|apply (reconcile_agrees (MO := list_order)
    ca_paths ca_files ∅ (Ret (Ok tt)) ca_paths_distinct)].
  intros o m' [[? _]|(_ & H & _)]; [by left|right].
  destruct (H "ServerCA" (mkBFile (7 * second) "ca") "/tls/server-ca.crt" eq_refl eq_refl) as [_ Hs]. exact Hs.
Defined.

(** A server that dies while it restores a file, between truncating and
    writing it, does not start again: the empty file is newer than the
    datastore. *)
Theorem torn_restore_refused :
  let start := reconcile_files (MO := list_order) ca_paths false (Ret (Ok tt)) ca_files in
  let died := run_upto live_os 3 start (mkOs ∅ (100 * second) []) in
  (f_content <$> os_fs died !! "/tls/server-ca.crt", fst (run live_os start died)) = (Some "", Panicked).
Proof. vm_compute. reflexivity. Qed.
