(* ===== verification/ClusterBoot.v ===== *)
(** * Bootstrap of a cluster through its datastore

    [pkg/cluster/storage.go] and [bootstrap.go], and the rotation of the server
    token in [pkg/server/token.go]: servers that share a datastore elect, by
    creating a key, the one whose certificates become the cluster's; the data
    is kept under a key derived from the join token and encrypted with it. *)
From Stdlib Require Import ZArith Lia.
From S2P Require Import Prelude GoText Prog Sha256 Os JoinToken Hash Passwd EtcdStore BootstrapData.

#[local] Open Scope Z_scope.

(** ** Effects *)

Inductive clE : Type -> Type :=
  | COs {X} (e : osE X) : clE X
  | CNet {X} (e : netE X) : clE X
  | CConnect : clE (res unit)
  | CList (prefix : string) : clE (res (list Value))
  | CCreate (key value : string) : clE (res unit)
  | CUpdate (key : string) (revision : Z) (value : string) : clE (res unit)
  | CDelete (key : string) (revision : Z) : clE (res unit)
  | CIsInitialized : clE (res bool).

Abbreviation clP := (prog clE).

Definition os {A} (p : osP A) : clP A := trans (fun X e => COs e) p.
Definition net {A} (p : netP A) : clP A := trans (fun X e => CNet e) p.

Definition bootstrap_prefix : string := "/bootstrap".

(** ** The configuration of a server *)

Record Control := mkControl {
  Token : string; AgentToken : string; JoinURL : string; DataDir : string; ClusterReset : bool;
  ServerToken : string; ServerCA : string; PasswdFile : string; HTTPBootstrap : bool;
}.

Definition with_Token (t : string) (c : Control) : Control :=
  mkControl t (AgentToken c) (JoinURL c) (DataDir c) (ClusterReset c) (ServerToken c) (ServerCA c) (PasswdFile c) (HTTPBootstrap c).

Section cluster.
Context `{BT : BootstrapTokens} `{XC : X509} `{CI : Cipher} `{BJ : BootJSON} `{MO : MapOrder}.
(** The paths of the bootstrap data, and how many polls fit before the
    process is told to stop. *)
Context (paths : gmap string string) (polls : nat).

(** ** [storage.go] *)

Definition ReadToken (c : Control) : clP (res string) := os (ReadTokenFromFile (ServerToken c) (ServerCA c) (DataDir c)).

(** The configured token, else the one on disk. *)
Definition server_token (c : Control) : clP (res string) :=
  if decide (Token c = "") then ReadToken c else Ret (Ok (Token c)).

(** The old key is removed once the data is stored under the new one; a
    failure to remove it is logged. *)
Definition doMigrateToken (keyValue : Value) (oldToken oldTokenKey newToken newTokenKey : string) : clP (res unit) :=
  try data <- decrypt oldToken (v_Data keyValue);
  try encryptedData <- os (encrypt newToken data);
  do r <- call (CCreate newTokenKey encryptedData);
  let remove := do _r <- call (CDelete oldTokenKey (v_Modified keyValue)); Ret (Ok tt) in
  match r with
  | Ok _ => remove
  | Err e =>
      if decide (e = key_exists) then remove
      else if decide (e = not_supported_for_learner) then Ret (Ok tt)
      else Ret (Err e)
  end.

Fixpoint migrateTokens (bootstrapList : list Value) (emptyStringKey tokenKey token oldToken : string) : clP (res unit) :=
  match bootstrapList with
  | [] => Ret (Ok tt)
  | kv :: l =>
      let oldTokenKey := storageKey oldToken in
      if decide (v_Key kv = emptyStringKey) then
        try _u <- doMigrateToken kv "" emptyStringKey token tokenKey;
        migrateTokens l emptyStringKey tokenKey token oldToken
      else if decide (v_Key kv = oldTokenKey /\ oldTokenKey <> tokenKey) then
        try _u <- doMigrateToken kv oldToken oldTokenKey token tokenKey;
        migrateTokens l emptyStringKey tokenKey token oldToken
      else migrateTokens l emptyStringKey tokenKey token oldToken
  end.

(** A learner is asked again every five seconds. *)
Fixpoint list_poll (n : nat) : clP (res (list Value)) :=
  match n with
  | O => Ret (Err (Plain "context canceled"))
  | S n =>
      do r <- call (CList bootstrap_prefix);
      match r with
      | Err e => if decide (e = not_supported_for_learner) then list_poll n else Ret (Err e)
      | Ok l => Ret (Ok l)
      end
  end.

(** The value under the token's key, and whether the data is to be saved. *)
Definition getBootstrapKeyFromStorage (normalizedToken oldToken : string) : clP (res (option Value * bool)) :=
  let tokenKey := storageKey normalizedToken in
  try bootstrapList <- list_poll polls;
  match bootstrapList with
  | [] => Ret (Ok (None, true))
  | _ =>
      try _u <- migrateTokens bootstrapList (storageKey "") tokenKey normalizedToken oldToken;
      try bootstrapList <- call (CList bootstrap_prefix);
      match find (fun kv => bool_decide (v_Key kv = tokenKey)) bootstrapList with
      | Some kv => Ret (Ok (Some kv, false))
      | None => Ret (Err (Plain "bootstrap data already found and encrypted with different token"))
      end
  end.

Definition bootstrapKeyData : clP (res Value) :=
  try bootstrapList <- call (CList bootstrap_prefix);
  Ret (match bootstrapList with
       | [] => Err (Plain "no bootstrap data found")
       | [kv] => Ok kv
       | _ => Err (Plain "found multiple bootstrap keys in storage")
       end).

(** The part of [Save] that follows the encryption of the data. *)
Definition store_data (override : bool) (normalizedToken token data : string) : clP (res unit) :=
  try _c <- call CConnect;
  try current <- getBootstrapKeyFromStorage normalizedToken token;
  let override := override || match fst current with Some kv => bool_decide (v_Data kv = "") | None => false end in
  do r <- call (CCreate (storageKey normalizedToken) data);
  match r with
  | Ok _ => Ret (Ok tt)
  | Err e =>
      if decide (e = key_exists) then
        if override then
          try bsd <- bootstrapKeyData;
          call (CUpdate (storageKey normalizedToken) (v_Modified bsd) data)
        else Ret (Ok tt)
      else if decide (e = not_supported_for_learner) then Ret (Ok tt)
      else Ret (Err e)
  end.

Definition Save (c : Control) (override : bool) : clP (res unit) :=
  try buf <- os (ReadFromDisk paths);
  try token <- server_token c;
  match NormalizeToken token with
  | Err e => Ret (Err e)
  | Ok normalizedToken =>
      try data <- os (encrypt normalizedToken buf);
      store_data override normalizedToken token data
  end.

Definition RotateBootstrapToken (c : Control) (oldToken : string) : clP (res unit) :=
  try token <- ReadToken c;
  match NormalizeToken token with
  | Err e => Ret (Err e)
  | Ok normalizedToken =>
      try _c <- call CConnect;
      try bootstrapList <- call (CList bootstrap_prefix);
      match NormalizeToken oldToken with
      | Err e => Ret (Err e)
      | Ok normalizedOldToken =>
          migrateTokens bootstrapList "" (storageKey normalizedToken) normalizedToken normalizedOldToken
      end
  end.

(** ** [ReconcileBootstrapData] *)

(** The backup of the certificates in a cluster reset. *)
Context (backup : osP (res unit)).

(** [saveBootstrap] before and after. *)
Definition ReconcileBootstrapData (c : Control) (managedDB isHTTP : bool) (buf : string) (saveBootstrap : bool) : clP (res bool) :=
  let reconcile (buf : string) (save : bool) : clP (res bool) :=
    match load_files buf with
    | Err e => Ret (Err e)
    | Ok files => try _u <- os (reconcile_files paths (ClusterReset c) backup files); Ret (Ok save)
    end in
  do dirs <- os (certDirsExist (DataDir c));
  if negb dirs then
    match load_files buf with
    | Err e => Ret (Err e)
    | Ok files => try _u <- os (WriteToDiskFromStorage paths files); Ret (Ok saveBootstrap)
    end
  else if managedDB && negb isHTTP then
    try token <- server_token c;
    if decide (token = "") then Ret (Ok true)
    else
      match NormalizeToken token with
      | Err e => Ret (Err e)
      | Ok normalizedToken =>
          try _c <- call CConnect;
          try current <- getBootstrapKeyFromStorage normalizedToken token;
          match fst current with
          | None => Ret (Ok (snd current))
          | Some value =>
              try dbRawData <- decrypt normalizedToken (v_Data value);
              reconcile dbRawData (snd current)
          end
      end
  else reconcile buf saveBootstrap.

(** ** [storageBootstrap] *)

Definition maxBootstrapWaitAttempts : Z := 5.

(** One poll a second; the result is [saveBootstrap]. *)
Fixpoint storage_poll (c : Control) (managedDB : bool) (normalizedToken token : string) (n : nat) (attempts : Z)
    : clP (res bool) :=
  match n with
  | O => Ret (Err (Plain "context canceled"))
  | S n =>
      let attempts := attempts + 1 in
      let tokenKey := storageKey normalizedToken in
      try current <- getBootstrapKeyFromStorage normalizedToken token;
      match fst current with
      | None =>
          do r <- call (CCreate tokenKey "");
          match r with
          | Ok _ => Ret (Ok (snd current))
          | Err e => if decide (e = key_exists) then storage_poll c managedDB normalizedToken token n attempts else Ret (Err e)
          end
      | Some value =>
          if decide (v_Data value = "") then
            if maxBootstrapWaitAttempts <=? attempts then
              try _u <- call (CDelete tokenKey (v_Modified value));
              storage_poll c managedDB normalizedToken token n 0
            else storage_poll c managedDB normalizedToken token n attempts
          else
            try data <- decrypt normalizedToken (v_Data value);
            ReconcileBootstrapData c managedDB false data (snd current)
      end
  end.

Definition storageBootstrap (c : Control) (managedDB : bool) : clP (res bool) :=
  try _c <- call CConnect;
  try token <- server_token c;
  if decide (token = "") then Ret (Ok true)
  else
    match NormalizeToken token with
    | Err e => Ret (Err e)
    | Ok normalizedToken => storage_poll c managedDB normalizedToken token polls 0
    end.

(** ** [bootstrap.go] *)

Context `{UT : UrlText} `{SJ : StatusJSON}.
(** Whether the configuration of the server matches the cluster's ([None] when
    that does not parse), and the start of a temporary etcd over a copy of the
    database, which the calls of [reconcileEtcd] then go to. *)
Context (same_config : Control -> string -> option bool) (StartEmbeddedTemporary : clP (res unit)).

Definition reconcileEtcd (c : Control) : clP (res bool) :=
  try _u <- StartEmbeddedTemporary;
  try data <- os (ReadFromDisk paths);
  ReconcileBootstrapData c true false data false.

Definition httpBootstrap (c : Control) (info : Info) : clP (res bool) :=
  try content <- net (JoinToken.Get info "/v1-k8e/server-bootstrap" []);
  ReconcileBootstrapData c true true content false.

Definition compareConfig (c : Control) : clP (res unit) :=
  let token := if decide (AgentToken c = "") then Token c else AgentToken c in
  try info <- net (ParseAndValidateToken (JoinURL c) token [WithUser "node"]);
  try serverConfig <- net (JoinToken.Get info "/v1-k8e/config" []);
  Ret (match same_config c serverConfig with
       | None => Err (Plain "unmarshal config")
       | Some false => Err (Plain "critical configuration value mismatch between servers")
       | Some true => Ok tt
       end).

(** [shouldBootstrapLoad]: whether to load, whether the database is
    initialized, and the access to the server that is joined. *)
Definition shouldBootstrapLoad (c : Control) (managedDB : bool) : clP (res (bool * bool * option Info)) :=
  if negb managedDB then Ret (Ok (true, false, None))
  else
    try isInitialized <- call CIsInitialized;
    if isInitialized : bool then
      if decide (JoinURL c <> "" /\ Token c <> "") then
        do info <- net (ParseAndValidateToken (JoinURL c) (Token c) [WithUser "server"]);
        Ret (Ok (false, true, match info with Ok i => Some i | Err _ => None end))
      else Ret (Ok (false, true, None))
    else if decide (JoinURL c = "") then Ret (Ok (false, false, None))
    else if decide (Token c = "") then Ret (Err (Plain "K8E_TOKEN is required to join a cluster"))
    else
      try info <- net (ParseAndValidateToken (JoinURL c) (Token c) [WithUser "server"]);
      Ret (Ok (true, false, Some info)).

(** [bootstrap]; a managed database bootstraps over HTTP. *)
Definition bootstrap (c : Control) (managedDB : bool) (info : option Info) : clP (res bool) :=
  if managedDB || HTTPBootstrap c then
    try _u <- compareConfig c;
    match info with
    | Some info => httpBootstrap c info
    | None => Panic "nil pointer dereference"
    end
  else storageBootstrap c managedDB.

(** [Bootstrap], after the driver was assigned. *)
Definition Bootstrap (c : Control) (managedDB clusterReset : bool) : clP (res bool) :=
  try load <- shouldBootstrapLoad c managedDB;
  let '(shouldBootstrap, isInitialized, info) := load in
  let finish := if shouldBootstrap : bool then bootstrap c managedDB info else Ret (Ok false) in
  let reconcile : clP (res bool) :=
    do r <- reconcileEtcd c;
    match r with Err _ => Panic "Failed to reconcile with temporary etcd" | Ok _ => finish end in
  if managedDB && negb clusterReset && isInitialized then
    match info with
    | Some i =>
        do r <- httpBootstrap c i;
        match r with Ok save => Ret (Ok save) | Err _ => reconcile end
    | None => reconcile
    end
  else finish.

(** ** Rotation of the server token ([pkg/server/token.go]) *)

Context `{CV : CSV}.

Definition writeToken (token file certs : string) : osP (res unit) :=
  if decide (token = "") then Ret (Ok tt)
  else try token <- FormatToken token certs; WriteFile file (token +:+ String newline "").

(** The steps up to the change of the configuration; the token in force. *)
Definition rotate_until_config (c : Control) (newToken : string) : clP (res string) :=
  try passwd <- os (Read (PasswdFile c));
  match Pass "server" passwd with
  | None => Ret (Err (Plain "server token not found"))
  | Some oldToken =>
      try newToken <- (if decide (newToken = "") then os (call (Random 16)) else Ret (Ok newToken));
      try passwd <- os (EnsureUser "server" server_role newToken passwd);
      try passwd <- (match Pass "node" passwd with
                     | Some agentToken =>
                         if decide (agentToken = oldToken /\ AgentToken c = "")
                         then os (EnsureUser "node" agent_role newToken passwd) else Ret (Ok passwd)
                     | None => Ret (Ok passwd)
                     end);
      try _u <- os (PasswdWrite passwd (PasswdFile c));
      try _u <- os (writeToken ("server:" +:+ newToken) (DataDir c +:+ "/token") (ServerCA c));
      try _u <- RotateBootstrapToken c oldToken;
      Ret (Ok newToken)
  end.

(** The result, and the configuration it leaves. *)
Definition tokenRotate (c : Control) (newToken : string) : clP (res unit * Control) :=
  do r <- rotate_until_config c newToken;
  match r with
  | Err e => Ret (Err e, c)
  | Ok newToken =>
      let c := with_Token newToken c in
      do s <- Save c true;
      Ret (s, c)
  end.

(** [tokenRequestHandler]: the body's [newToken], which may be absent; [None]
    for a body that does not parse. *)
Definition tokenRequestHandler (c : Control) (method : string) (body : option (option string)) : clP (Z * Control) :=
  if decide (method <> "PUT") then Ret (405, c)
  else
    match body with
    | None => Ret (400, c)
    | Some None => Panic "nil pointer dereference"
    | Some (Some newToken) =>
        do r <- tokenRotate c newToken;
        Ret (match fst r with Ok _ => 200 | Err _ => 500 end, snd r)
    end.

End cluster.
