(* ===== verification/ClusterOnce.v ===== *)
(** * One cluster, one set of certificates

    Servers that start together on an empty datastore, in every interleaving of
    their requests: the lock they create keeps the bootstrap data from being
    written twice, as long as none of them waits so long that it breaks the
    lock; and what happens when one does. *)
From Stdlib Require Import ZArith Lia.
From S2P Require Import Prelude GoText Prog Sha256 Os JoinToken Hash Passwd EtcdStore BootstrapData ClusterBoot.

#[local] Open Scope Z_scope.

(** ** Servers and their requests *)

(** A request, with the server that makes it. *)
Inductive tagE : Type -> Type :=
  | Tag {X} (i : nat) (e : clE X) : tagE X.

Definition tagged {A} (i : nat) (p : clP A) : prog tagE A := trans (fun X e => Tag i e) p.

(** The store, and which server created the lock. *)
Abbreviation shared := (Etcd * option nat)%type.

Definition created (i : nat) (k d : string) (v : shared) : shared :=
  let '(r, s) := Create k d v.1 in (s, if is_ok r then Some i else v.2).

(** A request to etcd may fail, having been carried out or not; no server is
    a learner; disks and other servers may answer anything. *)
Definition cl_contract (i : nat) : contract clE shared := fun X e v x v' =>
  match e in clE X return X -> Prop with
  | COs e => fun x => v' = v /\ exists m m', os_contract true _ e m x m'
  | CNet e => fun _ => v' = v
  | CConnect => fun _ => v' = v
  | CList p => fun x => v' = v /\ (x = Ok (List p v.1) \/ exists e, x = Err e)
  | CCreate k d => fun x =>
      (x = fst (Create k d v.1) /\ v' = created i k d v) \/
      (exists e, e <> key_exists /\ e <> not_supported_for_learner /\ x = Err e) /\ (v' = v \/ v' = created i k d v)
  | CUpdate k r d => fun x =>
      (x = fst (Update k r d v.1) /\ v' = (snd (Update k r d v.1), v.2)) \/
      (exists e, x = Err e) /\ (v' = v \/ v' = (snd (Update k r d v.1), v.2))
  | CDelete k r => fun x =>
      (x = fst (Delete k r v.1) /\ v' = (snd (Delete k r v.1), v.2)) \/
      (exists e, x = Err e) /\ (v' = v \/ v' = (snd (Delete k r v.1), v.2))
  | CIsInitialized => fun _ => v' = v
  end x.

Definition tag_contract : contract tagE shared := fun X e v x v' =>
  match e in tagE X return X -> Prop with Tag i e => fun x => cl_contract i _ e v x v' end x.

(** ** The protocol *)

Section protocol.
(** The key of the cluster's token. *)
Context (K : string).

Definition entry (v : shared) : option (string * Z) := et_kvs v.1 !! K.

(** The bootstrap keys are that key at most, and a lock has an owner. *)
Definition good (v : shared) : Prop :=
  etcd_wf v.1 /\ (forall k, has_prefix k bootstrap_prefix = true -> is_Some (et_kvs v.1 !! k) -> k = K).

(** What server [i] does to the shared state. *)
Inductive does (i : nat) (v : shared) : shared -> Prop :=
  | does_nothing : does i v v
  | does_lock : entry v = None -> does i v (put_key K "" v.1, Some i)
  | does_fill d r : entry v = Some ("", r) -> v.2 = Some i -> d <> "" -> does i v (put_key K d v.1, Some i).

(** What the others may do meanwhile. *)
Definition others (i : nat) : shared -> shared -> Prop := rtc (fun v v' => exists j, j <> i /\ does j v v').

#[export] Instance others_pre i : PreOrder (others i).
Proof. apply _. Qed.

Lemma entry_put d s h : entry (put_key K d s, h) = Some (d, et_rev s + 1).
Proof. unfold entry. cbn. apply lookup_insert_eq. Qed.

Lemma does_good i v v' : good v -> does i v v' -> good v'.
Proof.
  intros [Hwf Hk] [|Hn|d r He Hi Hd]; [done|..]; (split; [by apply put_key_wf|]); cbn;
    intros k Hp [x Hx]; apply lookup_insert_Some in Hx as [[<- _]|[_ Hx]]; [done|by apply Hk|done|by apply Hk].
Qed.

Lemma does_data i v v' d r : entry v = Some (d, r) -> d <> "" -> does i v v' -> entry v' = Some (d, r).
Proof. intros He Hd [|Hn|d' r' He' _ _]; [done|congruence|]. rewrite He in He'. by injection He' as -> _. Qed.

Lemma does_other_lock i j v v' r : entry v = Some ("", r) -> v.2 = Some i -> j <> i -> does j v v' ->
  entry v' = Some ("", r) /\ v'.2 = Some i.
Proof. intros He Hi Hj [|Hn|d' r' He' Hh _]; [done|congruence|congruence]. Qed.

Lemma others_good i v v' : good v -> others i v v' -> good v'.
Proof. intros Hg. induction 1 as [|v1 v2 v3 (j & _ & Hd) _ IH]; [done|]. apply IH. by eapply does_good. Qed.

Lemma others_data i v v' d r : entry v = Some (d, r) -> d <> "" -> others i v v' -> entry v' = Some (d, r).
Proof. intros He Hd. induction 1 as [|v1 v2 v3 (j & _ & H) _ IH]; [done|]. apply IH. by eapply does_data. Qed.

(** A lock stays with the server that made it. *)
Definition locked_by (i : nat) (r : Z) (v : shared) : Prop := entry v = Some ("", r) /\ v.2 = Some i.

Lemma others_lock i v v' r : locked_by i r v -> others i v v' -> locked_by i r v'.
Proof.
  intros [He Hh]. induction 1 as [|v1 v2 v3 (j & Hj & H) _ IH]; [done|].
  destruct (does_other_lock i j v1 v2 r He Hh Hj H) as [He' Hh']. by apply IH.
Qed.

Lemma list_alone v : good v -> has_prefix K bootstrap_prefix = true ->
  List bootstrap_prefix v.1 = match entry v with Some (d, r) => [mkValue K d r] | None => [] end.
Proof.
  intros [_ Hk] Hp.
  assert (forall x, x ∈ List bootstrap_prefix v.1 <-> exists d r, entry v = Some (d, r) /\ x = mkValue K d r) as Hin.
  { intros [k d r]. rewrite elem_of_List. cbn. split.
    - intros [H1 H2]. assert (k = K) as -> by (apply Hk; [done|by eexists]). by exists d, r.
    - intros (d' & r' & He & [= -> -> ->]). done. }
  assert (NoDup (List bootstrap_prefix v.1)) as Hnd.
  { unfold List. apply NoDup_fmap_2_strong; [|apply NoDup_filter; rewrite merge_sort_Permutation; apply NoDup_map_to_list].
    intros [k1 [d1 r1]] [k2 [d2 r2]] _ _ [= -> -> ->]. done. }
  destruct (entry v) as [[d r]|].
  - destruct (List bootstrap_prefix v.1) as [|x [|y l]].
    + exfalso. apply (elem_of_nil (mkValue K d r)), Hin. by exists d, r.
    + destruct (proj1 (Hin x)) as (d' & r' & [= <- <-] & ->); [by left|done].
    + destruct (proj1 (Hin x)) as (d' & r' & [= <- <-] & ->); [by left|].
      destruct (proj1 (Hin y)) as (d' & r' & [= <- <-] & ->); [right; by left|].
      apply NoDup_cons in Hnd as [Hx _]. destruct Hx. by left.
  - destruct (List bootstrap_prefix v.1) as [|x l]; [done|].
    destruct (proj1 (Hin x)) as (d' & r' & [=] & _). by left.
Qed.

End protocol.

(** ** One server *)

Lemma only_trans {E F A} pan (ok : forall X, F X -> Prop) (f : forall X, E X -> F X) (p : prog E A) :
  pan = true -> (forall X e, ok X (f X e)) -> only pan ok (trans f p).
Proof. intros -> Hok. induction p as [a|X e k IH|m]; [done| |done]. split; [apply Hok|]. intros x. apply IH. Qed.

(** Requests that leave the store alone. *)
Definition quiet X (e : clE X) : Prop :=
  match e with COs _ | CNet _ | CConnect | CIsInitialized => True | _ => False end.

Lemma quiet_os {A} (p : osP A) : only true quiet (os p).
Proof. by apply only_trans. Qed.

(** What a program may return, whatever the disk answers. *)
Definition any_disk : contract osE unit := fun X e _ x _ => exists m m', os_contract true X e m x m'.

Lemma encrypt_any `{Cipher} passphrase plaintext :
  wp any_disk (encrypt passphrase plaintext) (fun o _ => exists r, o = Done r /\ forall data, r = Ok data ->
    data <> "" /\ forall E, decrypt (E := E) passphrase data = Ret (Ok plaintext)) tt.
Proof.
  unfold encrypt. apply wp_call. intros salt [] (m & m' & -> & Hs). destruct salt as [salt|e]; [|by eexists].
  apply wp_call. intros nonce [] (m1 & m1' & -> & Hn). destruct nonce as [nonce|e]; [|by eexists].
  eexists. split; [done|]. intros data [= <-].
  destruct Hs as [(s & [= <-] & Hs)|(_ & e & ?)]; [|done]. destruct Hn as [(s & [= <-] & Hn)|(_ & e & ?)]; [|done].
  split; [|intros E; by apply decrypt_sealed]. unfold sealed. by destruct salt.
Qed.

Section server.
Context `{BT : BootstrapTokens} `{XC : X509} `{CI : Cipher} `{BJ : BootJSON} `{MO : MapOrder}.
Context (tok : string) (i : nat).
Hypothesis Hempty : storageKey "" <> storageKey tok.

Abbreviation K := (storageKey tok).
Abbreviation rg := (rgwp (cl_contract i) (others K i) (does K i)).

Lemma quiet_rg {A B} (p : clP A) (f : A -> clP B) Q v : only true quiet p ->
  (forall a v', others K i v v' -> rg (f a) Q v') -> rg (bind p f) Q v.
Proof.
  intros Hp Hf. apply rgwp_bind; [apply _|]. revert v Hf. induction p as [a|X e k IH|m]; intros v Hf; simpl.
  - intros v' Hv. by apply Hf.
  - destruct Hp as [He Hk]. intros v1 x v2 Hv Hc.
    assert (v2 = v1) as -> by (destruct e; cbn in He, Hc; tauto). split; [constructor|].
    apply IH; [done|]. intros a v' Hv'. apply Hf. by transitivity v1.
  - done.
Qed.

Lemma os_rg {A B} (p : osP A) (f : A -> clP B) (P : A -> Prop) Q v :
  wp any_disk p (fun o _ => forall a, o = Done a -> P a) tt ->
  (forall a v', P a -> others K i v v' -> rg (f a) Q v') -> rg (bind (os p) f) Q v.
Proof.
  intros Hp Hf. apply rgwp_bind; [apply _|]. unfold os. revert v Hf.
  induction p as [a|X e k IH|m]; intros v Hf; simpl.
  - intros v' Hv. apply Hf; [by apply Hp|done].
  - intros v1 x v2 Hv (-> & m & m' & Hc). split; [constructor|].
    apply IH; [apply (Hp x tt); by exists m, m'|]. intros a v' Ha Hv'. apply Hf; [done|]. by transitivity v1.
  - done.
Qed.

Lemma list_rg (n : nat) v :
  rg (list_poll n) (fun r v' => (exists e, r = Err e) \/
    exists v1, others K i v v1 /\ others K i v1 v' /\ r = Ok (List bootstrap_prefix v1.1)) v.
Proof.
  revert v. induction n as [|n IH]; intros v; [intros v' _; left; by eexists|].
  cbn [list_poll]. apply rgwp_call. intros v1 x v2 Hv [-> Hx]. split; [constructor|].
  destruct Hx as [->|[e ->]].
  - intros v' Hv'. right. by exists v1.
  - destruct (decide _); [|intros v' _; left; by eexists].
    eapply rgwp_mono; [|apply IH]. intros a v' [[e' ->]|(v2 & H1 & H2 & ->)]; [left; by eexists|].
    right. exists v2. split_and!; [by transitivity v1|done|done].
Qed.

(** What reading the key comes to: an error, no key at some moment, or the
    entry of some moment. *)
Definition got (v : shared) (r : res (option Value * bool)) (v' : shared) : Prop :=
  (exists e, r = Err e) \/
  (exists v1, others K i v v1 /\ others K i v1 v' /\
    r = Ok (match entry K v1 with Some (d, rev) => (Some (mkValue K d rev), false) | None => (None, true) end)).

Lemma get_rg (polls : nat) (old : string) v : good K v ->
  rg (getBootstrapKeyFromStorage polls tok old) (got v) v.
Proof.
  intros Hg. unfold getBootstrapKeyFromStorage. apply rgwp_bind; [apply _|].
  assert (has_prefix K bootstrap_prefix = true) as Hp by done.
  eapply rgwp_mono; [|apply list_rg]. intros a v2 [[e ->]|(v1 & H1 & H2 & ->)].
  { intros v' _. left. by eexists. }
  rewrite (list_alone K v1) by (done || by eapply others_good).
  destruct (entry K v1) as [[d r]|] eqn:He.
  2: { intros v' Hv'. right. exists v1. split_and!; [done|by transitivity v2|by rewrite He]. }
  assert (migrateTokens [mkValue K d r] (storageKey "") K tok old = Ret (Ok tt)) as ->.
  { cbn [migrateTokens v_Key]. rewrite decide_False by congruence. by rewrite decide_False by (intros [? ?]; congruence). }
  apply rgwp_call. intros v3 x v4 H3 [-> Hx]. split; [constructor|].
  destruct Hx as [->|[e ->]]; [|intros v' _; left; by eexists].
  assert (others K i v v3) as Hv3 by (transitivity v2; [by transitivity v1|done]).
  pose proof (others_good K i v v3 Hg Hv3) as Hg3. rewrite (list_alone K v3) by done.
  destruct (entry K v3) as [[d' r']|] eqn:He3; cbn [find v_Key].
  - rewrite bool_decide_eq_true_2 by done. intros v' Hv'. right. exists v3. split_and!; [done|done|by rewrite He3].
  - intros v' Hv'. left. by eexists.
Qed.

(** Reading the key while holding the lock finds the lock. *)
Lemma got_lock v r v' rev : locked_by K i rev v -> got v r v' ->
  (exists e, r = Err e) \/ r = Ok (Some (mkValue K "" rev), false).
Proof.
  intros Hl [He|(v1 & H1 & _ & ->)]; [by left|right].
  destruct (others_lock K i v v1 rev Hl H1) as [-> _]. done.
Qed.

(** Creating a key that exists changes nothing. *)
Lemma create_existing k d v r v' : etcd_wf v.1 -> is_Some (et_kvs v.1 !! k) ->
  cl_contract i _ (CCreate k d) v r v' ->
  v' = v /\ (r = Err key_exists \/ exists e, e <> key_exists /\ e <> not_supported_for_learner /\ r = Err e).
Proof.
  intros Hwf [x Hx]. cbn. unfold created. rewrite Create_spec, Hx by done. cbn.
  assert ((v.1, v.2) = v) as -> by by destruct v. intros [[-> ->]|[(e & H1 & H2 & ->) [->| ->]]]; (split; [done|]).
  - by left.
  - right. by exists e.
  - right. by exists e.
Qed.

(** Creating the key when it is absent takes the lock. *)
Lemma create_absent v r v' : etcd_wf v.1 -> entry K v = None -> cl_contract i _ (CCreate K "") v r v' ->
  does K i v v' /\ (r = Ok tt -> exists rev, locked_by K i rev v').
Proof.
  intros Hwf Hx. pose proof Hx as Hx'. unfold entry in Hx'. cbn. unfold created. rewrite Create_spec, Hx' by done. cbn.
  intros [[-> ->]|[(e & H1 & H2 & ->) [->| ->]]].
  - split; [by apply does_lock|]. intros _. exists (et_rev v.1 + 1). split; [apply entry_put|done].
  - split; [apply does_nothing|done].
  - split; [by apply does_lock|done].
Qed.

(** Updating the key against the revision of one's own lock fills it. *)
Lemma update_lock v rev d r v' : etcd_wf v.1 -> locked_by K i rev v -> d <> "" ->
  cl_contract i _ (CUpdate K rev d) v r v' ->
  does K i v v' /\ (r = Ok tt -> exists rev', entry K v' = Some (d, rev')).
Proof.
  intros Hwf [He Hh] Hd. cbn. unfold entry in He. rewrite Update_spec by by apply (proj2 Hwf K _ He).
  rewrite He, Z.eqb_refl. cbn. rewrite Hh.
  assert (does K i v (put_key K d v.1, Some i)) as Hdo by by eapply does_fill.
  intros [[-> ->]|[[e ->] [->| ->]]].
  - split; [done|]. intros _. eexists. apply entry_put.
  - split; [apply does_nothing|done].
  - by split.
Qed.

(** The owner of the lock saves its data, or fails without a trace. *)
Lemma store_data_rg (polls : nat) (override : bool) (token data : string) v rev :
  good K v -> locked_by K i rev v -> data <> "" ->
  rg (store_data polls override tok token data) (fun r v' => r = Ok tt -> exists r', entry K v' = Some (data, r')) v.
Proof.
  intros Hg Hl Hd. unfold store_data. apply rgwp_call. intros v0 c v0' Hv0 Hc.
  assert (v0' = v0) as -> by exact Hc. split; [constructor|].
  assert (good K v0) as Hg0 by by eapply others_good. pose proof (others_lock K i v v0 rev Hl Hv0) as Hl0.
  destruct c as [[]|e]; [|by intros v' _]. apply rgwp_bind; [apply _|].
  eapply rgwp_mono; [|by apply get_rg]. intros r v1 Hr.
  destruct (got_lock v0 r v1 rev Hl0 Hr) as [[e ->]| ->]; [by intros v' _|]. cbn [fst v_Data].
  rewrite bool_decide_eq_true_2, orb_true_r by done.
  apply rgwp_call. intros v2 r2 v2' Hv2 Hc2.
  assert (others K i v v2) as Hv02.
  { transitivity v0; [done|]. transitivity v1; [|done].
    destruct Hr as [[? [=]]|(w & ? & ? & _)]. by transitivity w. }
  pose proof (others_lock K i v v2 rev Hl Hv02) as [He2 Hh2]. pose proof (others_good K i v v2 Hg Hv02) as Hg2.
  destruct (create_existing K data v2 r2 v2') as [-> Hr2]; [apply Hg2|by eexists|done|]. split; [constructor|].
  destruct Hr2 as [->|(e & H1 & H2 & ->)]; [|by rewrite !decide_False by done; intros v' _].
  rewrite decide_True by done. unfold bootstrapKeyData. apply rgwp_bind; [apply _|].
  apply rgwp_call. intros v3 l v3' Hv3 [-> Hl3]. split; [constructor|].
  pose proof (others_lock K i v2 v3 rev (conj He2 Hh2) Hv3) as Hlk3.
  pose proof (others_good K i v2 v3 Hg2 Hv3) as Hg3.
  destruct Hl3 as [->|[e ->]]; [|by intros v' _ v'' _].
  rewrite (list_alone K v3), (proj1 Hlk3) by done. intros v4 Hv4.
  pose proof (others_lock K i v3 v4 rev Hlk3 Hv4) as Hlk4. pose proof (others_good K i v3 v4 Hg3 Hv4) as Hg4.
  intros v5 r5 v5' Hv5 Hc5.
  destruct (update_lock v5 rev data r5 v5') as [Hdo Hok]; [|by eapply others_lock|done|done|].
  { by apply (others_good K i v4 v5 Hg4 Hv5). }
  split; [done|]. intros v' Hv' Hr5. destruct (Hok Hr5) as [rev' He']. exists rev'. by eapply others_data.
Qed.

Lemma quiet_decrypt passphrase text : only true quiet (decrypt (E := clE) passphrase text).
Proof.
  unfold decrypt. destruct (split2 _ _) as [a [b|]]; [|done]. destruct (Signed.base64_decode b); [|done]. by destruct (_ <? _)%nat.
Qed.

Lemma reconcile_rg (paths : gmap string string) (polls : nat) (backup : osP (res unit)) (c : Control) (buf : string) Q v :
  (forall v', others K i v v' -> Q (Ok false) v' /\ forall e, Q (Err e) v') ->
  rg (ReconcileBootstrapData paths polls backup c false false buf false) Q v.
Proof.
  intros HQ. unfold ReconcileBootstrapData. apply quiet_rg; [apply quiet_os|]. intros dirs v1 H1.
  assert (forall p : osP (res unit), rg (try _u <- os p; Ret (Ok false)) Q v1) as Hos.
  { intros p. apply quiet_rg; [apply quiet_os|]. intros [u|e] v2 H2 v' Hv'; apply HQ;
      (transitivity v1; [done|]; by transitivity v2). }
  assert (rg match load_files buf with Ok files => try _u <- os (WriteToDiskFromStorage paths files); Ret (Ok false) | Err e => Ret (Err e) end Q v1 /\
    rg match load_files buf with Ok files => try _u <- os (reconcile_files paths (ClusterReset c) backup files); Ret (Ok false) | Err e => Ret (Err e) end Q v1) as [Hw Hr].
  { destruct (load_files buf); [split; apply Hos|]. split; intros v' Hv'; apply HQ; by transitivity v1. }
  by destruct dirs.
Qed.

(** Waiting for the key, without breaking a lock: the server has either taken
    the lock or loaded what is stored. *)
Definition waited (r : res bool) (v' : shared) : Prop :=
  (r = Ok true -> exists rev, locked_by K i rev v') /\
  (r = Ok false -> exists d rev, d <> "" /\ entry K v' = Some (d, rev)).

Lemma waited_err e v' : waited (Err e) v'.
Proof. by split. Qed.

Lemma storage_poll_rg (paths : gmap string string) (polls : nat) (backup : osP (res unit)) (c : Control)
    (token : string) (n : nat) (attempts : Z) v :
  good K v -> attempts + Z.of_nat n <= 4 ->
  rg (storage_poll paths polls backup c false tok token n attempts) waited v.
Proof.
  revert attempts v. induction n as [|n IH]; intros attempts v Hg Hn; [intros v' _; apply waited_err|].
  cbn [storage_poll]. apply rgwp_bind; [apply _|]. eapply rgwp_mono; [|by apply get_rg].
  intros r v2 [[e ->]|(v1 & H1 & H2 & ->)]; [intros v' _; apply waited_err|].
  assert (good K v2) as Hg2 by (eapply others_good; [|exact H2]; by eapply others_good).
  destruct (entry K v1) as [[d rev]|] eqn:He; cbn [fst snd v_Data].
  - destruct (decide (d = "")) as [->|Hd].
    + rewrite (proj2 (Z.leb_gt _ _)) by (unfold maxBootstrapWaitAttempts; lia). apply IH; [done|lia].
    + apply quiet_rg; [apply quiet_decrypt|]. intros [data|e] v3 H3; [|intros v' _; apply waited_err].
      apply reconcile_rg. intros v' Hv'. split; [|intros e; apply waited_err]. split; [done|]. intros _.
      exists d, rev. split; [done|]. eapply others_data; [exact He|done|]. transitivity v2; [done|by transitivity v3].
  - apply rgwp_call. intros v3 r v3' H3 Hc. pose proof (others_good K i v2 v3 Hg2 H3) as Hg3.
    assert (does K i v3 v3' /\ (r = Ok tt -> exists rev, locked_by K i rev v3')) as [Hdo Hok].
    { destruct (entry K v3) as [x|] eqn:He3; [|by apply create_absent; [apply Hg3|..]].
      destruct (create_existing K "" v3 r v3') as [-> Hr]; [apply Hg3|by eexists|done|].
      split; [constructor|]. destruct Hr as [->|(? & _ & _ & ->)]; done. }
    split; [done|]. destruct r as [[]|e].
    + intros v' Hv'. split; [|done]. intros _. destruct (Hok eq_refl) as [rev Hl]. exists rev. by eapply others_lock.
    + destruct (decide (e = key_exists)); [|intros v' _; apply waited_err].
      apply IH; [by eapply does_good|lia].
Qed.

(** The store is well formed whenever a server stops. *)
Lemma rg_good {A} (p : clP A) Q v : good K v -> rg p Q v -> rg p (fun a v' => good K v' /\ Q a v') v.
Proof.
  revert v. induction p as [a|X e k IH|m]; intros v Hg; simpl; [| |done].
  - intros H v' Hv'. split; [by eapply others_good|by apply H].
  - intros H v1 x v2 Hv1 Hc. destruct (H v1 x v2 Hv1 Hc) as [Hd Hk]. split; [done|]. apply IH; [|done].
    eapply does_good; [|exact Hd]. by eapply others_good.
Qed.

(** ** A server that starts *)

(** Bootstrap, then, if the data is to be saved, [Save] of the certificates
    that were made meanwhile. *)
Definition startup (paths : gmap string string) (polls : nat) (backup : osP (res unit)) (c : Control) : clP (res unit) :=
  try save <- storageBootstrap paths polls backup c false;
  if save : bool then Save paths polls c false else Ret (Ok tt).

Lemma startup_rg (paths : gmap string string) (polls : nat) (backup : osP (res unit)) (c : Control) v :
  good K v -> (polls <= 4)%nat -> Token c <> "" -> NormalizeToken (Token c) = Ok tok ->
  rg (startup paths polls backup c) (fun r v' => r = Ok tt -> exists d rev, d <> "" /\ entry K v' = Some (d, rev)) v.
Proof.
  intros Hg Hp Ht Hn. unfold startup, storageBootstrap. apply rgwp_bind; [apply _|].
  apply rgwp_call. intros v1 r v1' Hv1 Hc. assert (v1' = v1) as -> by exact Hc. split; [constructor|].
  destruct r as [[]|e]; [|by intros v' _ v'' _].
  unfold server_token. rewrite decide_False by done. unfold bind at 1. rewrite decide_False, Hn by done.
  pose proof (others_good K i v v1 Hg Hv1) as Hg1.
  eapply rgwp_mono; [|apply rg_good; [done|apply storage_poll_rg; [done|lia]]].
  intros [[]|e] v2 [Hg2 [Hlock Hdata]]; [| |by intros v' _].
  - destruct (Hlock eq_refl) as [rev Hl]. unfold Save. apply quiet_rg; [apply quiet_os|].
    intros [buf|e] v3 H3; [|by intros v' _]. unfold server_token. rewrite decide_False by done.
    unfold bind at 1. rewrite Hn. apply (os_rg _ _ (fun r => forall data, r = Ok data -> data <> "")).
    { eapply wp_mono; [|apply encrypt_any]. intros o [] (r & -> & H) a [= <-] data Hr. by apply H. }
    intros [data|e] v4 Hd H4; [|by intros v' _].
    assert (others K i v2 v4) as H24 by by transitivity v3.
    eapply rgwp_mono; [|apply (store_data_rg polls false (Token c) data v4 rev)].
    + intros r v' H Hr. destruct (H Hr) as [rev' He]. exists data, rev'. split; [by apply Hd|done].
    + by eapply others_good.
    + by eapply others_lock.
    + by apply Hd.
  - intros v' Hv' _. destruct (Hdata eq_refl) as (d & rev & Hd & He). exists d, rev. split; [done|]. by eapply others_data.
Qed.

End server.

(** ** All servers *)

(** C22. Servers that start with one token on one datastore, which holds no
    bootstrap data under any other key, and no one of which polls a lock more
    than four times: in every interleaving of them, whatever requests fail,
    once bootstrap data is stored no server ever replaces or removes it, and
    every server that starts successfully leaves the datastore with data.  A
    fifth poll breaks the lock, and a server that breaks it while its owner is
    still at work overwrites what the owner has stored. *)
Theorem bootstrap_data_written_once `{BT : BootstrapTokens, XC : X509, CI : Cipher, BJ : BootJSON, MO : MapOrder}
    (tok : string) (paths : gmap string string) (polls : nat) (backup : osP (res unit)) (configs : list Control)
    {S} (h : handler tagE S) (view : S -> shared) (s : S) (c1 c2 : list (prog tagE (res unit)) * S) :
  respects h view tag_contract -> storageKey "" <> storageKey tok -> good (storageKey tok) (view s) -> (polls <= 4)%nat ->
  Forall (fun c => Token c <> "" /\ NormalizeToken (Token c) = Ok tok) configs ->
  let start := imap (fun i c => tagged i (startup paths polls backup c)) configs in
  rtc (pstep h) (start, s) c1 -> rtc (pstep h) c1 c2 ->
  (forall d rev, entry (storageKey tok) (view (snd c1)) = Some (d, rev) -> d <> "" ->
     entry (storageKey tok) (view (snd c2)) = Some (d, rev)) /\
  (forall i, fst c2 !! i = Some (Ret (Ok tt)) ->
     exists d rev, d <> "" /\ entry (storageKey tok) (view (snd c2)) = Some (d, rev)).
Proof.
  intros Hh He Hg Hp Hc start H1 H2.
  set (R := fun i => others (storageKey tok) i). set (G := fun i => does (storageKey tok) i).
  set (Q := fun (i : nat) (r : res unit) (v' : shared) => r = Ok tt -> exists d rev, d <> "" /\ entry (storageKey tok) v' = Some (d, rev)).
  assert (forall i j v v', i <> j -> G j v v' -> R i v v') as Hcompat.
  { intros i j v v' Hij HG. apply rtc_once. exists j. by split. }
  assert (pool_inv view tag_contract R G Q (start, s)) as Hinv.
  { intros i p Hi. unfold start in Hi. cbn in Hi. rewrite list_lookup_imap in Hi.
    destruct (configs !! i) as [c|] eqn:Hci; [|done]. injection Hi as <-.
    destruct (Forall_lookup_1 _ _ _ _ Hc Hci) as [Ht Hn].
    apply rgwp_trans. by apply startup_rg. }
  assert (pool_inv view tag_contract R G Q c1) as Hinv1.
  { clear H2. induction H1 as [|x y z Hxy _ IH]; [done|]. apply IH. eapply pool_step; [exact Hh|apply _|exact Hcompat|exact Hinv|exact Hxy]. }
  split.
  - intros d rev Hent Hd. clear H1. revert Hent. induction H2 as [|x y z Hxy _ IH]; [done|]. intros Hent. apply IH.
    + eapply pool_step; [exact Hh|apply _|exact Hcompat|exact Hinv1|exact Hxy].
    + destruct (pool_guarantee h view _ _ _ _ x y Hh (fun _ v => reflexivity v) Hinv1 Hxy) as [i HG]. by eapply does_data.
  - intros i Hi. exact (pool_sound h view tag_contract R G Q Hh _ Hcompat c1 c2 i (Ok tt) Hinv1 H2 Hi eq_refl).
Qed.

(** ** Samples, a broken lock, a witness *)

Definition byte_of_Z (z : Z) : Byte.byte := default Byte.x00 (Byte.of_N (Z.to_N z)).

Lemma byte_of_byte_Z (b : Byte.byte) : byte_of_Z (byte_Z b) = b.
Proof. unfold byte_of_Z, byte_Z. rewrite N2Z.id. by rewrite Byte.of_to_N. Qed.

(** The key in front of the plaintext: only that key opens it. *)
Definition sample_cipher : Cipher.
Proof.
  refine {| pbkdf2_Key passphrase _ := byte_Z <$> Signed.bytes_of passphrase;
            gcm_Seal k _ p := ((fun z => z mod 256) <$> k) ++ (byte_Z <$> Signed.bytes_of p);
            gcm_Open k _ c := if decide (take (length k) c = (fun z => z mod 256) <$> k)
                              then Some (String.string_of_list_byte (byte_of_Z <$> drop (length k) c)) else None |}.
  - intros k _ p. rewrite <-(length_fmap (fun z => z mod 256) k), take_app_length, drop_app_length, decide_True by done.
    rewrite <-list_fmap_compose. f_equal. unfold Signed.bytes_of. rewrite <-(String.string_of_list_byte_of_string p) at 2.
    f_equal. rewrite <-(list_fmap_id (String.list_byte_of_string p)) at 2. apply list_fmap_ext. intros _ b _. apply byte_of_byte_Z.
  - intros k _ p. apply Forall_app. split; apply Forall_fmap, Forall_forall; intros x _; cbn.
    + apply Z.mod_pos_bound. lia.
    + unfold Signed.is_byte, byte_Z. pose proof (Byte.to_N_bounded x). lia.
Defined.

(** A datastore and the disks of the servers. *)
Record Site := mkSite { st_shared : shared; st_disks : list Os }.

Definition live_site : handler tagE Site := fun Y t s =>
  match t in tagE Y return Y * Site with
  | @Tag X i e =>
      let v := st_shared s in
      let etcd {A} (r : A * Etcd) : A * Site := (fst r, mkSite (snd r, v.2) (st_disks s)) in
      match e in clE X return X * Site with
      | COs e =>
          let '(x, o) := live_os _ e (default (mkOs ∅ 0 []) (st_disks s !! i)) in (x, mkSite v (<[i := o]> (st_disks s)))
      | CNet e => match e in netE X return X * Site with Do _ _ => (Err (Plain "no network"), s) | LoadX509KeyPair _ _ => (Err not_exist, s) end
      | CConnect => (Ok tt, s)
      | CList p => (Ok (List p v.1), s)
      | CCreate k d => (fst (Create k d v.1), mkSite (created i k d v) (st_disks s))
      | CUpdate k r d => etcd (Update k r d v.1)
      | CDelete k r => etcd (Delete k r v.1)
      | CIsInitialized => (Ok false, s)
      end
  end.

Lemma live_site_ok : respects live_site st_shared tag_contract.
Proof.
  intros Y [X i e] s. destruct e; cbn; try done; try (by left).
  - pose proof (live_os_ok _ e (default (mkOs ∅ 0 []) (st_disks s !! i))) as H.
    destruct (live_os _ e _) as [x o]. split; [done|]. eexists _, _. exact H.
  - by destruct e.
  - by split; [|left].
Qed.

(** A server whose disk holds its own certificate. *)
Definition server_disk (ca : string) : Os :=
  mkOs {["/tls/server-ca.crt" := mkFile ca 0]} 0
    ["0011223344556677"; "00112233445566778899aabb"; "8899aabbccddeeff"; "ffeeddccbbaa998877665544"].
Definition the_config : Control := mkControl "secret" "" "" "/data" false "" "" "" false.
Definition new_site : Site := mkSite (mkEtcd 1 ∅, None) [server_disk "ca0"; server_disk "ca1"].

Definition boots (polls : nat) : clP (res bool) :=
  storageBootstrap (BT := sample_tokens) (XC := letter_x509) (CI := sample_cipher) (BJ := sample_boot_json) (MO := list_order)
    ca_paths polls (Ret (Ok tt)) the_config false.
Definition saves : clP (res unit) :=
  Save (BT := sample_tokens) (XC := letter_x509) (CI := sample_cipher) (BJ := sample_boot_json) (MO := list_order)
    ca_paths 1 the_config false.

(** The data in the store, decrypted. *)
Definition stored (s : Site) : option (option string) :=
  match et_kvs (st_shared s).1 !! storageKey "secret" with
  | Some (d, _) =>
      match decrypt (CI := sample_cipher) (E := clE) "secret" d with
      | Ret (Ok buf) => Some (Content <$> (files_unmarshal (BootJSON := sample_boot_json) buf ≫= lookup "ServerCA"))
      | _ => None
      end
  | None => None
  end.

Definition ca_of (s : Site) (i : nat) : option string := st_disks s !! i ≫= fun o => f_content <$> os_fs o !! "/tls/server-ca.crt".

(** A server that holds the lock for more than five polls of another: the
    other breaks the lock and takes it, both start, and the second keeps
    certificates that are not the cluster's. *)
Theorem broken_lock_splits :
  let '(b0, s) := run live_site (tagged 0 (boots 1)) new_site in
  let '(b1, s) := run live_site (tagged 1 (boots 6)) s in
  let '(s0, s) := run live_site (tagged 0 saves) s in
  let '(s1, s) := run live_site (tagged 1 saves) s in
  (b0, b1, s0, s1, stored s, ca_of s 1) =
  (Done (Ok true), Done (Ok true), Done (Ok tt), Done (Ok tt), Some (Some "ca0"), Some "ca1").
Proof. vm_compute. reflexivity. Qed.

(** Without a broken lock the second server takes over what the first has
    stored. *)
Example second_server_loads :
  let '(_, s) := run live_site (tagged 0 (boots 1)) new_site in
  let '(_, s) := run live_site (tagged 0 saves) s in
  let '(b1, s) := run live_site (tagged 1 (boots 4)) s in
  (b1, stored s, ca_of s 1) = (Done (Ok false), Some (Some "ca0"), Some "ca0").
Proof. vm_compute. reflexivity. Qed.

Definition starts : clP (res unit) :=
  startup (BT := sample_tokens) (XC := letter_x509) (CI := sample_cipher) (BJ := sample_boot_json) (MO := list_order)
    ca_paths 4 (Ret (Ok tt)) the_config.

Lemma other_key : storageKey "" <> storageKey "secret".
Proof. intros H. vm_compute in H. discriminate H. Qed.

Lemma bootstrap_data_written_once_witness :
  let c1 := sched live_site (repeat 0%nat 30 ++ repeat 1%nat 30) ([tagged 0 starts; tagged 1 starts], new_site) in
  fst c1 !! 1%nat = Some (Ret (Ok tt)) /\
  exists d rev, d <> "" /\ entry (storageKey "secret") (st_shared (snd c1)) = Some (d, rev).
Proof.
  intros c1. assert (fst c1 !! 1%nat = Some (Ret (Ok tt))) as H1 by (vm_compute; reflexivity).
  split; [exact H1|].
  refine (proj2 (bootstrap_data_written_once (BT := sample_tokens) (XC := letter_x509) (CI := sample_cipher)
    (BJ := sample_boot_json) (MO := list_order) "secret" ca_paths 4 (Ret (Ok tt)) [the_config; the_config]
    live_site st_shared new_site _ c1 live_site_ok other_key _ _ _ (rtc_refl _ _) (sched_steps _ _ _)) 1%nat H1).
  - split; [split; [done|apply map_Forall_empty]|]. intros k _ [x Hx]. done.
  - lia.
  - repeat constructor; try done; vm_compute; reflexivity.
Defined.

(** * Rotation of the join token

    The migration of the bootstrap data to the key of another token
    ([pkg/cluster/storage.go]) loses it at no point; and what a rotation of
    the server token ([pkg/server/token.go]) leaves behind when a request
    fails or the new token is given in full. *)

#[local] Open Scope Z_scope.

Section migrate.
Context `{CI : Cipher}.

(** The store holds the data under the key of a token. *)
Definition readable (key token data : string) (v : shared) : Prop :=
  exists d r, et_kvs v.1 !! key = Some (d, r) /\ decrypt (E := clE) token d = Ret (Ok data).

(** A learner refuses to create a key. *)
Definition mig_contract (learner : bool) : contract clE shared := fun X e v x v' =>
  cl_contract 0 X e v x v' \/
  learner = true /\ match e in clE X return X -> Prop with
                    | CCreate _ _ => fun x => x = Err not_supported_for_learner /\ v' = v
                    | _ => fun _ => False
                    end x.

Lemma os_awp learner {A B} (p : osP A) (f : A -> clP B) (P : A -> Prop) (I : shared -> Prop) Q v :
  wp any_disk p (fun o _ => exists a, o = Done a /\ P a) tt -> I v ->
  (forall a, P a -> awp (mig_contract learner) I (f a) Q v) -> awp (mig_contract learner) I (bind (os p) f) Q v.
Proof.
  intros Hp Hi Hf. apply awp_bind. unfold os. induction p as [a|X e k IH|m]; simpl.
  - destruct Hp as (a' & [= <-] & Ha). split; [done|]. by apply Hf.
  - split; [done|]. intros x v' [(-> & m & m' & Hc)|[_ []]]. apply IH. apply (Hp x tt). by exists m, m'.
  - by destruct Hp as (a & ? & _).
Qed.

Lemma delete_other k k' r s : k <> k' -> et_kvs (snd (Delete k r s)) !! k' = et_kvs s !! k'.
Proof.
  intros Hk. unfold Delete, txn. destruct (_ =? _); cbn; [|done]. unfold delete_key.
  destruct (et_kvs s !! k); cbn; [|done]. by apply lookup_delete_ne.
Qed.

(** C23. Moving the bootstrap data to the key of a new token, which is free or
    holds the same data already, as after a crash, is non-destructive: wherever
    the process dies and whatever requests fail, having been carried out or
    not, the data can be read under the old token or under the new one.  After
    success it can be read under the new one, unless this server is a learner
    that could not write it, where it still can under the old one. *)
Theorem migration_keeps_data (learner : bool) (oldToken newToken oldKey newKey data enc : string) (rev : Z) (v : shared) :
  etcd_wf v.1 -> oldKey <> newKey -> et_kvs v.1 !! oldKey = Some (enc, rev) -> decrypt (E := clE) oldToken enc = Ret (Ok data) ->
  et_kvs v.1 !! newKey = None \/ readable newKey newToken data v ->
  awp (mig_contract learner) (fun v' => readable oldKey oldToken data v' \/ readable newKey newToken data v')
    (doMigrateToken (mkValue oldKey enc rev) oldToken oldKey newToken newKey)
    (fun r v' => r = Ok tt -> readable newKey newToken data v' \/ learner = true /\ readable oldKey oldToken data v') v.
Proof.
  intros Hwf Hne Ho Hdec Hn. unfold doMigrateToken. cbn [v_Data v_Modified]. rewrite Hdec.
  set (I := fun v' => readable oldKey oldToken data v' \/ readable newKey newToken data v').
  set (Q := fun (r : res unit) v' => r = Ok tt -> readable newKey newToken data v' \/ learner = true /\ readable oldKey oldToken data v').
  assert (readable oldKey oldToken data v) as Hold by by exists enc, rev.
  assert (I v) as Hi by by left.
  change (awp (mig_contract learner) I (try encryptedData <- os (encrypt newToken data);
    do r <- call (CCreate newKey encryptedData);
    match r with
    | Ok _ => do _r <- call (CDelete oldKey rev); Ret (Ok tt)
    | Err e => if decide (e = key_exists) then do _r <- call (CDelete oldKey rev); Ret (Ok tt)
               else if decide (e = not_supported_for_learner) then Ret (Ok tt) else Ret (Err e)
    end) Q v).
  eapply os_awp; [apply encrypt_any|done|]. intros [enc'|e] Hr; [|by split].
  destruct (Hr enc' eq_refl) as [_ Henc]. specialize (Henc clE).
  assert (forall v1, readable newKey newToken data v1 ->
    awp (mig_contract learner) I (do _r <- call (CDelete oldKey rev); Ret (Ok tt)) Q v1) as Hremove.
  { intros v1 H1. apply awp_call; [by right|]. intros r2 v2 [Hd|[_ []]]. cbn in Hd.
    assert (readable newKey newToken data v2) as H2.
    { destruct H1 as (d & r & Hk & Hdd). exists d, r. split; [|done].
      destruct Hd as [[_ ->]|[_ [->| ->]]]; [|done|]; cbn; by rewrite delete_other. }
    split; [by right|]. intros _. by left. }
  apply awp_call; [done|]. intros r v1 [Hc|[Hl [-> ->]]].
  2: { rewrite decide_False, decide_True by done. split; [done|]. intros _. by right. }
  cbn in Hc. unfold created in Hc. rewrite Create_spec in Hc by done. destruct Hn as [Hn|Hn].
  - rewrite Hn in Hc. cbn in Hc.
    assert (readable newKey newToken data (put_key newKey enc' v.1, Some 0%nat)) as Hread.
    { exists enc', (et_rev v.1 + 1). split; [apply lookup_insert_eq|done]. }
    destruct Hc as [[-> ->]|[(e & H1 & H2 & ->) [->| ->]]]; [by apply Hremove|..]; rewrite !decide_False by done; (split; [|done]); [done|by right].
  - pose proof Hn as (d & r' & Hk & _). rewrite Hk in Hc. cbn in Hc.
    assert ((v.1, v.2) = v) as Ev by by destruct v. rewrite Ev in Hc.
    destruct Hc as [[-> ->]|[(e & H1 & H2 & ->) Hv]].
    + rewrite decide_True by done. by apply Hremove.
    + rewrite !decide_False by done. assert (v1 = v) as -> by by destruct Hv. by split.
Qed.

End migrate.

(** ** Rotations *)

Definition pw_file (server node : string) : string :=
  csv_print (CSV := sample_csv) (record_of <$> [("node", mkEntry node agent_role); ("server", mkEntry server server_role)]).

Definition rotating : Control := mkControl "secret" "" "" "/data" false "" "/ca.crt" "/data/passwd" false.

Definition rotating_disk : Os :=
  mkOs {["/tls/server-ca.crt" := mkFile "ca0" 0; "/data/passwd" := mkFile (pw_file "secret" "secret") 0; "/ca.crt" := mkFile "R" 0]} 0
    (flat_map (fun _ => ["0011223344556677"; "00112233445566778899aabb"]) (seq 0 8)).

(** A server that has stored its data under the token [secret]. *)
Definition rotating_site : Site :=
  snd (run live_site
         (tagged 0 (Save (BT := sample_tokens) (XC := letter_x509) (CI := sample_cipher) (BJ := sample_boot_json) (MO := list_order)
                      ca_paths 1 rotating false))
         (mkSite (mkEtcd 1 ∅, None) [rotating_disk])).

Definition rotate (h : handler tagE Site) (newToken : string) (c : Control) (s : Site) : outcome (res unit * Control) * Site :=
  run h (tagged 0 (tokenRotate (BT := sample_tokens) (XC := letter_x509) (CI := sample_cipher) (BJ := sample_boot_json)
                     (MO := list_order) (CV := sample_csv) ca_paths 1 c newToken)) s.

Definition store_keys (s : Site) : list string := (map_to_list (et_kvs (st_shared s).1)).*1.

(** The server's and the agents' passwords on disk, and the normalized token
    of the token file. *)
Definition passwords (s : Site) : option string * option string * option string :=
  let m := default ∅ (os_fs <$> st_disks s !! 0%nat) in
  let users := match users_on (CV := sample_csv) "/data/passwd" m with Ok u => u | Err _ => ∅ end in
  (pass <$> users !! "server", pass <$> users !! "node",
   f ← m !! "/data/token"; match NormalizeToken (BT := sample_tokens) (trim_end newline (f_content f)) with Ok p => Some p | Err _ => None end).

(** A rotation in which every request succeeds moves everything to the new
    token. *)
Example rotation_scenario :
  let '(o, s) := rotate live_site "new" rotating rotating_site in
  (match o with Done (r, c) => Some (r, Token c) | _ => None end, passwords s, store_keys s) =
  (Some (Ok tt, "new"), (Some "new", Some "new", Some "new"), [storageKey "new"]).
Proof. vm_compute. reflexivity. Qed.

(** The same site with every deletion refused. *)
Definition undeletable : handler tagE Site := fun Y t s =>
  match t in tagE Y return Y * Site with
  | @Tag X i e =>
      match e in clE X return X * Site with
      | CDelete k r => (Err (Plain "etcdserver: request timed out"), s)
      | e => live_site _ (Tag i e) s
      end
  end.

(** When the old key cannot be removed, which is only logged, the rotation
    fails although the new token is in force, and so does every later one: two
    keys stay in the store. *)
Theorem failed_delete_blocks_rotation :
  let '(o1, s) := rotate undeletable "new" rotating rotating_site in
  let c := match o1 with Done (_, c) => c | _ => rotating end in
  let '(o2, s) := rotate live_site "newer" c s in
  (match o1, o2 with Done (Err _, c1), Done (Err _, c2) => Some (Token c1, Token c2) | _, _ => None end,
   length (store_keys s), passwords s) =
  (Some ("new", "newer"), 2%nat, (Some "newer", Some "newer", Some "newer")).
Proof. vm_compute. reflexivity. Qed.

(** A new token given in full is cut to its password for the servers only: the
    agents' password and the token file keep the whole text. *)
Theorem rotation_to_full_token :
  let '(o, s) := rotate live_site "K10::server:pw" rotating rotating_site in
  (match o with Done (r, _) => Some r | _ => None end, passwords s) =
  (Some (Ok tt), (Some "pw", Some "K10::server:pw", Some "K10::server:pw")).
Proof. vm_compute. reflexivity. Qed.

(** A request without a new token, which the API type allows, panics. *)
Theorem rotation_without_token_panics (c : Control) (s : Site) :
  fst (run live_site (tagged 0 (tokenRequestHandler (BT := sample_tokens) (XC := letter_x509) (CI := sample_cipher)
    (BJ := sample_boot_json) (MO := list_order) (CV := sample_csv) ca_paths 1 c "PUT" (Some None))) s) = Panicked.
Proof. reflexivity. Qed.

Definition old_value : string := sealed (CI := sample_cipher) "old" "0011223344556677" "00112233445566778899aabb" "data".
Definition new_value : string := sealed (CI := sample_cipher) "new" "0011223344556677" "00112233445566778899aabb" "data".

(** A migration that stopped before the old key was removed is run again. *)
Lemma migration_keeps_data_witness :
  let v : shared := (mkEtcd 3 (<["/bootstrap/new" := (new_value, 3)]> {["/bootstrap/old" := (old_value, 2)]}), None) in
  awp (mig_contract false) (fun v' => readable (CI := sample_cipher) "/bootstrap/old" "old" "data" v' \/
                                 readable (CI := sample_cipher) "/bootstrap/new" "new" "data" v')
    (doMigrateToken (CI := sample_cipher) (mkValue "/bootstrap/old" old_value 2) "old" "/bootstrap/old" "new" "/bootstrap/new")
    (fun r v' => r = Ok tt -> readable (CI := sample_cipher) "/bootstrap/new" "new" "data" v' \/
       false = true /\ readable (CI := sample_cipher) "/bootstrap/old" "old" "data" v') v.
Proof.
  intros v. apply (migration_keeps_data (CI := sample_cipher)).
  - split; [done|]. intros k [d r] Hk. cbn [v fst et_kvs et_rev] in *.
    apply lookup_insert_Some in Hk as [[<- [= <- <-]]|[_ Hk]]; [cbn; lia|].
    apply lookup_singleton_Some in Hk as [<- [= <- <-]]. cbn. lia.
  - done.
  - cbn [v fst et_kvs]. rewrite lookup_insert_ne by done. apply lookup_singleton_eq.
  - by apply decrypt_sealed.
  - right. exists new_value, 3. split; [cbn [v fst et_kvs]; apply lookup_insert_eq|by apply decrypt_sealed].
Defined.

(** When the new key holds something else, the lock of a server that starts
    with the new token for one, the old data is removed all the same. *)
Example data_lost_to_lock :
  let '(o, s) := run live_site (tagged 0 (doMigrateToken (CI := sample_cipher) (mkValue "/bootstrap/old" old_value 2)
                                           "old" "/bootstrap/old" "new" "/bootstrap/new"))
                   (mkSite (mkEtcd 3 (<["/bootstrap/new" := ("", 3)]> {["/bootstrap/old" := (old_value, 2)]}), None)
                      [mkOs ∅ 0 ["0011223344556677"; "00112233445566778899aabb"]]) in
  o = Done (Ok tt) /\ store_keys s = ["/bootstrap/new"] /\ fst <$> et_kvs (st_shared s).1 !! "/bootstrap/new" = Some "".
Proof. vm_compute. repeat split. Qed.
