(* ===== verification/SnapshotFile.v ===== *)
(** * Records of etcd snapshots

    [pkg/etcd/snapshot/types.go]: what is known of a snapshot file, the keys
    and names it is recorded under, and its translation to and from the
    [ETCDSnapshotFile] resources of [pkg/apis/k8e.sh/v1]. *)
From Stdlib Require Import ZArith Lia.
From S2P Require Import Prelude GoText GoTime SessionEnv Sha256 Signed.

#[local] Open Scope Z_scope.

Definition CompressedExtension : string := ".zip".
Definition MetadataDir : string := ".metadata".
Definition LabelStorageNode : string := "etcd.k8e.sh/snapshot-storage-node".
Definition AnnotationTokenHash : string := "etcd.k8e.sh/snapshot-token-hash".

Inductive SnapshotStatus := NoStatus | SuccessfulStatus | FailedStatus.
#[export] Instance SnapshotStatus_eq_dec : EqDecision SnapshotStatus.
Proof. solve_decision. Defined.

(** [config.EtcdS3]; the time-out in nanoseconds. *)
Record EtcdS3 := mkEtcdS3 {
  AccessKey : string; Bucket : string; ConfigSecret : string; Endpoint : string; EndpointCA : string;
  Folder : string; Proxy : string; Region : string; SecretKey : string; Insecure : bool; SkipSSLVerify : bool;
  Timeout : Z;
}.
#[export] Instance EtcdS3_eq_dec : EqDecision EtcdS3.
Proof. solve_decision. Defined.

(** Times are nanoseconds since the epoch. *)
Record File := mkSnap {
  sf_Name : string; sf_Location : string; sf_Metadata : string; sf_Message : string; sf_NodeName : string;
  sf_CreatedAt : option Z; sf_Size : Z; sf_Status : SnapshotStatus; sf_S3 : option EtcdS3; sf_Compressed : bool;
  sf_MetadataSource : option (gmap string string); sf_NodeSource : string; sf_TokenHash : string;
}.

(** [ETCDSnapshotS3], [ETCDSnapshotFile]; [None] for a time that is zero or a
    pointer that is nil. *)
Record ESFS3 := mkESFS3 {
  es3_Endpoint : string; es3_EndpointCA : string; es3_SkipSSLVerify : bool; es3_Bucket : string; es3_Region : string;
  es3_Prefix : string; es3_Insecure : bool;
}.
#[export] Instance ESFS3_eq_dec : EqDecision ESFS3.
Proof. solve_decision. Defined.

Record ESF := mkESF {
  esf_Name : string; esf_rv : Z; esf_Created : option Z; esf_Deleted : option Z;
  esf_Labels : gmap string string; esf_Annotations : gmap string string;
  esf_SnapshotName : string; esf_NodeName : string; esf_Location : string; esf_Metadata : gmap string string;
  esf_S3 : option ESFS3;
  esf_CreationTime : option Z; esf_ReadyToUse : option bool; esf_Size : option Z;
  esf_Error : option (option Z * option string);
}.
#[export] Instance ESF_eq_dec : EqDecision ESF.
Proof. solve_decision. Defined.

Definition new_esf (name : string) : ESF :=
  mkESF name 0 None None ∅ ∅ "" "" "" ∅ None None None None None.

(** JSON of a map of strings, a text that is never empty; reading gives the
    entries that are set, also when it stops with an error. *)
Class MetaJSON := mkMetaJSON {
  meta_marshal : gmap string string -> string;
  meta_unmarshal : string -> gmap string string;
  meta_round_trip : forall m, meta_unmarshal (meta_marshal m) = m;
  meta_not_empty : forall m, meta_marshal m <> "";
}.

(** [validation.IsDNS1123Subdomain] of Kubernetes. *)
Class DNS1123 := mkDNS1123 { IsDNS1123Subdomain : string -> bool }.
Definition DNS1123SubdomainMaxLength : nat := 253.

(** ** Keys and names *)

(** The characters [InvalidKeyChars] spares. *)
Definition key_char (c : Ascii.ascii) : bool :=
  let n := Ascii.N_of_ascii c in
  (((48 <=? n) && (n <=? 57)) || ((65 <=? n) && (n <=? 90)) || ((97 <=? n) && (n <=? 122)) ||
   (n =? 45) || (n =? 46) || (n =? 95))%N.

(** The lengths of characters in UTF-8. *)
Definition within (c : Ascii.ascii) (a b : N) : bool := (a <=? Ascii.N_of_ascii c)%N && (Ascii.N_of_ascii c <=? b)%N.
Definition tail_byte (c : Ascii.ascii) : bool := within c 128 191.
Definition rune2 (a b : Ascii.ascii) : bool := within a 194 223 && tail_byte b.
Definition rune3 (a b c : Ascii.ascii) : bool :=
  ((within a 224 224 && within b 160 191) || (within a 225 236 && tail_byte b) ||
   (within a 237 237 && within b 128 159) || (within a 238 239 && tail_byte b)) && tail_byte c.
Definition rune4 (a b c d : Ascii.ascii) : bool :=
  ((within a 240 240 && within b 144 191) || (within a 241 243 && tail_byte b) ||
   (within a 244 244 && within b 128 143)) && tail_byte c && tail_byte d.

Definition underscore : Ascii.ascii := Ascii.ascii_of_nat 95.

(** [InvalidKeyChars.ReplaceAllString(s, "_")]: one for each character, or
    byte that is part of none. *)
Fixpoint replace_invalid (s : string) : string :=
  match s with
  | EmptyString => ""
  | String a r =>
      if key_char a then String a (replace_invalid r)
      else String underscore
        match r with
        | EmptyString => ""
        | String b r2 =>
            if rune2 a b then replace_invalid r2
            else match r2 with
                 | EmptyString => replace_invalid r
                 | String c r3 =>
                     if rune3 a b c then replace_invalid r3
                     else match r3 with
                          | EmptyString => replace_invalid r
                          | String d r4 => if rune4 a b c d then replace_invalid r4 else replace_invalid r
                          end
                 end
        end
  end.

Definition GenerateConfigMapKey (sf : File) : string :=
  (if decide (sf_NodeName sf = "s3") then "s3-" else "local-") +:+ replace_invalid (sf_Name sf).

(** [generateETCDSnapshotFileConfigMapKey] of snapshot.go. *)
Definition esf_key (e : ESF) : string :=
  (match esf_S3 e with Some _ => "s3-" | None => "local-" end) +:+ replace_invalid (esf_SnapshotName e).

Definition dot : Ascii.ascii := Ascii.ascii_of_nat 46.
Definition before_dot (s : string) : string := default "" (head (split_on dot s)).

Section names.
Context `{DN : DNS1123}.

(** [None] for the panic on a snapshot without creation time. *)
Definition GenerateName (sf : File) : option string :=
  let name := ToLower (sf_Name sf) in
  let nodename := if decide (sf_NodeSource sf = "") then sf_NodeName sf else sf_NodeSource sf in
  let digest := take_str 6 (hex (sha256 (bytes_of (nodename +:+ sf_Location sf)))) in
  let prefix := if decide (sf_NodeName sf = "s3") then "s3-" else "local-" in
  if negb (IsDNS1123Subdomain name) || (DNS1123SubdomainMaxLength <? String.length name + 13)%nat then
    match sf_CreatedAt sf with
    | None => None
    | Some t => Some (prefix +:+ "etcd-snapshot-" +:+ before_dot nodename +:+ "-" +:+ itoa (t / second) +:+
                      (if sf_Compressed sf then CompressedExtension else "") +:+ "-" +:+ digest)
    end
  else Some (prefix +:+ name +:+ "-" +:+ digest).

End names.

(** ** Translation *)

Definition s3_of (s : ESFS3) : EtcdS3 :=
  mkEtcdS3 "" (es3_Bucket s) "" (es3_Endpoint s) (es3_EndpointCA s) (es3_Prefix s) "" (es3_Region s) ""
    (es3_Insecure s) (es3_SkipSSLVerify s) 0.
Definition esf_s3_of (s : EtcdS3) : ESFS3 :=
  mkESFS3 (Endpoint s) (EndpointCA s) (SkipSSLVerify s) (Bucket s) (Region s) (Folder s) (Insecure s).

Definition failed_message : string := "etcd snapshot failed".

Section translation.
Context `{MJ : MetaJSON}.

(** Into a [File] that is empty. *)
Definition FromETCDSnapshotFile (esf : ESF) : File :=
  mkSnap (esf_SnapshotName esf) (esf_Location esf)
    (if decide (esf_Metadata esf = ∅) then "" else encode_text (meta_marshal (esf_Metadata esf)))
    (match esf_Error esf with Some (_, m) => encode_text (default failed_message m) | None => "" end)
    (match esf_S3 esf with None => esf_NodeName esf | Some _ => "s3" end)
    (match esf_Error esf with Some (Some t, _) => Some t | _ => esf_CreationTime esf end)
    (default 0 (esf_Size esf))
    (if decide (esf_ReadyToUse esf = Some true) then SuccessfulStatus else FailedStatus)
    (s3_of <$> esf_S3 esf)
    (has_suffix CompressedExtension (esf_SnapshotName esf))
    None (esf_NodeName esf) (default "" (esf_Annotations esf !! AnnotationTokenHash)).

Definition ToETCDSnapshotFile (sf : File) (esf : ESF) : ESF :=
  let nodeName := if decide (sf_NodeSource sf = "") then sf_NodeName sf else sf_NodeSource sf in
  mkESF (esf_Name esf) (esf_rv esf) (esf_Created esf) (esf_Deleted esf)
    (<[LabelStorageNode := match sf_S3 sf with None => nodeName | Some _ => "s3" end]> (esf_Labels esf))
    (if decide (sf_TokenHash sf = "") then esf_Annotations esf
     else <[AnnotationTokenHash := sf_TokenHash sf]> (esf_Annotations esf))
    (sf_Name sf) nodeName (sf_Location sf)
    (match sf_MetadataSource sf with
     | Some data => data
     | None => if decide (sf_Metadata sf = "") then esf_Metadata esf
               else match decode_text (sf_Metadata sf) with
                    | None => esf_Metadata esf
                    | Some m => meta_unmarshal m ∪ esf_Metadata esf
                    end
     end)
    (match sf_S3 sf with None => esf_S3 esf | Some s => Some (esf_s3_of s) end)
    (sf_CreatedAt sf) (Some (bool_decide (sf_Status sf = SuccessfulStatus))) (Some (sf_Size sf))
    (if decide (sf_Message sf = "") then esf_Error esf
     else Some (sf_CreatedAt sf, Some (default failed_message (decode_text (sf_Message sf))))).

End translation.

(** ** Lemmas *)

(** Whatever its name, a snapshot's key has only characters a config map
    allows. *)
Lemma replace_invalid_safe s : all_chars key_char (replace_invalid s) = true.
Proof.
  enough (forall n s, (String.length s <= n)%nat -> all_chars key_char (replace_invalid s) = true) as H by by eapply H.
  clear s. induction n as [|n IH]; intros [|a r] Hn; [done|cbn in Hn; lia|done|].
  cbn in Hn. assert (forall t, (String.length t <= String.length r)%nat -> all_chars key_char (replace_invalid t) = true) as IHr.
  { intros t Ht. apply IH. lia. }
  cbn [replace_invalid]. destruct (key_char a) eqn:Ha; cbn [all_chars]; [rewrite Ha; by apply IHr|].
  change (key_char underscore) with true. cbn [andb].
  destruct r as [|b r2]; [done|]. cbn [String.length] in IHr.
  destruct (rune2 a b); [apply IHr; lia|]. destruct r2 as [|c r3]; [apply IHr; cbn; lia|]. cbn [String.length] in IHr.
  destruct (rune3 a b c); [apply IHr; lia|]. destruct r3 as [|d r4]; [apply IHr; cbn; lia|]. cbn [String.length] in IHr.
  destruct (rune4 a b c d); apply IHr; cbn [String.length]; lia.
Qed.

Lemma config_map_key_safe sf : all_chars key_char (GenerateConfigMapKey sf) = true.
Proof. unfold GenerateConfigMapKey. rewrite all_chars_app, replace_invalid_safe. by case_decide. Qed.

Section records.
Context `{MJ : MetaJSON, DN : DNS1123}.

(** A record as the code makes them: S3 records are those of the node called
    ["s3"], a local one names its node, and a message says something. *)
Definition snap_wf (sf : File) : Prop :=
  match sf_S3 sf with
  | None => sf_NodeName sf <> "s3" /\ sf_NodeSource sf = ""
  | Some _ => sf_NodeName sf = "s3"
  end /\
  (sf_Message sf = "" \/ decode_text (sf_Message sf) <> Some "").

(** What a record says: the snapshot, where it is and on which node, when it
    was taken, how large it is and whether it succeeded; the hash of its token,
    its metadata and its message in the clear, and where its bucket is, without
    the credentials. *)
Record told := mkTold {
  tl_name : string; tl_location : string; tl_node : string; tl_created : option Z; tl_size : Z; tl_ok : bool;
  tl_token : string; tl_metadata : gmap string string; tl_message : option string;
  tl_s3 : option (string * string * string * string * string * bool * bool);
}.
Definition tells (sf : File) : told :=
  mkTold (sf_Name sf) (sf_Location sf) (if decide (sf_NodeSource sf = "") then sf_NodeName sf else sf_NodeSource sf)
    (sf_CreatedAt sf) (sf_Size sf) (bool_decide (sf_Status sf = SuccessfulStatus)) (sf_TokenHash sf)
    match sf_MetadataSource sf with
    | Some data => data
    | None => if decide (sf_Metadata sf = "") then ∅ else default ∅ (meta_unmarshal <$> decode_text (sf_Metadata sf))
    end
    (if decide (sf_Message sf = "") then None else Some (default "etcd snapshot failed" (decode_text (sf_Message sf))))
    ((fun c => (Endpoint c, EndpointCA c, Bucket c, Region c, Folder c, SkipSSLVerify c, Insecure c)) <$> sf_S3 sf).

Lemma encoded_message t : t <> "" -> encode_text t <> "" /\ decode_text (encode_text t) = Some t.
Proof. intros Ht. split; [|apply text_round_trip]. intros E. by apply encode_text_empty in E. Qed.

(** C18. A record survives its resource.  Of a record of S3 that is said to be
    of the node s3, or one on disk that names its node and is of no other, with
    no message or one that is not empty, the resource made from it, read back,
    tells the same: the snapshot, its place, node, time and size, whether it
    succeeded, the hash of its token, its metadata, its message and its bucket.  It has the
    same key, as has the resource, and written again it is the same resource;
    it has the same name, too, if it is marked as compressed just when its name
    says so, which the record of a failed upload need not be. *)
Theorem snapshot_record_round_trip (sf : File) (name : string) : snap_wf sf ->
  let esf := ToETCDSnapshotFile sf (new_esf name) in
  let sf' := FromETCDSnapshotFile esf in
  tells sf' = tells sf /\ ToETCDSnapshotFile sf' (new_esf name) = esf /\
  (sf_Compressed sf = has_suffix CompressedExtension (sf_Name sf) -> GenerateName sf' = GenerateName sf) /\
  GenerateConfigMapKey sf' = GenerateConfigMapKey sf /\ esf_key esf = GenerateConfigMapKey sf.
Proof.
  intros (Hnode & Hmsg) esf sf'.
  set (node := if decide (sf_NodeSource sf = "") then sf_NodeName sf else sf_NodeSource sf).
  assert (esf_NodeName esf = node) as Hen by done.
  assert (sf_NodeName sf' = match sf_S3 sf with None => node | Some _ => "s3" end) as Hn' by (by cbn; destruct (sf_S3 sf)).
  assert ((if decide (sf_NodeSource sf' = "") then sf_NodeName sf' else sf_NodeSource sf') = node) as Hnode'.
  { change (sf_NodeSource sf') with node. destruct (decide (node = "")) as [E|]; [|done]. rewrite Hn'.
    destruct (sf_S3 sf); [|done]. unfold node in E. rewrite Hnode in E. by case_decide. }
  assert (sf_NodeName sf' = "s3" <-> sf_NodeName sf = "s3") as Hs3.
  { rewrite Hn'. destruct (sf_S3 sf); [by rewrite Hnode|]. destruct Hnode as [Hne Hsrc]. unfold node. by rewrite decide_True. }
  assert (sf_CreatedAt sf' = sf_CreatedAt sf) as Ht.
  { cbn. destruct (decide (sf_Message sf = "")); [done|]. by destruct (sf_CreatedAt sf). }
  split_and!.
  - unfold tells. rewrite Hnode', Ht. change (sf_Name sf') with (sf_Name sf). change (sf_Location sf') with (sf_Location sf).
    fold node. f_equal.
    + cbn. by destruct (sf_Status sf).
    + cbn. destruct (decide (sf_TokenHash sf = "")) as [->|E]; [done|]. by rewrite lookup_insert_eq.
    + cbn.
      set (md := match sf_MetadataSource sf with Some data => data | None => _ end).
      assert (md = tl_metadata (tells sf)) as Emd.
      { unfold md. cbn. destruct (sf_MetadataSource sf); [done|]. destruct (decide (sf_Metadata sf = "")) as [E|E]; [reflexivity|].
        destruct (decode_text (sf_Metadata sf)); [apply map_union_empty|done]. }
      transitivity md; [|exact Emd]. destruct (decide (md = ∅)) as [Hmd|Hmd]; [done|]. rewrite decide_False.
      * rewrite text_round_trip. cbn. apply meta_round_trip.
      * intros E. apply encode_text_empty in E. by apply (meta_not_empty md).
    + cbn. destruct (decide (sf_Message sf = "")) as [E|E]; cbn; [done|]. destruct Hmsg as [Hm|Hm]; [done|].
      assert (default failed_message (decode_text (sf_Message sf)) <> "") as Hd.
      { destruct (decode_text (sf_Message sf)); cbn; [congruence|done]. }
      apply encoded_message in Hd as [H1 H2]. by rewrite decide_False, H2 by done.
    + cbn. by destruct (sf_S3 sf) as [[]|].
  - unfold ToETCDSnapshotFile at 1. rewrite Hnode', Ht. unfold esf, ToETCDSnapshotFile.
    cbn [esf_Name esf_rv esf_Created esf_Deleted esf_Labels esf_Annotations esf_Metadata esf_S3 esf_Error new_esf].
    fold node. f_equal.
    + cbn. by destruct (sf_S3 sf).
    + cbn. destruct (decide (sf_TokenHash sf = "")) as [E|E]; cbn.
      * by rewrite lookup_empty.
      * rewrite lookup_insert_eq. cbn. by rewrite decide_False.
    + cbn. set (md := match sf_MetadataSource sf with Some data => data | None => _ end).
      destruct (decide (md = ∅)) as [->|Hmd]; [done|]. rewrite decide_False.
      * rewrite text_round_trip, meta_round_trip. by rewrite map_union_empty.
      * intros E. apply encode_text_empty in E. by apply (meta_not_empty md).
    + cbn. by destruct (sf_S3 sf) as [[]|].
    + cbn. by destruct (sf_Status sf).
    + cbn. destruct (decide (sf_Message sf = "")) as [E|E]; cbn; [done|].
      destruct Hmsg as [Hm|Hm]; [done|].
      assert (default failed_message (decode_text (sf_Message sf)) <> "") as Hd.
      { destruct (decode_text (sf_Message sf)); cbn; [congruence|done]. }
      apply encoded_message in Hd as [H1 H2]. by rewrite decide_False, H2 by done.
  - intros Hz. unfold GenerateName. rewrite Hnode', Ht. cbn [sf_Name sf_Location sf_Compressed].
    change (sf_Name sf') with (sf_Name sf). change (sf_Location sf') with (sf_Location sf).
    change (sf_Compressed sf') with (has_suffix CompressedExtension (sf_Name sf)). rewrite <-Hz.
    fold node. by rewrite (decide_ext _ _ _ _ Hs3).
  - unfold GenerateConfigMapKey. change (sf_Name sf') with (sf_Name sf). by rewrite (decide_ext _ _ _ _ Hs3).
  - unfold esf_key, GenerateConfigMapKey. cbn. destruct (sf_S3 sf).
    + by rewrite decide_True.
    + rewrite decide_False; [done|]. by destruct Hnode.
Qed.
End records.

(** JSON as some prefix code, behind its brace. *)
Definition sample_meta_json : MetaJSON.
Proof.
  refine {| meta_marshal m := String (Ascii.ascii_of_nat 123) (bits (encode (map_to_list m)));
            meta_unmarshal s := match s with
                                | String _ r => default ∅ (list_to_map <$> (decode (unbits r) : option (list (string * string))))
                                | _ => ∅ end |}; [|done].
  intros m. rewrite unbits_bits, decode_encode. cbn. apply list_to_map_to_list.
Defined.

Definition sample_names : DNS1123 := mkDNS1123 (all_chars key_char).

(** A snapshot of node n1 that failed, as the upload to S3 reports it. *)
Definition failed_upload : File :=
  mkSnap "daily-1.zip" "s3://b/daily-1.zip" "" (encode_text "timeout") "s3" (Some (100 * second)) 0 FailedStatus
    (Some (mkEtcdS3 "key" "b" "" "s3.local" "" "f" "" "r" "secret" false false 5)) true
    (Some {["a" := "1"]}) "n1" "hash".

Lemma snapshot_record_round_trip_witness :
  let J := sample_meta_json in
  let esf := ToETCDSnapshotFile failed_upload (new_esf "x") in
  tells (FromETCDSnapshotFile esf) = tells failed_upload /\ ToETCDSnapshotFile (FromETCDSnapshotFile esf) (new_esf "x") = esf /\
  (true = has_suffix CompressedExtension "daily-1.zip" ->
   GenerateName (DN := sample_names) (FromETCDSnapshotFile esf) = GenerateName (DN := sample_names) failed_upload) /\
  GenerateConfigMapKey (FromETCDSnapshotFile esf) = GenerateConfigMapKey failed_upload /\
  esf_key esf = GenerateConfigMapKey failed_upload.
Proof.
  cbv zeta. apply (snapshot_record_round_trip (MJ := sample_meta_json) (DN := sample_names) failed_upload "x").
  split_and!; [done|]. right. unfold failed_upload, sf_Message. by rewrite text_round_trip.
Defined.
