(* ===== verification/S3Store.v ===== *)
(** * Snapshots in S3

    [pkg/etcd/s3]: the configuration of the store, from the command line or
    from a secret, and the upload, download, listing, deletion and retention
    of snapshots in a bucket.  The S3 library, TLS and the API server are
    effects. *)
From Stdlib Require Import ZArith Lia.
From S2P Require Import Prelude GoText GoTime Prog Os Signed SnapshotFile.

#[local] Open Scope Z_scope.

(** An object as listed or asked for, with its user metadata. *)
Record S3Object := mkS3Object { so_Key : string; so_Size : Z; so_LastModified : Z; so_meta : gmap string string }.

Inductive s3E : Type -> Type :=
  | S3Os {X} (e : osE X) : s3E X
  | SecretData (name : string) : s3E (res (gmap string string))
  | CAConfigMap (name : string) : s3E (res (gmap string string * gmap string string))
  | CachedClient (c : EtcdS3) : s3E bool
  | CacheClient (c : EtcdS3) : s3E unit
  | NewMinio (c : EtcdS3) : s3E (res unit)
  | BucketExists (bucket : string) : s3E (res bool)
  | ListObjects (bucket prefix : string) : s3E (list S3Object * option error)
  | StatObject (bucket key : string) : s3E (res S3Object)
  | RemoveObject (bucket key : string) : s3E (res unit)
  | FPutObject (bucket key path contentType : string) (meta : gmap string string) : s3E (res Z)
  | FGetObject (bucket key path : string) : s3E (res unit)
  | ReadObject (bucket key : string) : s3E (res string).

Abbreviation s3P := (prog s3E).

Definition s3os {A} (p : osP A) : s3P A := trans (fun X e => S3Os e) p.

Definition no_config_secret : error := Plain "failed to get etcd S3 config secret".
Definition s3_not_found : error := Plain "The specified key does not exist.".

(** [snapshot.IsNotExist] *)
Definition IsNotExist (e : error) : bool := bool_decide (e = s3_not_found \/ e = not_exist).

Definition clusterIDKey : string := "K8e-Cluster-Id".
Definition tokenHashKey : string := "K8e-Token-Hash".
Definition nodeNameKey : string := "K8e-Node-Name".

Definition defaultEtcdS3 (ConfigSecret : string) : EtcdS3 :=
  mkEtcdS3 "" "" ConfigSecret "s3.amazonaws.com" "" "" "" "us-east-1" "" false false (5 * minute).

Record S3Controller := mkS3Controller { s3_clusterID : string; s3_tokenHash : string; s3_nodeName : string }.

(** [strconv.ParseBool] *)
Definition ParseBool (s : string) : option bool :=
  if decide (s ∈ ["1"; "t"; "T"; "TRUE"; "true"; "True"]) then Some true
  else if decide (s ∈ ["0"; "f"; "F"; "FALSE"; "false"; "False"]) then Some false
  else None.

(** ** Configuration *)

Section config.
Context (ParseDuration : string -> option Z) (valid_proxy has_certs : string -> bool) `{MO : MapOrder}.

(** The CA bundles of the secret and of the config map it names. *)
Definition ca_bundles (data : gmap string string) : s3P (list string) :=
  let get k := default "" (data !! k) in
  let inline := if decide (get "etcd-s3-endpoint-ca" = "") then [] else [encode_text (get "etcd-s3-endpoint-ca")] in
  if decide (get "etcd-s3-endpoint-ca-name" = "") then Ret inline
  else
    do cm <- call (CAConfigMap (get "etcd-s3-endpoint-ca-name"));
    Ret (match cm with
         | Err _ => inline
         | Ok (text, binary) => inline ++ (encode_text <$> (iter text).*2) ++ (encode_text <$> (iter binary).*2)
         end).

Definition getConfigFromSecret (secretName : string) : s3P (res EtcdS3) :=
  do secret <- call (SecretData secretName);
  match secret with
  | Err _ => Ret (Err no_config_secret)
  | Ok data =>
      let get k := default "" (data !! k) in
      let d := defaultEtcdS3 "" in
      let flag k := match data !! k with Some v => default false (ParseBool v) | None => false end in
      do caBundles <- ca_bundles data;
      Ret (Ok (mkEtcdS3 (get "etcd-s3-access-key") (get "etcd-s3-bucket") ""
        (default (Endpoint d) (data !! "etcd-s3-endpoint")) (join_with " " caBundles)
        (get "etcd-s3-folder") (get "etcd-s3-proxy") (default (Region d) (data !! "etcd-s3-region"))
        (get "etcd-s3-secret-key") (flag "etcd-s3-insecure") (flag "etcd-s3-skip-ssl-verify")
        (match data !! "etcd-s3-timeout" with Some v => default (Timeout d) (ParseDuration v) | None => Timeout d end)))
  end.

(** Whether some bundle, given inline or by its file, has a certificate. *)
Fixpoint load_cas (l : list string) (loaded : bool) : s3P (res unit) :=
  match l with
  | [] => Ret (if loaded then Ok tt else Err (Plain "no certificates loaded from etcd-s3-endpoint-ca"))
  | ca :: l =>
      try caData <- (match decode_text ca with
                     | Some d => Ret (Ok d)
                     | None => s3os (call (ReadFile ca))
                     end);
      load_cas l (loaded || has_certs caData)
  end.
Definition blank : Ascii.ascii := Ascii.ascii_of_nat 32.
Definition loadEndpointCAs (etcdS3EndpointCA : string) : s3P (res unit) := load_cas (split_on blank etcdS3EndpointCA) false.

Definition new_client (c : EtcdS3) : s3P (res EtcdS3) :=
  if decide (Bucket c = "") then Ret (Err (Plain "s3 bucket name was not set"))
  else
    try _u <- (if SkipSSLVerify c || bool_decide (EndpointCA c = "") then Ret (Ok tt) else loadEndpointCAs (EndpointCA c));
    if bool_decide (Proxy c <> "" /\ Proxy c <> "none") && negb (valid_proxy (Proxy c))
    then Ret (Err (Plain "proxy URL must include scheme and host"))
    else
      try _u <- call (NewMinio c);
      try exists_ <- call (BucketExists (Bucket c));
      if exists_ : bool then do! call (CacheClient c); Ret (Ok c) else Ret (Err (Plain "bucket does not exist")).

(** [GetClient]: the configuration in force, for which a client is there. *)
Definition GetClient (etcdS3 : option EtcdS3) : s3P (res EtcdS3) :=
  match etcdS3 with
  | None => Ret (Err (Plain "nil s3 configuration"))
  | Some c =>
      let isDefault := bool_decide (c = defaultEtcdS3 (ConfigSecret c)) in
      try c <- (if isDefault then
                  if decide (ConfigSecret c = "") then Ret (Err (Plain "s3 configuration was not set"))
                  else getConfigFromSecret (ConfigSecret c)
                else Ret (Ok c));
      do cached <- call (CachedClient c);
      if cached : bool then Ret (Ok c) else new_client c
  end.

End config.

(** ** Transfers *)

Section client.
Context (ctl : S3Controller) (c : EtcdS3).

Definition user_metadata : gmap string string :=
  {[clusterIDKey := s3_clusterID ctl; nodeNameKey := s3_nodeName ctl; tokenHashKey := s3_tokenHash ctl]}.

Definition uploadSnapshot (key path : string) : s3P (res Z) :=
  call (FPutObject (Bucket c) key path
    (if has_suffix CompressedExtension key then "application/zip" else "application/octet-stream") user_metadata).

(** Size 0 when there is no metadata file. *)
Definition uploadSnapshotMetadata (key path : string) : s3P (res Z) :=
  do st <- s3os (call (Stat path));
  match st with
  | Err e => Ret (if decide (e = not_exist) then Ok 0 else Err e)
  | Ok _ => call (FPutObject (Bucket c) key path "application/json" user_metadata)
  end.

(** The record of the upload, also of a failed one. *)
Definition Upload (error_text : error -> string) (snapshotPath : string) (extraMetadata : option (gmap string string)) (now : Z)
    : s3P (File * res unit) :=
  let basename := path_Base snapshotPath in
  let metadata := path_Join [path_Dir snapshotPath; ".."; MetadataDir; basename] in
  let snapshotKey := path_Join [Folder c; basename] in
  let metadataKey := path_Join [Folder c; MetadataDir; basename] in
  do up <- uploadSnapshot snapshotKey snapshotPath;
  do _m <- uploadSnapshotMetadata metadataKey metadata;
  let sf message size status hash :=
    mkSnap basename ("s3://" +:+ Bucket c +:+ "/" +:+ snapshotKey) "" message "s3" (Some now) size status (Some c)
      (has_suffix CompressedExtension snapshotPath) extraMetadata (s3_nodeName ctl) hash in
  Ret (match up with
       | Ok size => (sf "" size SuccessfulStatus (s3_tokenHash ctl), Ok tt)
       | Err e => (sf (encode_text (error_text e)) 0 FailedStatus "", Err e)
       end).

(** [Download]; the mode of the files is set whatever happens. *)
Definition Download (snapshotName snapshotDir : string) : s3P (res string) :=
  let snapshotFile := path_Join [snapshotDir; snapshotName] in
  let metadataFile := path_Join [snapshotDir; ".."; MetadataDir; snapshotName] in
  do s <- call (FGetObject (Bucket c) (path_Join [Folder c; snapshotName]) snapshotFile);
  do _m <- s3os (call (Chmod snapshotFile));
  match s with
  | Err e => Ret (Err e)
  | Ok _ =>
      do m <- call (FGetObject (Bucket c) (path_Join [Folder c; MetadataDir; snapshotName]) metadataFile);
      do _m <- s3os (call (Chmod metadataFile));
      Ret (match m with
           | Err e => if decide (e = s3_not_found) then Ok snapshotFile else Err e
           | Ok _ => Ok snapshotFile
           end)
  end.

(** ** Deletion and retention *)

Definition DeleteSnapshot (name : string) : s3P (res unit) :=
  let key := path_Join [Folder c; name] in
  do st <- call (StatObject (Bucket c) key);
  try _u <- (if is_ok st then call (RemoveObject (Bucket c) key) else Ret (Ok tt));
  let metadataKey := path_Join [path_Dir key; MetadataDir; path_Base key] in
  do mst <- call (StatObject (Bucket c) metadataKey);
  try _u <- (if is_ok mst then call (RemoveObject (Bucket c) metadataKey) else Ret (Ok tt));
  Ret (match st with Ok _ => Ok tt | Err e => Err e end).

Definition is_metadata (o : S3Object) : bool := bool_decide (path_Base (path_Dir (so_Key o)) = MetadataDir).

(** The names deleted, and the error that stopped it. *)
Fixpoint delete_all (l : list S3Object) (deleted : list string) : s3P (list string * option error) :=
  match l with
  | [] => Ret (deleted, None)
  | df :: l =>
      let key := path_Base (so_Key df) in
      do r <- DeleteSnapshot key;
      match r with
      | Err e => if IsNotExist e then delete_all l (deleted ++ [key]) else Ret (deleted, Some e)
      | Ok _ => delete_all l (deleted ++ [key])
      end
  end.

Definition s3_retention `{SortSlice} (retention : Z) (prefix : string) : s3P (list string * option error) :=
  if retention <? 1 then Ret ([], None)
  else
    do l <- call (ListObjects (Bucket c) (path_Join [Folder c; prefix]));
    match snd l with
    | Some e => Ret ([], Some e)
    | None =>
        let snapshotFiles := filter (fun o => is_metadata o = false) (fst l) in
        if Z.of_nat (length snapshotFiles) <=? retention then Ret ([], None)
        else delete_all (drop (Z.to_nat retention) (newest_first so_LastModified snapshotFiles)) []
    end.

(** ** Listing *)

Definition dash : Ascii.ascii := Ascii.ascii_of_nat 45.

(** The name without the extension, and whether it had one. *)
Fixpoint cut_suffix (suffix s : string) : option string :=
  if decide (s = suffix) then Some ""
  else match s with
       | EmptyString => None
       | String a r => String a <$> cut_suffix suffix r
       end.
Definition cut_extension (name : string) : string * bool :=
  match cut_suffix CompressedExtension name with Some b => (b, true) | None => (name, false) end.

(** The time in the name, if there is one, or else the given one. *)
Definition snapshot_time (basename : string) (modified : Z) : Z :=
  (match ParseInt (default "" (last (split_on dash basename))) with
   | Some ts => ts
   | None => modified / second
   end * second)%Z.

Definition s3_file (obj : S3Object) : File :=
  let filename := path_Base (so_Key obj) in
  let '(basename, compressed) := cut_extension filename in
  mkSnap filename ("s3://" +:+ Bucket c +:+ "/" +:+ so_Key obj) "" "" "s3"
    (Some (snapshot_time basename (so_LastModified obj))) (so_Size obj) SuccessfulStatus (Some c) compressed None
    (default "" (so_meta obj !! nodeNameKey)) (default "" (so_meta obj !! tokenHashKey)).

Fixpoint collect_objects (l : list S3Object) (snapshots : gmap string File) (metadatas : list string)
    : s3P (gmap string File * list string) :=
  match l with
  | [] => Ret (snapshots, metadatas)
  | obj :: l =>
      if so_Size obj =? 0 then collect_objects l snapshots metadatas
      else
        do st <- call (StatObject (Bucket c) (so_Key obj));
        let obj := match st with Ok o => o | Err _ => obj end in
        if is_metadata obj then collect_objects l snapshots (metadatas ++ [so_Key obj])
        else let sf := s3_file obj in collect_objects l (<[GenerateConfigMapKey sf := sf]> snapshots) metadatas
  end.

Definition with_metadata (m : string) (sf : File) : File :=
  mkSnap (sf_Name sf) (sf_Location sf) m (sf_Message sf) (sf_NodeName sf) (sf_CreatedAt sf) (sf_Size sf) (sf_Status sf)
    (sf_S3 sf) (sf_Compressed sf) (sf_MetadataSource sf) (sf_NodeSource sf) (sf_TokenHash sf).

Fixpoint load_metadatas (l : list string) (snapshots : gmap string File) : s3P (gmap string File) :=
  match l with
  | [] => Ret snapshots
  | key :: l =>
      let sfKey := "s3-" +:+ replace_invalid (path_Base key) in
      match snapshots !! sfKey with
      | None => load_metadatas l snapshots
      | Some sf =>
          do m <- call (ReadObject (Bucket c) key);
          match m with
          | Err _ => load_metadatas l snapshots
          | Ok m => load_metadatas l (<[sfKey := with_metadata (encode_text m) sf]> snapshots)
          end
      end
  end.

Definition s3_list : s3P (res (gmap string File)) :=
  do l <- call (ListObjects (Bucket c) (Folder c));
  do found <- collect_objects (fst l) ∅ [];
  match snd l with
  | Some e => Ret (Err e)
  | None => do snapshots <- load_metadatas (snd found) (fst found); Ret (Ok snapshots)
  end.

End client.
