(* ===== verification/EtcdSnapshot.v ===== *)
(** * Snapshots of the embedded etcd

    [pkg/etcd/snapshot.go], [snapshot_controller.go] and
    [snapshot_handler.go]: taking, listing, pruning and deleting snapshots on
    disk and in S3, and keeping their records - the [ETCDSnapshotFile]
    resources and the entries of the legacy config map - in line with what is
    there. *)
From Stdlib Require Import ZArith Lia.
From S2P Require Import Prelude GoText GoTime SessionEnv Prog Os Signed JoinToken SnapshotFile S3Store.

#[local] Open Scope Z_scope.

(** ** Effects *)

(** A file that [filepath.Walk] visits. *)
Record WalkFile := mkWalk { wf_path : string; wf_Name : string; wf_Size : Z; wf_ModTime : Z }.

(** A walk goes through, stops at a directory that cannot be read, or at a
    file without information, which the callback is given as nil. *)
Inductive walked := Walked (l : list WalkFile) | WalkError (e : error) | WalkNil (e : error).

Record SNode := mkSNode { sn_Name : string; sn_Annotations : gmap string string }.

(** The config map; [None] for a creation time that is zero. *)
Record ConfigMap := mkConfigMap { cm_Created : option Z; cm_rv : Z; cm_Data : gmap string string }.

Inductive event := SnapshotDeleted | SnapshotFailed | SnapshotCreated.

Inductive snE : Type -> Type :=
  | SnOs {X} (e : osE X) : snE X
  | SnS3 {X} (e : s3E X) : snE X
  | StatDir (p : string) : snE (res bool)
  | Walk (p : string) : snE walked
  | FileSize (p : string) : snE (res Z)
  | Zip (src dst name : string) (modified : Z) : snE (res unit)
  | EtcdIsLearner : snE (res bool)
  | SaveWithVersion (p : string) : snE (res unit)
  | ClientConfig : snE (res unit)
  | TryLock : snE bool
  | Unlock : snE unit
  | ExtraMetadata : snE (option (gmap string string))
  | S3Start : snE (res S3Controller)
  | GetESF (name : string) : snE (res ESF)
  | CreateESF (e : ESF) : snE (res ESF)
  | UpdateESF (e : ESF) : snE (res unit)
  | DeleteESF (name : string) : snE (res unit)
  | ListESF (sel : option string -> bool) : snE (res (list ESF))
  | GetCM : snE (res ConfigMap)
  | CreateCM (c : ConfigMap) : snE (res ConfigMap)
  | UpdateCM (c : ConfigMap) : snE (res ConfigMap)
  | EtcdNodes : snE (res (list SNode))
  | PatchNode (name : string) (annotations : list (string * string)) : snE (res unit)
  | EmitEvent (what : event) (name : string) : snE unit
  | Requeue : snE unit.

Abbreviation snP := (prog snE).

Definition snos {A} (p : osP A) : snP A := trans (fun X e => SnOs e) p.
Definition sns3 {A} (p : s3P A) : snP A := trans (fun X e => SnS3 e) p.

Definition errorTTL : Z := 24 * hour.
Definition s3ReconcileTTL : Z := minute.
Definition annotationLocalReconciled : string := "etcd.k8e.sh/local-snapshots-timestamp".
Definition annotationS3Reconciled : string := "etcd.k8e.sh/s3-snapshots-timestamp".

(** The part of the configuration that snapshots use. *)
Record SnControl := mkSnControl {
  sc_DataDir : string; sc_SnapshotDir : string; sc_SnapshotName : string; sc_Retention : Z; sc_Compress : bool;
  sc_S3 : option EtcdS3; sc_DisableAgent : bool; sc_Token : string; sc_ServerToken : string; sc_ServerCA : string;
  sc_NODE_NAME : string; sc_events : bool;
}.

Record SnapshotResult := mkResult { Created : list string; Deleted : list string }.

Section snapshot.
Context `{BT : BootstrapTokens, XC : X509, MJ : MetaJSON, DN : DNS1123, SS : SortSlice, MO : MapOrder}.
Context (ParseDuration : string -> option Z) (valid_proxy has_certs : string -> bool).
Context (error_text : error -> string).
Implicit Types cfg : SnControl.

(** ** Directories and records *)

Definition snapshotDir cfg (create : bool) : snP (res string) :=
  let defaultSnapshotDir := path_Join [sc_DataDir cfg; "db"; "snapshots"] in
  let dir := if decide (sc_SnapshotDir cfg = "") then defaultSnapshotDir else sc_SnapshotDir cfg in
  let create := create && bool_decide (dir = defaultSnapshotDir) in
  do s <- call (StatDir dir);
  match s with
  | Err e =>
      if decide (e = not_exist /\ create = true)
      then try _u <- snos (call (MkdirAll dir)); Ret (Ok dir)
      else Ret (Err e)
  | Ok isDir => Ret (if isDir : bool then Ok dir else Err (Plain "is not a directory"))
  end.

Definition emitEvent cfg (esf : ESF) : snP unit :=
  if negb (sc_events cfg) then Ret tt
  else
    let what := match esf_Deleted esf with
                | Some _ => SnapshotDeleted
                | None => match esf_Error esf with Some _ => SnapshotFailed | None => SnapshotCreated end
                end in
    call (EmitEvent what (esf_SnapshotName esf)).

(** One attempt of [addSnapshotData], and the attempts of
    [snapshotDataBackoff]. *)
Definition add_once cfg (sf : File) (esfName : string) : snP (res unit) :=
  do got <- call (GetESF esfName);
  let put (esf : ESF) : snP (res unit) :=
    let new := ToETCDSnapshotFile sf esf in
    match esf_Created esf with
    | None =>
        do created <- call (CreateESF new);
        match created with
        | Ok e => do! emitEvent cfg e; Ret (Ok tt)
        | Err e => Ret (Err e)
        end
    | Some _ => if decide (esf = new) then Ret (Ok tt) else call (UpdateESF new)
    end in
  match got with
  | Ok esf => put esf
  | Err e => if is_not_found e then put (new_esf esfName) else Ret (Err e)
  end.

Fixpoint retry_on (again : error -> bool) (steps : nat) (p : snP (res unit)) : snP (res unit) :=
  match steps with
  | O => Ret (Ok tt)
  | S steps =>
      do r <- p;
      match r with
      | Err e => if again e && (1 <=? Z.of_nat steps) then retry_on again steps p else Ret (Err e)
      | Ok _ => Ret (Ok tt)
      end
  end.

Definition snapshotDataSteps : nat := 9.

Definition addSnapshotData cfg (sf : File) : snP (res unit) :=
  match GenerateName sf with
  | None => Panic "nil pointer dereference"
  | Some esfName =>
      retry_on (fun e => bool_decide (e = Api RConflict \/ e = Api RAlreadyExists)) snapshotDataSteps (add_once cfg sf esfName)
  end.

Definition metadata_path (dir name : string) : string := path_Join [dir; ".."; MetadataDir; name].

Definition saveSnapshotMetadata (snapshotPath : string) (extraMetadata : option (gmap string string)) : snP (res unit) :=
  match extraMetadata with
  | None => Ret (Ok tt)
  | Some data =>
      if decide (data = ∅) then Ret (Ok tt)
      else
        let dir := path_Join [path_Dir snapshotPath; ".."; MetadataDir] in
        try _u <- snos (call (MkdirAll dir));
        snos (WriteFile (path_Join [dir; path_Base snapshotPath]) (meta_marshal data))
  end.

(** ** Retention on disk *)

Definition matches (prefix : string) (f : WalkFile) : bool := has_prefix (wf_Name f) prefix.

Definition created_at (f : WalkFile) : Z := snapshot_time (cut_extension (wf_Name f)).1 (wf_ModTime f).

Fixpoint remove_all (dir : string) (l : list WalkFile) (deleted : list string) : snP (list string * option error) :=
  match l with
  | [] => Ret (deleted, None)
  | df :: l =>
      do r <- snos (call (Remove (path_Join [dir; wf_Name df])));
      match r with
      | Err e => Ret (deleted, Some e)
      | Ok _ =>
          do m <- snos (call (Remove (metadata_path dir (wf_Name df))));
          match m with
          | Err e => if decide (e = not_exist) then remove_all dir l (deleted ++ [wf_Name df]) else Ret (deleted, Some e)
          | Ok _ => remove_all dir l (deleted ++ [wf_Name df])
          end
      end
  end.

Definition snapshotRetention (retention : Z) (snapshotPrefix dir : string) : snP (list string * option error) :=
  if retention <? 1 then Ret ([], None)
  else
    do w <- call (Walk dir);
    match w with
    | WalkNil _ => Panic "nil pointer dereference"
    | WalkError e => Ret ([], Some e)
    | Walked files =>
        let snapshotFiles := filter (fun f => matches snapshotPrefix f = true) files in
        if Z.of_nat (length snapshotFiles) <=? retention then Ret ([], None)
        else remove_all dir (drop (Z.to_nat retention) (newest_first created_at snapshotFiles)) []
    end.

(** ** Listing *)

Definition local_file cfg (dir : string) (f : WalkFile) (metadata : string) : File :=
  let '(basename, compressed) := cut_extension (wf_Name f) in
  mkSnap (wf_Name f) ("file://" +:+ path_Join [dir; wf_Name f]) metadata "" (sc_NODE_NAME cfg)
    (Some (snapshot_time basename (wf_ModTime f))) (wf_Size f) SuccessfulStatus None compressed None "" "".

Fixpoint list_files cfg (dir : string) (l : list WalkFile) (snapshots : gmap string File) : snP (gmap string File) :=
  match l with
  | [] => Ret snapshots
  | f :: l =>
      do m <- snos (call (ReadFile (path_Join [path_Dir (wf_path f); ".."; MetadataDir; wf_Name f])));
      let sf := local_file cfg dir f (match m with Ok m => encode_text m | Err _ => "" end) in
      list_files cfg dir l (<[GenerateConfigMapKey sf := sf]> snapshots)
  end.

(** What was read before the walk stopped is dropped with the error. *)
Definition listLocalSnapshots cfg : snP (res (gmap string File)) :=
  try dir <- snapshotDir cfg true;
  do w <- call (Walk dir);
  match w with
  | Walked files => do m <- list_files cfg dir files ∅; Ret (Ok m)
  | WalkError e | WalkNil e => Ret (Err e)
  end.

Definition getS3Client cfg : snP (res (S3Controller * EtcdS3)) :=
  try ctl <- call S3Start;
  try c <- sns3 (GetClient ParseDuration valid_proxy has_certs (sc_S3 cfg));
  Ret (Ok (ctl, c)).

(** [ListSnapshots]: the records, local ones last. *)
Definition ListSnapshots cfg : snP (res (list ESF)) :=
  let records (m : gmap string File) := (fun x => ToETCDSnapshotFile x.2 (new_esf x.1)) <$> iter m in
  try remote <- (match sc_S3 cfg with
                 | None => Ret (Ok [])
                 | Some _ =>
                     do client <- getS3Client cfg;
                     match client with
                     | Err e => Ret (if decide (e = no_config_secret) then Ok [] else Err e)
                     | Ok (_, c) => try m <- sns3 (s3_list c); Ret (Ok (records m))
                     end
                 end);
  try sfs <- listLocalSnapshots cfg;
  Ret (Ok (remote ++ records sfs)).

(** ** Reconciliation with the resources *)

(** Entries of the legacy config map give metadata to files without. *)
Definition legacy_metadata (unmarshal : string -> option string) (cm : gmap string string) (key : string) (sf : File) : File :=
  match cm !! key with
  | None => sf
  | Some v =>
      if decide (v <> "" /\ sf_Metadata sf = "" /\ sf_MetadataSource sf = None)
      then match unmarshal v with Some m => with_metadata m sf | None => sf end
      else sf
  end.

(** The metadata field of a marshalled [File]. *)
Context (file_metadata : string -> option string).

(** [collectSnapshotData]: the files by key and the storages they are on. *)
Definition collectSnapshotData cfg : snP (res (gmap string File * list string)) :=
  try files <- listLocalSnapshots cfg;
  try found <- (match sc_S3 cfg with
                | None => Ret (Ok (files, [sc_NODE_NAME cfg]))
                | Some _ =>
                    do client <- getS3Client cfg;
                    match client with
                    | Err e => Ret (if decide (e = no_config_secret) then Ok (files, [sc_NODE_NAME cfg]) else Err e)
                    | Ok (_, c) =>
                        do remote <- sns3 (s3_list c);
                        Ret (Ok (match remote with
                                 | Err _ => (files, [sc_NODE_NAME cfg])
                                 | Ok m => (m ∪ files, [sc_NODE_NAME cfg; "s3"])
                                 end))
                    end
                end);
  do cm <- call GetCM;
  match cm with
  | Err e => Ret (if is_not_found e then Ok found else Err e)
  | Ok cm => Ret (Ok (map_imap (fun k sf => Some (legacy_metadata file_metadata (cm_Data cm) k sf)) (fst found), snd found))
  end.

Definition retainMissingETCDSnapshotFile (esf : ESF) (res : option SnapshotResult) (now : Z) : bool :=
  if match res with Some r => bool_decide (esf_SnapshotName esf ∈ Deleted r) | None => false end then false
  else
    (match esf_Error esf with Some (Some t, _) => now <? t + errorTTL | _ => false end) ||
    (match esf_S3 esf with Some _ => now <? default 0 (esf_Created esf) + s3ReconcileTTL | None => false end).

(** [syncSnapshotFile]: the files that remain to be recorded. *)
Definition syncSnapshotFile (res : option SnapshotResult) (now : Z) (snapshotFiles : gmap string File) (esf : ESF)
    : snP (gmap string File) :=
  let sfKey := esf_key esf in
  let stale := if retainMissingETCDSnapshotFile esf res now then Ret snapshotFiles
               else do _r <- call (DeleteESF (esf_Name esf)); Ret snapshotFiles in
  match snapshotFiles !! sfKey with
  | None => stale
  | Some sf =>
      match GenerateName sf with
      | None => Panic "nil pointer dereference"
      | Some name => if decide (name = esf_Name esf) then Ret (delete sfKey snapshotFiles) else stale
      end
  end.

Fixpoint sync_each (res : option SnapshotResult) (now : Z) (l : list ESF) (snapshotFiles : gmap string File)
    : snP (gmap string File) :=
  match l with
  | [] => Ret snapshotFiles
  | esf :: l => do m <- syncSnapshotFile res now snapshotFiles esf; sync_each res now l m
  end.

Definition createMissingSnapshotFiles cfg (snapshotFiles : gmap string File) : snP unit :=
  for_each (iter snapshotFiles) (fun x => do _r <- addSnapshotData cfg x.2; Ret tt).

Definition pruneOrphanedSnapshots (sel : option string -> bool) : snP (res unit) :=
  try l <- call (ListESF sel);
  do! for_each l (fun esf => do _r <- call (DeleteESF (esf_Name esf)); Ret tt);
  Ret (Ok tt).

(** The selector [In] on the label of the storage; [NotIn], its negation, also
    takes what has no label. *)
Definition stored_in (storages : list string) (label : option string) : bool :=
  match label with Some node => bool_decide (node ∈ storages) | None => false end.

(** [now.Round(time.Second)] *)
Definition round_second (t : Z) : Z := (t + second / 2) / second * second.

Definition buildReconcileAnnotationPatch (now : Z) (hasS3 : bool) : list (string * string) :=
  let stamp := format_rfc3339 (now / second) in
  (annotationLocalReconciled, stamp) :: (if hasS3 then [(annotationS3Reconciled, stamp)] else []).

Definition reconcileSnapshotData cfg (res : option SnapshotResult) : snP (Prelude.res unit) :=
  try found <- collectSnapshotData cfg;
  let '(snapshotFiles, nodeNames) := found in
  do now <- snos (call Now);
  let now := round_second now in
  try l <- call (ListESF (stored_in nodeNames));
  do missing <- sync_each res now l snapshotFiles;
  do! createMissingSnapshotFiles cfg missing;
  if sc_DisableAgent cfg then Ret (Ok tt)
  else
    try nodes <- call EtcdNodes;
    try _u <- pruneOrphanedSnapshots (fun l => negb (stored_in ("s3" :: (sn_Name <$> (nodes : list SNode))) l));
    call (PatchNode (default "" (head nodeNames)) (buildReconcileAnnotationPatch now (bool_decide (is_Some (sc_S3 cfg))))).

(** ** Taking a snapshot *)

(** [compressSnapshot]; a failure but in the copy removes the archive. *)
Definition compressSnapshot (dir name : string) (now : Z) : snP (res string) :=
  let zipPath := path_Join [dir; name +:+ CompressedExtension] in
  try _u <- snos (call (Create zipPath));
  try _u <- call (Zip (path_Join [dir; name]) zipPath name now);
  Ret (Ok zipPath).

Definition handleS3Snapshot cfg (snapshotPath name : string) (extraMetadata : option (gmap string string)) (now : Z)
    (r : SnapshotResult) : snP SnapshotResult :=
  do client <- getS3Client cfg;
  match client with
  | Err e =>
      if decide (e = no_config_secret) then Ret r
      else
        do _r <- addSnapshotData cfg (mkSnap name "" "" (encode_text ("failed to initialize S3 client: " +:+ error_text e)) "s3"
                   (Some now) 0 FailedStatus (sc_S3 cfg) false extraMetadata "" "");
        Ret r
  | Ok (ctl, c) =>
      do up <- sns3 (Upload ctl c error_text snapshotPath extraMetadata now);
      let r := if is_ok (snd up) then mkResult (Created r ++ [sf_Name (fst up)]) (Deleted r) else r in
      do pruned <- sns3 (s3_retention c (sc_Retention cfg) (sc_SnapshotName cfg));
      let r := mkResult (Created r) (Deleted r ++ fst pruned) in
      do _r <- addSnapshotData cfg (fst up);
      Ret r
  end.

Definition handleSuccessfulLocalSnapshot cfg (dir name path : string) (extraMetadata : option (gmap string string))
    (tokenHash : string) (now : Z) : snP (Prelude.res SnapshotResult) :=
  try path <- (if sc_Compress cfg then
                 do zipPath <- compressSnapshot dir name now;
                 do _r <- snos (call (Remove path));
                 Ret zipPath
               else Ret (Ok path));
  try size <- call (FileSize path);
  let sf := mkSnap (path_Base path) ("file://" +:+ path) "" "" (sc_NODE_NAME cfg) (Some now) size SuccessfulStatus None
              (sc_Compress cfg) extraMetadata "" tokenHash in
  do _m <- saveSnapshotMetadata path extraMetadata;
  do _r <- addSnapshotData cfg sf;
  do pruned <- snapshotRetention (sc_Retention cfg) (sc_SnapshotName cfg) dir;
  let r := mkResult [sf_Name sf] (fst pruned) in
  match sc_S3 cfg with
  | None => Ret (Ok r)
  | Some _ => do r <- handleS3Snapshot cfg path (sf_Name sf) extraMetadata now r; Ret (Ok r)
  end.

(** The result, if the snapshot was not refused, and the error. *)
Definition take_snapshot cfg : snP (option SnapshotResult * Prelude.res unit) :=
  let fail e := Ret (None, Err e) in
  do extraMetadata <- call ExtraMetadata;
  do learner <- call EtcdIsLearner;
  match learner with
  | Err e => fail e
  | Ok true => Ret (None, Ok tt)
  | Ok false =>
      do dir <- snapshotDir cfg true;
      do client <- (match dir with Err _ => Ret (Ok tt) | Ok _ => call ClientConfig end);
      do tokenHash <- (match dir, client with
                       | Ok _, Ok _ => snos (GetTokenHash (sc_Token cfg) (sc_ServerToken cfg) (sc_ServerCA cfg) (sc_DataDir cfg))
                       | _, _ => Ret (Ok "")
                       end);
      match dir, client, tokenHash with
      | Err e, _, _ => fail e
      | _, Err e, _ => fail e
      | _, _, Err e => fail e
      | Ok dir, Ok _, Ok tokenHash =>
          do now <- snos (call Now);
          let now := round_second now in
          let name := sc_SnapshotName cfg +:+ "-" +:+ sc_NODE_NAME cfg +:+ "-" +:+ itoa (now / second) in
          let path := path_Join [dir; name] in
          do saved <- call (SaveWithVersion path);
          do done <- (match saved with
                      | Err e =>
                          try _u <- addSnapshotData cfg (mkSnap name "" "" (encode_text (error_text e)) (sc_NODE_NAME cfg)
                                      (Some now) 0 FailedStatus None false extraMetadata "" "");
                          Ret (Ok (mkResult [] []))
                      | Ok _ => handleSuccessfulLocalSnapshot cfg dir name path extraMetadata tokenHash now
                      end);
          match done with
          | Err e => fail e
          | Ok r => do err <- reconcileSnapshotData cfg (Some r); Ret (Some r, err)
          end
      end
  end.

Definition Snapshot cfg : snP (option SnapshotResult * Prelude.res unit) :=
  do locked <- call TryLock;
  if locked : bool then do r <- take_snapshot cfg; do! call Unlock; Ret r
  else Ret (None, Err (Plain "snapshot save already in progress")).

(** ** Pruning and deleting on request *)

Definition PruneSnapshots cfg : snP (option SnapshotResult * Prelude.res unit) :=
  do dir <- snapshotDir cfg false;
  match dir with
  | Err e => Ret (None, Err e)
  | Ok dir =>
      do pruned <- snapshotRetention (sc_Retention cfg) (sc_SnapshotName cfg) dir;
      do remote <- (match sc_S3 cfg with
                    | None => Ret []
                    | Some _ =>
                        do client <- getS3Client cfg;
                        match client with
                        | Err _ => Ret []
                        | Ok (_, c) => do d <- sns3 (s3_retention c (sc_Retention cfg) (sc_SnapshotName cfg)); Ret (fst d)
                        end
                    end);
      let r := mkResult [] (fst pruned ++ remote) in
      do err <- reconcileSnapshotData cfg (Some r);
      Ret (Some r, err)
  end.

(** The error of the removal of the metadata is dropped: the condition looks at
    the other one. *)
Definition deleteSnapshot (path : string) : snP (Prelude.res unit) :=
  do r <- snos (call (Remove path));
  match r with
  | Err e =>
      if decide (e = not_exist)
      then do _m <- snos (call (Remove (path_Join [path_Dir path; ".."; MetadataDir; path_Base path]))); Ret (Err e)
      else Ret (Err e)
  | Ok _ => do _m <- snos (call (Remove (path_Join [path_Dir path; ".."; MetadataDir; path_Base path]))); Ret (Ok tt)
  end.

Fixpoint delete_each (dir : string) (client : option EtcdS3) (l : list string) (deleted : list string) : snP (list string) :=
  match l with
  | [] => Ret deleted
  | s :: l =>
      do here <- deleteSnapshot (path_Join [dir; s]);
      let deleted := if is_ok here then deleted ++ [s] else deleted in
      do there <- (match client with None => Ret false | Some c => do r <- sns3 (DeleteSnapshot c s); Ret (is_ok r) end);
      delete_each dir client l (if there : bool then deleted ++ [s] else deleted)
  end.

Definition DeleteSnapshots cfg (snapshots : list string) : snP (option SnapshotResult * Prelude.res unit) :=
  do dir <- snapshotDir cfg false;
  match dir with
  | Err e => Ret (None, Err e)
  | Ok dir =>
      do client <- (match sc_S3 cfg with
                    | None => Ret (Ok None)
                    | Some _ =>
                        do client <- getS3Client cfg;
                        Ret (match client with
                             | Err e => if decide (e = no_config_secret) then Ok None else Err e
                             | Ok (_, c) => Ok (Some c)
                             end)
                    end);
      match client with
      | Err e => Ret (None, Err e)
      | Ok client =>
          do deleted <- delete_each dir client snapshots [];
          let r := mkResult [] deleted in
          do err <- reconcileSnapshotData cfg (Some r);
          Ret (Some r, err)
      end
  end.

End snapshot.
