(* ===== verification/SnapshotController.v ===== *)
(** * The snapshot controller and the snapshot requests

    [pkg/etcd/snapshot_controller.go]: the legacy config map of snapshots
    follows the [ETCDSnapshotFile] resources; [snapshot_handler.go]: the
    requests of the command line. *)
From Stdlib Require Import ZArith Lia.
From S2P Require Import Prelude GoText GoTime SessionEnv Prog Os Signed JoinToken SnapshotFile S3Store EtcdSnapshot.

#[local] Open Scope Z_scope.

Definition pruneStepSize : nat := 4.
Definition reconcileKey : string := "_reconcile_".
Definition errNotReconciled : error := Plain "no nodes have reconciled ETCDSnapshotFile resources".

(** The time in an entry's name: 0 when there is none, the largest integer
    when it is too large. *)
Definition entry_time (name : string) : Z :=
  let digits := default "" (last (split_on dash (cut_extension name).1)) in
  match ParseInt digits with
  | Some ts => ts
  | None =>
      let d := trim_prefix digits "+" in
      if bool_decide (d <> "") && all_chars (fun c => bool_decide (is_Some (digit c))) d then 2 ^ 63 - 1 else 0
  end.

Section controller.
Context `{BT : BootstrapTokens, XC : X509, MJ : MetaJSON, DN : DNS1123, SS : SortSlice, MO : MapOrder}.
Context (file_marshal : File -> res string) (isTooLargeError : error -> bool).
Implicit Types cfg : SnControl.

Definition with_data (m : gmap string string) (cm : ConfigMap) : ConfigMap := mkConfigMap (cm_Created cm) (cm_rv cm) m.
Definition empty_cm : ConfigMap := mkConfigMap None 0 ∅.

(** [pruneConfigMap] *)
Definition pruneConfigMap (cm : ConfigMap) (pruneCount : nat) : option ConfigMap :=
  let names := (iter (cm_Data cm)).*1 in
  if (length names <=? pruneCount)%nat then None
  else Some (with_data (foldr delete (cm_Data cm)
         (drop (length names - pruneCount) (newest_first entry_time names))) cm).

(** The config map is written, with fewer entries each time it is too large;
    [keep] is the entry that is being added. *)
Fixpoint put_config_map (steps pruneCount : nat) (keep : option string) (cm : ConfigMap) : snP (res unit) :=
  match steps with
  | O => Ret (Ok tt)
  | S steps =>
      do r <- (match cm_Created cm with None => call (CreateCM cm) | Some _ => call (UpdateCM cm) end);
      match r with
      | Ok _ => Ret (Ok tt)
      | Err e =>
          if isTooLargeError e then
            match pruneConfigMap cm pruneCount with
            | None => Ret (Err (Plain "unable to reduce snapshot ConfigMap size by eliding old snapshots"))
            | Some cm =>
                if match keep with Some k => bool_decide (cm_Data cm !! k = None) | None => false end then Ret (Ok tt)
                else if (steps =? 0)%nat then Ret (Err e)
                else put_config_map steps (pruneCount + pruneStepSize) keep cm
            end
          else Ret (Err e)
      end
  end.

Definition get_config_map : snP (res ConfigMap) :=
  do cm <- call GetCM;
  Ret (match cm with Err e => if is_not_found e then Ok empty_cm else Err e | Ok cm => Ok cm end).

(** ** Reconciliation of the config map *)

(** The node names, and ["s3"], whose storage has been reconciled. *)
Definition synced_storages (nodes : list SNode) : list string :=
  concat ((fun n =>
    (if decide (is_Some (sn_Annotations n !! annotationLocalReconciled)) then [sn_Name n] else []) ++
    (if decide (is_Some (sn_Annotations n !! annotationS3Reconciled)) then ["s3"] else [])) <$> nodes).

(** [strings.TrimRight] *)
Fixpoint trim_right_set (set : list Ascii.ascii) (s : string) : string :=
  match s with
  | EmptyString => ""
  | String c r =>
      match trim_right_set set r with
      | EmptyString => if bool_decide (c ∈ set) then "" else String c ""
      | r => String c r
      end
  end.

(** The digits and the dash as the code lists them. *)
Definition timestamp_chars : list Ascii.ascii := String.list_ascii_of_string "-012345678".

Definition owner (nodes : list SNode) (entry : string) : option SNode :=
  let s := trim_right_set timestamp_chars (cut_extension entry).1 in
  find (fun n => has_suffix (sn_Name n) s) nodes.

Definition keep_entry (nodes : list SNode) (snapshots : gmap string ESF) (key : string) : bool :=
  let gone storage := bool_decide (storage ∈ synced_storages nodes) && bool_decide (snapshots !! key = None) in
  match strip_prefix "s3-" key with
  | Some _ => negb (gone "s3")
  | None =>
      match strip_prefix "local-" key with
      | Some s => match owner nodes s with Some n => negb (gone (sn_Name n)) | None => false end
      | None => true
      end
  end.

(** Resources that are recorded in the config map. *)
Definition recorded_esf (esf : ESF) : bool :=
  bool_decide (esf_Deleted esf = None) && negb (bool_decide (esf_Metadata esf = ∅)).

Definition marshalled (esf : ESF) : res string := file_marshal (FromETCDSnapshotFile esf).

Definition reconciled_data (nodes : list SNode) (snapshots : gmap string ESF) (data : gmap string string) : gmap string string :=
  foldl (fun m x => match marshalled x.2 with Ok text => <[x.1 := text]> m | Err _ => m end)
    (filter (fun x => keep_entry nodes snapshots x.1 = true) data) (iter snapshots).

(** [s3_started]: whether the server has used S3. *)
Definition with_self cfg (s3_started : bool) (nodes : list SNode) : list SNode :=
  if sc_DisableAgent cfg then
    nodes ++ [mkSNode (sc_NODE_NAME cfg)
      (if s3_started then {[annotationLocalReconciled := "true"; annotationS3Reconciled := "true"]}
       else {[annotationLocalReconciled := "true"]})]
  else nodes.

Definition cm_reconcile cfg (s3_started : bool) : snP (res unit) :=
  try nodeList <- call EtcdNodes;
  let nodes := with_self cfg s3_started nodeList in
  if decide (synced_storages nodes = []) then Ret (Err errNotReconciled)
  else
    try l <- call (ListESF (fun _ => true));
    let snapshots : gmap string ESF :=
      foldl (fun m esf => if recorded_esf esf then <[esf_key esf := esf]> m else m) ∅ l in
    try cm <- get_config_map;
    let data := reconciled_data nodes snapshots (cm_Data cm) in
    if decide (data = cm_Data cm) then Ret (Ok tt)
    else put_config_map snapshotDataSteps pruneStepSize None (with_data data cm).

(** ** The handlers of the resources *)

(** [sync]: the record of a resource with metadata enters the config map. *)
Definition cm_sync cfg (s3_started : bool) (key : string) (esf : option ESF) : snP (res unit) :=
  if decide (key = reconcileKey) then
    do r <- cm_reconcile cfg s3_started;
    match r with
    | Err e => if decide (e = errNotReconciled) then do! call Requeue; Ret (Ok tt) else Ret (Err e)
    | Ok _ => Ret (Ok tt)
    end
  else
    match esf with
    | None => Ret (Ok tt)
    | Some esf =>
        if negb (recorded_esf esf) then Ret (Ok tt)
        else
          let sfKey := GenerateConfigMapKey (FromETCDSnapshotFile esf) in
          match marshalled esf with
          | Err e => Ret (Err e)
          | Ok text =>
              try cm <- get_config_map;
              if decide (default "" (cm_Data cm !! sfKey) = text) then Ret (Ok tt)
              else put_config_map snapshotDataSteps pruneStepSize (Some sfKey) (with_data (<[sfKey := text]> (cm_Data cm)) cm)
          end
    end.

Definition cm_onRemove cfg (esf : option ESF) : snP (res unit) :=
  match esf with
  | None => Ret (Ok tt)
  | Some esf =>
      do cm <- call GetCM;
      match cm with
      | Err e => Ret (if is_not_found e then Ok tt else Err e)
      | Ok cm =>
          let sfKey := esf_key esf in
          try _u <- (if decide (is_Some (cm_Data cm !! sfKey))
                     then do r <- call (UpdateCM (with_data (delete sfKey (cm_Data cm)) cm));
                          Ret (match r with Ok _ => Ok tt | Err e => Err e end)
                     else Ret (Ok tt));
          do! emitEvent cfg esf; Ret (Ok tt)
      end
  end.

End controller.

(** ** Requests *)

Inductive SnapshotOperation := OpSave | OpList | OpPrune | OpDelete | OpOther.

Record SnapshotRequest := mkSnapshotRequest {
  sr_Operation : SnapshotOperation; sr_Name : list string; sr_Dir : option string; sr_Compress : option bool;
  sr_Retention : option Z; sr_S3 : option EtcdS3;
}.

(** [withRequest]: the configuration of a request; what is not copied is
    empty. *)
Definition withRequest (cfg : SnControl) (sr : SnapshotRequest) : SnControl :=
  mkSnControl (sc_DataDir cfg) (default "" (sr_Dir sr)) (default (sc_SnapshotName cfg) (head (sr_Name sr)))
    (default (sc_Retention cfg) (sr_Retention sr)) (default (sc_Compress cfg) (sr_Compress sr)) (sr_S3 sr)
    false "" (sc_ServerToken cfg) (sc_ServerCA cfg) (sc_NODE_NAME cfg) (sc_events cfg).

Inductive snapshot_reply := SendList (l : list ESF) | SendResult (r : SnapshotResult) | SendError (status : Z).

Section requests.
Context `{BT : BootstrapTokens, XC : X509, MJ : MetaJSON, DN : DNS1123, SS : SortSlice, MO : MapOrder}.
Context (ParseDuration : string -> option Z) (valid_proxy has_certs : string -> bool) (error_text : error -> string)
  (file_metadata : string -> option string).
Implicit Types cfg : SnControl.

Definition with_s3 cfg (k : snP snapshot_reply) : snP snapshot_reply :=
  match sc_S3 cfg with
  | None => k
  | Some _ =>
      do client <- getS3Client ParseDuration valid_proxy has_certs cfg;
      match client with Err _ => Ret (SendError 400) | Ok _ => k end
  end.

Definition reply_result (p : snP (option SnapshotResult * res unit)) : snP snapshot_reply :=
  do r <- p; Ret (match fst r with None => SendError 500 | Some r => SendResult r end).

(** The handler; a request that is not understood is answered, and then used
    all the same. *)
Definition snapshotHandler cfg (req : option SnapshotRequest) : snP snapshot_reply :=
  match req with
  | None => Panic "nil pointer dereference"
  | Some sr =>
      let cfg := withRequest cfg sr in
      match sr_Operation sr with
      | OpList =>
          with_s3 cfg (do l <- ListSnapshots ParseDuration valid_proxy has_certs cfg;
                       Ret (match l with Ok l => SendList l | Err _ => SendError 500 end))
      | OpSave => with_s3 cfg (reply_result (Snapshot ParseDuration valid_proxy has_certs error_text file_metadata cfg))
      | OpPrune => with_s3 cfg (reply_result (PruneSnapshots ParseDuration valid_proxy has_certs file_metadata cfg))
      | OpDelete => with_s3 cfg (reply_result (DeleteSnapshots ParseDuration valid_proxy has_certs file_metadata cfg (sr_Name sr)))
      | OpOther => Ret (SendError 400)
      end
  end.

End requests.
