(* ===== verification/SnapshotLaws.v ===== *)
(** * Properties of the snapshots

    What the retention removes, against a disk that may refuse any call; what
    reconciliation leaves of the records. *)
From Stdlib Require Import ZArith Lia.
From S2P Require Import Prelude GoText GoTime SessionEnv Prog Os Signed JoinToken SnapshotFile S3Store EtcdSnapshot.

#[local] Open Scope Z_scope.

(** ** The disk *)

Definition under (dir p : string) : bool := has_prefix p (dir +:+ "/").

(** What a walk that goes through visits. *)
Definition lists (dir : string) (m : fs) (files : list WalkFile) : Prop :=
  NoDup (wf_path <$> files) /\
  (forall f, f ∈ files -> under dir (wf_path f) = true /\ wf_Name f = path_Base (wf_path f) /\
    exists g, m !! wf_path f = Some g /\ f_mtime g = wf_ModTime f) /\
  (forall p, is_Some (m !! p) -> under dir p = true -> p ∈ wf_path <$> files).

(** A removal reports a missing file only if the file is missing. *)
Definition honest {X} (e : osE X) (m : fs) (x : X) : Prop :=
  match e in osE X return X -> Prop with
  | Remove p => fun r => r = Err not_exist -> m !! p = None
  | _ => fun _ => True
  end x.

Definition disk_contract : contract snE fs := fun X e m x m' =>
  match e in snE X return X -> Prop with
  | SnOs e => fun x => os_contract true _ e m x m' /\ honest e m x
  | Walk dir => fun r => m' = m /\ match r with Walked files => lists dir m files | _ => True end
  | _ => fun _ => m' = m
  end x.

(** The directory holds its files itself, not in directories of its own, and
    their metadata is kept elsewhere. *)
Definition tidy (dir : string) (m : fs) : Prop :=
  map_Forall (fun p _ => under dir p = true -> p = path_Join [dir; path_Base p] /\
    map_Forall (fun q _ => under dir q = true ->
      metadata_path dir (path_Base p) <> q /\
      (metadata_path dir (path_Base p) = metadata_path dir (path_Base q) -> p = q)) m) m.

Section retention.
Context `{SS : SortSlice}.
Implicit Types (f : WalkFile) (l : list WalkFile) (m : fs).

Definition snap_path (dir : string) f : string := path_Join [dir; wf_Name f].
Definition meta_path (dir : string) f : string := metadata_path dir (wf_Name f).

Lemma remove_all_correct (dir : string) l acc m :
  wp disk_contract (remove_all dir l acc) (fun o m' => exists k err,
    o = Done (acc ++ take k (wf_Name <$> l), err) /\ (err = None -> k = length l) /\ m' ⊆ m /\
    (forall f, f ∈ take k l -> m' !! snap_path dir f = None /\ m' !! meta_path dir f = None) /\
    (forall p, (forall f, f ∈ l -> p <> snap_path dir f /\ p <> meta_path dir f) -> m' !! p = m !! p)) m.
Proof.
  revert acc m. induction l as [|f l IH]; intros acc m; cbn [remove_all].
  { apply wp_ret. exists 0%nat, None. rewrite app_nil_r. split_and!; [done|done|done|by intros ? ?%elem_of_nil|done]. }
  eapply wp_call. intros r m1 [H1 Ho1].
  destruct H1 as [(-> & -> & _)|(_ & -> & e & ->)].
  2: { apply wp_ret. exists 0%nat, (Some e). rewrite app_nil_r. split_and!; [done|done|done|by intros ? ?%elem_of_nil|done]. }
  eapply wp_call. intros r m2 [H2 Ho2].
  assert (match r with Ok _ => True | Err e => e <> not_exist end \/
          (forall A (a : A) b, (match r with Ok _ => a | Err e => if decide (e = not_exist) then a else b e end) = a) /\
          m2 = delete (meta_path dir f) (delete (snap_path dir f) m)) as Hr.
  { destruct r as [[]|e]; [by left|]. destruct (decide (e = not_exist)) as [->|]; [|by left]. right.
    destruct H2 as [(? & _)|(_ & -> & _)]; [done|]. split; [intros; by destruct (decide (not_exist = not_exist))|].
    rewrite (delete_id _ (meta_path dir f)); [done|by apply Ho2]. }
  assert (forall m2, m2 = delete (meta_path dir f) (delete (snap_path dir f) m) ->
    wp disk_contract (remove_all dir l (acc ++ [wf_Name f])) (fun o m' => exists k err,
    o = Done (acc ++ take k (wf_Name <$> (f :: l)), err) /\ (err = None -> k = length (f :: l)) /\ m' ⊆ m /\
    (forall f', f' ∈ take k (f :: l) -> m' !! snap_path dir f' = None /\ m' !! meta_path dir f' = None) /\
    (forall p, (forall f', f' ∈ f :: l -> p <> snap_path dir f' /\ p <> meta_path dir f') -> m' !! p = m !! p)) m2) as Hgo.
  { intros m' ->. eapply wp_mono; [|apply IH]. cbv beta. intros o m' (k & err & -> & Hk & Hsub & Hgone & Hframe).
    exists (S k), err. assert (forall p, delete (meta_path dir f) (delete (snap_path dir f) m) !! p = None -> m' !! p = None) as Hn.
    { intros p Hp. destruct (m' !! p) eqn:E; [|done]. eapply lookup_weaken in E; [|exact Hsub]. congruence. }
    split_and!.
    - by rewrite <-app_assoc.
    - intros He. cbn. by rewrite Hk.
    - etrans; [exact Hsub|]. etrans; apply delete_subseteq.
    - intros f' [->|Hf']%elem_of_cons; [|by apply Hgone]. split; apply Hn; rewrite lookup_delete_None; [|by left].
      right. by rewrite lookup_delete_eq.
    - intros p Hp. destruct (Hp f) as [Hp1 Hp2]; [by left|].
      rewrite Hframe; [by rewrite !lookup_delete_ne|]. intros f' Hf'. apply Hp. by right. }
  destruct Hr as [Hr|[Hr E]]; [|rewrite Hr; by apply Hgo].
  destruct r as [[]|e].
  - apply Hgo. destruct H2 as [(_ & -> & _)|(_ & _ & e & ?)]; done.
  - rewrite decide_False by done. apply wp_ret. destruct H2 as [(? & _)|(_ & -> & _)]; [done|].
    exists 0%nat, (Some e). rewrite app_nil_r. split_and!; [done|done|apply delete_subseteq|by intros ? ?%elem_of_nil|].
    intros p Hp. destruct (Hp f) as [Hp1 Hp2]; [by left|]. by rewrite lookup_delete_ne.
Qed.

(** What is listed in a tidy directory is told apart by name. *)
Lemma listed_path dir m l f : tidy dir m -> lists dir m l -> f ∈ l ->
  wf_path f = snap_path dir f /\ under dir (wf_path f) = true /\ is_Some (m !! wf_path f).
Proof.
  intros Ht (_ & Hl & _) Hf. destruct (Hl f Hf) as (Hu & Hn & g & Hg & _). split_and!; [|done|by eexists].
  unfold snap_path. rewrite Hn. by apply (Ht _ _ Hg).
Qed.

Lemma listed_apart dir m l f g : tidy dir m -> lists dir m l -> f ∈ l -> g ∈ l ->
  meta_path dir f <> snap_path dir g /\
  (snap_path dir f = snap_path dir g \/ meta_path dir f = meta_path dir g -> f = g).
Proof.
  intros Ht Hl Hf Hg. destruct (listed_path dir m l f Ht Hl Hf) as (Ef & Uf & xf & Sf).
  destruct (listed_path dir m l g Ht Hl Hg) as (Eg & Ug & xg & Sg).
  destruct (Ht _ _ Sf Uf) as [_ Hq]. destruct (Hq _ _ Sg Ug) as [H1 H2].
  destruct Hl as (Hnd & Hn & _). destruct (Hn f Hf) as (_ & Nf & _), (Hn g Hg) as (_ & Ng & _).
  rewrite <-Nf in H1, H2. rewrite <-Ng in H2. fold (meta_path dir f) in H1, H2. fold (meta_path dir g) in H2.
  split; [by rewrite <-Eg|]. intros H.
  assert (wf_path f = wf_path g) as E by (destruct H as [H|H]; [by rewrite Ef, Eg|by apply H2]).
  apply list_elem_of_lookup in Hf as [i Hi], Hg as [j Hj].
  assert (i = j) as ->; [|congruence].
  eapply NoDup_lookup; [exact Hnd|rewrite list_lookup_fmap, Hi; cbn; by rewrite E|by rewrite list_lookup_fmap, Hj].
Qed.

(** C17. Retention on disk, in a directory that holds its files itself and
    keeps their metadata beside it: of the files with the prefix only those
    behind the newest [n] and their metadata are touched, so that what stays is
    at least as new as what goes; every other file is as before.  What is
    reported is gone with its metadata, also when a removal fails half-way, and
    when none fails, all that should go is reported.  A file whose metadata
    cannot be removed is gone and not reported.  Nothing is touched when the
    walk panics or fails. *)
Theorem retention_exact (n : Z) (prefix dir : string) (m : fs) : 1 <= n -> tidy dir m ->
  wp disk_contract (snapshotRetention n prefix dir) (fun o m' => o = Panicked /\ m' = m \/
    exists deleted err, o = Done (deleted, err) /\
    ((deleted = [] /\ m' = m /\ err <> None) \/
     exists files, lists dir m files /\
     let mine := newest_first created_at (filter (fun f => matches prefix f = true) files) in
     let old := drop (Z.to_nat n) mine in
     (exists k, deleted = wf_Name <$> take k old /\ (err = None -> k = length old) /\
        forall f, f ∈ take k old -> m' !! snap_path dir f = None /\ m' !! meta_path dir f = None) /\
     (forall f, f ∈ files -> f ∉ old ->
        m' !! wf_path f = m !! wf_path f /\ m' !! meta_path dir f = m !! meta_path dir f) /\
     (forall p, (forall f, f ∈ old -> p <> snap_path dir f /\ p <> meta_path dir f) -> m' !! p = m !! p) /\
     (forall f g, f ∈ files -> matches prefix f = true -> f ∉ old -> g ∈ old ->
        matches prefix g = true /\ created_at g <= created_at f) /\
     length mine = (Nat.min (Z.to_nat n) (length mine) + length old)%nat)) m.
Proof.
  intros Hn Ht. unfold snapshotRetention. destruct (Z.ltb_spec n 1) as [|_]; [lia|].
  eapply wp_call. intros w m1 [-> Hl]. destruct w as [files|e|e]; [|apply wp_ret; right|by left].
  2: { exists [], (Some e). split; [done|]. by left. }
  set (mine := newest_first created_at (filter (fun f => matches prefix f = true) files)).
  assert (mine ≡ₚ filter (fun f => matches prefix f = true) files) as Hp by apply sort_slice_perm.
  assert (forall f, f ∈ mine <-> matches prefix f = true /\ f ∈ files) as Hmine by (intros f; rewrite Hp; apply (list_elem_of_filter (fun f => matches prefix f = true))).
  set (old := drop (Z.to_nat n) mine).
  assert (forall f, f ∈ old -> f ∈ mine) as Hold.
  { intros f Hf. rewrite <-(take_drop (Z.to_nat n) mine). apply elem_of_app. by right. }
  assert (forall f g, f ∈ files -> matches prefix f = true -> f ∉ old -> g ∈ old ->
    matches prefix g = true /\ created_at g <= created_at f) as Hnewer.
  { intros f g Hf Hm Hfo Hgo. split; [by apply Hmine, Hold|]. eapply kept_newer; [|exact Hgo].
    assert (f ∈ mine) as Hfm by by apply Hmine. rewrite <-(take_drop (Z.to_nat n) mine), elem_of_app in Hfm. naive_solver. }
  assert (length mine = (Nat.min (Z.to_nat n) (length mine) + length old)%nat) as Hlen by (unfold old; rewrite length_drop; lia).
  assert (length mine = length (filter (fun f => matches prefix f = true) files)) as HL by by apply Permutation_length.
  rewrite <-HL. destruct (Z.leb_spec (Z.of_nat (length mine)) n) as [Hle|_].
  - assert (old = []) as Ho by (apply drop_ge; lia). apply wp_ret. right. exists [], None. split; [done|]. right.
    exists files. split; [done|]. cbv zeta. fold mine old. rewrite Ho. rewrite Ho in Hnewer, Hlen. split_and!; try done.
    exists 0%nat. split_and!; [done|done|by intros ? ?%elem_of_nil].
  - eapply wp_mono; [|apply remove_all_correct]. cbv beta. intros o m' (k & err & -> & Hk & _ & Hgone & Hframe). right.
    eexists _, err. split; [done|]. right. exists files. split; [done|]. cbv zeta. fold mine old. fold mine old in Hk, Hgone, Hframe.
    split_and!; try done.
    + exists k. split_and!; [by rewrite fmap_take|done|done].
    + intros f Hf Hfo. assert (forall g, g ∈ old -> g ∈ files /\ g <> f) as Hg.
      { intros g Hg. split; [by apply Hmine, Hold|]. by intros ->. }
      destruct (listed_path dir m files f Ht Hl Hf) as (Ef & _ & _).
      split; apply Hframe; intros g Hgo; destruct (Hg g Hgo) as [Hgf Hne].
      * rewrite Ef. destruct (listed_apart dir m files f g Ht Hl Hf Hgf), (listed_apart dir m files g f Ht Hl Hgf Hf). naive_solver.
      * destruct (listed_apart dir m files f g Ht Hl Hf Hgf). naive_solver.
Qed.

End retention.

(** Three snapshots of one node, one of another, and their metadata. *)
Definition snapshots_disk : fs :=
  {["/s/snapshots/a-n1-100" := mkFile "1" (100 * second); "/s/snapshots/a-n1-200.zip" := mkFile "2" (200 * second);
    "/s/snapshots/a-n1-300" := mkFile "3" (300 * second); "/s/snapshots/b-n2-50" := mkFile "4" (50 * second);
    "/s/.metadata/a-n1-100" := mkFile "{}" 0; "/s/.metadata/b-n2-50" := mkFile "{}" 0]}.

Lemma retention_exact_witness :
  wp disk_contract (snapshotRetention (SS := insertion_order) 2 "a" "/s/snapshots") (fun o m' => forall deleted,
    o = Done (deleted, None) -> m' !! "/s/.metadata/b-n2-50" = Some (mkFile "{}" 0)) snapshots_disk.
Proof.
  eapply wp_mono; [|apply (retention_exact (SS := insertion_order) 2 "a" "/s/snapshots" snapshots_disk);
    [done|apply (bool_decide_unpack _); vm_compute; exact I]].
  intros o m' [[-> _]|(d & err & -> & [(_ & _ & ?)|(files & Hl & _ & Hkeep & _ & Hold & _)])] deleted E; [done|congruence|].
  destruct Hl as (_ & Hn & Hall). 
  assert ("/s/snapshots/b-n2-50" ∈ wf_path <$> files) as He by (apply Hall; [by eexists|done]).
  apply list_elem_of_fmap in He as (f & Ef & Hf).
  destruct (Hn f Hf) as (_ & Nf & _). rewrite <-Ef in Nf. change (path_Base "/s/snapshots/b-n2-50") with "b-n2-50" in Nf.
  destruct (Hkeep f Hf) as [_ Hmeta].
  - intros Hd. assert (f ∈ filter (fun f => matches "a" f = true) files) as Hm.
    { rewrite <-(sort_slice_perm (SortSlice := insertion_order) _ (fun x y => Z.ltb (created_at y) (created_at x)) _).
      rewrite <-(take_drop (Z.to_nat 2) (sort_slice _ _)). apply elem_of_app. by right. }
    apply (list_elem_of_filter (fun f => matches "a" f = true)) in Hm as [Hm _]. unfold matches in Hm. by rewrite Nf in Hm.
  - unfold meta_path in Hmeta. rewrite Nf in Hmeta. exact Hmeta.
Defined.
