(* ===== verification/SnapshotRecords.v ===== *)
(** * What reconciliation leaves of the snapshot records

    [reconcileSnapshotData] against an API server that serves the records and
    a disk that may refuse any call. *)
From Stdlib Require Import ZArith Lia.
From S2P Require Import Prelude GoText GoTime SessionEnv Prog Os Signed JoinToken SnapshotFile S3Store EtcdSnapshot SnapshotLaws SnapshotController.

#[local] Open Scope Z_scope.

(** ** The API server *)

Abbreviation records := (gmap string ESF).
Implicit Types (t : records) (m : fs) (e : ESF).

(** The fields the server sets. *)
Definition stamped (rv time : Z) e : ESF :=
  mkESF (esf_Name e) rv (Some time) (esf_Deleted e) (esf_Labels e) (esf_Annotations e) (esf_SnapshotName e) (esf_NodeName e)
    (esf_Location e) (esf_Metadata e) (esf_S3 e) (esf_CreationTime e) (esf_ReadyToUse e) (esf_Size e) (esf_Error e).

Definition node_label e : option string := esf_Labels e !! LabelStorageNode.

(** Lists of nodes and of records may fail, and with [faults] every request for
    a record may be refused, without an effect; [nodes] are the nodes with the
    label of etcd. *)
Definition record_contract (faults : bool) (nodes : list SNode) : contract snE (fs * records) := fun X eff v x v' =>
  let '(m, t) := v in let '(m', t') := v' in
  match eff in snE X return X -> Prop with
  | SnOs e => fun x => os_contract true _ e m x m' /\ t' = t
  | Walk dir => fun r => m' = m /\ t' = t /\ match r with Walked files => lists dir m files | _ => True end
  | GetESF n => fun r => m' = m /\ t' = t /\
      (r = match t !! n with Some e => Ok e | None => Err (Api RNotFound) end \/
       faults = true /\ exists err, r = Err err /\ is_not_found err = false)
  | CreateESF e => fun r => m' = m /\
      (match t !! esf_Name e with
       | None => exists rv time, r = Ok (stamped rv time e) /\ t' = <[esf_Name e := stamped rv time e]> t
       | Some _ => r = Err (Api RAlreadyExists) /\ t' = t
       end \/ faults = true /\ is_ok r = false /\ t' = t)
  | UpdateESF e => fun r => m' = m /\
      (match t !! esf_Name e with
       | Some old => r = Ok tt /\ exists rv, t' = <[esf_Name e := stamped rv (default 0 (esf_Created old)) e]> t
       | None => r = Err (Api RNotFound) /\ t' = t
       end \/ faults = true /\ is_ok r = false /\ t' = t)
  | DeleteESF n => fun r => m' = m /\
      (t' = delete n t /\ (r = Ok tt \/ t !! n = None) \/ faults = true /\ is_ok r = false /\ t' = t)
  | ListESF sel => fun r => m' = m /\ t' = t /\
      (is_ok r = false \/ exists l, r = Ok l /\ NoDup (esf_Name <$> l) /\
         forall e, e ∈ l <-> t !! esf_Name e = Some e /\ sel (node_label e) = true)
  | EtcdNodes => fun r => m' = m /\ t' = t /\ (is_ok r = false \/ r = Ok nodes)
  | Zip _ _ _ _ | SaveWithVersion _ => fun _ => t' = t
  | _ => fun _ => m' = m /\ t' = t
  end x.

(** Records are kept under their names and have a creation time. *)
Definition records_wf t : Prop := map_Forall (fun n e => esf_Name e = n /\ is_Some (esf_Created e)) t.

Section records.
Context `{BT : BootstrapTokens, XC : X509, MJ : MetaJSON, DN : DNS1123, SS : SortSlice, MO : MapOrder}.
Context (ParseDuration : string -> option Z) (valid_proxy has_certs : string -> bool).
Context (file_metadata : string -> option string) (faults : bool) (nodes : list SNode).
Implicit Types (cfg : SnControl) (sf : File) (found : gmap string File).

Notation C := (record_contract faults nodes).

(** [e] is a record written for [sf] over what was there. *)
Definition written sf e : Prop := exists base rv time, e = stamped rv time (ToETCDSnapshotFile sf base).

Lemma written_named sf n base rv time : esf_Name base = n -> esf_Name (stamped rv time (ToETCDSnapshotFile sf base)) = n.
Proof. done. Qed.

Lemma emit_quiet cfg e v (Q : outcome unit -> fs * records -> Prop) : Q (Done tt) v -> wp C (emitEvent cfg e) Q v.
Proof.
  unfold emitEvent. destruct (negb _); [done|]. intros HQ. intros x v' Hc. destruct v, v'. by destruct Hc as [-> ->], x.
Qed.

(** The record of [sf] is put, or a request was refused. *)
Definition added sf n t t' : Prop := (exists e, t' = <[n := e]> t /\ written sf e) \/ faults = true /\ t' = t.

Lemma stamped_wf n t e rv time : records_wf t -> esf_Name e = n -> records_wf (<[n := stamped rv time e]> t).
Proof. intros Hwf En. apply map_Forall_insert_2; [|done]. by split; [|eexists]. Qed.

Lemma add_once_served cfg sf n m t : records_wf t ->
  wp C (add_once cfg sf n) (fun o v => exists r t', o = Done r /\ v = (m, t') /\ records_wf t' /\ added sf n t t' /\
    (is_ok r = true \/ faults = true /\ t' = t)) (m, t).
Proof.
  intros Hwf. unfold add_once. eapply wp_call. intros got [m1 t1] (-> & -> & [->|(Hf & err & -> & Hn)]).
  2: { rewrite Hn. apply wp_ret. eexists _, t. split_and!; [done|done|done|by right|by right]. }
  destruct (t !! n) as [e|] eqn:E; cbv zeta beta iota.
  - destruct (Hwf _ _ E) as [En [time Et]]. rewrite Et. destruct (decide (e = ToETCDSnapshotFile sf e)) as [Eq|Hne].
    + apply wp_ret. eexists _, t. split_and!; [done|done|done| |by left]. left. exists e. rewrite insert_id by done. split; [done|].
      exists e, (esf_rv e), time. rewrite <-Eq. clear -Et. destruct e; cbn in Et; by subst.
    + intros r [m2 t2] [-> Hu]. cbn [esf_Name ToETCDSnapshotFile] in Hu. rewrite En, E in Hu.
      destruct Hu as [[-> [rv ->]]|(Hf & Hr & ->)]; eexists _, _; (split_and!; [done|done| | |]).
      * by apply stamped_wf.
      * left. eexists. split; [done|]. by eexists _, _, _.
      * by left.
      * done.
      * by right.
      * by right.
  - rewrite (bool_decide_eq_true_2 _ eq_refl : is_not_found (Api RNotFound) = true). cbn [esf_Created new_esf].
    eapply wp_call. intros r [m2 t2] [-> Hc]. cbn [esf_Name ToETCDSnapshotFile new_esf] in Hc. rewrite E in Hc.
    destruct Hc as [(rv & time & -> & ->)|(Hf & Hr & ->)].
    + apply wp_bind, emit_quiet, wp_ret. eexists _, _. split_and!; [done|done| | |by left]; [by apply stamped_wf|].
      left. eexists. split; [done|]. by eexists _, _, _.
    + destruct r as [|err]; [done|]. apply wp_ret. eexists _, t. split_and!; [done|done|done|by right|by right].
Qed.

Lemma add_served cfg sf n m t : GenerateName sf = Some n -> records_wf t ->
  wp C (addSnapshotData cfg sf) (fun o v => exists r t', o = Done r /\ v = (m, t') /\ records_wf t' /\ added sf n t t') (m, t).
Proof.
  intros Hn Hwf. unfold addSnapshotData. rewrite Hn. unfold snapshotDataSteps. generalize 8%nat. intros steps.
  induction steps as [|steps IH]; cbn [retry_on]; apply wp_bind; (eapply wp_mono; [|by apply (add_once_served cfg sf n m t)]);
    cbv beta; intros o v (r & t' & -> & -> & Hwf' & Ha & Hr).
  - destruct r as [u|err]; [apply wp_ret; by eexists _, _|]. rewrite andb_false_r. apply wp_ret. by eexists _, _.
  - destruct r as [u|err]; [apply wp_ret; by eexists _, _|]. destruct Hr as [?|[_ ->]]; [done|].
    destruct (_ && _); [exact IH|]. apply wp_ret. by eexists _, _.
Qed.

(** The record is gone, or still there because a request was refused. *)
Definition dropped n t t' : Prop := t' !! n = None \/ faults = true /\ t' !! n = t !! n.

(** The names in [l] go. *)
Lemma delete_each_record l m t :
  wp C (for_each l (fun esf => do _r <- call (DeleteESF (esf_Name esf)); Ret tt)) (fun o v => exists t', o = Done tt /\ v = (m, t') /\
    t' ⊆ t /\ (forall n, n ∈ esf_Name <$> l -> dropped n t t') /\ forall n, n ∉ esf_Name <$> l -> t' !! n = t !! n) (m, t).
Proof.
  revert t. induction l as [|e l IH]; intros t; cbn [for_each].
  { apply wp_ret. exists t. split_and!; [done|done|done|by intros n ?%elem_of_nil|done]. }
  apply wp_assoc, wp_call. intros r [m1 t1] [-> Hd]. apply wp_ret_bind.
  assert (t1 ⊆ t /\ dropped (esf_Name e) t t1 /\ forall n, n <> esf_Name e -> t1 !! n = t !! n) as (Hs1 & Hd1 & Hk1).
  { destruct Hd as [[-> _]|(Hf & _ & ->)]; [|split_and!; [done|by right|done]].
    split_and!; [apply delete_subseteq|left; by rewrite lookup_delete_eq|]. intros n Hn. by rewrite lookup_delete_ne. }
  eapply wp_mono; [|apply IH]. cbv beta.
  intros o v (t' & -> & -> & Hsub & Hd' & Hk'). exists t'. split_and!; [done|done|by etrans| |].
  - intros n Hn. cbn [fmap list_fmap] in Hn. destruct (decide (n ∈ esf_Name <$> l)) as [Hl|Hl].
    + destruct (decide (n = esf_Name e)) as [->|Hne].
      * destruct (Hd' _ Hl) as [?|[Hf Ht']]; [by left|]. destruct Hd1 as [Hz|[_ E1]]; [left|right]; [by rewrite Ht'|by rewrite Ht'].
      * destruct (Hd' _ Hl) as [?|[Hf Ht']]; [by left|]. right. by rewrite Ht', Hk1.
    + apply elem_of_cons in Hn as [->|?]; [|done]. unfold dropped. rewrite Hk' by done. exact Hd1.
  - intros n [Hne Hl]%not_elem_of_cons. by rewrite Hk', Hk1.
Qed.

(** Every file in [l] has a record then, and other records stay. *)
Lemma create_each cfg (l : list (string * File)) m t : (forall x, x ∈ l -> is_Some (GenerateName x.2)) -> records_wf t ->
  wp C (for_each l (fun x => do _r <- addSnapshotData cfg x.2; Ret tt)) (fun o v => exists t', o = Done tt /\ v = (m, t') /\
    records_wf t' /\
    (forall n, (t' !! n = t !! n /\ (faults = true \/ forall x, x ∈ l -> GenerateName x.2 <> Some n)) \/
       exists x' e, x' ∈ l /\ GenerateName x'.2 = Some n /\ t' !! n = Some e /\ written x'.2 e)) (m, t).
Proof.
  revert t. induction l as [|x l IH]; intros t Hl Hwf; cbn [for_each].
  { apply wp_ret. exists t. split_and!; [done|done|done|]. intros n. left. split; [done|]. right. by intros x ?%elem_of_nil. }
  destruct (Hl x) as [n0 Hn0]; [by left|]. apply wp_assoc, wp_bind.
  eapply wp_mono; [|by apply (add_served cfg x.2 n0 m t)]. cbv beta. intros o v (r & t1 & -> & -> & Hwf1 & Ha).
  apply wp_ret_bind. eapply wp_mono; [|apply IH; [|exact Hwf1]]; [|intros; apply Hl; by right]. cbv beta.
  intros o v (t' & -> & -> & Hwf' & Hin). exists t'. split_and!; [done|done|done|].
  intros n. destruct (Hin n) as [[Et Hno]|(x' & e & ? & ?)]; [|right; exists x', e; split; [by right|done]].
  destruct Ha as [(e & -> & He)|[Hf ->]]; [|left; split; [done|by left]]. destruct (decide (n = n0)) as [->|Hne].
  - right. exists x, e. rewrite Et, lookup_insert_eq. split_and!; [by left|done..].
  - rewrite lookup_insert_ne in Et by done. left. split; [done|]. destruct Hno as [?|Hno]; [by left|]. right.
    intros y [->|Hy]%elem_of_cons; [congruence|by apply Hno].
Qed.

(** ** Reading the records *)

(** [e] is the record of a file that is there. *)
Definition matched found e : bool :=
  match found !! esf_key e with Some sf => bool_decide (GenerateName sf = Some (esf_Name e)) | None => false end.

Definition stale (res : option SnapshotResult) (now : Z) found e : bool :=
  negb (matched found e) && negb (retainMissingETCDSnapshotFile e res now).

(** At most the record [n] goes. *)
Definition drops n t t' : Prop := t' ⊆ t /\ dropped n t t' /\ forall n', n' <> n -> t' !! n' = t !! n'.

Lemma sync_one res now found e m t : (forall k sf, found !! k = Some sf -> is_Some (GenerateName sf)) ->
  wp C (syncSnapshotFile res now found e) (fun o v =>
    o = Done (if matched found e then delete (esf_key e) found else found) /\
    exists t', v = (m, t') /\ if stale res now found e then drops (esf_Name e) t t' else t' = t) (m, t).
Proof.
  intros Hgen. unfold syncSnapshotFile, stale, matched. cbv zeta.
  assert (wp C (if retainMissingETCDSnapshotFile e res now then Ret found
                else do _r <- call (DeleteESF (esf_Name e)); Ret found)
    (fun o v => o = Done found /\ exists t', v = (m, t') /\
      if negb (retainMissingETCDSnapshotFile e res now) then drops (esf_Name e) t t' else t' = t)
    (m, t)) as Hstale.
  { destruct (retainMissingETCDSnapshotFile e res now); [apply wp_ret; split; [done|by exists t]|].
    eapply wp_call. intros r [m1 t1] [-> Hd]. apply wp_ret. split; [done|]. exists t1. split; [done|]. cbn [negb].
    destruct Hd as [[-> _]|(Hf & _ & ->)]; [|split_and!; [done|by right|done]].
    split_and!; [apply delete_subseteq|left; by rewrite lookup_delete_eq|]. intros n Hn. by rewrite lookup_delete_ne. }
  destruct (found !! esf_key e) as [sf|] eqn:E; [|exact Hstale]. destruct (Hgen _ _ E) as [name Hname]. rewrite Hname.
  destruct (decide (name = esf_Name e)) as [->|Hne].
  - rewrite bool_decide_eq_true_2 by done. apply wp_ret. split; [done|]. by exists t.
  - rewrite bool_decide_eq_false_2 by congruence. exact Hstale.
Qed.

Lemma sync_each_served res now l found m t : (forall k sf, found !! k = Some sf -> is_Some (GenerateName sf)) ->
  NoDup (esf_Name <$> l) ->
  wp C (sync_each res now l found) (fun o v => exists missing t', o = Done missing /\ v = (m, t') /\ t' ⊆ t /\
    (forall k, missing !! k = found !! k /\ (forall e, e ∈ l -> esf_key e = k -> matched found e = false) \/
       missing !! k = None /\ exists e, e ∈ l /\ esf_key e = k /\ matched found e = true) /\
    (forall e, e ∈ l -> stale res now found e = true -> dropped (esf_Name e) t t') /\
    (forall n, (forall e, e ∈ l -> esf_Name e = n -> stale res now found e = false) -> t' !! n = t !! n)) (m, t).
Proof.
  revert found t. induction l as [|e l IH]; intros found t Hgen Hnd; cbn [sync_each].
  { apply wp_ret. exists found, t. split_and!; [done|done|done| |by intros ? ?%elem_of_nil|done].
    intros k. left. split; [done|]. by intros ? ?%elem_of_nil. }
  apply NoDup_cons in Hnd as [Hne Hnd]. apply wp_bind. eapply wp_mono; [|by apply sync_one]. cbv beta. intros o v (-> & t1 & -> & Hone).
  set (found' := if matched found e then delete (esf_key e) found else found).
  assert (forall e', e' ∈ l -> matched found' e' = matched found e') as Hsame.
  { intros e' He'. unfold found'. destruct (matched found e) eqn:Em; [|done]. unfold matched in Em |- *.
    destruct (decide (esf_key e' = esf_key e)) as [Ek|Ek]; [|by rewrite lookup_delete_ne].
    rewrite Ek, lookup_delete_eq. destruct (found !! esf_key e) as [sf|]; [|done]. apply bool_decide_eq_true in Em.
    rewrite Em. symmetry. apply bool_decide_eq_false. intros [= E]. apply Hne. rewrite E. by apply list_elem_of_fmap_2. }
  assert (forall e', e' ∈ l -> stale res now found' e' = stale res now found e') as Hstale.
  { intros e' He'. unfold stale. by rewrite Hsame. }
  eapply wp_mono; [|apply IH; [|done]].
  2: { intros k sf. unfold found'. destruct (matched found e); [|apply Hgen]. rewrite lookup_delete_Some. intros [_ ?]. by eapply Hgen. }
  cbv beta. intros o v (missing & t' & -> & -> & Hsub & Hmiss & Hgone & Hkeep). exists missing, t'.
  split_and!; [done|done| | | |].
  - etrans; [exact Hsub|]. destruct (stale res now found e); [apply Hone|by subst].
  - intros k. destruct (Hmiss k) as [[-> Hno]|[-> (e' & He' & Ek & Hm)]].
    + unfold found'. destruct (matched found e) eqn:Em.
      * destruct (decide (esf_key e = k)) as [<-|Hk].
        -- right. rewrite lookup_delete_eq. split; [done|]. exists e. split; [by left|done].
        -- left. rewrite lookup_delete_ne by done. split; [done|]. intros e' [->|He']%elem_of_cons Ek; [done|].
           rewrite <-Hsame by done. by apply Hno.
      * left. split; [done|]. intros e' [->|He']%elem_of_cons Ek; [done|]. rewrite <-Hsame by done. by apply Hno.
    + right. split; [done|]. exists e'. rewrite <-Hsame by done. split; [by right|done].
  - intros e' [->|He']%elem_of_cons Hs.
    + rewrite Hs in Hone. unfold dropped. rewrite Hkeep; [apply Hone|]. intros e' He' En. exfalso. apply Hne. rewrite <-En. by apply list_elem_of_fmap_2.
    + unfold dropped. destruct (Hgone e' He') as [?|[Hf Ht']]; [by rewrite Hstale|by left|]. right. split; [done|]. rewrite Ht'.
      destruct (stale res now found e); [|by subst]. apply Hone. intros En. apply Hne. rewrite <-En. by apply list_elem_of_fmap_2.
  - intros n Hn. rewrite Hkeep.
    + destruct (stale res now found e) eqn:Es; [|by subst]. apply Hone. intros En.
      rewrite (Hn e) in Es; [done|by left|done].
    + intros e' He' En. rewrite Hstale by done. apply Hn; [by right|done].
Qed.

(** ** The files that are there *)

Definition local_key cfg (dir : string) (f : WalkFile) : string := GenerateConfigMapKey (local_file cfg dir f "").

(** Every file, under its key; of files with the same key, one. *)
Definition files_found cfg (dir : string) (files : list WalkFile) found : Prop :=
  (forall f, f ∈ files -> is_Some (found !! local_key cfg dir f)) /\
  forall k sf, found !! k = Some sf -> exists f metadata, f ∈ files /\ sf = local_file cfg dir f metadata /\ k = local_key cfg dir f.

Lemma local_file_metadata cfg dir f md : local_file cfg dir f md = with_metadata md (local_file cfg dir f "").
Proof. unfold local_file. by destruct (cut_extension (wf_Name f)). Qed.

Lemma local_file_fields cfg dir f md :
  let sf := local_file cfg dir f md in
  GenerateConfigMapKey sf = local_key cfg dir f /\ is_Some (GenerateName sf) /\ sf_S3 sf = None /\ sf_NodeName sf = sc_NODE_NAME cfg /\
  sf_NodeSource sf = "".
Proof.
  cbv zeta. unfold local_key, local_file. destruct (cut_extension (wf_Name f)) as [b c]. split_and!; try done.
  unfold GenerateName. cbn [sf_CreatedAt]. destruct (_ || _); by eexists.
Qed.

Lemma list_files_found cfg dir l done_ acc m t : files_found cfg dir done_ acc ->
  wp C (list_files cfg dir l acc) (fun o v => exists found, o = Done found /\ v = (m, t) /\ files_found cfg dir (done_ ++ l) found) (m, t).
Proof.
  revert done_ acc. induction l as [|f l IH]; intros d acc [Hall Hof]; cbn [list_files].
  { apply wp_ret. exists acc. by rewrite app_nil_r. }
  unfold snos. cbn [trans call]. eapply wp_call. intros r [m1 t1] [[-> _] ->].
  set (md := match r with Ok m0 => encode_text m0 | Err _ => "" end). cbv zeta.
  destruct (local_file_fields cfg dir f md) as (Hk & _). cbv zeta in Hk. rewrite Hk.
  replace (d ++ f :: l) with ((d ++ [f]) ++ l) by by rewrite <-app_assoc. apply IH. split.
  - intros g Hg. apply elem_of_app in Hg. destruct (decide (local_key cfg dir f = local_key cfg dir g)) as [->|Hne].
    + by rewrite lookup_insert_eq.
    + rewrite lookup_insert_ne by done. destruct Hg as [Hg| ->%list_elem_of_singleton]; [by apply Hall|done].
  - intros k sf Hs. apply lookup_insert_Some in Hs as [[<- <-]|[_ Hs]].
    + exists f, md. split_and!; [|done|done]. apply elem_of_app. right. by left.
    + destruct (Hof _ _ Hs) as (g & md' & Hg & ? & ?). exists g, md'. split_and!; [|done|done]. apply elem_of_app. by left.
Qed.

Lemma listLocal_found cfg m t :
  wp C (listLocalSnapshots cfg) (fun o v => v = (m, t) /\ exists r, o = Done r /\
    forall found, r = Ok found -> exists dir files, lists dir m files /\ files_found cfg dir files found) (m, t).
Proof.
  unfold listLocalSnapshots. apply wp_bind. eapply (wp_mono _ _ (fun o v => v = (m, t) /\ exists r, o = Done r)).
  - intros o v [-> [[dir|e] ->]]; [|apply wp_ret; split; [done|by eexists]].
    eapply wp_call. intros w [m1 t1] (-> & -> & Hw). destruct w as [files|e|e]; [|by split; [|eexists]..].
    apply wp_bind. eapply wp_mono; [|apply (list_files_found cfg dir files [] ∅)].
    + intros o v (found & -> & -> & Hf). apply wp_ret. split; [done|]. eexists. split; [done|]. intros ? [= <-]. by exists dir, files.
    + split; [by intros f ?%elem_of_nil|]. intros k sf. by rewrite lookup_empty.
  - unfold snapshotDir. cbv zeta. eapply wp_call. intros r [m1 t1] [-> ->]. destruct r as [b|e].
    { apply wp_ret. split; [done|by eexists]. }
    case_decide; [|apply wp_ret; split; [done|by eexists]].
    unfold snos. cbn [trans call]. eapply wp_call. intros r [m1 t1] [[-> _] ->].
    destruct r; apply wp_ret; (split; [done|by eexists]).
Qed.

Lemma collect_found cfg m t : sc_S3 cfg = None ->
  wp C (collectSnapshotData ParseDuration valid_proxy has_certs file_metadata cfg) (fun o v => v = (m, t) /\ exists r, o = Done r /\
    forall found stored, r = Ok (found, stored) -> stored = [sc_NODE_NAME cfg] /\
      exists dir files, lists dir m files /\ files_found cfg dir files found) (m, t).
Proof.
  intros HS3. unfold collectSnapshotData. rewrite HS3. apply wp_bind. eapply wp_mono; [|apply listLocal_found]. cbv beta.
  intros o v (-> & [found|e] & -> & Hf). 2: { apply wp_ret. split; [done|]. eexists. by split. }
  apply wp_ret_bind. eapply wp_call. intros r [m1 t1] [-> ->].
  destruct (Hf _ eq_refl) as (dir & files & Hl & Hff).
  destruct r as [cm|e].
  2: { apply wp_ret. split; [done|]. eexists. split; [done|]. destruct (is_not_found e); [|done]. intros ? ? [= <- <-]. eauto. }
  apply wp_ret. split; [done|]. eexists. split; [done|]. intros ? ? [= <- <-]. split; [done|]. exists dir, files. split; [done|].
  destruct Hff as [Hall Hof]. cbn [fst]. split.
  - intros f Hfi. rewrite map_lookup_imap. destruct (Hall f Hfi) as [sf ->]. by eexists.
  - intros k sf. rewrite map_lookup_imap. destruct (found !! k) as [sf0|] eqn:E; [|done]. intros [= <-].
    destruct (Hof _ _ E) as (f & md & Hfi & -> & ->). unfold legacy_metadata.
    destruct (cm_Data cm !! _) as [text|]; [|by eauto]. case_decide; [|by eauto].
    destruct (file_metadata text) as [md'|]; [|by eauto]. exists f, md'. split_and!; [done| |done].
    rewrite (local_file_metadata _ _ _ md), (local_file_metadata _ _ _ md'). done.
Qed.

(** ** Reconciliation *)

Lemma prune_served sel m t :
  wp C (pruneOrphanedSnapshots sel) (fun o v => exists r, o = Done r /\ fst v = m /\ forall u, r = Ok u ->
    forall n, records_wf t ->
      match t !! n with
      | None => snd v !! n = None
      | Some e => if sel (node_label e) then dropped n t (snd v) else snd v !! n = Some e
      end) (m, t).
Proof.
  unfold pruneOrphanedSnapshots. eapply wp_call. intros r [m1 t1] (-> & -> & Hl).
  destruct r as [l|e]; [|by apply wp_ret; eexists]. destruct Hl as [?|(l' & [= <-] & _ & Hl)]; [done|].
  apply wp_bind. eapply wp_mono; [|apply delete_each_record]. cbv beta. intros o v (t' & -> & -> & Hsub & Hd & Hk).
  apply wp_ret. eexists. split_and!; [done|done|]. intros _ _ n Hwf. cbn [snd].
  destruct (t !! n) as [e|] eqn:E.
  2: { destruct (t' !! n) as [e|] eqn:E'; [|done]. eapply lookup_weaken in E'; [|exact Hsub]. congruence. }
  destruct (Hwf _ _ E) as [En _]. destruct (sel (node_label e)) eqn:Hs.
  - apply Hd. apply list_elem_of_fmap. exists e. split; [done|]. apply Hl. by rewrite En.
  - rewrite Hk; [done|]. intros (e' & En' & He')%list_elem_of_fmap. apply Hl in He' as [He' Hs'].
    assert (e' = e) as -> by congruence. congruence.
Qed.

Lemma written_label cfg dir f md e : written (local_file cfg dir f md) e -> node_label e = Some (sc_NODE_NAME cfg).
Proof.
  intros (base & rv & time & ->). destruct (local_file_fields cfg dir f md) as (_ & _ & HS3 & Hn & Hs). cbv zeta in HS3, Hn, Hs.
  unfold node_label. cbn [esf_Labels stamped ToETCDSnapshotFile]. rewrite lookup_insert_eq, HS3, Hs, Hn. done.
Qed.

(** The record says where and what the snapshot is. *)
Definition describes sf e : Prop :=
  esf_SnapshotName e = sf_Name sf /\ esf_NodeName e = sf_NodeName sf /\ node_label e = Some (sf_NodeName sf) /\
  esf_Location e = sf_Location sf /\ esf_Size e = Some (sf_Size sf) /\ esf_CreationTime e = sf_CreatedAt sf /\ esf_ReadyToUse e = Some true.

Lemma written_describes cfg dir f md e : written (local_file cfg dir f md) e -> describes (local_file cfg dir f md) e.
Proof.
  intros (base & rv & time & ->). unfold describes, node_label, local_file. destruct (cut_extension (wf_Name f)) as [b c].
  cbn. by rewrite lookup_insert_eq.
Qed.

(** A record without a file stays for a day when it tells of a failure, and for
    a minute when it is one of S3, unless retention has just deleted the
    snapshot. *)
Definition retained (res : option SnapshotResult) (now : Z) e : Prop :=
  (forall r, res = Some r -> esf_SnapshotName e ∉ Deleted r) /\
  ((exists time msg, esf_Error e = Some (Some time, msg) /\ now < time + 24 * hour) \/
   is_Some (esf_S3 e) /\ now < default 0 (esf_Created e) + minute).

Lemma retain_exact res now e : retainMissingETCDSnapshotFile e res now = true <-> retained res now e.
Proof.
  unfold retainMissingETCDSnapshotFile, retained.
  assert ((match esf_Error e with Some (Some t, _) => now <? t + errorTTL | _ => false end) ||
    (match esf_S3 e with Some _ => now <? default 0 (esf_Created e) + s3ReconcileTTL | None => false end) = true <->
    (exists time msg, esf_Error e = Some (Some time, msg) /\ now < time + 24 * hour) \/
    is_Some (esf_S3 e) /\ now < default 0 (esf_Created e) + minute) as Hb.
  { rewrite orb_true_iff. f_equiv.
    - destruct (esf_Error e) as [[[time|] msg]|]; [rewrite Z.ltb_lt|..].
      + split; [by eexists _, _|]. by intros (? & ? & [= <- <-] & ?).
      + split; [done|]. by intros (? & ? & [=] & ?).
      + split; [done|]. by intros (? & ? & [=] & ?).
    - destruct (esf_S3 e) as [x|]; [rewrite Z.ltb_lt; split; [intros; split; [by eexists|done]|by intros [_ ?]]|].
      split; [done|]. by intros [[? ?] _]. }
  destruct res as [r|].
  - destruct (bool_decide (esf_SnapshotName e ∈ Deleted r)) eqn:Ed.
    + apply bool_decide_eq_true in Ed. split; [done|]. intros [H _]. by destruct (H r eq_refl).
    + apply bool_decide_eq_false in Ed. rewrite Hb. split; [|by intros [_ ?]]. intros H. split; [by intros ? [= <-]|done].
  - rewrite Hb. split; [|by intros [_ ?]]. intros H. by split.
Qed.

(** A record without a file is not wanted any more. *)
Definition obsolete cfg res now e : Prop :=
  node_label e = Some (sc_NODE_NAME cfg) /\ ~ retained res now e \/
  forall storage, node_label e = Some storage -> storage ∉ "s3" :: (sn_Name <$> nodes).

(** The records before and after. *)
Record reconciled cfg (res : option SnapshotResult) (now : Z) found t t' : Prop := {
  (* a record that is there was there or is that of a file *)
  records_true : forall n e, t' !! n = Some e -> t !! n = Some e \/
    exists k sf, found !! k = Some sf /\ GenerateName sf = Some n /\ describes sf e;
  (* a file is recorded, or a request was refused *)
  files_recorded : forall k sf, found !! k = Some sf -> faults = true \/ exists n e, GenerateName sf = Some n /\ t' !! n = Some e /\
    (t !! n = Some e /\ node_label e = Some (sc_NODE_NAME cfg) /\ matched found e = true \/
     exists k' sf', found !! k' = Some sf' /\ GenerateName sf' = Some n /\ describes sf' e);
  (* a file that was recorded stays so *)
  files_stay : forall n e, t !! n = Some e -> node_label e = Some (sc_NODE_NAME cfg) -> matched found e = true -> is_Some (t' !! n);
  (* of the others, what is not wanted goes and the rest stays *)
  rest_exact : forall n e, (forall k sf, found !! k = Some sf -> GenerateName sf <> Some n) -> t !! n = Some e ->
    (obsolete cfg res now e -> dropped n t t') /\ (~ obsolete cfg res now e -> t' !! n = Some e);
}.

(** The steps of a reconciliation, by what they leave. *)
Section steps.
Context cfg (res : option SnapshotResult) (now : Z) (dir : string) (files : list WalkFile) (found missing : gmap string File).
Context (l : list ESF) (t t1 t2 t3 : records).
Hypothesis Hof : files_found cfg dir files found.
Hypothesis Hown : sc_NODE_NAME cfg ∈ sn_Name <$> nodes.
Hypothesis Hwf : records_wf t.
Hypothesis Hl : forall e, e ∈ l <-> t !! esf_Name e = Some e /\ stored_in [sc_NODE_NAME cfg] (node_label e) = true.
Hypothesis Hsub : t1 ⊆ t.
Hypothesis Hmiss : forall k,
  missing !! k = found !! k /\ (forall e, e ∈ l -> esf_key e = k -> matched found e = false) \/
  missing !! k = None /\ exists e, e ∈ l /\ esf_key e = k /\ matched found e = true.
Hypothesis Hgone : forall e, e ∈ l -> stale res now found e = true -> dropped (esf_Name e) t t1.
Hypothesis Hkeep : forall n, (forall e, e ∈ l -> esf_Name e = n -> stale res now found e = false) -> t1 !! n = t !! n.
Hypothesis Hnew : forall n, (t2 !! n = t1 !! n /\ (faults = true \/ forall x, x ∈ iter missing -> GenerateName x.2 <> Some n)) \/
  exists x' e, x' ∈ iter missing /\ GenerateName x'.2 = Some n /\ t2 !! n = Some e /\ written x'.2 e.
Hypothesis H3 : forall n, match t2 !! n with
  | None => t3 !! n = None
  | Some e => if negb (stored_in ("s3" :: (sn_Name <$> nodes)) (node_label e)) then dropped n t2 t3 else t3 !! n = Some e
  end.

Lemma missing_found k sf : missing !! k = Some sf -> found !! k = Some sf.
Proof. destruct (Hmiss k) as [[<- _]|[-> _]]; [done|discriminate]. Qed.

Lemma own_stays e : node_label e = Some (sc_NODE_NAME cfg) -> stored_in ("s3" :: (sn_Name <$> nodes)) (node_label e) = true.
Proof. intros ->. cbn. apply bool_decide_eq_true. by right. Qed.

Lemma own_listed e : e ∈ l <-> t !! esf_Name e = Some e /\ node_label e = Some (sc_NODE_NAME cfg).
Proof.
  rewrite Hl. destruct (node_label e) as [lab|]; [|by split; intros []]. cbn.
  rewrite bool_decide_eq_true, list_elem_of_singleton. split; intros [? ?]; split; congruence.
Qed.

(** Pruning leaves what is of this node. *)
Lemma own_kept n e : t2 !! n = Some e -> node_label e = Some (sc_NODE_NAME cfg) -> t3 !! n = Some e.
Proof. intros E Hlab. specialize (H3 n). rewrite E, own_stays in H3 by done. exact H3. Qed.

Lemma last_step n e : t3 !! n = Some e -> t2 !! n = Some e.
Proof.
  intros E. specialize (H3 n). destruct (t2 !! n) as [e2|] eqn:E2; [|congruence].
  destruct (negb _); [destruct H3 as [?|[_ ?]]|]; congruence.
Qed.

(** What was written is of a file. *)
Lemma new_record n x e : x ∈ iter missing -> GenerateName x.2 = Some n -> written x.2 e ->
  node_label e = Some (sc_NODE_NAME cfg) /\ exists k sf, found !! k = Some sf /\ GenerateName sf = Some n /\ describes sf e.
Proof.
  intros Hx Hn Hw. destruct x as [k sf]. apply elem_of_iter, missing_found in Hx. cbn [snd] in *.
  destruct Hof as [_ Ho]. destruct (Ho _ _ Hx) as (f & md & _ & -> & _).
  split; [by eapply written_label|]. exists k, (local_file cfg dir f md). split_and!; [done|done|by apply written_describes].
Qed.

Lemma old_or_new n e : t3 !! n = Some e -> t !! n = Some e \/ exists k sf, found !! k = Some sf /\ GenerateName sf = Some n /\ describes sf e.
Proof.
  intros E%last_step. destruct (Hnew n) as [[E1 _]|(x & e' & Hx & Hn & E' & Hw)].
  - left. rewrite E1 in E. by eapply lookup_weaken.
  - right. assert (e' = e) as -> by congruence. by apply (new_record n x).
Qed.

(** A record that matches is left alone, or written anew. *)
Lemma recorded_stays n e : t !! n = Some e -> node_label e = Some (sc_NODE_NAME cfg) -> matched found e = true ->
  exists e', t3 !! n = Some e' /\ (e' = e \/ exists k sf, found !! k = Some sf /\ GenerateName sf = Some n /\ describes sf e').
Proof.
  intros Et Hlab Hm. destruct (Hwf _ _ Et) as [En _].
  assert (t1 !! n = Some e) as E1.
  { rewrite Hkeep; [done|]. intros e' [Et' _]%own_listed En'. assert (e' = e) as -> by congruence. unfold stale. by rewrite Hm. }
  destruct (Hnew n) as [[E2 _]|(x & e' & Hx & Hn & E' & Hw)].
  - exists e. split; [|by left]. apply own_kept; [congruence|done].
  - destruct (new_record n x e' Hx Hn Hw) as [Hlab' Hd]. exists e'. split; [by apply own_kept|by right].
Qed.

Lemma file_recorded k sf : found !! k = Some sf -> faults = true \/ exists n e, GenerateName sf = Some n /\ t3 !! n = Some e /\
  (t !! n = Some e /\ node_label e = Some (sc_NODE_NAME cfg) /\ matched found e = true \/
   exists k' sf', found !! k' = Some sf' /\ GenerateName sf' = Some n /\ describes sf' e).
Proof.
  intros E. destruct Hof as [_ Ho]. destruct (Ho _ _ E) as (f & md & _ & Esf & _).
  destruct (local_file_fields cfg dir f md) as (_ & [n Hn] & _). cbv zeta in Hn. rewrite <-Esf in Hn.
  destruct (Hmiss k) as [[Em _]|[Em (e & He & Ek & Hm)]].
  - rewrite E in Em. destruct (Hnew n) as [[_ [?|Hno]]|(x & e & Hx & Hnx & E2 & Hw)]; [by left| |].
    + exfalso. apply (Hno (k, sf)); [by apply elem_of_iter|done].
    + right. destruct (new_record n x e Hx Hnx Hw) as [Hlab Hd]. exists n, e. split_and!; [done|by apply own_kept|by right].
  - right. pose proof Hm as Hmat. unfold matched in Hmat. rewrite Ek, E in Hmat. apply bool_decide_eq_true in Hmat.
    apply own_listed in He as [Et Hlab]. destruct (recorded_stays _ _ Et Hlab Hm) as (e' & E' & Hor).
    exists (esf_Name e), e'. split_and!; [congruence|done|]. destruct Hor as [->|Hor]; [by left|by right].
Qed.

Lemma rest_of_them n e : (forall k sf, found !! k = Some sf -> GenerateName sf <> Some n) -> t !! n = Some e ->
  (obsolete cfg res now e -> dropped n t t3) /\ (~ obsolete cfg res now e -> t3 !! n = Some e).
Proof.
  intros Hno Et. destruct (Hwf _ _ Et) as [En _]. subst n.
  assert (t2 !! esf_Name e = t1 !! esf_Name e) as E2.
  { destruct (Hnew (esf_Name e)) as [[? _]|([k sf] & e' & Hx & Hn & _)]; [done|]. apply elem_of_iter, missing_found in Hx. by destruct (Hno k sf). }
  assert (matched found e = false) as Hm.
  { unfold matched. destruct (found !! esf_key e) as [sf|] eqn:Ef; [|done]. apply bool_decide_eq_false. by eapply Hno. }
  assert ((node_label e = Some (sc_NODE_NAME cfg) -> stale res now found e = false) -> t1 !! esf_Name e = Some e) as Hstays.
  { intros Hs. rewrite Hkeep; [done|]. intros e' [Et' Hlab]%own_listed En'. assert (e' = e) as -> by congruence. by apply Hs. }
  assert (forall storage, node_label e = Some storage -> stored_in ("s3" :: (sn_Name <$> nodes)) (node_label e) = bool_decide (storage ∈ "s3" :: (sn_Name <$> nodes))) as Hst by (by intros storage ->).
  split.
  - intros [[Hlab Hret]|Hout].
    + destruct (Hgone e) as [E1|[Hf E1]]; [by apply own_listed| | |].
      * unfold stale. rewrite Hm. apply negb_true_iff, not_true_iff_false. by rewrite retain_exact.
      * left. destruct (t3 !! esf_Name e) eqn:E3; [|done]. apply last_step in E3. congruence.
      * right. split; [done|]. rewrite Et in E1 |- *. apply own_kept; [congruence|done].
    + assert (t1 !! esf_Name e = Some e) as E1 by (apply Hstays; intros Hlab; exfalso; apply (Hout _ Hlab); by right).
      specialize (H3 (esf_Name e)). rewrite E2, E1 in H3.
      assert (stored_in ("s3" :: (sn_Name <$> nodes)) (node_label e) = false) as Hs.
      { destruct (node_label e) as [storage|] eqn:Hlab; [|done]. apply bool_decide_eq_false. by apply Hout. }
      rewrite Hs in H3. destruct H3 as [?|[Hf E3]]; [by left|]. right. split; [done|]. congruence.
  - intros Hn. assert (t1 !! esf_Name e = Some e) as E1.
    { apply Hstays. intros Hlab. unfold stale. rewrite Hm. apply negb_false_iff.
      destruct (retainMissingETCDSnapshotFile e res now) eqn:Er; [done|]. exfalso. apply Hn. left. split; [done|].
      rewrite <-retain_exact. congruence. }
    specialize (H3 (esf_Name e)). rewrite E2, E1 in H3. destruct (stored_in _ (node_label e)) eqn:Hs; [exact H3|].
    exfalso. apply Hn. right. intros storage Hlab Hin. pose proof (Hst _ Hlab) as Hb. rewrite bool_decide_eq_true_2 in Hb by done. discriminate Hb.
Qed.

Lemma reconciled_steps : reconciled cfg res now found t t3.
Proof.
  split; [exact old_or_new|exact file_recorded| |exact rest_of_them].
  intros n e Et Hlab Hm. destruct (recorded_stays n e Et Hlab Hm) as (e' & -> & _). by eexists.
Qed.
End steps.

(** C16. A reconciliation without S3, on a node with an agent that is listed
    with the label of etcd, leaves the disk alone and does not panic, whatever
    calls fail.  When it succeeds, every record was there before or is that of
    a snapshot on disk, and what was recorded of the disk stays so.  A record
    without a file goes if it is of this node and not retained, or of no etcd
    node and not of S3, and every other one is as before.  Every snapshot on
    disk is recorded and what has to go is gone unless the API server refused a
    request for a record: such refusals are logged, and the reconciliation
    succeeds all the same. *)
Theorem reconcile_exact cfg (res : option SnapshotResult) m t :
  sc_S3 cfg = None -> sc_DisableAgent cfg = false -> sc_NODE_NAME cfg ∈ sn_Name <$> nodes -> records_wf t ->
  wp C (reconcileSnapshotData ParseDuration valid_proxy has_certs file_metadata cfg res) (fun o v =>
    exists r, o = Done r /\ fst v = m /\ forall u, r = Ok u -> exists dir files found now,
      lists dir m files /\ files_found cfg dir files found /\ reconciled cfg res now found t (snd v)) (m, t).
Proof.
  intros HS3 Hag Hown Hwf. unfold reconcileSnapshotData. rewrite Hag. apply wp_bind.
  eapply wp_mono; [|by apply collect_found]. cbv beta. intros o v (-> & [[found stored]|e] & -> & Hf); [|apply wp_ret; by eexists].
  destruct (Hf _ _ eq_refl) as (-> & dir & files & Hlist & Hff). clear Hf. unfold snos. cbn [trans call].
  eapply wp_call. intros now [m1 t1] [-> ->]. cbv zeta.
  eapply wp_call. intros r [m1 t1] (-> & -> & Hl). destruct r as [l|e]; [|apply wp_ret; by eexists].
  destruct Hl as [?|(l' & [= <-] & Hnd & Hl)]; [done|].
  assert (forall k sf, found !! k = Some sf -> is_Some (GenerateName sf)) as Hgen.
  { intros k sf E. destruct Hff as [_ Hof]. destruct (Hof _ _ E) as (f & md & _ & -> & _). apply local_file_fields. }
  apply wp_bind. eapply wp_mono; [|by apply sync_each_served]. cbv beta.
  intros o v (missing & t1 & -> & -> & Hsub & Hmiss & Hgone & Hkeep).
  assert (records_wf t1) as Hwf1 by (intros n e E; eapply Hwf, lookup_weaken; done).
  unfold createMissingSnapshotFiles. apply wp_bind. eapply wp_mono; [|apply create_each; [|done]].
  2: { intros [k sf] Hx. apply elem_of_iter in Hx. apply (Hgen k). destruct (Hmiss k) as [[<- _]|[? _]]; cbn; congruence. }
  cbv beta. intros o v (t2 & -> & -> & Hwf2 & Hnew).
  eapply wp_call. intros r [m3 t3] (-> & -> & Hr). destruct r as [nodes'|e]; [|apply wp_ret; by eexists].
  destruct Hr as [?|[= ->]]; [done|]. apply wp_bind. eapply wp_mono; [|apply prune_served]. cbv beta.
  intros o [m4 t4] (r & -> & Em & Hp). cbn in Em. subst m4. destruct r as [[]|e]; [|apply wp_ret; by eexists].
  intros r [m5 t5] [-> ->]. exists r. split_and!; [done|done|]. intros _ _. exists dir, files, found, (round_second now).
  split_and!; [done|done|]. eapply reconciled_steps; try done. intros n. by apply (Hp tt).
Qed.

End records.

(** Node n1 with a snapshot and no record of it, a record of n2, and one of
    n3, which is gone. *)
Definition sample_record (name node : string) : ESF :=
  mkESF name 1 (Some 0) None {[LabelStorageNode := node]} ∅ "s" node "file:///s" ∅ None (Some 0) (Some true) (Some 1) None.
Definition sample_records : records := {["x" := sample_record "x" "n2"; "y" := sample_record "y" "n3"]}.
Definition sample_nodes : list SNode := [mkSNode "n1" ∅; mkSNode "n2" ∅].
Definition sample_control : SnControl := mkSnControl "/d" "" "a" 5 false None false "" "" "" "n1" true.

Lemma reconcile_exact_witness :
  wp (record_contract false sample_nodes)
    (reconcileSnapshotData (MJ := sample_meta_json) (DN := sample_names) (MO := list_order)
       (fun _ => None) (fun _ => true) (fun _ => true) (fun _ => None) sample_control None)
    (fun o v => forall u, o = Done (Ok u) -> snd v !! "x" = sample_records !! "x" /\ snd v !! "y" = None)
    ({["/d/db/snapshots/a-n1-100" := mkFile "1" 0]}, sample_records).
Proof.
  eapply wp_mono; [|apply (reconcile_exact (MJ := sample_meta_json) (DN := sample_names) (MO := list_order)
    (fun _ => None) (fun _ => true) (fun _ => true) (fun _ => None) false sample_nodes sample_control None)].
  2: done. 2: done. 2: by left.
  2: { apply map_Forall_insert_2; [by split; [|eexists]|]. apply map_Forall_singleton. by split; [|eexists]. }
  intros o v (r & -> & _ & Hr) u [= ->]. destruct (Hr u eq_refl) as (dir & files & found & now & _ & [_ Hof] & [_ _ _ Hrest]).
  assert (forall n, has_prefix n "local-" = false -> forall k sf, found !! k = Some sf ->
    GenerateName (DN := sample_names) sf <> Some n) as Hno.
  { intros n Hn k sf E En. destruct (Hof _ _ E) as (f & md & _ & -> & _). unfold GenerateName, local_file in En.
    destruct (cut_extension (wf_Name f)) as [b c]. cbn [sf_Name sf_NodeName sf_NodeSource sf_CreatedAt sf_Compressed sf_Location] in En.
    rewrite decide_False in En by done. destruct (_ || _) in En; injection En as <-; done. }
  split.
  - apply (Hrest "x" (sample_record "x" "n2") (Hno "x" eq_refl) eq_refl). intros [[[=] _]|H]. apply (H "n2" eq_refl). right. right. by left.
  - destruct (Hrest "y" (sample_record "y" "n3") (Hno "y" eq_refl) eq_refl) as [Hy _]. destruct Hy as [?|[? _]]; [|done|done].
    right. intros storage [= <-]. apply (bool_decide_unpack _). vm_compute. exact I.
Defined.

(** * Snapshots executed

    A disk, the records, the config map and the nodes of a small cluster as an
    executable server that keeps the contract of reconciliation, and runs of
    the snapshot code against it. *)

#[local] Open Scope Z_scope.

Record SnWorld := mkSnWorld {
  w_os : Os; w_records : gmap string ESF; w_cm : option ConfigMap; w_rv : Z; w_events : list (event * string); w_patched : list string;
}.

Definition walk_files (dir : string) (m : fs) : list WalkFile :=
  (fun x => mkWalk x.1 (path_Base x.1) (Z.of_nat (String.length (f_content x.2))) (f_mtime x.2)) <$>
  filter (fun x => under dir x.1 = true) (map_to_list m).

(** No S3: every request of it fails. *)
Definition no_s3 (o : Os) {X} (e : s3E X) : X :=
  match e in s3E X return X with
  | S3Os e => fst (live_os _ e o)
  | SecretData _ => Err (Plain "no s3") | CAConfigMap _ => Err (Plain "no s3") | CachedClient _ => false | CacheClient _ => tt
  | NewMinio _ => Err (Plain "no s3") | BucketExists _ => Err (Plain "no s3") | ListObjects _ _ => ([], None)
  | StatObject _ _ => Err (Plain "no s3") | RemoveObject _ _ => Err (Plain "no s3")
  | FPutObject _ _ _ _ _ => Err (Plain "no s3") | FGetObject _ _ _ => Err (Plain "no s3") | ReadObject _ _ => Err (Plain "no s3")
  end.

Definition with_os (o : Os) (w : SnWorld) : SnWorld := mkSnWorld o (w_records w) (w_cm w) (w_rv w) (w_events w) (w_patched w).
Definition with_records (t : gmap string ESF) (w : SnWorld) : SnWorld :=
  mkSnWorld (w_os w) t (w_cm w) (w_rv w + 1) (w_events w) (w_patched w).
Definition with_cm (c : ConfigMap) (w : SnWorld) : SnWorld :=
  mkSnWorld (w_os w) (w_records w) (Some c) (w_rv w + 1) (w_events w) (w_patched w).

Definition listed_records (sel : option string -> bool) (t : gmap string ESF) : list ESF :=
  (filter (fun x => esf_Name x.2 = x.1 /\ sel (node_label x.2) = true) (map_to_list t)).*2.

Definition live_sn (nodes : list SNode) : handler snE SnWorld := fun X eff w =>
  let m := os_fs (w_os w) in
  let t := w_records w in
  let now := os_clock (w_os w) in
  match eff in snE X return X * SnWorld with
  | SnOs e => let '(x, o) := live_os _ e (w_os w) in (x, with_os o w)
  | SnS3 e => (no_s3 (w_os w) e, w)
  | StatDir p => (match walk_files p m with [] => Err not_exist | _ => Ok true end, w)
  | Walk p => (Walked (walk_files p m), w)
  | FileSize p => (match m !! p with Some f => Ok (Z.of_nat (String.length (f_content f))) | None => Err not_exist end, w)
  | Zip src dst _ _ =>
      (Ok tt, with_os (with_fs (<[dst := mkFile (default "" (f_content <$> m !! src)) now]> m) (w_os w)) w)
  | EtcdIsLearner => (Ok false, w)
  | SaveWithVersion p => (Ok tt, with_os (with_fs (<[p := mkFile "data" now]> m) (w_os w)) w)
  | ClientConfig => (Ok tt, w)
  | TryLock => (true, w)
  | Unlock => (tt, w)
  | ExtraMetadata => (None, w)
  | S3Start => (Err (Plain "no s3"), w)
  | GetESF n => (match t !! n with Some e => Ok e | None => Err (Api RNotFound) end, w)
  | CreateESF e =>
      match t !! esf_Name e with
      | Some _ => (Err (Api RAlreadyExists), w)
      | None => (Ok (stamped (w_rv w) now e), with_records (<[esf_Name e := stamped (w_rv w) now e]> t) w)
      end
  | UpdateESF e =>
      match t !! esf_Name e with
      | Some old => (Ok tt, with_records (<[esf_Name e := stamped (w_rv w) (default 0 (esf_Created old)) e]> t) w)
      | None => (Err (Api RNotFound), w)
      end
  | DeleteESF n => (match t !! n with Some _ => Ok tt | None => Err (Api RNotFound) end, with_records (delete n t) w)
  | ListESF sel => (Ok (listed_records sel t), w)
  | GetCM => (match w_cm w with Some c => Ok c | None => Err (Api RNotFound) end, w)
  | CreateCM c => let c := mkConfigMap (Some now) (w_rv w) (cm_Data c) in (Ok c, with_cm c w)
  | UpdateCM c => let c := mkConfigMap (cm_Created c) (w_rv w) (cm_Data c) in (Ok c, with_cm c w)
  | EtcdNodes => (Ok nodes, w)
  | PatchNode n _ =>
      if decide (n ∈ sn_Name <$> nodes)
      then (Ok tt, mkSnWorld (w_os w) t (w_cm w) (w_rv w) (w_events w) (w_patched w ++ [n]))
      else (Err (Api RNotFound), w)
  | EmitEvent what n => (tt, mkSnWorld (w_os w) t (w_cm w) (w_rv w) (w_events w ++ [(what, n)]) (w_patched w))
  | Requeue => (tt, w)
  end.

(** ** The contract *)

Lemma filtered_keys_NoDup {A} (P : string * A -> Prop) `{!forall x, Decision (P x)} (m : gmap string A) :
  NoDup (filter P (map_to_list m)).*1.
Proof. apply (sublist_NoDup _ (map_to_list m).*1); [apply NoDup_fst_map_to_list|]. apply fmap_sublist, sublist_filter. Qed.

Lemma walk_files_lists dir m : lists dir m (walk_files dir m).
Proof.
  unfold walk_files. set (P := fun x : string * file => under dir x.1 = true). split_and!.
  - rewrite <-list_fmap_compose. apply (filtered_keys_NoDup P).
  - intros f Hf. apply list_elem_of_fmap in Hf as (x & -> & Hx). apply list_elem_of_filter in Hx as [Hu Hx].
    destruct x as [p g]. apply elem_of_map_to_list in Hx. split_and!; [done|done|by exists g].
  - intros p [g Hg] Hu. apply list_elem_of_fmap. exists (mkWalk p (path_Base p) (Z.of_nat (String.length (f_content g))) (f_mtime g)).
    split; [done|]. apply list_elem_of_fmap. exists (p, g). split; [done|]. apply list_elem_of_filter. split; [done|].
    by apply elem_of_map_to_list.
Qed.

Lemma listed_records_ok sel t : NoDup (esf_Name <$> listed_records sel t) /\
  forall e, e ∈ listed_records sel t <-> t !! esf_Name e = Some e /\ sel (node_label e) = true.
Proof.
  unfold listed_records. set (P := fun x : string * ESF => esf_Name x.2 = x.1 /\ sel (node_label x.2) = true). split.
  - rewrite <-list_fmap_compose.
    replace (esf_Name ∘ snd <$> filter P (map_to_list t)) with (filter P (map_to_list t)).*1; [apply filtered_keys_NoDup|].
    apply list_fmap_ext. intros i x Hx%list_elem_of_lookup_2. by apply list_elem_of_filter in Hx as [[? _] _].
  - intros e. rewrite list_elem_of_fmap. split.
    + intros ([k e'] & -> & Hx). apply list_elem_of_filter in Hx as [[En Hs] Hx]. cbn in En, Hs |- *. subst k.
      by apply elem_of_map_to_list in Hx.
    + intros [Et Hs]. exists (esf_Name e, e). split; [done|]. apply list_elem_of_filter. split; [done|].
      by apply elem_of_map_to_list.
Qed.

Lemma live_sn_ok nodes : respects (live_sn nodes) (fun w => (os_fs (w_os w), w_records w)) (record_contract false nodes).
Proof.
  intros X e w. destruct e; cbn; try done; try by split_and!.
  - pose proof (live_os_ok X e (w_os w)) as H. destruct (live_os X e (w_os w)). by split.
  - split_and!; [done..|apply walk_files_lists].
  - split_and!; [done|done|by left].
  - destruct (w_records w !! esf_Name e) eqn:E; cbn; (split; [done|left]); [done|]. by eexists _, _.
  - destruct (w_records w !! esf_Name e) eqn:E; cbn; (split; [done|left]); [|done]. split; [done|]. by eexists.
  - split; [done|]. left. split; [done|]. destruct (w_records w !! name); [by left|by right].
  - split_and!; [done|done|]. right. eexists. split; [done|apply listed_records_ok].
  - split_and!; [done|done|by right].
  - by destruct (decide _).
Qed.

(** ** A server with a snapshot directory of its own *)

Definition plain_server (dir : string) : SnControl := mkSnControl "/d" dir "a" 5 false None false "" "" "" "n1" true.
Definition etcd_nodes : list SNode := [mkSNode "n1" ∅; mkSNode "n2" ∅].

(** The record of a snapshot in that directory, and one of another node. *)
Definition record_of (name node snapshot : string) : ESF :=
  mkESF name 1 (Some 0) None {[LabelStorageNode := node]} ∅ snapshot node ("file:///own/" +:+ snapshot) ∅ None (Some 0) (Some true) (Some 1) None.

Definition sample_world : SnWorld :=
  mkSnWorld
    (mkOs {["/own/a-n1-100" := mkFile "1" (100 * second); "/d/db/snapshots/other" := mkFile "2" (50 * second)]} (1000 * second) [])
    {["local-a-n1-100-x" := record_of "local-a-n1-100-x" "n1" "a-n1-100"; "local-a-n2-1-y" := record_of "local-a-n2-1-y" "n2" "a-n2-1"]}
    None 1 [] [].

Definition run_request (cfg : SnControl) (req : option SnapshotRequest) (w : SnWorld) : outcome snapshot_reply * SnWorld :=
  run (live_sn etcd_nodes)
    (snapshotHandler (BT := sample_tokens) (XC := letter_x509) (MJ := sample_meta_json) (DN := sample_names) (SS := insertion_order)
       (MO := list_order) (fun _ => None) (fun _ => true) (fun _ => true) (fun _ => "") (fun _ => None) cfg req) w.

(** A request that names no directory works on the default one, whatever the
    server is configured with: pruning keeps the file and forgets its record. *)
Example request_forgets_directory :
  let w := snd (run_request (plain_server "/own") (Some (mkSnapshotRequest OpPrune ["a"] None None (Some 5) None)) sample_world) in
  is_Some (os_fs (w_os w) !! "/own/a-n1-100") /\ w_records w !! "local-a-n1-100-x" = None /\
  is_Some (w_records w !! "local-a-n2-1-y").
Proof. vm_compute. split_and!; [by eexists|done|by eexists]. Qed.

(** A request that cannot be read panics after its answer. *)
Example unreadable_request_panics w : fst (run_request (plain_server "") None w) = Panicked.
Proof. reflexivity. Qed.

(** Retention goes by prefix: two schedules prune each other's snapshots. *)
Example retention_takes_prefixes :
  let disk : fs := {["/s/snapshots/nightly-n1-100" := mkFile "1" (100 * second);
                     "/s/snapshots/nightly-full-n1-50" := mkFile "2" (50 * second)]} in
  fst (run (live_sn etcd_nodes) (snapshotRetention (SS := insertion_order) 1 "nightly" "/s/snapshots")
         (mkSnWorld (mkOs disk 0 []) ∅ None 1 [] [])) = Done (["nightly-full-n1-50"], None).
Proof. vm_compute. reflexivity. Qed.

(** Entries of the config map are matched with the names of nodes, but what is
    cut off as a time takes digits of the name with it, and leaves a 9: the
    entries of live nodes that have not been reconciled yet are dropped. *)
Example entry_of_live_node_dropped :
  keep_entry etcd_nodes ∅ "local-etcd-snapshot-n1-1700000000" = false /\
  keep_entry [mkSNode "server" ∅] ∅ "local-etcd-snapshot-server-1700000009" = false /\
  keep_entry [mkSNode "server" ∅] ∅ "local-etcd-snapshot-server-1700000000" = true.
Proof. vm_compute. done. Qed.
