(* ===== verification/EtcdMembers.v ===== *)
(** * Members of the embedded etcd

    [pkg/etcd/etcd.go]: how a server joins the cluster, how the leader
    promotes and evicts learners and reports the state of members on their
    nodes, how members are removed, and the test that a server has become
    one. *)
From Stdlib Require Import ZArith Lia.
From S2P Require Import Prelude GoText NetAddr GoTime SessionEnv Prog Os JoinToken.

#[local] Open Scope Z_scope.

(** ** Data *)

Record Member := mkMember {
  m_ID : Z; m_Name : string; m_PeerURLs : list string; m_ClientURLs : list string; m_IsLearner : bool;
}.
#[export] Instance Member_eq_dec : EqDecision Member.
Proof. solve_decision. Defined.

Record learnerProgress := mkProgress { lp_ID : Z; lp_Name : string; lp_Index : Z; lp_Last : Z }.
#[export] Instance learnerProgress_eq_dec : EqDecision learnerProgress.
Proof. solve_decision. Defined.

(** The answer of an endpoint to a status request. *)
Record EpStatus := mkEpStatus { es_MemberID : Z; es_Leader : Z; es_Index : Z; es_Learner : bool; es_Errors : list string }.

Inductive AlarmType := NOSPACE | OtherAlarm.

Inductive MemberStatus := StatusUnjoined | StatusUnhealthy | StatusLearner | StatusVoter.

(** The condition [EtcdIsVoter] of a node. *)
Record Condition := mkCondition { c_Status : bool; c_Reason : string; c_Message : string; c_Heartbeat : Z; c_Transition : Z }.

(** A node: its labels and annotations, and the condition if it has it. *)
Record ENode := mkENode {
  en_Name : string; en_Labels : gmap string string; en_Annotations : gmap string string; en_Condition : option Condition;
}.

Inductive ClusterState := StateNew | StateExisting | StateDefault.

Inductive memE : Type -> Type :=
  | MOs {X} (e : osE X) : memE X
  | MemberList : memE (res (list Member))
  | MemberAddAsLearner (url : string) : memE (res unit)
  | MemberRemove (id : Z) : memE (res unit)
  | MemberPromote (id : Z) : memE (res unit)
  | MemberUpdate (id : Z) (url : string) : memE (res unit)
  | EndpointStatus (ep : string) : memE (res EpStatus)
  | Defragment : memE (res unit)
  | AlarmList : memE (res (list (Z * AlarmType)))
  | AlarmDisarm (id : Z) : memE (res unit)
  | GetProgress : memE (res (option learnerProgress))
  | PutProgress (p : learnerProgress) : memE (res unit)
  | PutAddresses (value : string) : memE (res unit)
  | GetClientSet : memE (res unit)
  | CachedEtcdNodes : memE (res (list ENode))
  | ListEtcdNodes : memE (res (list ENode))
  | UpdateENode (n : ENode) : memE (ENode * option error)
  | SetNodeCondition (node : string) (c : Condition) : memE (res unit)
  | EnqueueAfter : memE unit
  | DbInfo : memE (res (list Member))
  | RemoteClient (urls : list string) : memE (res unit)
  | StartEtcd (reset : bool) (cluster : string) (state : ClusterState) : memE (res unit).

Abbreviation memP := (prog memE).
Definition mos {A} (p : osP A) : memP A := trans (fun X e => MOs e) p.

Definition member_list_failed : error := Plain "failed to get MemberList from server".
Definition too_many_learners : error := Plain "etcdserver: too many learner members in cluster".
Definition etcd_unhealthy : error := Plain "etcdserver: unhealthy cluster".
Definition member_not_found : error := Plain "etcdserver: member not found".
Definition not_enough_started : error := Plain "etcdserver: re-configuration failed due to not enough started members".
Definition no_leader : error := Plain "etcdserver: no leader".

Definition learnerMaxStallTime : Z := 5 * minute.
Definition heartbeatInterval : Z := 5 * minute.
Definition NodeNameAnnotation : string := "etcd.k8e.sh/node-name".
Definition NodeAddressAnnotation : string := "etcd.k8e.sh/node-address".

(** [url.Parse] and [Hostname] on the URLs of members; the name in a URL made
    from an address is that address. *)
Class UrlHost := mkUrlHost {
  hostname : string -> option string;
  is_address : string -> bool;
  hostname_of : forall a p, is_address a = true -> hostname ("https://" +:+ JoinHostPort a p) = Some a;
}.

(** This server: [ETCD] with the configuration it uses. *)
Record Etcd := mkEtcd {
  e_name : string; e_address : string; e_PrivateIP : string; e_ServerNodeName : string; e_DataDir : string;
  e_endpoint : string; e_DisableETCD : bool; e_NODE_NAME : string;
}.

Definition dbDir (e : Etcd) : string := path_Join [e_DataDir e; "db"; "etcd"].
Definition walDir (e : Etcd) : string := path_Join [dbDir e; "member"; "wal"].
Definition nameFile (e : Etcd) : string := path_Join [dbDir e; "name"].
Definition ResetFile (e : Etcd) : string := path_Join [e_DataDir e; "db"; "reset-flag"].
Definition peerURL (e : Etcd) : string := "https://" +:+ JoinHostPort (e_address e) "2380".
Definition clientURL (e : Etcd) : string := "https://" +:+ JoinHostPort (e_address e) "2379".

(** The part before the last dash. *)
Definition dash : Ascii.ascii := Ascii.ascii_of_nat 45.
Fixpoint before_last_dash (s : string) : option string :=
  match s with
  | EmptyString => None
  | String c r =>
      match before_last_dash r with
      | Some b => Some (String c b)
      | None => if Ascii.eqb c dash then Some "" else None
      end
  end.

Section etcd.
Context `{UH : UrlHost}.
Implicit Types (e : Etcd).

(** ** Joining *)

(** [ClientURLs]; [advertised] is the address of this server and [join_host]
    the host that is joined. *)
Definition member_urls (advertised join_host : string) (urls : list string) (m : Member) : list string :=
  let hosts := omap hostname (m_ClientURLs m) in
  let isSelf := bool_decide (advertised ∈ hosts) in
  let isPreferred := bool_decide (join_host ∈ hosts) && negb (bool_decide (join_host = advertised)) in
  if negb (m_IsLearner m) && negb isSelf
  then if isPreferred then m_ClientURLs m ++ urls else urls ++ m_ClientURLs m
  else urls.

Definition ClientURLs (advertised : res string) (join_host : option string) : memP (res (list string * list Member)) :=
  match advertised, join_host with
  | Err e, _ => Ret (Err e)
  | _, None => Ret (Err (Plain "parse"))
  | Ok ip, Some h =>
      try members <- call DbInfo;
      Ret (Ok (foldl (member_urls ip h) [] (members : list Member), members))
  end.

(** The peer URLs of one member: its name, the entries of the cluster so far,
    and whether this server has to be added; [None] for a URL that cannot be
    parsed. *)
Fixpoint scan_peers e (first : string) (peers : list string) (name : string) (cluster : list string) (add : bool)
    : option (string * list string * bool) :=
  match peers with
  | [] => Some (name, cluster, add)
  | p :: peers =>
      match hostname p with
      | None => None
      | Some h =>
          let name := if decide (name = "" /\ h = e_address e) then e_name e else name in
          let add := if decide (name = e_name e /\ h = e_address e) then false else add in
          scan_peers e first peers name (cluster ++ [name +:+ "=" +:+ first]) add
      end
  end.

(** The node a member is named after. *)
Definition memberNodeName (name : string) : string :=
  match before_last_dash name with
  | Some b => if (1 <? String.length b)%nat then b else name
  | None => name
  end.

Fixpoint scan_members e (l : list Member) (cluster : list string) (add : bool) : memP (res (list string * bool)) :=
  match l with
  | [] => Ret (Ok (cluster, add))
  | m :: l =>
      match scan_peers e (default "" (head (m_PeerURLs m))) (m_PeerURLs m) (m_Name m) cluster add with
      | None => Ret (Err (Plain "parse"))
      | Some (name, cluster, add) =>
          if decide (name <> e_name e /\ memberNodeName name = e_ServerNodeName e)
          then do _r <- mos (call (Remove (nameFile e)));
               Ret (Err (Plain "duplicate node name found, please use a unique name for this node"))
          else scan_members e l cluster add
      end
  end.

Definition join e (advertised : res string) (join_host : option string) : memP (res unit) :=
  try found <- ClientURLs advertised join_host;
  try _c <- call (RemoteClient (fst found));
  try scanned <- scan_members e (snd found) [] true;
  let '(cluster, add) := scanned in
  try cluster <- (if add : bool
                  then try _a <- call (MemberAddAsLearner (peerURL e)); Ret (Ok (cluster ++ [e_name e +:+ "=" +:+ peerURL e]))
                  else Ret (Ok cluster));
  call (StartEtcd false (join_with "," cluster) StateExisting).

(** [startJoinLoop] once the runtime is ready, for [n] polls; [false] when
    the context ends first, a panic where the process exits. *)
Fixpoint startJoinLoop e (advertised : res string) (join_host : option string) (n : nat) : memP bool :=
  match n with
  | O => Ret false
  | S n =>
      do r <- join e advertised join_host;
      match r with
      | Ok _ => Ret true
      | Err err =>
          if decide (err = too_many_learners \/ err = etcd_unhealthy \/ err = member_list_failed)
          then startJoinLoop e advertised join_host n
          else Panic "etcd cluster join failed"
      end
  end.

(** ** Membership *)

Fixpoint remove_at e (address : string) (allowSelf : bool) (id : Z) (peers : list string) : memP (option (res unit)) :=
  match peers with
  | [] => Ret None
  | p :: peers =>
      match hostname p with
      | None => Ret (Some (Err (Plain "parse")))
      | Some h =>
          if decide (h = address)
          then if bool_decide (e_address e = address) && negb allowSelf
               then Ret (Some (Err (Plain "not removing self from etcd cluster")))
               else do r <- call (MemberRemove id);
                    Ret (Some (match r with
                               | Err err => if decide (err = member_not_found) then Ok tt else Err err
                               | Ok _ => Ok tt
                               end))
          else remove_at e address allowSelf id peers
      end
  end.

Fixpoint remove_among e (name address : string) (allowSelf : bool) (l : list Member) : memP (res unit) :=
  match l with
  | [] => Ret (Ok tt)
  | m :: l =>
      if decide (m_Name m = name)
      then do r <- remove_at e address allowSelf (m_ID m) (m_PeerURLs m);
           match r with Some r => Ret r | None => remove_among e name address allowSelf l end
      else remove_among e name address allowSelf l
  end.

Definition RemovePeer e (name address : string) (allowSelf : bool) : memP (res unit) :=
  try members <- call MemberList; remove_among e name address allowSelf members.

Definition GetMembersClientURLs : memP (res (list string)) :=
  try members <- call MemberList;
  Ret (Ok (concat ((fun m => if m_IsLearner m then [] else m_ClientURLs m) <$> (members : list Member)))).

(** [infoHandler]: the members, or the status of the refusal. *)
Definition infoHandler (get : bool) : memP (list Member + Z) :=
  if negb get then Ret (inr 405)
  else do members <- call MemberList; Ret (match members with Ok l => inl l | Err _ => inr 500 end).

(** ** The test that this server is a member *)

Fixpoint clear_each (id : Z) (l : list (Z * AlarmType)) : memP (res unit) :=
  match l with
  | [] => Ret (Ok tt)
  | (m, alarm) :: l =>
      if decide (m = id) then
        match alarm with
        | NOSPACE => try _d <- call (AlarmDisarm m); clear_each id l
        | OtherAlarm => Ret (Err (Plain "alarm must be disarmed manually"))
        end
      else clear_each id l
  end.
Definition clearAlarms (id : Z) : memP (res unit) := try l <- call AlarmList; clear_each id l.

Definition is_me e (m : Member) : bool := bool_decide (peerURL e ∈ m_PeerURLs m) && bool_decide (e_name e = m_Name m).

Definition not_member : error := Plain "this server is a not a member of the etcd cluster".

Definition Test e : memP (res unit) :=
  try st <- call (EndpointStatus (e_endpoint e));
  if es_Learner st then Ret (Err (Plain "this server has not yet been promoted from learner to voting member"))
  else if decide (es_Leader st = 0) then Ret (Err no_leader)
  else
    try _d <- call Defragment;
    try _a <- clearAlarms (es_MemberID st);
    try _s <- call (EndpointStatus (e_endpoint e));
    try members <- call MemberList;
    Ret (if existsb (is_me e) members then Ok tt else Err not_member).

(** ** Learners *)

Definition getETCDStatus (ep : string) : memP (res EpStatus) :=
  do r <- call (EndpointStatus ep);
  Ret (match r with
       | Ok st => if decide (es_Errors st = []) then Ok st else Err (Plain "etcd member has status errors")
       | Err e => Err e
       end).

(** The index of the first URL that answers. *)
Fixpoint update_progress (now : Z) (p : learnerProgress) (urls : list string) : memP learnerProgress :=
  match urls with
  | [] => Ret p
  | ep :: urls =>
      do st <- getETCDStatus ep;
      match st with
      | Err _ => update_progress now p urls
      | Ok st => Ret (if lp_Index p <? es_Index st then mkProgress (lp_ID p) (lp_Name p) (es_Index st) now else p)
      end
  end.

(** The record that is kept of [m]: of another learner it is started anew. *)
Definition tracked (now : Z) (m : Member) (p : learnerProgress) : learnerProgress :=
  if decide (lp_Name p <> m_Name m \/ lp_ID p <> m_ID m) then mkProgress (m_ID m) (m_Name m) 0 now else p.

Definition trackLearnerProgress (progress : learnerProgress) (m : Member) : memP (learnerProgress * res unit) :=
  do promoted <- call (MemberPromote (m_ID m));
  match promoted with
  | Ok _ => Ret (progress, Ok tt)
  | Err _ =>
      do now <- mos (call Now);
      do p <- update_progress now (tracked now m progress) (m_ClientURLs m);
      if learnerMaxStallTime <? now - lp_Last p
      then do r <- call (MemberRemove (m_ID m)); Ret (p, r)
      else do r <- call (PutProgress p); Ret (p, r)
  end.

Definition status_condition (s : MemberStatus) : bool * string * string :=
  match s with
  | StatusLearner => (false, "MemberIsLearner", "Node has not been promoted to voting member of the etcd cluster")
  | StatusVoter => (true, "MemberNotLearner", "Node is a voting member of the etcd cluster")
  | StatusUnhealthy => (false, "Unhealthy", "Node is unhealthy")
  | StatusUnjoined => (false, "NotAMember", "Node is not a member of the etcd cluster")
  end.

Definition setEtcdStatusCondition (node : ENode) (s : MemberStatus) (message : string) : memP (res unit) :=
  let '(status, reason, text) := status_condition s in
  let text := if decide (message = "") then text else message in
  let fresh : memP (res unit) :=
    do t1 <- mos (call Now); do t2 <- mos (call Now);
    call (SetNodeCondition (en_Name node) (mkCondition status reason text t1 t2)) in
  match en_Condition node with
  | None => fresh
  | Some c =>
      if decide (c_Status c = status /\ c_Reason c = reason /\ c_Message c = text)
      then do now <- mos (call Now);
           if now - c_Heartbeat c <? heartbeatInterval then Ret (Ok tt)
           else do now <- mos (call Now);
                call (SetNodeCondition (en_Name node) (mkCondition status reason text now (c_Transition c)))
      else fresh
  end.

Definition node_of (nodes : list ENode) (m : Member) : option ENode :=
  find (fun n => bool_decide (m_Name m = default "" (en_Annotations n !! NodeNameAnnotation))) nodes.

(** One round over the members; [seen] are the nodes that are members. *)
Fixpoint each_member (error_text : error -> string) (nodes : list ENode) (l : list Member) (progress : learnerProgress)
    (seen : list string) : memP (list string) :=
  match l with
  | [] => Ret seen
  | m :: l =>
      do tracked <- (if m_IsLearner m then trackLearnerProgress progress m else Ret (progress, Ok tt));
      let progress := fst tracked in
      match node_of nodes m with
      | None => each_member error_text nodes l progress seen
      | Some n =>
          match m_ClientURLs m with
          | [] => Panic "index out of range"
          | ep :: _ =>
              do healthy <- getETCDStatus ep;
              do _r <- (match healthy with
                        | Err err => setEtcdStatusCondition n StatusUnhealthy (error_text err)
                        | Ok _ => setEtcdStatusCondition n (if m_IsLearner m then StatusLearner else StatusVoter) ""
                        end);
              each_member error_text nodes l progress (en_Name n :: seen)
          end
      end
  end.

(** [manageLearners], one tick.  The nodes without a member come in the order
    of a map by name, which keeps the last of a name. *)
Definition manage_tick `{MO : MapOrder} (error_text : error -> string) e : memP unit :=
  do st <- call (EndpointStatus (e_endpoint e));
  match st with
  | Err _ => Ret tt
  | Ok st =>
      if decide (es_MemberID st <> es_Leader st) then Ret tt
      else
        do progress <- call GetProgress;
        do members <- (match progress with Err e => Ret (Err e) | Ok _ => call MemberList end);
        do client <- (match members with Err e => Ret (Err e) | Ok _ => call GetClientSet end);
        match progress, members, client with
        | Ok progress, Ok members, Ok _ =>
            do nodes <- call CachedEtcdNodes;
            let nodes := match nodes with Ok l => l | Err _ => [] end in
            do seen <- each_member error_text nodes members (default (mkProgress 0 "" 0 0) progress) [];
            let by_name : gmap string ENode := list_to_map (rev ((fun n => (en_Name n, n)) <$> nodes)) in
            for_each (iter by_name) (fun x =>
              if decide (x.1 ∈ seen) then Ret tt
              else do _r <- setEtcdStatusCondition x.2 StatusUnjoined ""; Ret tt)
        | _, _, _ => Ret tt
        end
  end.

End etcd.
