(* ===== verification/EtcdServer.v ===== *)
(** * Starting, resetting and restoring the embedded etcd

    The rest of [pkg/etcd/etcd.go] and [pkg/cluster/managed.go]: the name of
    the member and the files that record its state, start, cluster reset and
    restore, backups of the data directory, and how a server decides that it
    runs etcd at all. *)
From Stdlib Require Import ZArith Lia.
From S2P Require Import Prelude GoText NetAddr GoTime SessionEnv Prog Os Signed JoinToken SnapshotFile S3Store EtcdSnapshot EtcdMembers.

#[local] Open Scope Z_scope.

Inductive goroutine := Cron | ManageLearners | StartS3 | JoinLoop.

(** A directory entry with its information. *)
Record DirEntry := mkDirEntry { de_Name : string; de_IsDir : bool; de_ModTime : Z }.

Inductive srvE : Type -> Type :=
  | SvMem {X} (e : memE X) : srvE X
  | SvSn {X} (e : snE X) : srvE X
  | StatInfo (p : string) : srvE (res (bool * Z))
  | ReadDirInfo (p : string) : srvE (res (list DirEntry))
  | RemoveAll (p : string) : srvE (res unit)
  | RenameDir (p q : string) : srvE (res unit)
  | ChmodDir (p : string) : srvE (res unit)
  | Uuid : srvE string
  | ClientStarted : srvE bool
  | StartClient : srvE (res unit)
  | DecompressSnapshot (p : string) : srvE (res string)
  | RestoreData (snapshot name dir wal peer cluster : string) : srvE (res unit)
  | Rebootstrap : srvE (res unit)
  | GenServerDeps : srvE (res unit)
  | Cancel : srvE unit
  | Exit : srvE unit
  | Go (g : goroutine) : srvE unit
  | ApiAddresses : srvE (res (option string)).

Abbreviation srvP := (prog srvE).
Definition svos {A} (p : osP A) : srvP A := trans (fun X e => SvMem (MOs e)) p.
Definition svmem {A} (p : memP A) : srvP A := trans (fun X e => SvMem e) p.
Definition svsn {A} (p : snP A) : srvP A := trans (fun X e => SvSn e) p.

Definition maxBackupRetention : Z := 5.

(** ** Text *)

(** [parseURLs], with the URLs that can be parsed. *)
Definition parseURLs (valid : string -> bool) (s : string) : list string :=
  if decide (s = "") then [] else filter (fun p => p <> "" /\ valid p = true) (split_on comma s).

Inductive extra := XInt (n : Z) | XBool (b : bool) | XString (s : string).

Fixpoint trim_dashes (s : string) : string :=
  match s with String c r => if Ascii.eqb c dash then trim_dashes r else s | EmptyString => "" end.

Definition extra_value (ParseDuration : string -> option Z) (val : string) : extra :=
  match ParseInt val with
  | Some i => XInt i
  | None => match ParseDuration val with
            | Some d => XInt d
            | None => if decide (ToLower val = "true") then XBool true
                      else if decide (ToLower val = "false") then XBool false else XString val
            end
  end.

Definition parseExtraArgs (ParseDuration : string -> option Z) (args : list string) : gmap string extra :=
  foldl (fun m arg => match split2 "=" (trim_dashes arg) with
                      | (key, Some val) => <[key := extra_value ParseDuration val]> m
                      | (_, None) => m
                      end) ∅ args.

(** [addPort] on the scheme, host and port of a URL. *)
Definition addPort (scheme host port : string) (offset : Z) : option string :=
  p ← ParseInt port; Some (scheme +:+ "://" +:+ host +:+ ":" +:+ itoa (p + offset)).

(** ** Where etcd listens *)

Record EmbedConfig := mkEmbed {
  em_Name : string; em_DataDir : string; em_WALDir : string; em_AdvertisePeer : list string; em_AdvertiseClient : list string;
  em_ListenPeer : list string; em_ListenClient : list string; em_ListenClientHTTP : list string; em_ListenMetrics : list string;
  em_InitialCluster : string; em_State : ClusterState; em_ForceNew : bool; em_Extra : gmap string extra;
}.

Section urls.
Context (loopback : string) (expose_metrics : bool).
Implicit Types (e : Etcd) (reset : bool).

Definition listenPeerURLs e reset : string :=
  "https://" +:+ loopback +:+ ":2380" +:+ (if reset then "" else "," +:+ peerURL e).
Definition listenClientURLs e reset : string :=
  "https://" +:+ loopback +:+ ":2379" +:+ (if reset then "" else "," +:+ clientURL e).
Definition listenMetricsURLs e reset : string :=
  "http://" +:+ loopback +:+ ":2381" +:+
  (if negb reset && expose_metrics then "," +:+ "http://" +:+ JoinHostPort (e_address e) "2381" else "").
Definition listenClientHTTPURLs : string := "https://" +:+ loopback +:+ ":2382".

(** The configuration [cluster] starts etcd with, but for certificates and
    constants. *)
Definition cluster_config (valid : string -> bool) (ParseDuration : string -> option Z) (extra_args : list string)
    e reset (cluster : string) (state : ClusterState) : EmbedConfig :=
  mkEmbed (e_name e) (dbDir e) (walDir e) (parseURLs valid (peerURL e)) (parseURLs valid (clientURL e))
    (parseURLs valid (listenPeerURLs e reset)) (parseURLs valid (listenClientURLs e reset))
    (parseURLs valid listenClientHTTPURLs) (parseURLs valid (listenMetricsURLs e reset))
    cluster state reset (parseExtraArgs ParseDuration extra_args).
End urls.

(** ** The name and the state files *)

Definition with_name (n : string) (e : Etcd) : Etcd :=
  mkEtcd n (e_address e) (e_PrivateIP e) (e_ServerNodeName e) (e_DataDir e) (e_endpoint e) (e_DisableETCD e) (e_NODE_NAME e).

(** [setName]; the name is set before the directory is made. *)
Definition setName (e : Etcd) (force : bool) : srvP (Etcd * res unit) :=
  do data <- svos (call (ReadFile (nameFile e)));
  if match data with Err err => bool_decide (err = not_exist) | Ok _ => false end || force then
    if decide (e_ServerNodeName e = "") then Ret (e, Err (Plain "server node name not set"))
    else
      do id <- call Uuid;
      let e := with_name (e_ServerNodeName e +:+ "-" +:+ take_str 8 id) e in
      do d <- svos (call (MkdirAll (path_Dir (nameFile e))));
      match d with
      | Err err => Ret (e, Err err)
      | Ok _ => do w <- svos (WriteFile (nameFile e) (e_name e)); Ret (e, w)
      end
  else Ret (match data with Ok text => (with_name text e, Ok tt) | Err err => (e, Err err) end).

Definition clearReset (e : Etcd) : srvP (res unit) :=
  do r <- svos (call (Remove (ResetFile e)));
  Ret (match r with Err err => if decide (err = not_exist) then Ok tt else Err err | Ok _ => Ok tt end).

Definition IsReset (e : Etcd) : srvP (res bool) :=
  do r <- call (StatInfo (ResetFile e));
  Ret (match r with Err err => if decide (err = not_exist) then Ok false else Err err | Ok _ => Ok true end).

(** A file in the place of the directory is no error, since wrapping a nil
    error gives nil. *)
Definition IsInitialized (e : Etcd) : srvP (res bool) :=
  do r <- call (StatInfo (walDir e));
  Ret (match r with
       | Ok (isDir, _) => Ok isDir
       | Err err => if decide (err = not_exist) then Ok false else Err err
       end).

(** ** Backups *)

Fixpoint remove_old (parent prefix : string) (keep count : Z) (l : list DirEntry) : srvP (res unit) :=
  match l with
  | [] => Ret (Ok tt)
  | f :: l =>
      if has_prefix (de_Name f) prefix && de_IsDir f then
        if keep <? count + 1
        then try _r <- call (RemoveAll (path_Join [parent; de_Name f])); remove_old parent prefix keep (count + 1) l
        else remove_old parent prefix keep (count + 1) l
      else remove_old parent prefix keep count l
  end.

Definition backupDirWithRetention `{SortSlice} (dir : string) (keep : Z) : srvP (res string) :=
  do now <- svos (call Now);
  let backupDir := dir +:+ "-backup-" +:+ itoa (now / second) in
  do st <- call (StatInfo dir);
  match st with
  | Err _ => Ret (Ok "")
  | Ok _ =>
      try files <- call (ReadDirInfo (path_Dir dir));
      try _r <- remove_old (path_Dir dir) (path_Base dir +:+ "-backup") keep 0 (newest_first de_ModTime files);
      try _r <- call (RenameDir dir backupDir);
      Ret (Ok backupDir)
  end.

(** The part of [Register] that concerns the data directory. *)
Definition Register `{SortSlice} (e : Etcd) : srvP (Etcd * res unit) :=
  if e_DisableETCD e then Ret (e, Ok tt)
  else
    do tomb <- call (StatInfo (path_Join [dbDir e; "tombstone"]));
    do moved <- (if is_ok tomb then backupDirWithRetention (dbDir e) maxBackupRetention else Ret (Ok ""));
    match moved with Err err => Ret (e, Err err) | Ok _ => setName e false end.

(** ** Start, reset, restore *)

Section server.
Context `{UH : UrlHost, SS : SortSlice, MO : MapOrder}.
Context (ParseDuration : string -> option Z) (valid_proxy has_certs : string -> bool).
Implicit Types (e : Etcd) (sc : SnControl).

Definition newCluster e (reset : bool) : srvP (res unit) :=
  svmem (call (StartEtcd reset (e_name e +:+ "=" +:+ peerURL e) StateNew)).

Definition startExistingCluster e : srvP (res unit) :=
  try info <- call (StatInfo (dbDir e));
  try _m <- (if decide (snd info = 448) then Ret (Ok tt) else call (ChmodDir (dbDir e)));
  svmem (call (StartEtcd false (e_name e +:+ "=" +:+ peerURL e) StateNew)).

Definition startClient : srvP (res unit) :=
  do started <- call ClientStarted;
  if started : bool then Ret (Err (Plain "etcd datastore already started")) else call StartClient.

Definition Start e (disable_snapshots joining : bool) : srvP (res unit) :=
  try initialized <- IsInitialized e;
  try _c <- startClient;
  do! (if disable_snapshots then Ret tt else call (Go Cron));
  do! call (Go ManageLearners);
  do! call (Go StartS3);
  if initialized : bool then startExistingCluster e
  else if joining then do! call (Go JoinLoop); Ret (Ok tt)
  else newCluster e false.

Definition oldDataDir e (now : Z) : string := dbDir e +:+ "-old-" +:+ itoa (now / second).

Definition RestoreSnapshot e sc (path : string) : srvP (res unit) :=
  do now <- svos (call Now);
  if decide (path = "") then Ret (Err (Plain "no etcd restore path was specified"))
  else
    try _s <- call (StatInfo path);
    try restorePath <- (if has_suffix CompressedExtension path
                        then try _d <- svsn (snapshotDir sc true); call (DecompressSnapshot path)
                        else Ret (Ok path));
    try _r <- call (RenameDir (dbDir e) (oldDataDir e now));
    call (RestoreData restorePath (e_name e) (dbDir e) (walDir e) (peerURL e) (e_name e +:+ "=" +:+ peerURL e)).

(** What [Reset] does before it waits: fetch and restore a snapshot if asked
    to, take a new name, leave the flag, and start a cluster of one. *)
Definition reset_path e sc (path : string) : srvP (res unit) :=
  try path <- (match sc_S3 sc with
               | None => Ret (Ok path)
               | Some _ =>
                   do client <- svsn (getS3Client ParseDuration valid_proxy has_certs sc);
                   match client with
                   | Err err => Ret (Err (if decide (err = no_config_secret)
                                          then Plain "cannot use S3 config secret when restoring snapshot" else err))
                   | Ok (_, c) => try dir <- svsn (snapshotDir sc true); svsn (sns3 (Download c path dir))
                   end
               end);
  do info <- call (StatInfo path);
  match info with
  | Err err => if decide (err = not_exist) then Ret (Err (Plain "etcd: snapshot path does not exist"))
               else Panic "nil pointer dereference"
  | Ok (true, _) => Ret (Err (Plain "etcd: snapshot path must be a file, not a directory"))
  | Ok (false, _) => RestoreSnapshot e sc path
  end.

Definition Reset e sc (path : string) : srvP (Etcd * res unit) :=
  do started <- startClient;
  do restored <- (match started with
                  | Err err => Ret (Err err)
                  | Ok _ => if decide (path = "") then Ret (Ok tt) else reset_path e sc path
                  end);
  match restored with
  | Err err => Ret (e, Err err)
  | Ok _ =>
      do named <- setName e true;
      match snd named with
      | Err err => Ret (fst named, Err err)
      | Ok _ =>
          do flagged <- svos (WriteFile (ResetFile e) "");
          match flagged with
          | Err err => Ret (fst named, Err err)
          | Ok _ => do r <- newCluster (fst named) true; Ret (fst named, r)
          end
      end
  end.

(** One tick of the goroutine that waits for the reset cluster; [true] when it
    stops the process. *)
Definition reset_tick e : srvP bool :=
  do ok <- svmem (Test e);
  match ok with
  | Ok _ =>
      do put <- svmem (call (PutAddresses ""));
      do members <- (match put with Err err => Ret (Err err) | Ok _ => svmem (call MemberList) end);
      match members with
      | Err _ => Ret false
      | Ok members =>
          do b <- call Rebootstrap;
          do g <- (match b with Err _ => Panic "fatal" | Ok _ => call GenServerDeps end);
          match g with
          | Err _ => Panic "fatal"
          | Ok _ =>
              match members with
              | [m] => if decide (m_Name m = e_name e) then do! call Cancel; do! call Exit; Ret true else Ret false
              | _ => Ret false
              end
          end
      end
  | Err _ =>
      do members <- svmem (call MemberList);
      match members with
      | Err _ => Ret false
      | Ok [] => Panic "index out of range"
      | Ok [m] => do _r <- svmem (call (MemberUpdate (m_ID m) (peerURL e))); Ret false
      | Ok (_ :: _ :: _) => Ret false
      end
  end.

Definition RemoveSelf e : srvP (res unit) :=
  do started <- call ClientStarted;
  try _c <- (if started : bool then Ret (Ok tt) else startClient);
  try _r <- svmem (RemovePeer e (e_name e) (e_address e) true);
  do now <- svos (call Now);
  call (RenameDir (dbDir e) (oldDataDir e now)).

(** [GetAPIServerURLsFromETCD] *)
Definition address_not_set : error := Plain "apiserver addresses not yet set".
Definition GetAPIServerURLsFromETCD (unmarshal : string -> option (list string)) : srvP (res (list string)) :=
  do v <- call ApiAddresses;
  Ret (match v with
       | Err err => Err err
       | Ok None => Err address_not_set
       | Ok (Some text) =>
           if decide (text = "") then Err address_not_set
           else match unmarshal text with Some l => Ok l | None => Err (Plain "failed to unmarshal apiserver addresses") end
       end).

(** ** The managed datastore of a server: [managed.go] *)

Record Managed := mkManaged {
  mg_Endpoint : string; mg_ClusterInit : bool; mg_Token : string; mg_JoinURL : string; mg_ClusterReset : bool; mg_RestorePath : string;
}.

(** [assignManagedDriver]: whether this server runs etcd. *)
Definition assignManagedDriver e (cfg : Managed) : srvP (Etcd * res bool) :=
  do named <- setName e false;
  match snd named with
  | Err err => Ret (fst named, Err err)
  | Ok _ =>
      do initialized <- IsInitialized (fst named);
      Ret (fst named, match initialized with
           | Err err => Err err
           | Ok true => Ok true
           | Ok false => Ok (bool_decide (mg_Endpoint cfg = "") &&
                             (mg_ClusterInit cfg || (bool_decide (mg_Token cfg <> "") && bool_decide (mg_JoinURL cfg <> ""))))
           end)
  end.

(** [start]: the server as it is then, whether node password secrets are to be
    cleaned up, and the error. *)
Definition start e sc (cfg : Managed) (disable_snapshots joining : bool) : srvP (Etcd * bool * res unit) :=
  do resetDone <- IsReset e;
  match resetDone with
  | Err err => Ret (e, false, Err err)
  | Ok resetDone =>
      if mg_ClusterReset cfg then
        if bool_decide (mg_RestorePath cfg <> "") || negb resetDone
        then do r <- Reset e sc (mg_RestorePath cfg); Ret (fst r, false, snd r)
        else Ret (e, false, Err (Plain "Managed etcd cluster membership was previously reset"))
      else do r <- Start e disable_snapshots joining; Ret (e, resetDone, r)
  end.

End server.
