(* ===== verification/EtcdNodes.v ===== *)
(** * The node controllers of the embedded etcd

    [pkg/etcd/member_controller.go] removes members on request or with their
    node; [metadata_controller.go] writes on a node which member it runs. *)
From Stdlib Require Import ZArith Lia.
From S2P Require Import Prelude GoText GoTime SessionEnv Prog Os JoinToken EtcdMembers.

#[local] Open Scope Z_scope.

Definition ETCDRoleLabelKey : string := "node-role.kubernetes.io/etcd".
Definition removalAnnotation : string := "etcd.k8e.sh/remove".
Definition removedNodeNameAnnotation : string := "etcd.k8e.sh/removed-node-name".

Definition with_annotations (a : gmap string string) (n : ENode) : ENode := mkENode (en_Name n) (en_Labels n) a (en_Condition n).

Definition is_etcd_node (n : ENode) : bool := bool_decide (is_Some (en_Labels n !! ETCDRoleLabelKey)).

Section controllers.
Context `{UH : UrlHost}.
Implicit Types (e : Etcd) (node : ENode).

(** What a handler hands back. *)
Definition handled : Type := option ENode * res unit.

Definition update_node node : memP handled :=
  do r <- call (UpdateENode node); Ret (Some (fst r), match snd r with None => Ok tt | Some err => Err err end).

(** ** Removal of members *)

(** Both annotations, or the error of the one that is missing. *)
Definition member_annotations node : res (string * string) :=
  match en_Annotations node !! NodeNameAnnotation with
  | None => Err (Plain "node name annotation not found")
  | Some name =>
      match en_Annotations node !! NodeAddressAnnotation with
      | None => Err (Plain "node address annotation not found")
      | Some address => Ok (name, address)
      end
  end.

Definition member_sync e (node : option ENode) : memP handled :=
  match node with
  | None => Ret (None, Ok tt)
  | Some node =>
      if negb (is_etcd_node node) then Ret (Some node, Ok tt)
      else
        match en_Annotations node !! removalAnnotation with
        | None => Ret (Some node, Ok tt)
        | Some removalRequested =>
            match member_annotations node with
            | Err err => Ret (Some node, Err err)
            | Ok (name, address) =>
                match en_Annotations node !! removedNodeNameAnnotation with
                | Some removed =>
                    if decide (removed <> name)
                    then update_node (with_annotations (delete removalAnnotation (delete removedNodeNameAnnotation (en_Annotations node))) node)
                    else Ret (Some node, Ok tt)
                | None =>
                    if decide (ToLower removalRequested = "true") then
                      do r <- RemovePeer e name address true;
                      match r with
                      | Err err =>
                          if decide (err = not_enough_started)
                          then update_node (with_annotations (delete removalAnnotation (en_Annotations node)) node)
                          else Ret (Some node, Err err)
                      | Ok _ =>
                          update_node (with_annotations
                            (delete NodeAddressAnnotation (delete NodeNameAnnotation
                              (<[removedNodeNameAnnotation := name]> (en_Annotations node)))) node)
                      end
                    else Ret (Some node, Ok tt)
                end
            end
        end
  end.

(** A node that is nil is dereferenced. *)
Definition member_onRemove e (node : option ENode) : memP handled :=
  match node with
  | None => Panic "nil pointer dereference"
  | Some node =>
      if negb (is_etcd_node node) then Ret (Some node, Ok tt)
      else if bool_decide (default "" (en_Annotations node !! removedNodeNameAnnotation) <> "") then Ret (Some node, Ok tt)
      else match member_annotations node with
           | Err err => Ret (Some node, Err err)
           | Ok (name, address) => do r <- RemovePeer e name address true; Ret (Some node, r)
           end
  end.

(** ** The metadata of this server's node *)

(** The attempts of [retry.DefaultRetry]. *)
Definition conflict_steps : nat := 5.

(** The retry works on what the last update returned, also when it failed. *)
Fixpoint clear_removal (steps : nat) node : memP (ENode * res unit) :=
  match steps with
  | O => Ret (node, Ok tt)
  | S steps =>
      if bool_decide (is_Some (en_Annotations node !! removalAnnotation)) ||
         bool_decide (is_Some (en_Annotations node !! removedNodeNameAnnotation)) then
        do r <- call (UpdateENode (with_annotations
                        (delete removedNodeNameAnnotation (delete removalAnnotation (en_Annotations node))) node));
        match snd r with
        | None => Ret (fst r, Ok tt)
        | Some err =>
            if bool_decide (err = Api RConflict) && negb (Nat.eqb steps 0) then clear_removal steps (fst r)
            else Ret (fst r, Err err)
        end
      else Ret (node, Ok tt)
  end.

Definition checkReset (is_reset : memP (res bool)) (clear_reset : memP (res unit)) : memP unit :=
  do done_ <- is_reset;
  if match done_ with Ok true => true | _ => false end then
    do nodes <- call ListEtcdNodes;
    match nodes with
    | Err _ => Ret tt
    | Ok l =>
        do! for_each l (fun n => do _r <- clear_removal conflict_steps n; Ret tt);
        do _c <- clear_reset; Ret tt
    end
  else Ret tt.

Definition annotation (k : string) node : string := default "" (en_Annotations node !! k).
Definition label (k : string) node : string := default "" (en_Labels node !! k).

(** [handleSelf]; [reset] is [checkReset] the first time and nothing after. *)
Definition handleSelf e (reset : memP unit) node : memP handled :=
  if e_DisableETCD e then
    if decide (annotation NodeNameAnnotation node = "" /\ annotation NodeAddressAnnotation node = "" /\
               label ETCDRoleLabelKey node = "")
    then Ret (Some node, Ok tt)
    else update_node (mkENode (en_Name node) (delete ETCDRoleLabelKey (en_Labels node))
           (delete NodeAddressAnnotation (delete NodeNameAnnotation (en_Annotations node))) None)
  else
    do! reset;
    if decide (annotation NodeNameAnnotation node = e_name e /\ annotation NodeAddressAnnotation node = e_address e /\
               label ETCDRoleLabelKey node = "true")
    then Ret (Some node, Ok tt)
    else update_node (mkENode (en_Name node) (<[ETCDRoleLabelKey := "true"]> (en_Labels node))
           (<[NodeAddressAnnotation := e_address e]> (<[NodeNameAnnotation := e_name e]> (en_Annotations node))) (en_Condition node)).

Definition metadata_sync e (reset : memP unit) (key : string) (node : option ENode) : memP handled :=
  match node with
  | None => Ret (None, Ok tt)
  | Some node =>
      if decide (e_NODE_NAME e = "") then do! call EnqueueAfter; Ret (Some node, Ok tt)
      else if decide (key = e_NODE_NAME e) then handleSelf e reset node
      else Ret (Some node, Ok tt)
  end.

End controllers.
