(* ===== verification/EtcdLaws.v ===== *)
(** * Properties of the etcd membership

    What the leader does to the members, how a learner that makes no progress
    leaves, who is removed on request, and what a server that joins does. *)
From Stdlib Require Import ZArith Lia.
From S2P Require Import Prelude GoText NetAddr GoTime SessionEnv Prog Os JoinToken EtcdMembers.

#[local] Open Scope Z_scope.

(** ** The cluster *)

Record Cluster := mkCluster { cl_members : list Member; cl_progress : option learnerProgress }.

Definition without (id : Z) (l : list Member) : list Member := filter (fun m => m_ID m <> id) l.
Definition as_voter (m : Member) : Member := mkMember (m_ID m) (m_Name m) (m_PeerURLs m) (m_ClientURLs m) false.
Definition promote (id : Z) (l : list Member) : list Member := (fun m => if decide (m_ID m = id) then as_voter m else m) <$> l.

(** Calls may be refused without an effect; a learner is promoted, any member
    removed.  The clock reads between [t0] and [t1]. *)
Definition cluster_contract (t0 t1 : Z) : contract memE Cluster := fun X e v x v' =>
  match e in memE X return X -> Prop with
  | MOs e => fun x => v' = v /\ match e in osE X return X -> Prop with Now => fun t => t0 <= t <= t1 | _ => fun _ => True end x
  | MemberList => fun r => v' = v /\ (r = Ok (cl_members v) \/ is_ok r = false)
  | MemberRemove id => fun r =>
      (r = Ok tt /\ v' = mkCluster (without id (cl_members v)) (cl_progress v)) \/ (is_ok r = false /\ v' = v)
  | MemberPromote id => fun r =>
      (r = Ok tt /\ v' = mkCluster (promote id (cl_members v)) (cl_progress v)) \/ (is_ok r = false /\ v' = v)
  | MemberAddAsLearner _ => fun r => exists id url, v' = mkCluster (cl_members v ++ [mkMember id "" [url] [] true]) (cl_progress v) \/ v' = v
  | GetProgress => fun r => v' = v /\ (r = Ok (cl_progress v) \/ is_ok r = false)
  | PutProgress p => fun r => (r = Ok tt /\ v' = mkCluster (cl_members v) (Some p)) \/ (is_ok r = false /\ v' = v)
  | _ => fun _ => v' = v
  end x.

(** ** The leader's round *)

Definition no_progress : learnerProgress := mkProgress 0 "" 0 0.

(** The record says that [m] has made no progress for the time allowed. *)
Definition stalled (t1 : Z) (p : learnerProgress) (m : Member) : Prop :=
  lp_ID p = m_ID m /\ lp_Name p = m_Name m /\ learnerMaxStallTime < t1 - lp_Last p.

(** Of the members only learners change: they become voters, or go if they are
    stalled by the record [p0]. *)
Definition evolves (t1 : Z) (p0 : learnerProgress) (before after : list Member) : Prop :=
  (forall m, m ∈ before -> m ∈ after \/
     (m_IsLearner m = true /\ (as_voter m ∈ after \/ (stalled t1 p0 m /\ forall m', m' ∈ after -> m_ID m' <> m_ID m)))) /\
  (forall m', m' ∈ after -> exists m, m ∈ before /\ (m' = m \/ (m_IsLearner m = true /\ m' = as_voter m))).

Lemma evolves_refl t1 p0 l : evolves t1 p0 l l.
Proof. split; [by left|]. intros m Hm. exists m. by split; [|left]. Qed.

Section evolves.
Context (t1 : Z) (p0 : learnerProgress) (before : list Member) (m : Member).
Hypothesis Hid : NoDup (m_ID <$> before).
Hypothesis Hm : m ∈ before.
Hypothesis Hlearner : m_IsLearner m = true.

Lemma same_id m2 : m2 ∈ before -> m_ID m2 = m_ID m -> m2 = m.
Proof.
  intros H2 E. apply list_elem_of_lookup in Hm as [i Hi], H2 as [j Hj].
  assert (i = j) as ->; [|congruence].
  eapply NoDup_lookup; [exact Hid|by rewrite list_lookup_fmap, Hi|rewrite list_lookup_fmap, Hj; cbn; by rewrite E].
Qed.

Lemma evolves_without l : evolves t1 p0 before l -> stalled t1 p0 m -> evolves t1 p0 before (without (m_ID m) l).
Proof.
  intros [Hfate Hfrom] Hs. assert (forall x, x ∈ without (m_ID m) l <-> m_ID x <> m_ID m /\ x ∈ l) as Hw.
  { intros x. unfold without. by rewrite list_elem_of_filter. }
  split.
  - intros m2 H2. destruct (decide (m_ID m2 = m_ID m)) as [E|Hne].
    + apply same_id in E as ->; [|done]. right. split; [done|]. right. split; [done|]. intros m' Hm'. by apply Hw in Hm' as [? _].
    + destruct (Hfate m2 H2) as [Hin|(Hl2 & [Hin|(Hst & Hgone)])].
      * left. by apply Hw.
      * right. split; [done|]. left. by apply Hw.
      * right. split; [done|]. right. split; [done|]. intros m' Hm'. apply Hw in Hm' as [_ Hm']. by apply Hgone.
  - intros m' Hm'. apply Hw in Hm' as [_ Hm']. by apply Hfrom.
Qed.

Lemma evolves_promote l : evolves t1 p0 before l -> evolves t1 p0 before (promote (m_ID m) l).
Proof.
  intros [Hfate Hfrom].
  assert (forall x, x ∈ l -> (if decide (m_ID x = m_ID m) then as_voter x else x) ∈ promote (m_ID m) l) as Hp.
  { intros x Hx. unfold promote. apply list_elem_of_fmap. by exists x. }
  split.
  - intros m2 H2. destruct (decide (m_ID m2 = m_ID m)) as [E|Hne].
    + apply same_id in E as ->; [|done]. right. split; [done|]. destruct (Hfate m Hm) as [Hin|(_ & [Hin|(Hst & Hgone)])].
      * left. specialize (Hp _ Hin). by rewrite decide_True in Hp.
      * left. specialize (Hp _ Hin). by rewrite decide_True in Hp.
      * right. split; [done|]. intros m' Hm'. unfold promote in Hm'. apply list_elem_of_fmap in Hm' as (x & -> & Hx).
        specialize (Hgone x Hx). by case_decide.
    + destruct (Hfate m2 H2) as [Hin|(Hl2 & [Hin|(Hst & Hgone)])].
      * left. specialize (Hp _ Hin). by rewrite decide_False in Hp.
      * right. split; [done|]. left. specialize (Hp _ Hin). by rewrite decide_False in Hp.
      * right. split; [done|]. right. split; [done|]. intros m' Hm'. unfold promote in Hm'.
        apply list_elem_of_fmap in Hm' as (x & -> & Hx). specialize (Hgone x Hx). by case_decide.
  - intros m' Hm'. unfold promote in Hm'. apply list_elem_of_fmap in Hm' as (x & -> & Hx).
    destruct (Hfrom x Hx) as (y & Hy & Hxy). exists y. split; [done|]. case_decide as E; [|done].
    destruct Hxy as [->|[Hl ->]]; [|by right]. right. split; [|done]. by rewrite (same_id y).
Qed.
End evolves.

Section round.
Context `{UH : UrlHost, MO : MapOrder} (error_text : error -> string) (t0 t1 : Z).
Hypothesis timely : t1 - t0 <= learnerMaxStallTime.
Notation C := (cluster_contract t0 t1).
Implicit Types (v : Cluster) (m : Member) (p : learnerProgress).

Lemma quiet_status ep v (Q : outcome (res EpStatus) -> Cluster -> Prop) : (forall r, Q (Done r) v) -> wp C (getETCDStatus ep) Q v.
Proof. intros HQ. unfold getETCDStatus. eapply wp_call. intros r v' ->. apply HQ. Qed.

Lemma quiet_condition n s msg v (Q : outcome (res unit) -> Cluster -> Prop) :
  (forall r, Q (Done r) v) -> wp C (setEtcdStatusCondition n s msg) Q v.
Proof.
  intros HQ. unfold setEtcdStatusCondition. destruct (status_condition s) as [[st rs] tx]. cbv zeta.
  assert (forall tx', wp C (do t1 <- mos (call Now); do t2 <- mos (call Now); call (SetNodeCondition (en_Name n) (mkCondition st rs tx' t1 t2))) Q v) as Hf.
  { intros tx'. unfold mos. cbn [trans call]. eapply wp_call. intros t v1 [-> _]. eapply wp_call. intros t' v1 [-> _]. intros r v1 ->. apply HQ. }
  destruct (en_Condition n) as [c|]; [|apply Hf]. case_decide; [|apply Hf].
  unfold mos. cbn [trans call]. eapply wp_call. intros t v1 [-> _]. destruct (_ <? _); [apply HQ|].
  eapply wp_call. intros t' v1 [-> _]. intros r v1 ->. apply HQ.
Qed.

(** The record afterwards is the one before or of this round. *)
Lemma update_progress_last now p urls v :
  wp C (update_progress now p urls) (fun o v' => v' = v /\ exists p', o = Done p' /\
    lp_ID p' = lp_ID p /\ lp_Name p' = lp_Name p /\ (p' = p \/ lp_Last p' = now)) v.
Proof.
  induction urls as [|ep urls IH]; cbn [update_progress].
  { apply wp_ret. split; [done|]. exists p. naive_solver. }
  apply wp_bind, quiet_status. intros [st|e]; [|exact IH].
  apply wp_ret. split; [done|]. destruct (_ <? _); [eexists; split_and!; [done..|by right]|exists p; naive_solver].
Qed.

Definition recent p0 p : Prop := p = p0 \/ t0 <= lp_Last p.

Lemma track_evolves p0 before p m v : NoDup (m_ID <$> before) -> m ∈ before -> m_IsLearner m = true ->
  recent p0 p -> evolves t1 p0 before (cl_members v) ->
  wp C (trackLearnerProgress p m) (fun o v' => exists p' r, o = Done (p', r) /\ recent p0 p' /\
    evolves t1 p0 before (cl_members v')) v.
Proof.
  intros Hid Hm Hl Hr He. unfold trackLearnerProgress. eapply wp_call. intros r v1 Hc.
  destruct r as [[]|e].
  { apply wp_ret. exists p, (Ok tt). split_and!; [done|done|].
    destruct Hc as [[_ ->]|[_ ->]]; [by apply evolves_promote|done]. }
  destruct Hc as [[? _]|[_ ->]]; [done|]. unfold mos. cbn [trans call]. eapply wp_call. intros now v1 [-> Hnow].
  apply wp_bind. eapply wp_mono; [|apply update_progress_last]. cbv beta. intros o v1 (-> & p' & -> & Hi & Hn & Hlast).
  assert (recent p0 p') as Hr'.
  { destruct Hlast as [->|E]; [|right; lia]. unfold tracked. case_decide; [right; cbn; lia|done]. }
  destruct (Z.ltb_spec learnerMaxStallTime (now - lp_Last p')) as [Hlt|_].
  - assert (stalled t1 p0 m) as Hst.
    { assert (0 < learnerMaxStallTime) as Hpos by done.
      destruct Hlast as [->|E]; [|lia]. revert Hlt. unfold tracked in *. case_decide as Hd; [cbn; lia|]. intros Hlt.
      destruct (decide (lp_Name p = m_Name m)) as [En|]; [|tauto]. destruct (decide (lp_ID p = m_ID m)) as [Ei|]; [|tauto].
      destruct Hr as [<-|Hr]; [|lia]. split_and!; [done|done|lia]. }
    eapply wp_call. intros r v1 Hc. apply wp_ret. exists p', r. split_and!; [done|done|].
    destruct Hc as [[_ ->]|[_ ->]]; [by apply evolves_without|done].
  - eapply wp_call. intros r v1 Hc. apply wp_ret. exists p', r. split_and!; [done|done|].
    destruct Hc as [[_ ->]|[_ ->]]; done.
Qed.

Lemma each_member_evolves nodes p0 before l p seen v : NoDup (m_ID <$> before) -> (forall m, m ∈ l -> m ∈ before) ->
  recent p0 p -> evolves t1 p0 before (cl_members v) ->
  wp C (each_member error_text nodes l p seen) (fun _ v' => evolves t1 p0 before (cl_members v')) v.
Proof.
  intros Hid. revert p seen v. induction l as [|m l IH]; intros p seen v Hl Hr He; cbn [each_member]; [by apply wp_ret|].
  assert (forall p' v' seen, recent p0 p' -> evolves t1 p0 before (cl_members v') ->
    wp C (each_member error_text nodes l p' seen) (fun _ v' => evolves t1 p0 before (cl_members v')) v') as Hnext.
  { intros p' v' s Hr' He'. apply IH; [|done|done]. intros m' Hm'. apply Hl. by right. }
  apply wp_bind. eapply (wp_mono _ _ (fun o v' => exists p' r, o = Done (p', r) /\ recent p0 p' /\ evolves t1 p0 before (cl_members v'))).
  2: { destruct (m_IsLearner m) eqn:El; [apply track_evolves; try done; apply Hl; by left|]. apply wp_ret. by exists p, (Ok tt). }
  intros o v1 (p' & r & -> & Hr' & He'). cbn [fst].
  destruct (node_of nodes m) as [n|]; [|by apply Hnext]. destruct (m_ClientURLs m) as [|ep u]; [done|].
  apply wp_bind, quiet_status. intros st. apply wp_bind. destruct st; apply quiet_condition; intros; by apply Hnext.
Qed.

(** C1. A round of the leader, whatever is refused and even if it panics, makes
    voters of learners and removes a learner only if the record it found says
    that this learner has made no progress for five minutes; voters stay, and
    on other members than the leader nothing changes. *)
Theorem leader_round_safe e v : NoDup (m_ID <$> cl_members v) ->
  wp C (manage_tick error_text e) (fun _ v' =>
    evolves t1 (default no_progress (cl_progress v)) (cl_members v) (cl_members v')) v.
Proof.
  intros Hid. set (p0 := default no_progress (cl_progress v)). unfold manage_tick.
  pose proof (evolves_refl t1 p0 (cl_members v)) as Hrefl.
  eapply wp_call. intros st v1 ->. destruct st as [st|]; [|by apply wp_ret]. case_decide; [by apply wp_ret|].
  eapply wp_call. intros pr v1 [-> Hpr]. apply wp_bind.
  eapply (wp_mono _ _ (fun o v' => v' = v /\ exists r, o = Done r /\ (forall l, r = Ok l -> l = cl_members v))).
  2: { destruct pr as [p|e']; [|apply wp_ret; split; [done|]; by eexists]. intros r v1 [-> [->|Hr]].
       - split; [done|]. eexists. split; [done|]. by intros ? [= <-].
       - split; [done|]. eexists. split; [done|]. by intros ? ->. }
  intros o v1 (-> & ms & -> & Hms). apply wp_bind.
  eapply (wp_mono _ _ (fun o v' => v' = v /\ exists r, o = Done r)).
  2: { destruct ms; [|apply wp_ret; split; [done|by eexists]]. intros r v1 ->. split; [done|by eexists]. }
  intros o v1 (-> & cs & ->). destruct pr as [p|]; [|by apply wp_ret]. destruct ms as [l|]; [|by apply wp_ret].
  destruct cs; [|by apply wp_ret]. rewrite (Hms l eq_refl). destruct Hpr as [[= ->]|?]; [|done].
  eapply wp_call. intros ns v1 ->. apply wp_bind.
  eapply wp_mono; [|by apply (each_member_evolves _ p0 (cl_members v)); [done|done|left|]].
  cbv beta. intros [seen|] v1 He; [|done].
  revert v1 He. generalize (iter (list_to_map (rev ((fun n => (en_Name n, n)) <$> match ns with Ok l => l | Err _ => [] end)) : gmap string ENode)).
  intros nl. induction nl as [|x nl IH]; intros v1 He; cbn [for_each]; [done|]. apply wp_bind. case_decide; [by apply wp_ret, IH|].
  apply wp_bind, quiet_condition. intros r. by apply wp_ret, IH.
Qed.

End round.

(** A voter and a learner whose record is six minutes old. *)
Definition old_learner : Member := mkMember 2 "n2-b" ["https://10.0.0.2:2380"] ["https://10.0.0.2:2379"] true.
Definition lone_voter : Member := mkMember 1 "n1-a" ["https://10.0.0.1:2380"] ["https://10.0.0.1:2379"] false.

(** Addresses without a colon, and the URLs made of them. *)
Fixpoint until_colon (s : string) : string :=
  match s with String c r => if Ascii.eqb c colon then "" else String c (until_colon r) | EmptyString => "" end.
Definition plain_host (s : string) : option string := until_colon <$> strip_prefix "https://" s.

Lemma until_colon_app a s : no_char colon a = true -> until_colon (a +:+ ":" +:+ s) = a.
Proof.
  induction a as [|c a IH]; [done|]. rewrite append_cons. cbn [no_char until_colon]. intros [Hc Ha]%andb_true_iff.
  destruct (Ascii.eqb c colon); [done|]. by rewrite IH.
Qed.

Lemma plain_host_of a p : no_char colon a = true -> plain_host ("https://" +:+ JoinHostPort a p) = Some a.
Proof.
  intros Ha. unfold plain_host, JoinHostPort. rewrite Ha, strip_prefix_app. cbn [fmap option_fmap option_map]. f_equal. by apply until_colon_app.
Qed.

Definition plain_urls : UrlHost := mkUrlHost plain_host (no_char colon) plain_host_of.

Definition first_server : Etcd := mkEtcd "n1-a" "10.0.0.1" "" "n1" "/d" "https://127.0.0.1:2379" false "n1".

Lemma leader_round_safe_witness :
  wp (cluster_contract 0 (15 * second)) (manage_tick (MO := list_order) (fun _ => "") first_server)
    (fun _ v' => lone_voter ∈ cl_members v')
    (mkCluster [lone_voter; old_learner] (Some (mkProgress 2 "n2-b" 7 (- 6 * minute)))).
Proof.
  eapply wp_mono; [|apply (leader_round_safe (MO := list_order) (fun _ => "") 0 (15 * second)); [done|]].
  2: { apply (bool_decide_unpack _). reflexivity. }
  intros o v' [H _]. destruct (H lone_voter) as [?|[? _]]; [by left|done|done].
Defined.

(** * A learner that makes no progress is evicted

    The rounds of the leader against an etcd that serves its calls but refuses
    to promote the learner, whose index never goes up. *)

#[local] Open Scope Z_scope.

Definition manageTickerTime : Z := 15 * second.

Record Timed := mkTimed { tm_cluster : Cluster; tm_clock : Z }.

Section evict.
Context `{UH : UrlHost, MO : MapOrder} (error_text : error -> string).
Context (e : Etcd) (m : Member) (index : Z).

(** The server is and stays the leader; calls take what time they take. *)
Definition stall_contract : contract memE Timed := fun X eff v x v' =>
  let c := tm_cluster v in
  tm_clock v <= tm_clock v' /\
  match eff in memE X return X -> Prop with
  | MOs eff => fun x => tm_cluster v' = c /\
      match eff in osE X return X -> Prop with Now => fun t => tm_clock v <= t <= tm_clock v' | _ => fun _ => True end x
  | EndpointStatus ep => fun r => tm_cluster v' = c /\
      (ep = e_endpoint e -> exists st, r = Ok st /\ es_MemberID st = es_Leader st) /\
      (ep ∈ m_ClientURLs m -> forall st, r = Ok st -> es_Index st <= index)
  | GetProgress => fun r => tm_cluster v' = c /\ r = Ok (cl_progress c)
  | MemberList => fun r => tm_cluster v' = c /\ r = Ok (cl_members c)
  | GetClientSet => fun r => tm_cluster v' = c /\ r = Ok tt
  | MemberPromote _ => fun r => tm_cluster v' = c /\ is_ok r = false
  | MemberRemove id => fun r => r = Ok tt /\ tm_cluster v' = mkCluster (without id (cl_members c)) (cl_progress c)
  | PutProgress p => fun r => r = Ok tt /\ tm_cluster v' = mkCluster (cl_members c) (Some p)
  | _ => fun _ => tm_cluster v' = c
  end x.

Notation C := stall_contract.

(** Whatever the calls of [p] do, they leave the cluster alone. *)
Lemma still_status ep v (Q : outcome (res EpStatus) -> Timed -> Prop) :
  (forall r v', tm_cluster v' = tm_cluster v -> tm_clock v <= tm_clock v' ->
     (ep ∈ m_ClientURLs m -> forall st, r = Ok st -> es_Index st <= index) -> Q (Done r) v') -> wp C (getETCDStatus ep) Q v.
Proof.
  intros HQ. unfold getETCDStatus. eapply wp_call. intros r v' (Hc & E & _ & Hi). apply wp_ret, HQ; [done|done|].
  intros He st. destruct r as [st'|]; [|done]. case_decide; [|done]. intros [= <-]. by apply Hi.
Qed.

Lemma still_condition n s msg v (Q : outcome (res unit) -> Timed -> Prop) :
  (forall r v', tm_cluster v' = tm_cluster v -> tm_clock v <= tm_clock v' -> Q (Done r) v') ->
  wp C (setEtcdStatusCondition n s msg) Q v.
Proof.
  intros HQ. unfold setEtcdStatusCondition. destruct (status_condition s) as [[st rs] tx]. cbv zeta.
  assert (forall v1 t tr tx', tm_cluster v1 = tm_cluster v -> tm_clock v <= tm_clock v1 ->
    wp C (call (SetNodeCondition (en_Name n) (mkCondition st rs tx' t tr))) Q v1) as Hset.
  { intros v1 t tr tx' E H1 r v2 (H2 & E2). apply HQ; [congruence|lia]. }
  assert (forall tx', wp C (do t1 <- mos (call Now); do t2 <- mos (call Now);
    call (SetNodeCondition (en_Name n) (mkCondition st rs tx' t1 t2))) Q v) as Hf.
  { intros tx'. unfold mos. cbn [trans call]. eapply wp_call. intros t v1 (H1 & E1 & _).
    eapply wp_call. intros t' v2 (H2 & E2 & _). apply Hset; [congruence|lia]. }
  destruct (en_Condition n) as [c|]; [|apply Hf]. case_decide; [|apply Hf].
  unfold mos. cbn [trans call]. eapply wp_call. intros t v1 (H1 & E1 & _). destruct (_ <? _); [by apply wp_ret, HQ|].
  eapply wp_call. intros t' v2 (H2 & E2 & _). apply Hset; [congruence|lia].
Qed.

Lemma still_progress now p urls v :
  wp C (update_progress now p urls) (fun o v' => (exists p', o = Done p' /\
      ((forall ep, ep ∈ urls -> ep ∈ m_ClientURLs m) -> index <= lp_Index p -> p' = p)) /\
    tm_cluster v' = tm_cluster v /\ tm_clock v <= tm_clock v') v.
Proof.
  revert v. induction urls as [|ep urls IH]; intros v; cbn [update_progress].
  { apply wp_ret. split_and!; [by exists p|done|lia]. }
  apply wp_bind, still_status. intros [st|] v1 E1 H1 Hi.
  - apply wp_ret. split_and!; [|done|lia]. eexists. split; [done|]. intros Hu Hp.
    assert (es_Index st <= index) by (apply Hi; [apply Hu; by left|done]). destruct (Z.ltb_spec (lp_Index p) (es_Index st)); [lia|done].
  - eapply wp_mono; [|apply IH]. cbv beta. intros o v2 ((p' & -> & Hp') & E2 & H2). split_and!; [|congruence|lia].
    exists p'. split; [done|]. intros Hu. apply Hp'. intros ep' He'. apply Hu. by right.
Qed.

Section rounds.
Context (l0 : list Member) (p : learnerProgress).
Hypothesis m_in : m ∈ l0.
Hypothesis learner : m_IsLearner m = true.
Hypothesis alone : forall m', m' ∈ l0 -> m_IsLearner m' = true -> m' = m.
Hypothesis reachable : forall m', m' ∈ l0 -> m_ClientURLs m' <> [].
Hypothesis of_m : lp_ID p = m_ID m /\ lp_Name p = m_Name m /\ index <= lp_Index p.

Definition waiting (c : Cluster) : Prop := cl_members c = l0 /\ cl_progress c = Some p.
Definition evicted (c : Cluster) : Prop := m ∉ cl_members c /\ forall m', m' ∈ cl_members c -> m' ∈ l0.
Definition due (t : Z) : Prop := learnerMaxStallTime < t - lp_Last p.

Lemma without_evicts c : (forall m', m' ∈ cl_members c -> m' ∈ l0) -> evicted (mkCluster (without (m_ID m) (cl_members c)) (cl_progress c)).
Proof.
  intros Hc. split; cbn; unfold without.
  - intros [? _]%list_elem_of_filter. done.
  - intros m' [_ Hm']%list_elem_of_filter. by apply Hc.
Qed.

Lemma track_stalled pr v : (waiting (tm_cluster v) /\ pr = p) \/ evicted (tm_cluster v) ->
  wp C (trackLearnerProgress pr m) (fun o v' => tm_clock v <= tm_clock v' /\ exists p' r, o = Done (p', r) /\
    ((waiting (tm_cluster v') /\ p' = p /\ waiting (tm_cluster v) /\ ~ due (tm_clock v)) \/ evicted (tm_cluster v'))) v.
Proof.
  intros Hv. assert (forall m', m' ∈ cl_members (tm_cluster v) -> m' ∈ l0) as Hin.
  { destruct Hv as [[[-> _] _]|[_ ?]]; done. }
  unfold trackLearnerProgress. eapply wp_call. intros r v1 (H1 & E1 & Hr). destruct r; [done|].
  unfold mos. cbn [trans call]. eapply wp_call. intros now v2 (H2 & E2 & Hnow).
  apply wp_bind. eapply wp_mono; [|apply still_progress]. cbv beta. intros o v3 ((p' & -> & Hp') & E3 & H3).
  assert (tm_cluster v3 = tm_cluster v) as Ec by congruence.
  destruct (Z.ltb_spec learnerMaxStallTime (now - lp_Last p')) as [Hlt|Hle].
  - eapply wp_call. intros r v4 (H4 & -> & E4). apply wp_ret. split; [lia|]. eexists _, _. split; [done|]. right.
    rewrite E4, Ec. by apply without_evicts.
  - eapply wp_call. intros r v4 (H4 & -> & E4). apply wp_ret. split; [lia|]. eexists _, _. split; [done|].
    destruct Hv as [[[Hm Hpr] ->]|[Hg _]]; [left|right].
    + assert (tracked now m p = p) as Et. { unfold tracked. destruct of_m as (-> & -> & _). by rewrite decide_False by tauto. }
      rewrite Et in Hp'. assert (p' = p) as -> by (apply Hp'; [done|apply of_m]).
      split_and!; [rewrite E4, Ec; by split|done|by split|unfold due; lia].
    + rewrite E4, Ec. done.
Qed.

Lemma waiting_not_evicted c : waiting c -> evicted c -> False.
Proof. intros [Hw _] [Hg _]. apply Hg. by rewrite Hw. Qed.

(** A loop over the members: it never panics; the learner that was there is
    evicted, or its record is not due. *)
Definition round_post (l : list Member) v (o : outcome (list string)) v' : Prop :=
  tm_clock v <= tm_clock v' /\ o <> Panicked /\
  (evicted (tm_cluster v') \/ (waiting (tm_cluster v) /\ waiting (tm_cluster v') /\ (m ∈ l -> ~ due (tm_clock v)))).

Lemma each_stalled nodes l pr seen v : (forall m', m' ∈ l -> m' ∈ l0) ->
  (waiting (tm_cluster v) /\ pr = p) \/ evicted (tm_cluster v) ->
  wp C (each_member error_text nodes l pr seen) (round_post l v) v.
Proof.
  revert pr seen v. induction l as [|m' l IH]; intros pr seen v Hl Hv; cbn [each_member].
  { apply wp_ret. split_and!; [lia|done|]. destruct Hv as [[? _]|?]; [right|by left]. split_and!; [done|done|]. by intros ?%elem_of_nil. }
  apply wp_bind. eapply (wp_mono _ _ (fun o v' => tm_clock v <= tm_clock v' /\ exists p' r, o = Done (p', r) /\
    ((waiting (tm_cluster v') /\ p' = p /\ waiting (tm_cluster v) /\ (m' = m -> ~ due (tm_clock v))) \/ evicted (tm_cluster v')))).
  2: { destruct (m_IsLearner m') eqn:El.
       - assert (m' = m) as -> by (apply alone; [apply Hl; by left|done]).
         eapply wp_mono; [|by apply track_stalled]. naive_solver.
       - apply wp_ret. split; [lia|]. eexists _, _. split; [done|]. destruct Hv as [[? ->]|?]; [left|by right].
         split_and!; [done|done|done|]. intros ->. congruence. }
  intros o v1 (H1 & p' & r & -> & Hv1). cbn [fst].
  assert (forall v2 seen, tm_cluster v2 = tm_cluster v1 -> tm_clock v1 <= tm_clock v2 ->
    wp C (each_member error_text nodes l p' seen) (round_post (m' :: l) v) v2) as Hnext.
  { intros v2 s E2 H2. eapply wp_mono; [|apply IH; [intros x Hx; apply Hl; by right|rewrite E2; naive_solver]].
    intros o v3 (H3 & Ho & Hv3). split_and!; [lia|done|]. destruct Hv3 as [?|(Hw2 & Hw3 & Hd)]; [by left|right].
    rewrite E2 in Hw2. destruct Hv1 as [(_ & _ & Hw & Hd1)|Hg]; [|destruct (waiting_not_evicted _ Hw2 Hg)].
    split_and!; [done|done|]. intros [->|Hm]%elem_of_cons; [by apply Hd1|]. specialize (Hd Hm). unfold due in *. lia. }
  destruct (node_of nodes m') as [n|]; [|by apply Hnext; [|lia]].
  destruct (m_ClientURLs m') as [|ep u] eqn:Eu; [exfalso; eapply (reachable m'); [apply Hl; by left|done]|].
  apply wp_bind, still_status. intros st v2 E2 H2 _. apply wp_bind.
  destruct st; apply still_condition; intros ? v3 E3 H3; apply Hnext; solve [congruence|lia].
Qed.

(** A round of the leader. *)
Lemma round_stalled v : waiting (tm_cluster v) \/ evicted (tm_cluster v) ->
  wp C (manage_tick error_text e) (fun o v' => o = Done tt /\ tm_clock v <= tm_clock v' /\
    (evicted (tm_cluster v') \/ (waiting (tm_cluster v) /\ waiting (tm_cluster v') /\ ~ due (tm_clock v)))) v.
Proof.
  intros Hv. unfold manage_tick. eapply wp_call. intros st v1 (H1 & E1 & Hep & _). destruct (Hep eq_refl) as (st' & -> & Hlead).
  rewrite decide_False by tauto. eapply wp_call. intros pr v2 (H2 & E2 & ->).
  apply wp_bind. intros ms v3 (H3 & E3 & ->). apply wp_bind. intros cs v4 (H4 & E4 & ->).
  eapply wp_call. intros ns v5 (H5 & E5). assert (tm_cluster v5 = tm_cluster v) as E by congruence. rewrite E2, E1.
  apply wp_bind. eapply wp_mono; [|apply each_stalled].
  - intros o v6 (H6 & Ho & Hv6). destruct o as [seen|]; [|done].
    assert (tm_clock v <= tm_clock v6 /\
      (evicted (tm_cluster v6) \/ (waiting (tm_cluster v) /\ waiting (tm_cluster v6) /\ ~ due (tm_clock v)))) as Hpost.
    { split; [lia|]. destruct Hv6 as [?|(Hw & Hw6 & Hd)]; [by left|right].
      rewrite E in Hw. split; [done|]. split; [done|]. assert (m ∈ cl_members (tm_cluster v2)) as Hm by (rewrite E2, E1; destruct Hw as [-> _]; apply m_in).
      rewrite E2, E1 in Hm. specialize (Hd Hm). unfold due in *. lia. }
    clear -Hpost. revert v6 Hpost.
    generalize (iter (list_to_map (rev ((fun n => (en_Name n, n)) <$> match ns with Ok l => l | Err _ => [] end)) : gmap string ENode)).
    intros nl. induction nl as [|x nl IH]; intros v6 Hpost; cbn [for_each]; [by apply wp_ret|]. apply wp_bind.
    case_decide; [by apply wp_ret, IH|]. apply wp_bind, still_condition. intros r v7 E7 H7. apply wp_ret, IH. rewrite E7.
    destruct Hpost. split; [lia|done].
  - destruct Hv as [[Hw _]|[_ Hin]]; [by rewrite Hw|done].
  - rewrite E. destruct Hv as [[Hw Hp]|?]; [left|by right]. split; [by split|]. by rewrite Hp.
Qed.

(** The ticks of a ticker: the next comes when it is [due] or later, and is
    only taken when the round before has ended; after a long round the ticks
    follow each other at once. *)
Fixpoint ticks (n : nat) (next : Z) (Q : Cluster -> Prop) (v : Timed) : Prop :=
  match n with
  | O => Q (tm_cluster v)
  | S n => forall t, tm_clock v <= t -> next <= t ->
      wp C (manage_tick error_text e) (fun o v' => o = Done tt /\ ticks n (next + manageTickerTime) Q v') (mkTimed (tm_cluster v) t)
  end.

Lemma ticks_stalled n next v : waiting (tm_cluster v) \/ evicted (tm_cluster v) ->
  evicted (tm_cluster v) \/ learnerMaxStallTime < next - lp_Last p + (Z.of_nat n - 1) * manageTickerTime /\ (0 < n)%nat ->
  ticks n next evicted v.
Proof.
  revert next v. induction n as [|n IH]; intros next v Hv Hn; cbn [ticks].
  { destruct Hn as [?|[_ ?]]; [done|lia]. }
  intros t H1 H2. eapply wp_mono; [|by apply round_stalled]. cbv beta. cbn [tm_cluster tm_clock]. intros o v' (-> & Ht & Hv'). split; [done|].
  apply IH; [naive_solver|]. destruct Hv' as [?|(Hw & Hw' & Hd)]; [by left|].
  destruct Hn as [Hg|[Hn _]]; [destruct (waiting_not_evicted _ Hw Hg)|]. right. unfold due in Hd.
  destruct n as [|n]; [cbn in Hn; lia|]. split; lia.
Qed.

End rounds.
End evict.

(** C2. A learner that cannot be promoted and makes no progress is evicted.
    The leader's ticker gives a tick every fifteen seconds, but only when the
    round before has ended; its calls to etcd and to the API server are
    served, every promotion is refused, the index of the learner does not go
    up, and nobody else changes the members.  If it is the only learner, every
    member has a client URL, and its progress is on record, then none of the
    next twenty-two rounds panics and after them it is no member, and no
    member has been added, whatever the states and the nodes of the others. *)
Theorem stalled_learner_evicted `{MO : MapOrder} (error_text : error -> string) (e : Etcd) (m : Member)
    (l : list Member) (p : learnerProgress) (t : Z) :
  m ∈ l -> m_IsLearner m = true -> (forall m', m' ∈ l -> m_IsLearner m' = true -> m' = m) ->
  (forall m', m' ∈ l -> m_ClientURLs m' <> []) ->
  lp_ID p = m_ID m -> lp_Name p = m_Name m -> lp_Last p <= t ->
  ticks error_text e m (lp_Index p) 22 t (fun c => m ∉ cl_members c /\ forall m', m' ∈ cl_members c -> m' ∈ l)
    (mkTimed (mkCluster l (Some p)) t).
Proof.
  intros Hm Hl Halone Hreach Hid Hname Hlast.
  apply (ticks_stalled error_text e m (lp_Index p) l p); [done|done|done|done|split_and!; [done..|lia]|by left|]. right.
  unfold learnerMaxStallTime, manageTickerTime, minute, second. cbn [tm_clock]. lia.
Qed.

Lemma stalled_learner_evicted_witness :
  ticks (MO := list_order) (fun _ => "") first_server old_learner 7 22 0
    (fun c => old_learner ∉ cl_members c /\ forall m', m' ∈ cl_members c -> m' ∈ [lone_voter; old_learner])
    (mkTimed (mkCluster [lone_voter; old_learner] (Some (mkProgress 2 "n2-b" 7 0))) 0).
Proof.
  apply (stalled_learner_evicted (MO := list_order) (fun _ => "") first_server old_learner
    [lone_voter; old_learner] (mkProgress 2 "n2-b" 7 0) 0).
  - right. by left.
  - done.
  - intros m' [->|[->|[]%elem_of_nil]%elem_of_cons]%elem_of_cons; done.
  - intros m' [->|[->|[]%elem_of_nil]%elem_of_cons]%elem_of_cons; done.
  - done.
  - done.
  - done.
Defined.
