(* ===== verification/EtcdJoin.v ===== *)
(** * Joining and leaving the etcd cluster

    What a server that joins asks of the cluster and starts etcd with, whom a
    removal reaches, and how a removed node comes back. *)
From Stdlib Require Import ZArith Lia.
From S2P Require Import Prelude GoText GoTime SessionEnv Prog Os JoinToken EtcdMembers EtcdNodes EtcdLaws Signed SnapshotFile S3Store EtcdSnapshot EtcdServer.

#[local] Open Scope Z_scope.

(** ** Joining *)

(** What a join has done: members added, etcd started. *)
Record Joined := mkJoined { jn_added : list string; jn_started : list (string * ClusterState) }.
Definition nothing : Joined := mkJoined [] [].

(** The server that is joined has the members [l]. *)
Definition join_contract (l : list Member) : contract memE Joined := fun X e v x v' =>
  match e in memE X return X -> Prop with
  | DbInfo => fun r => v' = v /\ (r = Ok l \/ is_ok r = false)
  | MemberAddAsLearner url => fun r =>
      (r = Ok tt /\ v' = mkJoined (jn_added v ++ [url]) (jn_started v)) \/ (is_ok r = false /\ v' = v)
  | StartEtcd _ cluster state => fun _ => v' = mkJoined (jn_added v) (jn_started v ++ [(cluster, state)])
  | _ => fun _ => v' = v
  end x.

Section join.
Context `{UH : UrlHost}.
Implicit Types (e : Etcd) (m : Member) (l : list Member).

(** Members have one peer URL each, as etcd members of this program do. *)
Definition one_peer m : Prop := exists p h, m_PeerURLs m = [p] /\ hostname p = Some h.

Definition peer m : string := default "" (head (m_PeerURLs m)).
Definition peer_host m : string := default "" (hostname (peer m)).

(** The name of [m], which is ours if it has none yet and our address. *)
Definition member_name e m : string :=
  if decide (m_Name m = "" /\ peer_host m = e_address e) then e_name e else m_Name m.
Definition is_self e m : bool := bool_decide (member_name e m = e_name e /\ peer_host m = e_address e).
Definition clashes e m : bool :=
  bool_decide (member_name e m <> e_name e /\ memberNodeName (member_name e m) = e_ServerNodeName e).
(** Another member whose server has our node name: members are named after
    the node with a dash and a suffix that has none. *)
Definition same_node e m : Prop :=
  member_name e m <> e_name e /\ exists suffix, no_char EtcdMembers.dash suffix = true /\ member_name e m = e_ServerNodeName e +:+ String EtcdMembers.dash suffix.

Lemma before_last_dash_suffix s suffix : no_char EtcdMembers.dash suffix = true -> before_last_dash (s +:+ String EtcdMembers.dash suffix) = Some s.
Proof.
  intros Hs. assert (before_last_dash suffix = None) as Hn.
  { revert Hs. induction suffix as [|c r IH]; [done|]. cbn [no_char before_last_dash]. intros [Hc%negb_true_iff Hr]%andb_true_iff.
    rewrite (IH Hr). by rewrite Hc. }
  induction s as [|c s IH]; [rewrite append_nil_l; cbn [before_last_dash]; by rewrite Hn, Ascii.eqb_refl|].
  rewrite append_cons. cbn [before_last_dash]. by rewrite IH.
Qed.

Lemma same_node_clashes e m : (1 < String.length (e_ServerNodeName e))%nat -> same_node e m -> clashes e m = true.
Proof.
  intros Hlen (Hne & suffix & Hs & En). unfold clashes. apply bool_decide_eq_true. split; [done|].
  unfold memberNodeName. rewrite En, before_last_dash_suffix by done. by apply Nat.ltb_lt in Hlen as ->.
Qed.

Definition entry e m : string := member_name e m +:+ "=" +:+ peer m.

Lemma scan_one e m cluster add : one_peer m ->
  scan_peers e (peer m) (m_PeerURLs m) (m_Name m) cluster add =
  Some (member_name e m, cluster ++ [entry e m], add && negb (is_self e m)).
Proof.
  intros (p & h & Hp & Hh). unfold entry, is_self, member_name, peer_host, peer. rewrite Hp. cbn [head default scan_peers].
  cbn. rewrite Hh. cbn. f_equal. f_equal.
  set (name := if decide (m_Name m = "" /\ h = e_address e) then e_name e else m_Name m).
  destruct (decide (name = e_name e /\ h = e_address e)) as [E|E].
  - by rewrite bool_decide_eq_true_2, andb_false_r.
  - by rewrite bool_decide_eq_false_2, andb_true_r.
Qed.

(** The scan is a fold: it stops at the first clash, or has all entries. *)
Lemma scan_all lv e l cluster add : (forall m, m ∈ l -> one_peer m) ->
  wp (join_contract lv) (scan_members e l cluster add) (fun o v => v = nothing /\ exists r, o = Done r /\
    match r with
    | Ok (c, a) => (forall m, m ∈ l -> clashes e m = false) /\ c = cluster ++ (entry e <$> l) /\ a = add && negb (existsb (is_self e) l)
    | Err _ => exists m, m ∈ l /\ clashes e m = true
    end) nothing.
Proof.
  revert cluster add. induction l as [|m l IH]; intros cluster add Hl; cbn [scan_members].
  { apply wp_ret. split; [done|]. eexists. split; [done|]. split_and!; [by intros ? ?%elem_of_nil|by rewrite app_nil_r|by rewrite andb_true_r]. }
  fold (peer m). rewrite (scan_one e m cluster add) by (apply Hl; by left).
  destruct (decide (member_name e m <> e_name e /\ memberNodeName (member_name e m) = e_ServerNodeName e)) as [Hc|Hc].
  - unfold mos. cbn [trans call]. eapply wp_call. intros r v ->. apply wp_ret. split; [done|]. eexists. split; [done|].
    exists m. split; [by left|]. by apply bool_decide_eq_true_2.
  - eapply wp_mono; [|apply IH; intros m' Hm'; apply Hl; by right]. cbv beta. intros o v (-> & r & -> & Hr). split; [done|].
    eexists. split; [done|]. destruct r as [[c a]|err].
    + destruct Hr as (Hno & -> & ->). split_and!.
      * intros m' [->|Hm']%elem_of_cons; [by apply bool_decide_eq_false_2|by apply Hno].
      * by rewrite <-app_assoc.
      * cbn [existsb]. by destruct add, (is_self e m).
    + destruct Hr as (m' & Hm' & Hr). exists m'. split; [by right|done].
Qed.

(** C3. A server that joins a cluster whose members have one peer URL each,
    whatever is refused, starts etcd once or not at all.  If its node name has
    two letters or more it starts only when no other member is named after
    that node, with a dash and a suffix; it adds itself exactly when the
    cluster does not list it yet, and the cluster it starts etcd with has an
    entry for every member and one for itself, at its own address. *)
Theorem join_exact e l (advertised : res string) (join_host : option string) :
  (forall m, m ∈ l -> one_peer m) -> is_address (e_address e) = true -> (1 < String.length (e_ServerNodeName e))%nat ->
  wp (join_contract l) (join e advertised join_host) (fun o v => exists r, o = Done r /\
    ((v = nothing /\ is_ok r = false) \/
     exists cluster, v = mkJoined (if existsb (is_self e) l then [] else [peerURL e]) [(join_with "," cluster, StateExisting)] /\
       (forall m, m ∈ l -> ~ same_node e m /\ entry e m ∈ cluster) /\
       exists p, hostname p = Some (e_address e) /\ e_name e +:+ "=" +:+ p ∈ cluster)) nothing.
Proof.
  intros Hl Ha Hlen. unfold join. apply wp_bind.
  eapply (wp_mono _ _ (fun o v => v = nothing /\ exists r, o = Done r /\ forall u ms, r = Ok (u, ms) -> ms = l)).
  2: { unfold ClientURLs. destruct advertised as [ip|err], join_host as [h|]; try (apply wp_ret; split; [done|]; by eexists).
       eapply wp_call. intros r v [-> [->|Hr]]; [|destruct r; [done|]]; apply wp_ret; split; [done| |done|]; eexists; (split; [done|]); naive_solver. }
  intros o v (-> & [[u ms]|err] & -> & Hms); [|apply wp_ret; eexists; split; [done|by left]]. rewrite (Hms _ _ eq_refl).
  eapply wp_call. intros rc v ->. destruct rc as [[]|err]; [|apply wp_ret; eexists; split; [done|by left]].
  apply wp_bind. eapply wp_mono; [|apply scan_all; exact Hl]. cbv beta. intros o v (-> & r & -> & Hr).
  destruct r as [[cluster add]|err]; [|apply wp_ret; eexists; split; [done|by left]].
  destruct Hr as (Hno0 & -> & ->). cbn [app andb snd].
  assert (forall m, m ∈ l -> ~ same_node e m) as Hno by (intros m Hm Hs; pose proof (Hno0 m Hm); by rewrite (same_node_clashes e m Hlen Hs) in *).
  assert (forall m, m ∈ l -> entry e m ∈ entry e <$> l) as Hent by (intros m Hm; by apply list_elem_of_fmap_2).
  destruct (existsb (is_self e) l) eqn:Eself; cbn [negb].
  - apply wp_ret_bind. intros r v ->. exists r. split; [done|]. right. exists (entry e <$> l). split_and!; [done| |].
    + intros m Hm. split; [by apply Hno|by apply Hent].
    + apply existsb_exists in Eself as (m & Hm%list_elem_of_In & Hs). apply bool_decide_eq_true in Hs as [Hn Hh].
      exists (peer m). split; [|rewrite <-Hn; by apply Hent].
      destruct (Hl m Hm) as (p & h & Hp & Hp2). unfold peer_host, peer in *. rewrite Hp in *. cbn in *. rewrite Hp2 in *. cbn in Hh. by rewrite Hh.
  - apply wp_bind. eapply wp_call. intros r v Hadd. destruct r as [[]|err].
    + destruct Hadd as [[_ ->]|[? _]]; [|done]. apply wp_ret. intros r v ->. exists r. split; [done|]. right.
      exists ((entry e <$> l) ++ [e_name e +:+ "=" +:+ peerURL e]). split_and!; [done| |].
      * intros m Hm. split; [by apply Hno|]. apply elem_of_app. left. by apply Hent.
      * exists (peerURL e). split; [by apply hostname_of|]. apply elem_of_app. right. by left.
    + destruct Hadd as [[? _]|[_ ->]]; [done|]. apply wp_ret. eexists. split; [done|by left].
Qed.

End join.

(** A second server that joins [first_server], and one that was added before
    and lost its connection. *)
Definition second_server : Etcd := mkEtcd "n2-b" "10.0.0.2" "" "n2" "/d" "https://127.0.0.1:2379" false "n2".
Definition unstarted : Member := mkMember 2 "" ["https://10.0.0.2:2380"] [] true.

Lemma join_exact_witness :
  wp (join_contract [lone_voter; unstarted]) (join (UH := plain_urls) second_server (Ok "10.0.0.2") (Some "10.0.0.1"))
    (fun o v => o = Done (Ok tt) -> exists cluster, jn_added v = [] /\ jn_started v = [(join_with "," cluster, StateExisting)] /\
      "n2-b=https://10.0.0.2:2380" ∈ cluster) nothing.
Proof.
  eapply wp_mono; [|apply (join_exact (UH := plain_urls) second_server [lone_voter; unstarted] (Ok "10.0.0.2") (Some "10.0.0.1"))].
  - intros o v (r & -> & [[_ ?]|(cluster & -> & Hent & _)]) [= ->]; [done|]. exists cluster. split_and!; [reflexivity|done|].
    destruct (Hent unstarted) as [_ He]; [right; by left|exact He].
  - intros m [->|[->|[]%elem_of_nil]%elem_of_cons]%elem_of_cons; by eexists _, _.
  - done.
  - cbn. lia.
Defined.

(** ** Leaving *)

(** Members and the node in the API server; requests are served. *)
Record Removal := mkRemoval { rv_members : list Member; rv_node : ENode }.

Definition removal_contract : contract memE Removal := fun X e v x v' =>
  match e in memE X return X -> Prop with
  | MemberList => fun r => v' = v /\ r = Ok (rv_members v)
  | MemberRemove id => fun r => r = Ok tt /\ v' = mkRemoval (without id (rv_members v)) (rv_node v)
  | UpdateENode n => fun r => r = (n, None) /\ v' = mkRemoval (rv_members v) n
  | _ => fun _ => v' = v
  end x.

Section removal.
Context `{UH : UrlHost}.
Implicit Types (e : Etcd) (m : Member) (l : list Member) (n : ENode).

Definition at_address (address : string) m : Prop := exists p, p ∈ m_PeerURLs m /\ hostname p = Some address.

Lemma remove_at_exact e address allow id peers v : (forall p, p ∈ peers -> is_Some (hostname p)) ->
  wp removal_contract (remove_at e address allow id peers) (fun o v' => exists r, o = Done r /\
    ((r = None /\ v' = v /\ forall p, p ∈ peers -> hostname p <> Some address) \/
     ((exists p, p ∈ peers /\ hostname p = Some address) /\
      if bool_decide (e_address e = address) && negb allow then v' = v /\ exists err, r = Some (Err err)
      else r = Some (Ok tt) /\ v' = mkRemoval (without id (rv_members v)) (rv_node v)))) v.
Proof.
  induction peers as [|p peers IH]; intros Hp; cbn [remove_at].
  { apply wp_ret. exists None. split; [done|]. left. split_and!; [done|done|]. by intros p ?%elem_of_nil. }
  destruct (Hp p) as [h Hh]; [by left|]. rewrite Hh. destruct (decide (h = address)) as [->|E].
  - destruct (bool_decide (e_address e = address) && negb allow).
    + apply wp_ret. eexists. split; [done|]. right. split; [exists p; split; [by left|done]|]. split; [done|]. by eexists.
    + eapply wp_call. intros r v1 [-> ->]. apply wp_ret. eexists. split; [done|]. right. split; [exists p; split; [by left|done]|done].
  - eapply wp_mono; [|apply IH; intros q Hq; apply Hp; by right]. cbv beta. intros o v' (r & -> & Hr). exists r. split; [done|].
    destruct Hr as [(-> & -> & Hno)|[(q & Hq & Hq2) Hr]].
    + left. split_and!; [done|done|]. intros q [->|Hq]%elem_of_cons; [congruence|by apply Hno].
    + right. split; [|done]. exists q. split; [by right|done].
Qed.

(** Nobody has that name at that address, or the first one who has is gone,
    unless this server would remove itself and may not. *)
Definition removed e name address (allow : bool) l v (o : outcome (res unit)) v' : Prop := exists r, o = Done r /\
  ((r = Ok tt /\ v' = v /\ forall m, m ∈ l -> m_Name m = name -> ~ at_address address m) \/
   (exists m, m ∈ l /\ m_Name m = name /\ at_address address m /\
    if bool_decide (e_address e = address) && negb allow then v' = v /\ is_ok r = false
    else r = Ok tt /\ v' = mkRemoval (without (m_ID m) (rv_members v)) (rv_node v))).

Lemma remove_among_exact e name address allow l v : (forall m p, m ∈ l -> p ∈ m_PeerURLs m -> is_Some (hostname p)) ->
  wp removal_contract (remove_among e name address allow l) (removed e name address allow l v) v.
Proof.
  induction l as [|m l IH]; intros Hl; cbn [remove_among].
  { apply wp_ret. eexists. split; [done|]. left. split_and!; [done|done|]. by intros m ?%elem_of_nil. }
  assert ((m_Name m = name -> ~ at_address address m) ->
    wp removal_contract (remove_among e name address allow l) (removed e name address allow (m :: l) v) v) as Hskip.
  { intros Hno. eapply wp_mono; [|apply IH; intros m' p Hm'; apply Hl; by right].
    intros o v' (r & -> & [(-> & -> & H)|(m' & Hm' & H)]); eexists; (split; [done|]).
    - left. split_and!; [done|done|]. intros m' [->|Hm']%elem_of_cons; [done|by apply H].
    - right. exists m'. split; [by right|done]. }
  destruct (decide (m_Name m = name)) as [E|E]; [|by apply Hskip].
  apply wp_bind. eapply wp_mono; [|apply remove_at_exact; intros p Hp; eapply Hl; [by left|done]]. cbv beta.
  intros o v' (r & -> & [(-> & -> & Hno)|[(p & Hp & Hh) Hr]]).
  - apply Hskip. intros _ (p & Hp & Hh). by eapply Hno.
  - assert (at_address address m) as Hat by by exists p. unfold removed.
    destruct (bool_decide (e_address e = address) && negb allow).
    + destruct Hr as (-> & err & ->). apply wp_ret. eexists. split; [done|]. right. exists m. by split_and!; [left|..].
    + destruct Hr as (-> & ->). apply wp_ret. eexists. split; [done|]. right. exists m. by split_and!; [left|..].
Qed.

(** A node whose member is to be removed. *)
Definition to_remove (name address : string) n : Prop :=
  is_etcd_node n = true /\ (exists v, en_Annotations n !! removalAnnotation = Some v /\ ToLower v = "true") /\
  en_Annotations n !! NodeNameAnnotation = Some name /\ en_Annotations n !! NodeAddressAnnotation = Some address /\
  en_Annotations n !! removedNodeNameAnnotation = None.

(** The life of a node: its member is removed, later the server joins again
    under a new name, and the controllers of the node run after each step. *)
Definition removal_cycle e (e' : Etcd) n : memP (handled * handled * handled) :=
  do r1 <- member_sync e (Some n);
  match r1 with
  | (Some n1, Ok _) =>
      do r2 <- handleSelf e' (Ret tt) n1;
      match r2 with
      | (Some n2, Ok _) => do r3 <- member_sync e (Some n2); Ret (r1, r2, r3)
      | _ => Ret (r1, r2, (None, Ok tt))
      end
  | _ => Ret (r1, (None, Ok tt), (None, Ok tt))
  end.

(** C4. A removal that is asked for by annotation takes the member of that name
    and address out of the cluster and no other; when the server has come
    back under a new name its node carries that name and address and no trace
    of the removal, and is otherwise as before. *)
Theorem removal_cycle_exact e (e' : Etcd) n l name address :
  to_remove name address n -> (forall m p, m ∈ l -> p ∈ m_PeerURLs m -> is_Some (hostname p)) ->
  e_DisableETCD e' = false -> e_name e' <> name -> e_name e' <> "" ->
  wp removal_contract (removal_cycle e e' n) (fun o v =>
    (exists r, o = Done r) /\
    (rv_members v = l /\ (forall m, m ∈ l -> m_Name m = name -> ~ at_address address m) \/
     exists m, m ∈ l /\ m_Name m = name /\ at_address address m /\ rv_members v = without (m_ID m) l) /\
    rv_node v = mkENode (en_Name n) (<[ETCDRoleLabelKey := "true"]> (en_Labels n))
      (delete removalAnnotation (delete removedNodeNameAnnotation
        (<[NodeAddressAnnotation := e_address e']> (<[NodeNameAnnotation := e_name e']> (en_Annotations n))))) (en_Condition n))
    (mkRemoval l n).
Proof.
  intros (Hetcd & (w & Hw & Hlow) & Hname & Haddr & Hrem) Hl Hdis Hne Hne2. unfold removal_cycle. apply wp_bind.
  unfold member_sync at 1. rewrite Hetcd, Hw. unfold member_annotations. rewrite Hname, Haddr, Hrem. cbn [negb].
  rewrite decide_True by done. apply wp_bind. unfold RemovePeer. eapply wp_call. intros r v1 [-> ->].
  eapply wp_mono; [|apply remove_among_exact; exact Hl]. intros o v1 (r & -> & Hr).
  assert (r = Ok tt /\ rv_node v1 = n /\ (rv_members v1 = l /\ (forall m, m ∈ l -> m_Name m = name -> ~ at_address address m) \/
    exists m, m ∈ l /\ m_Name m = name /\ at_address address m /\ rv_members v1 = without (m_ID m) l)) as (-> & _ & Hmem).
  { destruct Hr as [(-> & -> & Hno)|(m & Hm & Hn & Hat & Hr)]; [split_and!; [done|done|by left]|].
    rewrite andb_false_r in Hr. destruct Hr as [-> ->]. split_and!; [done|done|]. right. by exists m. }
  clear Hr. set (n1 := with_annotations _ n). eapply wp_call. intros r v2 [-> ->]. apply wp_ret. cbn [fst snd].
  apply wp_bind. unfold handleSelf. rewrite Hdis. apply wp_ret_bind.
  assert (annotation NodeNameAnnotation n1 = "") as Ea.
  { unfold annotation. subst n1. cbn. by rewrite lookup_delete_ne, lookup_delete_eq by done. }
  rewrite decide_False by (rewrite Ea; naive_solver). eapply wp_call. intros r v3 [-> ->]. apply wp_ret. cbn [fst snd].
  set (n2 := mkENode _ _ _ _). apply wp_bind. unfold member_sync.
  assert (is_etcd_node n2 = true) as ->.
  { apply bool_decide_eq_true. subst n2. cbn. rewrite lookup_insert_eq. by eexists. }
  assert (forall k, k <> NodeNameAnnotation -> k <> NodeAddressAnnotation ->
    en_Annotations n2 !! k = <[removedNodeNameAnnotation := name]> (en_Annotations n) !! k) as Hother.
  { intros k H1 H2. subst n2 n1. cbn. by rewrite !lookup_insert_ne, !lookup_delete_ne, ?lookup_insert_ne by done. }
  rewrite (Hother removalAnnotation), lookup_insert_ne, Hw by done. cbn [negb]. unfold member_annotations.
  assert (en_Annotations n2 !! NodeNameAnnotation = Some (e_name e')) as ->.
  { subst n2. cbn. by rewrite lookup_insert_ne, lookup_insert_eq by done. }
  assert (en_Annotations n2 !! NodeAddressAnnotation = Some (e_address e')) as ->.
  { subst n2. cbn. by rewrite lookup_insert_eq. }
  rewrite (Hother removedNodeNameAnnotation), lookup_insert_eq by done. rewrite decide_True by done.
  eapply wp_call. intros r v4 [-> ->]. apply wp_ret. apply wp_ret. split; [by eexists|]. split; [exact Hmem|].
  cbn [rv_node]. unfold with_annotations. subst n2. cbn [en_Name en_Labels en_Condition en_Annotations]. f_equal.
  apply map_eq. intros k.
  destruct (decide (k = removalAnnotation)) as [->|K1]; [by rewrite !lookup_delete_eq|]. rewrite !(lookup_delete_ne _ removalAnnotation) by done.
  destruct (decide (k = removedNodeNameAnnotation)) as [->|K2]; [by rewrite !lookup_delete_eq|]. rewrite !(lookup_delete_ne _ removedNodeNameAnnotation) by done.
  destruct (decide (k = NodeAddressAnnotation)) as [->|K3]; [by rewrite !lookup_insert_eq|]. rewrite !(lookup_insert_ne _ NodeAddressAnnotation) by done.
  destruct (decide (k = NodeNameAnnotation)) as [->|K4]; [by rewrite !lookup_insert_eq|]. rewrite !(lookup_insert_ne _ NodeNameAnnotation) by done.
  subst n1. cbn. by rewrite !lookup_delete_ne, lookup_insert_ne by done.
Qed.

End removal.

Definition node2 : ENode :=
  mkENode "n2" {[ETCDRoleLabelKey := "true"]}
    {[NodeNameAnnotation := "n2-b"; NodeAddressAnnotation := "10.0.0.2"; removalAnnotation := "True"]} None.
Definition second_voter : Member := mkMember 2 "n2-b" ["https://10.0.0.2:2380"] ["https://10.0.0.2:2379"] false.
Definition returned_server : Etcd := mkEtcd "n2-c" "10.0.0.2" "" "n2" "/d" "https://127.0.0.1:2379" false "n2".

Lemma removal_cycle_exact_witness :
  wp removal_contract (removal_cycle (UH := plain_urls) first_server returned_server node2) (fun o v =>
    en_Annotations (rv_node v) !! NodeNameAnnotation = Some "n2-c" /\ en_Annotations (rv_node v) !! removalAnnotation = None)
    (mkRemoval [lone_voter; second_voter] node2).
Proof.
  eapply wp_mono; [|apply (removal_cycle_exact (UH := plain_urls) first_server returned_server node2 [lone_voter; second_voter] "n2-b" "10.0.0.2")].
  - intros o v (_ & _ & ->). by split.
  - split_and!; [done|by exists "True"|done|done|done].
  - intros m p [->|[->|[]%elem_of_nil]%elem_of_cons]%elem_of_cons ->%list_elem_of_singleton; by eexists.
  - done.
  - done.
  - done.
Defined.

(** ** An etcd to run against *)

Record MemWorld := mkMemWorld {
  mw_members : list Member; mw_progress : option learnerProgress; mw_nodes : gmap string ENode; mw_leader : Z; mw_clock : Z;
  mw_started : list string;
}.

Definition with_members (l : list Member) (w : MemWorld) : MemWorld :=
  mkMemWorld l (mw_progress w) (mw_nodes w) (mw_leader w) (mw_clock w) (mw_started w).

(** Every endpoint is that of the leader; files are not there. *)
Definition live_mem : handler memE MemWorld := fun X e w =>
  match e in memE X return X * MemWorld with
  | MOs e => (match e in osE X return X with
              | ReadFile _ => Err not_exist | Create _ => Ok tt | Chmod _ => Ok tt | Write _ _ => Ok tt | Rename _ _ => Ok tt
              | Remove _ => Err not_exist | Stat _ => Err not_exist | Chtimes _ _ => Ok tt | MkdirAll _ => Ok tt
              | ReadDir _ => Ok [] | Random _ => Err (Plain "random") | Now => mw_clock w
              end, w)
  | MemberList => (Ok (mw_members w), w)
  | MemberAddAsLearner url =>
      (Ok tt, with_members (mw_members w ++ [mkMember (Z.of_nat (length (mw_members w)) + 1) "" [url] [] true]) w)
  | MemberRemove id => (Ok tt, with_members (without id (mw_members w)) w)
  | MemberPromote _ => (Err etcd_unhealthy, w)
  | MemberUpdate _ _ => (Ok tt, w)
  | EndpointStatus _ => (Ok (mkEpStatus (mw_leader w) (mw_leader w) 5 false []), w)
  | Defragment => (Ok tt, w)
  | AlarmList => (Ok [], w)
  | AlarmDisarm _ => (Ok tt, w)
  | GetProgress => (Ok (mw_progress w), w)
  | PutProgress p => (Ok tt, mkMemWorld (mw_members w) (Some p) (mw_nodes w) (mw_leader w) (mw_clock w) (mw_started w))
  | PutAddresses _ => (Ok tt, w)
  | GetClientSet => (Ok tt, w)
  | CachedEtcdNodes => (Ok (filter (fun n => is_etcd_node n = true) (map_to_list (mw_nodes w)).*2), w)
  | ListEtcdNodes => (Ok (filter (fun n => is_etcd_node n = true) (map_to_list (mw_nodes w)).*2), w)
  | UpdateENode n =>
      ((n, None), mkMemWorld (mw_members w) (mw_progress w) (<[en_Name n := n]> (mw_nodes w)) (mw_leader w) (mw_clock w) (mw_started w))
  | SetNodeCondition _ _ => (Ok tt, w)
  | EnqueueAfter => (tt, w)
  | DbInfo => (Ok (mw_members w), w)
  | RemoteClient _ => (Ok tt, w)
  | StartEtcd _ cluster _ =>
      (Ok tt, mkMemWorld (mw_members w) (mw_progress w) (mw_nodes w) (mw_leader w) (mw_clock w) (mw_started w ++ [cluster]))
  end.

Definition two_members : MemWorld := mkMemWorld [lone_voter; second_voter] None {["n2" := node2]} 1 0 [].

(** A node whose member has been removed keeps the label and has no member name
    any more; when its server joins again, the leader finds a member without
    name, takes it for that node's, asks for its first client URL and
    crashes. *)
Definition remove_and_rejoin : memP (res unit) :=
  do r <- member_sync (UH := plain_urls) first_server (Some node2);
  do j <- join (UH := plain_urls) returned_server (Ok "10.0.0.2") (Some "10.0.0.1");
  Ret j.

Example rejoin_crashes_leader :
  let '(r, w) := run live_mem remove_and_rejoin two_members in
  r = Done (Ok tt) /\ fst (run live_mem (manage_tick (MO := list_order) (fun _ => "") first_server) w) = Panicked.
Proof. vm_compute. done. Qed.

(** Until then every change of the node is answered with an error, since the
    annotations are looked for before the removal is found to be done. *)
Example removed_node_fails_to_sync :
  let sync n := fst (run live_mem (member_sync (UH := plain_urls) first_server (Some n)) two_members) in
  exists n, sync node2 = Done (Some n, Ok tt) /\ sync n = Done (Some n, Err (Plain "node name annotation not found")).
Proof. eexists. split; vm_compute; reflexivity. Qed.

(** The node name of a member is its name up to the last dash, but not when
    that is one letter: a second server of that node name is not noticed. *)
Example short_name_clash :
  let me := mkEtcd "a-2" "10.0.0.2" "" "a" "/d" "https://127.0.0.1:2379" false "a" in
  let other := mkMember 1 "a-1" ["https://10.0.0.1:2380"] ["https://10.0.0.1:2379"] false in
  clashes (UH := plain_urls) me other = false /\
  clashes (UH := plain_urls) (mkEtcd "ab-2" "10.0.0.2" "" "ab" "/d" "https://127.0.0.1:2379" false "ab")
    (mkMember 1 "ab-1" ["https://10.0.0.1:2380"] ["https://10.0.0.1:2379"] false) = true.
Proof. vm_compute. done. Qed.

(** * Properties of the start of the embedded etcd

    The name of a member is kept over restarts, a cluster is reset once, and
    what is kept of old data directories. *)

#[local] Open Scope Z_scope.

(** The files, and how often etcd was started.  A file that is there is found,
    or the call fails for another reason; what moves directories or fetches
    snapshots may change files at will. *)
Definition boot_contract : contract srvE (fs * nat) := fun X e v x v' =>
  let '(m, n) := v in let '(m', n') := v' in
  match e in srvE X return X -> Prop with
  | SvMem e => fun x =>
      match e in memE X return X -> Prop with
      | MOs e => fun x => os_contract true _ e m x m' /\ n' = n
      | StartEtcd _ _ _ => fun _ => m' = m /\ n' = S n
      | _ => fun _ => v' = v
      end x
  | StatInfo p => fun r => v' = v /\ (is_Some (m !! p) -> r <> Err not_exist)
  | _ => fun _ => n' = n
  end x.

Section boot.
Context `{UH : UrlHost, SS : SortSlice, MO : MapOrder}.
Context (ParseDuration : string -> option Z) (valid_proxy has_certs : string -> bool).
Implicit Types (e : Etcd) (m : fs).
Notation C := boot_contract.

Lemma write_file_boot p text m n :
  wp C (svos (WriteFile p text)) (fun o v => snd v = n /\ exists r, o = Done r /\
    (r = Ok tt -> exists t, fst v !! p = Some (mkFile text t))) (m, n).
Proof.
  unfold svos, WriteFile. cbn [trans call]. intros r [m1 n1] [H1 ->]. destruct r as [[]|e].
  - intros r [m2 n2] [H2 ->]. split; [done|]. exists r. split; [done|]. intros ->.
    destruct H2 as [(_ & t & ->)|(_ & [e ?] & _)]; [|done]. exists t. cbn. by rewrite lookup_insert_eq.
  - split; [done|]. eexists. split; [done|]. done.
Qed.

(** A name that was set is on disk. *)
Lemma setName_recorded e force m n :
  wp C (setName e force) (fun o v => snd v = n /\ exists e' r, o = Done (e', r) /\
    nameFile e' = nameFile e /\ e_ServerNodeName e' = e_ServerNodeName e /\ ResetFile e' = ResetFile e /\
    (r = Ok tt -> exists t, fst v !! nameFile e = Some (mkFile (e_name e') t))) (m, n).
Proof.
  unfold setName, svos. cbn [trans call]. eapply wp_call. intros data [m1 n1] [[-> Hread] ->].
  destruct (_ || force) eqn:Ef.
  - case_decide; [apply wp_ret; split; [done|]; by eexists _, _|].
    eapply wp_call. intros id [m2 n2] ->. cbv zeta. eapply wp_call. intros d [m3 n3] [[-> Hd] ->].
    destruct d as [[]|err]; [|apply wp_ret; split; [done|]; by eexists _, _].
    apply wp_bind. eapply wp_mono; [|apply (write_file_boot (nameFile (with_name _ e)))]. cbv beta. intros o [m4 n4] (Hn & r & -> & Hr).
    apply wp_ret. split; [done|]. eexists _, r. split_and!; [done|done|done|done|]. exact Hr.
  - apply wp_ret. split; [done|]. destruct data as [text|err]; eexists _, _; (split_and!; [done|done|done|done|]); [|done].
    intros _. cbn [fst e_name with_name]. destruct (m !! nameFile e) as [[c t]|] eqn:E.
    + exists t. destruct Hread as [[= ->]|(_ & e0 & _ & ?)]; done.
    + destruct Hread as (e0 & ? & _). done.
Qed.

(** The name of a member, once set, is the name every later start without
    reset finds, whatever fails in between. *)
Theorem member_name_persists e force m n :
  wp C (do r1 <- setName e force;
        match snd r1 with
        | Ok _ => do r2 <- setName e false; Ret (fst r1, Some r2)
        | Err _ => Ret (fst r1, None)
        end) (fun o v => exists e1 r, o = Done (e1, r) /\ match r with
                                                         | Some (e2, Ok _) => e_name e2 = e_name e1
                                                         | _ => True
                                                         end) (m, n).
Proof.
  apply wp_bind. eapply wp_mono; [|apply setName_recorded]. cbv beta. intros o [m1 n1] (_ & e1 & r & -> & _ & _ & _ & Hr). cbn [snd fst] in *.
  destruct r as [[]|err]; [|apply wp_ret; by eexists _, _]. destruct (Hr eq_refl) as [t Ht].
  apply wp_bind. unfold setName at 1, svos. cbn [trans call]. eapply wp_call. intros data [m2 n2] [[-> Hread] _].
  rewrite Ht in Hread. destruct Hread as [->|(_ & err & Hne & ->)].
  - apply wp_ret, wp_ret. by eexists _, _.
  - rewrite bool_decide_eq_false_2 by done. apply wp_ret, wp_ret. by eexists _, _.
Qed.

(** What snapshots are asked starts nothing. *)
Lemma svsn_keeps {A} (p : snP A) v : wp C (svsn p) (fun _ v' => snd v' = snd v) v.
Proof.
  unfold svsn. revert v. induction p as [a|X eff k IH|msg]; intros v; cbn [trans]; [done| |done].
  intros x v' Hc. eapply wp_mono; [|apply IH]. intros o v2 ->. by destruct v, v'.
Qed.

Lemma call_keeps {X} (eff : srvE X) v : (forall (x : X) v', C _ eff v x v' -> snd v' = snd v) ->
  wp C (call eff) (fun _ v' => snd v' = snd v) v.
Proof. intros H x v' Hc. by eapply H. Qed.

(** Programs in sequence that start nothing. *)
Lemma keeps_bind {A B} (p : srvP A) (f : A -> srvP B) v :
  wp C p (fun _ v' => snd v' = snd v) v -> (forall a v', wp C (f a) (fun _ v'' => snd v'' = snd v') v') ->
  wp C (bind p f) (fun _ v' => snd v' = snd v) v.
Proof.
  intros Hp Hf. apply wp_bind. eapply wp_mono; [|exact Hp]. intros [a|] v' E; [|done].
  eapply wp_mono; [|apply Hf]. cbv beta. intros o v2 ->. exact E.
Qed.

Ltac keeps_call :=
  let x := fresh in let v' := fresh in let Hc := fresh in
  try unfold svos; cbn [trans call]; intros x v' Hc;
  repeat match goal with v : (fs * nat)%type |- _ => destruct v end; cbn in Hc |- *;
  first [done | by destruct Hc as [[= -> ->] _] | by destruct Hc as [_ ->]].
Ltac keeps :=
  first [keeps_call | done | apply svsn_keeps
        | apply keeps_bind; [keeps | intros ? ?; keeps] | case_match; keeps].

Lemma restore_keeps e (sc : SnControl) path v : wp C (RestoreSnapshot e sc path) (fun _ v' => snd v' = snd v) v.
Proof. unfold RestoreSnapshot. keeps. Qed.

Lemma reset_path_keeps e (sc : SnControl) path v :
  wp C (reset_path ParseDuration valid_proxy has_certs e sc path) (fun _ v' => snd v' = snd v) v.
Proof. unfold reset_path. apply keeps_bind; [keeps|]. intros r v'. destruct r as [p|]; [|done]. apply keeps_bind; [keeps|].
  intros i v2. destruct i as [[[] ?]|]; [done|apply restore_keeps|]. by case_decide. Qed.

(** After a reset that succeeded a start that asks for a reset without a
    snapshot is refused, and starts nothing. *)
Theorem reset_once e (sc : SnControl) (path : string) (cfg : Managed) (ds joining : bool) m n :
  mg_ClusterReset cfg = true -> mg_RestorePath cfg = "" ->
  wp C (do r1 <- Reset ParseDuration valid_proxy has_certs e sc path;
        match snd r1 with
        | Ok _ => do r2 <- start ParseDuration valid_proxy has_certs (fst r1) sc cfg ds joining; Ret (Some (snd r2))
        | Err _ => Ret None
        end) (fun o v => forall r, o = Done (Some r) -> is_ok r = false /\ snd v = S n) (m, n).
Proof.
  intros Hreset Hpath. apply wp_bind. unfold Reset. apply wp_bind.
  eapply (wp_mono _ _ (fun _ v => snd v = snd (m, n))); [|unfold startClient; keeps].
  intros [started|] [m1 n1]; cbn [snd]; [intros ->|done]. apply wp_bind.
  eapply (wp_mono _ _ (fun _ v => snd v = snd (m1, n))).
  2: { destruct started; [|done]. case_decide; [done|apply reset_path_keeps]. }
  intros [restored|] [m2 n2]; cbn [snd]; [intros ->|done]. destruct restored as [[]|]; [|by apply wp_ret].
  apply wp_bind. eapply wp_mono; [|apply setName_recorded]. intros o [m3 n3] (E3 & e1 & r & -> & _ & _ & Hf & _). cbn [snd fst] in *. subst n3.
  destruct r as [[]|]; [|by apply wp_ret]. apply wp_bind. eapply wp_mono; [|apply write_file_boot].
  intros o [m4 n4] (E4 & r & -> & Hw). cbn [snd fst] in *. subst n4. destruct r as [[]|]; [|by apply wp_ret].
  destruct (Hw eq_refl) as [t Ht]. apply wp_bind. unfold newCluster, svmem. cbn [trans call]. intros r [m5 n5] [-> ->]. apply wp_ret.
  cbn [snd fst]. destruct r as [[]|]; [|by apply wp_ret]. apply wp_bind. unfold start. apply wp_bind. unfold IsReset.
  eapply wp_call. intros st [m6 n6] [[= -> ->] Hst]. apply wp_ret. cbn [fst] in Hst. rewrite Hf in Hst.
  destruct st as [s|err].
  - rewrite Hreset, Hpath. apply wp_ret, wp_ret. by intros r [= <-].
  - rewrite decide_False by (intros ->; by apply Hst). apply wp_ret, wp_ret. by intros r [= <-].
Qed.

End boot.

Definition reset_again : Managed := mkManaged "" false "" "" true "".

Lemma reset_once_witness :
  wp boot_contract (do r1 <- Reset (MO := list_order) (fun _ => None) (fun _ => true) (fun _ => true)
                      first_server (mkSnControl "/d" "" "a" 5 false None false "" "" "" "n1" true) "";
        match snd r1 with
        | Ok _ => do r2 <- start (MO := list_order) (fun _ => None) (fun _ => true) (fun _ => true)
                             (fst r1) (mkSnControl "/d" "" "a" 5 false None false "" "" "" "n1" true) reset_again false false; Ret (Some (snd r2))
        | Err _ => Ret None
        end) (fun o v => forall r, o = Done (Some r) -> is_ok r = false /\ snd v = 1%nat) (∅, 0%nat).
Proof. apply reset_once; reflexivity. Defined.

(** Five old backups are kept beside the one that is about to be made. *)
Example six_backups_kept :
  let backups := (fun t => mkDirEntry ("etcd-backup-" +:+ t) true 0) <$> ["1"; "2"; "3"; "4"; "5"] in
  remove_old "/d/db" "etcd-backup" maxBackupRetention 0 backups = Ret (Ok tt).
Proof. vm_compute. reflexivity. Qed.
