(* ===== verification/ConfigArgs.v ===== *)
(** * The configuration file as command-line arguments

    [pkg/configfilearg]: a configuration file and the files in the directory
    beside it are read, merged key by key, written out as flags, and put
    between the command and the flags of the command line. *)
From Stdlib Require Import ZArith Lia.
From S2P Require Import Prelude GoText NetAddr GoTime Prog Os.

(** ** Data *)

(** A value of a YAML document: a string, a sequence, or another scalar or
    mapping by its text. *)
Inductive yvalue : Type :=
  | YString (s : string)
  | YSlice (l : list yvalue)
  | YScalar (text : string)
  | YNull.

(** [yaml.Unmarshal] into a [MapSlice], and [convert.ToString]. *)
Class Yaml := mkYaml {
  Unmarshal : string -> res (list (yvalue * yvalue));
  ToString : yvalue -> string;
}.

Record Parser := mkParser {
  After : list string;
  ConfigFlags : list string;
  OverrideFlags : list string;
  EnvName : string;
  DefaultConfig : string;
  ValidFlags : gmap string (list string);
}.

(** A directory entry: its name, and whether it is a directory. *)
Inductive cfgE : Type -> Type :=
  | Getenv (name : string) : cfgE string
  | CStat (p : string) : cfgE (res unit)
  | CReadDir (p : string) : cfgE (res (list (string * bool)))
  | CRead (p : string) : cfgE (res string).

Abbreviation cfgP := (prog cfgE).

(** ** The arguments *)

Definition minus : Ascii.ascii := Ascii.ascii_of_nat 45.
Definition equal_sign : Ascii.ascii := Ascii.ascii_of_nat 61.

(** The digits a string starts with. *)
Fixpoint lead_digits (s : string) : string :=
  match s with
  | String c r => match digit c with Some _ => String c (lead_digits r) | None => "" end
  | EmptyString => ""
  end.

(** The text before the last colon that a digit follows, and the digits. *)
Fixpoint last_number (s : string) : option (string * string) :=
  match s with
  | EmptyString => None
  | String c r =>
      match last_number r with
      | Some (a, d) => Some (String c a, d)
      | None => if Ascii.eqb c colon && negb (bool_decide (lead_digits r = "")) then Some ("", lead_digits r) else None
      end
  end.

(** The first match of [(.+):(\d+)] in a line. *)
Definition match_after (arg : string) : option (string * string) :=
  match last_number arg with Some (a, d) => if decide (a = "") then None else Some (a, d) | None => None end.

(** The keywords without their numbers, and the numbers; [None] for a number
    out of range. *)
Fixpoint after_table (after : list string) (index : gmap string Z) : option (list string * gmap string Z) :=
  match after with
  | [] => Some ([], index)
  | arg :: after =>
      match match_after arg with
      | Some (a, d) =>
          match ParseInt d with
          | Some n => match after_table after (<[a := n]> index) with Some (l, m) => Some (a :: l, m) | None => None end
          | None => None
          end
      | None => match after_table after index with Some (l, m) => Some (arg :: l, m) | None => None end
      end
  end.

(** The arguments up to the command, and behind it. *)
Fixpoint find_split (words : list string) (index : gmap string Z) (i : nat) (rest args : list string)
    : list string * list string * bool :=
  match rest with
  | [] => (args, [], false)
  | val :: rest =>
      if decide (val ∈ words) then
        let skip := Z.to_nat (default 0%Z (index !! val)) in
        if decide (skip = O) then (take (i + 1) args, drop (i + 1) args, true)
        else match args !! (i + skip)%nat with
             | None => (take (i + 1) args, drop (i + 1) args, true)
             | Some a => if has_prefix a "-" then (take (i + 1) args, drop (i + 1) args, true)
                         else (take (i + skip + 1) args, drop (i + skip + 1) args, true)
             end
      else find_split words index (S i) rest args
  end.

Definition findStart (p : Parser) (args : list string) : list string * list string * bool :=
  match After p with
  | [] => ([], args, true)
  | after => match after_table after ∅ with
             | None => (args, [], false)
             | Some (words, index) => find_split words index 0 args args
             end
  end.

(** What the first configuration flag that matches [arg] says: the next
    argument, or the text behind the equal sign. *)
Fixpoint config_flag (flags : list string) (arg : string) : option (option string) :=
  match flags with
  | [] => None
  | f :: flags =>
      if decide (f = arg) then Some None
      else match strip_prefix (f +:+ "=") arg with Some v => Some (Some v) | None => config_flag flags arg end
  end.

Fixpoint scan_config_flag (flags : list string) (fallback : string) (args : list string) : string * bool :=
  match args with
  | [] => (fallback, false)
  | arg :: rest =>
      match config_flag flags arg with
      | None => scan_config_flag flags fallback rest
      | Some (Some v) => (v, true)
      | Some None => match rest with v :: _ => (v, true) | [] => ("", false) end
      end
  end.

Definition findConfigFileFlag (p : Parser) (args : list string) : cfgP (string * bool) :=
  do envVal <- call (Getenv (EnvName p));
  if decide (EnvName p <> "" /\ envVal <> "") then Ret (envVal, true)
  else Ret (scan_config_flag (ConfigFlags p) (DefaultConfig p) args).

Definition findOverrideFlag (p : Parser) (args : list string) : option string :=
  find (fun arg => bool_decide (arg ∈ OverrideFlags p)) args.

(** ** Merging files *)

Record Parsed := mkParsed { keySeen : gset string; keyOrder : list string; values : gmap string yvalue }.
Definition no_keys : Parsed := mkParsed ∅ [] ∅.

Definition getArgPrefix (key : string) : string := if decide (String.length key = 1%nat) then "-" else "--".

Section yaml.
Context `{YA : Yaml}.
Implicit Types (p : Parser).

Definition toSlice (v : yvalue) : list yvalue :=
  match v with
  | YString s => [YString s]
  | YSlice l => l
  | _ => let str := TrimSpace (ToString v) in if decide (str = "") then [] else [YString str]
  end.

Definition processConfigEntry (entry : yvalue * yvalue) (st : Parsed) : Parsed :=
  let '(key, v) := entry in
  let k := ToString key in
  let isAppend := has_suffix "+" k in
  let k := trim_suffix "+" k in
  let st := if decide (k ∈ keySeen st) then st
            else mkParsed ({[k]} ∪ keySeen st) (keyOrder st ++ [k]) (values st) in
  mkParsed (keySeen st) (keyOrder st)
    match values st !! k with
    | Some oldValue => if isAppend then <[k := YSlice (toSlice oldValue ++ toSlice v)]> (values st) else <[k := v]> (values st)
    | None => <[k := v]> (values st)
    end.

Definition parseConfigFile (file : string) (st : Parsed) : cfgP (res Parsed) :=
  try bytes <- call (CRead file);
  Ret match Unmarshal bytes with Ok data => Ok (fold_left (fun st e => processConfigEntry e st) data st) | Err err => Err err end.

Fixpoint parseConfigFiles (files : list string) (st : Parsed) : cfgP (res Parsed) :=
  match files with
  | [] => Ret (Ok st)
  | file :: files => try st <- parseConfigFile file st; parseConfigFiles files st
  end.

Definition formatSingleArg (prefix key : string) (value : yvalue) : string := prefix +:+ key +:+ "=" +:+ ToString value.
Definition formatSliceArgs (prefix key : string) (slice : list yvalue) : list string := formatSingleArg prefix key <$> slice.

Definition format_key (m : gmap string yvalue) (k : string) : list string :=
  match default YNull (m !! k) with
  | YSlice slice => formatSliceArgs (getArgPrefix k) k slice
  | v => [formatSingleArg (getArgPrefix k) k v]
  end.
Definition formatCommandLineArgs (m : gmap string yvalue) (order : list string) : list string := order ≫= format_key m.

(** The YAML files among the entries. *)
Definition dot_d_names (basefile : string) (l : list (string * bool)) : list string :=
  (fun f => path_Join [basefile +:+ ".d"; fst f]) <$> filter (fun f => snd f = false /\ HasSuffixI (fst f) [".yaml"; ".yml"] = true) l.

Definition dotDFiles (basefile : string) : cfgP (res (list string)) :=
  do files <- call (CReadDir (basefile +:+ ".d"));
  match files with
  | Err err => Ret (if decide (err = not_exist) then Ok [] else Err err)
  | Ok l => Ret (Ok (dot_d_names basefile l))
  end.

Definition prepareConfigFiles (file : string) : cfgP (res (list string)) :=
  try files <- dotDFiles file;
  do st <- call (CStat file);
  Ret match st with
      | Ok _ => Ok (file :: files)
      | Err err => if decide (err = not_exist /\ files <> []) then Ok files else Err err
      end.

Definition readConfigFile (file : string) : cfgP (res (list string)) :=
  try files <- prepareConfigFiles file;
  try st <- parseConfigFiles files no_keys;
  Ret (Ok (formatCommandLineArgs (values st) (keyOrder st))).

(** ** Flags the command knows *)

Fixpoint trim_dashes (s : string) : string :=
  match s with String c r => if Ascii.eqb c minus then trim_dashes r else s | EmptyString => "" end.

(** The name between the leading dashes and the equal sign, or the argument
    itself. *)
Definition flag_name (arg : string) : string :=
  if has_prefix arg "-" then
    match cut_at equal_sign (trim_dashes arg) with (name, Some _) => name | _ => arg end
  else arg.

(** A flag goes by its names, which commas separate. *)
Definition valid_names (cmdFlags : list string) : list string := cmdFlags ≫= split_on comma.

Definition stripInvalidFlags p (command : string) (args : list string) : list string :=
  match default [] (ValidFlags p !! command) with
  | [] => args
  | cmdFlags => filter (fun arg => flag_name arg ∈ valid_names cmdFlags) args
  end.

(** ** Entry points *)

Definition Parse p (args : list string) : cfgP (res (list string)) :=
  let '(prefix, suffix, found) := findStart p args in
  if negb found then Ret (Ok args)
  else
    do flag <- findConfigFileFlag p args;
    let '(configFile, isSet) := flag in
    if decide (configFile = "") then Ret (Ok args)
    else
      do r <- readConfigFile configFile;
      match r with
      | Err err => if negb isSet && bool_decide (err = not_exist) then Ret (Ok args) else Ret (Err err)
      | Ok values =>
          let values := match args with _ :: command :: _ => stripInvalidFlags p command values | _ => values end in
          Ret (Ok (prefix ++ values ++ suffix))
      end.

Definition findTargetValue (data : list (yvalue * yvalue)) (target lastVal : string) : string :=
  fold_left (fun lastVal i =>
    let k := ToString (fst i) in let v := ToString (snd i) in
    if decide (trim_suffix "+" k = target)
    then if has_suffix "+" k then lastVal +:+ "," +:+ v else v
    else lastVal) data lastVal.

Fixpoint find_in_files (files : list string) (target lastVal : string) : cfgP (res string) :=
  match files with
  | [] => Ret (Ok lastVal)
  | file :: files =>
      try bytes <- call (CRead file);
      match Unmarshal bytes with
      | Err err => Ret (Err err)
      | Ok data => find_in_files files target (findTargetValue data target lastVal)
      end
  end.

Definition FindString p (args : list string) (target : string) : cfgP (res string) :=
  match findOverrideFlag p args with
  | Some val => Ret (Ok val)
  | None =>
      do flag <- findConfigFileFlag p args;
      let '(configFile, isSet) := flag in
      if decide (configFile = "") then Ret (Ok "")
      else
        do st <- call (CStat configFile);
        match st with
        | Err err => if negb isSet && bool_decide (err = not_exist) then Ret (Ok "") else Ret (Err err)
        | Ok _ =>
            try files <- dotDFiles configFile;
            find_in_files (configFile :: files) target ""
        end
  end.

(** The flags of the commands come from the command line package. *)
Context (ServerFlags EtcdSnapshotFlags : list string).

Definition DefaultParser : Parser :=
  mkParser ["server"; "agent"; "etcd-snapshot:1"] ["--config"; "-c"] [] "K8E_CONFIG_FILE" "/etc/k8e/config.yaml"
    (<["server" := ServerFlags]> {["etcd-snapshot" := EtcdSnapshotFlags]}).

(** The process exits on an error. *)
Definition MustParse (args : list string) : cfgP (list string) :=
  do r <- Parse DefaultParser args;
  match r with Ok l => Ret l | Err _ => Panic "fatal" end.

Definition MustFindString (args : list string) (target : string) (commandsWithoutOverride : list string) : cfgP string :=
  let args := match args with a :: rest => if decide (path_Base a = "k8e") then rest else args | [] => [] end in
  let overrideFlags := match args with
                       | a :: _ => if decide (path_Base a ∈ commandsWithoutOverride) then [] else ["--help"; "-h"; "--version"; "-v"]
                       | [] => ["--help"; "-h"; "--version"; "-v"]
                       end in
  do r <- FindString (mkParser [] [] overrideFlags "K8E_CONFIG_FILE" "/etc/k8e/config.yaml" ∅) args target;
  match r with
  | Ok v => Ret v
  | Err _ => match overrideFlags with [] => Ret "" | _ => Panic "fatal" end
  end.

End yaml.

(** * What a configuration file comes to

    The merge of [ConfigArgs] against a reference that reads the files as one
    list of entries: a key has the value of its last plain entry, followed by
    what later entries append, and flags stand in the order in which their
    keys first appear. *)

(** ** The reference *)

(** A list without repetitions, each element where it first stands. *)
Fixpoint firsts (l : list string) : list string :=
  match l with [] => [] | x :: l => x :: filter (fun y => y <> x) (firsts l) end.

Section reference.
Context `{YA : Yaml}.
Implicit Types (e : yvalue * yvalue) (es : list (yvalue * yvalue)).

Definition entry_key e : string := trim_suffix "+" (ToString (fst e)).
Definition appends e : bool := has_suffix "+" (ToString (fst e)).

(** From the end back to the first entry that does not append. *)
Fixpoint back_to_plain (r : list (yvalue * yvalue)) : list (yvalue * yvalue) :=
  match r with [] => [] | e :: r => if appends e then e :: back_to_plain r else [e] end.
Definition block es : list (yvalue * yvalue) := rev (back_to_plain (rev es)).

Definition merged es : option yvalue :=
  match block es with
  | [] => None
  | [e] => Some (snd e)
  | l => Some (YSlice (l ≫= fun e => toSlice (snd e)))
  end.
Definition value_of es (k : string) : option yvalue := merged (filter (fun e => entry_key e = k) es).



(** ** The merge *)



Lemma firsts_NoDup l : NoDup (firsts l).
Proof.
  induction l as [|y l IH]; cbn [firsts]; [constructor|]. constructor; [|by apply NoDup_filter].
  rewrite list_elem_of_filter. naive_solver.
Qed.

Lemma block_snoc es e : block (es ++ [e]) = if appends e then block es ++ [e] else [e].
Proof. unfold block. rewrite rev_app_distr. cbn. by destruct (appends e). Qed.

Lemma block_nil es : block es = [] <-> es = [].
Proof.
  destruct es as [|e es] using rev_ind; [done|]. rewrite block_snoc. destruct (appends e); [|split; [done|by destruct es]].
  split; intros H; by apply app_eq_nil in H as [_ ?].
Qed.

Lemma merged_snoc es e : merged (es ++ [e]) =
  Some match merged es with
       | Some old => if appends e then YSlice (toSlice old ++ toSlice (snd e)) else snd e
       | None => snd e
       end.
Proof.
  unfold merged. rewrite block_snoc. destruct (appends e); [|by destruct (block es) as [|? [|]]].
  destruct (block es) as [|x [|y l]]; [done| |].
  - cbn. by rewrite app_nil_r.
  - cbn. rewrite bind_app. cbn. by rewrite app_nil_r, <-!app_assoc.
Qed.

Lemma merged_None es : merged es = None <-> es = [].
Proof. rewrite <-(block_nil es). unfold merged. by destruct (block es) as [|x [|]]. Qed.






End reference.

(** ** Parsing a command line *)

(** The environment and the files, which parsing leaves alone; any read may
    fail. *)
Record CfgWorld := mkCfgWorld { cw_env : gmap string string; cw_dirs : gmap string (list (string * bool)); cw_files : gmap string string }.

Definition cfg_contract : contract cfgE CfgWorld := fun X e w x w' =>
  w' = w /\
  match e in cfgE X return X -> Prop with
  | Getenv n => fun r => r = default "" (cw_env w !! n)
  | CStat p => fun r => match cw_files w !! p with
                        | Some _ => r = Ok tt \/ exists err, err <> not_exist /\ r = Err err
                        | None => is_ok r = false
                        end
  | CReadDir p => fun r => match cw_dirs w !! p with
                           | Some l => r = Ok l \/ exists err, err <> not_exist /\ r = Err err
                           | None => is_ok r = false
                           end
  | CRead p => fun r => match cw_files w !! p with
                        | Some c => r = Ok c \/ exists err, err <> not_exist /\ r = Err err
                        | None => is_ok r = false
                        end
  end x.



Section parse.
Context `{YA : Yaml}.
Implicit Types (p : Parser) (w : CfgWorld).










(** ** Where a configuration goes, and which *)







Context (ServerFlags EtcdSnapshotFlags : list string).
Abbreviation DP := (DefaultParser ServerFlags EtcdSnapshotFlags).










(** Without appended entries [FindString] finds what the flag carries. *)
Lemma find_target_merged (es : list (yvalue * yvalue)) k lastVal :
  (forall e, e ∈ es -> entry_key e = k -> appends e = false) ->
  findTargetValue es k lastVal = match value_of es k with Some v => ToString v | None => lastVal end.
Proof.
  unfold value_of. induction es as [|e es IH] using rev_ind; intros H; [done|].
  unfold findTargetValue. rewrite fold_left_app. cbn [fold_left]. fold (findTargetValue es k lastVal).
  rewrite filter_app, filter_cons, filter_nil. fold (entry_key e). fold (appends e).
  destruct (decide (entry_key e = k)) as [E|E].
  - rewrite H; [|apply elem_of_app; right; by left|done]. rewrite merged_snoc.
    rewrite H; [|apply elem_of_app; right; by left|done]. by destruct (merged _).
  - rewrite app_nil_r. apply IH. intros e' He'. apply H, elem_of_app. by left.
Qed.
End parse.

(** ** A world to look at *)

Definition live_cfg : handler cfgE CfgWorld := fun X e w =>
  (match e in cfgE X return X with
   | Getenv n => default "" (cw_env w !! n)
   | CStat p => match cw_files w !! p with Some _ => Ok tt | None => Err not_exist end
   | CReadDir p => match cw_dirs w !! p with Some l => Ok l | None => Err not_exist end
   | CRead p => match cw_files w !! p with Some c => Ok c | None => Err not_exist end
   end, w).

Lemma live_cfg_ok : respects live_cfg (fun w => w) cfg_contract.
Proof. intros X e w. split; [done|]. destruct e; cbn; [done|by destruct (_ !! _); [left|]..]. Qed.

(** Lines [key: value], where a value in brackets is a sequence. *)
Definition yaml_value (s : string) : yvalue :=
  match strip_prefix "[" s with
  | Some r => YSlice ((fun x => YString (TrimSpace x)) <$> split_on comma (trim_suffix "]" r))
  | None => YString s
  end.
Definition yaml_line (s : string) : option (yvalue * yvalue) :=
  match cut_at colon s with
  | (k, Some v) => Some (YString k, yaml_value (TrimSpace v))
  | _ => None
  end.
Definition sample_yaml : Yaml := {|
  Unmarshal s := Ok (omap yaml_line (split_on (Ascii.ascii_of_nat 10) s));
  ToString v := match v with YString s => s | YScalar s => s | _ => "" end;
|}.
#[local] Existing Instance sample_yaml.

Definition lines (l : list string) : string := join_with (String (Ascii.ascii_of_nat 10) "") l.
Definition sample_config : CfgWorld := mkCfgWorld ∅
  {["/etc/k8e/config.yaml.d" := [("10-labels.yaml", false); ("README.md", false)]]}
  (<["/etc/k8e/config.yaml" := lines ["token: a"; "node-label: [x=1]"; "t: b"]]>
   {["/etc/k8e/config.yaml.d/10-labels.yaml" := lines ["node-label+: y=2"; "token: c"]]}).

Example later_files_win :
  fst (run live_cfg (Parse (DefaultParser [] []) ["k8e"; "server"; "--debug"]) sample_config) =
  Done (Ok ["k8e"; "server"; "--token=c"; "--node-label=x=1"; "--node-label=y=2"; "-t=b"; "--debug"]).
Proof. vm_compute. reflexivity. Qed.

(** Subcommands, and a command that takes no configuration. *)
Example subcommands :
  findStart (DefaultParser [] []) ["k8e"; "etcd-snapshot"; "save"; "--name=a"] = (["k8e"; "etcd-snapshot"; "save"], ["--name=a"], true) /\
  findStart (DefaultParser [] []) ["k8e"; "etcd-snapshot"; "--name=a"] = (["k8e"; "etcd-snapshot"], ["--name=a"], true) /\
  findStart (DefaultParser [] []) ["k8e"; "kubectl"; "get"] = (["k8e"; "kubectl"; "get"], [], false).
Proof. repeat split; vm_compute; reflexivity. Qed.

(** A link without a target in the directory beside the configuration has the
    whole configuration passed over. *)
Example dangling_link_drops_configuration :
  fst (run live_cfg (Parse (DefaultParser [] []) ["k8e"; "server"])
         (mkCfgWorld ∅ {["/etc/k8e/config.yaml.d" := [("gone.yaml", false)]]} {["/etc/k8e/config.yaml" := "token: a"]})) =
  Done (Ok ["k8e"; "server"]).
Proof. vm_compute. reflexivity. Qed.

(** Where [Parse] hands on the value, [FindString] finds one with a comma in
    front; and it reads the default configuration, not the one named on the
    command line. *)
Example find_string_differs :
  let w := mkCfgWorld ∅ ∅ (<["/etc/k8e/config.yaml" := "data-dir+: /d"]> {["/other" := "data-dir: /e"]}) in
  fst (run live_cfg (Parse (DefaultParser [] []) ["k8e"; "server"]) w) = Done (Ok ["k8e"; "server"; "--data-dir=/d"]) /\
  fst (run live_cfg (MustFindString ["k8e"; "server"; "--config"; "/other"] "data-dir" []) w) = Done ",/d".
Proof. split; vm_compute; reflexivity. Qed.

(** A configuration at a URL is looked for as a file first. *)
Example url_not_found :
  fst (run live_cfg (Parse (DefaultParser [] []) ["k8e"; "server"; "--config=https://h/c.yaml"])
         (mkCfgWorld ∅ ∅ {["/etc/k8e/config.yaml" := "token: a"]})) = Done (Err not_exist).
Proof. vm_compute. reflexivity. Qed.
