(* ===== verification/NodeConfig.v ===== *)
(** * What a node says about its configuration

    [pkg/nodeconfig]: the arguments and the environment of the process, with
    the secrets left out, as annotations of the node with a hash of them, and
    the label of nodes that take cluster traffic through their tunnel.  Two
    processes that differ in secrets only annotate their node alike. *)
From Stdlib Require Import ZArith Lia.
From S2P Require Import Prelude GoText NetAddr Prog Os Sha256 Signed ConfigArgs.

(** ** Definitions *)

Definition ClusterEgressLabel : string := "egress.k8e.io/cluster".
Definition OmittedValue : string := "********".

Definition EgressSelectorModeAgent : string := "agent".
Definition EgressSelectorModeCluster : string := "cluster".
Definition EgressSelectorModeDisabled : string := "disabled".
Definition EgressSelectorModePod : string := "pod".

Definition secretData : list string :=
  ["K8E_TOKEN"; "K8E_DATASTORE_ENDPOINT"; "K8E_AGENT_TOKEN"; "K8E_CLUSTER_SECRET"; "AWS_ACCESS_KEY_ID"; "AWS_SECRET_ACCESS_KEY";
   "--token"; "-t"; "--agent-token"; "--datastore-endpoint"; "--etcd-s3-access-key"; "--etcd-s3-secret-key"].
Definition isSecret (key : string) : bool := bool_decide (key ∈ secretData).


(** A long flag with a value as two arguments. *)
Definition parsed_arg (arg : string) : list string :=
  if has_prefix arg "--" then
    match cut_at equal_sign arg with (f, Some v) => [f; v] | _ => [arg] end
  else [arg].

(** Behind a secret flag stands asterisks, which are no flag themselves. *)
Fixpoint omit_values (hide : bool) (l : list string) : list string :=
  match l with
  | [] => []
  | arg :: l => let arg := if hide then OmittedValue else arg in arg :: omit_values (isSecret arg) l
  end.

Definition node_args (args : list string) : list string := omit_values false (args ≫= parsed_arg).

(** The entries of the environment that are the program's; an entry without
    an equal sign is indexed out of range. *)
Fixpoint k8e_env (environ : list string) (m : gmap string string) : option (gmap string string) :=
  match environ with
  | [] => Some m
  | v :: environ =>
      let '(key, value) := cut_at equal_sign v in
      if has_prefix key "K8E_" then
        match value with Some value => k8e_env environ (<[key := value]> m) | None => None end
      else k8e_env environ m
  end.

Definition omit_env (m : gmap string string) : gmap string string :=
  map_imap (fun key value => Some (if isSecret key then OmittedValue else value)) m.


(** A node: its labels and its annotations. *)
Record CNode := mkCNode { cn_labels : gmap string string; cn_annotations : gmap string string }.

Section nodeconfig.
Context `{YA : Yaml} `{AJ : ArgsJSON}.
Context (ServerFlags EtcdSnapshotFlags : list string).





Definition SetNodeConfigLabels (mode : string) (node : CNode) : bool * CNode :=
  let hasLabel := bool_decide (is_Some (cn_labels node !! ClusterEgressLabel)) in
  if decide (mode = EgressSelectorModeCluster \/ mode = EgressSelectorModePod) then
    if hasLabel then (false, node) else (true, mkCNode (<[ClusterEgressLabel := "true"]> (cn_labels node)) (cn_annotations node))
  else
    if hasLabel then (true, mkCNode (delete ClusterEgressLabel (cn_labels node)) (cn_annotations node)) else (false, node).

(** ** Arguments that differ in secrets *)
















(** ** Environments that differ in secrets *)





(** What a call answers in a world. *)
Definition answer {A} (p : cfgP A) (w : CfgWorld) : outcome A := fst (run live_cfg p w).




(** The label says whether cluster traffic goes through the tunnel, and is
    written at most once. *)
Lemma labels_exact mode node : let '(changed, node') := SetNodeConfigLabels mode node in
  (is_Some (cn_labels node' !! ClusterEgressLabel) <-> mode = EgressSelectorModeCluster \/ mode = EgressSelectorModePod) /\
  cn_annotations node' = cn_annotations node /\ (changed = false <-> node' = node) /\
  forall k, k <> ClusterEgressLabel -> cn_labels node' !! k = cn_labels node !! k.
Proof.
  unfold SetNodeConfigLabels. destruct node as [labels annotations]. cbn. case_decide as Hm; case_bool_decide as Hl; cbn.
  - by split_and!.
  - split_and!; [rewrite lookup_insert_eq; naive_solver|done| |by intros; rewrite lookup_insert_ne].
    split; [done|]. intros [= E]. apply (f_equal (lookup ClusterEgressLabel)) in E. rewrite lookup_insert_eq in E. rewrite <-E in Hl. naive_solver.
  - split_and!; [rewrite lookup_delete_eq; split; [by intros []|naive_solver]|done| |by intros; rewrite lookup_delete_ne].
    split; [done|]. intros [= E]. rewrite <-E, lookup_delete_eq in Hl. by destruct Hl.
  - split_and!; [naive_solver|done|done|done].
Qed.

End nodeconfig.

#[local] Existing Instance sample_yaml.



(** The short form with an equal sign, which a configuration file gives every
    key of one letter, is published as it is. *)
Example short_secret_published :
  answer (MustParse [] [] ["server"]) (mkCfgWorld ∅ ∅ {["/etc/k8e/config.yaml" := "t: abc"]}) = Done ["server"; "-t=abc"] /\
  node_args ["server"; "-t=abc"; "--token=abc"; "-t"; "abc"] = ["server"; "-t=abc"; "--token"; "********"; "-t"; "********"].
Proof. split; vm_compute; reflexivity. Qed.

(** The key of the embedded E2B server, as a flag or as a variable, and the
    secret that signs its tokens are published too. *)
Example e2b_secrets_published :
  option_map omit_env (k8e_env ["K8E_SANDBOX_APIKEY=0123"; "K8E_E2B_SIGNING_SECRET=s"; "K8E_TOKEN=t"] ∅) =
  Some (<["K8E_SANDBOX_APIKEY" := "0123"]> (<["K8E_E2B_SIGNING_SECRET" := "s"]> {["K8E_TOKEN" := "********"]})) /\
  node_args ["server"; "--e2b-apikey=0123"] = ["server"; "--e2b-apikey"; "0123"].
Proof. split; vm_compute; reflexivity. Qed.
