(* ===== verification/Tunnel.v ===== *)
(** * The tunnels between servers and agents

    [pkg/agent/tunnel/tunnel.go]: an agent keeps a tunnel to every supervisor
    and decides which dials that come through it are served.
    [pkg/daemons/control/tunnel.go]: the server keeps a table of the addresses
    of nodes and pods and sends the connections of the API server through the
    tunnel of the right node, or dials them itself. *)
From Stdlib Require Import ZArith Lia.
From S2P Require Import Prelude GoText NetAddr SessionEnv Prog NodeConfig.

#[local] Open Scope Z_scope.

Definition StreamServerPort : string := "10010".
Definition KubeletPort : Z := 10250.

(** ** Objects *)

(** A pod as far as the tunnels look at it: its containers' ports, with
    whether they are TCP. *)
Record TPod := mkTPod {
  tp_NodeName : string; tp_HostNetwork : bool; tp_Ports : list (bool * Z); tp_PodIPs : list string; tp_Deleting : bool;
}.

(** Whether an address of a node is one of its IPs, and the address. *)
Record TNode := mkTNode {
  tn_Labels : gmap string string; tn_Addresses : list (bool * string); tn_KubeletPort : Z; tn_Deleting : bool;
  tn_Ready : option Z;
}.

Section tunnel.
Context `{IT : IPText} `{RG : Ranger R}.

(** ** The agent *)

(** An entry of the agent's table says whether it is for pods on the network
    of the host. *)
Record agentTunnel := mkAgent {
  at_cidrs : R bool; at_ports : gset string; at_mode : string; at_kubeletPort : string; at_startTime : Z;
}.
Definition with_cidrs (r : R bool) (a : agentTunnel) : agentTunnel :=
  mkAgent r (at_ports a) (at_mode a) (at_kubeletPort a) (at_startTime a).
Definition with_ports (p : gset string) (a : agentTunnel) : agentTunnel :=
  mkAgent (at_cidrs a) p (at_mode a) (at_kubeletPort a) (at_startTime a).

Definition new_agent (mode : string) (startTime : Z) : agentTunnel := mkAgent r_empty ∅ mode (itoa KubeletPort) startTime.


Definition insert_nets (hostNet : bool) (nets : list (option IPNet)) (a : agentTunnel) : agentTunnel :=
  fold_left (fun a n => match n with Some cidr => with_cidrs (r_Insert cidr hostNet (at_cidrs a)) a | None => a end) nets a.

Definition clusterAuth (NodeIPs : list IP) (ClusterCIDRs : list IPNet) (a : agentTunnel) : agentTunnel :=
  insert_nets false (Some <$> ClusterCIDRs) (insert_nets false (IPToIPNet <$> NodeIPs) a).

(** [watchPods] before its loop, and one event of it. *)
Definition watchPods_start (NodeIPs : list IP) (a : agentTunnel) : agentTunnel := insert_nets true (IPToIPNet <$> NodeIPs) a.

Definition watch_port (deleting : bool) (ports : gset string) (port : bool * Z) : gset string :=
  if fst port then
    let containerPort := itoa (snd port) in
    if deleting then ports ∖ {[containerPort]} else {[containerPort]} ∪ ports
  else ports.

Definition watch_ip {E} (deleting : bool) (e : E) (cidrs : R E) (ip : string) : R E :=
  match IPStringToIPNet ip with
  | Some cidr => if deleting then r_Remove cidr cidrs else r_Insert cidr e cidrs
  | None => cidrs
  end.

Definition watchPods_event (a : agentTunnel) (pod : TPod) : agentTunnel :=
  if tp_HostNetwork pod then with_ports (fold_left (watch_port (tp_Deleting pod)) (tp_Ports pod) (at_ports a)) a
  else with_cidrs (fold_left (watch_ip (tp_Deleting pod) false) (tp_PodIPs pod) (at_cidrs a)) a.

(** What [Setup] starts for its mode, the pods not seen yet. *)
Definition setup_auth (endpoint : string) (NodeIPs : list IP) (ClusterCIDRs : list IPNet) (a : agentTunnel) : agentTunnel :=
  if decide (endpoint = "/dev/null") then a
  else if decide (at_mode a = EgressSelectorModeCluster) then clusterAuth NodeIPs ClusterCIDRs a
  else if decide (at_mode a = EgressSelectorModePod) then watchPods_start NodeIPs a
  else a.

Definition isKubeletPort (a : agentTunnel) (proto host port : string) : bool :=
  bool_decide (proto = "tcp" /\ (host = "127.0.0.1" \/ host = "::1") /\ (port = at_kubeletPort a \/ port = StreamServerPort)).

Definition authorized (a : agentTunnel) (proto address : string) : bool :=
  match SplitHostPort address with
  | None => false
  | Some (host, port) =>
      if isKubeletPort a proto host port then true
      else
        match ParseIP host with
        | None => false
        | Some ip =>
            match head (r_ContainingNetworks ip (at_cidrs a)) with
            | Some hostNet => if hostNet : bool then bool_decide (proto = "tcp" /\ port ∈ at_ports a) else true
            | None => false
            end
        end
  end.

(** ** The tunnels of an agent *)

(** Addresses of the supervisors, and the tunnels started and stopped. *)
Inductive tunE : Type -> Type :=
  | SupervisorAddresses : tunE (list string)
  | ProxyUpdate (addresses : list string) : tunE unit
  | Connect (address : string) : tunE unit
  | Disconnect (address : string) : tunE unit.

Abbreviation tunP := (prog tunE).

Fixpoint connect_each (addresses : list string) (disconnect : gset string) : tunP (gset string) :=
  match addresses with
  | [] => Ret disconnect
  | address :: addresses =>
      if decide (address ∈ disconnect) then connect_each addresses disconnect
      else do! call (Connect address); connect_each addresses ({[address]} ∪ disconnect)
  end.

(** [order] is the order in which the map is iterated. *)
Fixpoint disconnect_each (order : list string) (valid : gset string) (disconnect : gset string) : tunP (gset string) :=
  match order with
  | [] => Ret disconnect
  | address :: order =>
      if decide (address ∈ valid) then disconnect_each order valid disconnect
      else do! call (Disconnect address); disconnect_each order valid (disconnect ∖ {[address]})
  end.

(** [watchEndpoints] before its loop, and what it does once an event has not
    been followed by another. *)
Definition watchEndpoints_start : tunP (gset string) :=
  do addresses <- call SupervisorAddresses; connect_each addresses ∅.

Definition watchEndpoints_event (order : gset string -> list string) (newAddresses : list string) (disconnect : gset string)
    : tunP (gset string) :=
  do current <- call SupervisorAddresses;
  if decide (newAddresses = current) then Ret disconnect
  else
    do! call (ProxyUpdate newAddresses);
    do addresses <- call SupervisorAddresses;
    do disconnect <- connect_each addresses disconnect;
    disconnect_each (order disconnect) (list_to_set addresses) disconnect.

(** ** The server *)

Record tunnelEntry := mkEntry { te_kubeletPort : string; te_nodeName : string }.

Definition IsReservedPort (n : tunnelEntry) (port : string) : bool :=
  bool_decide (te_kubeletPort n <> "" /\ (port = te_kubeletPort n \/ port = StreamServerPort)).

(** The name under which an agent's tunnel is known. *)
Definition authorizer (user : option string) : option string :=
  match user with Some name => strip_prefix "system:node:" name | None => None end.

Record TunnelServer := mkTunnelServer {
  ts_cidrs : R tunnelEntry; ts_egress : gmap string bool;
  ts_ServerNodeName : string; ts_BindAddress : string; ts_IPv6 : bool;
}.
Definition ts_with (r : R tunnelEntry) (g : gmap string bool) (t : TunnelServer) : TunnelServer :=
  mkTunnelServer r g (ts_ServerNodeName t) (ts_BindAddress t) (ts_IPv6 t).

(** [Loopback] of the configuration. *)
Definition Loopback (t : TunnelServer) : string := if ts_IPv6 t then "::1" else "127.0.0.1".

Definition onChangeNode (nodeName : string) (node : option TNode) (t : TunnelServer) : TunnelServer :=
  match node with
  | None => t
  | Some n =>
      ts_with
        (fold_left (watch_ip (tn_Deleting n) (mkEntry (itoa (tn_KubeletPort n)) nodeName))
           (snd <$> filter (fun a => fst a = true) (tn_Addresses n)) (ts_cidrs t))
        (<[nodeName := bool_decide (is_Some (tn_Labels n !! ClusterEgressLabel))]> (ts_egress t)) t
  end.

Definition onChangePod (pod : option TPod) (t : TunnelServer) : TunnelServer :=
  match pod with
  | None => t
  | Some p =>
      if tp_HostNetwork p then t
      else ts_with (fold_left (watch_ip (tp_Deleting p) (mkEntry "" (tp_NodeName p))) (tp_PodIPs p) (ts_cidrs t)) (ts_egress t) t
  end.

(** The handlers [watch] registers: for nodes, and for pods. *)
Definition watch_handlers (mode : string) : bool * bool :=
  if decide (mode = EgressSelectorModeDisabled) then (false, false)
  else (true, bool_decide (mode = EgressSelectorModeCluster \/ mode = EgressSelectorModePod)).

(** A dial through a tunnel, and one from the server itself; a connection is
    known by who made it and to what address. *)
Inductive conn : Type := Through (node address : string) | Direct (address : string).
#[export] Instance conn_eq_dec : EqDecision conn.
Proof. solve_decision. Defined.

Definition no_session : error := Plain "failed to find Session for client".

Inductive dialE : Type -> Type :=
  | TunnelDial (node address : string) : dialE (res unit)
  | DirectDial (address : string) : dialE (res unit).

Abbreviation dialP := (prog dialE).

(** Where a dial is for: a node's name if there is one, whether it is for a
    kubelet, and whether the tunnel is used. *)
Definition dial_target (t : TunnelServer) (host port : string) : string * bool * bool :=
  match ParseIP host with
  | Some ip =>
      match head (r_ContainingNetworks ip (ts_cidrs t)) with
      | Some n => if IsReservedPort n port then (te_nodeName n, true, true)
                  else (te_nodeName n, false, default false (ts_egress t !! te_nodeName n))
      | None => ("", false, false)
      end
  | None => (host, true, true)
  end.

Definition dialBackend (t : TunnelServer) (addr : string) : dialP (res conn) :=
  match SplitHostPort addr with
  | None => Ret (Err (Plain "address"))
  | Some (host, port) =>
      let '(nodeName, toKubelet, useTunnel) := dial_target t host port in
      let isLocal := bool_decide (nodeName = ts_ServerNodeName t) in
      let useTunnel := negb isLocal && useTunnel in
      let addr := if toKubelet : bool
                  then JoinHostPort (if isLocal then ts_BindAddress t else Loopback t) port
                  else addr in
      let direct := do r <- call (DirectDial addr);
                    Ret match r with Ok _ => Ok (Direct addr) | Err err => Err err end in
      if useTunnel then
        do r <- call (TunnelDial nodeName addr);
        match r with
        | Ok _ => Ret (Ok (Through nodeName addr))
        | Err err => if toKubelet && bool_decide (err = no_session) then Ret (Err err) else direct
        end
      else direct
  end.

(** [serveConnect], if the connection can be taken over from the HTTP
    server: the status, and what is proxied. *)
Definition serveConnect (t : TunnelServer) (hijackable : bool) (addr : string) : dialP (Z * option conn) :=
  do r <- dialBackend t addr;
  Ret match r with
      | Err _ => (502, None)
      | Ok c => if hijackable then (200, Some c) else (500, None)
      end.

End tunnel.

(** * What goes through a tunnel

    The agent's authorizer against a specification by sets of addresses and
    ports; where a dial of the server ends, with the agent of the node at the
    other end of the tunnel. *)

#[local] Open Scope Z_scope.

Section agent.
Context `{IT : IPText} `{RG : Ranger R}.
Implicit Types (a : agentTunnel (R := R)) (pod : TPod).

(** ** The specification *)




(** ** The table *)






Context (NodeIPs : list IP).




(** The state after [Setup] in pod mode and some events. *)
Definition agent_after (startTime : Z) (events : list TPod) : agentTunnel (R := R) :=
  fold_left watchPods_event events (setup_auth "/run/k8e/containerd/containerd.sock" NodeIPs [] (new_agent EgressSelectorModePod startTime)).












End agent.

(** ** The server with its agents *)

(** What the server's handlers see, in order. *)
Inductive srv_event : Type := EvNode (name : string) (n : TNode) | EvPod (p : TPod).

(** Dials that were tried, by who made them.  An agent that is connected
    refuses what it does not authorize; what it authorizes works unless
    [faults]. *)
Definition dial_contract {R} `{IT : IPText} `{RG : Ranger R} (faults : bool) (agents : gmap string (agentTunnel (R := R)))
    : contract dialE (list conn) := fun X e v x v' =>
  match e in dialE X return X -> Prop with
  | TunnelDial n addr => fun r => v' = v ++ [Through n addr] /\
      match agents !! n with
      | None => r = Err no_session
      | Some a => (authorized a "tcp" addr = true /\ r = Ok tt) \/
          ((authorized a "tcp" addr = false \/ faults = true) /\ exists err, err <> no_session /\ r = Err err)
      end
  | DirectDial addr => fun r => v' = v ++ [Direct addr]
  end x.

Section server.
Context `{IT : IPText} `{RG : Ranger R}.
Implicit Types (t : TunnelServer (R := R)) (agents : gmap string (agentTunnel (R := R))).

Definition apply_event t (ev : srv_event) : TunnelServer :=
  match ev with EvNode name n => onChangeNode name (Some n) t | EvPod p => onChangePod (Some p) t end.










(** A dial to a node by name ends in its agent, in no connection when the
    node has no tunnel, or on the server's own loopback address. *)
Lemma node_dial_ends faults agents t (host port : string) v :
  ParseIP host = None -> host <> ts_ServerNodeName t -> no_bracket host = true -> no_bracket port = true -> no_char colon port = true ->
  let addr := JoinHostPort (Loopback t) port in
  wp (dial_contract faults agents) (dialBackend t (JoinHostPort host port)) (fun o v' => exists r, o = Done r /\
    match agents !! host with
    | None => r = Err no_session /\ v' = v ++ [Through host addr]
    | Some a =>
        (r = Ok (Through host addr) /\ v' = v ++ [Through host addr] /\ authorized a "tcp" addr = true) \/
        ((authorized a "tcp" addr = false \/ faults = true) /\ v' = v ++ [Through host addr; Direct addr] /\
         (r = Ok (Direct addr) \/ is_ok r = false))
    end) v.
Proof.
  intros Hp Hl Hb Hpb Hpc addr. unfold dialBackend. rewrite split_join_host by done. unfold dial_target. rewrite Hp.
  rewrite bool_decide_eq_false_2 by done. cbn [negb andb]. fold addr. eapply wp_call. intros r v1 [-> Hr].
  destruct (agents !! host) as [a|].
  - destruct Hr as [[Ha ->]|[Ha (err & Hne & ->)]]; [apply wp_ret; eexists; split; [done|]; by left|].
    rewrite bool_decide_eq_false_2 by done. eapply wp_call. intros r v2 ->. apply wp_ret. eexists. split; [done|]. right.
    split; [done|]. rewrite <-app_assoc. split; [done|]. destruct r as [[]|err']; [by left|by right].
  - subst r. rewrite bool_decide_eq_true_2 by done. apply wp_ret. by eexists.
Qed.
End server.

(** ** A cluster to look at *)

(** Addresses by their binary digits. *)
Definition text_of (a : Z) : string := bits (encode a).
Definition read_text (s : string) : option Z := decode (unbits s) ≫= fun a => if decide (text_of a = s) then Some a else None.
Definition slash_char : Ascii.ascii := Ascii.ascii_of_nat 47.

Lemma read_text_of a : read_text (text_of a) = Some a.
Proof. unfold read_text, text_of. rewrite unbits_bits, decode_encode. cbn. by rewrite decide_True. Qed.

Definition bits_ip (i : IP) : string := match i with IP4 a => "4" +:+ text_of a | IP6 a => "6" +:+ text_of a end.
Definition parse_bits (s : string) : option IP :=
  match strip_prefix "4" s with
  | Some r => IP4 <$> read_text r
  | None => match strip_prefix "6" s with Some r => IP6 <$> read_text r | None => None end
  end.
Definition parse_bits_net (s : string) : option IPNet :=
  match cut_at slash_char s with (a, Some _) => host_net <$> parse_bits a | _ => None end.

Lemma parse_bits_ip i : parse_bits (bits_ip i) = Some i.
Proof.
  destruct i as [a|a]; unfold parse_bits, bits_ip.
  - rewrite strip_prefix_app. by rewrite read_text_of.
  - change (strip_prefix "4" ("6" +:+ text_of a)) with (@None string). rewrite strip_prefix_app. by rewrite read_text_of.
Qed.

Definition bits_text : IPText.
Proof.
  refine (mkIPText parse_bits parse_bits_net bits_ip _ _ _ _).
  - apply parse_bits_ip.
  - intros i. unfold parse_bits_net. assert (parse_bits (bits_ip i) = Some i) as E.
    { apply parse_bits_ip. }
    assert (no_char slash_char (bits_ip i) = true) as Hs.
    { rewrite no_char_all. destruct i; cbn; by apply bits_chars. }
    destruct (contains (bits_ip i) ":"); [change "/128" with (String slash_char "128")|change "/32" with (String slash_char "32")];
      rewrite cut_at_app by done; by rewrite E.
  - intros [a|a]; unfold no_bracket; rewrite !no_char_all; cbn; apply andb_true_iff; split; by apply bits_chars.
  - intros s n. unfold parse_bits_net. destruct (cut_at _ _) as [a [b|]]; [|done]. destruct (parse_bits a) as [i|]; [|done].
    intros [= <-]. by exists i.
Defined.

#[local] Existing Instance bits_text.
#[local] Existing Instance map_ranger.

Definition ip_a : IP := IP4 10.
Definition host_ip : IP := IP4 1.
Definition pod_at (node : string) (i : IP) (deleting : bool) : TPod := mkTPod node false [] [bits_ip i] deleting.
Definition egress_node (n : string) : srv_event :=
  EvNode n (mkTNode {[ClusterEgressLabel := "true"]} [(true, bits_ip host_ip)] 10250 false (Some 5)).
Definition first_table : TunnelServer (R := gmap IPNet) := mkTunnelServer r_empty ∅ "server" "10.0.0.9" false.



(** Agents that serve what they authorize; the server can dial everything. *)
Definition live_dial (agents : gmap string (agentTunnel (R := gmap IPNet))) : handler dialE (list conn) := fun X e v =>
  match e in dialE X return X * list conn with
  | TunnelDial n addr =>
      (match agents !! n with
       | None => Err no_session
       | Some a => if authorized a "tcp" addr then Ok tt else Err (Plain "refused")
       end, v ++ [Through n addr])
  | DirectDial addr => (Ok tt, v ++ [Direct addr])
  end.

Lemma live_dial_ok agents : respects (live_dial agents) (fun v => v) (dial_contract false agents).
Proof.
  intros X e v. destruct e as [n addr|addr]; cbn; [split; [done|]|done]. destruct (agents !! n) as [a|]; [|done].
  destruct (authorized a "tcp" addr); [by left|]. right. split; [by left|]. by exists (Plain "refused").
Qed.

Definition dial_with (agents : gmap string (agentTunnel (R := gmap IPNet))) (t : TunnelServer (R := gmap IPNet)) (addr : string) :=
  fst (run (live_dial agents) (dialBackend t addr) []).

Definition agent_n1 : agentTunnel (R := gmap IPNet) := agent_after [host_ip] 0 [].

(** The kubelet of a node is reached by the node's name; any other port of the
    node, which its agent refuses, is dialed on the server itself. *)
Example refused_dial_reaches_server :
  dial_with {["n1" := agent_n1]} first_table "n1:10250" = Done (Ok (Through "n1" "127.0.0.1:10250")) /\
  dial_with {["n1" := agent_n1]} first_table "n1:2379" = Done (Ok (Direct "127.0.0.1:2379")) /\
  dial_with ∅ first_table "n1:2379" = Done (Err no_session).
Proof. repeat split; vm_compute; reflexivity. Qed.

(** The address of a pod that ended passes to a new pod; when the old one is
    deleted after that, the new one is forgotten by the agent and the
    server. *)
Example late_deletion_forgets_pod :
  let events := [pod_at "n1" ip_a false; pod_at "n1" ip_a false; pod_at "n1" ip_a true] in
  authorized (agent_after (R := gmap IPNet) [host_ip] 0 events) "tcp" (JoinHostPort (bits_ip ip_a) "80") = false /\
  let t := fold_left apply_event (egress_node "n1" :: (EvPod <$> events)) first_table in
  dial_with {["n1" := agent_n1]} t (JoinHostPort (bits_ip ip_a) "80") = Done (Ok (Direct (JoinHostPort (bits_ip ip_a) "80"))).
Proof. split; vm_compute; reflexivity. Qed.

(** A pod that is gone without a last update keeps its entry. *)
Example removed_without_update_stays (t : TunnelServer (R := gmap IPNet)) : onChangePod None t = t.
Proof. reflexivity. Qed.
