(* ===== verification/ApiProxy.v ===== *)
(** * The addresses an agent talks to

    [pkg/agent/proxy/apiproxy.go]: the supervisor and API server URLs of an
    agent, directly or through two local load balancers, and the list of
    supervisors.  The tunnels of the agent follow that list. *)
From Stdlib Require Import ZArith Lia.
From S2P Require Import Prelude GoText NetAddr SessionEnv LoadBalancer Prog NodeConfig Tunnel.

#[local] Open Scope Z_scope.

Record proxy := mkProxy {
  px_lbEnabled : bool; px_apiServerEnabled : bool; px_lbServerPort : Z;
  px_apiServerURL : string; px_apiServerPort : string;
  px_supervisorURL : string; px_supervisorPort : string;
  px_initialSupervisorURL : string; px_fallbackSupervisorAddress : string;
  px_supervisorAddresses : list string;
  px_apiServerLB : option LoadBalancer; px_supervisorLB : option LoadBalancer;
}.

(** What starting a load balancer at a port finds: its local address, and the
    content of its state file. *)
Definition listener : Type := Z -> res (string * option (string * list string)).

Section apiproxy.
Context `{UP : UrlParser} `{SH : Shuffle}.

(** [Hostname] of a URL, from its host with the port. *)
Definition url_hostname (u : URL) : string :=
  match SplitHostPort (url_Host u) with
  | Some (h, _) => h
  | None => match strip_prefix "[" (url_Host u) with Some r => trim_suffix "]" r | None => url_Host u end
  end.

Definition start_lb (listen : listener) (url : string) (port : Z) : res (LoadBalancer * string) :=
  match listen port with
  | Err err => Err err
  | Ok (localAddress, file) => match New url localAddress file with
                               | Ok (lb, localURL, _) => Ok (lb, localURL)
                               | Err err => Err err
                               end
  end.

(** [http_proxy] is [SetHTTPProxy]. *)
Definition NewSupervisorProxy (http_proxy : string -> res unit) (listen : listener) (lbEnabled : bool) (supervisorURL : string)
    (lbServerPort : Z) : res proxy :=
  let p := mkProxy lbEnabled false lbServerPort supervisorURL "" supervisorURL "" supervisorURL "" [] None None in
  let started :=
    if lbEnabled then
      match http_proxy supervisorURL with
      | Err err => Err err
      | Ok _ => match start_lb listen supervisorURL lbServerPort with
                | Err err => Err err
                | Ok (lb, url) => Ok (mkProxy true false lbServerPort url "" url "" supervisorURL "" [] None (Some lb))
                end
      end
    else Ok p in
  match started with
  | Err err => Err err
  | Ok p =>
      match url_parse supervisorURL with
      | None => Err (Plain "parse")
      | Some u => Ok (mkProxy (px_lbEnabled p) false lbServerPort (px_apiServerURL p) "" (px_supervisorURL p) (url_Port u)
                        supervisorURL (url_Host u) [] None (px_supervisorLB p))
      end
  end.

(** Addresses that do not parse are dropped. *)
Definition setSupervisorPort (p : proxy) (addresses : list string) : list string :=
  omap (fun address => match SplitHostPort address with Some (h, _) => Some (JoinHostPort h (px_supervisorPort p)) | None => None end) addresses.

Definition proxy_Update (addresses : list string) (p : proxy) : proxy :=
  let supervisorAddresses := if px_apiServerEnabled p then setSupervisorPort p addresses else addresses in
  mkProxy (px_lbEnabled p) (px_apiServerEnabled p) (px_lbServerPort p) (px_apiServerURL p) (px_apiServerPort p) (px_supervisorURL p)
    (px_supervisorPort p) (px_initialSupervisorURL p) (px_fallbackSupervisorAddress p) supervisorAddresses
    ((fun lb => fst (Update addresses lb)) <$> px_apiServerLB p) ((fun lb => fst (Update supervisorAddresses lb)) <$> px_supervisorLB p).

Definition proxy_SetHealthCheck (address : string) (check : healthCheck) (p : proxy) : proxy :=
  mkProxy (px_lbEnabled p) (px_apiServerEnabled p) (px_lbServerPort p) (px_apiServerURL p) (px_apiServerPort p) (px_supervisorURL p)
    (px_supervisorPort p) (px_initialSupervisorURL p) (px_fallbackSupervisorAddress p) (px_supervisorAddresses p)
    (SetHealthCheck (JoinHostPort (match SplitHostPort address with Some (h, _) => h | None => "" end) (px_apiServerPort p)) check
       <$> px_apiServerLB p)
    (SetHealthCheck address check <$> px_supervisorLB p).

Definition SetAPIServerPort (listen : listener) (port : Z) (p : proxy) : res proxy :=
  if px_apiServerEnabled p then Ok p
  else
    match url_parse (px_initialSupervisorURL p) with
    | None => Err (Plain "parse")
    | Some u =>
        let url := url_with_host (px_initialSupervisorURL p) (JoinHostPort (url_hostname u) (itoa port)) in
        let enabled apiServerURL apiServerLB :=
          mkProxy (px_lbEnabled p) true (px_lbServerPort p) apiServerURL (itoa port) (px_supervisorURL p)
            (px_supervisorPort p) (px_initialSupervisorURL p) (px_fallbackSupervisorAddress p) (px_supervisorAddresses p)
            apiServerLB (px_supervisorLB p) in
        match px_lbEnabled p, px_apiServerLB p with
        | true, None =>
            match start_lb listen url (if decide (px_lbServerPort p = 0) then 0 else px_lbServerPort p - 1) with
            | Err err => Err err
            | Ok (lb, localURL) => Ok (enabled localURL (Some lb))
            end
        | _, lb => Ok (enabled url lb)
        end
    end.

Definition SetSupervisorDefault (address : string) (p : proxy) : proxy :=
  match SplitHostPort address with
  | None => p
  | Some (host, _) =>
      let address := if px_apiServerEnabled p then JoinHostPort host (px_supervisorPort p) else address in
      mkProxy (px_lbEnabled p) (px_apiServerEnabled p) (px_lbServerPort p) (px_apiServerURL p) (px_apiServerPort p)
        (match px_supervisorLB p with None => "https://" +:+ address | Some _ => px_supervisorURL p end)
        (px_supervisorPort p) (px_initialSupervisorURL p) address (px_supervisorAddresses p) (px_apiServerLB p)
        (SetDefault address <$> px_supervisorLB p)
  end.

Definition supervisors (p : proxy) : list string :=
  match px_supervisorAddresses p with [] => [px_fallbackSupervisorAddress p] | l => l end.

(** ** The tunnels follow the list *)

(** The proxy, and the tunnels that are open. *)
Record AgentNet := mkAgentNet { an_proxy : proxy; an_open : gset string }.

Definition live_tunnels : handler tunE AgentNet := fun X e s =>
  match e in tunE X return X * AgentNet with
  | SupervisorAddresses => (supervisors (an_proxy s), s)
  | ProxyUpdate addresses => (tt, mkAgentNet (proxy_Update addresses (an_proxy s)) (an_open s))
  | Connect address => (tt, mkAgentNet (an_proxy s) ({[address]} ∪ an_open s))
  | Disconnect address => (tt, mkAgentNet (an_proxy s) (an_open s ∖ {[address]}))
  end.

Lemma connect_each_run addresses (d : gset string) s : an_open s = d ->
  run live_tunnels (connect_each addresses d) s =
    (Done (list_to_set addresses ∪ d), mkAgentNet (an_proxy s) (list_to_set addresses ∪ d)).
Proof.
  revert d s. induction addresses as [|a l IH]; intros d s Hs; cbn [connect_each list_to_set].
  { rewrite union_empty_l_L. destruct s. cbn in *. by subst. }
  destruct (decide (a ∈ d)) as [Ha|Ha].
  - rewrite IH by done. replace ({[a]} ∪ list_to_set l ∪ d) with (list_to_set l ∪ d) by set_solver. done.
  - rewrite run_bind. cbn [run call live_tunnels fst snd]. rewrite IH by (cbn; by rewrite Hs). cbn.
    by replace (list_to_set l ∪ ({[a]} ∪ d)) with ({[a]} ∪ list_to_set l ∪ d) by set_solver.
Qed.

Lemma disconnect_each_run order (valid d : gset string) s : an_open s = d ->
  run live_tunnels (disconnect_each order valid d) s =
    (Done (d ∖ (list_to_set order ∖ valid)), mkAgentNet (an_proxy s) (d ∖ (list_to_set order ∖ valid))).
Proof.
  revert d s. induction order as [|a l IH]; intros d s Hs; cbn [disconnect_each list_to_set].
  { replace (d ∖ (∅ ∖ valid)) with d by set_solver. destruct s. cbn in *. by subst. }
  destruct (decide (a ∈ valid)) as [Ha|Ha].
  - rewrite IH by done. by replace (({[a]} ∪ list_to_set l) ∖ valid) with (list_to_set l ∖ valid : gset string) by set_solver.
  - rewrite run_bind. cbn [run call live_tunnels fst snd]. rewrite IH by (cbn; by rewrite Hs). cbn.
    by replace (d ∖ {[a]} ∖ (list_to_set l ∖ valid)) with (d ∖ (({[a]} ∪ list_to_set l) ∖ valid)) by set_solver.
Qed.

(** After an event with other addresses than the agent has, its tunnels
    are those to the supervisors on its new list, each one once, and with none
    on the list the one to the fallback address; its load balancers have the
    same lists. *)
Theorem tunnels_follow_list (order : gset string -> list string) addresses s :
  (forall d, order d ≡ₚ elements d) -> addresses <> supervisors (an_proxy s) ->
  run live_tunnels (watchEndpoints_event order addresses (an_open s)) s =
    let p := proxy_Update addresses (an_proxy s) in
    (Done (list_to_set (supervisors p)), mkAgentNet p (list_to_set (supervisors p))).
Proof.
  intros Ho Hne. unfold watchEndpoints_event. rewrite run_bind. cbn [run call live_tunnels]. rewrite decide_False by done.
  rewrite run_bind. cbn [run call live_tunnels]. rewrite run_bind. cbn [run call live_tunnels].
  rewrite run_bind, connect_each_run by done. cbn [an_proxy]. rewrite disconnect_each_run by done. cbn [an_proxy]. cbv zeta.
  set (l := list_to_set _ : gset string). set (d := l ∪ an_open s).
  assert (list_to_set (order d) = d) as -> by (apply set_eq; intros a; by rewrite elem_of_list_to_set, (Ho d), elem_of_elements).
  assert (d ∖ (d ∖ l) = l) as ->; [|done]. apply set_eq. intros a. unfold d. rewrite !elem_of_difference, elem_of_union.
  destruct (decide (a ∈ l)); tauto.
Qed.

End apiproxy.

(** ** A proxy to look at *)

Definition plain_proxy (enabled : bool) : proxy :=
  mkProxy false enabled 6444 "https://s:6443" "6443" "https://s:9345" "9345" "https://s:9345" "s:9345" [] None None.
#[local] Instance no_shuffle : Shuffle := {| shuffle l := l; shuffle_perm l := Permutation_refl l |}.

Lemma tunnels_follow_list_witness :
  run live_tunnels (watchEndpoints_event elements ["10.0.0.1:6443"; "10.0.0.2:6443"] {["s:9345"]}) (mkAgentNet (plain_proxy true) {["s:9345"]}) =
    let p := proxy_Update ["10.0.0.1:6443"; "10.0.0.2:6443"] (plain_proxy true) in
    (Done (list_to_set (supervisors p)), mkAgentNet p (list_to_set (supervisors p))).
Proof. refine (tunnels_follow_list elements _ (mkAgentNet (plain_proxy true) {["s:9345"]}) _ _); [done|discriminate]. Defined.

Example supervisor_port_replaced :
  supervisors (proxy_Update ["10.0.0.1:6443"; "[fd00::2]:6443"; "bad"] (plain_proxy true)) = ["10.0.0.1:9345"; "[fd00::2]:9345"] /\
  supervisors (proxy_Update [] (plain_proxy true)) = ["s:9345"].
Proof. split; reflexivity. Qed.
