(* ===== verification/NodeHosts.v ===== *)
(** * The hosts file of the cluster's DNS

    [pkg/node/controller.go]: when a node changes or goes, its password is
    dropped with it, and the line of its addresses in the configuration of the
    DNS server is kept in step. *)
From Stdlib Require Import ZArith Lia.
From S2P Require Import Prelude GoText NetAddr Prog Os Tunnel.

(** ** Definitions *)

Inductive AddressType := InternalIP | HostName | OtherAddress.

Record HNode := mkHNode { hn_Name : string; hn_Addresses : list (AddressType * string) }.

(** The password of a node, and the data of the configuration map. *)
Inductive hostsE : Type -> Type :=
  | DeletePassword (node : string) : hostsE (res unit)
  | GetConfigMap : hostsE (res (gmap string string))
  | UpdateConfigMap (data : gmap string string) : hostsE (res unit).

Abbreviation hostsP := (prog hostsE).

Definition newline_char : Ascii.ascii := Ascii.ascii_of_nat 10.
Definition hash_char : Ascii.ascii := Ascii.ascii_of_nat 35.
Definition space_char : Ascii.ascii := Ascii.ascii_of_nat 32.
Definition NodeHosts : string := "NodeHosts".

Section hosts.
Context `{IT : IPText} `{SS : SortSlice} `{MO : MapOrder}.

(** [bytes.Compare] of the 16 bytes of two addresses; what is none comes
    first. *)
Definition ip_value (s : string) : Z :=
  match ParseIP s with None => -1 | Some (IP4 a) => (2 ^ 48 - 2 ^ 32 + a)%Z | Some (IP6 a) => a end.
Definition ip_less (a b : string) : bool := (ip_value a <? ip_value b)%Z.

(** One line: the address and the names; an address of [nodeName] that it no
    longer has is passed over. *)
Definition hosts_line (nodeName nodeIPv4 nodeIPv6 : string) (line : string) (m : gmap string string) : gmap string string :=
  let line := fst (cut_at hash_char line) in
  match Fields line with
  | ip :: name :: names =>
      if decide (name = nodeName /\ ip <> (if contains ip ":" then nodeIPv6 else nodeIPv4)) then m
      else <[ip := join_with " " (name :: names)]> m
  | _ => m
  end.

Definition read_hosts (nodeName nodeIPv4 nodeIPv6 text : string) : gmap string string :=
  fold_left (fun m line => hosts_line nodeName nodeIPv4 nodeIPv6 line m) (split_on newline_char text) ∅.

Definition print_hosts (m : gmap string string) : string :=
  fold_left (fun text ip => text +:+ ip +:+ " " +:+ default "" (m !! ip) +:+ String newline_char "")
    (sort_slice ip_less (iter m).*1) "".

Definition set_names (ip names : string) (m : gmap string string) : gmap string string :=
  if decide (ip = "") then m else <[ip := names]> m.

Definition updateCoreDNSConfigMap (nodeName hostName nodeIPv4 nodeIPv6 : string) (removed : bool) : hostsP (res unit) :=
  let nodeIPv4 := if removed then "" else nodeIPv4 in
  let nodeIPv6 := if removed then "" else nodeIPv6 in
  if negb removed && bool_decide (nodeIPv4 = "" /\ nodeIPv6 = "") then Ret (Ok tt)
  else
    let nodeNames := nodeName +:+ (if decide (hostName <> nodeName) then " " +:+ hostName else "") in
    do configMap <- call GetConfigMap;
    match configMap with
    | Err _ => Ret (Ok tt)
    | Ok data =>
        let addressMap := read_hosts nodeName nodeIPv4 nodeIPv6 (default "" (data !! NodeHosts)) in
        let namesv4 := if decide (nodeIPv4 = "") then "" else nodeNames in
        let namesv6 := if decide (nodeIPv6 = "") then "" else nodeNames in
        if negb removed && bool_decide (default "" (addressMap !! nodeIPv4) = namesv4 /\ default "" (addressMap !! nodeIPv6) = namesv6)
        then Ret (Ok tt)
        else
          let newHosts := print_hosts (set_names nodeIPv6 namesv6 (set_names nodeIPv4 namesv4 addressMap)) in
          call (UpdateConfigMap (<[NodeHosts := newHosts]> data))
    end.

(** The last address of each kind. *)
Definition node_address (st : string * string * string) (a : AddressType * string) : string * string * string :=
  let '(hostName, v4, v6) := st in
  match fst a with
  | InternalIP => if contains (snd a) ":" then (hostName, v4, snd a) else (hostName, snd a, v6)
  | HostName => (snd a, v4, v6)
  | OtherAddress => st
  end.

Definition updateHosts (modCoreDNS : bool) (node : HNode) (removed : bool) : hostsP (res unit) :=
  let '(hostName, v4, v6) := fold_left node_address (hn_Addresses node) ("", "", "") in
  do! (if removed then do _r <- call (DeletePassword (hn_Name node)); Ret tt else Ret tt);
  if modCoreDNS then updateCoreDNSConfigMap (hn_Name node) hostName v4 v6 removed else Ret (Ok tt).

Definition hosts_onChange (modCoreDNS : bool) (node : option HNode) : hostsP (res unit) :=
  match node with None => Ret (Ok tt) | Some node => updateHosts modCoreDNS node false end.
Definition hosts_onRemove (modCoreDNS : bool) (node : HNode) : hostsP (res unit) := updateHosts modCoreDNS node true.

End hosts.

(** ** Words and lines *)

Definition word_char (c : Ascii.ascii) : bool := negb (is_space c) && negb (Ascii.eqb c hash_char).
Definition word (w : string) : Prop := w <> "" /\ all_chars word_char w = true.

Lemma fields_from_word acc w s : all_chars word_char w = true -> fields_from acc (w +:+ s) = fields_from (String.rev w +:+ acc) s.
Proof.
  revert acc. induction w as [|c w IH]; intros acc; [done|]. rewrite append_cons. cbn [all_chars fields_from].
  intros [Hc Hw]%andb_true_iff. unfold word_char in Hc. apply andb_true_iff in Hc as [Hc%negb_true_iff _]. rewrite Hc, IH by done.
  by rewrite rev_cons, append_assoc, append_cons.
Qed.

Lemma rev_nonempty w : w <> "" -> String.rev w <> "".
Proof. intros H E. apply H. rewrite <-(rev_rev w), E. done. Qed.

Lemma fields_words ws : Forall word ws -> Fields (join_with " " ws) = ws.
Proof.
  unfold Fields. induction 1 as [|w ws [Hne Hw] Hws IH]; [done|]. destruct ws as [|w' ws].
  - cbn [join_with]. rewrite <-(append_empty_r w) at 1. rewrite fields_from_word, append_empty_r by done. cbn [fields_from].
    rewrite decide_False by by apply rev_nonempty. by rewrite rev_rev.
  - change (join_with " " (w :: w' :: ws)) with (w +:+ String space_char (join_with " " (w' :: ws))).
    rewrite fields_from_word, append_empty_r by done. cbn [fields_from]. change (is_space space_char) with true. cbv iota.
    rewrite decide_False by by apply rev_nonempty. rewrite rev_rev. cbn [app]. by rewrite IH.
Qed.

Lemma words_no_char c ws : word_char c = false -> c <> space_char -> Forall word ws -> no_char c (join_with " " ws) = true.
Proof.
  intros Hc Hsp. assert (forall w, all_chars word_char w = true -> no_char c w = true) as Hone.
  { induction w as [|a w IH]; [done|]. cbn. intros [Ha Hw]%andb_true_iff. rewrite IH by done. rewrite andb_true_r.
    apply negb_true_iff, Ascii.eqb_neq. intros ->. by rewrite Hc in Ha. }
  induction 1 as [|w ws [_ Hw] Hws IH]; [done|]. destruct ws as [|w' ws]; [by apply Hone|].
  change (join_with " " (w :: w' :: ws)) with (w +:+ String space_char (join_with " " (w' :: ws))).
  assert (forall a b, no_char c a = true -> no_char c b = true -> no_char c (a +:+ b) = true) as Happ.
  { induction a as [|x a IHa]; intros b; [done|]. rewrite append_cons. cbn. intros [-> ?]%andb_true_iff ?. by apply IHa. }
  apply Happ; [by apply Hone|]. cbn [no_char]. rewrite IH, andb_true_r. apply negb_true_iff, Ascii.eqb_neq. congruence.
Qed.

Section laws.
Context `{IT : IPText} `{SS : SortSlice} `{MO : MapOrder}.

(** A file as this code writes it: an address, and one or more names. *)
Definition entry_ok (ip names : string) : Prop := word ip /\ exists n ns, names = join_with " " (n :: ns) /\ Forall word (n :: ns).
Definition hosts_ok (m : gmap string string) : Prop := map_Forall entry_ok m.

(** The first name, which is that of a node. *)
Definition first_name (names : string) : option string := head (Fields names).

(** The address is one that [nodeName] no longer has. *)
Definition stale (nodeName v4 v6 ip names : string) : bool :=
  bool_decide (first_name names = Some nodeName /\ ip <> (if contains ip ":" then v6 else v4)).

Lemma line_read nodeName v4 v6 ip names m : entry_ok ip names ->
  hosts_line nodeName v4 v6 (ip +:+ " " +:+ names) m = if stale nodeName v4 v6 ip names then m else <[ip := names]> m.
Proof.
  intros (Hip & n & ns & -> & Hns). unfold hosts_line, stale, first_name.
  assert (Forall word (ip :: n :: ns)) as Hall by by constructor.
  change (ip +:+ " " +:+ join_with " " (n :: ns)) with (join_with " " (ip :: n :: ns)).
  pose proof (words_no_char hash_char (ip :: n :: ns) eq_refl ltac:(discriminate) Hall) as Hno.
  assert (forall s, no_char hash_char s = true -> fst (cut_at hash_char s) = s) as Hcut.
  { induction s as [|c s IH]; [done|]. cbn [no_char cut_at]. intros [Hc%negb_true_iff Hs]%andb_true_iff. rewrite Hc.
    specialize (IH Hs). destruct (cut_at hash_char s). cbn in *. by rewrite IH. }
  rewrite Hcut, !fields_words by done. cbn [head]. case_bool_decide as E.
  - rewrite decide_True; [done|]. destruct E as [[= ->] ?]. done.
  - rewrite decide_False; [done|]. intros [-> ?]. by apply E.
Qed.

(** The lines of a file in the order of [l]. *)
Definition print_lines (l : list (string * string)) (text : string) : string :=
  fold_left (fun text x => text +:+ x.1 +:+ " " +:+ x.2 +:+ String newline_char "") l text.

Lemma append_text l text : print_lines l text = text +:+ print_lines l "".
Proof.
  revert text. induction l as [|x l IH]; intros text; cbn; [by rewrite append_empty_r|].
  rewrite IH. rewrite (IH ("" +:+ _)). by rewrite append_nil_l, append_assoc.
Qed.

Lemma lines_split l : Forall (fun x => entry_ok x.1 x.2) l ->
  split_on newline_char (print_lines l "") = ((fun x => x.1 +:+ " " +:+ x.2) <$> l) ++ [""].
Proof.
  induction 1 as [|[ip names] l Hx Hl IH]; [done|]. cbn [fst snd] in Hx. destruct Hx as (Hip & n & ns & -> & Hns).
  change (print_lines ((ip, join_with " " (n :: ns)) :: l) "") with
    (print_lines l ("" +:+ ip +:+ " " +:+ join_with " " (n :: ns) +:+ String newline_char "")).
  rewrite append_text, append_nil_l. rewrite !append_assoc. cbn [fst snd fmap list_fmap app].
  change (String newline_char "" +:+ print_lines l "") with (String newline_char (print_lines l "")).
  rewrite <-(append_assoc " "), <-append_assoc.
  rewrite split_on_app; [by rewrite IH|].
  change (ip +:+ " " +:+ join_with " " (n :: ns)) with (join_with " " (ip :: n :: ns)).
  apply words_no_char; [done|discriminate|by constructor].
Qed.

(** Reading the lines back, those that are stale left out. *)
Lemma lines_read nodeName v4 v6 l m : Forall (fun x => entry_ok x.1 x.2) l ->
  fold_left (fun m line => hosts_line nodeName v4 v6 line m) (((fun x => x.1 +:+ " " +:+ x.2) <$> l) ++ [""]) m =
  fold_left (fun m x => if stale nodeName v4 v6 x.1 x.2 then m else <[x.1 := x.2]> m) l m.
Proof.
  intros H. rewrite fold_left_app. cbn [fold_left]. unfold hosts_line at 1. cbn. revert m.
  induction H as [|x l Hx Hl IH]; intros m; [done|]. cbn [fmap list_fmap fold_left]. by rewrite line_read, IH.
Qed.

Lemma fold_insert nodeName v4 v6 (l : list (string * string)) (m : gmap string string) ip : NoDup l.*1 -> (forall names, (ip, names) ∈ l -> m !! ip = None) ->
  fold_left (fun m x => if stale nodeName v4 v6 x.1 x.2 then m else <[x.1 := x.2]> m) l m !! ip =
  match (list_to_map l : gmap string string) !! ip with
  | Some names => if stale nodeName v4 v6 ip names then None else Some names
  | None => m !! ip
  end.
Proof.
  revert m. induction l as [|[ip0 names0] l IH]; intros m; cbn [fold_left fmap list_fmap list_to_map]; [done|].
  intros [Hnin Hnd]%NoDup_cons Hm. cbn [fst snd] in *. destruct (decide (ip = ip0)) as [->|Hne].
  - cbn. rewrite lookup_insert_eq. rewrite IH; [|done|].
    2: { intros names Hin. exfalso. apply Hnin. change ip0 with (ip0, names).1. by apply list_elem_of_fmap_2. }
    rewrite not_elem_of_list_to_map_1 by done. destruct (stale nodeName v4 v6 ip0 names0); [apply (Hm names0); by left|by rewrite lookup_insert_eq].
  - cbn. rewrite lookup_insert_ne by done. rewrite IH; [|done|].
    + destruct (list_to_map l !! ip); [done|]. destruct (stale _ _ _ ip0 names0); [done|by rewrite lookup_insert_ne].
    + intros names Hin. assert (m !! ip = None) as Hn by (apply (Hm names); by right).
      destruct (stale _ _ _ ip0 names0); [done|]. by rewrite lookup_insert_ne.
Qed.

Lemma print_as_lines m : exists l, l ≡ₚ map_to_list m /\ print_hosts m = print_lines l "".
Proof.
  unfold print_hosts. set (ks := sort_slice ip_less (iter m).*1).
  assert (ks ≡ₚ (map_to_list m).*1) as Hks by (unfold ks; by rewrite sort_slice_perm, iter_perm).
  exists ((fun ip => (ip, default "" (m !! ip))) <$> ks). split.
  - rewrite Hks, <-list_fmap_compose. apply reflexive_eq.
    rewrite <-(list_fmap_id (map_to_list m)) at 2.
    apply list_fmap_ext. intros i [ip names] Hi. cbn. apply list_elem_of_lookup_2, elem_of_map_to_list in Hi. by rewrite Hi.
  - enough (forall text, fold_left (fun text ip => text +:+ ip +:+ " " +:+ default "" (m !! ip) +:+ String newline_char "") ks text =
      print_lines ((fun ip => (ip, default "" (m !! ip))) <$> ks) text) as H by apply H.
    clear Hks. induction ks as [|k ks IH]; intros text; [done|]. cbn [fold_left fmap list_fmap print_lines]. apply IH.
Qed.

(** The text of a hosts file: a line for every address, in any order. *)
Definition hosts_text (m : gmap string string) (text : string) : Prop := exists l, l ≡ₚ map_to_list m /\ text = print_lines l "".

Lemma print_hosts_text m : hosts_text m (print_hosts m).
Proof. apply print_as_lines. Qed.

(** What was written is read back, without what the node no longer has. *)
Lemma read_print nodeName v4 v6 m text ip : hosts_ok m -> hosts_text m text ->
  read_hosts nodeName v4 v6 text !! ip =
  match m !! ip with Some names => if stale nodeName v4 v6 ip names then None else Some names | None => None end.
Proof.
  intros Hm (l & Hl & ->). unfold read_hosts.
  assert (Forall (fun x => entry_ok x.1 x.2) l) as Hok.
  { rewrite Hl. apply Forall_forall. intros [ip' names] Hin%elem_of_map_to_list. by apply Hm. }
  assert (NoDup l.*1) as Hnd by (rewrite Hl; apply NoDup_fst_map_to_list).
  rewrite lines_split, lines_read, fold_insert by done.
  by rewrite (list_to_map_proper l (map_to_list m)), list_to_map_to_list by done.
Qed.

(** With [faults] requests may be refused; one that is served does what it
    says. *)
Definition hosts_contract (faults : bool) : contract hostsE (gmap string string) := fun X e v x v' =>
  match e in hostsE X return X -> Prop with
  | DeletePassword _ => fun _ => v' = v
  | GetConfigMap => fun r => v' = v /\ (r = Ok v \/ faults = true /\ is_ok r = false)
  | UpdateConfigMap data => fun r => (r = Ok tt /\ v' = data) \/ (faults = true /\ is_ok r = false /\ v' = v)
  end x.

(** The names of a node. *)
Definition node_names (nodeName hostName : string) : string :=
  nodeName +:+ (if decide (hostName <> nodeName) then " " +:+ hostName else "").

Lemma node_names_words nodeName hostName : word nodeName -> word hostName ->
  exists ns, node_names nodeName hostName = join_with " " (nodeName :: ns) /\ Forall word (nodeName :: ns).
Proof.
  intros Hn Hh. unfold node_names. destruct (decide (hostName <> nodeName)).
  - exists [hostName]. split; [done|]. by rewrite !Forall_cons.
  - exists []. split; [cbn; by rewrite append_empty_r|]. by rewrite Forall_cons.
Qed.

Lemma set_names_lookup k names m ip : set_names k names m !! ip = if decide (ip = k /\ k <> "") then Some names else m !! ip.
Proof.
  unfold set_names. destruct (decide (k = "")) as [->|Hk]; [by rewrite decide_False by naive_solver|].
  destruct (decide (ip = k)) as [->|Hne]; [rewrite decide_True by done; by rewrite lookup_insert_eq|].
  rewrite decide_False by naive_solver. by rewrite lookup_insert_ne.
Qed.

Section node.
Context (nodeName hostName v4 v6 : string) (m : gmap string string) (text : string).
Hypothesis Hm : hosts_ok m.
Hypothesis Htext : hosts_text m text.
Hypothesis Hname : word nodeName.
Hypothesis Hhost : word hostName.
Hypothesis Hv4 : v4 = "" \/ word v4 /\ contains v4 ":" = false.
Hypothesis Hv6 : v6 = "" \/ word v6 /\ contains v6 ":" = true.

Definition own (ip : string) : Prop := ip <> "" /\ (ip = v4 \/ ip = v6).

(** The hosts after a change of the node, whose addresses are the own ones:
    they have its names, what it had otherwise is gone, and the lines of
    other nodes stay. *)
Definition hosts_after (m' : gmap string string) : Prop :=
  hosts_ok m' /\
  (forall ip, own ip -> m' !! ip = Some (node_names nodeName hostName)) /\
  (forall ip, ~ own ip -> m' !! ip = (m !! ip ≫= fun names => if bool_decide (first_name names = Some nodeName) then None else Some names)).

Definition in_sync : Prop := forall ip, own ip -> m !! ip = Some (node_names nodeName hostName).

Lemma own_family ip : own ip -> ip = if contains ip ":" then v6 else v4.
Proof. intros [Hne [->| ->]]; [destruct Hv4 as [?|[_ ->]]|destruct Hv6 as [?|[_ ->]]]; done. Qed.

Lemma own_fresh ip : own ip -> read_hosts nodeName v4 v6 text !! ip = m !! ip.
Proof.
  intros Ho. rewrite (read_print _ _ _ m) by done. destruct (m !! ip) as [names|]; [|done]. unfold stale.
  rewrite bool_decide_eq_false_2; [done|]. intros [_ H]. apply H, own_family, Ho.
Qed.

Lemma empty_key v : read_hosts nodeName v4 v6 text !! "" = v -> v = None.
Proof.
  rewrite (read_print _ _ _ m) by done. destruct (m !! "") as [names|] eqn:E; [|by intros <-]. by destruct (Hm _ _ E) as [[? _] _].
Qed.

Definition synced_names (ip : string) : string := if decide (ip = "") then "" else node_names nodeName hostName.

Lemma names_nonempty : node_names nodeName hostName <> "".
Proof. destruct Hname as [Hn _]. unfold node_names. by destruct nodeName. Qed.

(** The comparison of the code. *)
Lemma sync_exact (a := read_hosts nodeName v4 v6 text) :
  default "" (a !! v4) = synced_names v4 /\ default "" (a !! v6) = synced_names v6 <-> in_sync.
Proof.
  assert (forall ip, ip = v4 \/ ip = v6 ->
    (default "" (a !! ip) = synced_names ip <-> (own ip -> m !! ip = Some (node_names nodeName hostName)))) as Hone.
  { intros ip Hip. unfold synced_names. destruct (decide (ip = "")) as [->|Hne].
    - split; [by intros _ [? _]|]. intros _. destruct (a !! "") eqn:E; [|done]. by apply empty_key in E.
    - assert (own ip) as Ho by by split. unfold a. rewrite own_fresh by done. pose proof names_nonempty.
      destruct (m !! ip); cbn; naive_solver. }
  rewrite !Hone by auto. split; [|intros H; split; apply H]. intros [H4 H6] ip Ho. destruct (proj2 Ho) as [->| ->]; auto.
Qed.

Lemma after_exact : hosts_after (set_names v6 (synced_names v6) (set_names v4 (synced_names v4) (read_hosts nodeName v4 v6 text))).
Proof.
  set (m' := set_names _ _ _).
  assert (forall ip, m' !! ip = if decide (own ip) then Some (node_names nodeName hostName) else read_hosts nodeName v4 v6 text !! ip) as Hm'.
  { intros ip. unfold m'. rewrite !set_names_lookup. unfold synced_names. destruct (decide (own ip)) as [[Ho Hip]|Ho].
    - repeat case_decide; try done; naive_solver.
    - rewrite !decide_False; [done|..]; intros [-> ?]; apply Ho; split; auto. }
  split_and!.
  - intros ip names Hip. rewrite Hm' in Hip. destruct (decide (own ip)) as [[Hne Ho]|Ho].
    + injection Hip as <-. destruct (node_names_words _ _ Hname Hhost) as (ns & -> & Hns). split; [|by exists nodeName, ns].
      destruct Ho as [->| ->]; naive_solver.
    + rewrite (read_print _ _ _ m) in Hip by done. destruct (m !! ip) as [names'|] eqn:E; [|done]. destruct (stale _ _ _ _ _); [done|].
      injection Hip as <-. by apply Hm.
  - intros ip Ho. by rewrite Hm', decide_True.
  - intros ip Ho. rewrite Hm', decide_False, (read_print _ _ _ m) by done. destruct (m !! ip) as [names|] eqn:E; [|done]. cbn. unfold stale.
    assert (ip <> if contains ip ":" then v6 else v4) as Hne.
    { intros Heq. apply Ho. split; [by destruct (Hm _ _ E) as [[? _] _]|]. destruct (contains ip ":"); auto. }
    by rewrite (bool_decide_ext (first_name names = Some nodeName /\ _) (first_name names = Some nodeName)) by tauto.
Qed.
End node.

(** C12. When a node changes or goes, and the hosts file is one that this code
    wrote, then what it writes has the node's names for every address the node
    has now, no other address whose first name is the node's, and every other
    line as it was, in the same configuration map otherwise.  It writes unless
    a request was refused or the node stays and every address it has now has
    its names already; in the second case an address that it gave up stays. *)
Theorem hosts_follow_node faults nodeName hostName v4 v6 (removed : bool) (m data : gmap string string) :
  hosts_ok m -> hosts_text m (default "" (data !! NodeHosts)) ->
  word nodeName -> word hostName -> (v4 = "" \/ word v4 /\ contains v4 ":" = false) -> (v6 = "" \/ word v6 /\ contains v6 ":" = true) ->
  let ip4 := if removed then "" else v4 in let ip6 := if removed then "" else v6 in
  wp (hosts_contract faults) (updateCoreDNSConfigMap nodeName hostName v4 v6 removed) (fun o data' => exists r, o = Done r /\
    ((exists m' text, hosts_after nodeName hostName ip4 ip6 m m' /\ hosts_text m' text /\ data' = <[NodeHosts := text]> data /\ r = Ok tt) \/
     (data' = data /\ (faults = true \/ removed = false /\ r = Ok tt /\ in_sync nodeName hostName ip4 ip6 m)))) data.
Proof.
  intros Hm Htext Hn Hh H4 H6 ip4 ip6. unfold updateCoreDNSConfigMap. fold ip4 ip6.
  assert (ip4 = "" \/ word ip4 /\ contains ip4 ":" = false) as H4' by (unfold ip4; destruct removed; auto).
  assert (ip6 = "" \/ word ip6 /\ contains ip6 ":" = true) as H6' by (unfold ip6; destruct removed; auto).
  destruct (negb removed && bool_decide (ip4 = "" /\ ip6 = "")) eqn:Enone.
  { apply andb_true_iff in Enone as [Er%negb_true_iff [E4 E6]%bool_decide_eq_true]. apply wp_ret. eexists. split; [done|]. right.
    split; [done|]. right. split_and!; [done|done|]. intros ip [Hne Hip]. rewrite E4, E6 in Hip. naive_solver. }
  eapply wp_call. intros r v1 [-> [->|[Hf Hr]]].
  2: { destruct r; [done|]. apply wp_ret. eexists. split; [done|]. right. split; [done|]. by left. }
  fold (node_names nodeName hostName). fold (synced_names nodeName hostName ip4). fold (synced_names nodeName hostName ip6).
  pose proof (sync_exact nodeName hostName ip4 ip6 m _ Hm Htext Hn H4' H6') as Hsync. cbv zeta in Hsync.
  match goal with |- context [if ?b then Ret _ else call _] => destruct b eqn:Es end.
  - apply andb_true_iff in Es as [Er%negb_true_iff Es%bool_decide_eq_true]. apply wp_ret. eexists. split; [done|]. right. split; [done|].
    right. split_and!; [done|done|]. by apply Hsync.
  - intros r v2 [[-> ->]|(Hf & Hr & ->)]; eexists; (split; [done|]).
    + left. eexists _, _. split; [by apply after_exact|]. split; [apply print_hosts_text|]. by split.
    + right. split; [done|]. by left.
Qed.

End laws.

(** ** A cluster to look at *)

#[local] Existing Instance bits_text.
#[local] Existing Instance insertion_order.
#[local] Existing Instance list_order.

Definition live_hosts : handler hostsE (gmap string string) := fun X e v =>
  match e in hostsE X return X * gmap string string with
  | DeletePassword _ => (Ok tt, v)
  | GetConfigMap => (Ok v, v)
  | UpdateConfigMap data => (Ok tt, data)
  end.

Lemma live_hosts_ok : respects live_hosts (fun v => v) (hosts_contract false).
Proof. intros X e v. destruct e; cbn; [done|split; [done|by left]|by left]. Qed.

Definition two_nodes : gmap string string := <["10.0.0.1" := "n1"]> {["10.0.0.2" := "n2 host2"]}.
Definition hosts_data (text : string) : gmap string string := {[NodeHosts := text]}.
Definition text_lines (l : list string) : string := foldr (fun line text => line +:+ String newline_char text) "" l.

Lemma hosts_follow_node_witness :
  wp (hosts_contract true) (updateCoreDNSConfigMap "n1" "n1" "10.0.0.9" "" false) (fun o data' => exists r, o = Done r /\
    ((exists m' text, hosts_after "n1" "n1" "10.0.0.9" "" two_nodes m' /\ hosts_text m' text /\
        data' = <[NodeHosts := text]> (hosts_data (print_hosts two_nodes)) /\ r = Ok tt) \/
     (data' = hosts_data (print_hosts two_nodes) /\ (true = true \/ false = false /\ r = Ok tt /\ in_sync "n1" "n1" "10.0.0.9" "" two_nodes))))
    (hosts_data (print_hosts two_nodes)).
Proof.
  apply (hosts_follow_node true "n1" "n1" "10.0.0.9" "" false two_nodes).
  - intros ip names. unfold two_nodes. intros [[<- <-]|[_ [<- <-]%lookup_singleton_Some]]%lookup_insert_Some.
    + split; [done|]. exists "n1", []. split; [done|]. by rewrite Forall_cons.
    + split; [done|]. exists "n2", ["host2"]. split; [done|]. by rewrite !Forall_cons.
  - apply print_hosts_text.
  - done.
  - done.
  - right. split; done.
  - by left.
Defined.

Example node_moves :
  snd (run live_hosts (hosts_onChange true (Some (mkHNode "n1" [(InternalIP, "10.0.0.9"); (HostName, "n1")])))
         (hosts_data (text_lines ["10.0.0.1 n1"; "10.0.0.2 n2 host2"]))) =
  hosts_data (text_lines ["10.0.0.9 n1"; "10.0.0.2 n2 host2"]) /\
  snd (run live_hosts (hosts_onRemove true (mkHNode "n2" [(InternalIP, "10.0.0.2"); (HostName, "host2")]))
         (hosts_data (text_lines ["10.0.0.1 n1"; "10.0.0.2 n2 host2"]))) = hosts_data (text_lines ["10.0.0.1 n1"]).
Proof. split; vm_compute; reflexivity. Qed.

(** A node that gives up its IPv6 address keeps the line of it, since the
    line of the other address is right. *)
Example lost_family_stays :
  snd (run live_hosts (hosts_onChange true (Some (mkHNode "n1" [(InternalIP, "10.0.0.1"); (HostName, "n1")])))
         (hosts_data (text_lines ["10.0.0.1 n1"; "fd00::1 n1"]))) =
  hosts_data (text_lines ["10.0.0.1 n1"; "fd00::1 n1"]).
Proof. vm_compute. reflexivity. Qed.

(** A node without a host name is written with a space at the end, which is
    not read back: its line is never found right. *)
Example no_hostname_never_in_sync :
  let text := hosts_data (text_lines ["10.0.0.1 n1 "]) in
  run live_hosts (hosts_onChange true (Some (mkHNode "n1" [(InternalIP, "10.0.0.1")]))) text = (Done (Ok tt), text) /\
  default "" (read_hosts "n1" "10.0.0.1" "" (text_lines ["10.0.0.1 n1 "]) !! "10.0.0.1") = "n1".
Proof. split; vm_compute; reflexivity. Qed.
