(* ===== verification/Deploy.v ===== *)
(** * The manifests of the cluster

    [pkg/deploy/controller.go]: the files in the manifest directories are
    applied to the cluster, each as one add-on that owns what the file
    describes; what is gone from a file is pruned, and the manifests of
    disabled components are deleted with what they created. *)
From Stdlib Require Import ZArith Lia.
From S2P Require Import Prelude GoText Prog Os Sha256 Signed ConfigArgs.

(** ** Data *)

Record GVK := mkGVK { g_Group : string; g_Version : string; g_Kind : string }.
#[export] Instance GVK_eq_dec : EqDecision GVK.
Proof. solve_decision. Defined.
#[export] Instance GVK_countable : Countable GVK.
Proof.
  refine (inj_countable' (fun g => (g_Group g, g_Version g, g_Kind g)) (fun x => mkGVK x.1.1 x.1.2 x.2) _). by intros [].
Defined.

Definition GVKAnnotation : string := "addon.k8e.sh/gvks".

(** An add-on; no UID before it is created, no map before the first
    annotation. *)
Record Addon := mkAddon {
  ad_Name : string; ad_UID : string; ad_Source : string; ad_Checksum : string; ad_Annotations : option (gmap string string);
}.
Definition NewAddon (name : string) : Addon := mkAddon name "" "" "" None.
Definition with_source (path : string) (a : Addon) : Addon := mkAddon (ad_Name a) (ad_UID a) path (ad_Checksum a) (ad_Annotations a).

Record FileInfo := mkInfo { fi_Name : string; fi_ModTime : Z; fi_Symlink : bool }.

(** The text of YAML documents and of what kinds are read by libraries: the
    documents of a stream, the objects of a document, the kinds of a set of
    objects, and [kv.Split]. *)
Class Manifests := mkManifests {
  obj : Type;
  gvk_of : obj -> GVK;
  documents : string -> list string * option error;
  decode : string -> res (list obj);
  GVKs : list obj -> list GVK;
  elem_of_GVKs : forall l g, g ∈ GVKs l <-> exists o, o ∈ l /\ gvk_of o = g;
  kv_Split : string -> string * string;
}.

Section deploy.
Context `{MF : Manifests}.

Inductive depE : Type -> Type :=
  | Walk (root : string) : depE (list (string * res FileInfo))
  | StatIsDir (p : string) : depE (res bool)
  | EvalSymlinks (p : string) : depE (res string)
  | ReadManifest (p : string) : depE (res string)
  | RemoveFile (p : string) : depE (res unit)
  | CachedAddon (name : string) : depE (res Addon)
  | ShareAnnotation (name gvks : string) : depE unit
  | CreateAddon (a : Addon) : depE (res Addon)
  | UpdateAddon (a : Addon) : depE (res unit)
  | DeleteAddon (name : string) : depE (res unit)
  | ServerResources (group version : string) : depE (res (list GVK))
  | Apply (owner : Addon) (gvks : list GVK) (objects : list obj) : depE (res unit).

Abbreviation depP := (prog depE).

(** What the watcher remembers. *)
Record watcher := mkWatcher { w_modTime : gmap string Z; w_gvkCache : gset GVK }.
Definition with_modTime (m : gmap string Z) (w : watcher) : watcher := mkWatcher m (w_gvkCache w).
Definition with_gvkCache (c : gset GVK) (w : watcher) : watcher := mkWatcher (w_modTime w) c.

(** ** Kinds *)

Definition kind_sep : string := ", Kind=".
Definition semicolon : Ascii.ascii := Ascii.ascii_of_nat 59.

(** The parts between occurrences of a separator: [strings.Split]. *)
Fixpoint split_str_fuel (fuel : nat) (sep s : string) (word : string) : list string :=
  match fuel with
  | O => [String.rev word]
  | S fuel =>
      match strip_prefix sep s with
      | Some r => String.rev word :: split_str_fuel fuel sep r ""
      | None => match s with
                | EmptyString => [String.rev word]
                | String c r => split_str_fuel fuel sep r (String c word)
                end
      end
  end.
Definition split_str (sep s : string) : list string := split_str_fuel (S (String.length s)) sep s "".

Definition getGVK (s : string) : option GVK :=
  match split_str kind_sep s with
  | [gv; kind] => let '(group, version) := kv_Split gv in Some (mkGVK group version kind)
  | _ => None
  end.

Definition gvk_String (g : GVK) : string := g_Group g +:+ "/" +:+ g_Version g +:+ kind_sep +:+ g_Kind g.
Definition getGVKString (gvks : list GVK) : string := join_with ";" (gvk_String <$> gvks).

(** The kinds of the annotation. *)
Definition annotated_gvks (a : Addon) : list GVK :=
  omap getGVK (split_on semicolon (default "" (default ∅ (ad_Annotations a) !! GVKAnnotation))).

(** The kinds of the group and version among the resources: those that name
    no group and version of their own. *)
Definition served_kinds (gvk : GVK) (l : list GVK) : gset GVK :=
  list_to_set ((fun r => mkGVK (g_Group gvk) (g_Version gvk) (g_Kind r)) <$> filter (fun r => g_Group r = "" /\ g_Version r = "") l).

Definition serverHasGVK (w : watcher) (gvk : GVK) : depP (watcher * res bool) :=
  if decide (gvk ∈ w_gvkCache w) then Ret (w, Ok true)
  else
    do resources <- call (ServerResources (g_Group gvk) (g_Version gvk));
    match resources with
    | Err err => Ret (w, if is_not_found err then Ok false else Err err)
    | Ok l =>
        let w := with_gvkCache (served_kinds gvk l ∪ w_gvkCache w) w in
        Ret (w, Ok (bool_decide (gvk ∈ w_gvkCache w)))
    end.

Fixpoint validateGVKs (w : watcher) (addonGVKs : list GVK) : depP (watcher * res (list GVK)) :=
  match addonGVKs with
  | [] => Ret (w, Ok [])
  | gvk :: addonGVKs =>
      do found <- serverHasGVK w gvk;
      let '(w, found) := found in
      match found with
      | Err err => Ret (w, Err err)
      | Ok found =>
          do rest <- validateGVKs w addonGVKs;
          let '(w, rest) := rest in
          Ret (w, match rest with Ok l => Ok (if found then gvk :: l else l) | Err err => Err err end)
      end
  end.

(** ** Manifests *)

Definition isEmptyYaml (yaml : string) : bool :=
  forallb (fun l => let s := TrimSpace l in bool_decide (s = "---") || has_prefix s "#" || bool_decide (s = ""))
    (split_on (Ascii.ascii_of_nat 10) yaml).

Fixpoint objects_of (docs : list string) : res (list obj) :=
  match docs with
  | [] => Ok []
  | raw :: docs =>
      if isEmptyYaml raw then objects_of docs
      else match decode raw with
           | Err err => Err err
           | Ok l => match objects_of docs with Ok r => Ok (l ++ r) | Err err => Err err end
           end
  end.

(** [objectSet]: an error in an earlier document is found before one in the
    stream. *)
Definition objectSet (content : string) : res (list obj) :=
  let '(docs, stop) := documents content in
  match objects_of docs, stop with
  | Ok l, None => Ok l
  | Ok _, Some err => Err err
  | Err err, _ => Err err
  end.

Definition dot : Ascii.ascii := Ascii.ascii_of_nat 46.
Definition basename (path : string) : string := fst (cut_at dot (path_Base path)).
Definition checksum (content : string) : string := hex (sha256 (bytes_of content)).

Definition getOrCreateAddon (name : string) : depP (res Addon) :=
  do r <- call (CachedAddon name);
  Ret match r with
      | Ok a => Ok a
      | Err err => if is_not_found err then Ok (NewAddon name) else Err err
      end.

Definition is_cached (a : Addon) : bool := bool_decide (ad_UID a <> "").

(** The last step of [deploy]: the map of annotations is the one of the cached
    add-on if that has one. *)
Definition record_addon (cached : bool) (sum : string) (objects : list obj) (a : Addon) : depP (res unit) :=
  let gvks := getGVKString (GVKs objects) in
  do! (if cached && bool_decide (is_Some (ad_Annotations a)) then call (ShareAnnotation (ad_Name a) gvks) else Ret tt);
  call (UpdateAddon (mkAddon (ad_Name a) (ad_UID a) (ad_Source a) sum
    (Some (<[GVKAnnotation := gvks]> (default ∅ (ad_Annotations a)))))).

(** The second half of [deploy]: what the file says is applied for an add-on
    that exists. *)
Definition deploy_content (w : watcher) (path : string) (compareChecksum cached : bool) (addon : Addon) : depP (watcher * res unit) :=
  do content <- call (ReadManifest path);
  match content with
  | Err err => Ret (w, Err err)
  | Ok content =>
      let sum := checksum content in
      if compareChecksum && bool_decide (sum = ad_Checksum addon) then Ret (w, Ok tt)
      else
        match objectSet content with
        | Err err => Ret (w, Err err)
        | Ok objects =>
            do valid <- validateGVKs w (GVKs objects ++ annotated_gvks addon);
            let '(w, valid) := valid in
            match valid with
            | Err err => Ret (w, Err err)
            | Ok gvks =>
                do applied <- call (Apply addon gvks objects);
                match applied with
                | Err err => Ret (w, Err err)
                | Ok _ => do r <- record_addon cached sum objects addon; Ret (w, r)
                end
            end
        end
  end.

Definition deploy (w : watcher) (path : string) (compareChecksum : bool) : depP (watcher * res unit) :=
  do got <- getOrCreateAddon (basename path);
  match got with
  | Err err => Ret (w, Err err)
  | Ok addon =>
      let cached := is_cached addon in
      let addon := with_source path addon in
      do created <- (if cached then Ret (Ok addon) else call (CreateAddon addon));
      match created with
      | Err err => Ret (w, Err err)
      | Ok addon => deploy_content w path compareChecksum cached addon
      end
  end.

Definition delete_manifest (w : watcher) (path : string) : depP (watcher * res unit) :=
  do got <- getOrCreateAddon (basename path);
  match got with
  | Err err => Ret (w, Err err)
  | Ok addon =>
      do content <- call (ReadManifest path);
      let listed := match content with
                    | Ok c => match objectSet c with Ok objects => GVKs objects | Err _ => [] end
                    | Err _ => []
                    end in
      do valid <- validateGVKs w (annotated_gvks addon ++ listed);
      let '(w, valid) := valid in
      match valid with
      | Err err => Ret (w, Err err)
      | Ok gvks =>
          do deleted <- call (DeleteAddon (ad_Name addon));
          match deleted with
          | Ok _ => Ret (w, Ok tt)
          | Err err =>
              if negb (is_not_found err) then Ret (w, Err err)
              else
                do applied <- call (Apply addon gvks []);
                match applied with
                | Err err => Ret (w, Err err)
                | Ok _ => do r <- call (RemoveFile path); Ret (w, r)
                end
          end
      end
  end.

(** ** Files *)

Definition yaml_suffixes : list string := [".yaml"; ".yml"; ".json"].

Definition shouldSkipFile (fileName : string) (skips : gset string) : bool :=
  if has_prefix fileName "." then true
  else if decide (fileName ∈ skips) then true
  else negb (HasSuffixI fileName yaml_suffixes).

(** A name without its extension: the text before the last dot. *)
Fixpoint before_last_dot (s : string) : option string :=
  match s with
  | EmptyString => None
  | String c r =>
      match before_last_dot r with
      | Some b => Some (String c b)
      | None => if Ascii.eqb c dot then Some "" else None
      end
  end.

Definition shouldDisableFile (base fileName : string) (disables : gset string) : bool :=
  let namePath := split_on slash (trim_prefix fileName base) in
  existsb (fun i => bool_decide (path_Join (take i namePath) ∈ disables)) (seq 1 (length namePath - 1)) ||
  (HasSuffixI fileName yaml_suffixes &&
   let baseFile := path_Base fileName in bool_decide (default baseFile (before_last_dot baseFile) ∈ disables)).

(** The entries of a walk up to the first that could not be read, which ends
    it; the links of the top level that lead to directories are followed. *)
Fixpoint walk_inner (l : list (string * res FileInfo)) (files : gmap string FileInfo) : gmap string FileInfo :=
  match l with
  | (path, Ok info) :: l => walk_inner l (<[path := info]> files)
  | _ => files
  end.

Fixpoint walk_files (l : list (string * res FileInfo)) (files : gmap string FileInfo) : depP (res (gmap string FileInfo)) :=
  match l with
  | [] => Ret (Ok files)
  | (path, Err err) :: _ => Ret (Err err)
  | (path, Ok info) :: l =>
      if fi_Symlink info then
        try isDir <- call (StatIsDir path);
        if isDir : bool then
          try evalPath <- call (EvalSymlinks path);
          do inner <- call (Walk evalPath);
          walk_files l (<[path := info]> (walk_inner inner files))
        else walk_files l (<[path := info]> files)
      else walk_files l (<[path := info]> files)
  end.

(** The names that a file with [.skip] behind them excludes. *)
Definition skip_names (files : gmap string FileInfo) : gset string :=
  list_to_set (omap (fun x : string * FileInfo => if has_suffix ".skip" (fi_Name x.2) then Some (trim_suffix ".skip" (fi_Name x.2)) else None)
                 (map_to_list files)).

(** The zero [time.Time], in nanoseconds. *)
Definition zero_time : Z := (-62135596800 * 1000000000)%Z.

Fixpoint each_file (base : string) (disables skips : gset string) (force : bool) (l : list (string * FileInfo)) (w : watcher)
    : depP (watcher * bool) :=
  match l with
  | [] => Ret (w, true)
  | (path, info) :: l =>
      if shouldDisableFile base path disables then
        do r <- delete_manifest w path;
        do rest <- each_file base disables skips force l (fst r);
        Ret (fst rest, is_ok (snd r) && snd rest)
      else if shouldSkipFile (fi_Name info) skips then each_file base disables skips force l w
      else if negb force && bool_decide (fi_ModTime info = default zero_time (w_modTime w !! path)) then each_file base disables skips force l w
      else
        do r <- deploy w path (negb force);
        let w := match snd r with Ok _ => with_modTime (<[path := fi_ModTime info]> (w_modTime (fst r))) (fst r) | Err _ => fst r end in
        do rest <- each_file base disables skips force l w;
        Ret (fst rest, is_ok (snd r) && snd rest)
  end.

(** The files in the order of their paths. *)
Definition sorted_files (files : gmap string FileInfo) : list (string * FileInfo) :=
  omap (fun path => (fun info => (path, info)) <$> files !! path) (sort_strings (map_to_list files).*1).

Definition listFilesIn (disables : gset string) (base : string) (force : bool) (w : watcher) : depP (watcher * bool) :=
  do l <- call (Walk base);
  do files <- walk_files l ∅;
  match files with
  | Err _ => Ret (w, false)
  | Ok files => each_file base disables (skip_names files) force (sorted_files files) w
  end.

Fixpoint listFiles (disables : gset string) (bases : list string) (force : bool) (w : watcher) : depP (watcher * bool) :=
  match bases with
  | [] => Ret (w, true)
  | base :: bases =>
      do r <- listFilesIn disables base force w;
      do rest <- listFiles disables bases force (fst r);
      Ret (fst rest, snd r && snd rest)
  end.

(** [start] for a number of rounds: everything is applied until a round
    succeeds, and what has changed after that. *)
Fixpoint start_rounds (disables : gset string) (bases : list string) (n : nat) (force : bool) (w : watcher) : depP watcher :=
  match n with
  | O => Ret w
  | S n =>
      do r <- listFiles disables bases force w;
      start_rounds disables bases n (force && negb (snd r)) (fst r)
  end.

Definition WatchFiles (disables : gset string) (bases : list string) (n : nat) : depP watcher :=
  start_rounds disables bases n true (mkWatcher ∅ ∅).

End deploy.
