(* ===== verification/DeployLaws.v ===== *)
(** * What a pass over the manifests leaves

    A manifest that is deployed owns exactly the objects of its file; what is
    skipped was right already; and what fails is tried again. *)
From Stdlib Require Import ZArith Lia.
From S2P Require Import Prelude GoText Prog Os Sha256 Signed ConfigArgs Deploy.

(** ** The kinds of an annotation *)

Lemma split_str_word sep word a b fuel c0 seprest :
  sep = String c0 seprest -> no_char c0 a = true -> (String.length a < fuel)%nat ->
  split_str_fuel fuel sep (a +:+ sep +:+ b) word = String.rev (String.rev a +:+ word) :: split_str_fuel (fuel - 1 - String.length a) sep b "".
Proof.
  intros -> . revert word fuel. induction a as [|c a IH]; intros word fuel Ha Hf.
  - destruct fuel as [|fuel]; [lia|]. rewrite append_nil_l. cbn [split_str_fuel]. rewrite strip_prefix_app.
    change (String.rev "" +:+ word) with word. by replace (S fuel - 1 - String.length "")%nat with fuel by (cbn; lia).
  - destruct fuel as [|fuel]; [lia|]. cbn [no_char] in Ha. apply andb_true_iff in Ha as [Hc%negb_true_iff Ha].
    rewrite append_cons. cbn [split_str_fuel strip_prefix]. rewrite Ascii.eqb_sym, Hc. rewrite IH by (done || (cbn in Hf; lia)).
    rewrite rev_cons, append_assoc, append_cons, append_nil_l. f_equal. f_equal. cbn. lia.
Qed.

Lemma split_str_last sep word b fuel c0 seprest :
  sep = String c0 seprest -> no_char c0 b = true -> (String.length b < fuel)%nat ->
  split_str_fuel fuel sep b word = [String.rev (String.rev b +:+ word)].
Proof.
  intros ->. revert word fuel. induction b as [|c b IH]; intros word fuel Hb Hf; (destruct fuel as [|fuel]; [lia|]).
  - cbn. by rewrite append_nil_l.
  - cbn [no_char] in Hb. apply andb_true_iff in Hb as [Hc%negb_true_iff Hb].
    cbn [split_str_fuel strip_prefix]. rewrite Ascii.eqb_sym, Hc, IH by (done || (cbn in Hf; lia)).
    by rewrite rev_cons, append_assoc, append_cons, append_nil_l.
Qed.

Lemma no_char_append c a b : no_char c (a +:+ b) = no_char c a && no_char c b.
Proof. induction a as [|x a IH]; [done|]. rewrite append_cons. cbn. by rewrite IH, andb_assoc. Qed.

Section laws.
Context `{MF : Manifests}.
Implicit Types (g : GVK) (w : watcher).

(** A kind whose names have none of the characters between them. *)
Definition gvk_ok g : Prop :=
  no_char comma (g_Group g +:+ g_Version g +:+ g_Kind g) = true /\ no_char semicolon (g_Group g +:+ g_Version g +:+ g_Kind g) = true /\
  kv_Split (g_Group g +:+ "/" +:+ g_Version g) = (g_Group g, g_Version g).

Lemma getGVK_String g : gvk_ok g -> getGVK (gvk_String g) = Some g.
Proof.
  intros (Hc & _ & Hkv). rewrite !no_char_append in Hc. apply andb_true_iff in Hc as [Hg Hc]. apply andb_true_iff in Hc as [Hv Hk].
  unfold getGVK, gvk_String, split_str. set (gv := g_Group g +:+ "/" +:+ g_Version g) in *.
  assert (no_char comma gv = true) as Hgv by (unfold gv; rewrite !no_char_append, Hg, Hv; done).
  replace (g_Group g +:+ "/" +:+ g_Version g +:+ kind_sep +:+ g_Kind g) with (gv +:+ kind_sep +:+ g_Kind g)
    by (unfold gv; by rewrite !append_assoc).
  assert (String.length (gv +:+ kind_sep +:+ g_Kind g) = (String.length gv + (String.length kind_sep + String.length (g_Kind g)))%nat) as Hlen
    by by rewrite !length_append.
  rewrite (split_str_word kind_sep "" gv (g_Kind g) _ comma " Kind=") by (done || lia).
  rewrite (split_str_last kind_sep "" (g_Kind g) _ comma " Kind=") by (done || (rewrite Hlen; cbn; lia)).
  rewrite !append_empty_r, !rev_rev, Hkv. by destruct g.
Qed.

Lemma gvk_no_semicolon g : gvk_ok g -> no_char semicolon (gvk_String g) = true.
Proof.
  intros (_ & Hs & _). rewrite !no_char_append in Hs. apply andb_true_iff in Hs as [Hg Hs]. apply andb_true_iff in Hs as [Hv Hk].
  unfold gvk_String. by rewrite !no_char_append, Hg, Hv, Hk.
Qed.

Lemma getGVK_list (l : list GVK) : Forall gvk_ok l -> omap getGVK (gvk_String <$> l) = l.
Proof. induction 1 as [|g l Hg Hl IH]; [done|]. cbn. by rewrite getGVK_String, IH. Qed.

Lemma annotation_read (l : list GVK) a : Forall gvk_ok l ->
  default ∅ (ad_Annotations a) !! GVKAnnotation = Some (getGVKString l) -> annotated_gvks a = l.
Proof.
  intros Hl Ha. unfold annotated_gvks. rewrite Ha. cbn [default]. unfold id, getGVKString.
  destruct Hl as [|g l Hg Hl]; [done|]. change ";" with (String semicolon "").
  rewrite split_join; [|done|].
  - rewrite getGVK_list; [done|by constructor].
  - constructor; [by apply gvk_no_semicolon|]. apply Forall_fmap. eapply Forall_impl; [exact Hl|exact gvk_no_semicolon].
Qed.
(** ** The cluster *)

(** The files, the add-ons, the objects each add-on owns, the kinds the API
    server knows, and what a walk of a directory finds. *)
Record DepWorld := mkDep {
  dw_files : gmap string string; dw_addons : gmap string Addon; dw_objects : gmap string (list obj); dw_served : gset GVK;
  dw_walk : string -> list (string * res FileInfo);
}.
Implicit Types (v : DepWorld).
Definition owned v (name : string) : list obj := default [] (dw_objects v !! name).
Definition set_addon (a : Addon) v : DepWorld := mkDep (dw_files v) (<[ad_Name a := a]> (dw_addons v)) (dw_objects v) (dw_served v) (dw_walk v).

(** What an owner has after an apply: the objects that were given, and those
    of kinds that were not looked for. *)
Definition applied (gvks : list GVK) (objects old : list obj) : list obj :=
  objects ++ filter (fun o => gvk_of o ∉ gvks ++ GVKs objects) old.

(** The requests are served; the cache of add-ons is up to date. *)
Definition dep_contract : contract depE DepWorld := fun X e v x v' =>
  match e in depE X return X -> Prop with
  | ReadManifest p => fun r => v' = v /\ match dw_files v !! p with Some c => r = Ok c | None => is_ok r = false end
  | RemoveFile p => fun r => r = Ok tt /\ v' = mkDep (delete p (dw_files v)) (dw_addons v) (dw_objects v) (dw_served v) (dw_walk v)
  | CachedAddon name => fun r => v' = v /\ r = match dw_addons v !! name with Some a => Ok a | None => Err (Api RNotFound) end
  | ShareAnnotation name gvks => fun _ =>
      v' = match dw_addons v !! name with
           | Some a => set_addon (mkAddon (ad_Name a) (ad_UID a) (ad_Source a) (ad_Checksum a)
                         (Some (<[GVKAnnotation := gvks]> (default ∅ (ad_Annotations a))))) v
           | None => v
           end
  | CreateAddon a => fun r => exists uid, uid <> "" /\
      let a' := mkAddon (ad_Name a) uid (ad_Source a) (ad_Checksum a) (ad_Annotations a) in r = Ok a' /\ v' = set_addon a' v
  | UpdateAddon a => fun r => r = Ok tt /\ v' = set_addon a v
  | DeleteAddon name => fun r =>
      match dw_addons v !! name with
      | Some _ => r = Ok tt /\ v' = mkDep (dw_files v) (delete name (dw_addons v)) (dw_objects v) (dw_served v) (dw_walk v)
      | None => r = Err (Api RNotFound) /\ v' = v
      end
  | ServerResources group version => fun r => v' = v /\
      match r with
      | Ok l => forall kind, mkGVK group version kind ∈ dw_served v <-> mkGVK "" "" kind ∈ l
      | Err err => is_not_found err = true /\ forall kind, mkGVK group version kind ∉ dw_served v
      end
  | Apply owner gvks objects => fun r => r = Ok tt /\
      v' = mkDep (dw_files v) (dw_addons v) (<[ad_Name owner := applied gvks objects (owned v (ad_Name owner))]> (dw_objects v)) (dw_served v) (dw_walk v)
  | Walk root => fun r => v' = v /\ r = dw_walk v root
  | _ => fun _ => v' = v
  end x.

(** Add-ons go by their names and have a UID; the kinds of what they own are
    served and in their annotation. *)
Definition addon_ok v (name : string) (a : Addon) : Prop := ad_Name a = name /\ ad_UID a <> "".
Definition tidy v : Prop :=
  map_Forall (addon_ok v) (dw_addons v) /\
  forall name o, o ∈ owned v name -> gvk_of o ∈ dw_served v /\ exists a, dw_addons v !! name = Some a /\ gvk_of o ∈ annotated_gvks a.

(** The kinds the watcher has found are served. *)
Definition cache_ok w v : Prop := w_gvkCache w ⊆ dw_served v.

(** The file at [path] has been deployed: its add-on owns what it says. *)
Definition synced v (path : string) : Prop := forall c objects,
  dw_files v !! path = Some c -> objectSet c = Ok objects ->
  owned v (basename path) = objects /\ exists a, dw_addons v !! basename path = Some a /\ ad_Checksum a = checksum c.

Lemma served_exact group version kind (l : list GVK) :
  mkGVK group version kind ∈ served_kinds (mkGVK group version kind) l <-> mkGVK "" "" kind ∈ l.
Proof.
  unfold served_kinds. rewrite elem_of_list_to_set, list_elem_of_fmap. cbn. split.
  - intros ([g ver k] & [= ->] & [[Hg Hv] Hin]%list_elem_of_filter). cbn in *. by subst.
  - intros H. exists (mkGVK "" "" kind). split; [done|]. by apply list_elem_of_filter.
Qed.

Lemma serverHas_exact w v g : cache_ok w v ->
  wp dep_contract (serverHasGVK w g) (fun o v' => v' = v /\ exists w', cache_ok w' v /\ w_modTime w' = w_modTime w /\
    o = Done (w', Ok (bool_decide (g ∈ dw_served v)))) v.
Proof.
  intros Hc. unfold serverHasGVK. destruct (decide (g ∈ w_gvkCache w)) as [Hg|Hg].
  { apply wp_ret. split; [done|]. exists w. split_and!; [done|done|]. rewrite bool_decide_eq_true_2; [done|]. by apply Hc. }
  eapply wp_call. intros r v1 [-> Hr]. destruct r as [l|err]; apply wp_ret; (split; [done|]).
  - set (w' := with_gvkCache _ w). exists w'. destruct g as [gr ver kind]. split_and!; [|done|].
    + intros g' [Hs|Hs]%elem_of_union; [|by apply Hc]. unfold served_kinds in Hs. rewrite elem_of_list_to_set, list_elem_of_fmap in Hs.
      destruct Hs as ([g2 v2 k2] & -> & [[Hg2 Hv2] Hin]%list_elem_of_filter). cbn in *. subst. by apply Hr.
    + do 3 f_equal. apply bool_decide_ext. cbn. rewrite elem_of_union, served_exact, Hr. naive_solver.
  - destruct Hr as [Hnf Hno]. exists w. split_and!; [done|done|]. rewrite Hnf. destruct g as [gr ver kind].
    by rewrite bool_decide_eq_false_2 by apply Hno.
Qed.

(** The kinds that are looked for are those that are served. *)
Lemma validate_exact w v l : cache_ok w v ->
  wp dep_contract (validateGVKs w l) (fun o v' => v' = v /\ exists w', cache_ok w' v /\ w_modTime w' = w_modTime w /\
    o = Done (w', Ok (filter (fun g => g ∈ dw_served v) l))) v.
Proof.
  revert w. induction l as [|g l IH]; intros w Hc; cbn [validateGVKs]; [apply wp_ret; split; [done|]; by exists w|].
  apply wp_bind. eapply wp_mono; [|by apply serverHas_exact]. cbv beta. intros o v1 (-> & w1 & Hc1 & Hm1 & ->). cbv iota.
  apply wp_bind. eapply wp_mono; [|by apply IH]. cbv beta. intros o v1 (-> & w2 & Hc2 & Hm2 & ->). apply wp_ret. split; [done|].
  exists w2. split_and!; [done|congruence|]. rewrite filter_cons. case_bool_decide; case_decide; done.
Qed.

Lemma checksum_nonempty c : checksum c <> "".
Proof.
  unfold checksum. intros H%(f_equal String.length). by rewrite hex_length, sha256_length in H.
Qed.

(** A deployed manifest, to the field. *)
Definition deployed (path c : string) (objects : list obj) v v' : Prop := exists a,
  ad_Name a = basename path /\ ad_UID a <> "" /\ ad_Source a = path /\ ad_Checksum a = checksum c /\ annotated_gvks a = GVKs objects /\
  v' = mkDep (dw_files v) (<[basename path := a]> (dw_addons v)) (<[basename path := objects]> (dw_objects v)) (dw_served v) (dw_walk v).

(** A manifest that can be applied. *)
Definition good_manifest v (path c : string) (objects : list obj) : Prop :=
  dw_files v !! path = Some c /\ objectSet c = Ok objects /\ Forall gvk_ok (GVKs objects) /\ Forall (fun g => g ∈ dw_served v) (GVKs objects).

(** Nothing of what an add-on owned is left over. *)
Lemma applied_exact v (a : Addon) objects :
  (forall o, o ∈ owned v (ad_Name a) -> gvk_of o ∈ dw_served v /\ gvk_of o ∈ annotated_gvks a) ->
  applied (filter (fun g => g ∈ dw_served v) (GVKs objects ++ annotated_gvks a)) objects (owned v (ad_Name a)) = objects.
Proof.
  intros Ho. unfold applied. enough (filter (fun o => gvk_of o ∉ filter (fun g => g ∈ dw_served v) (GVKs objects ++ annotated_gvks a) ++ GVKs objects) (owned v (ad_Name a)) = []) as -> by apply app_nil_r.
  apply elem_of_nil_inv.
  intros o [Hno Hin]%list_elem_of_filter. apply Hno. destruct (Ho o Hin) as [Hs Ha]. apply elem_of_app. left. apply list_elem_of_filter.
  split; [done|]. apply elem_of_app. by right.
Qed.

(** The end of [deploy]: from an add-on that is on record. *)
Lemma record_exact v0 v path c objects (a : Addon) cached :
  Forall gvk_ok (GVKs objects) -> ad_Name a = basename path -> ad_UID a <> "" -> ad_Source a = path ->
  (exists b, ad_Name b = basename path /\ dw_addons v = <[basename path := b]> (dw_addons v0)) ->
  dw_files v = dw_files v0 -> dw_objects v = <[basename path := objects]> (dw_objects v0) -> dw_served v = dw_served v0 -> dw_walk v = dw_walk v0 ->
  wp dep_contract (record_addon cached (checksum c) objects a) (fun o v' => o = Done (Ok tt) /\ deployed path c objects v0 v') v.
Proof.
  intros Hg Hn Hu Hs (b & Hbn & Hb) Hf Ho Hsv Hwk. unfold record_addon.
  set (a' := mkAddon (ad_Name a) _ _ _ _).
  assert (forall v1, dw_files v1 = dw_files v0 -> dw_objects v1 = <[basename path := objects]> (dw_objects v0) -> dw_served v1 = dw_served v0 -> dw_walk v1 = dw_walk v0 ->
    (exists b, dw_addons v1 = <[basename path := b]> (dw_addons v0)) -> deployed path c objects v0 (set_addon a' v1)) as Hend.
  { intros v1 E1 E2 E3 E5 (b1 & E4). exists a'. split_and!; try done.
    - apply annotation_read; [done|]. cbn. by rewrite lookup_insert_eq.
    - unfold set_addon. rewrite E1, E2, E3, E4, E5. cbn. by rewrite Hn, insert_insert_eq. }
  apply wp_bind. destruct (cached && _).
  - eapply wp_call. intros [] v1 ->. rewrite Hb, Hn, lookup_insert_eq. intros r v2 [-> ->]. split; [done|].
    apply Hend; try done. cbn. eexists. rewrite Hb, Hbn. by rewrite insert_insert_eq.
  - apply wp_ret. intros r v2 [-> ->]. split; [done|]. apply Hend; eauto.
Qed.

(** The add-on of a manifest as [deploy] finds it. *)
Lemma get_addon_exact v name : tidy v ->
  wp dep_contract (getOrCreateAddon name) (fun o v' => v' = v /\ exists a, o = Done (Ok a) /\ ad_Name a = name /\
    match dw_addons v !! name with Some b => a = b /\ is_cached a = true | None => a = NewAddon name end) v.
Proof.
  intros [Hok _]. unfold getOrCreateAddon. eapply wp_call. intros r v1 [-> ->]. apply wp_ret. split; [done|].
  destruct (dw_addons v !! name) as [b|] eqn:E; [|by exists (NewAddon name)].
  exists b. destruct (Hok name b E) as [Hn Hu]. split_and!; [done..|]. by apply bool_decide_eq_true_2.
Qed.

(** What an add-on owns is of kinds that are looked for. *)
Lemma tidy_owned v name a o : tidy v -> o ∈ owned v name -> default (NewAddon name) (dw_addons v !! name) = a ->
  gvk_of o ∈ dw_served v /\ gvk_of o ∈ annotated_gvks a.
Proof. intros [_ Ho] Hin Ha. destruct (Ho name o Hin) as (Hs & b & Hb & Hg). rewrite Hb in Ha. cbn in Ha. by subst b. Qed.

(** What deploying a manifest ends in: it is applied and on record, or it was
    already. *)
Definition deploy_post w v path c objects (cmp : bool) : outcome (watcher * res unit) -> DepWorld -> Prop := fun o v' =>
  exists w', o = Done (w', Ok tt) /\ w_modTime w' = w_modTime w /\ cache_ok w' v /\
    (deployed path c objects v v' \/
     v' = v /\ cmp = true /\ exists a, dw_addons v !! basename path = Some a /\ ad_Checksum a = checksum c).

Lemma deploy_content_ok w v v1 path c objects cmp cached (a a2 : Addon) :
  cache_ok w v -> good_manifest v path c objects ->
  (forall o, o ∈ owned v (basename path) -> gvk_of o ∈ dw_served v /\ gvk_of o ∈ annotated_gvks a2) ->
  ad_Name a2 = basename path -> ad_UID a2 <> "" -> ad_Source a2 = path ->
  (v1 = v /\ dw_addons v !! basename path = Some a /\ ad_Name a = basename path /\ ad_Checksum a2 = ad_Checksum a \/ v1 = set_addon a2 v /\ ad_Checksum a2 = "") ->
  wp dep_contract (deploy_content w path cmp cached a2) (deploy_post w v path c objects cmp) v1.
Proof.
  intros Hc (Hf & Hobj & Hgo & Hsv) Hown Hn2 Hu2 Hs2 Hv1.
  assert (dw_files v1 = dw_files v /\ dw_objects v1 = dw_objects v /\ dw_served v1 = dw_served v /\ dw_walk v1 = dw_walk v) as (Ef & Eo & Es & Ew).
  { destruct Hv1 as [(-> & _)|[-> _]]; done. }
  eapply wp_call. intros r v2 [-> Hr]. rewrite Ef, Hf in Hr. subst r. cbv iota.
  destruct (cmp && bool_decide (checksum c = ad_Checksum a2)) eqn:Hcmp.
  - apply andb_true_iff in Hcmp as [-> Hsum]. cbv zeta. rewrite Hsum. apply bool_decide_eq_true in Hsum. apply wp_ret. exists w. split_and!; [done..|]. right.
    destruct Hv1 as [(-> & Hin & _ & Hsa)|[_ Hno]]; [split_and!; [done..|]; exists a; split; [done|congruence]|].
    exfalso. by apply (checksum_nonempty c); congruence.
  - cbv zeta. rewrite Hcmp, Hobj. apply wp_bind. eapply wp_mono; [|apply (validate_exact w v1)]; [|unfold cache_ok; by rewrite Es].
    cbv beta. intros o v2 (-> & w2 & Hc2 & Hm2 & ->). cbv beta iota. rewrite Es.
    eapply wp_call. intros r v2 [-> ->]. cbv iota. apply wp_bind. rewrite Hn2.
    eapply wp_mono; [|apply (record_exact v _ path c objects a2 cached)]; try done.
    + cbv beta. intros o v3 [-> Hd]. apply wp_ret. exists w2. split_and!; [done..| |by left].
      intros g Hin. rewrite <- Es. by apply Hc2.
    + destruct Hv1 as [(-> & Hin & Hn & _)|[-> _]].
      * exists a. split; [done|]. cbn. by rewrite insert_id.
      * exists a2. split; [done|]. cbn. by rewrite Hn2.
    + cbn. rewrite Eo. f_equal. unfold owned. rewrite Eo. fold (owned v (basename path)).
      rewrite <- Hn2. rewrite applied_exact; [done|]. by rewrite Hn2.
Qed.

Lemma deploy_ok w v path c objects cmp : tidy v -> cache_ok w v -> good_manifest v path c objects ->
  wp dep_contract (deploy w path cmp) (deploy_post w v path c objects cmp) v.
Proof.
  intros Ht Hc Hg. unfold deploy. apply wp_bind. eapply wp_mono; [|by apply get_addon_exact].
  cbv beta. intros o v0 (-> & a & -> & Hn & Ha). cbv iota.
  assert (forall o, o ∈ owned v (basename path) -> gvk_of o ∈ dw_served v /\ gvk_of o ∈ annotated_gvks a) as Hown.
  { intros o Ho. eapply tidy_owned; [done|exact Ho|]. by destruct (dw_addons v !! basename path) as [b|]; [destruct Ha|]. }
  apply wp_bind. destruct (dw_addons v !! basename path) as [b|] eqn:Eb.
  - destruct Ha as [<- Hca]. rewrite Hca. apply wp_ret. cbv iota.
    apply (deploy_content_ok w v v path c objects cmp true a); try done; [by apply bool_decide_eq_true in Hca|]. by left.
  - subst a. unfold is_cached. cbn [ad_UID NewAddon]. rewrite bool_decide_eq_false_2 by (intros H; by apply H).
    intros r v1 (uid & Huid & -> & ->). cbv iota. apply (deploy_content_ok w v _ path c objects cmp false (NewAddon (basename path))); try done. by right.
Qed.

Lemma owned_deployed path c objects v v' name : deployed path c objects v v' ->
  owned v' name = if decide (name = basename path) then objects else owned v name.
Proof.
  intros (a & _ & _ & _ & _ & _ & ->). unfold owned. cbn. case_decide as Hn.
  - subst name. by rewrite lookup_insert_eq.
  - by rewrite lookup_insert_ne.
Qed.

(** Of a deployed manifest everything is known; of the rest nothing changes. *)
Lemma deployed_frame path c objects v v' : deployed path c objects v v' ->
  dw_files v' = dw_files v /\ dw_served v' = dw_served v /\
  forall name, name <> basename path -> owned v' name = owned v name /\ dw_addons v' !! name = dw_addons v !! name.
Proof.
  intros Hd. split_and!; [by destruct Hd as (? & _ & _ & _ & _ & _ & ->)..|]. intros name Hn.
  split; [rewrite (owned_deployed _ _ _ _ _ _ Hd); by case_decide|].
  destruct Hd as (a & _ & _ & _ & _ & _ & ->). cbn. by rewrite lookup_insert_ne.
Qed.

Lemma deployed_tidy path c objects v v' : tidy v -> good_manifest v path c objects -> deployed path c objects v v' -> tidy v'.
Proof.
  intros [Hok Ho] (_ & _ & _ & Hsv) Hd. split.
  - destruct Hd as (a & Hn & Hu & _ & _ & _ & ->). cbn. apply map_Forall_insert_2; [done|].
    eapply map_Forall_impl; [exact Hok|done].
  - intros name o Hin. rewrite (owned_deployed _ _ _ _ _ _ Hd) in Hin. destruct (deployed_frame _ _ _ _ _ Hd) as (_ & -> & Hf).
    case_decide as Hn.
    + assert (gvk_of o ∈ GVKs objects) as Hg by (apply elem_of_GVKs; by exists o). split; [by eapply Forall_forall in Hsv|].
      destruct Hd as (a & _ & _ & _ & _ & Hg' & ->). exists a. cbn. subst name. by rewrite lookup_insert_eq, Hg'.
    + destruct (Ho name o Hin) as (Hs & a & Ha & Hg). split; [done|]. exists a. by rewrite (proj2 (Hf name Hn)).
Qed.

Lemma deployed_synced path c objects v v' : good_manifest v path c objects -> deployed path c objects v v' -> synced v' path.
Proof.
  intros (Hf & Hobj & _) Hd c' objects' Hf' Hobj'. destruct (deployed_frame _ _ _ _ _ Hd) as (Ef & _ & _). rewrite Ef in Hf'.
  rewrite Hf in Hf'. injection Hf' as <-. rewrite Hobj in Hobj'. injection Hobj' as <-.
  rewrite (owned_deployed _ _ _ _ _ _ Hd), decide_True by done. split; [done|].
  destruct Hd as (a & _ & _ & _ & Hs & _ & ->). exists a. cbn. by rewrite lookup_insert_eq.
Qed.

(** A manifest that the watcher skips was applied: one whose time it has
    recorded, or whose content is the one of the add-on. *)
Definition current (force : bool) w v (x : string * FileInfo) : Prop := force = false ->
  fi_ModTime x.2 = default zero_time (w_modTime w !! x.1) \/
  (exists a c, dw_addons v !! basename x.1 = Some a /\ dw_files v !! x.1 = Some c /\ ad_Checksum a = checksum c) ->
  synced v x.1.

Definition live (skips : gset string) (l : list (string * FileInfo)) : list (string * FileInfo) :=
  filter (fun x => shouldSkipFile (fi_Name x.2) skips = false) l.

(** A step of the pass leaves what is ahead as it was. *)
Lemma later_manifest force w v w' v' x (path : string) t :
  dw_files v' = dw_files v -> dw_served v' = dw_served v ->
  (forall name, name <> basename path -> owned v' name = owned v name /\ dw_addons v' !! name = dw_addons v !! name) ->
  (w_modTime w' = w_modTime w \/ w_modTime w' = <[path := t]> (w_modTime w)) -> basename x.1 <> basename path ->
  (exists c objects, good_manifest v x.1 c objects) /\ current force w v x ->
  (exists c objects, good_manifest v' x.1 c objects) /\ current force w' v' x.
Proof.
  intros Ef Es Hfr Hm Hb [(c & objects & Hg) Hcur]. destruct (Hfr _ Hb) as [Ho Ha]. split.
  - exists c, objects. unfold good_manifest in *. by rewrite Ef, Es.
  - intros Hforce Hor. unfold synced. rewrite Ef, Ho, Ha. apply Hcur; [done|]. rewrite Ef, Ha in Hor.
    destruct Hor as [Ht|Hc]; [left|by right]. rewrite Ht. destruct Hm as [->|Hm]; [done|]. rewrite Hm, lookup_insert_ne; [done|].
    intros ->. by apply Hb.
Qed.

(** A pass, in the order of the files. *)
Definition pass_post w v skips (l : list (string * FileInfo)) : outcome (watcher * bool) -> DepWorld -> Prop := fun o v' =>
  exists w', o = Done (w', true) /\ tidy v' /\ cache_ok w' v' /\ dw_files v' = dw_files v /\ dw_served v' = dw_served v /\
    (forall x, x ∈ live skips l -> synced v' x.1 /\ default zero_time (w_modTime w' !! x.1) = fi_ModTime x.2) /\
    (forall path, path ∉ (live skips l).*1 -> w_modTime w' !! path = w_modTime w !! path) /\
    (forall name, name ∉ (fun x => basename x.1) <$> live skips l -> owned v' name = owned v name /\ dw_addons v' !! name = dw_addons v !! name).

Lemma live_cons skips (x : string * FileInfo) l : live skips (x :: l) = if shouldSkipFile (fi_Name x.2) skips then live skips l else x :: live skips l.
Proof. unfold live. rewrite filter_cons. by destruct (shouldSkipFile _ _). Qed.

(** A file that is as it should be, before the rest of the pass. *)
Lemma pass_head w v w1 v1 skips x l :
  shouldSkipFile (fi_Name x.2) skips = false -> basename x.1 ∉ (fun x => basename x.1) <$> live skips l ->
  dw_files v1 = dw_files v -> dw_served v1 = dw_served v -> synced v1 x.1 -> default zero_time (w_modTime w1 !! x.1) = fi_ModTime x.2 ->
  (forall path, path <> x.1 -> w_modTime w1 !! path = w_modTime w !! path) ->
  (forall name, name <> basename x.1 -> owned v1 name = owned v name /\ dw_addons v1 !! name = dw_addons v !! name) ->
  forall o v', pass_post w1 v1 skips l o v' -> pass_post w v skips (x :: l) o v'.
Proof.
  intros Hskip Hnot Ef Es Hsync Hm Hmf Hf o v' (w' & -> & Ht & Hc & Ef' & Es' & Hl & Hmr & Hr).
  assert (x.1 ∉ (live skips l).*1) as Hx.
  { intros (y & Ey & Hy)%list_elem_of_fmap. apply Hnot. apply list_elem_of_fmap. exists y. by rewrite Ey. }
  exists w'. split_and!; [done|done|done|congruence|congruence| | |]; rewrite live_cons, Hskip.
  - intros y [->|Hy]%elem_of_cons; [|by apply Hl]. split; [|by rewrite (Hmr _ Hx)]. destruct (Hr _ Hnot) as [Ho Ha].
    intros c objects Hc1 Ho1. rewrite Ho, Ha. apply Hsync; [by rewrite <- Ef'|done].
  - intros path [Hne Hp]%not_elem_of_cons. by rewrite (Hmr _ Hp), Hmf.
  - intros name [Hne Hn]%not_elem_of_cons. destruct (Hr _ Hn) as [-> ->]. by apply Hf.
Qed.

Lemma each_file_ok base disables skips force l w v :
  tidy v -> cache_ok w v -> Forall (fun x => shouldDisableFile base x.1 disables = false) l ->
  NoDup ((fun x => basename x.1) <$> live skips l) ->
  Forall (fun x => (exists c objects, good_manifest v x.1 c objects) /\ current force w v x) (live skips l) ->
  wp dep_contract (each_file base disables skips force l w) (pass_post w v skips l) v.
Proof.
  revert w v. induction l as [|x l IH]; intros w v Ht Hc Hd Hnd Hg.
  { apply wp_ret. exists w. split_and!; try done. by intros x Hx%elem_of_nil. }
  apply Forall_cons in Hd as [Hdx Hd]. rewrite live_cons in Hnd, Hg. destruct x as [path info]. cbn [fst snd each_file] in *. rewrite Hdx.
  destruct (shouldSkipFile (fi_Name info) skips) eqn:Hskip.
  { eapply wp_mono; [|by apply IH]. intros o v' H. unfold pass_post. rewrite live_cons. cbn [snd]. by rewrite Hskip. }
  apply Forall_cons in Hg as [[(c & objects & Hgood) Hcur] Hg]. cbn [fst] in *. rewrite fmap_cons in Hnd. apply NoDup_cons in Hnd as [Hnot Hnd].
  pose proof Hgood as (Hf & Hobj & _ & _).
  destruct (negb force && bool_decide (fi_ModTime info = default zero_time (w_modTime w !! path))) eqn:Hsame.
  { apply andb_true_iff in Hsame as [Hforce%negb_true_iff Ht0%bool_decide_eq_true].
    eapply wp_mono; [|by apply IH]. apply (pass_head w v w v skips (path, info)); try done. apply Hcur; [done|by left]. }
  apply wp_bind. eapply wp_mono; [|by apply (deploy_ok w v path c objects)]. cbv beta.
  intros o v1 (w1 & -> & Hm1 & Hc1 & Hpost). cbv iota zeta. cbn [snd fst is_ok].
  assert (tidy v1 /\ synced v1 path /\ dw_files v1 = dw_files v /\ dw_served v1 = dw_served v /\
    forall name, name <> basename path -> owned v1 name = owned v name /\ dw_addons v1 !! name = dw_addons v !! name) as (Ht1 & Hs1 & Ef & Es & Hfr).
  { destruct Hpost as [Hdep|(-> & Hforce%negb_true_iff & a & Ha & Hsum)].
    - split_and!; [by eapply deployed_tidy|by eapply deployed_synced|by apply (deployed_frame _ _ _ _ _ Hdep)..].
    - split_and!; try done. apply Hcur; [done|]. right. by exists a, c. }
  set (w2 := with_modTime _ w1). apply wp_bind. eapply wp_mono; [|apply (IH w2 v1)]; try done.
  - cbv beta. intros o v' Hpp. destruct Hpp as (w' & -> & Hrest). apply wp_ret. cbn.
    apply (pass_head w v w2 v1 skips (path, info)); try done.
    + cbn. by rewrite lookup_insert_eq.
    + intros p Hp. cbn. rewrite lookup_insert_ne by done. by rewrite Hm1.
    + by exists w'.
  - unfold cache_ok. by rewrite Es.
  - apply Forall_forall. intros x Hx. apply (later_manifest force w v w2 v1 x path (fi_ModTime info)); try done.
    + right. cbn. by rewrite Hm1.
    + intros E. apply Hnot. apply list_elem_of_fmap. exists x. by rewrite E.
    + rewrite Forall_forall in Hg. by apply Hg.
Qed.

(** The entries of a walk, where none is a link or unreadable. *)
Lemma walk_files_plain (l : list (string * FileInfo)) files v :
  Forall (fun x => fi_Symlink x.2 = false) l ->
  wp dep_contract (walk_files ((fun x => (x.1, Ok x.2)) <$> l) files)
    (fun o v' => v' = v /\ o = Done (Ok (foldl (fun m x => <[x.1 := x.2]> m) files l))) v.
Proof.
  intros Hl. revert files. induction Hl as [|[path info] l Hx Hl IH]; intros files; [by apply wp_ret|].
  cbn in Hx. cbn [fmap list_fmap walk_files fst snd foldl]. rewrite Hx. apply IH.
Qed.

(** The files of a walk. *)
Definition found (l : list (string * FileInfo)) : gmap string FileInfo := foldl (fun m x => <[x.1 := x.2]> m) ∅ l.

(** ** The manifests of a directory *)

Lemma has_suffix_iff suffix (s : string) : has_suffix suffix s = true <-> exists a, s = a +:+ suffix.
Proof.
  induction s as [|c s IH]; cbn [has_suffix]; rewrite orb_true_iff, bool_decide_eq_true; split.
  - intros [<-|?]; [by exists ""|done].
  - intros (a & E). left. destruct a; [by rewrite append_nil_l in E|done].
  - intros [<-|(a & ->)%IH]; [by exists ""|by exists (String c a)].
  - intros ([|d a] & E); [left; by rewrite append_nil_l in E|]. right. rewrite append_cons in E. injection E as -> ->. apply IH. by exists a.
Qed.

Lemma trim_suffix_app suffix (a : string) : trim_suffix suffix (a +:+ suffix) = a.
Proof.
  induction a as [|c a IH].
  - rewrite append_nil_l. destruct suffix as [|c r]; [done|]. cbn [trim_suffix]. by rewrite decide_True.
  - rewrite append_cons. cbn [trim_suffix]. rewrite decide_False; [by rewrite IH|].
    intros E%(f_equal String.length). cbn in E. rewrite length_append in E. lia.
Qed.

(** A file of the walk that is applied: the last entry of its path, with a
    name that is not hidden and ends like a manifest, and no file of the same
    name with [.skip] behind it. *)
Definition manifest (l : list (string * FileInfo)) (x : string * FileInfo) : Prop :=
  found l !! x.1 = Some x.2 /\ has_prefix (fi_Name x.2) "." = false /\
  (exists a e, fi_Name x.2 = a +:+ e /\ ToLower e ∈ [".yaml"; ".yml"; ".json"]) /\
  ~ exists path info, found l !! path = Some info /\ fi_Name info = fi_Name x.2 +:+ ".skip".

Lemma ToLower_app (a b : string) : ToLower (a +:+ b) = ToLower a +:+ ToLower b.
Proof. induction a as [|c a IH]; [done|]. rewrite append_cons. unfold ToLower in *. cbn [map_str]. by rewrite IH. Qed.

Lemma ToLower_split (s a e : string) : ToLower s = a +:+ e -> exists a' e', s = a' +:+ e' /\ ToLower e' = e.
Proof.
  revert a. induction s as [|c s IH]; intros a E.
  - destruct a; [|done]. rewrite append_nil_l in E. exists "", "". by split.
  - destruct a as [|d a].
    + exists "", (String c s). by rewrite append_nil_l in E |- *.
    + rewrite append_cons in E. unfold ToLower in *. cbn [map_str] in E. injection E as _ E. destruct (IH a E) as (a' & e' & -> & He). by exists (String c a'), e'.
Qed.

Lemma manifest_name (s : string) : HasSuffixI s yaml_suffixes = true <-> exists a e, s = a +:+ e /\ ToLower e ∈ [".yaml"; ".yml"; ".json"].
Proof.
  unfold HasSuffixI. rewrite existsb_exists. split.
  - intros (suffix & Hin%list_elem_of_In & (a & E)%has_suffix_iff). destruct (ToLower_split s a _ E) as (a' & e' & -> & He).
    exists a', e'. split; [done|]. rewrite He. revert Hin. unfold yaml_suffixes.
    by intros [->|[->|[->|[]%elem_of_nil]%elem_of_cons]%elem_of_cons]%elem_of_cons; [left|right; left|right; right; left].
  - intros (a & e & -> & He). exists (ToLower e). split; [by apply list_elem_of_In|]. apply has_suffix_iff. exists (ToLower a).
    rewrite ToLower_app. f_equal.
    by apply elem_of_cons in He as [->|[->|[->|[]%elem_of_nil]%elem_of_cons]%elem_of_cons].
Qed.

Lemma elem_of_sorted_files m x : x ∈ sorted_files m <-> m !! x.1 = Some x.2.
Proof.
  unfold sorted_files. rewrite list_elem_of_omap. destruct x as [path info]. cbn. split.
  - intros (p & _ & E). destruct (m !! p) as [i|] eqn:Ep; [|done]. by injection E as -> ->.
  - intros E. exists path. rewrite sort_strings_perm, list_elem_of_fmap. split; [|by rewrite E].
    exists (path, info). split; [done|]. by apply elem_of_map_to_list.
Qed.

Lemma elem_of_skip_names m name : name ∈ skip_names m <-> exists path info, m !! path = Some info /\ fi_Name info = name +:+ ".skip".
Proof.
  unfold skip_names. rewrite elem_of_list_to_set, list_elem_of_omap. split.
  - intros ([path info] & Hin%elem_of_map_to_list & E). cbn in E. destruct (has_suffix ".skip" (fi_Name info)) eqn:Es; [|done].
    apply has_suffix_iff in Es as (a & Ea). rewrite Ea, trim_suffix_app in E. injection E as <-. by exists path, info.
  - intros (path & info & Hin & E). exists (path, info). split; [by apply elem_of_map_to_list|]. cbn.
    assert (has_suffix ".skip" (fi_Name info) = true) as -> by (apply has_suffix_iff; by exists name). by rewrite E, trim_suffix_app.
Qed.

Lemma live_manifest l x : x ∈ live (skip_names (found l)) (sorted_files (found l)) <-> manifest l x.
Proof.
  unfold live. rewrite list_elem_of_filter, elem_of_sorted_files. unfold shouldSkipFile, manifest. rewrite <- manifest_name.
  destruct (has_prefix (fi_Name x.2) ".") eqn:Ep; [naive_solver|].
  case_decide as Es; rewrite elem_of_skip_names in Es; [naive_solver|]. rewrite negb_false_iff. naive_solver.
Qed.

Lemma sorted_files_NoDup m : NoDup (sorted_files m).
Proof.
  unfold sorted_files. assert (NoDup (sort_strings (map_to_list m).*1)) as H by (rewrite sort_strings_perm; apply NoDup_fst_map_to_list).
  induction H as [|p l Hp Hl IH]; [constructor|]. cbn. destruct (m !! p) as [i|]; cbn; [|done]. constructor; [|done].
  intros (q & Hq & E)%list_elem_of_omap. destruct (m !! q); [|done]. by injection E as -> _.
Qed.

Lemma NoDup_map_on {A B} (f : A -> B) (l : list A) : NoDup l -> (forall x y, x ∈ l -> y ∈ l -> f x = f y -> x = y) -> NoDup (f <$> l).
Proof.
  induction 1 as [|x l Hx Hl IH]; intros Hf; [constructor|]. cbn. constructor.
  - intros (y & E & Hy)%list_elem_of_fmap. apply Hx. rewrite (Hf x y); [done|by left|by right|done].
  - apply IH. intros y z Hy Hz. apply Hf; by right.
Qed.

(** C9. One pass over a directory whose walk meets no error and no link, when
    every request is served and the cached add-ons are those of the API
    server, whose add-ons have names, UIDs and the kinds of what they own in
    their annotation.  Let no file be disabled, no two manifests have the same
    base name - such two are one add-on -, every manifest parse into objects
    of kinds that are served, and let those that the watcher takes for
    unchanged have been applied before.  Then the pass succeeds.  The add-on
    named after a manifest owns exactly the objects of the file, so that what
    is gone from it has been pruned, kinds that are gone altogether included,
    and has the checksum of its content; the times of the manifests are
    recorded, so that the next pass skips them; and add-ons that no manifest
    is named after stay as they were, with what they own. *)
Theorem manifests_applied disables base force w v (l : list (string * FileInfo)) :
  tidy v -> cache_ok w v -> dw_walk v base = (fun x => (x.1, Ok x.2)) <$> l -> Forall (fun x => fi_Symlink x.2 = false) l ->
  (forall path, is_Some (found l !! path) -> shouldDisableFile base path disables = false) ->
  (forall x y, manifest l x -> manifest l y -> basename x.1 = basename y.1 -> x = y) ->
  (forall x, manifest l x -> (exists c objects, good_manifest v x.1 c objects) /\ current force w v x) ->
  wp dep_contract (listFilesIn disables base force w) (fun o v' => exists w', o = Done (w', true) /\ dw_files v' = dw_files v /\
    (forall x, manifest l x -> default zero_time (w_modTime w' !! x.1) = fi_ModTime x.2 /\
      exists c objects a, dw_files v !! x.1 = Some c /\ objectSet c = Ok objects /\ owned v' (basename x.1) = objects /\
        dw_addons v' !! basename x.1 = Some a /\ ad_Checksum a = checksum c) /\
    (forall name, (forall x, manifest l x -> basename x.1 <> name) -> owned v' name = owned v name /\ dw_addons v' !! name = dw_addons v !! name)) v.
Proof.
  intros Ht Hc Hw Hl Hd Hnd Hg. set (todo := sorted_files (found l)). set (skips := skip_names (found l)).
  assert (forall x, x ∈ live skips todo <-> manifest l x) as Hm by (intros x; apply live_manifest).
  eapply (wp_mono _ _ (pass_post w v skips todo)).
  - intros o v' (w' & -> & _ & _ & Ef & _ & Hlive & _ & Hrest). exists w'. split_and!; [done|done| |].
    + intros x Hx. destruct (Hlive x) as [Hs Hmod]; [by apply Hm|]. split; [done|]. destruct (Hg x Hx) as [(c & objects & Hgood) _].
      destruct Hgood as (Hfile & Hobj & _). rewrite <- Ef in Hfile. destruct (Hs c objects Hfile Hobj) as (Ho & a & Ha & Hsum).
      rewrite Ef in Hfile. by exists c, objects, a.
    + intros name Hname. apply Hrest. intros (x & -> & Hx)%list_elem_of_fmap. by apply (Hname x); [apply Hm|].
  - unfold listFilesIn. eapply wp_call. intros r v1 [-> ->]. rewrite Hw.
    apply wp_bind. eapply wp_mono; [|by apply walk_files_plain]. cbv beta. intros o v1 [-> ->]. cbv iota.
    fold (found l). fold skips. fold todo. apply each_file_ok; [done|done| | |].
    + apply Forall_forall. intros x Hx%elem_of_sorted_files. apply Hd. by eexists.
    + apply NoDup_map_on; [|intros x y ?%Hm ?%Hm; by apply Hnd]. apply NoDup_filter, sorted_files_NoDup.
    + apply Forall_forall. intros x ?%Hm. by apply Hg.
Qed.

End laws.

(** ** A cluster to look at *)

(** Manifests of one document, with an object to a line: the group and
    version, the kind and the name. *)
Definition slash_char : Ascii.ascii := Ascii.ascii_of_nat 47.
Definition line_end : Ascii.ascii := Ascii.ascii_of_nat 10.
Definition plain_object (line : string) : option (GVK * string) :=
  match split_on (Ascii.ascii_of_nat 32) line with
  | [gv; kind; name] => let '(group, version) := cut_at slash_char gv in Some (mkGVK group (default "" version) kind, name)
  | _ => None
  end.

#[local] Instance plain_manifests : Manifests.
Proof.
  refine (mkManifests (GVK * string) fst (fun c => ([c], None)) (fun c => Ok (omap plain_object (split_on line_end c)))
    (fun l => l.*1) _ (fun gv => let '(group, version) := cut_at slash_char gv in (group, default "" version))).
  intros l g. rewrite list_elem_of_fmap. naive_solver.
Defined.

Definition live_dep : handler depE DepWorld := fun X e v =>
  match e in depE X return X * DepWorld with
  | Walk root => (dw_walk v root, v)
  | StatIsDir p => (Err (Plain "read"), v)
  | EvalSymlinks p => (Err (Plain "read"), v)
  | ReadManifest p => (match dw_files v !! p with Some c => Ok c | None => Err (Plain "read") end, v)
  | RemoveFile p => (Ok tt, mkDep (delete p (dw_files v)) (dw_addons v) (dw_objects v) (dw_served v) (dw_walk v))
  | CachedAddon name => (match dw_addons v !! name with Some a => Ok a | None => Err (Api RNotFound) end, v)
  | ShareAnnotation name gvks =>
      (tt, match dw_addons v !! name with
           | Some a => set_addon (mkAddon (ad_Name a) (ad_UID a) (ad_Source a) (ad_Checksum a)
                         (Some (<[GVKAnnotation := gvks]> (default ∅ (ad_Annotations a))))) v
           | None => v
           end)
  | CreateAddon a => let a' := mkAddon (ad_Name a) "uid" (ad_Source a) (ad_Checksum a) (ad_Annotations a) in (Ok a', set_addon a' v)
  | UpdateAddon a => (Ok tt, set_addon a v)
  | DeleteAddon name =>
      match dw_addons v !! name with
      | Some _ => (Ok tt, mkDep (dw_files v) (delete name (dw_addons v)) (dw_objects v) (dw_served v) (dw_walk v))
      | None => (Err (Api RNotFound), v)
      end
  | ServerResources group version =>
      (Ok ((fun g => mkGVK "" "" (g_Kind g)) <$> filter (fun g => g_Group g = group /\ g_Version g = version) (elements (dw_served v))), v)
  | Apply owner gvks objects =>
      (Ok tt, mkDep (dw_files v) (dw_addons v) (<[ad_Name owner := applied gvks objects (owned v (ad_Name owner))]> (dw_objects v)) (dw_served v) (dw_walk v))
  end.

Lemma live_dep_ok : respects live_dep (fun v => v) dep_contract.
Proof.
  intros X e v. destruct e; cbn; try done.
  - split; [done|]. by destruct (dw_files v !! p).
  - by exists "uid".
  - by destruct (dw_addons v !! name).
  - split; [done|]. intros kind. rewrite list_elem_of_fmap. split.
    + intros H. exists (mkGVK group version kind). split; [done|]. apply list_elem_of_filter. by rewrite elem_of_elements.
    + intros ([g ver k] & [= ->] & [[Hg Hv] Hin]%list_elem_of_filter). cbn in *. subst. by rewrite elem_of_elements in Hin.
Qed.

Definition cm_kind : GVK := mkGVK "" "v1" "ConfigMap".
Definition secret_kind : GVK := mkGVK "" "v1" "Secret".
Definition dep_lines (l : list string) : string := join_with (String line_end "") l.
Definition manifest_a : string := "/m/a.yaml".
Definition info_at (t : Z) : FileInfo := mkInfo "a.yaml" t false.

(** The manifest was applied with a secret and a config map; the secret is gone
    from the file. *)
Definition edited : DepWorld :=
  mkDep {[manifest_a := dep_lines ["/v1 ConfigMap x"]]}
    {["a" := mkAddon "a" "uid" manifest_a "old" (Some {[GVKAnnotation := getGVKString [cm_kind; secret_kind]]})]}
    {["a" := [(cm_kind, "x"); (secret_kind, "y")]]} {[cm_kind; secret_kind]} (fun _ => [(manifest_a, Ok (info_at 2))]).

Definition watching : watcher := mkWatcher {[manifest_a := 1%Z]} ∅.

Example removed_kind_pruned :
  let r := run live_dep (listFilesIn ∅ "/m" false watching) edited in
  dw_objects (snd r) = {["a" := [(cm_kind, "x")]]} /\
  match fst r with Done (w, ok) => ok && bool_decide (w_modTime w = {[manifest_a := 2%Z]}) | Panicked => false end = true.
Proof. split; vm_compute; reflexivity. Qed.

Lemma manifests_applied_witness :
  wp dep_contract (listFilesIn ∅ "/m" false watching) (fun o v' => exists w', o = Done (w', true) /\ dw_files v' = dw_files edited /\
    (forall x, manifest [(manifest_a, info_at 2)] x -> default zero_time (w_modTime w' !! x.1) = fi_ModTime x.2 /\
      exists c objects a, dw_files edited !! x.1 = Some c /\ objectSet c = Ok objects /\ owned v' (basename x.1) = objects /\
        dw_addons v' !! basename x.1 = Some a /\ ad_Checksum a = checksum c) /\
    (forall name, (forall x, manifest [(manifest_a, info_at 2)] x -> basename x.1 <> name) ->
      owned v' name = owned edited name /\ dw_addons v' !! name = dw_addons edited !! name)) edited.
Proof.
  assert (forall x, manifest [(manifest_a, info_at 2)] x -> x = (manifest_a, info_at 2)) as Hone.
  { intros [path info] [Hf _]. cbn in Hf. apply lookup_insert_Some in Hf as [[<- <-]|[_ Hf]]; [done|]. by rewrite lookup_empty in Hf. }
  apply (manifests_applied ∅ "/m" false watching edited [(manifest_a, info_at 2)]).
  - split.
    + intros name a Ha. cbn in Ha. apply lookup_singleton_Some in Ha as [<- <-]. by split.
    + intros name o. unfold owned. cbn. destruct (decide (name = "a")) as [->|Hn].
      * rewrite lookup_singleton_eq. cbn. unfold id. intros [->|[->|[]%elem_of_nil]%elem_of_cons]%elem_of_cons;
          (split; [cbn; set_solver|]); eexists; (split; [by rewrite lookup_singleton_eq|]);
          apply (bool_decide_unpack _); vm_compute; exact I.
      * rewrite lookup_singleton_ne by done. by intros []%elem_of_nil.
  - by intros g Hg%elem_of_empty.
  - reflexivity.
  - by repeat constructor.
  - intros path [info Hf]. cbn in Hf. apply lookup_insert_Some in Hf as [[<- <-]|[_ Hf]]; [done|]. by rewrite lookup_empty in Hf.
  - intros x y ->%Hone ->%Hone. done.
  - intros x ->%Hone. split.
    + exists (dep_lines ["/v1 ConfigMap x"]), [(cm_kind, "x")]. split_and!; [reflexivity|vm_compute; reflexivity| |].
      * constructor; [|constructor]. split_and!; reflexivity.
      * constructor; [cbn; set_solver|constructor].
    + intros _ [H|(a & c & Ha & Hc & Hsum)]; [vm_compute in H; discriminate|].
      assert (a = mkAddon "a" "uid" manifest_a "old" (Some {[GVKAnnotation := getGVKString [cm_kind; secret_kind]]})) as ->
        by (injection Ha as <-; reflexivity).
      injection Hc as <-. vm_compute in Hsum. discriminate.
Defined.

(** A manifest of a disabled component is deleted in two passes: the first
    deletes the add-on and with it the annotation, the second looks only for
    the kinds that are in the file.  The secret stays. *)
Example disabled_manifest_orphans_kinds :
  let pass := listFilesIn {["a"]} "/m" false in
  let r1 := run live_dep (pass watching) edited in
  let r2 := run live_dep (pass watching) (snd r1) in
  dw_addons (snd r1) = ∅ /\ dw_objects (snd r1) = dw_objects edited /\
  dw_files (snd r2) = ∅ /\ dw_objects (snd r2) = {["a" := [(secret_kind, "y")]]}.
Proof. split_and!; vm_compute; reflexivity. Qed.

(** Two manifests of the same base name are one add-on: each prunes what the
    other applied. *)
Example same_basename_prunes :
  let v := mkDep {[manifest_a := "/v1 ConfigMap x"; "/m/sub/a.yaml" := "/v1 ConfigMap y"]} ∅ ∅ {[cm_kind]}
    (fun _ => [(manifest_a, Ok (info_at 1)); ("/m/sub/a.yaml", Ok (info_at 1))]) in
  dw_objects (snd (run live_dep (listFilesIn ∅ "/m" true (mkWatcher ∅ ∅)) v)) = {["a" := [(cm_kind, "y")]]}.
Proof. vm_compute. reflexivity. Qed.
