(* ===== verification/GatewayCert.v ===== *)
(** * The certificates of the gateway

    [sandboxmatrix/grpc/cert.go], its authority, server and client
    certificates, with the check of the advertised name
    ([daemons/config/advertise_hostname.go]) and the part of [Start] that
    prepares TLS. *)
From Stdlib Require Import ZArith Lia.
From S2P Require Import Prelude GoText Prog Os Sha256 SessionEnv NetAddr.

(** ** Names *)

Definition is_label_char (c : Ascii.ascii) : bool := is_alnum c || Ascii.eqb c (Ascii.ascii_of_nat 45).

(** [dnsLabelRe] *)
Definition dnsLabelRe (s : string) : bool :=
  match s, last_char s with
  | String c s', Some z => is_alnum c && all_chars is_label_char s && is_alnum z && (String.length s <=? 63)%nat
  | _, _ => false
  end.

Definition validDNSLabels (name : string) : bool := forallb dnsLabelRe (split_on (Ascii.ascii_of_nat 46) name).

(** The characters of [" \t\n\r/\\:@?#%"]. *)
Definition not_bare (c : Ascii.ascii) : bool :=
  existsb (fun n => (Ascii.nat_of_ascii c =? n)%nat) [32; 9; 10; 13; 47; 92; 58; 64; 63; 35; 37]%nat.

Definition ValidateAdvertiseHostname `{IT : IPText} (name : string) : bool :=
  let name := TrimSpace name in
  if decide (name = "") then true
  else if decide (is_Some (ParseIP name)) then true
  else if (253 <? String.length name)%nat then false
  else if negb (all_chars (fun c => negb (not_bare c)) name) then false
  else validDNSLabels name.

Definition IsLoopback (i : IP) : bool :=
  match i with IP4 a => bool_decide (Z.shiftr a 24 = 127%Z) | IP6 a => bool_decide (a = 1%Z) end.

(** ** Keys and certificates *)

Inductive usage := CertSign | CRLSign | DigitalSignature | KeyEncipherment | ServerAuth | ClientAuth.

Record Template := mkTemplate {
  t_SerialNumber : Z; t_CommonName : string; t_NotBefore : Z; t_NotAfter : Z; t_Usage : list usage; t_IsCA : bool;
  t_DNSNames : list string; t_IPAddresses : list IP; t_CRL : list string;
}.

(** Keys, certificates with the public key of their subject and that of their
    signer, and the texts of both: [crypto/ecdsa], [crypto/x509] and
    [encoding/pem].  [x509_key_pair] is [tls.X509KeyPair], which takes a pair
    that belongs together only. *)
Class PKI := mkPKI {
  Key : Type; Pub : Type;
  Pub_eq_dec :: EqDecision Pub;
  pub : Key -> Pub;
  Certificate : Type;
  certificate : Template -> Pub -> Pub -> Certificate;
  x_Template : Certificate -> Template;
  x_PublicKey : Certificate -> Pub;
  x_Signer : Certificate -> Pub;
  x_certificate : forall t p q, let c := certificate t p q in x_Template c = t /\ x_PublicKey c = p /\ x_Signer c = q;
  cert_pem : Certificate -> string;
  key_pem : Key -> string;
  x_Raw : Certificate -> bytes;
  parse_cert : string -> res Certificate;
  parse_key : string -> res Key;
  parse_csr : string -> res Pub;
  x509_key_pair : string -> string -> res Certificate;
  parse_cert_pem : forall c, parse_cert (cert_pem c) = Ok c;
  parse_key_pem : forall k, parse_key (key_pem k) = Ok k;
  key_pair_pem : forall c k, x_PublicKey c = pub k -> x509_key_pair (cert_pem c) (key_pem k) = Ok c;
  key_pair_pub : forall s k c, x509_key_pair s (key_pem k) = Ok c -> x_PublicKey c = pub k;
}.

(** A certificate holds its times in seconds. *)
Definition in_seconds (t : Template) : Template :=
  mkTemplate (t_SerialNumber t) (t_CommonName t) (t_NotBefore t / second * second)%Z (t_NotAfter t / second * second)%Z (t_Usage t) (t_IsCA t)
    (t_DNSNames t) (t_IPAddresses t) (t_CRL t).

Section cert.
Context `{PK : PKI, IT : IPText}.

Inductive certE : Type -> Type :=
  | CtOs {X} (e : osE X) : certE X
  | FsSync (p : string) : certE (res unit)
  | FsClose (p : string) : certE (res unit)
  | GenerateKey : certE (res Key)
  | CreateCertificate (tmpl : Template) (parent : option Certificate) (p : Pub) (priv : Key) : certE (res Certificate)
  | Hostname : certE string
  | Interfaces : certE (list string)
  | Addrs (iface : string) : certE (list (option IP))
  | Getenv (name : string) : certE string.

Abbreviation certP := (prog certE).
Definition ctos {A} (p : osP A) : certP A := trans (fun X e => CtOs e) p.
Definition ct_now : certP Z := call (CtOs Now).

(** ** The authority *)

Definition day : Z := (24 * hour)%Z.

Definition loadCA (certPEM keyPEM : string) : res (Certificate * Key) :=
  match parse_cert certPEM with
  | Err err => Err err
  | Ok cert => match parse_key keyPEM with Err err => Err err | Ok key => Ok (cert, key) end
  end.

Definition generateCA (caCertFile caKeyFile : string) : certP (res (Key * Certificate)) :=
  try key <- call GenerateKey;
  do t1 <- ct_now;
  do t2 <- ct_now;
  let tmpl := mkTemplate 1 "K8E Sandbox CA" t1 (t2 + 10 * 365 * day) [CertSign; CRLSign] true [] [] [] in
  try cert <- call (CreateCertificate tmpl None (pub key) key);
  try _k <- ctos (WriteFile caKeyFile (key_pem key));
  try _c <- ctos (WriteFile caCertFile (cert_pem cert));
  Ret (Ok (key, cert)).

Definition ensureCA (caCertFile caKeyFile : string) : certP (res (Key * Certificate)) :=
  do caPEM <- ctos (call (ReadFile caCertFile));
  match caPEM with
  | Err _ => generateCA caCertFile caKeyFile
  | Ok caPEM =>
      do keyPEM <- ctos (call (ReadFile caKeyFile));
      match keyPEM with
      | Err _ => generateCA caCertFile caKeyFile
      | Ok keyPEM =>
          match loadCA caPEM keyPEM with
          | Ok (cert, key) => Ret (Ok (key, cert))
          | Err _ => generateCA caCertFile caKeyFile
          end
      end
  end.

(** ** The server *)

Record serverSANs := mkSANs { dnsNames : list string; ips : list IP }.

(** The addresses of an interface that count. *)
Definition outside_ips (addrs : list (option IP)) : list IP :=
  flat_map (fun a => match a with Some i => if IsLoopback i then [] else [i] | None => [] end) addrs.

Fixpoint interface_ips (ifaces : list string) (acc : list IP) : certP (list IP) :=
  match ifaces with
  | [] => Ret acc
  | iface :: ifaces =>
      do addrs <- call (Addrs iface);
      interface_ips ifaces (acc ++ outside_ips addrs)
  end.

(** One of the two sources of an advertised name. *)
Definition advertise (adv : string) (s : serverSANs) : option serverSANs :=
  let adv := TrimSpace adv in
  if decide (adv = "") then Some s
  else
    match ParseIP adv with
    | Some ip => Some (if IsLoopback ip || bool_decide (ip ∈ ips s) then s else mkSANs (dnsNames s) (ips s ++ [ip]))
    | None =>
        if negb (ValidateAdvertiseHostname adv) then None
        else Some (if decide (adv ∈ dnsNames s) then s else mkSANs (dnsNames s ++ [adv]) (ips s))
    end.

Definition invalid_hostname : error := Plain "not a bare DNS name or IP".

Definition collectServerSANs (hostname advertiseHostname : string) : certP (res serverSANs) :=
  do ifaces <- call Interfaces;
  do addrs <- interface_ips ifaces [];
  let s := mkSANs (if decide (hostname = "") then [] else [hostname]) addrs in
  do env <- call (Getenv "K8E_SANDBOX_ADVERTISED_HOSTNAME");
  Ret match advertise advertiseHostname s with
      | None => Err invalid_hostname
      | Some s => match advertise env s with None => Err invalid_hostname | Some s => Ok s end
      end.

Definition atomicWriteFile (path content : string) : certP (res unit) :=
  let tmp := path +:+ ".tmp" in
  try _o <- ctos (call (Create tmp));
  do written <- ctos (call (Write tmp content));
  match written with
  | Err err => do! call (FsClose tmp); do! ctos (call (Remove tmp)); Ret (Err err)
  | Ok _ =>
      do synced <- call (FsSync tmp);
      match synced with
      | Err err => do! call (FsClose tmp); do! ctos (call (Remove tmp)); Ret (Err err)
      | Ok _ =>
          do closed <- call (FsClose tmp);
          match closed with
          | Err err => do! ctos (call (Remove tmp)); Ret (Err err)
          | Ok _ => ctos (call (Rename tmp path))
          end
      end
  end.

Definition sansCoveredBy (cert : Certificate) (want : serverSANs) : bool :=
  forallb (fun d => bool_decide (d ∈ t_DNSNames (x_Template cert))) (dnsNames want) &&
  forallb (fun i => bool_decide (i ∈ t_IPAddresses (x_Template cert))) (ips want).

(** [tls.LoadX509KeyPair] *)
Definition LoadX509KeyPair (certFile keyFile : string) : certP (res Certificate) :=
  try certPEM <- ctos (call (ReadFile certFile));
  try keyPEM <- ctos (call (ReadFile keyFile));
  Ret (x509_key_pair certPEM keyPEM).

(** The existing pair, if it can stay. *)
Definition reusable (certFile keyFile : string) (sans : serverSANs) : certP bool :=
  do existing <- LoadX509KeyPair certFile keyFile;
  match existing with
  | Err _ => Ret false
  | Ok c => do now <- ct_now; Ret ((now <? t_NotAfter (x_Template c) - 30 * day)%Z && sansCoveredBy c sans)
  end.

Definition ensureServerCert (caKey : Key) (caCert : Certificate) (certFile keyFile advertiseHostname : string) : certP (res unit) :=
  do hostname <- call Hostname;
  try sans <- collectServerSANs hostname advertiseHostname;
  do keep <- reusable certFile keyFile sans;
  if keep : bool then Ret (Ok tt)
  else
    try key <- call GenerateKey;
    do t0 <- ct_now;
    do t1 <- ct_now;
    do t2 <- ct_now;
    let tmpl := mkTemplate t0 hostname t1 (t2 + 90 * day) [DigitalSignature; KeyEncipherment; ServerAuth] false (dnsNames sans) (ips sans) [] in
    try cert <- call (CreateCertificate tmpl (Some caCert) (pub key) caKey);
    try _k <- atomicWriteFile keyFile (key_pem key);
    atomicWriteFile certFile (cert_pem cert).

(** ** Clients *)

Definition signClientCert (caKey : Key) (caCert : Certificate) (csrPEM commonName : string) (ttlDays : Z) : certP (res (string * string)) :=
  match parse_csr csrPEM with
  | Err err => Ret (Err err)
  | Ok p =>
      do t0 <- ct_now;
      do t1 <- ct_now;
      do t2 <- ct_now;
      let tmpl := mkTemplate t0 commonName t1 (t2 + ttlDays * day) [DigitalSignature; ClientAuth] false [] []
                    ["https://k8e.internal/sandbox/crl"] in
      try cert <- call (CreateCertificate tmpl (Some caCert) p caKey);
      Ret (Ok (cert_pem cert, hex (sha256 (x_Raw cert))))
  end.

(** [Start] from the authority to the credentials: what it signs with, and the
    certificate it serves with and whose clients it takes. *)
Definition start_certs (caCertFile caKeyFile serverCertFile serverKeyFile advertiseHostname : string)
    : certP (res (Key * Certificate * Certificate)) :=
  try ca <- ensureCA caCertFile caKeyFile;
  try _s <- ensureServerCert (fst ca) (snd ca) serverCertFile serverKeyFile advertiseHostname;
  try serverTLS <- LoadX509KeyPair serverCertFile serverKeyFile;
  Ret (Ok (fst ca, snd ca, serverTLS)).

End cert.
