(* ===== verification/CertLaws.v ===== *)
(** * What the gateway serves with

    After a start the server's pair belongs together, covers the names it is
    to be reached by and lasts for more than thirty days; at every point
    before that the pair on the disk is the old one, this one, or none. *)
From Stdlib Require Import ZArith Lia.
From S2P Require Import Prelude GoText Prog Os Sha256 SessionEnv NetAddr GatewayCert Tunnel.

Section laws.
Context `{PK : PKI, IT : IPText}.

(** ** The machine *)

(** The disk, the last reading of the clock, the public keys that have been
    made, the name, the interfaces with their addresses, and the name in the
    environment. *)
Record CertWorld := mkCW {
  cw_fs : fs; cw_clock : Z; cw_used : list Pub; cw_hostname : string; cw_ifaces : list (string * list (option IP)); cw_env : string;
}.
Implicit Types v : CertWorld.

Definition iface_addrs v (iface : string) : list (option IP) :=
  match list_find (fun x => x.1 = iface) (cw_ifaces v) with Some (_, x) => snd x | None => [] end.
Definition reading {X} (e : osE X) : X -> Z -> Z :=
  match e in osE X return X -> Z -> Z with Now => fun t _ => t | _ => fun _ t => t end.
Definition with_disk (m : fs) (t : Z) v : CertWorld := mkCW m t (cw_used v) (cw_hostname v) (cw_ifaces v) (cw_env v).

(** Key pairs are fresh, certificates are made as asked, by the parent's key
    only. *)
Definition cert_contract (faults : bool) : contract certE CertWorld := fun X e v x v' =>
  match e in certE X return X -> Prop with
  | CtOs e => fun r => exists m', os_contract faults _ e (cw_fs v) r m' /\ (cw_clock v <= reading e r (cw_clock v))%Z /\
      v' = with_disk m' (reading e r (cw_clock v)) v
  | FsSync p => fun r => v' = v /\ (is_ok r = false -> faults = true)
  | FsClose p => fun r => v' = v /\ (is_ok r = false -> faults = true)
  | GenerateKey => fun r =>
      match r with
      | Ok k => pub k ∉ cw_used v /\ v' = mkCW (cw_fs v) (cw_clock v) (pub k :: cw_used v) (cw_hostname v) (cw_ifaces v) (cw_env v)
      | Err _ => faults = true /\ v' = v
      end
  | CreateCertificate tmpl parent p priv => fun r => v' = v /\
      match r with
      | Ok c => c = certificate (in_seconds tmpl) p (pub priv) /\ forall q, parent = Some q -> x_PublicKey q = pub priv
      | Err _ => faults = true \/ exists q, parent = Some q /\ x_PublicKey q <> pub priv
      end
  | Hostname => fun h => v' = v /\ h = cw_hostname v
  | Interfaces => fun l => v' = v /\ l = (cw_ifaces v).*1
  | Addrs iface => fun l => v' = v /\ l = iface_addrs v iface
  | Getenv _ => fun s => v' = v /\ s = cw_env v
  end x.

Definition text v (p : string) : option string := f_content <$> cw_fs v !! p.

(** ** The names *)

(** What a certificate has to carry. *)
Definition advertised (adv : string) (c : Template) : Prop :=
  TrimSpace adv = "" \/
  match ParseIP (TrimSpace adv) with
  | Some i => IsLoopback i = true \/ i ∈ t_IPAddresses c
  | None => TrimSpace adv ∈ t_DNSNames c
  end.
Definition covers v (adv : string) (c : Template) : Prop :=
  (cw_hostname v <> "" -> cw_hostname v ∈ t_DNSNames c) /\
  (forall i, i ∈ flat_map (fun x => outside_ips (iface_addrs v x)) (cw_ifaces v).*1 -> i ∈ t_IPAddresses c) /\
  advertised adv c /\ advertised (cw_env v) c.

(** A name that cannot be advertised. *)
Definition bad_name (adv : string) : Prop := ValidateAdvertiseHostname (TrimSpace adv) = false.

(** The names of [s] are among those of [c]. *)
Definition sans_in (s : serverSANs) (c : Template) : Prop :=
  (forall d, d ∈ dnsNames s -> d ∈ t_DNSNames c) /\ (forall i, i ∈ ips s -> i ∈ t_IPAddresses c).

Lemma sans_covered (c : Certificate) s : sansCoveredBy c s = true <-> sans_in s (x_Template c).
Proof.
  unfold sansCoveredBy. rewrite andb_true_iff, !forallb_forall.
  assert (forall {A} `{EqDecision A} (l l' : list A),
    (forall x, In x l -> bool_decide (x ∈ l') = true) <-> (forall x, x ∈ l -> x ∈ l')) as Hl.
  { intros A EA l l'. split; intros H x Hx; [apply list_elem_of_In in Hx; by eapply bool_decide_eq_true, H|].
    apply bool_decide_eq_true. by apply H, list_elem_of_In. }
  rewrite !Hl. done.
Qed.

(** Advertising adds to the names what it has to. *)
Lemma advertise_exact adv s :
  match advertise adv s with
  | Some s' => (forall c, sans_in s' c -> sans_in s c /\ advertised adv c)
  | None => bad_name adv
  end.
Proof.
  unfold advertise, advertised, bad_name. case_decide as E; [by intros c; tauto|].
  destruct (ParseIP (TrimSpace adv)) as [i|].
  - intros c Hc. destruct (IsLoopback i) eqn:El; cbn [orb] in *; [split; [done|by right; left]|]. case_bool_decide as Ei.
    + split; [done|]. right. right. by apply Hc.
    + destruct Hc as [Hd Hi]. cbn in *. split; [|right; right; apply Hi, elem_of_app; right; by left].
      split; [done|]. intros j Hj. apply Hi, elem_of_app. by left.
  - destruct (ValidateAdvertiseHostname (TrimSpace adv)); [|done]. cbn [negb]. intros c Hc. case_decide as Ed.
    + split; [done|]. right. by apply Hc.
    + destruct Hc as [Hd Hi]. cbn in *. split; [|right; apply Hd, elem_of_app; right; by left].
      split; [|done]. intros d Hdd. apply Hd, elem_of_app. by left.
Qed.

Lemma interface_ips_exact faults v ifaces acc :
  wp (cert_contract faults) (interface_ips ifaces acc)
    (fun o v' => v' = v /\ o = Done (acc ++ flat_map (fun x => outside_ips (iface_addrs v x)) ifaces)) v.
Proof.
  revert acc. induction ifaces as [|iface l IH]; intros acc; cbn [interface_ips flat_map].
  - apply wp_ret. by rewrite app_nil_r.
  - eapply wp_call. intros r v1 [-> ->]. eapply wp_mono; [|apply IH]. cbv beta. intros o v' [-> ->]. by rewrite app_assoc.
Qed.

Lemma collect_exact faults v adv :
  wp (cert_contract faults) (collectServerSANs (cw_hostname v) adv) (fun o v' => v' = v /\ exists r, o = Done r /\
    match r with
    | Ok s => forall c, sans_in s c -> covers v adv c
    | Err err => err = invalid_hostname /\ (bad_name adv \/ bad_name (cw_env v))
    end) v.
Proof.
  unfold collectServerSANs. eapply wp_call. intros r v1 [-> ->]. apply wp_bind. eapply wp_mono; [|apply interface_ips_exact].
  cbv beta. intros o v1 [-> ->]. eapply wp_call. intros r v1 [-> ->]. apply wp_ret. split; [done|]. eexists. split; [done|].
  pose proof (advertise_exact adv) as H1. pose proof (advertise_exact (cw_env v)) as H2.
  match goal with |- context [advertise adv ?s] => specialize (H1 s); destruct (advertise adv s) as [s1|] end; [|split; [done|by left]].
  specialize (H2 s1). destruct (advertise (cw_env v) s1) as [s2|]; [|split; [done|by right]].
  intros c Hc. destruct (H2 c Hc) as [Hc1 He]. destruct (H1 c Hc1) as [[Hd Hi] Ha]. cbn in Hd, Hi. split_and!; [|done|done|done].
  intros Hne. apply Hd. rewrite decide_False by done. by left.
Qed.

(** ** The pair on the disk *)

(** The pair that is loaded from the disk. *)
Definition pair_at v (certFile keyFile : string) : option Certificate :=
  match text v certFile, text v keyFile with
  | Some a, Some b => match x509_key_pair a b with Ok c => Some c | Err _ => None end
  | _, _ => None
  end.

(** A pair to serve with. *)
Definition serves v (adv : string) (c : Certificate) : Prop :=
  covers v adv (x_Template c) /\ (cw_clock v < t_NotAfter (x_Template c) - 30 * day)%Z.

Lemma ctos_call {A} faults v (e : osE A) (Q : outcome A -> CertWorld -> Prop) :
  (forall r m', os_contract faults _ e (cw_fs v) r m' -> (cw_clock v <= reading e r (cw_clock v))%Z ->
    Q (Done r) (with_disk m' (reading e r (cw_clock v)) v)) ->
  wp (cert_contract faults) (ctos (call e)) Q v.
Proof. intros H r v' (m' & Hm & Hc & ->). by apply H. Qed.

Lemma with_same v : with_disk (cw_fs v) (cw_clock v) v = v.
Proof. by destruct v. Qed.

Lemma read_exact faults v p :
  wp (cert_contract faults) (ctos (call (ReadFile p))) (fun o v' => v' = v /\ exists r, o = Done r /\
    match r with Ok s => text v p = Some s | Err _ => faults = true \/ text v p = None end) v.
Proof.
  apply ctos_call. cbn. intros r m' [-> Hr] _. rewrite with_same. split; [done|]. exists r. split; [done|]. unfold text.
  destruct (cw_fs v !! p) as [f|]; [destruct Hr as [->|(Hf & e & _ & ->)]; [done|by left]|].
  destruct Hr as (e & -> & _). by right.
Qed.

Lemma load_exact faults v certFile keyFile :
  wp (cert_contract faults) (LoadX509KeyPair certFile keyFile) (fun o v' => v' = v /\ exists r, o = Done r /\
    match r with Ok c => pair_at v certFile keyFile = Some c | Err _ => faults = true \/ pair_at v certFile keyFile = None end) v.
Proof.
  unfold LoadX509KeyPair, pair_at. apply wp_bind. eapply wp_mono; [|apply read_exact]. cbv beta. intros o v1 (-> & r & -> & Hr).
  destruct r as [a|err]; [|apply wp_ret; split; [done|]; eexists; split; [done|]; destruct Hr as [Hr|Hr]; [by left|right; by rewrite Hr]].
  apply wp_bind. eapply wp_mono; [|apply read_exact]. cbv beta. intros o v1 (-> & r & -> & Hr2). rewrite Hr.
  destruct r as [b|err]; apply wp_ret; (split; [done|]); eexists; (split; [done|]).
  - rewrite Hr2. destruct (x509_key_pair a b); [done|by right].
  - destruct Hr2 as [Hr2|Hr2]; [by left|right; by rewrite Hr2].
Qed.

(** The clock moves; nothing else does. *)
Definition at_time (t : Z) v : CertWorld := with_disk (cw_fs v) t v.

Lemma now_exact faults v (Q : outcome Z -> CertWorld -> Prop) :
  (forall t, (cw_clock v <= t)%Z -> Q (Done t) (at_time t v)) -> wp (cert_contract faults) ct_now Q v.
Proof. intros H. apply ctos_call. cbn. intros r m' -> Ht. by apply H. Qed.

Lemma reusable_exact faults v certFile keyFile sans :
  wp (cert_contract faults) (reusable certFile keyFile sans) (fun o v' => (exists t, (cw_clock v <= t)%Z /\ v' = at_time t v) /\
    exists b, o = Done b /\ (b = true -> exists c, pair_at v certFile keyFile = Some c /\ sans_in sans (x_Template c) /\
      (cw_clock v' < t_NotAfter (x_Template c) - 30 * day)%Z)) v.
Proof.
  unfold reusable. apply wp_bind. eapply wp_mono; [|apply load_exact]. cbv beta. intros o v1 (-> & r & -> & Hr).
  destruct r as [c|err].
  - apply wp_bind. apply now_exact. intros t Ht. apply wp_ret. split; [by exists t|]. eexists. split; [done|].
    intros [Hlt%Z.ltb_lt Hs%sans_covered]%andb_true_iff. by exists c.
  - apply wp_ret. split; [exists (cw_clock v); split; [lia|by rewrite <- (with_same v) at 1]|]. by eexists.
Qed.

(** ** Effects that leave the disk alone *)

Lemma awp_of_only {E W A} (C : contract E W) (I : W -> Prop) (ok : forall X, E X -> Prop) (p : prog E A) Q (w : W) :
  only false ok p -> (forall X (e : E X) (w : W) x w', ok X e -> I w -> C X e w x w' -> I w') -> I w -> wp C p Q w ->
  awp C I p (fun a => Q (Done a)) w.
Proof.
  intros Hp Hstep. revert w. induction p as [a|X e k IH|m]; intros w HI H; [by split| |done].
  destruct Hp as [He Hk]. split; [done|]. intros x w' Hx. apply IH; [done|by eapply Hstep|by apply H].
Qed.

Definition calm X (e : certE X) : Prop :=
  match e with
  | CtOs e => match e with ReadFile _ | Now => True | _ => False end
  | Hostname | Interfaces | Addrs _ | Getenv _ => True
  | _ => False
  end.

Lemma calm_step faults X (e : certE X) v x v' : calm X e -> cert_contract faults X e v x v' -> exists t, v' = at_time t v.
Proof.
  destruct e as [Y e| | | | | | | |]; try done; cbn; [|intros _ [-> _]; exists (cw_clock v); by destruct v..].
  destruct e; try done; intros _ (m' & Hm & _ & ->); cbn in Hm; [destruct Hm as [-> _]|subst m']; by eexists.
Qed.

Lemma calm_os {X} (e : osE X) : match e with ReadFile _ | Now => True | _ => False end -> only false calm (ctos (call e)).
Proof. by split. Qed.

Lemma calm_ips ifaces acc : only false calm (interface_ips ifaces acc).
Proof. revert acc. induction ifaces as [|i l IH]; intros acc; [done|]. split; [done|]. intros x. apply IH. Qed.

Lemma calm_sans hostname adv : only false calm (collectServerSANs hostname adv).
Proof. apply only_bind; [done|]. intros l. apply only_bind; [apply calm_ips|]. intros a. by apply only_bind. Qed.

Lemma calm_reusable certFile keyFile sans : only false calm (reusable certFile keyFile sans).
Proof.
  apply only_bind.
  - apply only_bind; [done|]. intros [a|err]; [|done]. apply only_bind; [done|]. by intros [b|err].
  - intros [c|err]; [|done]. by apply only_bind.
Qed.

(** A calm program in front of others. *)
Lemma awp_calm {A B} faults (I : CertWorld -> Prop) v (p : prog certE A) (f : A -> prog certE B) (Q1 : outcome A -> CertWorld -> Prop) Q :
  only false calm p -> (forall t, I (at_time t v)) -> wp (cert_contract faults) p Q1 v ->
  (forall a t, Q1 (Done a) (at_time t v) -> awp (cert_contract faults) I (f a) Q (at_time t v)) ->
  awp (cert_contract faults) I (bind p f) Q v.
Proof.
  intros Hp HI Hwp Hf. apply awp_bind. eapply awp_inv_mono; [|eapply (awp_mono _ (fun v' => exists t, v' = at_time t v)); [|eapply awp_of_only]].
  - intros v' [t ->]. apply HI.
  - intros a v' [t ->] H. by apply Hf.
  - exact Hp.
  - intros X e v1 x v2 Hc [t ->] Hx. destruct (calm_step faults X e _ _ _ Hc Hx) as [t' ->]. by exists t'.
  - exists (cw_clock v). by rewrite <- (with_same v) at 1.
  - exact Hwp.
Qed.

(** ** Replacing a file *)

Lemma awp_os {A B} faults I v (e : osE A) (f : A -> prog certE B) Q :
  I v ->
  (forall r m', os_contract faults _ e (cw_fs v) r m' -> (cw_clock v <= reading e r (cw_clock v))%Z ->
    awp (cert_contract faults) I (f r) Q (with_disk m' (reading e r (cw_clock v)) v)) ->
  awp (cert_contract faults) I (bind (ctos (call e)) f) Q v.
Proof. intros HI H. split; [done|]. intros r v' (m' & Hm & Hc & ->). by apply H. Qed.

(** The disk of [v] but for the file [p]. *)
Definition but_for (p : string) v v' : Prop :=
  exists m', (forall q, q <> p -> m' !! q = cw_fs v !! q) /\ v' = with_disk m' (cw_clock v) v.

Lemma but_for_refl p v : but_for p v v.
Proof. exists (cw_fs v). by rewrite with_same. Qed.
Lemma but_for_write p v v' f : but_for p v v' -> but_for p v (with_disk (<[p := f]> (cw_fs v')) (cw_clock v') v').
Proof. intros (m & Hm & ->). exists (<[p := f]> m). split; [|done]. intros q Hq. rewrite lookup_insert_ne by done. by apply Hm. Qed.
Lemma but_for_remove p v v' : but_for p v v' -> but_for p v (with_disk (delete p (cw_fs v')) (cw_clock v') v').
Proof. intros (m & Hm & ->). exists (delete p m). split; [|done]. intros q Hq. rewrite lookup_delete_ne by done. by apply Hm. Qed.

Lemma cert_tmp_ne path : path +:+ ".tmp" <> path.
Proof. intros H%(f_equal String.length). rewrite length_append in H. cbn in H. lia. Qed.

Section atomic.
Context (faults : bool) (I : CertWorld -> Prop) (path content : string) (v : CertWorld) (Q : res unit -> CertWorld -> Prop).
Let tmp := path +:+ ".tmp".
Hypothesis before : forall v', but_for tmp v v' -> I v'.
Hypothesis refused : forall v' err, but_for tmp v v' -> faults = true -> Q (Err err) v'.
Hypothesis after : forall m', text (with_disk m' (cw_clock v) v) path = Some content ->
  (forall q, q <> tmp -> q <> path -> m' !! q = cw_fs v !! q) ->
  I (with_disk m' (cw_clock v) v) /\ Q (Ok tt) (with_disk m' (cw_clock v) v).

Lemma cert_cleanup_awp v' err : but_for tmp v v' -> faults = true ->
  awp (cert_contract faults) I (do! ctos (call (Remove tmp)); Ret (Err err)) Q v'.
Proof.
  intros Hv Hf. apply awp_os; [by apply before|]. intros r m' Hm _. cbn [reading].
  assert (but_for tmp v (with_disk m' (cw_clock v') v')) as Hv'.
  { destruct Hm as [(_ & -> & _)|(_ & -> & _)]; [by apply but_for_remove|by rewrite with_same]. }
  split; [by apply before|by apply refused].
Qed.

Lemma atomic_awp : awp (cert_contract faults) I (atomicWriteFile path content) Q v.
Proof.
  unfold atomicWriteFile. fold tmp. apply awp_os; [by apply before, but_for_refl|]. intros r m1 Hm _. cbn [reading].
  destruct Hm as [[-> (t & ->)]|(Hf & -> & err & ->)].
  2: { rewrite with_same. split; [by apply before, but_for_refl|by apply refused; [apply but_for_refl|]]. }
  pose proof (but_for_write tmp v v (mkFile "" t) (but_for_refl tmp v)) as H1.
  set (v1 := with_disk _ _ _) in *. clearbody v1. apply awp_os; [by apply before|]. intros r m2 Hm _. cbn [reading].
  destruct Hm as [[-> (t2 & ->)]|(Hf & (err & ->) & f & ->)].
  2: { pose proof (but_for_write tmp v v1 f H1) as H2. apply awp_call; [by apply before|]. intros x v2 [-> _]. by apply cert_cleanup_awp. }
  assert (cw_clock v1 = cw_clock v) as Hc1 by by destruct H1 as (? & _ & ->).
  pose proof (but_for_write tmp v v1 (mkFile content t2) H1) as H2.
  assert (cw_fs (with_disk (<[tmp:=mkFile content t2]> (cw_fs v1)) (cw_clock v1) v1) !! tmp = Some (mkFile content t2)) as Hin
    by (cbn; by rewrite lookup_insert_eq).
  set (v2 := with_disk _ _ _) in *. clearbody v2. apply awp_call; [by apply before|]. intros x v3 [-> Hx].
  destruct x as [[]|err]. 2: { apply awp_call; [by apply before|]. intros y v3 [-> _]. apply cert_cleanup_awp; [done|by apply Hx]. }
  apply awp_call; [by apply before|]. intros y v3 [-> Hy]. destruct y as [[]|err]; [|apply cert_cleanup_awp; [done|by apply Hy]].
  split; [by apply before|]. intros r v3 (m3 & Hm & _ & ->). cbn [reading].
  assert (exists m, (forall q, q <> tmp -> m !! q = cw_fs v !! q) /\ v2 = with_disk m (cw_clock v) v) as (m & Hm2 & ->) by done. cbn in Hm, Hin.
  destruct Hm as [(-> & f & Hf & ->)|([Hf|Hno] & -> & err & ->)]; [|split; [by apply before|by apply refused]|congruence].
  rewrite Hin in Hf. injection Hf as <-. change (with_disk ?a ?b (with_disk _ _ v)) with (with_disk a b v).
  assert (I (with_disk (<[path:=mkFile content t2]> (delete tmp m)) (cw_clock v) v) /\
    Q (Ok tt) (with_disk (<[path:=mkFile content t2]> (delete tmp m)) (cw_clock v) v)) as [? ?]; [|by split].
  apply after.
  - unfold text. cbn. by rewrite lookup_insert_eq.
  - intros q Hq Hq2. rewrite lookup_insert_ne, lookup_delete_ne by done. by apply Hm2.
Qed.

End atomic.

(** ** The pair of the server *)

(** The key of the certificate on the disk was made before. *)
Definition used_at v (certFile : string) : Prop := forall a b c,
  text v certFile = Some a -> x509_key_pair a b = Ok c -> x_PublicKey c ∈ cw_used v.

Definition pair_safe v (adv certFile keyFile : string) v' : Prop := used_at v certFile -> forall c,
  pair_at v' certFile keyFile = Some c -> pair_at v certFile keyFile = Some c \/ serves v' adv c.

Definition ensured v (adv certFile keyFile : string) (caKey : Key) (caCert : Certificate) v' (r : res unit) (faults : bool) : Prop :=
  match r with
  | Ok _ => exists c, pair_at v' certFile keyFile = Some c /\ serves v' adv c /\ (cw_fs v' = cw_fs v \/ x_Signer c = pub caKey)
  | Err _ => faults = true \/ bad_name adv \/ bad_name (cw_env v) \/ x_PublicKey caCert <> pub caKey
  end.

(** The machine with other files, at another time, with another key in use. *)
Definition same_host v v' : Prop := cw_hostname v' = cw_hostname v /\ cw_ifaces v' = cw_ifaces v /\ cw_env v' = cw_env v.

Lemma covers_host v v' adv c : same_host v v' -> covers v adv c -> covers v' adv c.
Proof. intros (Eh & Ei & Ee) (H1 & H2 & H3 & H4). unfold covers, iface_addrs. rewrite Eh, Ei, Ee. done. Qed.

Lemma pair_at_ext v v' certFile keyFile : text v' certFile = text v certFile -> text v' keyFile = text v keyFile ->
  pair_at v' certFile keyFile = pair_at v certFile keyFile.
Proof. unfold pair_at. by intros -> ->. Qed.

Lemma whole_seconds t : (t - second < t / second * second)%Z.
Proof.
  pose proof (Z.div_mod t second ltac:(done)). pose proof (Z.mod_pos_bound t second ltac:(done)). lia.
Qed.

Section server.
Context (certFile keyFile : string).
Hypothesis Hne : certFile <> keyFile.
Hypothesis Hct : certFile <> keyFile +:+ ".tmp".
Hypothesis Hkt : keyFile <> certFile +:+ ".tmp".

(** A fresh key on the disk goes with no certificate there. *)
Lemma fresh_key_pairs_not v v' k : used_at v certFile -> pub k ∉ cw_used v ->
  text v' certFile = text v certFile -> text v' keyFile = Some (key_pem k) -> pair_at v' certFile keyFile = None.
Proof.
  intros Hu Hk Hc Hkf. unfold pair_at. rewrite Hc, Hkf. destruct (text v certFile) as [a|] eqn:Ea; [|done].
  destruct (x509_key_pair a (key_pem k)) as [c|] eqn:E; [|done]. exfalso. apply Hk.
  rewrite <- (key_pair_pub a k c E). by eapply Hu.
Qed.

(** Writing the pair. *)
Lemma write_pair_awp faults v v1 adv k (c : Certificate) caKey caCert :
  cw_fs v1 = cw_fs v -> same_host v v1 -> pub k ∉ cw_used v -> x_PublicKey c = pub k -> x_Signer c = pub caKey -> serves v1 adv c ->
  awp (cert_contract faults) (pair_safe v adv certFile keyFile)
    (try _k <- atomicWriteFile keyFile (key_pem k); atomicWriteFile certFile (cert_pem c))
    (fun r v' => ensured v adv certFile keyFile caKey caCert v' r faults) v1.
Proof.
  intros Ef Hh Hk Hpc Hsc Hs. apply awp_bind. apply atomic_awp.
  - intros v' (m & Hm & ->) Hu c' Hp. left. rewrite <- Hp. symmetry. apply pair_at_ext; unfold text; cbn; rewrite Hm, Ef; try done.
    intros H. by apply (cert_tmp_ne keyFile).
  - intros v' err (m & Hm & ->) Hf. split; [|by left].
    intros Hu c' Hp. left. rewrite <- Hp. symmetry. apply pair_at_ext; unfold text; cbn; rewrite Hm, Ef; try done.
    intros H. by apply (cert_tmp_ne keyFile).
  - intros m Hkey Hm. set (v2 := with_disk m (cw_clock v1) v1) in *.
    assert (text v2 certFile = text v certFile) as Hcert by (unfold text; cbn; rewrite Hm, Ef; done).
    assert (forall v', text v' certFile = text v certFile -> text v' keyFile = Some (key_pem k) -> pair_safe v adv certFile keyFile v') as Hmid.
    { intros v' Hc' Hk' Hu c' Hp. by rewrite (fresh_key_pairs_not v v' k) in Hp. }
    split; [by apply Hmid|]. apply atomic_awp.
    + intros v' (m2 & Hm2 & ->). apply Hmid; unfold text; cbn; rewrite Hm2; try done. intros H. by apply (cert_tmp_ne certFile).
    + intros v' err _ Hf. by left.
    + intros m2 Hc2 Hm2. set (v3 := with_disk m2 (cw_clock v2) v2) in *.
      assert (pair_at v3 certFile keyFile = Some c) as Hpair.
      { unfold pair_at. rewrite Hc2. assert (text v3 keyFile = Some (key_pem k)) as -> by (unfold text; cbn; by rewrite Hm2).
        by rewrite key_pair_pem. }
      assert (serves v3 adv c) as Hs3 by done. split.
      * intros _ c' Hp. right. rewrite Hpair in Hp. by injection Hp as <-.
      * exists c. split_and!; [done|done|by right].
Qed.

Lemma ensure_awp faults v adv caKey caCert :
  awp (cert_contract faults) (pair_safe v adv certFile keyFile) (ensureServerCert caKey caCert certFile keyFile adv)
    (fun r v' => ensured v adv certFile keyFile caKey caCert v' r faults) v.
Proof.
  assert (forall t, pair_safe v adv certFile keyFile (at_time t v)) as Hcalm by (intros t Hu c Hp; by left).
  unfold ensureServerCert. apply awp_call; [by intros Hu c Hp; left|]. intros h v0 [-> ->].
  eapply awp_calm; [apply calm_sans|exact Hcalm|apply collect_exact|]. cbv beta. intros r t (Et & r' & [= <-] & Hr).
  rewrite Et. clear Et t. destruct r as [sans|err].
  2: { split; [by intros Hu c Hp; left|]. right. destruct Hr as [_ [H|H]]; auto. }
  eapply awp_calm; [apply calm_reusable|exact Hcalm|apply reusable_exact|]. cbv beta.
  intros keep t ((t' & Ht & Et) & b & [= <-] & Hb). set (v1 := at_time t v) in *. destruct keep.
  { split; [apply Hcalm|]. destruct (Hb eq_refl) as (c & Hp & Hin & Hlt). exists c. split_and!; [exact Hp| |by left].
    split; [by apply Hr|done]. }
  assert (cw_fs v1 = cw_fs v /\ same_host v v1 /\ cw_used v1 = cw_used v) as (Ef & Hh & Eu) by done. clearbody v1. clear Hb Et.
  assert (forall v', cw_fs v' = cw_fs v -> pair_safe v adv certFile keyFile v') as Hsame.
  { intros v' E Hu c Hp. left. rewrite <- Hp. apply pair_at_ext; unfold text; by rewrite E. }
  apply awp_call; [by apply Hsame|]. intros rk v2 Hk.
  destruct rk as [k|err]; [destruct Hk as [Hk ->]|destruct Hk as [Hf ->]; split; [by apply Hsame|by left]].
  do 3 (apply awp_os; [by apply Hsame|]; intros ? ? -> ?; cbn [reading]).
  apply awp_call; [by apply Hsame|]. intros rc v3 [-> Hc]. destruct rc as [c|err].
  2: { split; [by apply Hsame|]. destruct Hc as [Hf|(q & [= <-] & Hq)]; [by left|]. right. right. by right. }
  destruct Hc as [Hcert _].
  match type of Hcert with c = certificate ?T ?p ?q => destruct (x_certificate T p q) as (Hct' & Hcp & Hcs); rewrite <- Hcert in Hct', Hcp, Hcs end.
  apply write_pair_awp; try done; [by rewrite <- Eu|]. split.
  - eapply covers_host; [|apply Hr]; [done|]. rewrite Hct'. done.
  - rewrite Hct'. cbn [in_seconds t_NotAfter with_disk cw_clock]. eapply Z.lt_le_trans; [|apply Z.sub_le_mono_r, Z.lt_le_incl, whole_seconds].
    unfold day, hour, minute, second. lia.
Qed.

End server.

(** ** What a start leaves alone *)

(** Effects that write below the names [S] only. *)
Definition writes_in (S : list string) X (e : certE X) : Prop :=
  match e with
  | CtOs e =>
      match e with
      | ReadFile _ | Now => True
      | Create p => p ∈ S | Write p _ => p ∈ S | Remove p => p ∈ S
      | Rename p q => p ∈ S /\ q ∈ S
      | _ => False
      end
  | _ => True
  end.

Definition framed (S : list string) v v' : Prop := same_host v v' /\ forall q, q ∉ S -> text v' q = text v q.

Lemma writes_framed S faults X (e : certE X) v x v' : writes_in S X e -> cert_contract faults X e v x v' -> framed S v v'.
Proof.
  assert (forall v, framed S v v) as Hrefl by done.
  destruct e as [Y e| | | | | | | |]; cbn [cert_contract writes_in].
  2-3: by intros _ [-> _]. 3-7: by intros _ [-> _]. 2: destruct x as [k|err]; [by intros _ [_ ->]|by intros _ [_ ->]].
  intros Hw (m' & Hm & _ & ->). split; [done|]. intros q Hq. unfold text. cbn. f_equal.
  destruct e; try done; cbn in Hw, Hm.
  - by destruct Hm as [-> _].
  - destruct Hm as [[_ (t & ->)]|(_ & -> & _)]; [|done]. rewrite lookup_insert_ne; [done|]. by intros ->.
  - destruct Hm as [[_ (t & ->)]|(_ & _ & f & ->)]; rewrite lookup_insert_ne; try done; by intros ->.
  - destruct Hw as [Hp1 Hp2]. destruct Hm as [(_ & f & _ & ->)|(_ & -> & _)]; [|done].
    rewrite lookup_insert_ne, lookup_delete_ne; [done|by intros ->|by intros ->].
  - destruct Hm as [(_ & -> & _)|(_ & -> & _)]; [|done]. rewrite lookup_delete_ne; [done|]. by intros ->.
  - by subst m'.
Qed.

Lemma framed_trans S v1 v2 v3 : framed S v1 v2 -> framed S v2 v3 -> framed S v1 v3.
Proof.
  intros [(H1 & H2 & H3) Ht] [(H4 & H5 & H6) Ht']. split; [split_and!; congruence|]. intros q Hq. by rewrite Ht', Ht.
Qed.

Lemma framed_wp {A} S faults (p : prog certE A) v : only false (writes_in S) p ->
  wp (cert_contract faults) p (fun o v' => (o = Panicked -> false = true) /\ framed S v v') v.
Proof.
  intros H. apply (only_wp false (writes_in S)); [by apply framed_trans|done|by intros; eapply writes_framed|done].
Qed.

Lemma atomic_writes path content : only false (writes_in [path; path +:+ ".tmp"]) (atomicWriteFile path content).
Proof.
  assert (path +:+ ".tmp" ∈ [path; path +:+ ".tmp"]) as Ht by (right; by left).
  assert (path ∈ [path; path +:+ ".tmp"]) as Hp by by left.
  assert (forall err : error, only false (writes_in [path; path +:+ ".tmp"]) (do! ctos (call (Remove (path +:+ ".tmp"))); Ret (Err err : res unit))) as Hr
    by by intros err; split.
  unfold atomicWriteFile. apply only_bind; [by split|]. intros [_u|err]; [|done].
  apply only_bind; [by split|]. intros [_w|err]; [|apply only_bind; [by split|intros _; apply Hr]].
  apply only_bind; [by split|]. intros [_s|err]; [|apply only_bind; [by split|intros _; apply Hr]].
  apply only_bind; [by split|]. intros [_c|err]; [|apply Hr]. by split.
Qed.

Lemma calm_writes S X (e : certE X) : calm X e -> writes_in S X e.
Proof. destruct e as [Y e| | | | | | | |]; try done. by destruct e. Qed.

Definition server_files (certFile keyFile : string) : list string := [keyFile; keyFile +:+ ".tmp"; certFile; certFile +:+ ".tmp"].

Lemma ensure_writes caKey caCert certFile keyFile adv :
  only false (writes_in (server_files certFile keyFile)) (ensureServerCert caKey caCert certFile keyFile adv).
Proof.
  assert (forall A (p : prog certE A), only false calm p -> only false (writes_in (server_files certFile keyFile)) p) as Hcalm.
  { intros A p Hp. eapply only_mono; [|exact Hp]. intros X e. apply calm_writes. }
  assert (forall S path content, (forall q, q ∈ [path; path +:+ ".tmp"] -> q ∈ S) -> only false (writes_in S) (atomicWriteFile path content)) as Hat.
  { intros S path content HS. eapply only_mono; [|apply atomic_writes]. intros X e. destruct e as [Y e| | | | | | | |]; try done.
    destruct e; try done; cbn; try apply HS. intros [? ?]. split; by apply HS. }
  unfold ensureServerCert. apply only_bind; [by split|]. intros h. apply only_bind; [apply Hcalm, calm_sans|]. intros [sans|err]; [|done].
  apply only_bind; [apply Hcalm, calm_reusable|]. intros [|]; [done|].
  apply only_bind; [by split|]. intros [k|err]; [|done]. do 3 (apply only_bind; [by split|]; intros ?).
  apply only_bind; [by split|]. intros [c|err]; [|done]. apply only_bind.
  - apply Hat. intros q Hq. unfold server_files. apply (elem_of_app [keyFile; keyFile +:+ ".tmp"]). by left.
  - intros [_u|err]; [|done]. apply Hat. intros q Hq. unfold server_files. apply (elem_of_app [keyFile; keyFile +:+ ".tmp"]). by right.
Qed.

(** ** The authority on the disk *)

Definition ca_at v (caCertFile caKeyFile : string) : option (Certificate * Key) :=
  match text v caCertFile, text v caKeyFile with
  | Some a, Some b => match loadCA a b with Ok x => Some x | Err _ => None end
  | _, _ => None
  end.

Lemma write_exact v path content :
  wp (cert_contract false) (ctos (WriteFile path content)) (fun o v' => o = Done (Ok tt) /\ same_host v v' /\
    text v' path = Some content /\ forall q, q <> path -> text v' q = text v q) v.
Proof.
  intros r v1 (m1 & [[-> (t1 & ->)]|[? _]] & _ & ->); [|done]. cbn [reading].
  intros r v2 (m2 & [[-> (t2 & ->)]|[? _]] & _ & ->); [|done]. cbn [reading]. cbn. unfold text. cbn. split_and!; [done|done| |].
  - by rewrite lookup_insert_eq.
  - intros q Hq. by rewrite !lookup_insert_ne by done.
Qed.

Section start.
Context (caCertFile caKeyFile certFile keyFile : string).
Hypothesis Hca : caCertFile <> caKeyFile.

Lemma generateCA_ok v : wp (cert_contract false) (generateCA caCertFile caKeyFile) (fun o v' => exists k c, o = Done (Ok (k, c)) /\
  same_host v v' /\ (forall q, q <> caCertFile -> q <> caKeyFile -> text v' q = text v q) /\
  ca_at v' caCertFile caKeyFile = Some (c, k) /\ x_PublicKey c = pub k) v.
Proof.
  unfold generateCA. eapply wp_call. intros r v1 Hk. destruct r as [k|err]; [destruct Hk as [_ ->]|by destruct Hk].
  apply wp_bind. apply now_exact. intros t1 _. cbn beta iota. apply wp_bind. apply now_exact. intros t2 _. cbn beta iota zeta.
  eapply wp_call. intros r v1 [-> Hc]. destruct r as [c|err]; [|by destruct Hc as [|(q & ? & _)]]. destruct Hc as [Hc _].
  assert (x_PublicKey c = pub k) as Hp by (rewrite Hc; apply x_certificate). clear Hc.
  apply wp_bind. eapply wp_mono; [|apply write_exact]. cbv beta. intros o v1 (-> & Hh1 & Hk1 & Hf1). cbv iota.
  apply wp_bind. eapply wp_mono; [|apply write_exact]. cbv beta. intros o v2 (-> & Hh2 & Hk2 & Hf2). apply wp_ret.
  exists k, c. split_and!; [done| | | |done].
  - destruct Hh1 as (? & ? & ?), Hh2 as (? & ? & ?). cbn in *. split_and!; congruence.
  - intros q H1 H2. by rewrite Hf2, Hf1.
  - unfold ca_at. rewrite Hk2, Hf2, Hk1 by done. unfold loadCA. by rewrite parse_cert_pem, parse_key_pem.
Qed.

Lemma ensureCA_ok v : wp (cert_contract false) (ensureCA caCertFile caKeyFile) (fun o v' => exists k c, o = Done (Ok (k, c)) /\
  same_host v v' /\ (forall q, q <> caCertFile -> q <> caKeyFile -> text v' q = text v q) /\ ca_at v' caCertFile caKeyFile = Some (c, k) /\
  match ca_at v caCertFile caKeyFile with Some x => v' = v /\ x = (c, k) | None => x_PublicKey c = pub k end) v.
Proof.
  assert (ca_at v caCertFile caKeyFile = None -> wp (cert_contract false) (generateCA caCertFile caKeyFile) (fun o v' => exists k c, o = Done (Ok (k, c)) /\
    same_host v v' /\ (forall q, q <> caCertFile -> q <> caKeyFile -> text v' q = text v q) /\ ca_at v' caCertFile caKeyFile = Some (c, k) /\
    match ca_at v caCertFile caKeyFile with Some x => v' = v /\ x = (c, k) | None => x_PublicKey c = pub k end) v) as Hgen.
  { intros ->. apply generateCA_ok. }
  unfold ensureCA. apply wp_bind. eapply wp_mono; [|apply read_exact]. cbv beta. intros o v1 (-> & r & -> & Hr). cbv iota.
  destruct r as [a|err]; [|apply Hgen; destruct Hr as [|Hr]; [done|]; unfold ca_at; by rewrite Hr].
  apply wp_bind. eapply wp_mono; [|apply read_exact]. cbv beta. intros o v1 (-> & r & -> & Hr2). cbv iota.
  destruct r as [b|err]; [|apply Hgen; destruct Hr2 as [|Hr2]; [done|]; unfold ca_at; by rewrite Hr, Hr2].
  destruct (loadCA a b) as [[c k]|err] eqn:El; [|apply Hgen; unfold ca_at; by rewrite Hr, Hr2, El].
  assert (ca_at v caCertFile caKeyFile = Some (c, k)) as E by (unfold ca_at; by rewrite Hr, Hr2, El).
  apply wp_ret. exists k, c. rewrite E. done.
Qed.

(** The four files and the temporary ones do not get in each other's way. *)
Definition files_apart : Prop :=
  certFile <> keyFile /\ certFile <> keyFile +:+ ".tmp" /\ keyFile <> certFile +:+ ".tmp" /\
  caCertFile ∉ server_files certFile keyFile /\ caKeyFile ∉ server_files certFile keyFile.

End start.

(** What a client gets: a certificate for the key of its request, under the
    name the server says, for clients only. *)
Lemma client_cert_exact faults v caKey caCert csr name ttl :
  wp (cert_contract faults) (signClientCert caKey caCert csr name ttl) (fun o v' => cw_fs v' = cw_fs v /\ exists r, o = Done r /\
    match r with
    | Ok (pem, fingerprint) => exists p c, parse_csr csr = Ok p /\ pem = cert_pem c /\ fingerprint = hex (sha256 (x_Raw c)) /\
        x_PublicKey c = p /\ x_Signer c = pub caKey /\ t_CommonName (x_Template c) = name /\ t_IsCA (x_Template c) = false /\
        t_Usage (x_Template c) = [DigitalSignature; ClientAuth] /\ (t_NotAfter (x_Template c) <= cw_clock v' + ttl * day)%Z
    | Err _ => faults = true \/ is_ok (parse_csr csr) = false \/ x_PublicKey caCert <> pub caKey
    end) v.
Proof.
  unfold signClientCert. destruct (parse_csr csr) as [p|err] eqn:Ep.
  2: { apply wp_ret. split; [done|]. eexists. split; [done|]. right. by left. }
  apply wp_bind. apply now_exact. intros t0 _. apply wp_bind. apply now_exact. intros t1 _. apply wp_bind. apply now_exact. intros t2 _.
  cbv beta iota zeta. eapply wp_call. intros r v1 [-> Hr]. destruct r as [c|err]; apply wp_ret; (split; [done|]); eexists; (split; [done|]).
  - destruct Hr as [Hc _]. exists p, c. match type of Hc with c = certificate ?T ?p ?q => destruct (x_certificate T p q) as (H1 & H2 & H3) end.
    rewrite <- Hc in H1, H2, H3. rewrite H1. split_and!; try done. cbn. rewrite Z.mul_comm. by apply Z.mul_div_le.
  - destruct Hr as [Hf|(q & [= <-] & Hq)]; [by left|]. by right; right.
Qed.

(** C7. The gateway's server certificate, whatever is refused and wherever the
    process dies: the pair that loads from the disk is at every moment the one
    that was there or one that covers the names of the machine and the
    advertised ones and is good for more than thirty days, never a mixture.
    In the end there is a pair to serve with, either the old one, and nothing
    was written, or one signed by the authority; it is missing only if a
    request was refused, a name cannot be advertised, or the key of the
    authority is not that of its certificate. *)
Theorem server_pair_safe certFile keyFile faults v adv caKey caCert :
  certFile <> keyFile -> certFile <> keyFile +:+ ".tmp" -> keyFile <> certFile +:+ ".tmp" ->
  awp (cert_contract faults) (pair_safe v adv certFile keyFile) (ensureServerCert caKey caCert certFile keyFile adv)
    (fun r v' => ensured v adv certFile keyFile caKey caCert v' r faults) v.
Proof. intros H1 H2 H3. by apply ensure_awp. Qed.

(** C8. A gateway whose requests are served starts, from any disk on which the
    key of the authority belongs to its certificate, or one of the two is
    missing or unreadable, and with any names that can be advertised: it signs
    with the authority it finds, or with a new one, and the next start finds
    the same; it serves with a pair that covers its names. *)
Theorem gateway_starts caCertFile caKeyFile certFile keyFile adv v :
  caCertFile <> caKeyFile -> files_apart caCertFile caKeyFile certFile keyFile ->
  (forall c k, ca_at v caCertFile caKeyFile = Some (c, k) -> x_PublicKey c = pub k) ->
  ~ bad_name adv -> ~ bad_name (cw_env v) ->
  wp (cert_contract false) (start_certs caCertFile caKeyFile certFile keyFile adv) (fun o v' => exists k ca c,
    o = Done (Ok (k, ca, c)) /\ x_PublicKey ca = pub k /\ ca_at v' caCertFile caKeyFile = Some (ca, k) /\
    (forall x, ca_at v caCertFile caKeyFile = Some x -> x = (ca, k)) /\
    pair_at v' certFile keyFile = Some c /\ serves v' adv c) v.
Proof.
  intros Hca (H1 & H2 & H3 & Hf1 & Hf2) Hsound Hadv Henv. unfold start_certs.
  apply wp_bind. eapply wp_mono; [|by apply ensureCA_ok]. cbv beta. intros o v1 (k & ca & -> & Hh & _ & Hat & Hold). cbv iota. cbn [fst snd].
  assert (x_PublicKey ca = pub k) as Hp.
  { destruct (ca_at v caCertFile caKeyFile) as [x|] eqn:E; [|done]. destruct Hold as [_ ->]. by apply (Hsound ca k). }
  assert (forall x, ca_at v caCertFile caKeyFile = Some x -> x = (ca, k)) as Hsame by (intros x E; rewrite E in Hold; by destruct Hold).
  apply wp_bind. eapply wp_mono; [|apply wp_and; [apply (awp_wp _ _ _ _ _ (ensure_awp certFile keyFile H1 H2 H3 false v1 adv k ca))|
    apply (framed_wp (server_files certFile keyFile)), ensure_writes]].
  cbv beta. intros o v2 [(_ & r & -> & Hr) [_ [_ Hframe]]]. cbv iota.
  destruct r as [_u|err]; [|exfalso; destruct Hr as [|[|[Hb|]]]; try done; destruct Hh as (_ & _ & He); by rewrite He in Hb].
  destruct Hr as (c & Hpair & Hserves & _).
  apply wp_bind. eapply wp_mono; [|apply load_exact]. cbv beta. intros o v3 (-> & r & -> & Hl). cbv iota.
  destruct r as [c'|err]; [|destruct Hl as [|Hl]; [done|congruence]]. apply wp_ret. exists k, ca, c'.
  assert (c' = c) as -> by congruence. split_and!; try done. rewrite <- Hat. unfold ca_at. by rewrite !Hframe by done.
Qed.

End laws.

(** * A gateway to look at

    Certificates and keys whose texts are the binary digits of their fields,
    an executable machine, and the starts of a gateway on it. *)

(** ** Certificates in plain text *)

#[export] Instance usage_eq_dec : EqDecision usage.
Proof. solve_decision. Defined.
Definition usage_code (u : usage) : nat :=
  match u with CertSign => 0 | CRLSign => 1 | DigitalSignature => 2 | KeyEncipherment => 3 | ServerAuth => 4 | ClientAuth => 5 end.
Definition code_usage (n : nat) : usage :=
  match n with 0 => CertSign | 1 => CRLSign | 2 => DigitalSignature | 3 => KeyEncipherment | 4 => ServerAuth | _ => ClientAuth end%nat.
#[export] Instance usage_countable : Countable usage.
Proof. refine (inj_countable' usage_code code_usage _). by intros []. Defined.

Record PlainCert := mkPlain { pc_Template : Template; pc_Public : Z; pc_Signer : Z }.

Definition plain_cert (c : PlainCert) : string :=
  let t := pc_Template c in
  join_with (String comma "") [value_text (t_SerialNumber t); value_text (t_CommonName t); value_text (t_NotBefore t); value_text (t_NotAfter t); value_text (t_Usage t);
    value_text (t_IsCA t); value_text (t_DNSNames t); value_text (t_IPAddresses t); value_text (t_CRL t); value_text (pc_Public c); value_text (pc_Signer c)].

Definition read_cert (s : string) : res PlainCert :=
  match split_on comma s with
  | [a; b; c; d; e; f; g; h; i; j; k] =>
      match (a ← read_value a; b ← read_value b; c ← read_value c; d ← read_value d; e ← read_value e; f ← read_value f;
             g ← read_value g; h ← read_value h; i ← read_value i; j ← read_value j; k ← read_value k;
             Some (mkPlain (mkTemplate a b c d e f g h i) j k))%stdpp with
      | Some c => Ok c
      | None => Err (Plain "certificate")
      end
  | _ => Err (Plain "certificate")
  end.

Lemma read_cert_plain c : read_cert (plain_cert c) = Ok c.
Proof.
  unfold read_cert, plain_cert. rewrite split_join; [|done|].
  - rewrite !read_value_text. cbn. destruct c as [[] ? ?]. done.
  - repeat (constructor; [rewrite no_char_all; by apply bits_chars|]). constructor.
Qed.

Definition read_key (s : string) : res Z :=
  match read_value s with Some k => if decide (value_text k = s) then Ok k else Err (Plain "key") | None => Err (Plain "key") end.

Lemma read_key_of k : read_key (value_text k) = Ok k.
Proof. unfold read_key. rewrite read_value_text. by rewrite decide_True. Qed.

Definition plain_pair (a b : string) : res PlainCert :=
  match read_cert a, read_key b with
  | Ok c, Ok k => if decide (pc_Public c = k) then Ok c else Err (Plain "private key does not match public key")
  | Err err, _ => Err err
  | _, Err err => Err err
  end.

#[local] Instance plain_pki : PKI.
Proof.
  refine (mkPKI Z Z _ id PlainCert mkPlain pc_Template pc_Public pc_Signer _ plain_cert value_text (fun _ => []) read_cert read_key read_key plain_pair _ _ _ _).
  - done.
  - apply read_cert_plain.
  - apply read_key_of.
  - intros c k E. unfold plain_pair. rewrite read_cert_plain, read_key_of. by rewrite decide_True.
  - intros s k c. unfold plain_pair. destruct (read_cert s) as [c'|]; [|done]. rewrite read_key_of. case_decide as E; [|done].
    by intros [= <-].
Defined.
#[local] Existing Instance bits_text.

(** ** A machine *)

(** The number of the next key is the number of keys made. *)
Definition live_cert : handler certE CertWorld := fun X e v =>
  match e in certE X return X * CertWorld with
  | CtOs e =>
      let '(x, o) := live_os _ e (mkOs (cw_fs v) (cw_clock v) []) in (x, with_disk (os_fs o) (cw_clock v) v)
  | FsSync p => (Ok tt, v)
  | FsClose p => (Ok tt, v)
  | GenerateKey =>
      let k := foldr Z.max 0%Z (cw_used v) in
      (Ok (k + 1)%Z, mkCW (cw_fs v) (cw_clock v) ((k + 1)%Z :: cw_used v) (cw_hostname v) (cw_ifaces v) (cw_env v))
  | CreateCertificate tmpl parent p priv =>
      (match parent with
       | Some q => if decide (pc_Public q = priv) then Ok (mkPlain (in_seconds tmpl) p priv) else Err (Plain "provided PrivateKey doesn't match parent's PublicKey")
       | None => Ok (mkPlain (in_seconds tmpl) p priv)
       end, v)
  | Hostname => (cw_hostname v, v)
  | Interfaces => ((cw_ifaces v).*1, v)
  | Addrs iface => (iface_addrs v iface, v)
  | Getenv _ => (cw_env v, v)
  end.

Lemma below_max (l : list Z) k : k ∈ l -> (k <= foldr Z.max 0 l)%Z.
Proof. induction l as [|a l IH]; [by intros []%elem_of_nil|]. intros [->|H]%elem_of_cons; cbn; [lia|]. specialize (IH H). lia. Qed.

Lemma live_cert_ok : respects live_cert (fun v => v) (cert_contract true).
Proof.
  intros X e v. destruct e as [Y e| | | | | | | |]; cbn [live_cert cert_contract].
  - pose proof (live_os_ok _ e (mkOs (cw_fs v) (cw_clock v) [])) as H. cbn [os_fs] in H.
    destruct (live_os _ e (mkOs (cw_fs v) (cw_clock v) [])) as [x o] eqn:E. cbn [fst snd] in *. exists (os_fs o).
    assert (reading e x (cw_clock v) = cw_clock v) as ->; [|done]. destruct e; try done. cbn in E. injection E as <- _. done.
  - done.
  - done.
  - cbn. split; [|done]. intros H%below_max. unfold id in H. lia.
  - cbn. split; [done|]. destruct parent as [q|]; [case_decide|]; cbn.
    + split; [done|]. intros q' [= <-]. done.
    + right. by exists q.
    + done.
  - done.
  - done.
  - done.
  - done.
Qed.

Definition ca_crt : string := "/t/ca.crt".
Definition ca_key : string := "/t/ca.key".
Definition srv_crt : string := "/t/srv.crt".
Definition srv_key : string := "/t/srv.key".
Definition advertised_name : string := " sandbox.example.com".
Definition machine (m : fs) : CertWorld :=
  mkCW m (1000 * day)%Z [] "node" [("lo", [Some (IP6 1)]); ("eth0", [Some (IP4 10); None])] "".
Definition gateway_start : prog certE (res (Z * PlainCert * PlainCert)) := start_certs ca_crt ca_key srv_crt srv_key advertised_name.
Definition started (m : fs) : outcome (res (Z * PlainCert * PlainCert)) * CertWorld := run live_cert gateway_start (machine m).

Example first_start :
  match started ∅ with
  | (Done (Ok (k, ca, c)), v) =>
      pc_Public ca = k /\ pc_Signer c = k /\ t_DNSNames (pc_Template c) = ["node"; "sandbox.example.com"] /\ t_IPAddresses (pc_Template c) = [IP4 10] /\
      cw_fs (snd (run live_cert gateway_start v)) = cw_fs v
  | _ => False
  end.
Proof. vm_compute. repeat split; reflexivity. Qed.

Lemma server_pair_safe_witness :
  awp (cert_contract true) (pair_safe (machine ∅) advertised_name srv_crt srv_key)
    (ensureServerCert (PK := plain_pki) (1%Z : Key) (mkPlain (mkTemplate 1 "K8E Sandbox CA" 0 0 [] true [] [] []) 1 1 : Certificate) srv_crt srv_key advertised_name)
    (fun r v' => ensured (machine ∅) advertised_name srv_crt srv_key 1%Z (mkPlain (mkTemplate 1 "K8E Sandbox CA" 0 0 [] true [] [] []) 1 1) v' r true)
    (machine ∅).
Proof. apply server_pair_safe; discriminate. Defined.

Lemma gateway_starts_witness :
  wp (cert_contract false) gateway_start (fun o v' => exists k ca c,
    o = Done (Ok (k, ca, c)) /\ x_PublicKey ca = pub k /\ ca_at v' ca_crt ca_key = Some (ca, k) /\
    (forall x, ca_at (machine ∅) ca_crt ca_key = Some x -> x = (ca, k)) /\
    pair_at v' srv_crt srv_key = Some c /\ serves v' advertised_name c) (machine ∅).
Proof.
  apply (gateway_starts (PK := plain_pki)).
  - discriminate.
  - split_and!; try discriminate; (intros H; apply (bool_decide_eq_true_2 _) in H; vm_compute in H; discriminate).
  - intros c k H. vm_compute in H. discriminate.
  - intros H. vm_compute in H. discriminate.
  - intros H. vm_compute in H. discriminate.
Defined.

(** When the authority is lost and made anew, the server goes on with the
    certificate of the old one, which nobody who asks for the new one takes. *)
Example server_cert_outlives_authority :
  let m := cw_fs (snd (started ∅)) in
  match run live_cert gateway_start (mkCW (delete ca_crt (delete ca_key m)) (1000 * day)%Z [1; 2]%Z "node" (cw_ifaces (machine ∅)) "") with
  | (Done (Ok (k, ca, c)), v) => pc_Public ca = 3%Z /\ pc_Signer c = 1%Z
  | _ => False
  end.
Proof. vm_compute. split; reflexivity. Qed.

(** A process that dies between the new key of the authority and its
    certificate leaves the old certificate with a key that is not its own; it
    is taken as it is, and no start succeeds any more. *)
Example torn_authority_never_starts :
  let m : fs := {[ca_crt := mkFile (plain_cert (mkPlain (mkTemplate 1 "K8E Sandbox CA" 0 0 [] true [] [] []) 7 7)) 0]} in
  let v := run_upto live_cert 8 gateway_start (machine m) in
  match run live_cert gateway_start v with (Done (Err _), v') => bool_decide (cw_fs v' = cw_fs v) | _ => false end = true.
Proof. vm_compute. reflexivity. Qed.
