(* ===== verification/Client.v ===== *)
(** * The client of the gateway

    [pkg/sandbox/client/client.go]: the certificates that a client keeps in
    its directory, how it logs in for them and renews them, whom it trusts,
    and where it finds a certificate to trust on the machine of the gateway.
    [grpc.NewClient] and the handshake are effects; a connection is known by
    its address and its TLS configuration. *)
From Stdlib Require Import ZArith Lia.
From S2P Require Import Prelude GoText Prog Os SessionEnv NetAddr GatewayCert.

(** ** TLS *)

(** The certificates of a text in PEM: [AppendCertsFromPEM]. *)
Class PemCerts `{PK : PKI} := mkPemCerts {
  pem_certs : string -> list Certificate;
  pem_certs_pem : forall c, pem_certs (cert_pem c) = [c];
}.

(** The clusters of a kubeconfig. *)
Record KubeCluster := mkKubeCluster { CertificateAuthorityData : string; CertificateAuthority : string }.

Section client.
Context `{PK : PKI, PC : !PemCerts, IT : IPText}.

Inductive Pool := SystemPool | CertPool (l : list Certificate).

(** How the server is verified: not at all, by its chain, or by its chain and
    its name. *)
Inductive Verify := NoVerify | VerifyChain (p : Pool) | VerifyFull (p : Pool).
Record TLS := mkTLS { tls_Verify : Verify; tls_Client : option Certificate }.

Record LoginRequest := mkLoginRequest { lr_Csr : string; lr_DeviceName : string }.
Record LoginResponse := mkLoginResponse { lp_Cert : string; lp_CaCert : string }.
Record Client := mkClient { c_Endpoint : string; c_TLS : TLS }.

Inductive clientE : Type -> Type :=
  | CkOs {X} (e : osE X) : clientE X
  | CkGetenv (name : string) : clientE string
  | CkHomeDir : clientE (res string)
  | CkHostname : clientE (res string)
  | CkCreateTemp (dir base : string) : clientE (res string)
  | CkSync (p : string) : clientE (res unit)
  | CkClose (p : string) : clientE (res unit)
  | CkGenerateKey : clientE (res Key)
  | CreateCSR (k : Key) : clientE (res string)
  | SystemCertPool : clientE bool
  | LoadKubeconfig (path : string) : clientE (res (list KubeCluster))
  | GrpcNew (endpoint : string) (creds : TLS) : clientE (res unit)
  | Login (endpoint : string) (creds : TLS) (bearer : option string) (req : LoginRequest) : clientE (res LoginResponse).

Abbreviation clientP := (prog clientE).
Definition ckos {A} (p : osP A) : clientP A := trans (fun X e => CkOs e) p.

Definition defaultEndpoint : string := "127.0.0.1:50051".

Definition isLoopback (endpoint : string) : bool :=
  let host := match SplitHostPort endpoint with Some (h, _) => h | None => endpoint end in
  match ParseIP host with Some ip => IsLoopback ip | None => bool_decide (ToLower host = "localhost") end.

(** The system's certificates, or none. *)
Definition system_pool : clientP Pool := do ok <- call SystemCertPool; Ret (if ok : bool then SystemPool else CertPool []).

(** How a connection that belongs to the machine is verified, and others. *)
Definition verify (loopback : bool) (p : Pool) : Verify := if loopback then VerifyChain p else VerifyFull p.

(** [tls.LoadX509KeyPair] *)
Definition LoadX509KeyPair (certFile keyFile : string) : clientP (res Certificate) :=
  try certPEM <- ckos (call (ReadFile certFile));
  try keyPEM <- ckos (call (ReadFile keyFile));
  Ret (x509_key_pair certPEM keyPEM).

(** [credentials.NewClientTLSFromFile] *)
Definition NewClientTLSFromFile (path : string) : clientP (res TLS) :=
  try pem <- ckos (call (ReadFile path));
  Ret match pem_certs pem with [] => Err (Plain "failed to append certificates") | l => Ok (mkTLS (VerifyFull (CertPool l)) None) end.

(** ** Trust on the machine of the gateway *)

Definition tlsCandidates : list string :=
  ["/var/lib/k8e/server/tls/sandbox-ca.crt"; "/var/lib/k8e/server/tls/serving-kube-apiserver.crt"; "/etc/k8e/tls/serving-kube-apiserver.crt"].
Definition kubeconfigCandidates : list string := ["/etc/k8e/k8e.yaml"; "/var/lib/k8e/server/cred/admin.kubeconfig"].

Definition resolvedKubeconfigCandidates : clientP (list string) :=
  do kc <- call (CkGetenv "KUBECONFIG");
  do home <- call (CkGetenv "HOME");
  Ret ((if decide (kc = "") then [] else [kc]) ++ (if decide (home = "") then [] else [home +:+ "/.kube/config"]) ++ kubeconfigCandidates).

Definition resolveCredsFromEnv (skipVerify : bool) : clientP (option TLS) :=
  do cert <- call (CkGetenv "K8E_SANDBOX_CERT");
  if decide (cert = "") then Ret None
  else
    do key <- call (CkGetenv "K8E_SANDBOX_KEY");
    if decide (key <> "") then
      do pair <- LoadX509KeyPair cert key;
      match pair with
      | Err _ => Ret None
      | Ok c => do pool <- system_pool; Ret (Some (mkTLS (verify skipVerify pool) (Some c)))
      end
    else do creds <- NewClientTLSFromFile cert; Ret match creds with Ok t => Some t | Err _ => None end.

Fixpoint creds_of_files (skipVerify : bool) (paths : list string) : clientP (option TLS) :=
  match paths with
  | [] => Ret None
  | path :: paths =>
      do st <- ckos (call (Stat path));
      match st with
      | Err _ => creds_of_files skipVerify paths
      | Ok _ =>
          if skipVerify then
            do pem <- ckos (call (ReadFile path));
            match pem with
            | Err _ => creds_of_files skipVerify paths
            | Ok pem => Ret (Some (mkTLS (VerifyChain (CertPool (pem_certs pem))) None))
            end
          else do creds <- NewClientTLSFromFile path; Ret match creds with Ok t => Some t | Err _ => None end
      end
  end.
Definition resolveCredsFromTLSFiles (skipVerify : bool) : clientP (option TLS) := creds_of_files skipVerify tlsCandidates.

(** The first cluster with an authority. *)
Fixpoint creds_of_clusters (l : list KubeCluster) : clientP (res TLS) :=
  match l with
  | [] => Ret (Err (Plain "no valid CA found"))
  | c :: l =>
      do caData <- (if decide (CertificateAuthorityData c <> "") then Ret (Ok (CertificateAuthorityData c))
                    else if decide (CertificateAuthority c <> "") then ckos (call (ReadFile (CertificateAuthority c)))
                    else Ret (Ok ""));
      match caData with
      | Err _ => creds_of_clusters l
      | Ok caData =>
          match (if decide (caData = "") then [] else pem_certs caData) with
          | [] => creds_of_clusters l
          | certs => Ret (Ok (mkTLS (VerifyFull (CertPool certs)) None))
          end
      end
  end.
Definition credsFromKubeconfig (path : string) : clientP (res TLS) :=
  try clusters <- call (LoadKubeconfig path); creds_of_clusters clusters.

Fixpoint creds_of_kubeconfigs (l : list string) : clientP (option TLS) :=
  match l with
  | [] => Ret None
  | kc :: l => do r <- credsFromKubeconfig kc; match r with Ok t => Ret (Some t) | Err _ => creds_of_kubeconfigs l end
  end.
Definition resolveCredsFromKubeconfig : clientP (option TLS) := do l <- resolvedKubeconfigCandidates; creds_of_kubeconfigs l.

Definition resolveCredsFallback (skipVerify : bool) : clientP TLS :=
  do pool <- system_pool; Ret (mkTLS (verify skipVerify pool) None).

Definition resolveCreds (endpoint : string) : clientP TLS :=
  let skipVerify := isLoopback endpoint in
  do a <- resolveCredsFromEnv skipVerify;
  match a with
  | Some t => Ret t
  | None =>
      do b <- resolveCredsFromTLSFiles skipVerify;
      match b with
      | Some t => Ret t
      | None =>
          do c <- resolveCredsFromKubeconfig;
          match c with Some t => Ret t | None => resolveCredsFallback skipVerify end
      end
  end.

Definition connect (endpoint : string) (creds : TLS) : clientP (res Client) :=
  do r <- call (GrpcNew endpoint creds);
  Ret match r with Ok _ => Ok (mkClient endpoint creds) | Err err => Err err end.

Definition newLocalClient (endpoint : string) : clientP (res Client) := do creds <- resolveCreds endpoint; connect endpoint creds.

Definition NewClient : clientP (res Client) :=
  do endpoint <- call (CkGetenv "K8E_SANDBOX_ENDPOINT");
  newLocalClient (if decide (endpoint = "") then defaultEndpoint else endpoint).

(** ** Files *)

(** The write of a temporary file that takes the place of [path]; it is
    removed at the end if it is still there. *)
Definition atomicWriteFile (path data : string) : clientP (res unit) :=
  try _d <- ckos (call (MkdirAll (path_Dir path)));
  try tmp <- call (CkCreateTemp (path_Dir path) (path_Base path));
  let fail (err : error) : clientP (res unit) := do! call (CkClose tmp); do! ckos (call (Remove tmp)); Ret (Err err) in
  do written <- ckos (call (Write tmp data));
  match written with
  | Err err => fail err
  | Ok _ =>
      do mode <- ckos (call (Chmod tmp));
      match mode with
      | Err err => fail err
      | Ok _ =>
          do synced <- call (CkSync tmp);
          match synced with
          | Err err => fail err
          | Ok _ =>
              do closed <- call (CkClose tmp);
              do renamed <- (match closed with Err err => Ret (Err err) | Ok _ => ckos (call (Rename tmp path)) end);
              do! ckos (call (Remove tmp));
              Ret renamed
          end
      end
  end.

Definition loadClientKey (keyFile : string) : clientP (res Key) :=
  try data <- ckos (call (ReadFile keyFile)); Ret (parse_key data).

Definition generateAndSaveKey (keyFile : string) : clientP (res Key) :=
  try _d <- ckos (call (MkdirAll (path_Dir keyFile)));
  try key <- call CkGenerateKey;
  try _w <- atomicWriteFile keyFile (key_pem key);
  Ret (Ok key).

Definition loadOrGenerateKey (keyFile : string) : clientP (res Key) :=
  do key <- loadClientKey keyFile;
  match key with Ok k => Ret (Ok k) | Err _ => generateAndSaveKey keyFile end.

Record certStatus := mkCertStatus { cs_valid : bool; cs_expiringSoon : bool }.
Definition clientCertRenewalDays : Z := 30.

(** What a certificate says at a time. *)
Definition status_at (c : Certificate) (now : Z) : certStatus :=
  let t := x_Template c in
  if (now <=? t_NotBefore t)%Z || (t_NotAfter t <=? now)%Z then mkCertStatus false false
  else mkCertStatus true (t_NotAfter t - clientCertRenewalDays * day <=? now)%Z.

Definition inspectClientCert (certFile : string) : clientP certStatus :=
  do data <- ckos (call (ReadFile certFile));
  match data with
  | Err _ => Ret (mkCertStatus false false)
  | Ok data =>
      match parse_cert data with
      | Err _ => Ret (mkCertStatus false false)
      | Ok c => do now <- ckos (call Now); Ret (status_at c now)
      end
  end.

Definition sandboxCacheDir : clientP (res string) :=
  do dir <- call (CkGetenv "K8E_SANDBOX_CERT_DIR");
  let dir := TrimSpace dir in
  if decide (dir <> "") then Ret (Ok (path_Clean dir))
  else try home <- call CkHomeDir; Ret (Ok (path_Join [home; ".k8e"; "sandbox"])).

Definition endpointStampFile : string := "endpoint".
Definition newline_text : string := String (Ascii.ascii_of_nat 10) "".

Definition writeEndpointStamp (cacheDir endpoint : string) : clientP (res unit) :=
  atomicWriteFile (path_Join [cacheDir; endpointStampFile]) (endpoint +:+ newline_text).

Definition checkEndpointStamp (cacheDir endpoint : string) : clientP (res unit) :=
  do data <- ckos (call (ReadFile (path_Join [cacheDir; endpointStampFile])));
  Ret match data with
      | Err err => if decide (err = not_exist) then Ok tt else Err err
      | Ok data =>
          let cached := TrimSpace data in
          if decide (cached = "" \/ cached = endpoint) then Ok tt else Err (Plain "cached certs are for another endpoint")
      end.

(** ** Logging in *)

Definition loadMTLSMaterial (caFile certFile keyFile : string) : clientP (res (Pool * Certificate)) :=
  try caPEM <- ckos (call (ReadFile caFile));
  match pem_certs caPEM with
  | [] => Ret (Err (Plain "parse CA cert"))
  | l => try pair <- LoadX509KeyPair certFile keyFile; Ret (Ok (CertPool l, pair))
  end.

Definition mtls (endpoint : string) (p : Pool) (c : Certificate) : TLS := mkTLS (verify (isLoopback endpoint) p) (Some c).

Definition dialMTLS (endpoint caFile certFile keyFile : string) : clientP (res Client) :=
  try mat <- loadMTLSMaterial caFile certFile keyFile;
  connect endpoint (mtls endpoint (fst mat) (snd mat)).

Definition loginDeviceName : clientP string :=
  do n <- call (CkGetenv "K8E_SANDBOX_DEVICE_NAME");
  if decide (TrimSpace n <> "") then Ret (TrimSpace n)
  else do host <- call CkHostname; Ret match host with Ok h => h | Err _ => "" end.

Definition loginRequest (csr : string) : clientP LoginRequest := do name <- loginDeviceName; Ret (mkLoginRequest csr name).

(** How the server is verified when a client logs in with a key. *)
Definition login_trust (endpoint caFile : string) : clientP (res Verify) :=
  if decide (caFile = "") then Ret (Ok NoVerify)
  else
    try caPEM <- ckos (call (ReadFile caFile));
    Ret (Ok (if isLoopback endpoint then NoVerify else VerifyFull (CertPool (pem_certs caPEM)))).

Definition callLogin (endpoint caFile apiKey csr : string) : clientP (res LoginResponse) :=
  try trust <- login_trust endpoint caFile;
  let creds := mkTLS trust None in
  try _c <- call (GrpcNew endpoint creds);
  do req <- loginRequest csr;
  call (Login endpoint creds (Some apiKey) req).

Definition callLoginMTLS (endpoint caFile certFile keyFile csr : string) : clientP (res LoginResponse) :=
  try c <- dialMTLS endpoint caFile certFile keyFile;
  do req <- loginRequest csr;
  call (Login endpoint (c_TLS c) None req).

Definition bootstrapWithCA (endpoint caFile certFile keyFile apiKey : string) : clientP (res Client) :=
  try key <- loadOrGenerateKey keyFile;
  try csr <- call (CreateCSR key);
  try resp <- callLogin endpoint caFile apiKey csr;
  try _w <- atomicWriteFile certFile (lp_Cert resp);
  try _s <- writeEndpointStamp (path_Dir caFile) endpoint;
  dialMTLS endpoint caFile certFile keyFile.

Definition bootstrapInsecure (endpoint caFile certFile keyFile apiKey : string) : clientP (res Client) :=
  try key <- loadOrGenerateKey keyFile;
  try csr <- call (CreateCSR key);
  try resp <- callLogin endpoint "" apiKey csr;
  try _a <- atomicWriteFile caFile (lp_CaCert resp);
  try _w <- atomicWriteFile certFile (lp_Cert resp);
  try _s <- writeEndpointStamp (path_Dir caFile) endpoint;
  dialMTLS endpoint caFile certFile keyFile.

(** A renewal says nothing when it fails. *)
Definition renewClientCert (endpoint caFile certFile keyFile : string) : clientP unit :=
  do key <- loadClientKey keyFile;
  match key with
  | Err _ => Ret tt
  | Ok key =>
      do csr <- call (CreateCSR key);
      match csr with
      | Err _ => Ret tt
      | Ok csr =>
          do resp <- callLoginMTLS endpoint caFile certFile keyFile csr;
          match resp with
          | Err _ => Ret tt
          | Ok resp =>
              do written <- atomicWriteFile certFile (lp_Cert resp);
              match written with
              | Err _ => Ret tt
              | Ok _ => do! writeEndpointStamp (path_Dir caFile) endpoint; Ret tt
              end
          end
      end
  end.

(** With a certificate that is valid: it is renewed when it is about to
    expire, and used. *)
Definition use_cached (endpoint caFile certFile keyFile : string) (st : certStatus) : clientP (res Client) :=
  do! (if cs_expiringSoon st then renewClientCert endpoint caFile certFile keyFile else Ret tt);
  dialMTLS endpoint caFile certFile keyFile.

Definition newClientWithCachedCerts (endpoint : string) : clientP (res Client) :=
  try cacheDir <- sandboxCacheDir;
  let caFile := path_Join [cacheDir; "ca.crt"] in
  let certFile := path_Join [cacheDir; "client.crt"] in
  let keyFile := path_Join [cacheDir; "client.key"] in
  try _s <- ckos (call (Stat caFile));
  try _e <- checkEndpointStamp cacheDir endpoint;
  do st <- inspectClientCert certFile;
  if cs_valid st then use_cached endpoint caFile certFile keyFile st
  else Ret (Err (Plain "cached client certificate is missing or expired")).

Definition with_key (endpoint apiKey cacheDir : string) : clientP (res Client) :=
  let caFile := path_Join [cacheDir; "ca.crt"] in
  let certFile := path_Join [cacheDir; "client.crt"] in
  let keyFile := path_Join [cacheDir; "client.key"] in
  do ca <- ckos (call (Stat caFile));
  match ca with
  | Err _ => bootstrapInsecure endpoint caFile certFile keyFile apiKey
  | Ok _ =>
      do stamp <- checkEndpointStamp cacheDir endpoint;
      match stamp with
      | Err _ => bootstrapInsecure endpoint caFile certFile keyFile apiKey
      | Ok _ =>
          do st <- inspectClientCert certFile;
          if cs_valid st then use_cached endpoint caFile certFile keyFile st
          else bootstrapWithCA endpoint caFile certFile keyFile apiKey
      end
  end.

Definition NewClientWithEndpoint (endpoint apiKey : string) : clientP (res Client) :=
  do apiKey <- (if decide (apiKey = "") then do k <- call (CkGetenv "K8E_SANDBOX_APIKEY"); Ret (TrimSpace k) else Ret apiKey);
  if decide (apiKey = "") then
    if decide (endpoint = "") then NewClient
    else if isLoopback endpoint then newLocalClient endpoint
    else newClientWithCachedCerts endpoint
  else try cacheDir <- sandboxCacheDir; with_key endpoint apiKey cacheDir.

(** ** To whom certificates and keys are shown *)

(** Every effect of [p] is [ok], and every result satisfies [R], whatever the
    answers. *)
Fixpoint yields {A} (ok : forall X, clientE X -> Prop) (R : A -> Prop) (p : clientP A) : Prop :=
  match p with
  | Ret a => R a
  | Vis e k => ok _ e /\ forall x, yields ok R (k x)
  | Panic _ => False
  end.

(** A connection that shows a client certificate verifies its server, and one
    to another machine verifies the name too, unless it is made to log in with
    a key.  A login shows a certificate or a key. *)
Definition shown X (e : clientE X) : Prop :=
  match e with
  | GrpcNew endpoint t =>
      (tls_Client t <> None -> tls_Verify t <> NoVerify) /\
      (isLoopback endpoint = false -> forall p, tls_Verify t <> VerifyChain p)
  | Login endpoint t bearer _ =>
      (bearer = None -> tls_Client t <> None /\ tls_Verify t <> NoVerify) /\
      (bearer <> None -> tls_Client t = None) /\
      (isLoopback endpoint = false -> forall p, tls_Verify t <> VerifyChain p)
  | _ => True
  end.

(** The TLS configuration of a connection to [endpoint] that verifies. *)
Definition verifying (endpoint : string) (t : TLS) : Prop :=
  tls_Verify t <> NoVerify /\ (isLoopback endpoint = false -> forall p, tls_Verify t <> VerifyChain p).

Lemma yields_bind {A B} ok (R : A -> Prop) (Q : B -> Prop) (p : clientP A) (f : A -> clientP B) :
  yields ok R p -> (forall a, R a -> yields ok Q (f a)) -> yields ok Q (bind p f).
Proof.
  intros Hp Hf. induction p as [a|X e k IH|m]; [by apply Hf| |done].
  destruct Hp as [He Hk]. split; [done|]. intros x. by apply IH.
Qed.

Lemma yields_call {X} (e : clientE X) ok (R : X -> Prop) : ok X e -> (forall x, R x) -> yields ok R (call e).
Proof. by split. Qed.

Lemma yields_ckos {X} (e : osE X) (R : X -> Prop) : (forall x, R x) -> yields shown R (ckos (call e)).
Proof. by split. Qed.

Lemma yields_mono {A} ok (R R' : A -> Prop) (p : clientP A) :
  (forall a, R a -> R' a) -> yields ok R p -> yields ok R' p.
Proof.
  intros H. induction p as [a|X e k IH|m]; [apply H| |done]. intros [He Hk]. split; [done|]. intros x. by apply IH.
Qed.

#[local] Abbreviation silent := (yields shown (fun _ => True)).

(** One step into a program whose effects show nothing. *)
Ltac y_step :=
  match goal with
  | |- yields _ _ (bind (if decide ?P then _ else _) _) => case_decide
  | |- yields _ _ (bind (if ?b then _ else _) _) => destruct b
  | |- yields _ _ (bind (match ?x with _ => _ end) _) => destruct x
  | |- yields _ _ (bind (call _) _) => apply (yields_bind _ (fun _ => True)); [by split|intros ? _]
  | |- yields _ _ (bind (ckos (call _)) _) => apply (yields_bind _ (fun _ => True)); [by split|intros ? _]
  | |- yields _ _ (bind _ _) => apply (yields_bind _ (fun _ => True)); [try done; eauto with client|intros ? _]
  | |- yields _ _ (if decide ?P then _ else _) => case_decide
  | |- yields _ _ (if ?b then _ else _) => destruct b
  | |- yields _ _ (match ?x with _ => _ end) => destruct x
  | |- yields _ _ (Ret _) => cbn [yields]
  | |- yields _ _ (call _) => by split
  | |- yields _ _ (ckos (call _)) => by split
  end.
Ltac y_auto := repeat (cbv zeta; y_step); try done; eauto with client.

Lemma system_pool_silent : silent system_pool.
Proof. unfold system_pool. y_auto. Qed.
#[local] Hint Resolve system_pool_silent : client.

Lemma LoadX509KeyPair_silent certFile keyFile : silent (LoadX509KeyPair certFile keyFile).
Proof. unfold LoadX509KeyPair. y_auto. Qed.
#[local] Hint Resolve LoadX509KeyPair_silent : client.

Lemma atomicWriteFile_silent p data : silent (atomicWriteFile p data).
Proof. unfold atomicWriteFile. y_auto. Qed.
#[local] Hint Resolve atomicWriteFile_silent : client.

Lemma loadClientKey_silent keyFile : silent (loadClientKey keyFile).
Proof. unfold loadClientKey. y_auto. Qed.
#[local] Hint Resolve loadClientKey_silent : client.

Lemma loadOrGenerateKey_silent keyFile : silent (loadOrGenerateKey keyFile).
Proof. unfold loadOrGenerateKey, generateAndSaveKey. y_auto. Qed.
#[local] Hint Resolve loadOrGenerateKey_silent : client.

Lemma writeEndpointStamp_silent dir endpoint : silent (writeEndpointStamp dir endpoint).
Proof. unfold writeEndpointStamp. y_auto. Qed.
Lemma checkEndpointStamp_silent dir endpoint : silent (checkEndpointStamp dir endpoint).
Proof. unfold checkEndpointStamp. y_auto. Qed.
Lemma inspectClientCert_silent certFile : silent (inspectClientCert certFile).
Proof. unfold inspectClientCert. y_auto. Qed.
Lemma sandboxCacheDir_silent : silent sandboxCacheDir.
Proof. unfold sandboxCacheDir. y_auto. Qed.
Lemma loginRequest_silent csr : silent (loginRequest csr).
Proof. unfold loginRequest, loginDeviceName. y_auto. Qed.
Lemma loadMTLSMaterial_silent caFile certFile keyFile : silent (loadMTLSMaterial caFile certFile keyFile).
Proof. unfold loadMTLSMaterial. y_auto. Qed.
#[local] Hint Resolve writeEndpointStamp_silent checkEndpointStamp_silent inspectClientCert_silent
  sandboxCacheDir_silent loginRequest_silent loadMTLSMaterial_silent : client.

Lemma verify_verifying endpoint p c : verifying endpoint (mkTLS (verify (isLoopback endpoint) p) c).
Proof. unfold verifying, verify. simpl. destruct (isLoopback endpoint); by split. Qed.

Lemma full_verifying endpoint p c : verifying endpoint (mkTLS (VerifyFull p) c).
Proof. by split. Qed.
#[local] Hint Resolve verify_verifying full_verifying : client.

(** What is found, if anything, verifies. *)
Definition some_verifying (endpoint : string) (o : option TLS) : Prop := forall t, o = Some t -> verifying endpoint t.
Definition ok_verifying (endpoint : string) (r : res TLS) : Prop := forall t, r = Ok t -> verifying endpoint t.

Lemma NewClientTLSFromFile_verifying endpoint path : yields shown (ok_verifying endpoint) (NewClientTLSFromFile path).
Proof.
  unfold NewClientTLSFromFile. apply (yields_bind _ (fun _ => True)); [by split|]. intros [pem|err] _; [|done].
  intros t. destruct (pem_certs pem); [done|]. intros [= <-]. by split.
Qed.

Lemma file_creds endpoint path :
  yields shown (some_verifying endpoint)
    (do creds <- NewClientTLSFromFile path; Ret match creds with Ok t => Some t | Err _ => None end).
Proof.
  eapply yields_bind; [apply (NewClientTLSFromFile_verifying endpoint)|]. intros [t|err] H; [|done].
  intros t' [= <-]. by apply H.
Qed.
#[local] Hint Resolve file_creds : client.

Lemma creds_of_files_verifying endpoint paths :
  yields shown (some_verifying endpoint) (creds_of_files (isLoopback endpoint) paths).
Proof.
  induction paths as [|path paths IH]; [done|]. cbn [creds_of_files].
  apply (yields_bind _ (fun _ => True)); [by split|]. intros [st|err] _; [|done].
  destruct (isLoopback endpoint) eqn:E; [|apply file_creds].
  apply (yields_bind _ (fun _ => True)); [by split|]. intros [pem|err] _; [|done].
  intros t [= <-]. split; [done|]. by rewrite E.
Qed.

Lemma resolveCredsFromEnv_verifying endpoint :
  yields shown (some_verifying endpoint) (resolveCredsFromEnv (isLoopback endpoint)).
Proof.
  unfold resolveCredsFromEnv. apply (yields_bind _ (fun _ => True)); [by split|]. intros cert _. case_decide; [done|].
  apply (yields_bind _ (fun _ => True)); [by split|]. intros key _. case_decide; [|apply file_creds].
  apply (yields_bind _ (fun _ => True)); [eauto with client|]. intros [c|err] _; [|done].
  apply (yields_bind _ (fun _ => True)); [eauto with client|]. intros pool _ t [= <-]. apply verify_verifying.
Qed.

Lemma creds_of_clusters_verifying endpoint l : yields shown (ok_verifying endpoint) (creds_of_clusters l).
Proof.
  induction l as [|c l IH]; [done|]. cbn [creds_of_clusters].
  apply (yields_bind _ (fun _ => True)); [y_auto|]. intros [d|err] _; [|done].
  destruct (if decide _ then _ else _); [done|]. intros t [= <-]. by split.
Qed.

Lemma creds_of_kubeconfigs_verifying endpoint l : yields shown (some_verifying endpoint) (creds_of_kubeconfigs l).
Proof.
  induction l as [|kc l IH]; [done|]. cbn [creds_of_kubeconfigs].
  apply (yields_bind _ (ok_verifying endpoint)).
  - unfold credsFromKubeconfig. apply (yields_bind _ (fun _ => True)); [by split|].
    intros [cs|err] _; [apply creds_of_clusters_verifying|done].
  - intros [t|err] H; [|done]. intros t' [= <-]. by apply H.
Qed.

Lemma resolveCreds_verifying endpoint : yields shown (verifying endpoint) (resolveCreds endpoint).
Proof.
  unfold resolveCreds. cbv zeta.
  eapply yields_bind; [apply resolveCredsFromEnv_verifying|]. intros [t|] Ht; [by apply Ht|]. clear Ht.
  eapply yields_bind; [apply creds_of_files_verifying|]. intros [t|] Ht; [by apply Ht|]. clear Ht.
  apply (yields_bind _ (some_verifying endpoint)).
  - unfold resolveCredsFromKubeconfig, resolvedKubeconfigCandidates. apply (yields_bind _ (fun _ => True)); [y_auto|].
    intros l _. apply creds_of_kubeconfigs_verifying.
  - intros [t|] Ht; [by apply Ht|]. unfold resolveCredsFallback. apply (yields_bind _ (fun _ => True)); [eauto with client|].
    intros pool _. apply verify_verifying.
Qed.

(** A connection that verifies, and its configuration. *)
Definition connected (endpoint : string) (r : res Client) : Prop :=
  forall c, r = Ok c -> c_Endpoint c = endpoint /\ verifying endpoint (c_TLS c).

Lemma connect_shown endpoint t : verifying endpoint t -> yields shown (connected endpoint) (connect endpoint t).
Proof.
  intros [H1 H2]. unfold connect. apply (yields_bind _ (fun _ => True)); [by split|]. intros [u|err] _; [|done].
  by intros c [= <-].
Qed.

Lemma newLocalClient_shown endpoint : silent (newLocalClient endpoint).
Proof.
  eapply yields_bind; [apply resolveCreds_verifying|]. intros t Ht.
  by eapply yields_mono, connect_shown.
Qed.
#[local] Hint Resolve newLocalClient_shown : client.

(** The client that shows a certificate. *)
Lemma dialMTLS_shown endpoint caFile certFile keyFile :
  yields shown (fun r => forall c, r = Ok c -> c_Endpoint c = endpoint /\ verifying endpoint (c_TLS c) /\ tls_Client (c_TLS c) <> None)
    (dialMTLS endpoint caFile certFile keyFile).
Proof.
  unfold dialMTLS. apply (yields_bind _ (fun _ => True)); [eauto with client|]. intros [[pool cert]|err] _; [|done].
  unfold connect. cbn [fst snd]. apply (yields_bind _ (fun _ => True)).
  - apply yields_call; [|done]. unfold mtls. split; [by destruct (verify_verifying endpoint pool (Some cert))|].
    by destruct (verify_verifying endpoint pool (Some cert)).
  - intros [u|err] _; [|done]. intros c [= <-]. split; [done|]. split; [apply verify_verifying|done].
Qed.

Lemma dialMTLS_silent endpoint caFile certFile keyFile : silent (dialMTLS endpoint caFile certFile keyFile).
Proof. by eapply yields_mono, dialMTLS_shown. Qed.
#[local] Hint Resolve dialMTLS_silent : client.

Lemma callLogin_shown endpoint caFile apiKey csr : silent (callLogin endpoint caFile apiKey csr).
Proof.
  unfold callLogin.
  apply (yields_bind _ (fun r => forall v, r = Ok v -> forall p, v <> VerifyChain p)).
  - unfold login_trust. case_decide; [by intros v [= <-]|]. apply (yields_bind _ (fun _ => True)); [by split|].
    intros [pem|err] _; [|done]. intros v [= <-]. by destruct (isLoopback endpoint).
  - intros [v|err] Hv; [|done]. specialize (Hv v eq_refl). cbv zeta.
    apply (yields_bind _ (fun _ => True)); [by split|]. intros [u|err] _; [|done].
    apply (yields_bind _ (fun _ => True)); [eauto with client|]. intros req _. by split.
Qed.

Lemma callLoginMTLS_shown endpoint caFile certFile keyFile csr : silent (callLoginMTLS endpoint caFile certFile keyFile csr).
Proof.
  unfold callLoginMTLS. eapply yields_bind; [apply dialMTLS_shown|]. intros [c|err] Hc; [|done].
  destruct (Hc c eq_refl) as (_ & [H1 H2] & H3).
  apply (yields_bind _ (fun _ => True)); [eauto with client|]. intros req _. by split.
Qed.
#[local] Hint Resolve callLogin_shown callLoginMTLS_shown : client.

Lemma bootstrap_shown endpoint caFile certFile keyFile apiKey :
  silent (bootstrapWithCA endpoint caFile certFile keyFile apiKey) /\
  silent (bootstrapInsecure endpoint caFile certFile keyFile apiKey).
Proof. unfold bootstrapWithCA, bootstrapInsecure. split; y_auto. Qed.

Lemma bootstrapWithCA_shown endpoint caFile certFile keyFile apiKey :
  silent (bootstrapWithCA endpoint caFile certFile keyFile apiKey).
Proof. apply bootstrap_shown. Qed.
Lemma bootstrapInsecure_shown endpoint caFile certFile keyFile apiKey :
  silent (bootstrapInsecure endpoint caFile certFile keyFile apiKey).
Proof. apply bootstrap_shown. Qed.

Lemma renewClientCert_shown endpoint caFile certFile keyFile : silent (renewClientCert endpoint caFile certFile keyFile).
Proof. unfold renewClientCert. y_auto. Qed.
#[local] Hint Resolve renewClientCert_shown : client.

Lemma use_cached_shown endpoint caFile certFile keyFile st : silent (use_cached endpoint caFile certFile keyFile st).
Proof. unfold use_cached. y_auto. Qed.
#[local] Hint Resolve bootstrapWithCA_shown bootstrapInsecure_shown use_cached_shown : client.

(** Whatever files, environment and servers a client meets, it shows a client
    certificate only to a server it verifies, logs in with a certificate or a
    key and never with both, and verifies a server on another machine by name
    where it verifies it at all. *)
Theorem certificates_shown_to_verified endpoint apiKey : silent (NewClientWithEndpoint endpoint apiKey).
Proof.
  unfold NewClientWithEndpoint, NewClient, newClientWithCachedCerts, with_key. y_auto.
Qed.

End client.

(** ** What a user is told *)

Inductive Hint := NoHint | ResetCerts | LoginAgain | CheckGateway.

Definition mentions (msg : string) (l : list string) : bool := existsb (contains msg) l.

(** [ConnErrorHint], from the text of an error. *)
Definition ConnErrorHint (msg : string) : Hint :=
  if mentions msg ["certificate signed by unknown authority"; "ECDSA verification failure"; "x509: certificate"; "certificate is not standards compliant"]
  then ResetCerts
  else if mentions msg ["certificate required"; "bad certificate"] then LoginAgain
  else NoHint.

(** The hint that [dialErr] adds. *)
Definition dialErr (msg : string) : Hint :=
  if mentions msg ["x509: certificate signed by unknown authority"; "certificate is not standards compliant"; "x509:"] then ResetCerts
  else if mentions msg ["certificate required"; "bad certificate"] then LoginAgain
  else if mentions msg ["EOF"; "connection reset"; "connection closed"] then CheckGateway
  else NoHint.
