(* ===== verification/CliSession.v ===== *)
(** * The sessions of the command line

    [sandboxcli/session.go]: the processes of one tenant share a session
    through a state file, under a lock; and the requests that a command makes
    to the gateway. *)
From Stdlib Require Import ZArith Lia.
From S2P Require Import Prelude GoText GoTime Prog LayerStore Os.

Record SessionState := mkState {
  ss_SessionID : string; ss_Phase : string; ss_TenantID : string; ss_CreatedAt : string; ss_LockedAt : string; ss_PID : Z;
}.
#[export] Instance SessionState_eq_dec : EqDecision SessionState.
Proof. solve_decision. Defined.

(** The JSON of a state file. *)
Class CliJSON := mkCliJSON {
  marshal_state : SessionState -> string;
  unmarshal_state : string -> res SessionState;
  unmarshal_marshal : forall s, unmarshal_state (marshal_state s) = Ok s;
}.

(** The requests a command makes to the gateway. *)
Record ExecReq := mkExecReq {
  xr_SessionId : string; xr_Command : string; xr_Timeout : Z; xr_Workdir : string; xr_Background : bool; xr_Language : string;
}.
Record ExecResp := mkExecResp { xp_Stdout : string; xp_ExitCode : Z; xp_RunId : string }.
Inductive rpc : Type -> Type :=
  | CreateSession (sid tenant runtime : string) (hosts : list string) (env : gmap string string) (secrets : list (string * string * string)) : rpc (res string)
  | DestroySession (sid : string) : rpc (res unit)
  | GetAllowedHosts (sid : string) : rpc (res (list string))
  | RpcWriteFile (sid path content mode : string) : rpc (res bool)
  | RpcReadFile (sid path : string) : rpc (res string)
  | RpcExec (req : ExecReq) : rpc (res ExecResp)
  | RpcExecStream (req : ExecReq) : rpc (res (option error)).

(** A workspace manifest. *)
Inductive ManifestEntry :=
  | FileEntry (path content mode : string)
  | DirEntry (path : string)
  | GitRepoEntry (path repo ref : string)
  | NoEntry.

(** [Flock] and [Funlock] are on the lock file that the process has open;
    [WriteMeta] and [ReadMeta] are the metadata of a snapshot: who has it, its
    size and the number of its files; and the tenant in it. *)
Inductive cliE : Type -> Type :=
  | ClOs {X} (e : osE X) : cliE X
  | Flock (me : nat) : cliE (res unit)
  | Funlock (me : nat) : cliE unit
  | Getpid : cliE Z
  | Signal0 (pid : Z) : cliE bool
  | Getenv (name : string) : cliE string
  | Wait (d : Z) : cliE bool
  | ClFs {X} (e : LayerStore.fsE X) : cliE X
  | ParseManifest (path : string) : cliE (res (list ManifestEntry))
  | WriteMeta (name sid : string) (size count : Z) : cliE unit
  | ReadMeta (name : string) : cliE (res string)
  | Rpc {X} (r : rpc X) : cliE X.

Abbreviation cliP := (prog cliE).
Definition clos {A} (p : osP A) : cliP A := trans (fun X e => ClOs e) p.

Definition creatingStaleAfter : Z := 2 * minute.
Definition creatingPollInterval : Z := (second / 5)%Z.
(** The zero [time.Time], in nanoseconds. *)
Definition zero_stamp : Z := (-62135596800 * 1000000000)%Z.

Definition or_default (tenant : string) : string := if decide (tenant = "") then "default" else tenant.

Section session.
Context `{CJ : CliJSON} (dir : string) (me : nat).

Definition stateDir (tenant : string) : string := path_Join [dir; or_default tenant].
Definition statePath (tenant : string) : string := path_Join [stateDir tenant; "state.json"].
Definition lockPath (tenant : string) : string := path_Join [stateDir tenant; "state.lock"].

Definition loadState (tenant : string) : cliP (res (option SessionState)) :=
  do data <- clos (call (ReadFile (statePath tenant)));
  Ret match data with
      | Err err => if decide (err = not_exist) then Ok None else Err err
      | Ok data => match unmarshal_state data with Ok s => Ok (Some s) | Err err => Err err end
      end.

Definition saveState (tenant : string) (state : SessionState) : cliP (res unit) :=
  try _d <- clos (call (MkdirAll (stateDir tenant)));
  let tmp := statePath tenant +:+ ".tmp" in
  try _w <- clos (WriteFile tmp (marshal_state state));
  clos (call (Rename tmp (statePath tenant))).

Definition clearState (tenant : string) : cliP (res unit) := clos (call (Remove (statePath tenant))).

Definition lockedAt (raw : string) : Z := default zero_stamp (parse_rfc3339 raw).

Definition pidAlive (pid : Z) : cliP bool := if (pid <=? 0)%Z then Ret false else call (Signal0 pid).

Definition outlived (state : SessionState) : cliP bool :=
  do now <- clos (call Now); Ret (creatingStaleAfter <? now - lockedAt (ss_LockedAt state))%Z.

Definition creatingPlaceholderStale (state : SessionState) : cliP bool :=
  if (0 <? ss_PID state)%Z then
    do alive <- pidAlive (ss_PID state);
    if alive : bool then outlived state else Ret true
  else outlived state.

(** The session of a state that was read, if it is active. *)
Definition active (state : res (option SessionState)) : option string :=
  match state with
  | Ok (Some s) => if decide (ss_Phase s = "active" /\ ss_SessionID s <> "") then Some (ss_SessionID s) else None
  | _ => None
  end.

Definition tryClaimSession (tenant : string) : cliP (option string) :=
  do locked <- call (Flock me);
  match locked with
  | Err _ => Ret None
  | Ok _ =>
      do state <- loadState tenant;
      do! call (Funlock me);
      Ret (active state)
  end.

Definition claimCreatorRole (tenant : string) : cliP (string * bool) :=
  do locked <- call (Flock me);
  match locked with
  | Err _ => Ret ("", false)
  | Ok _ =>
      do state <- loadState tenant;
      do r <- match active state with
              | Some sid => Ret (sid, true)
              | None =>
                  do now <- clos (call Now);
                  do pid <- call Getpid;
                  do saved <- saveState tenant (mkState "" "creating" tenant "" (format_rfc3339 now) pid);
                  Ret ("", is_ok saved)
              end;
      do! call (Funlock me);
      Ret r
  end.

(** Whether to wait for the creator. *)
Definition live_creator (state : res (option SessionState)) : cliP bool :=
  match state with
  | Ok (Some s) => if decide (ss_Phase s = "creating") then do stale <- creatingPlaceholderStale s; Ret (negb stale) else Ret false
  | _ => Ret false
  end.

Definition canceled : error := Plain "context canceled".

(** The loop of [resolveSession], for a number of rounds. *)
Fixpoint resolve_rounds (n : nat) (tenant : string) : cliP (option (res string)) :=
  match n with
  | O => Ret None
  | S n =>
      do claimed <- tryClaimSession tenant;
      match claimed with
      | Some sid => Ret (Some (Ok sid))
      | None =>
          do state <- loadState tenant;
          do wait <- live_creator state;
          if wait : bool then
            do done <- call (Wait creatingPollInterval);
            if done : bool then Ret (Some (Err canceled)) else resolve_rounds n tenant
          else
            do role <- claimCreatorRole tenant;
            if snd role then Ret (Some (Ok (fst role))) else resolve_rounds n tenant
      end
  end.

Definition resolveSession (n : nat) (tenant sessionIDOverride : string) : cliP (option (res string)) :=
  if decide (sessionIDOverride <> "") then Ret (Some (Ok sessionIDOverride))
  else
    do sid <- call (Getenv "K8E_SANDBOX_SESSION_ID");
    if decide (sid <> "") then Ret (Some (Ok sid))
    else
      let tenant := or_default tenant in
      do! clos (call (MkdirAll (stateDir tenant)));
      do created <- clos (call (Create (lockPath tenant)));
      match created with
      | Err err => Ret (Some (Err err))
      | Ok _ =>
          do r <- resolve_rounds n tenant;
          do! call (Funlock me);
          Ret r
      end.

Definition finalizeState (tenant sessionID : string) : cliP (res unit) :=
  let tenant := or_default tenant in
  do created <- clos (call (Create (lockPath tenant)));
  match created with
  | Err err => Ret (Err err)
  | Ok _ =>
      do locked <- call (Flock me);
      match locked with
      | Err err => Ret (Err err)
      | Ok _ =>
          do now <- clos (call Now);
          do saved <- saveState tenant (mkState sessionID "active" tenant (format_rfc3339 now) "" 0);
          do! call (Funlock me);
          Ret saved
      end
  end.

End session.
