(* ===== verification/CliRun.v ===== *)
(** * The commands that use a session

    [sandboxcli/commands.go] and [manifest.go]: creating a session with its
    workspace, running code in it and replacing it when it is gone, the lists
    of hosts; and the snapshot commands of [snapshot.go], which archive,
    restore and delete a workspace. *)
From Stdlib Require Import ZArith Lia Strings.Byte.
From S2P Require Import Prelude GoText GoTime Prog Sha256 Signed LayerStore Os SessionEnv NetAddr Snapshot CliSession.

Definition rpcall {X} (r : rpc X) : cliP X := call (Rpc r).

(** ** Manifests *)

(** The bytes of a word of the repository patterns. *)
Definition is_word (c : Ascii.ascii) : bool := is_alnum c || (Ascii.nat_of_ascii c =? 95)%nat.
Definition one_of (s : string) (c : Ascii.ascii) : bool := negb (no_char c s).
Definition host_char (c : Ascii.ascii) : bool := is_word c || one_of ".-" c.
Definition url_char (c : Ascii.ascii) : bool := is_word c || one_of "./:~?#[]@!$&'()*+,;=%-" c.

(** The characters of a prefix, and what comes after it. *)
Fixpoint span_chars (f : Ascii.ascii -> bool) (s : string) : string * string :=
  match s with
  | String c r => if f c then let '(a, b) := span_chars f r in (String c a, b) else ("", s)
  | EmptyString => ("", "")
  end.

(** [gitRepoRe]; a host has neither slash nor colon. *)
Definition after_host (sep : string) (s : string) (optional : bool) : bool :=
  let '(host, rest) := span_chars host_char s in
  negb (bool_decide (host = "")) &&
  match strip_prefix sep rest with
  | Some path => all_chars url_char path && (optional || negb (bool_decide (path = "")))
  | None => optional && bool_decide (rest = "")
  end.
Definition gitRepoRe (s : string) : bool :=
  match strip_prefix "https://" s with
  | Some r => after_host "/" r true
  | None =>
      match strip_prefix "http://" s with
      | Some r => after_host "/" r true
      | None => match strip_prefix "git@" s with Some r => after_host ":" r false | None => false end
      end
  end.

(** [gitRefRe] *)
Definition gitRefRe (s : string) : bool :=
  match s with String c r => is_alnum c && all_chars (fun c => is_alnum c || one_of "._/-" c) r | EmptyString => false end.

Definition validateGitRepo (repo ref : string) : bool := gitRepoRe repo && (bool_decide (ref = "") || gitRefRe ref).

Definition shell (sid cmd : string) (timeout : Z) : ExecReq := mkExecReq sid cmd timeout "" false "".

Definition exec_ok (r : res ExecResp) : res unit := match r with Ok _ => Ok tt | Err err => Err err end.

Definition materialize (sid : string) (e : ManifestEntry) : cliP (res unit) :=
  match e with
  | FileEntry path content mode =>
      do r <- rpcall (RpcWriteFile sid (path_Join ["/workspace"; path]) content (if decide (mode = "") then "w" else mode));
      Ret match r with Ok _ => Ok tt | Err err => Err err end
  | DirEntry path =>
      do r <- rpcall (RpcExec (shell sid ("mkdir -p " +:+ path_Join ["/workspace"; path]) 10));
      Ret (exec_ok r)
  | GitRepoEntry path repo ref =>
      if negb (validateGitRepo repo ref) then Ret (Err (Plain "invalid git repo"))
      else
        let ref := if decide (ref = "") then "main" else ref in
        let cmd := "git clone --depth 1 -b " +:+ ref +:+ " -- " +:+ repo +:+ " " +:+ path_Join ["/workspace"; path] in
        do r <- rpcall (RpcExec (shell sid cmd 120));
        Ret (exec_ok r)
  | NoEntry => Ret (Err (Plain "no valid type (file, dir, or gitRepo)"))
  end.

Fixpoint materializeManifest (sid : string) (m : list ManifestEntry) : cliP (res unit) :=
  match m with
  | [] => Ret (Ok tt)
  | e :: m => try _e <- materialize sid e; materializeManifest sid m
  end.

(** ** Flags *)

Record Flags := mkFlags {
  f_session_id : string; f_tenant : string; f_allowed_hosts : string; f_manifest : string;
  f_git_repo : string; f_git_ref : string; f_git_path : string;
  f_lang : string; f_timeout : Z; f_background : bool; f_raw : bool; f_runtime : string;
  f_env : list string; f_secrets : list string;
}.

Definition resolveManifest (f : Flags) : cliP (res (option (list ManifestEntry))) :=
  if decide (f_manifest f <> "") then
    do m <- call (ParseManifest (f_manifest f));
    Ret match m with Ok m => Ok (Some m) | Err err => Err err end
  else if decide (f_git_repo f <> "") then Ret (Ok (Some [GitRepoEntry (f_git_path f) (f_git_repo f) (f_git_ref f)]))
  else Ret (Ok None).

Definition hosts_flag (f : Flags) : list string := if decide (f_allowed_hosts f = "") then [] else split_on comma (f_allowed_hosts f).

Fixpoint parseEnvFlags (items : list string) (out : gmap string string) : res (gmap string string) :=
  match items with
  | [] => Ok out
  | item :: items =>
      match cut_at (Ascii.ascii_of_nat 61) item with
      | (k, Some v) => if decide (k = "") then Err (Plain "invalid --env") else parseEnvFlags items (<[k := v]> out)
      | (_, None) => Err (Plain "invalid --env")
      end
  end.

(** A secret: the variable, the secret's name and its key. *)
Fixpoint parseSecretFlags (items : list string) : res (list (string * string * string)) :=
  match items with
  | [] => Ok []
  | item :: items =>
      match cut_at (Ascii.ascii_of_nat 61) item with
      | (envVar, Some rest) =>
          match cut_at colon rest with
          | (secretName, Some key) =>
              if decide (envVar = "" \/ secretName = "" \/ key = "") then Err (Plain "invalid --secret")
              else match parseSecretFlags items with Ok l => Ok ((envVar, secretName, key) :: l) | Err err => Err err end
          | (_, None) => Err (Plain "invalid --secret")
          end
      | (_, None) => Err (Plain "invalid --secret")
      end
  end.

(** ** Languages *)

Definition newline : Ascii.ascii := Ascii.ascii_of_nat 10.
Definition isMultiLine (code : string) : bool := negb (no_char newline code).

Inductive language := Python | Node | TypeScript | Bash.
Definition language_of (lang : string) : language :=
  let l := ToLower lang in
  if decide (l ∈ ["python"; "python3"; "py"]) then Python
  else if decide (l ∈ ["node"; "nodejs"; "js"; "javascript"]) then Node
  else if decide (l ∈ ["ts"; "typescript"]) then TypeScript
  else Bash.

Definition isInterpretedLang (lang : string) : bool := match language_of lang with Bash => false | _ => true end.

(** [%q] of a text: quotes and control characters are escaped, the other
    characters are as they are. *)
Definition quote_char (c : Ascii.ascii) : string :=
  let n := Ascii.nat_of_ascii c in
  let esc (d : nat) := String (Ascii.ascii_of_nat 92) (String (Ascii.ascii_of_nat d) "") in
  if existsb (Nat.eqb n) [34; 92]%nat then esc n
  else match n with
       | 7 => esc 97 | 8 => esc 98 | 9 => esc 116 | 10 => esc 110 | 11 => esc 118 | 12 => esc 102 | 13 => esc 114
       | _ => if (n <? 32) || (n =? 127) then esc 120 +:+ hex [Z.of_nat n] else String c ""
       end%nat.
Fixpoint quoted (s : string) : string := match s with EmptyString => "" | String c r => quote_char c +:+ quoted r end.
Definition strconv_Quote (s : string) : string :=
  let q := String (Ascii.ascii_of_nat 34) "" in q +:+ quoted s +:+ q.

Definition buildCommand (lang code : string) : string :=
  match language_of lang with
  | Python => if isMultiLine code then "python3 /workspace/_k8e_run.py" else "python3 -c " +:+ strconv_Quote code
  | Node => if isMultiLine code then "node /workspace/_k8e_run.js" else "node -e " +:+ strconv_Quote code
  | TypeScript => "TMPDIR=/workspace tsx /workspace/_k8e_run.ts"
  | Bash => code
  end.

Definition code_file (lang : string) : string :=
  match language_of lang with Node => "/workspace/_k8e_run.js" | TypeScript => "/workspace/_k8e_run.ts" | _ => "/workspace/_k8e_run.py" end.
Definition writeCodeFile (sid lang code : string) : cliP (res bool) := rpcall (RpcWriteFile sid (code_file lang) code "w").

(** ** Sessions *)

Definition session_gone : error := Plain "sandbox session expired or destroyed".
Definition exit_error : error := Plain "exit".

Definition isSessionExpired (err : error) : bool :=
  match err with
  | Status NotFound | Status FailedPrecondition | Status Unavailable => true
  | e => bool_decide (e = session_gone)
  end.

Section run.
Context `{CJ : CliJSON} (dir : string) (me : nat).

(** [ensureSession]: the session, and whether it is new.  [None]: still
    waiting for another process after [n] rounds. *)
Definition ensureSession (n : nat) (f : Flags) : cliP (option (res (string * bool))) :=
  do got <- resolveSession dir me n (f_tenant f) (f_session_id f);
  match got with
  | None => Ret None
  | Some (Err err) => Ret (Some (Err err))
  | Some (Ok sid) =>
      if decide (sid <> "") then Ret (Some (Ok (sid, false)))
      else
        do created <- rpcall (CreateSession "" (f_tenant f) "gvisor" (hosts_flag f) ∅ []);
        match created with
        | Err err => do! clearState dir (f_tenant f); Ret (Some (Err err))
        | Ok sid =>
            do manifest <- resolveManifest f;
            let undo err := do! rpcall (DestroySession sid); do! clearState dir (f_tenant f); Ret (Some (Err err)) in
            match manifest with
            | Err err => undo err
            | Ok None => Ret (Some (Ok (sid, true)))
            | Ok (Some m) =>
                do done <- materializeManifest sid m;
                match done with Err err => undo err | Ok _ => Ret (Some (Ok (sid, true))) end
            end
        end
  end.

Definition finalize (needsFinalize : bool) (tenant sid : string) : cliP unit :=
  if needsFinalize then do! finalizeState dir me tenant sid; Ret tt else Ret tt.

Definition with_session (sid : string) (req : ExecReq) : ExecReq :=
  mkExecReq sid (xr_Command req) (xr_Timeout req) (xr_Workdir req) (xr_Background req) (xr_Language req).

Definition runJSON (req : ExecReq) (needsFinalize : bool) (tenant : string) : cliP (res ExecResp) :=
  do r <- rpcall (RpcExec req);
  match r with
  | Err err => Ret (Err (if isSessionExpired err then session_gone else exit_error))
  | Ok resp => do! finalize needsFinalize tenant (xr_SessionId req); Ret (Ok resp)
  end.

(** The exit code, 1 if the stream broke. *)
Definition runStream (req : ExecReq) (needsFinalize : bool) (tenant : string) : cliP (res Z) :=
  do r <- rpcall (RpcExecStream req);
  match r with
  | Err err => Ret (Err (if isSessionExpired err then session_gone else err))
  | Ok broken => do! finalize needsFinalize tenant (xr_SessionId req); Ret (Ok (if broken : option error then 1%Z else 0%Z))
  end.

(** What a command ends with: the answer that is printed, or the exit code of
    a stream. *)
Inductive ran := Printed (resp : ExecResp) | Streamed (exitCode : Z).

Definition run_once (raw : bool) (req : ExecReq) (needsFinalize : bool) (tenant : string) : cliP (res ran) :=
  if raw then do r <- runStream req needsFinalize tenant; Ret match r with Ok c => Ok (Streamed c) | Err err => Err err end
  else do r <- runJSON req needsFinalize tenant; Ret match r with Ok p => Ok (Printed p) | Err err => Err err end.

Definition runExec (n : nat) (f : Flags) (req : ExecReq) (needsFinalize : bool) : cliP (option (res ran)) :=
  do r <- run_once (f_raw f) req needsFinalize (f_tenant f);
  match r with
  | Ok p => Ret (Some (Ok p))
  | Err err =>
      if negb (isSessionExpired err) then Ret (Some (Err err))
      else
        do! clearState dir (f_tenant f);
        do again <- ensureSession n f;
        match again with
        | None => Ret None
        | Some (Err err) => Ret (Some (Err err))
        | Some (Ok (sid, fresh)) =>
            do r <- run_once (f_raw f) (with_session sid req) fresh (f_tenant f);
            Ret (Some r)
        end
  end.

Definition runBackground (n : nat) (f : Flags) (code : string) : cliP (option (res string)) :=
  do got <- ensureSession n f;
  match got with
  | None => Ret None
  | Some (Err err) => Ret (Some (Err exit_error))
  | Some (Ok (sid, _)) =>
      do r <- rpcall (RpcExec (mkExecReq sid (buildCommand (f_lang f) code) (f_timeout f) "/workspace" true ""));
      Ret (Some match r with Ok resp => Ok (xp_RunId resp) | Err _ => Err exit_error end)
  end.

Definition needs_file (lang code : string) : bool :=
  isInterpretedLang lang && (isMultiLine code || has_prefix lang "ts").

(** [runAction] in the foreground. *)
Definition runForeground (n : nat) (f : Flags) (code : string) : cliP (option (res ran)) :=
  do got <- ensureSession n f;
  match got with
  | None => Ret None
  | Some (Err err) => Ret (Some (Err exit_error))
  | Some (Ok (sid, needsFinalize)) =>
      do written <- (if needs_file (f_lang f) code then writeCodeFile sid (f_lang f) code else Ret (Ok true));
      match written with
      | Err _ => Ret (Some (Err exit_error))
      | Ok _ =>
          runExec n f (mkExecReq sid (buildCommand (f_lang f) code) (f_timeout f) "/workspace" false (f_lang f)) needsFinalize
      end
  end.

(** [create], once its flags are parsed: the session and the number of its
    entries. *)
Definition create_session (f : Flags) (env : gmap string string) (secrets : list (string * string * string)) : cliP (res (string * nat)) :=
  do created <- rpcall (CreateSession (f_session_id f) (f_tenant f) (f_runtime f) (hosts_flag f) env secrets);
  match created with
  | Err _ => Ret (Err exit_error)
  | Ok sid =>
      do manifest <- resolveManifest f;
      match manifest with
      | Err _ => do! rpcall (DestroySession sid); Ret (Err exit_error)
      | Ok m =>
          do done <- materializeManifest sid (default [] m);
          match done with
          | Err _ => do! rpcall (DestroySession sid); Ret (Err exit_error)
          | Ok _ =>
              do! finalize (bool_decide (f_session_id f = "")) (f_tenant f) sid;
              Ret (Ok (sid, length (default [] m)))
          end
      end
  end.
Definition createAction (f : Flags) : cliP (res (string * nat)) :=
  match parseEnvFlags (f_env f) ∅, parseSecretFlags (f_secrets f) with
  | Ok env, Ok secrets => create_session f env secrets
  | _, _ => Ret (Err exit_error)
  end.

(** [destroy]: the state file of the first tenant that has the session goes. *)
Fixpoint clear_matching (sid : string) (tenants : list string) : cliP unit :=
  match tenants with
  | [] => Ret tt
  | tenant :: tenants =>
      if decide (tenant = "") then clear_matching sid tenants
      else
        do state <- loadState dir tenant;
        match state with
        | Ok (Some s) => if decide (ss_SessionID s = sid) then do! clearState dir tenant; Ret tt else clear_matching sid tenants
        | _ => clear_matching sid tenants
        end
  end.
Definition destroyAction (sid : string) : cliP (res unit) :=
  if decide (sid = "") then Ret (Err exit_error)
  else
    do r <- rpcall (DestroySession sid);
    match r with
    | Err _ => Ret (Err exit_error)
    | Ok _ => do tenant <- call (Getenv "K8E_SANDBOX_TENANT"); do! clear_matching sid ["default"; tenant]; Ret (Ok tt)
    end.

(** ** Hosts *)

Definition splitHosts (raw : string) : list string :=
  filter (fun h => h <> "") (TrimSpace <$> split_on comma raw).

Definition adjust_hosts (cur : list string) (add remove : string) : list string :=
  filter (fun h => h ∉ splitHosts remove) cur ++ splitHosts add.

Definition adjustAllowedHosts (sid add remove : string) : cliP (res (list string)) :=
  do cur <- rpcall (GetAllowedHosts sid);
  Ret match cur with Ok cur => Ok (adjust_hosts cur add remove) | Err err => Err err end.

Definition resolveAllowedHosts (sid : string) (clear : bool) (hosts : string) (args : list string) (add remove : string)
    : cliP (res (list string)) :=
  if clear then Ret (Ok [])
  else if decide (hosts <> "") then Ret (Ok (splitHosts hosts))
  else match args with
       | arg :: _ => Ret (Ok (splitHosts arg))
       | [] => if decide (add <> "" \/ remove <> "") then adjustAllowedHosts sid add remove
               else Ret (Err (Plain "provide hosts (positional or --hosts) or --add/--remove"))
       end.

(** ** Snapshots *)

Context `{LC : LayerCodec}.
Definition clfs {A} (p : prog LayerStore.fsE A) : cliP A := trans (fun X e => ClFs e) p.

Definition snapshot_archive : string := "/tmp/_snapshot.tar.gz".

(** The number at the start of a text, as [Sscanf] of [%d] reads it. *)
Definition leading_number (s : string) : Z := default 0%Z (ParseInt (fst (span_chars is_digit (trim_left s)))).

Definition snapshotSave (sid name : string) : cliP (res (Z * Z)) :=
  if decide (sid = "" \/ name = "") then Ret (Err exit_error)
  else
    do archived <- rpcall (RpcExec (shell sid ("tar czf " +:+ snapshot_archive +:+ " -C /workspace . 2>/dev/null") 300));
    match archived with
    | Err _ => Ret (Err exit_error)
    | Ok _ =>
        do counted <- rpcall (RpcExec (shell sid "find /workspace -type f | wc -l" 30));
        let fileCount := match counted with Ok r => leading_number (xp_Stdout r) | Err _ => 0%Z end in
        do content <- rpcall (RpcReadFile sid snapshot_archive);
        match content with
        | Err _ => Ret (Err exit_error)
        | Ok content =>
            do saved <- clfs (saveSnapshot name (Signed.bytes_of content));
            match saved with
            | Err _ => Ret (Err exit_error)
            | Ok _ =>
                let size := Z.of_nat (String.length content) in
                do! call (WriteMeta name sid size fileCount);
                do! rpcall (RpcExec (shell sid ("rm -f " +:+ snapshot_archive) 10));
                Ret (Ok (size, fileCount))
            end
        end
    end.

Definition uploadAndExtractSnapshot (sid : string) (payload : bytes) : cliP (res unit) :=
  do up <- rpcall (RpcWriteFile sid snapshot_archive (String.string_of_list_byte payload) "w");
  match up with
  | Err err => Ret (Err err)
  | Ok _ =>
      do r <- rpcall (RpcExec (shell sid ("tar xzf " +:+ snapshot_archive +:+ " -C /workspace && rm -f " +:+ snapshot_archive) 120));
      Ret (exec_ok r)
  end.

(** The rest of [snapshot restore], with what the metadata and the snapshot
    hold. *)
Definition restore_into (metaTenant : string) (payload : bytes) (f : Flags) : cliP (res string) :=
  do created <- rpcall (CreateSession "" (f_tenant f) (f_runtime f) (hosts_flag f) ∅ []);
  match created with
  | Err _ => Ret (Err exit_error)
  | Ok sid =>
      do up <- uploadAndExtractSnapshot sid payload;
      match up with
      | Err _ => do! rpcall (DestroySession sid); Ret (Err exit_error)
      | Ok _ =>
          do! finalizeState dir me (if decide (f_tenant f = "") then metaTenant else f_tenant f) sid;
          Ret (Ok sid)
      end
  end.
Definition snapshotRestore (name base : string) (f : Flags) : cliP (res string) :=
  if decide (name = "") then Ret (Err exit_error)
  else
    do meta <- call (ReadMeta name);
    match meta with
    | Err _ => Ret (Err exit_error)
    | Ok metaTenant =>
        do payload <- clfs (readSnapshotPayload name);
        match payload with
        | Err _ => Ret (Err exit_error)
        | Ok payload =>
            do delta <- (if decide (base = "") then Ret (Ok tt)
                         else do r <- clfs (reportIncrementalDelta name base); Ret match r with Ok _ => Ok tt | Err err => Err err end);
            match delta with Err _ => Ret (Err exit_error) | Ok _ => restore_into metaTenant payload f end
        end
    end.

End run.
