(* ===== verification/CliLaws.v ===== *)
(** * What the processes of a tenant share

    Under the lock an active session is never taken away by a process that
    looks for one; without it, two processes can both become the creator, and
    a process that cannot write its state never ends. *)
From Stdlib Require Import ZArith Lia.
From S2P Require Import Prelude GoText GoTime Prog LayerStore Os CliSession CliRun.

(** What the gateway was asked, and what came of it. *)
Inductive event :=
  | Created (sid : string)
  | Destroyed (sid : string)
  | DestroyRefused (sid : string)
  | Wrote (sid path content : string)
  | Executed (req : ExecReq)
  | Asked (sid path : string).

(** The files, who has the lock, and the requests that were made. *)
Record CliWorld := mkCli { cl_fs : Os.fs; cl_lock : option nat; cl_log : list event }.

Definition rpc_event {X} (r : rpc X) : X -> list event :=
  match r in rpc X return X -> list event with
  | CreateSession _ _ _ _ _ _ => fun x => match x with Ok sid => [Created sid] | Err _ => [] end
  | DestroySession sid => fun x => match x with Ok _ => [Destroyed sid] | Err _ => [DestroyRefused sid] end
  | GetAllowedHosts _ => fun _ => []
  | RpcWriteFile sid path content _ => fun _ => [Wrote sid path content]
  | RpcReadFile sid path => fun _ => [Asked sid path]
  | RpcExec req => fun _ => [Executed req]
  | RpcExecStream req => fun _ => [Executed req]
  end.

(** A file is read if it is there; everything else may be refused.  The lock
    is given to one process at a time. *)
Definition is_read {X} (e : osE X) : bool := match e with Os.ReadFile _ => true | _ => false end.
Definition cli_contract : contract cliE CliWorld := fun X e v x v' =>
  match e in cliE X return X -> Prop with
  | ClOs e => fun r => exists m, os_contract (negb (is_read e)) _ e (cl_fs v) r m /\ v' = mkCli m (cl_lock v) (cl_log v)
  | Flock me => fun r =>
      match r with
      | Ok _ => (cl_lock v = None \/ cl_lock v = Some me) /\ v' = mkCli (cl_fs v) (Some me) (cl_log v)
      | Err _ => v' = v
      end
  | Funlock me => fun _ => v' = mkCli (cl_fs v) (if decide (cl_lock v = Some me) then None else cl_lock v) (cl_log v)
  | Rpc r => fun x => v' = mkCli (cl_fs v) (cl_lock v) (cl_log v ++ rpc_event r x)
  | _ => fun _ => v' = v
  end x.

Section share.
Context `{CJ : CliJSON} (dir tenant : string).
Hypothesis lock_ne : lockPath dir tenant <> statePath dir tenant.
Hypothesis lock_tmp : lockPath dir tenant <> statePath dir tenant +:+ ".tmp".
Hypothesis named : tenant <> "".
Implicit Types v : CliWorld.

Definition tmpPath : string := statePath dir tenant +:+ ".tmp".
Lemma tmp_path_ne : tmpPath <> statePath dir tenant.
Proof. intros H%(f_equal String.length). unfold tmpPath in H. rewrite length_append in H. cbn in H. lia. Qed.

(** The state that is on the disk. *)
Definition state_at v : res (option SessionState) :=
  match cl_fs v !! statePath dir tenant with
  | None => Ok None
  | Some f => match unmarshal_state (f_content f) with Ok s => Ok (Some s) | Err err => Err err end
  end.
Definition shared v : option string := active (state_at v).

(** The lock protects the state and its temporary file. *)
Definition core v : option file * option file := (cl_fs v !! statePath dir tenant, cl_fs v !! tmpPath).

Definition rely (i : nat) v v' : Prop := cl_lock v = Some i -> cl_lock v' = Some i /\ core v' = core v.
Definition guarantee (i : nat) v v' : Prop :=
  (cl_lock v <> Some i -> core v' = core v) /\
  (cl_lock v' = cl_lock v \/ cl_lock v ∈ [None; Some i] /\ cl_lock v' ∈ [None; Some i]) /\
  (is_Some (shared v) -> is_Some (shared v')).

#[export] Instance rely_pre i : PreOrder (rely i).
Proof.
  split; [done|]. intros v1 v2 v3 H1 H2 H. destruct (H1 H) as [Hl E1]. destruct (H2 Hl) as [Hl' E2]. split; [done|]. by rewrite E2.
Qed.

Lemma rely_guarantee i j v v' : i <> j -> guarantee j v v' -> rely i v v'.
Proof.
  intros Hij (Hc & Hl & _) Hi. split; [|apply Hc; congruence]. destruct Hl as [->|[Hin _]]; [done|]. rewrite Hi in Hin.
  apply elem_of_cons in Hin as [|Hin]; [done|]. apply list_elem_of_singleton in Hin. congruence.
Qed.

Lemma shared_core v v' : core v' = core v -> shared v' = shared v.
Proof. intros [= E _]. unfold shared, state_at. by rewrite E. Qed.

Lemma quiet i v v' : core v' = core v -> cl_lock v' = cl_lock v -> guarantee i v v'.
Proof. intros Hc Hl. split_and!; [done|by left|by rewrite (shared_core v v')]. Qed.

Abbreviation rg i p Q := (rgwp cli_contract (rely i) (guarantee i) p Q).

Lemma rg_os {A B} i (e : osE A) (f : A -> cliP B) Q v :
  (forall v1 r m, rely i v v1 -> os_contract (negb (is_read e)) _ e (cl_fs v1) r m ->
    guarantee i v1 (mkCli m (cl_lock v1) (cl_log v1)) /\ rg i (f r) Q (mkCli m (cl_lock v1) (cl_log v1))) ->
  rg i (bind (clos (call e)) f) Q v.
Proof. intros H v1 r v2 HR (m & Hm & ->). by apply (H v1). Qed.

(** What a process holds between its steps. *)
Definition held i (st : option file) v : Prop := cl_lock v = Some i /\ cl_fs v !! statePath dir tenant = st.
Lemma held_rely i st v v' : rely i v v' -> held i st v -> held i st v'.
Proof. intros HR [Hl Hs]. destruct (HR Hl) as [Hl' [= E _]]. split; [done|congruence]. Qed.

Lemma load_free i v : rg i (loadState dir tenant) (fun _ _ => True) v.
Proof. apply rg_os. intros v1 r m _ [-> _]. split; [by apply quiet|]. by intros v2 _. Qed.

Lemma load_held i st v : held i st v ->
  rg i (loadState dir tenant) (fun r v' => held i st v' /\ active r = shared v') v.
Proof.
  intros Hh. apply rg_os. intros v1 r m HR Hm. pose proof (held_rely i st v v1 HR Hh) as Hh1. destruct Hm as [-> Hr].
  split; [by apply quiet|]. intros v2 HR2. pose proof (held_rely i st _ v2 HR2 Hh1) as Hh2. split; [done|].
  unfold shared, state_at. destruct Hh1 as [_ E1], Hh2 as [_ E2]. rewrite E2. rewrite E1 in Hr. destruct st as [file|].
  - destruct Hr as [->|[? _]]; [|done]. by destruct (unmarshal_state (f_content file)).
  - destruct Hr as (err & -> & Hn). by rewrite (Hn eq_refl), decide_True.
Qed.

(** Saving a state where there is none that is active, or one that is. *)
Lemma save_held i st v s : held i st v ->
  (match st with None => None | Some f => match unmarshal_state (f_content f) with Ok s => active (Ok (Some s)) | Err _ => None end end = None
    \/ is_Some (active (Ok (Some s)))) ->
  rg i (saveState dir tenant s) (fun _ v' => cl_lock v' = Some i) v.
Proof.
  intros Hh Hs. unfold saveState. fold tmpPath. apply rg_os. intros v1 r m HR [-> _]. pose proof (held_rely i st v v1 HR Hh) as Hh1.
  split; [by apply quiet|]. destruct r as [_u|err]; [|intros v2 HR2; by apply (held_rely i st _ v2 HR2 Hh1)].
  apply rgwp_bind; [typeclasses eauto|].
  assert (forall w m f, held i st w -> (forall q, q <> tmpPath -> m !! q = cl_fs w !! q) -> f = tt ->
    guarantee i w (mkCli m (cl_lock w) (cl_log w)) /\ held i st (mkCli m (cl_lock w) (cl_log w))) as Htmp.
  { intros w m _ [Hl Hst] Hm _. assert (m !! statePath dir tenant = cl_fs w !! statePath dir tenant) as E.
    { apply Hm. intros H. by apply tmp_path_ne. }
    split; [|split; [done|cbn; by rewrite E]]. split_and!; [by intros Hno|by left|]. unfold shared, state_at. cbn. by rewrite E. }
  intros v2 r v3 HR2 (m & Hm & ->). cbn in HR2. pose proof (held_rely i st _ v2 HR2 Hh1) as Hh2.
  assert (forall q, q <> tmpPath -> m !! q = cl_fs v2 !! q) as Hm'.
  { intros q Hq. destruct Hm as [[_ (t & ->)]|(_ & -> & _)]; [by rewrite lookup_insert_ne|done]. }
  destruct (Htmp v2 m tt Hh2 Hm' eq_refl) as [HG Hh3]. split; [done|].
  destruct r as [_u2|err]. 2: { intros v4 HR4. intros v5 HR5. apply (held_rely i st _ v5 HR5). by apply (held_rely i st _ v4 HR4). }
  intros v4 r v5 HR4 (m2 & Hm2 & ->). pose proof (held_rely i st _ v4 HR4 Hh3) as Hh4.
  assert (forall q, q <> tmpPath -> m2 !! q = cl_fs v4 !! q) as Hm2'.
  { intros q Hq. destruct Hm2 as [[_ (t & ->)]|(_ & _ & f & ->)]; by rewrite lookup_insert_ne. }
  destruct (Htmp v4 m2 tt Hh4 Hm2' eq_refl) as [HG2 Hh5]. split; [done|].
  destruct r as [_u3|err]. 2: { intros v6 HR6 v7 HR7. apply (held_rely i st _ v7 HR7). by apply (held_rely i st _ v6 HR6). }
  destruct Hm2 as [[_ (t & ->)]|(_ & (err & ?) & _)]; [|done].
  intros v6 HR6. assert (held i st v6 /\ cl_fs v6 !! tmpPath = Some (mkFile (marshal_state s) t)) as [Hh6 Ht6].
  { split; [by apply (held_rely i st _ v6 HR6)|]. destruct Hh5 as [Hl5 _]. destruct (HR6 Hl5) as [_ [= _ E]]. rewrite E. cbn.
    by rewrite lookup_insert_eq. }
  intros v7 r v8 HR7 (m3 & Hm3 & ->). pose proof (held_rely i st _ v7 HR7 Hh6) as Hh7.
  assert (cl_fs v7 !! tmpPath = Some (mkFile (marshal_state s) t)) as Ht7.
  { destruct Hh6 as [Hl6 _]. destruct (HR7 Hl6) as [_ [= _ E]]. by rewrite E. }
  assert (guarantee i v7 (mkCli m3 (cl_lock v7) (cl_log v7))) as HG3.
  { destruct Hh7 as [Hl7 Hs7]. destruct Hm3 as [(_ & f & Hf & ->)|(_ & -> & _)]; [|by apply quiet].
    split_and!; [by intros Hno|by left|]. unfold shared, state_at. cbn. rewrite lookup_insert_eq. rewrite Hs7.
    assert (f = mkFile (marshal_state s) t) as -> by congruence. cbn [f_content]. rewrite unmarshal_marshal.
    destruct Hs as [Hno|Hs]; [|done]. intros [x Hx]. exfalso. destruct st as [file|]; cbn in Hx; [|done].
    destruct (unmarshal_state (f_content file)); cbn in *; congruence. }
  split; [exact HG3|]. intros v9 HR9. apply HR9. by destruct Hh7.
Qed.

(** Steps that touch neither the state nor the lock. *)
Lemma rg_calm {X B} i (e : cliE X) (f : X -> cliP B) Q v :
  (forall v1 x v2, cli_contract X e v1 x v2 -> core v2 = core v1 /\ cl_lock v2 = cl_lock v1) ->
  (forall x v2, rg i (f x) Q v2) -> rg i (bind (call e) f) Q v.
Proof. intros He Hf v1 x v2 _ Hx. destruct (He _ _ _ Hx). split; [by apply quiet|apply Hf]. Qed.

Lemma rg_unlock {B} i (f : unit -> cliP B) Q v :
  (forall v2, rg i (f tt) Q v2) -> rg i (bind (call (Funlock i)) f) Q v.
Proof.
  intros Hf v1 [] v2 _ ->. split; [|by apply Hf]. split_and!; [done| |done].
  cbn. destruct (decide (cl_lock v1 = Some i)) as [E|E]; [right; rewrite E; set_solver|by left].
Qed.

(** Taking the lock: the process has the state as it is then. *)
Lemma rg_lock {B} i (f : res unit -> cliP B) Q v :
  (forall v2 st, held i st v2 -> rg i (f (Ok tt)) Q v2) -> (forall err v2, rg i (f (Err err)) Q v2) ->
  rg i (bind (call (Flock i)) f) Q v.
Proof.
  intros Hok Herr v1 r v2 _ Hr. destruct r as [[]|err]; [destruct Hr as [Hl ->]|cbn in Hr; subst v2].
  - split; [|by eapply Hok]. split_and!; [done| |done]. destruct Hl as [Hl|Hl]; cbn; rewrite Hl; [right; set_solver|by left].
  - split; [by apply quiet|apply Herr].
Qed.

(** A file other than the state and its temporary one. *)
Lemma rg_other {A B} i (e : osE A) (f : A -> cliP B) Q v :
  (forall v1 r m, os_contract (negb (is_read e)) _ e (cl_fs v1) r m ->
    m !! statePath dir tenant = cl_fs v1 !! statePath dir tenant /\ m !! tmpPath = cl_fs v1 !! tmpPath) ->
  (forall x v2, rg i (f x) Q v2) -> rg i (bind (clos (call e)) f) Q v.
Proof.
  intros He Hf. apply rg_os. intros v1 r m _ Hm. destruct (He _ _ _ Hm) as [E1 E2]. split; [|apply Hf].
  apply quiet; [unfold core; cbn; by rewrite E1, E2|done].
Qed.

Lemma rg_create_lock {B} i (f : res unit -> cliP B) Q v :
  (forall x v2, rg i (f x) Q v2) -> rg i (bind (clos (call (Create (lockPath dir tenant)))) f) Q v.
Proof.
  apply rg_other. intros v1 r m [[_ (t & ->)]|(_ & -> & _)]; [|done]. by rewrite !lookup_insert_ne by done.
Qed.

Lemma rg_ret {A} i (a : A) v : rg i (Ret a : cliP A) (fun _ _ => True) v.
Proof. by intros v' _. Qed.

Lemma rg_true {A B} i (p : cliP A) (f : A -> cliP B) (Q1 : A -> CliWorld -> Prop) Q v :
  rg i p Q1 v -> (forall a v', Q1 a v' -> rg i (f a) Q v') -> rg i (bind p f) Q v.
Proof. intros Hp Hf. apply rgwp_bind; [typeclasses eauto|]. eapply rgwp_mono; [|exact Hp]. intros a v'. apply Hf. Qed.

Lemma try_claim_rg i v : rg i (tryClaimSession dir i tenant) (fun _ _ => True) v.
Proof.
  apply rg_lock; [|intros; by apply rg_ret]. intros v2 st Hh. eapply rg_true; [by apply load_held|]. intros r v3 _.
  apply rg_unlock. intros v4. by apply rg_ret.
Qed.

Lemma claim_role_rg i v : rg i (claimCreatorRole dir i tenant) (fun _ _ => True) v.
Proof.
  apply rg_lock; [|intros; by apply rg_ret]. intros v2 st Hh. eapply rg_true; [by apply load_held|]. intros r v3 [Hh3 Hr].
  eapply (rg_true _ _ _ (fun _ _ => True)); [|intros a v4 _; apply rg_unlock; intros; by apply rg_ret].
  destruct (active r) as [sid|]; [by apply rg_ret|].
  assert (match st with None => None | Some f => match unmarshal_state (f_content f) with Ok s => active (Ok (Some s)) | Err _ => None end end = None) as Hno.
  { symmetry in Hr. destruct Hh3 as [_ E]. unfold shared, state_at in Hr. rewrite E in Hr. destruct st as [file|]; [|done].
    by destruct (unmarshal_state (f_content file)). }
  apply rg_os. intros v4 now m HR ->. pose proof (held_rely i st v3 v4 HR Hh3) as Hh4. split; [by apply quiet|].
  apply rgwp_call. intros v5 pid v6 HR5 ->. pose proof (held_rely i st _ v5 HR5 Hh4) as Hh5. split; [by apply quiet|].
  eapply rg_true; [apply (save_held i st); [done|by left]|]. intros saved v7 _. by apply rg_ret.
Qed.

Lemma live_creator_rg i state v : rg i (live_creator state) (fun _ _ => True) v.
Proof.
  assert (forall s w, rg i (outlived s) (fun _ _ => True) w) as Hout.
  { intros s w. apply rg_other; [by intros v1 r m ->|]. intros x v2. by apply rg_ret. }
  unfold live_creator. destruct state as [[s|]|err]; [|by apply rg_ret|by apply rg_ret]. case_decide; [|by apply rg_ret].
  eapply rg_true; [|intros a v' _; by apply rg_ret]. unfold creatingPlaceholderStale. destruct (0 <? ss_PID s)%Z; [|apply Hout].
  eapply (rg_true _ _ _ (fun _ _ => True)); [|intros [] v' _; [apply Hout|by apply rg_ret]].
  unfold pidAlive. destruct (ss_PID s <=? 0)%Z; [by apply rg_ret|]. intros v1 x v2 _ ->. split; [by apply quiet|]. by intros v3 _.
Qed.

Lemma resolve_rounds_rg i n v : rg i (resolve_rounds dir i n tenant) (fun _ _ => True) v.
Proof.
  revert v. induction n as [|n IH]; intros v; [by apply rg_ret|]. cbn [resolve_rounds].
  eapply rg_true; [apply try_claim_rg|]. intros claimed v1 _. destruct claimed as [sid|]; [by apply rg_ret|].
  eapply rg_true; [apply load_free|]. intros state v2 _. eapply rg_true; [apply live_creator_rg|]. intros [] v3 _.
  - apply rg_calm; [by intros v4 x v5 ->|]. intros [] v4; [by apply rg_ret|apply IH].
  - eapply rg_true; [apply claim_role_rg|]. intros [sid claimed] v4 _. cbn [snd]. destruct claimed; [by apply rg_ret|apply IH].
Qed.

Lemma tenant_default : or_default tenant = tenant.
Proof. unfold or_default. by rewrite decide_False. Qed.

Lemma resolve_rg i n override v : rg i (resolveSession dir i n tenant override) (fun _ _ => True) v.
Proof.
  unfold resolveSession. case_decide; [by apply rg_ret|]. apply rg_calm; [by intros v1 x v2 ->|]. intros sid v1.
  case_decide; [by apply rg_ret|]. cbv zeta. rewrite tenant_default. apply rg_other; [by intros v2 r m [-> _]|]. intros _d v2.
  apply rg_create_lock. intros [_c|err] v3; [|by apply rg_ret]. eapply rg_true; [apply resolve_rounds_rg|]. intros r v4 _.
  apply rg_unlock. intros v5. by apply rg_ret.
Qed.

Lemma finalize_rg i sid v : sid <> "" -> rg i (finalizeState dir i tenant sid) (fun _ _ => True) v.
Proof.
  intros Hsid. unfold finalizeState. cbv zeta. rewrite tenant_default. apply rg_create_lock. intros [_c|err] v1; [|by apply rg_ret].
  apply rg_lock; [|intros; by apply rg_ret]. intros v2 st Hh. apply rg_os. intros v3 now m HR ->.
  pose proof (held_rely i st v2 v3 HR Hh) as Hh3. split; [by apply quiet|].
  eapply rg_true; [apply (save_held i st); [done|right]|].
  - cbn. rewrite decide_True by done. by eexists.
  - intros saved v4 _. apply rg_unlock. intros v5. by apply rg_ret.
Qed.

(** A process that looks for a session, or one that has created it. *)
Inductive party := Looking (rounds : nat) (override : string) | Finishing (sid : string).
Definition party_ok (p : party) : Prop := match p with Looking _ _ => True | Finishing sid => sid <> "" end.
Definition party_prog (i : nat) (p : party) : cliP unit :=
  match p with
  | Looking n override => do! resolveSession dir i n tenant override; Ret tt
  | Finishing sid => do! finalizeState dir i tenant sid; Ret tt
  end.

(** C13. The state file of a tenant, in every interleaving of processes that
    look for its session and processes that have created one, whatever writes
    and locks are refused: once it names an active session it always names
    one.  No process that looks for a session puts its placeholder in the place
    of an active one. *)
Theorem active_session_stays {S} (h : handler cliE S) (view : S -> CliWorld) (parties : list party) (s : S) c' :
  respects h view cli_contract -> Forall party_ok parties ->
  rtc (pstep h) (imap party_prog parties, s) c' -> is_Some (shared (view s)) -> is_Some (shared (view (snd c'))).
Proof.
  intros Hh Hok Hsteps. pose (inv := pool_inv (A := unit) view cli_contract rely guarantee (fun _ _ _ => True)).
  assert (inv (imap party_prog parties, s)) as Hinv.
  { intros i p Hp. cbn in Hp. rewrite list_lookup_imap in Hp. destruct (parties !! i) as [q|] eqn:Eq; [|done]. injection Hp as <-.
    rewrite Forall_lookup in Hok. specialize (Hok i q Eq). destruct q as [n o|sid]; cbn.
    - eapply rg_true; [apply resolve_rg|]. intros; by apply rg_ret.
    - eapply rg_true; [by apply finalize_rg|]. intros; by apply rg_ret. }
  change (is_Some (shared (view (snd (imap party_prog parties, s)))) -> is_Some (shared (view (snd c')))).
  induction Hsteps as [c|c1 c2 c3 H12 _ IH]; [done|]. intros Hsh. apply IH.
  - eapply pool_step; [exact Hh|typeclasses eauto|intros; by eapply rely_guarantee|exact Hinv|exact H12].
  - destruct (pool_guarantee h view _ _ _ _ c1 c2 Hh (fun i v => reflexivity v) Hinv H12) as (i & _ & _ & Hs). by apply Hs.
Qed.

End share.

(** * What a run leaves at the gateway

    A command that fails to set its session up destroys it; and the runs that
    go wrong, on a desk with a gateway that answers. *)

Definition is_lifecycle (e : event) : bool := match e with Created _ | Destroyed _ | DestroyRefused _ => true | _ => false end.

(** Effects that neither create nor destroy a session. *)
Definition steady X (e : cliE X) : Prop :=
  match e with Rpc r => match r with CreateSession _ _ _ _ _ _ | DestroySession _ => False | _ => True end | _ => True end.
Definition silent X (e : cliE X) : Prop := match e with Rpc _ => False | _ => True end.

Definition grows (P : event -> Prop) (v v' : CliWorld) : Prop := exists new, cl_log v' = cl_log v ++ new /\ Forall P new.

Lemma grows_refl P v : grows P v v.
Proof. exists []. by rewrite app_nil_r. Qed.
Lemma grows_trans P v1 v2 v3 : grows P v1 v2 -> grows P v2 v3 -> grows P v1 v3.
Proof. intros (n1 & E1 & H1) (n2 & E2 & H2). exists (n1 ++ n2). rewrite E2, E1, app_assoc. split; [done|]. by apply Forall_app. Qed.

Definition plain (e : event) : Prop := is_lifecycle e = false.
Lemma steady_grows X (e : cliE X) v x v' : steady X e -> cli_contract X e v x v' -> grows plain v v'.
Proof.
  destruct e as [Y e|me|me| |pid|name|d|Y e|path|name sid size count|name|Y r]; cbn; intros Hs Hc; try (subst v'; apply grows_refl).
  - destruct Hc as (m & _ & ->). exists []. by rewrite app_nil_r.
  - destruct x; [destruct Hc as [_ ->]|subst v']; exists []; by rewrite app_nil_r.
  - subst v'. exists []. by rewrite app_nil_r.
  - subst v'. exists (rpc_event r x). split; [done|]. destruct r; try done; by repeat constructor.
Qed.

Lemma silent_log X (e : cliE X) v x v' : silent X e -> cli_contract X e v x v' -> cl_log v' = cl_log v.
Proof.
  destruct e as [Y e|me|me| |pid|name|d|Y e|path|name sid size count|name|Y r]; cbn; intros Hs Hc; try (by subst v').
  - by destruct Hc as (m & _ & ->).
  - destruct x; [by destruct Hc as [_ ->]|by subst v'].
Qed.

Section clean.
Context `{CJ : CliJSON} (dir : string) (me : nat).

Lemma silent_os {A} (p : osP A) : only false (fun _ _ => True) p -> only false silent (clos p).
Proof. induction p as [a|X e k IH|m]; [done| |done]. intros [_ H]. split; [done|]. intros x. apply IH, H. Qed.

Lemma silent_load tenant : only false silent (loadState dir tenant).
Proof. by split. Qed.
Lemma silent_save tenant s : only false silent (saveState dir tenant s).
Proof.
  unfold saveState. apply only_bind; [by split|]. intros [_u|err]; [|done]. cbv zeta. apply only_bind; [|intros [_w|err]; [by split|done]].
  apply silent_os. apply only_bind; [by split|]. intros [_c|err]; [by split|done].
Qed.
Lemma silent_claim tenant : only false silent (tryClaimSession dir me tenant).
Proof.
  unfold tryClaimSession. apply only_bind; [by split|]. intros [_u|err]; [|done]. apply (only_bind _ _ (loadState dir tenant)); [apply silent_load|].
  intros r. by split.
Qed.
Lemma silent_role tenant : only false silent (claimCreatorRole dir me tenant).
Proof.
  unfold claimCreatorRole. apply only_bind; [by split|]. intros [_u|err]; [|done]. apply (only_bind _ _ (loadState dir tenant)); [apply silent_load|].
  intros r. apply only_bind; [|by split]. destruct (active r); [done|]. apply only_bind; [by split|]. intros now. apply only_bind; [by split|].
  intros pid. apply only_bind; [apply silent_save|done].
Qed.
Lemma silent_live state : only false silent (live_creator state).
Proof.
  destruct state as [[s|]|err]; [|done|done]. unfold live_creator. case_decide; [|done]. apply only_bind; [|done].
  unfold creatingPlaceholderStale, pidAlive, outlived. destruct (0 <? ss_PID s)%Z; [|by split]. apply only_bind.
  - by destruct (ss_PID s <=? 0)%Z; [|split].
  - intros []; [by split|done].
Qed.
Lemma silent_rounds n tenant : only false silent (resolve_rounds dir me n tenant).
Proof.
  induction n as [|n IH]; [done|]. cbn [resolve_rounds]. apply only_bind; [apply silent_claim|]. intros [sid|]; [done|].
  apply only_bind; [apply silent_load|]. intros state. apply only_bind; [apply silent_live|]. intros [].
  - apply only_bind; [by split|]. by intros [].
  - apply only_bind; [apply silent_role|]. intros [sid []]; [done|exact IH].
Qed.
Lemma silent_resolve n tenant override : only false silent (resolveSession dir me n tenant override).
Proof.
  unfold resolveSession. case_decide; [done|]. apply only_bind; [by split|]. intros sid. case_decide; [done|]. cbv zeta.
  apply only_bind; [by split|]. intros _d. apply only_bind; [by split|]. intros [_c|err]; [|done].
  apply only_bind; [apply silent_rounds|]. intros r. by split.
Qed.

Lemma silent_wp {A} (p : cliP A) v : only false silent p -> wp cli_contract p (fun o v' => o <> Panicked /\ cl_log v' = cl_log v) v.
Proof.
  intros Hp. eapply wp_mono; [|apply (only_wp false silent cli_contract (fun v v' => cl_log v' = cl_log v))]; try done.
  - intros o v' [Ho Hl]. split; [|done]. intros E. by specialize (Ho E).
  - intros v1 v2 v3 H1 H2. congruence.
  - intros X e v1 x v2. apply silent_log.
Qed.

Lemma steady_wp {A} (p : cliP A) v : only false steady p -> wp cli_contract p (fun o v' => o <> Panicked /\ grows plain v v') v.
Proof.
  intros Hp. eapply wp_mono; [|apply (only_wp false steady cli_contract (grows plain))]; try done.
  - intros o v' [Ho Hl]. split; [|done]. intros E. by specialize (Ho E).
  - intros v1 v2 v3. apply grows_trans.
  - intros v1. apply grows_refl.
  - intros X e v1 x v2. apply steady_grows.
Qed.

Lemma steady_manifest sid m : only false steady (materializeManifest sid m).
Proof.
  induction m as [|e m IH]; [done|]. cbn [materializeManifest]. apply only_bind.
  - destruct e; cbn [materialize]; try by split. destruct (negb _); [done|by split].
  - intros [_u|err]; [exact IH|done].
Qed.

Lemma steady_resolve_manifest f : only false steady (resolveManifest f).
Proof. unfold resolveManifest. case_decide; [by split|]. by case_decide. Qed.

(** C14. Setting a session up, whatever the gateway, the files and the other
    processes answer: when it fails, every session that the gateway said it
    created for it has been destroyed again, unless the gateway refused the
    request that was made for it; when it succeeds with a session that was
    there, nothing was created; and with a new session, this one and no other
    was created and none was asked to go. *)
Theorem failed_setup_destroys n f v :
  wp cli_contract (ensureSession dir me n f) (fun o v' => exists new, cl_log v' = cl_log v ++ new /\
    match o with
    | Done (Some (Err _)) => forall sid, Created sid ∈ new -> Destroyed sid ∈ new \/ DestroyRefused sid ∈ new
    | Done (Some (Ok (sid, true))) => Created sid ∈ new /\ forall e, e ∈ new -> is_lifecycle e = true -> e = Created sid
    | Done _ => new = []
    | Panicked => False
    end) v.
Proof.
  unfold ensureSession. apply wp_bind. eapply wp_mono; [|apply silent_wp, silent_resolve].
  cbv beta. intros [got|] v1 [Hp Hl1]; [|done]. destruct got as [[sid|err]|].
  2: { apply wp_ret. exists []. rewrite app_nil_r. split; [done|]. by intros sid []%elem_of_nil. }
  2: { apply wp_ret. exists []. by rewrite app_nil_r. }
  case_decide as Hsid. { apply wp_ret. exists []. by rewrite app_nil_r. }
  eapply wp_call. intros r v2 ->. destruct r as [sid'|err].
  2: { apply wp_bind. eapply wp_mono; [|apply silent_wp; by split]. cbv beta. intros [_u|] v3 [Hp3 Hl3]; [|done]. apply wp_ret.
       exists []. rewrite Hl3. cbn. rewrite Hl1, !app_nil_r. split; [done|]. by intros s []%elem_of_nil. }
  set (v2 := mkCli _ _ _).
  assert (forall w (err : error), grows plain v2 w -> wp cli_contract
    (do! rpcall (DestroySession sid'); do! clearState dir (f_tenant f); Ret (Some (Err err : res (string * bool))))
    (fun o v' => exists new, cl_log v' = cl_log v ++ new /\
      match o with
      | Done (Some (Err _)) => forall sid, Created sid ∈ new -> Destroyed sid ∈ new \/ DestroyRefused sid ∈ new
      | Done (Some (Ok (sid, true))) => Created sid ∈ new /\ forall e, e ∈ new -> is_lifecycle e = true -> e = Created sid
      | Done _ => new = []
      | Panicked => False
      end) w) as Hundo.
  { intros w err (new & E & Hnew). eapply wp_call. intros r w1 ->. apply wp_bind. eapply wp_mono; [|apply silent_wp; by split].
    cbv beta. intros [_u|] w2 [Hp2 Hl2]; [|done]. apply wp_ret. exists ([Created sid'] ++ new ++ rpc_event (DestroySession sid') r). split.
    - rewrite Hl2. cbn. rewrite E. cbn. by rewrite Hl1, <- !app_assoc.
    - intros s Hs. assert (s = sid') as ->; [|destruct r; set_solver]. apply elem_of_cons in Hs as [[= ->]|Hs]; [done|].
      apply elem_of_app in Hs as [Hs|Hs]; [rewrite Forall_forall in Hnew; by specialize (Hnew _ Hs)|].
      by destruct r; apply list_elem_of_singleton in Hs. }
  assert (forall w, grows plain v2 w -> exists new, cl_log w = cl_log v ++ new /\
    Created sid' ∈ new /\ forall e, e ∈ new -> is_lifecycle e = true -> e = Created sid') as Hdone.
  { intros w (new & E & Hnew). exists ([Created sid'] ++ new). rewrite E. cbn. rewrite Hl1, <- app_assoc. split; [done|].
    split; [by left|]. intros e [->|He]%elem_of_cons Hlc; [done|]. rewrite Forall_forall in Hnew. specialize (Hnew _ He). congruence. }
  apply wp_bind. eapply wp_mono; [|apply steady_wp, steady_resolve_manifest]. cbv beta. intros [manifest|] v3 [Hp3 Hg3]; [|done].
  destruct manifest as [[m|]|err]; [| |by apply Hundo].
  - apply wp_bind. eapply wp_mono; [|apply steady_wp, steady_manifest]. cbv beta. intros [fin|] v4 [Hp4 Hg4]; [|done].
    pose proof (grows_trans _ _ _ _ Hg3 Hg4) as Hg. destruct fin as [_u|err]; [|by apply Hundo]. apply wp_ret. by apply Hdone.
  - apply wp_ret. by apply Hdone.
Qed.

End clean.

(** ** A desk *)

Definition state_text (s : SessionState) : string :=
  join_with (String comma "") [value_text (ss_SessionID s); value_text (ss_Phase s); value_text (ss_TenantID s); value_text (ss_CreatedAt s);
    value_text (ss_LockedAt s); value_text (ss_PID s)].
Definition read_state (text : string) : res SessionState :=
  match split_on comma text with
  | [a; b; c; d; e; f] =>
      match read_value a, read_value b, read_value c, read_value d, read_value e, read_value f with
      | Some a, Some b, Some c, Some d, Some e, Some f => Ok (mkState a b c d e f)
      | _, _, _, _, _, _ => Err (Plain "state")
      end
  | _ => Err (Plain "state")
  end.

#[local] Instance plain_state : CliJSON.
Proof.
  refine (mkCliJSON state_text read_state _). intros s. unfold read_state, state_text. rewrite split_join; [|done|].
  - rewrite !read_value_text. by destruct s.
  - repeat (constructor; [rewrite no_char_all; by apply bits_chars|]). constructor.
Defined.

(** The gateway of a desk: the sessions that are gone, how many were made,
    and whether commands fail there; the processes that run, by their number,
    are alive. *)
Record Desk := mkDesk { dk_world : CliWorld; dk_gone : list string; dk_made : nat; dk_broken : bool }.
Definition with_world (w : CliWorld) (d : Desk) : Desk := mkDesk w (dk_gone d) (dk_made d) (dk_broken d).

Definition exec_at (d : Desk) (req : ExecReq) : option error :=
  if decide (xr_SessionId req ∈ dk_gone d) then Some (Status NotFound) else if dk_broken d then Some (Status Internal) else None.

Definition live_rpc {X} (r : rpc X) (d : Desk) : X :=
  match r in rpc X return X with
  | CreateSession _ _ _ _ _ _ => Ok ("s" +:+ pretty (dk_made d))
  | DestroySession _ => Ok tt
  | GetAllowedHosts _ => Ok []
  | RpcWriteFile _ _ _ _ => Ok true
  | RpcReadFile _ _ => Ok ""
  | RpcExec req => match exec_at d req with Some err => Err err | None => Ok (mkExecResp "" 2 "run") end
  | RpcExecStream req => match exec_at d req with Some err => Err err | None => Ok None end
  end.

Definition desk_clock : Z := (1000000 * hour)%Z.
Definition live_desk : handler cliE Desk := fun X e d =>
  let w := dk_world d in
  match e in cliE X return X * Desk with
  | ClOs e => let '(x, o) := live_os _ e (mkOs (cl_fs w) desk_clock []) in (x, with_world (mkCli (os_fs o) (cl_lock w) (cl_log w)) d)
  | Flock me =>
      if decide (cl_lock w = None \/ cl_lock w = Some me) then (Ok tt, with_world (mkCli (cl_fs w) (Some me) (cl_log w)) d)
      else (Err (Plain "interrupted"), d)
  | Funlock me => (tt, with_world (mkCli (cl_fs w) (if decide (cl_lock w = Some me) then None else cl_lock w) (cl_log w)) d)
  | Getpid => (7%Z, d)
  | Signal0 pid => (bool_decide (pid = 7%Z), d)
  | Getenv _ => ("", d)
  | Wait _ => (false, d)
  | ClFs e => match e in LayerStore.fsE X return X * Desk with
              | LayerStore.Mkdir _ | LayerStore.Stat _ | LayerStore.Write _ _ | LayerStore.Sync _ | LayerStore.Close _
              | LayerStore.Rename _ _ | LayerStore.Remove _ | LayerStore.RemoveAll _ => (false, d)
              | LayerStore.CreateTemp _ _ | LayerStore.ReadFile _ | LayerStore.ReadDir _ | LayerStore.Info _ => (None, d)
              end
  | ParseManifest _ => (Err (Plain "manifest"), d)
  | WriteMeta _ _ _ _ => (tt, d)
  | ReadMeta _ => (Ok "", d)
  | Rpc r =>
      let x := live_rpc r d in
      (x, mkDesk (mkCli (cl_fs w) (cl_lock w) (cl_log w ++ rpc_event r x)) (dk_gone d)
            (match r with CreateSession _ _ _ _ _ _ => S (dk_made d) | _ => dk_made d end) (dk_broken d))
  end.

Definition desk (m : Os.fs) (gone : list string) (broken : bool) : Desk := mkDesk (mkCli m None []) gone 1 broken.
Definition home : string := "/h".
Definition my_flags (lang : string) : Flags := mkFlags "" "" "" "" "" "" "" lang 30 false false "gvisor" [] [].
Definition state_file (sid phase : string) (pid : Z) : Os.fs :=
  {[statePath home "" := mkFile (state_text (mkState sid phase "default" "" (format_rfc3339 desk_clock) pid)) 0]}.
Definition log_of {A} (r : outcome A * Desk) : list event := cl_log (dk_world (snd r)).
Definition exec_of (sid cmd lang : string) : event := Executed (mkExecReq sid cmd 30 "/workspace" false lang).

Example setup_fails_on_manifest :
  let f := mkFlags "" "" "" "m.yaml" "" "" "" "bash" 30 false false "gvisor" [] [] in
  match run live_desk (ensureSession home 0 5 f) (desk ∅ [] false) with
  | (Done (Some (Err _)), d) => cl_log (dk_world d) = [Created "s1"; Destroyed "s1"]
  | _ => False
  end.
Proof. vm_compute. reflexivity. Qed.

Lemma live_desk_ok : respects live_desk dk_world cli_contract.
Proof.
  intros X e d. destruct e as [Y e|me|me| |pid|name|t|Y e|path|name sid size count|name|Y r]; try done.
  - cbn [live_desk cli_contract]. pose proof (live_os_ok _ e (mkOs (cl_fs (dk_world d)) desk_clock [])) as H. cbn [os_fs] in H.
    destruct (live_os _ e (mkOs (cl_fs (dk_world d)) desk_clock [])) as [x o] eqn:E. cbn [fst snd] in *. exists (os_fs o).
    split; [|done]. destruct e; try exact H. cbn in E. cbn. destruct (cl_fs (dk_world d) !! p) as [file|].
    + injection E as <- <-. split; [done|by left].
    + injection E as <- <-. split; [done|]. by exists not_exist.
  - cbn [live_desk cli_contract]. destruct (decide _) as [H|H]; [split; [exact H|reflexivity]|reflexivity].
  - cbn [live_desk cli_contract]. destruct e; reflexivity.
Qed.

(** The code goes into a file, the session is kept for the next run. *)
Example run_twice :
  let r := run live_desk (runForeground home 0 5 (my_flags "python") "1") (desk ∅ [] false) in
  let r2 := run live_desk (runForeground home 1 5 (my_flags "bash") "ls") (snd r) in
  omap (fun e => match e with Executed req => Some (xr_SessionId req) | Created s => Some s | _ => None end) (log_of r2) = ["s1"; "s1"; "s1"].
Proof. vm_compute. reflexivity. Qed.

(** Two processes that start together both become the creator: the second
    does not look at the placeholder of the first once it has decided. *)
Definition resolver (me : nat) : cliP (option (res string)) := resolveSession home me 5 "default" "".
Example two_creators :
  let c := sched live_desk (repeat 0%nat 7 ++ repeat 1%nat 7 ++ repeat 0%nat 10 ++ repeat 1%nat 10) ([resolver 0; resolver 1], desk ∅ [] false) in
  match fst c with [Ret (Some (Ok a)); Ret (Some (Ok b))] => bool_decide (a = "" /\ b = "") | _ => false end = true.
Proof. vm_compute. reflexivity. Qed.

Lemma active_session_stays_witness :
  let s := desk (state_file "old" "active" 0) [] false in
  let c' := sched live_desk (repeat 0%nat 9 ++ repeat 1%nat 6 ++ repeat 2%nat 5 ++ repeat 1%nat 4) (imap (party_prog home "default") [Looking 2 ""; Finishing "new"; Looking 2 ""], s) in
  is_Some (shared home "default" (dk_world (snd c'))).
Proof.
  intros s c'. apply (active_session_stays home "default" ltac:(discriminate) ltac:(discriminate) ltac:(discriminate)
    live_desk dk_world [Looking 2 ""; Finishing "new"; Looking 2 ""] s c' live_desk_ok).
  - constructor; [done|]. constructor; [discriminate|]. constructor; [done|constructor].
  - apply sched_steps.
  - exists "old". subst s. vm_compute. reflexivity.
Defined.

(** A single line of TypeScript under its long name is run from a file that
    was not written. *)
Example typescript_single_line :
  needs_file "typescript" "1" = false /\ needs_file "ts" "1" = true /\
  buildCommand "typescript" "1" = "TMPDIR=/workspace tsx /workspace/_k8e_run.ts".
Proof. repeat split. Qed.

(** When the session is gone the command is repeated in a new one, without
    its file. *)
Definition two_lines : string := "1" +:+ String newline "2".
Example retry_without_code :
  log_of (run live_desk (runForeground home 0 5 (my_flags "python") two_lines) (desk (state_file "old" "active" 0) ["old"] false)) =
    [Wrote "old" "/workspace/_k8e_run.py" two_lines; exec_of "old" "python3 /workspace/_k8e_run.py" "python"; Created "s1";
     exec_of "s1" "python3 /workspace/_k8e_run.py" "python"].
Proof. vm_compute. reflexivity. Qed.

(** A command that runs in the background keeps its session to itself: the
    placeholder is never replaced; and its code is not written to a file. *)
Example background_never_finalized :
  let r := run live_desk (runBackground home 0 5 (my_flags "python") two_lines) (desk ∅ [] false) in
  log_of r = [Created "s1"; Executed (mkExecReq "s1" "python3 /workspace/_k8e_run.py" 30 "/workspace" true "")] /\
  match fst (run live_desk (loadState home "") (snd r)) with Done (Ok (Some s)) => ss_Phase s = "creating" | _ => False end.
Proof. vm_compute. split; reflexivity. Qed.

(** A new session whose first command fails is neither kept nor destroyed. *)
Example failed_command_leaks_session :
  let r := run live_desk (runForeground home 0 5 (my_flags "bash") "ls") (desk ∅ [] true) in
  log_of r = [Created "s1"; exec_of "s1" "ls" "bash"] /\
  match fst (run live_desk (loadState home "") (snd r)) with Done (Ok (Some s)) => ss_SessionID s = "" | _ => False end.
Proof. vm_compute. split; reflexivity. Qed.

(** The exit code of the extraction is not looked at. *)
Example failed_extraction_restored :
  fst (run live_desk (restore_into home 0 "" [] (my_flags "")) (desk ∅ [] false)) = Done (Ok "s1").
Proof. vm_compute. reflexivity. Qed.

(** The pattern of repositories lets shell characters through, and the path is
    not checked at all. *)
Example shell_in_repository :
  validateGitRepo "https://h/;id" "" = true /\
  match materialize "s" (GitRepoEntry "x;id" "https://h/r" "") with
  | Vis (Rpc (RpcExec req)) _ => xr_Command req = "git clone --depth 1 -b main -- https://h/r /workspace/x;id"
  | _ => False
  end.
Proof. split; reflexivity. Qed.

(** A disk that takes no writes: once it has the lock file, a process that is
    to become the creator never returns, however long it tries, and does not
    wait in between. *)
Definition full_disk : handler cliE unit := fun X e _ =>
  match e in cliE X return X * unit with
  | ClOs e => (match e in osE Y return Y with
               | Os.ReadFile _ => Err not_exist | Create _ => Err (Plain "full") | Chmod _ => Ok tt | Os.Write _ _ => Err (Plain "full")
               | Os.Rename _ _ => Err (Plain "full") | Os.Remove _ => Ok tt | Os.Stat _ => Err not_exist | Chtimes _ _ => Ok tt
               | MkdirAll _ => Ok tt | Os.ReadDir _ => Ok [] | Random _ => Err (Plain "random") | Now => desk_clock
               end, tt)
  | Flock _ => (Ok tt, tt)
  | Funlock _ => (tt, tt)
  | Getpid => (7%Z, tt)
  | Signal0 _ => (true, tt)
  | Getenv _ => ("", tt)
  | Wait _ => (true, tt)
  | ClFs e => (match e in LayerStore.fsE Y return Y with
               | LayerStore.Mkdir _ | LayerStore.Stat _ | LayerStore.Write _ _ | LayerStore.Sync _ | LayerStore.Close _
               | LayerStore.Rename _ _ | LayerStore.Remove _ | LayerStore.RemoveAll _ => false
               | LayerStore.CreateTemp _ _ | LayerStore.ReadFile _ | LayerStore.ReadDir _ | LayerStore.Info _ => None
               end, tt)
  | ParseManifest _ => (Err (Plain "manifest"), tt)
  | WriteMeta _ _ _ _ => (tt, tt)
  | ReadMeta _ => (Ok "", tt)
  | Rpc r => (match r in rpc Y return Y with
              | CreateSession _ _ _ _ _ _ => Err (Status Internal) | DestroySession _ => Ok tt | GetAllowedHosts _ => Ok []
              | RpcWriteFile _ _ _ _ => Ok true | RpcReadFile _ _ => Ok "" | RpcExec _ => Err (Status Internal) | RpcExecStream _ => Ok None
              end, tt)
  end.
Theorem full_disk_spins dir me n tenant : fst (run full_disk (resolve_rounds dir me n tenant) tt) = Done None.
Proof. induction n as [|n IH]; [done|]. exact IH. Qed.
