(* ===== verification/CliProfile.v ===== *)
(** * Connections of the command line

    [sandboxcli/profile.go], [config.go], [paths.go] and [connect.go]: the
    profiles and the last connection on disk, which of them, the flags and the
    environment decides where a command connects, and [connect], which records
    a gateway. *)
From Stdlib Require Import ZArith Lia.
From S2P Require Import Prelude GoText Prog Os NetAddr.

Record Profile := mkProfile { pr_Endpoint : string; pr_CertDir : string; pr_DeviceName : string }.
#[export] Instance Profile_eq_dec : EqDecision Profile.
Proof. solve_decision. Defined.
Record ProfileFile := mkProfileFile { pf_Version : Z; pf_CurrentProfile : string; pf_Profiles : gmap string Profile }.
Record ResolvedConn := mkConn { rc_Endpoint : string; rc_APIKey : string; rc_CertDir : string; rc_DeviceName : string; rc_Profile : string }.
Record ConnectionConfig := mkConnConfig { cc_Mode : string; cc_Endpoint : string; cc_Agents : list string }.

(** The YAML of the profiles and the JSON of the connection. *)
Class ConnText := mkConnText {
  marshal_profiles : ProfileFile -> string;
  unmarshal_profiles : string -> res ProfileFile;
  marshal_config : ConnectionConfig -> string;
  unmarshal_config : string -> res ConnectionConfig;
  unmarshal_profiles_marshal : forall f, unmarshal_profiles (marshal_profiles f) = Ok f;
  unmarshal_config_marshal : forall c, unmarshal_config (marshal_config c) = Ok c;
}.

(** What [connect] asks of the rest: to dial and verify a gateway, to put
    itself on the path and to install the skills. *)
Inductive connE : Type -> Type :=
  | CnOs {X} (e : osE X) : connE X
  | CnGetenv (name : string) : connE string
  | CnSetenv (name value : string) : connE unit
  | UserHomeDir : connE (res string)
  | CreateTemp (d : string) : connE (res string)
  | CnSync (p : string) : connE (res unit)
  | CnClose (p : string) : connE (res unit)
  | Dial (remote : bool) (endpoint apikey : string) : connE (res unit)
  | VerifyGateway : connE (res unit)
  | EnsurePath : connE unit
  | InstallSkills (agent : string) : connE (res (list string)).

Abbreviation connP := (prog connE).
Definition cnos {A} (p : osP A) : connP A := trans (fun X e => CnOs e) p.

(** A variable of the environment, trimmed. *)
Definition getenv (name : string) : connP string := do v <- call (CnGetenv name); Ret (TrimSpace v).

(** The first that is not empty. *)
Definition or_else (a b : string) : string := if decide (a = "") then b else a.

(** ** Paths *)

Definition dataDir : connP (res string) :=
  do dir <- getenv "K8E_SANDBOX_CERT_DIR";
  if decide (dir <> "") then Ret (Ok (path_Clean dir))
  else try home <- call UserHomeDir; Ret (Ok (path_Join [home; ".k8e/sandbox"])).

Definition DefaultProfilesPath : connP (res string) :=
  try dir <- dataDir; Ret (Ok (path_Join [dir; "profiles.yaml"])).

Definition profileConfigPaths : connP (list string) :=
  do explicit <- getenv "K8E_SANDBOX_CONFIG";
  do default_path <- DefaultProfilesPath;
  do home <- call UserHomeDir;
  Ret ((if decide (explicit = "") then [] else [explicit]) ++
       match default_path with Ok p => [p] | Err _ => [] end ++
       match home with Ok h => if decide (h = "") then [] else [path_Join [h; ".k8e/config.yaml"]] | Err _ => [] end).

Definition expandHome (path : string) : connP string :=
  if decide (path = "~") then
    do home <- call UserHomeDir; Ret match home with Ok h => h | Err _ => path end
  else match strip_prefix "~/" path with
       | Some rest => do home <- call UserHomeDir; Ret match home with Ok h => path_Join [h; rest] | Err _ => path end
       | None => Ret path
       end.

(** ** Files *)

Section conn.
Context `{CT : ConnText}.

Fixpoint load_first (paths : list string) : connP (res (option (ProfileFile * string))) :=
  match paths with
  | [] => Ret (Ok None)
  | path :: paths =>
      do data <- cnos (call (ReadFile path));
      match data with
      | Err err => if decide (err = not_exist) then load_first paths else Ret (Err err)
      | Ok data => Ret match unmarshal_profiles data with Ok f => Ok (Some (f, path)) | Err err => Err err end
      end
  end.

(** [LoadProfileFile]; the warning about the old path is left out. *)
Definition LoadProfileFile : connP (res (option (ProfileFile * string))) :=
  do paths <- profileConfigPaths; load_first paths.

Definition SelectProfileName (file : option ProfileFile) (explicit : string) : connP string :=
  let name := TrimSpace explicit in
  if decide (name <> "") then Ret name
  else
    do name <- getenv "K8E_SANDBOX_PROFILE";
    if decide (name <> "") then Ret name
    else Ret match file with
             | None => ""
             | Some f =>
                 let name := TrimSpace (pf_CurrentProfile f) in
                 if decide (name <> "") then name
                 else if decide (is_Some (pf_Profiles f !! "default")) then "default" else ""
             end.

Definition connectionConfigPath : connP (res string) := try dir <- dataDir; Ret (Ok (path_Join [dir; "config.json"])).

Definition LoadConnectionConfig : connP (res (option ConnectionConfig)) :=
  try path <- connectionConfigPath;
  do data <- cnos (call (ReadFile path));
  Ret match data with
      | Err err => if decide (err = not_exist) then Ok None else Err err
      | Ok data => match unmarshal_config data with Ok c => Ok (Some c) | Err err => Err err end
      end.

Definition SaveConnectionConfig (cfg : ConnectionConfig) : connP (res unit) :=
  try dir <- dataDir;
  try _d <- cnos (call (MkdirAll dir));
  cnos (WriteFile (path_Join [dir; "config.json"]) (marshal_config cfg)).

(** ** Where to connect *)

Definition resolveConnFallback (out : ResolvedConn) : connP ResolvedConn :=
  if decide (TrimSpace (rc_Endpoint out) <> "") then Ret out
  else
    do cfg <- LoadConnectionConfig;
    Ret match cfg with
        | Ok (Some c) => mkConn (TrimSpace (cc_Endpoint c)) (rc_APIKey out) (rc_CertDir out) (rc_DeviceName out) (rc_Profile out)
        | _ => out
        end.

(** The value of a flag, or of its variable. *)
Definition flag_or_env (flag name : string) : connP string :=
  let v := TrimSpace flag in if decide (v = "") then getenv name else Ret v.

Definition ResolveConn (flagEndpoint flagAPIKey flagProfile flagDevice : string) : connP (res ResolvedConn) :=
  do endpoint <- flag_or_env flagEndpoint "K8E_SANDBOX_ENDPOINT";
  do apikey <- flag_or_env flagAPIKey "K8E_SANDBOX_APIKEY";
  do device <- flag_or_env flagDevice "K8E_SANDBOX_DEVICE_NAME";
  do certDir <- getenv "K8E_SANDBOX_CERT_DIR";
  try loaded <- LoadProfileFile;
  do name <- SelectProfileName (fst <$> loaded) flagProfile;
  match loaded with
  | None => do out <- resolveConnFallback (mkConn endpoint apikey certDir device ""); Ret (Ok out)
  | Some (file, _) =>
      if decide (name = "") then do out <- resolveConnFallback (mkConn endpoint apikey certDir device ""); Ret (Ok out)
      else
        match pf_Profiles file !! name with
        | None => Ret (Err (Plain "sandbox profile not found in profiles.yaml"))
        | Some prof =>
            do certDir <- (if decide (certDir = "" /\ TrimSpace (pr_CertDir prof) <> "") then expandHome (TrimSpace (pr_CertDir prof)) else Ret certDir);
            Ret (Ok (mkConn (or_else endpoint (TrimSpace (pr_Endpoint prof))) apikey certDir (or_else device (TrimSpace (pr_DeviceName prof))) name))
        end
  end.

Definition ApplyResolvedConn (r : ResolvedConn) : connP unit :=
  do! (if decide (rc_CertDir r = "") then Ret tt else call (CnSetenv "K8E_SANDBOX_CERT_DIR" (rc_CertDir r)));
  if decide (rc_DeviceName r = "") then Ret tt else call (CnSetenv "K8E_SANDBOX_DEVICE_NAME" (rc_DeviceName r)).

(** ** Recording a connection *)

(** A step on the temporary file; when it fails the file is closed and
    removed. *)
Definition SaveProfileFile (file : ProfileFile) (path : string) : connP (res unit) :=
  let dir := path_Dir path in
  try _d <- cnos (call (MkdirAll dir));
  try tmp <- call (CreateTemp dir);
  let fail (err : error) : connP (res unit) := do! call (CnClose tmp); do! cnos (call (Remove tmp)); Ret (Err err) in
  do mode <- cnos (call (Chmod tmp));
  match mode with
  | Err err => fail err
  | Ok _ =>
      do written <- cnos (call (Write tmp (marshal_profiles file)));
      match written with
      | Err err => fail err
      | Ok _ =>
          do synced <- call (CnSync tmp);
          match synced with
          | Err err => fail err
          | Ok _ =>
              do closed <- call (CnClose tmp);
              do renamed <- (match closed with Err err => Ret (Err err) | Ok _ => cnos (call (Rename tmp path)) end);
              do! cnos (call (Remove tmp));
              Ret renamed
          end
      end
  end.

(** The file with the endpoint as its default profile. *)
Definition with_default (endpoint : string) (f : ProfileFile) : ProfileFile :=
  let existing := default (mkProfile "" "" "") (pf_Profiles f !! "default") in
  mkProfileFile (pf_Version f) "default" (<["default" := mkProfile (TrimSpace endpoint) (pr_CertDir existing) (pr_DeviceName existing)]> (pf_Profiles f)).

Definition SaveConnectProfile (endpoint : string) : connP (res unit) :=
  if decide (TrimSpace endpoint = "") then Ret (Ok tt)
  else
    try loaded <- LoadProfileFile;
    match loaded with
    | Some (file, path) => SaveProfileFile (with_default endpoint file) path
    | None =>
        try path <- DefaultProfilesPath;
        SaveProfileFile (with_default endpoint (mkProfileFile 1 "" ∅)) path
    end.

(** ** [connect] *)

Definition endpointHost (endpoint : string) : string :=
  let endpoint := TrimSpace endpoint in
  let bracketed := match strip_prefix "[" endpoint with
                   | Some r => match cut_at bracket_close r with (h, Some _) => Some h | (_, None) => None end
                   | None => None
                   end in
  match bracketed with
  | Some h => h
  | None => match cut_at colon endpoint with (h, Some rest) => if no_char colon rest then h else endpoint | (_, None) => endpoint end
  end.

Definition isLocalEndpoint (endpoint : string) : bool :=
  bool_decide (ToLower (endpointHost endpoint) ∈ [""; "127.0.0.1"; "localhost"; "::1"; "0.0.0.0"]).

(** Whether the gateway is remote, and its endpoint. *)
Definition resolveConnectMode (endpoint apikey : string) : res (bool * string) :=
  let endpoint := TrimSpace endpoint in
  let apikey := TrimSpace apikey in
  if decide (endpoint = "") then
    if decide (apikey = "") then Ok (false, "") else Err (Plain "remote connect requires --endpoint")
  else if isLocalEndpoint endpoint && bool_decide (apikey = "") then Ok (false, endpoint)
  else Ok (true, endpoint).

Definition cert_files : list string := ["ca.crt"; "client.crt"; "client.key"; "endpoint"].

Record ConnectFlags := mkConnectFlags {
  cf_endpoint : string; cf_apikey : string; cf_profile : string; cf_agent : string;
  cf_skipSkill : bool; cf_skillOnly : bool; cf_skipVerify : bool; cf_resetCerts : bool; cf_skipPath : bool;
}.

Definition exit_error : error := Plain "exit".

Fixpoint remove_all (dir : string) (files : list string) : connP unit :=
  match files with
  | [] => Ret tt
  | f :: files => do! cnos (call (Remove (path_Join [dir; f]))); remove_all dir files
  end.

Definition install (f : ConnectFlags) : connP (res (list string)) :=
  if cf_skipSkill f then Ret (Ok []) else call (InstallSkills (cf_agent f)).

Definition connectSkillOnly (f : ConnectFlags) : connP (res ConnectionConfig) :=
  do! (if cf_skipPath f then Ret tt else call EnsurePath);
  do agents <- install f;
  match agents with
  | Err _ | Ok [] => Ret (Err exit_error)
  | Ok agents =>
      do cfg <- LoadConnectionConfig;
      let cfg := match cfg with Ok (Some c) => c | _ => mkConnConfig "local" "" [] end in
      let cfg := mkConnConfig (cc_Mode cfg) (cc_Endpoint cfg) agents in
      do saved <- SaveConnectionConfig cfg;
      Ret match saved with Ok _ => Ok cfg | Err _ => Err exit_error end
  end.

(** What [connect] does once it knows the gateway: the mode and the
    endpoint. *)
Definition connect_to (f : ConnectFlags) (remote : bool) (endpoint apikey : string) : connP (res ConnectionConfig) :=
  do! (if negb remote && negb (bool_decide (endpoint = "")) then call (CnSetenv "K8E_SANDBOX_ENDPOINT" endpoint) else Ret tt);
  do dialed <- call (Dial remote endpoint apikey);
  do verified <- match dialed with
                 | Err err => Ret (Err err)
                 | Ok _ => if cf_skipVerify f then Ret (Ok tt) else call VerifyGateway
                 end;
  match verified with
  | Err _ => Ret (Err exit_error)
  | Ok _ =>
      do! (if cf_skipPath f then Ret tt else call EnsurePath);
      do agents <- install f;
      match agents with
      | Err _ => Ret (Err exit_error)
      | Ok agents =>
          let cfg := mkConnConfig (if remote then "remote" else "local") endpoint agents in
          do saved <- SaveConnectionConfig cfg;
          match saved with
          | Err _ => Ret (Err exit_error)
          | Ok _ => do! SaveConnectProfile endpoint; Ret (Ok cfg)
          end
      end
  end.

Definition connectAction (f : ConnectFlags) : connP (res ConnectionConfig) :=
  if cf_skillOnly f && cf_skipSkill f then Ret (Err exit_error)
  else if cf_skillOnly f then connectSkillOnly f
  else
    do resolved <- ResolveConn (cf_endpoint f) (cf_apikey f) (cf_profile f) "";
    match resolved with
    | Err _ => Ret (Err exit_error)
    | Ok r =>
        do! ApplyResolvedConn r;
        do! (if cf_resetCerts f && negb (bool_decide (rc_CertDir r = "")) then remove_all (rc_CertDir r) cert_files else Ret tt);
        match resolveConnectMode (rc_Endpoint r) (rc_APIKey r) with
        | Err _ => Ret (Err exit_error)
        | Ok (remote, endpoint) => connect_to f remote endpoint (rc_APIKey r)
        end
    end.

(** [login], once it has a certificate: where it connects is recorded. *)
Definition loginAction (flagEndpoint flagAPIKey flagProfile device : string) : connP (res string) :=
  do resolved <- ResolveConn flagEndpoint flagAPIKey flagProfile (TrimSpace device);
  match resolved with
  | Err _ => Ret (Err exit_error)
  | Ok r =>
      do! ApplyResolvedConn r;
      if decide (rc_Endpoint r = "" \/ rc_APIKey r = "") then Ret (Err exit_error)
      else
        do dialed <- call (Dial true (rc_Endpoint r) (rc_APIKey r));
        match dialed with
        | Err _ => Ret (Err exit_error)
        | Ok _ => do! SaveConnectionConfig (mkConnConfig "remote" (rc_Endpoint r) []); Ret (Ok (rc_Endpoint r))
        end
  end.

(** [newClientFromCtx]: how a command dials. *)
Definition newClient (flagEndpoint flagAPIKey flagProfile : string) : connP (res unit) :=
  do resolved <- ResolveConn flagEndpoint flagAPIKey flagProfile "";
  match resolved with
  | Err _ => Ret (Err exit_error)
  | Ok r =>
      do! ApplyResolvedConn r;
      do dialed <- call (Dial (negb (bool_decide (rc_Endpoint r = ""))) (rc_Endpoint r) (rc_APIKey r));
      Ret match dialed with Ok _ => Ok tt | Err _ => Err exit_error end
  end.

End conn.

(** * Recording a gateway and finding it again

    What [connect] records is where the next command goes, unless a profile
    names a directory of its own for the certificates. *)

Section laws.
Context `{CT : ConnText}.

(** A machine: its files, the environment of the process and the home
    directory. *)
Record ConnWorld := mkCnw { cn_fs : Os.fs; cn_env : gmap string string; cn_home : string }.
Implicit Types v : ConnWorld.

Section home.
Context (home : string).

(** The canonical files, and the old one. *)
Definition sandboxDir : string := path_Join [home; ".k8e/sandbox"].
Definition profilesPath : string := path_Join [sandboxDir; "profiles.yaml"].
Definition configPath : string := path_Join [sandboxDir; "config.json"].
Definition legacyPath : string := path_Join [home; ".k8e/config.yaml"].

(** Requests are served, but for what the rest is asked; a temporary file has
    a name of its own. *)
Definition conn_contract : contract connE ConnWorld := fun X e v x v' =>
  match e in connE X return X -> Prop with
  | CnOs e => fun r => exists m, os_contract false _ e (cn_fs v) r m /\ v' = mkCnw m (cn_env v) (cn_home v)
  | CnGetenv name => fun s => v' = v /\ s = default "" (cn_env v !! name)
  | CnSetenv name value => fun _ => v' = mkCnw (cn_fs v) (<[name := value]> (cn_env v)) (cn_home v)
  | UserHomeDir => fun r => v' = v /\ r = Ok (cn_home v)
  | CreateTemp d => fun r => exists p, r = Ok p /\ cn_fs v !! p = None /\ p ∉ [profilesPath; configPath; legacyPath] /\
      exists t, v' = mkCnw (<[p := mkFile "" t]> (cn_fs v)) (cn_env v) (cn_home v)
  | CnSync _ => fun r => v' = v /\ r = Ok tt
  | CnClose _ => fun r => v' = v /\ r = Ok tt
  | _ => fun _ => v' = v
  end x.

Hypothesis home_named : home <> "".
Hypothesis apart : profilesPath <> legacyPath /\ profilesPath <> configPath.

(** A new process: nothing about the sandbox is in its environment. *)
Definition fresh (m : Os.fs) : ConnWorld := mkCnw m ∅ home.

Lemma getenv_fresh m name : wp conn_contract (getenv name) (fun o v' => o = Done "" /\ v' = fresh m) (fresh m).
Proof. intros s v' [-> ->]. split; [|done]. cbn [fresh cn_env]. by rewrite lookup_empty. Qed.

Lemma flag_fresh m flag name : wp conn_contract (flag_or_env flag name) (fun o v' => o = Done (TrimSpace flag) /\ v' = fresh m) (fresh m).
Proof. unfold flag_or_env. case_decide as E; [|by apply wp_ret]. rewrite E. apply getenv_fresh. Qed.

Lemma dataDir_fresh m : wp conn_contract dataDir (fun o v' => o = Done (Ok sandboxDir) /\ v' = fresh m) (fresh m).
Proof.
  unfold dataDir. apply wp_bind. eapply wp_mono; [|apply getenv_fresh]. cbv beta. intros o v1 [-> ->].
  rewrite decide_False by (intros H; by apply H). eapply wp_call. by intros r v1 [-> ->].
Qed.

Lemma default_path_fresh m : wp conn_contract DefaultProfilesPath (fun o v' => o = Done (Ok profilesPath) /\ v' = fresh m) (fresh m).
Proof.
  unfold DefaultProfilesPath. apply wp_bind. eapply wp_mono; [|apply dataDir_fresh]. cbv beta. intros o v1 [-> ->]. by apply wp_ret.
Qed.

Lemma paths_fresh m : wp conn_contract profileConfigPaths (fun o v' => o = Done [profilesPath; legacyPath] /\ v' = fresh m) (fresh m).
Proof.
  unfold profileConfigPaths. apply wp_bind. eapply wp_mono; [|apply getenv_fresh]. cbv beta. intros o v1 [-> ->].
  apply wp_bind. eapply wp_mono; [|apply default_path_fresh]. cbv beta. intros o v1 [-> ->].
  eapply wp_call. intros r v1 [-> ->]. apply wp_ret. cbn [fresh cn_home]. by rewrite (decide_True (P := "" = "")), decide_False by done.
Qed.

Lemma wp_os {A B} (e : osE A) (f : A -> connP B) Q v :
  (forall r m, os_contract false _ e (cn_fs v) r m -> wp conn_contract (f r) Q (mkCnw m (cn_env v) (cn_home v))) ->
  wp conn_contract (bind (cnos (call e)) f) Q v.
Proof. intros H r v' (m & Hm & ->). by apply H. Qed.

(** The file that is read: the canonical one, or else the old one. *)
Definition file_at (m : Os.fs) : res (option (ProfileFile * string)) :=
  let read p f := match unmarshal_profiles (f_content f) with Ok x => Ok (Some (x, p)) | Err err => Err err end in
  match m !! profilesPath with
  | Some f => read profilesPath f
  | None => match m !! legacyPath with Some f => read legacyPath f | None => Ok None end
  end.

Lemma load_fresh m : wp conn_contract LoadProfileFile (fun o v' => o = Done (file_at m) /\ v' = fresh m) (fresh m).
Proof.
  unfold LoadProfileFile. apply wp_bind. eapply wp_mono; [|apply paths_fresh]. cbv beta. intros o v1 [-> ->]. cbn [load_first].
  unfold file_at. apply wp_os. intros r m1 [-> Hr]. cbn [cn_fs fresh] in Hr. destruct (m !! profilesPath) as [f|].
  { destruct Hr as [->|[? _]]; [|done]. apply wp_ret. by destruct (unmarshal_profiles (f_content f)). }
  destruct Hr as (err & -> & Hn). rewrite (Hn eq_refl). rewrite decide_True by done.
  apply wp_os. intros r m1 [-> Hr]. cbn [cn_fs fresh] in Hr. destruct (m !! legacyPath) as [f|].
  { destruct Hr as [->|[? _]]; [|done]. apply wp_ret. by destruct (unmarshal_profiles (f_content f)). }
  destruct Hr as (err2 & -> & Hn2). rewrite (Hn2 eq_refl). rewrite decide_True by done. by apply wp_ret.
Qed.

(** Replacing a file of profiles: afterwards it is the new one. *)
Lemma save_exact m file path : path ∈ [profilesPath; legacyPath] ->
  wp conn_contract (SaveProfileFile file path) (fun o v' => o = Done (Ok tt) /\ exists m' t, v' = fresh m' /\
    m' !! path = Some (mkFile (marshal_profiles file) t) /\ forall q, q <> path -> q ∈ [profilesPath; configPath; legacyPath] -> m' !! q = m !! q) (fresh m).
Proof.
  intros Hp. unfold SaveProfileFile. cbv zeta. apply wp_os. intros r m1 [-> Hr]. destruct Hr as [->|[? _]]; [|done].
  eapply wp_call. intros r v1 (tmp & -> & Hnew & Hres & t & ->). cbn [cn_fs cn_env cn_home fresh] in *.
  assert (tmp <> path) as Hne by (intros ->; apply Hres; apply elem_of_cons in Hp as [->|Hp]; [by left|apply list_elem_of_singleton in Hp as ->; right; right; by left]).
  apply wp_os. intros r m2 [-> Hr]. destruct Hr as [->|[? _]]; [|done].
  apply wp_os. intros r m3 [[-> (t3 & ->)]|[? _]]; [|done]. cbn [cn_fs cn_env cn_home].
  eapply wp_call. intros r v1 [-> ->]. eapply wp_call. intros r v1 [-> ->].
  apply wp_os. intros r m4 Hr. cbn [cn_fs] in Hr. rewrite insert_insert_eq in Hr.
  destruct Hr as [(-> & f & Hf & ->)|([?|Hno] & _ & _)]; [|done|by rewrite lookup_insert_eq in Hno].
  rewrite lookup_insert_eq in Hf. injection Hf as <-. cbn [cn_fs cn_env cn_home].
  assert (<[path:=mkFile (marshal_profiles file) t3]> (delete tmp (<[tmp:=mkFile (marshal_profiles file) t3]> m)) !! tmp = None) as Hgone
    by (rewrite lookup_insert_ne by done; by rewrite lookup_delete_eq).
  apply wp_os. intros r m5 Hr. cbn [cn_fs cn_env cn_home] in *. destruct Hr as [(_ & _ & x & Hx)|(_ & -> & _)]; [congruence|].
  apply wp_ret. split; [done|].
  eexists _, t3. split; [reflexivity|]. split; [by rewrite lookup_insert_eq|]. intros q Hq Hin.
  assert (tmp <> q) by (by intros ->). rewrite lookup_insert_ne, lookup_delete_ne, lookup_insert_ne by done. done.
Qed.

(** C15. What is recorded is used.  A process without flags and without
    variables records a gateway, named without blanks around it, over profiles
    that can be read in whichever of the two files, or none, and no file
    operation is refused.  Then a later process without flags and without
    variables connects to it, under the profile default, and the other
    profiles are as they were.  A connect under a profile that names a
    directory for its certificates has set the variable of that directory by
    the time it records, and is not such a process. *)
Theorem recorded_gateway_used m endpoint : endpoint <> "" -> TrimSpace endpoint = endpoint ->
  is_ok (file_at m) = true ->
  wp conn_contract (SaveConnectProfile endpoint) (fun o v' => o = Done (Ok tt) /\ exists m', v' = fresh m' /\
    (forall f p name prof, file_at m = Ok (Some (f, p)) -> name <> "default" -> pf_Profiles f !! name = Some prof ->
      exists f' p', file_at m' = Ok (Some (f', p')) /\ pf_Profiles f' !! name = Some prof) /\
    wp conn_contract (ResolveConn "" "" "" "") (fun o v'' => v'' = fresh m' /\ exists c, o = Done (Ok c) /\
      rc_Endpoint c = endpoint /\ rc_Profile c = "default") (fresh m')) (fresh m).
Proof.
  intros Hne Htrim Hok. unfold SaveConnectProfile. rewrite Htrim, decide_False by done.
  assert (forall f path m' t, path ∈ [profilesPath; legacyPath] -> (path = legacyPath -> m !! profilesPath = None) ->
    m' !! path = Some (mkFile (marshal_profiles (with_default endpoint f)) t) ->
    (forall q, q <> path -> q ∈ [profilesPath; configPath; legacyPath] -> m' !! q = m !! q) ->
    file_at m' = Ok (Some (with_default endpoint f, path))) as Hafter.
  { intros f path m' t Hp Hleg Hin Hfr. unfold file_at. destruct (decide (path = profilesPath)) as [->|Hnp].
    - rewrite Hin. cbn. by rewrite unmarshal_profiles_marshal.
    - apply elem_of_cons in Hp as [->|Hp]; [done|]. apply list_elem_of_singleton in Hp as ->.
      rewrite Hfr, Hleg, Hin by (done || by left). cbn. by rewrite unmarshal_profiles_marshal. }
  assert (forall f m' path, file_at m' = Ok (Some (with_default endpoint f, path)) ->
    wp conn_contract (ResolveConn "" "" "" "") (fun o v'' => v'' = fresh m' /\ exists c, o = Done (Ok c) /\
      rc_Endpoint c = endpoint /\ rc_Profile c = "default") (fresh m')) as Hresolve.
  { intros f m' path Hf. unfold ResolveConn. do 3 (apply wp_bind; eapply wp_mono; [|apply flag_fresh]; cbv beta; intros o v1 [-> ->]).
    apply wp_bind; eapply wp_mono; [|apply getenv_fresh]; cbv beta; intros o v1 [-> ->].
    apply wp_bind; eapply wp_mono; [|apply load_fresh]; cbv beta; intros o v1 [-> ->]. rewrite Hf. cbv iota. cbn [fst].
    apply wp_bind. unfold SelectProfileName. change (TrimSpace "") with "". rewrite decide_False by (intros H; by apply H).
    apply wp_bind; eapply wp_mono; [|apply getenv_fresh]; cbv beta; intros o v1 [-> ->].
    rewrite decide_False by (intros H; by apply H). cbn [fmap option_fmap option_map fst with_default pf_CurrentProfile pf_Profiles].
    change (TrimSpace "default") with "default". rewrite (decide_True (P := "default" <> "")) by done. apply wp_ret. cbv iota.
    rewrite decide_False by done. rewrite lookup_insert_eq. apply wp_bind. cbn [pr_Endpoint pr_CertDir].
    assert (forall certDir, wp conn_contract (Ret (Ok (mkConn (or_else (TrimSpace "") (TrimSpace (TrimSpace endpoint))) (TrimSpace "") certDir
      (or_else (TrimSpace "") (TrimSpace (pr_DeviceName (mkProfile (TrimSpace endpoint) (pr_CertDir (default (mkProfile "" "" "") (pf_Profiles f !! "default")))
        (pr_DeviceName (default (mkProfile "" "" "") (pf_Profiles f !! "default"))))))) "default") : res ResolvedConn))
      (fun o v'' => v'' = fresh m' /\ exists c, o = Done (Ok c) /\ rc_Endpoint c = endpoint /\ rc_Profile c = "default") (fresh m')) as Hret.
    { intros certDir. apply wp_ret. split; [done|]. eexists. split; [done|]. cbn [rc_Endpoint rc_Profile]. split; [|done]. unfold or_else.
      change (TrimSpace "") with "". by rewrite decide_True, !Htrim by done. }
    case_decide as Hc; [|apply wp_ret; apply Hret]. unfold expandHome.
    case_decide; [eapply wp_call; intros r v1 [-> ->]; apply wp_ret; apply Hret|].
    destruct (strip_prefix "~/" _); [eapply wp_call; intros r v1 [-> ->]; apply wp_ret; apply Hret|apply wp_ret; apply Hret]. }
  apply wp_bind. eapply wp_mono; [|apply load_fresh]. cbv beta. intros o v1 [-> ->].
  destruct (file_at m) as [[[f path]|]|err] eqn:Hf; [| |done]; cbv iota.
  - assert (path ∈ [profilesPath; legacyPath] /\ (path = legacyPath -> m !! profilesPath = None)) as [Hp Hleg].
    { unfold file_at in Hf. destruct (m !! profilesPath) as [x|].
      - destruct (unmarshal_profiles (f_content x)); [|done]. injection Hf as _ <-. split; [by left|]. intros E. by destruct apart.
      - destruct (m !! legacyPath) as [x|]; [|done]. destruct (unmarshal_profiles (f_content x)); [|done]. injection Hf as _ <-.
        split; [right; by left|done]. }
    eapply wp_mono; [|by apply save_exact]. cbv beta. intros o v1 (-> & m' & t & -> & Hin & Hfr). split; [done|]. exists m'. split; [done|].
    pose proof (Hafter f path m' t Hp Hleg Hin Hfr) as Hf'. split; [|by eapply Hresolve].
    intros f0 p0 name prof [= <- <-] Hn Hprof. exists (with_default endpoint f), path. split; [done|]. cbn. by rewrite lookup_insert_ne.
  - apply wp_bind. eapply wp_mono; [|apply default_path_fresh]. cbv beta. intros o v1 [-> ->]. cbv iota.
    eapply wp_mono; [|apply save_exact; by left]. cbv beta. intros o v1 (-> & m' & t & -> & Hin & Hfr). split; [done|]. exists m'. split; [done|].
    assert (file_at m' = Ok (Some (with_default endpoint (mkProfileFile 1 "" ∅), profilesPath))) as Hf'.
    { eapply Hafter; [by left| |exact Hin|exact Hfr]. intros E. by destruct apart. }
    split; [by intros|]. by eapply Hresolve.
Qed.

End home.
End laws.

(** ** A machine to look at *)

#[export] Instance Profile_countable : Countable Profile.
Proof.
  refine (inj_countable' (fun p => (pr_Endpoint p, pr_CertDir p, pr_DeviceName p)) (fun x => mkProfile x.1.1 x.1.2 x.2) _). by intros [].
Defined.
Definition profiles_text (f : ProfileFile) : string :=
  join_with (String comma "") [value_text (pf_Version f); value_text (pf_CurrentProfile f); value_text (pf_Profiles f)].
Definition read_profiles (s : string) : res ProfileFile :=
  match split_on comma s with
  | [a; b; c] => match read_value a, read_value b, read_value c with Some a, Some b, Some c => Ok (mkProfileFile a b c) | _, _, _ => Err (Plain "yaml") end
  | _ => Err (Plain "yaml")
  end.
Definition config_text (c : ConnectionConfig) : string := value_text (cc_Mode c, cc_Endpoint c, cc_Agents c).
Definition read_config (s : string) : res ConnectionConfig :=
  match read_value s with Some (a, b, c) => Ok (mkConnConfig a b c) | None => Err (Plain "json") end.

#[local] Instance plain_conn : ConnText.
Proof.
  refine (mkConnText profiles_text read_profiles config_text read_config _ _).
  - intros f. unfold read_profiles, profiles_text. rewrite split_join; [|done|].
    + rewrite !read_value_text. by destruct f.
    + repeat (constructor; [rewrite no_char_all; by apply bits_chars|]). constructor.
  - intros c. unfold read_config, config_text. rewrite read_value_text. by destruct c.
Defined.

(** Gateways answer; what was dialed is kept in the environment. *)
Definition live_conn : handler connE ConnWorld := fun X e v =>
  match e in connE X return X * ConnWorld with
  | CnOs e => let '(x, o) := live_os _ e (mkOs (cn_fs v) 0 []) in (x, mkCnw (os_fs o) (cn_env v) (cn_home v))
  | CnGetenv name => (default "" (cn_env v !! name), v)
  | CnSetenv name value => (tt, mkCnw (cn_fs v) (<[name := value]> (cn_env v)) (cn_home v))
  | UserHomeDir => (Ok (cn_home v), v)
  | CreateTemp d => let p := d +:+ "/.profiles-1.tmp" in (Ok p, mkCnw (<[p := mkFile "" 0]> (cn_fs v)) (cn_env v) (cn_home v))
  | CnSync _ => (Ok tt, v)
  | CnClose _ => (Ok tt, v)
  | Dial _ endpoint _ => (Ok tt, mkCnw (cn_fs v) (<["dialed" := endpoint]> (cn_env v)) (cn_home v))
  | VerifyGateway => (Ok tt, v)
  | EnsurePath => (tt, v)
  | InstallSkills _ => (Ok [], v)
  end.

Definition one_profile (dir : string) : Os.fs :=
  {[profilesPath "/h" := mkFile (profiles_text (mkProfileFile 1 "work" {["work" := mkProfile "old:1" dir ""]})) 0]}.
Definition connecting (endpoint : string) (reset : bool) : ConnectFlags := mkConnectFlags endpoint "key" "" "auto" true false false reset true.
Definition after_connect (m : Os.fs) (reset : bool) : Os.fs := cn_fs (snd (run live_conn (connectAction (connecting "new:1" reset)) (fresh "/h" m))).
(** Where a later command connects. *)
Definition dialed (m : Os.fs) : option string :=
  cn_env (snd (run live_conn (newClient "" "key" "") (fresh "/h" m))) !! "dialed".

Lemma recorded_gateway_used_witness :
  wp (conn_contract "/h") (SaveConnectProfile "new:1") (fun o v' => o = Done (Ok tt) /\ exists m', v' = fresh "/h" m' /\
    (forall f p name prof, file_at "/h" (one_profile "") = Ok (Some (f, p)) -> name <> "default" -> pf_Profiles f !! name = Some prof ->
      exists f' p', file_at "/h" m' = Ok (Some (f', p')) /\ pf_Profiles f' !! name = Some prof) /\
    wp (conn_contract "/h") (ResolveConn "" "" "" "") (fun o v'' => v'' = fresh "/h" m' /\ exists c, o = Done (Ok c) /\
      rc_Endpoint c = "new:1" /\ rc_Profile c = "default") (fresh "/h" m')) (fresh "/h" (one_profile "")).
Proof.
  apply (recorded_gateway_used "/h").
  - discriminate.
  - split; (intros H; apply (bool_decide_eq_true_2 _) in H; vm_compute in H; discriminate).
  - discriminate.
  - reflexivity.
  - vm_compute. reflexivity.
Defined.

(** With a selected profile that names a directory for its certificates, the
    gateway is recorded in that directory, where no later command looks. *)
Example recorded_elsewhere :
  dialed (after_connect (one_profile "") false) = Some "new:1" /\ dialed (after_connect (one_profile "/certs") false) = Some "old:1".
Proof. split; vm_compute; reflexivity. Qed.

(** The certificates of the default directory are not reset. *)
Example default_certs_not_reset :
  let ca := sandboxDir "/h" +:+ "/ca.crt" in
  is_Some (after_connect (<[ca := mkFile "old" 0]> ∅) true !! ca) /\
  after_connect (<["/certs/ca.crt" := mkFile "old" 0]> (one_profile "/certs")) true !! "/certs/ca.crt" = None.
Proof. split; [eexists|]; vm_compute; reflexivity. Qed.
